(* ===== verification/_CoqProject ===== *)
-Q . S2P
Prelude.v
Bytes.v
Extern.v
ProgramWire.v
ProgramState.v
ProgramInstruction.v
Ed25519.v
Processor.v
ProcessorProps.v
Chain.v
Lifecycle.v
Runtime.v
Scenario.v
ProgramClaims.v
BTree.v
Domain.v
Ledger.v
Commitment.v
Storage.v
Reservation.v
ReservationProps.v
HostExtern.v
Account.v
AccountProps.v
HostCrypto.v
Suspension.v
HostCryptoProps.v
Dealer.v
LockJournal.v
LockJournalProps.v
Lock.v
LockProps.v
LockWire.v
ConfirmedReads.v
LockSafety.v
LockChain.v
Settlement.v
SettlementWire.v
SettlementProps.v
SettlementChain.v
SettlementLive.v
Keyper.v
KeyperProps.v
Client.v
ClientProps.v
Observer.v
ObserverProps.v
Evidence.v
EvidenceRpc.v
EvidenceFile.v
EvidenceProps.v
EvidenceQuorum.v
Deploy.v
Devnet.v
CommandLine.v
Transactions.v
LocalDemo.v
Validator.v
LocalRun.v
DevnetRun.v
Alarms.v
LocalProps.v
LocalRunProps.v
DevnetProps.v
DevnetRunProps.v
HostRuntime.v
LockRuntime.v
HostClaims.v
LockClaims.v
SettlementRuntime.v
SettlementClaims.v
KeyperRuntime.v
KeyperClaims.v
ClientClaims.v
ObserverClaims.v
EvidenceRuntime.v
EvidenceClaims.v
DevnetClaims.v
LocalClaims.v
DevnetRunClaims.v
