(* ===== verification/Prelude.v ===== *)
(** * KageB: a verified model of a batch-settled trading pool

    KageB nets the orders of one epoch off chain and settles the residual on Solana.  Traders send
    encrypted one-lot orders to an operator.  Three keypers, two of whom are enough, first approve the
    member set (the lock), then release decryption shares, then recompute and approve the settlement.
    An on-chain program keeps the pool and the epochs, counts the keypers' signatures in the
    transaction, and moves the residual between the pool's vaults and a venue.

    ** The program and its files

    On chain, [src/crates/kageb-program/src]:
    - [ProgramWire] : wire.rs, the configuration, lock and settlement payloads, codecs and digests;
    - [ProgramState] : state.rs and error.rs, the 384-byte pool and epoch records;
    - [ProgramInstruction] : lib.rs and instruction.rs, ids, derived addresses, instruction data, builders;
    - [Ed25519] : ed25519.rs, the strict parser of native verifier instructions and the keyper count;
    - [Processor] : processor.rs, every handler, its checks in the source's order, over a list of accounts.
    [ProcessorProps] inverts the handlers; [Chain] runs them as transactions on a ledger of accounts;
    [Lifecycle] is the abstract machine open, locked, settled, expired, aborted that the ledger refines.

    Off chain, [src/crates/kageb-host/src]:
    - [Domain], [Ledger], [Commitment] : domain.rs, ledger.rs, commitment.rs (intents, netting, roots);
    - [Storage], [Reservation] : admission.rs (journals with file locks, reservations);
    - [Account], [Suspension] : account.rs and the registry of crypto.rs (balances, applied epochs,
      the two-file settlement, releases, suspended keys);
    - [HostCrypto] : crypto.rs (authorizations, submissions, shares, recovery, admission);
    - [LockJournal], [Lock], [ConfirmedReads] : lock.rs (the keyper's journal, packages, snapshots,
      approvals, share release, and the three reads of a node that hand out capabilities);
    - [Settlement] : evidence.rs from [SettlementBalanceV1] on (recomputation, requests, approvals);
    - [Keyper] : keyper.rs (the one-shot child processes and the parent's checks);
    - [Client] : client.rs (the trader's commands);
    - [Observer] : observer.rs (what confirmed transactions show);
    - [Evidence], [EvidenceRpc], [EvidenceFile] : evidence.rs before [SettlementBalanceV1] (the published
      bundle, its verification, the snapshot read from a node, the verification commands);
    - [Dealer] : the [EpochDealer] of crypto.rs;
    - [Deploy], [Devnet] : the first and the last phase of a devnet run in demo.rs (what is deployed, what
      to deploy and what it costs, one attempt with its cleanup, waiting for finality; the content of the
      evidence, the scan for private material, the fresh verifier, the publication);
    - [CommandLine] : bin/kageb.rs, every arm of [main] with its handler, and the [trace] command;
    - [Transactions] : demo.rs, what signing a transaction demands of its signers;
    - [LocalDemo] : demo.rs, the three rehearsals that follow the local demonstration;
    - [Validator] : demo.rs, the ports and the command of the local validator;
    - [LocalRun] : demo.rs, the local demonstration [local_proof] itself: fresh artifacts, the validator's
      health, tokens and direct trades, one locked and settled batch, its results and what is observed;
    - [DevnetRun] : demo.rs, [devnet_proof] from its deployment to its publication: the funded market with
      revoked mints, the batch with two of three keypers, and the private material collected on the way.
    [Alarms] is the shared logic of the demonstrations: an error is an alarm when the source raises it because what
    the script did came out wrong, [calm] says a computation raises none, and [calm_unless] that it raises one
    only for a cause.
    Files named [...Props], [LockWire], [LockSafety], [LockChain], [SettlementWire], [SettlementChain],
    [SettlementLive] and [EvidenceQuorum] hold the lemmas about the file they follow.

    [Extern] and [HostExtern] declare code outside the repository as classes: SHA-256, the Solana runtime
    and system and token programs, ed25519-dalek, threshold_crypto with its bincode forms, sysvars and RPC
    replies.  Each is an argument of what uses it; what is assumed of it is a class of laws ([SystemLaws],
    [TokenLaws], [DalekLaws], [ThresholdLaws], [SysvarsLaws], [KeyperCodecLaws], [ClientCodecLaws],
    [SecretSetsLaws], and for the signers of builders [LocalCodecLaws] and [SetupCodecLaws]).
    [Runtime], [HostRuntime], [LockRuntime], [SettlementRuntime], [KeyperRuntime] and [EvidenceRuntime] are
    executable instances of them on which every theorem with hypotheses is applied.

    ** How code is modelled

    [Result] and [?] are [result] and its bind; a method on [&mut self] returns the state with the result
    and [x ←[s] e; k] keeps the state reached when [e] fails.  Machine integers are [Z] with checked
    operations of their width; byte arrays carry their length ([Bytes.arr]); maps ordered by key are
    [gmap] with the sorted listing of [BTree].  System calls, file contents, node replies and randomness
    are arguments.  A theorem holds for all their outcomes, failures included, unless its own hypotheses say
    otherwise, as those about what succeeds and those of the recovery theorems do.  The runs of coordinator
    operations leave no outcome out.  One of them loses state: [Path::exists] is false when the metadata of
    an existing file cannot be read, so that an opening writes an empty table over it, and what a run keeps
    is stated up to such an opening ([journal_erased], [accounts_erased], [registry_erased]).  Panics
    of the source are values ([Panicked], [ClockOverflow], or an index read as zero behind a length check).

    ** What is proved

    - [ProgramClaims]: the ledger refines the lifecycle at the time its clock shows; reachable epochs satisfy their invariant; lock and
      settlement need two keypers over exactly the recorded digest; a settlement moves exactly the signed
      residual; terminal epochs are frozen; codecs are exact and digests separated.
    - [HostClaims]: netting refines its specification and conserves both assets; reservations are spent
      once and settlement and release exclude each other, unless an opening erased the file; the two-file
      settlement changes nothing, stops between its files or completes, and recovers from crashes; both files
      stay well-typed; a lock is tried a hundred times; admission and recovery meet their policies, and dealt
      shares recover every intent.
    - [LockClaims]: a keyper never approves two packages for one epoch across restarts; confirmed reads hand
      out only what the chain holds; approved packages pass the on-chain lock; locked batches with distinct ciphertexts and unexpired
      authorizations release.
    - [SettlementClaims]: an approved settlement nets the members' signed intents; two approvals agree;
      executing one keeps the pool solvent; an honest batch settles.
    - [KeyperClaims], [ClientClaims]: processes are transparent to the operations they wrap, responses are
      checked, secrets do not leak; a prepared order is an admissible, honest submission.
    - [ObserverClaims], [EvidenceClaims], [DevnetClaims]: what the observer and the evidence verifier accept,
      exactly, and that a verified file shows two keypers' signatures and the recorded token movement; that
      a run goes on only with the public checkpoint deployed by the action the node's state calls for and with
      the rents of that action covered, attempts its cleanup after a deployment however it ends and reports
      what it could not clean up after the command, and publishes only what a fresh process of the program has verified and what holds no secret.
    - [LocalClaims]: every error by which the local demonstration or a rehearsal says that what it did came out
      wrong has a cause outside the host: an altered signature that verifies, a keyper's process that does not
      fail on a short package or signs a second payload, or a node that shows another lot, phase, residual or
      amount; the other alarms are never raised.  It prints one fixed transcript when it succeeds, as a
      complete concrete run does.
    - [DevnetRunClaims]: however a devnet run ends, at most its output is new, and the signing keys, the members'
      draws, the nonces, the dealt shares and the private paths ([run_secret]) cannot be found in it, raw or in
      the six encodings it scans for; the epoch's id is published and the one-off keys of mints, token accounts
      and the deployment's buffer are not scanned for; no member's result differs from the netted one;
      what a successful run prints is true.  A complete concrete run, from an empty program address to the
      published evidence, is computed.

    ** Bounds and fuel

    File locks are tried a hundred times and finality is polled 240 times, with the source's counters, and
    both loops are proved to end in exactly the cases the counter allows; the local validator's health is
    polled 600 times, a confirmed transaction fetched 100 times and a range of ports tried 200 times, with the
    source's counters.  The UTF-8 check recurses with
    one unit of fuel per byte and one more, which is enough because every step consumes a byte.  The
    rehearsals wait for a deadline, and the validator draws ports until one fits, without a bound in the source;
    the model takes a number of turns, and both loops are proved to end with any number past the turn that
    satisfies them.  All
    other recursion is structural.

    ** Not modelled

    The outcomes of both demonstrations are arguments of [CommandLine.main].  Killing the validator when it
    goes out of scope and quoting its log in messages are process management; a directory tree is read as one
    finite snapshot; a transaction that is sent carries its instructions and signers, and its bytes, blockhash
    and signatures stay with the library.
    The token fixture forwards to the spl-token
    processor.  Zeroization of secrets and [Debug] forms have no counterpart; the help texts stand by name,
    and messages of errors that are strings are modelled by their case. *)

From Stdlib Require Import ZArith Lia.
From stdpp Require Import base list gmap sorting countable decidable tactics.

(** ** Fallible computations

    [Result<T, E>] of the source.  The [?] operator is the bind. *)

Inductive result (E A : Type) : Type :=
| Ok (a : A)
| Err (e : E).
Arguments Ok {E A} _.
Arguments Err {E A} _.

Global Instance result_ret {E} : MRet (result E) := fun A a => Ok a.
Global Instance result_bind {E} : MBind (result E) :=
  fun A B f m => match m with Ok a => f a | Err e => Err e end.
Global Instance result_fmap {E} : FMap (result E) :=
  fun A B f m => match m with Ok a => Ok (f a) | Err e => Err e end.
Global Instance result_eq_dec {E A} `{EqDecision E, EqDecision A} : EqDecision (result E A).
Proof. solve_decision. Defined.

(** [Option::ok_or]. *)
Definition ok_or {E A} (e : E) (o : option A) : result E A :=
  match o with Some a => Ok a | None => Err e end.

(** [Result::map_err]. *)
Definition map_err {E F A} (f : E -> F) (r : result E A) : result F A :=
  match r with Ok a => Ok a | Err e => Err (f e) end.

(** [Result::is_ok]. *)
Definition is_ok {E A} (r : result E A) : bool :=
  match r with Ok _ => true | Err _ => false end.

(** [Result::ok]. *)
Definition ok {E A} (r : result E A) : option A :=
  match r with Ok a => Some a | Err _ => None end.

(** The [?] of a method on [&mut self]: an error returns with the state reached so far. *)
Notation "x ←[ s ] e ; k" := (match e with Ok x => k | Err error => (s, Err error) end)
  (at level 20, s at level 99, e at level 100, k at level 200, only parsing) : stdpp_scope.
Notation "' x ←[ s ] e ; k" := (match e with Ok x => k | Err error => (s, Err error) end)
  (at level 20, x pattern, s at level 99, e at level 100, k at level 200, only parsing) : stdpp_scope.

Lemma Ok_inj {E A} (a b : A) : Ok (E := E) a = Ok b -> a = b.
Proof. by intros [= ->]. Qed.

Lemma bind_Ok {E A B} (m : result E A) (f : A -> result E B) b :
  (m ≫= f) = Ok b <-> exists a, m = Ok a /\ f a = Ok b.
Proof. destruct m; cbn; split; naive_solver. Qed.

Lemma bind_Err {E A B} (m : result E A) (f : A -> result E B) e :
  (m ≫= f) = Err e <-> m = Err e \/ exists a, m = Ok a /\ f a = Err e.
Proof. destruct m; cbn; split; naive_solver. Qed.

Lemma guard_Ok {E A} (b : bool) (e : E) (k : result E A) a :
  (if b then Err e else k) = Ok a <-> b = false /\ k = Ok a.
Proof. destruct b; naive_solver. Qed.

Lemma guard_Some {A} (b : bool) (k : option A) a :
  (if b then None else k) = Some a <-> b = false /\ k = Some a.
Proof. destruct b; naive_solver. Qed.

Lemma ok_or_Ok {E A} (e : E) (o : option A) a : ok_or e o = Ok a <-> o = Some a.
Proof. destruct o; cbn; naive_solver. Qed.

Lemma map_err_Ok {E F A} (f : E -> F) (r : result E A) a :
  map_err f r = Ok a <-> r = Ok a.
Proof. destruct r; cbn; naive_solver. Qed.

(** ** Boolean guards

    The source's conditions are kept as booleans; these are the tests on types with
    decidable equality. *)

Declare Scope kageb_scope.
Delimit Scope kageb_scope with kageb.
Global Open Scope kageb_scope.

Notation "a == b" := (bool_decide (a = b)) (at level 70, no associativity) : kageb_scope.
Notation "a != b" := (negb (bool_decide (a = b))) (at level 70, no associativity) : kageb_scope.

Lemma neqb_false P {D : Decision P} : negb (bool_decide P) = false <-> P.
Proof. rewrite negb_false_iff, bool_decide_eq_true. done. Qed.

Lemma neqb_true P {D : Decision P} : negb (bool_decide P) = true <-> ~ P.
Proof. rewrite negb_true_iff, bool_decide_eq_false. done. Qed.

(** [inv_ok]: peel [?], [if .. return Err], and [ok_or] off every hypothesis that says a
    computation returned [Ok].  [bguard]: turn the resulting boolean guards into facts. *)
Ltac inv_ok_step :=
  match goal with
  | H : (_ ≫= _) = Ok _ |- _ => apply bind_Ok in H as (? & ? & H)
  | H : (if _ then Err _ else _) = Ok _ |- _ => apply guard_Ok in H as [? H]
  | H : ok_or _ _ = Ok _ |- _ => apply ok_or_Ok in H
  | H : map_err _ _ = Ok _ |- _ => apply map_err_Ok in H
  | H : (_ ≫= _) = Some _ |- _ => apply bind_Some in H as (? & ? & H)
  | H : (if _ then None else _) = Some _ |- _ => apply guard_Some in H as [? H]
  | H : Ok _ = Ok _ |- _ => injection H as H
  | H : Err _ = Ok _ |- _ => discriminate H
  | H : Ok _ = Err _ |- _ => discriminate H
  | H : None = Some _ |- _ => discriminate H
  | x : (_ * _)%type |- _ => destruct x
  end.
Ltac inv_ok := repeat (inv_ok_step; try (progress cbn beta iota in *)).

Ltac bguard :=
  repeat match goal with
  | H : (_ || _) = false |- _ => apply orb_false_iff in H as [? ?]
  | H : (_ && _) = true |- _ => apply andb_true_iff in H as [? ?]
  | H : negb (bool_decide _) = false |- _ => apply neqb_false in H
  | H : negb (bool_decide _) = true |- _ => apply neqb_true in H
  | H : bool_decide _ = true |- _ => apply bool_decide_eq_true in H
  | H : bool_decide _ = false |- _ => apply bool_decide_eq_false in H
  | H : negb _ = false |- _ => apply negb_false_iff in H
  | H : negb _ = true |- _ => apply negb_true_iff in H
  | H : (_ =? _)%Z = true |- _ => apply Z.eqb_eq in H
  | H : (_ =? _)%Z = false |- _ => apply Z.eqb_neq in H
  | H : (_ <? _)%Z = true |- _ => apply Z.ltb_lt in H
  | H : (_ <? _)%Z = false |- _ => apply Z.ltb_ge in H
  | H : (_ <=? _)%Z = true |- _ => apply Z.leb_le in H
  | H : (_ <=? _)%Z = false |- _ => apply Z.leb_gt in H
  | H : (_ =? _)%nat = true |- _ => apply Nat.eqb_eq in H
  | H : (_ =? _)%nat = false |- _ => apply Nat.eqb_neq in H
  | H : (_ <? _)%nat = true |- _ => apply Nat.ltb_lt in H
  | H : (_ <? _)%nat = false |- _ => apply Nat.ltb_ge in H
  | H : (_ <=? _)%nat = true |- _ => apply Nat.leb_le in H
  | H : (_ <=? _)%nat = false |- _ => apply Nat.leb_gt in H
  end.

(** ** Loops over lists that may fail *)

Section fold.
Context {E A S : Type}.

(** [for x in l { s = f(s, x)?; }] *)
Fixpoint try_fold (f : S -> A -> result E S) (s : S) (l : list A) : result E S :=
  match l with
  | [] => Ok s
  | x :: l => s' ← f s x; try_fold f s' l
  end.

Lemma try_fold_app f s l1 l2 :
  try_fold f s (l1 ++ l2) = (try_fold f s l1 ≫= fun s' => try_fold f s' l2).
Proof.
  revert s. induction l1 as [|x l1 IH]; intros s; [done|].
  cbn. destruct (f s x); cbn; [apply IH | done].
Qed.

(** Loop invariant rule: [I done s] relates the consumed prefix to the accumulator. *)
Lemma try_fold_inv (I : list A -> S -> Prop) f s l s' :
  I [] s ->
  (forall pre x post s1 s2, l = pre ++ x :: post -> I pre s1 -> f s1 x = Ok s2 -> I (pre ++ [x]) s2) ->
  try_fold f s l = Ok s' -> I l s'.
Proof.
  intros H0 Hstep.
  assert (forall post pre s0, l = pre ++ post -> I pre s0 -> try_fold f s0 post = Ok s' -> I l s')
    as Hgen; [|by apply (Hgen l [])].
  induction post as [|x post IH]; intros pre s0 Hl HI Hf; cbn in Hf.
  - injection Hf as <-. by rewrite Hl, app_nil_r.
  - apply bind_Ok in Hf as (s1 & Hs1 & Hf).
    apply (IH (pre ++ [x]) s1); [by rewrite <- app_assoc | by eapply Hstep | done].
Qed.
End fold.

(** [for x in l { f(x)?; }] *)
Fixpoint try_each {E A} (f : A -> result E unit) (l : list A) : result E unit :=
  match l with
  | [] => Ok tt
  | x :: l => f x ;; try_each f l
  end.

Lemma try_each_Ok {E A} (f : A -> result E unit) l u :
  try_each f l = Ok u <-> Forall (fun x => f x = Ok tt) l.
Proof.
  destruct u. induction l as [|x l IH]; cbn [try_each]; [split; constructor|].
  rewrite Forall_cons_iff. split.
  - intros H. apply bind_Ok in H as ([] & ? & ?). split; [done|]. by apply IH.
  - intros [-> ?]. by apply IH.
Qed.

(** [collect::<Result<Vec<_>, _>>()] over a mapped iterator, and loops that push. *)
Fixpoint try_map {E A B} (f : A -> result E B) (l : list A) : result E (list B) :=
  match l with
  | [] => Ok []
  | x :: l => y ← f x; ys ← try_map f l; Ok (y :: ys)
  end.

Lemma try_map_Ok {E A B} (f : A -> result E B) l k :
  try_map f l = Ok k <-> Forall2 (fun x y => f x = Ok y) l k.
Proof.
  revert k. induction l as [|x l IH]; intros k; cbn [try_map].
  - split; [intros [= <-]; constructor | inversion 1; done].
  - split.
    + intros H. inv_ok. subst. constructor; [done|]. by apply IH.
    + inversion 1; subst. rewrite H2. cbn.
      rewrite (proj2 (IH _) H4). done.
Qed.

(** Membership in a mapped list, negatively. *)
Lemma not_elem_of_map {A B} (f : A -> B) b l : b ∉ map f l <-> Forall (fun x => f x <> b) l.
Proof.
  rewrite list_elem_of_In, in_map_iff, list.Forall_forall. split.
  - intros Hn x Hx E. apply Hn. exists x. split; [done|]. by apply list_elem_of_In.
  - intros HF (x & E & Hx%list_elem_of_In). by apply (HF x).
Qed.
