(* ===== verification/Bytes.v ===== *)
(** * Bytes, fixed-size arrays and little-endian integers

    The part of Rust's core library every codec of the workspace is written with:
    [[u8; N]], [try_into], range indexing, [copy_from_slice], [to_le_bytes] and
    [from_le_bytes].  The lemmas relate buffers filled at offsets to concatenations, in both
    directions, and carry all the round-trip theorems. *)

From Stdlib Require Export Strings.Byte Strings.String.
From Stdlib Require Export ZArith Lia.
From stdpp Require Export base list gmap sorting countable decidable tactics.
From S2P Require Import Prelude.

(** ** Bytes *)

Global Instance byte_eq_dec : EqDecision byte := Byte.byte_eq_dec.
Global Program Instance byte_countable : Countable byte :=
  inj_countable Byte.to_N Byte.of_N Byte.of_to_N.

(** A byte as the number it holds, and the low byte of a number. *)
Definition byte_val (b : byte) : Z := Z.of_N (Byte.to_N b).
Definition byte_of (z : Z) : byte :=
  match Byte.of_N (Z.to_N (z mod 256)) with Some b => b | None => x00 end.

Lemma byte_val_range b : (0 <= byte_val b < 256)%Z.
Proof. unfold byte_val. pose proof (Byte.to_N_bounded b). lia. Qed.

Lemma byte_of_val b : byte_of (byte_val b) = b.
Proof.
  unfold byte_of. rewrite Z.mod_small by apply byte_val_range.
  unfold byte_val. by rewrite N2Z.id, Byte.of_to_N.
Qed.

Lemma byte_val_of z : byte_val (byte_of z) = (z mod 256)%Z.
Proof.
  unfold byte_of, byte_val.
  pose proof (Z.mod_pos_bound z 256 ltac:(lia)) as Hb.
  destruct (Byte.of_N _) as [b|] eqn:E.
  - apply Byte.to_of_N in E. rewrite E. lia.
  - apply Byte.of_N_None_iff in E. lia.
Qed.

Lemma byte_val_inj a b : byte_val a = byte_val b -> a = b.
Proof. intros H. by rewrite <- (byte_of_val a), H, byte_of_val. Qed.

(** Byte-string literals [b"..."], and the ones the source ends with [\0]. *)
Definition bstr (s : string) : list byte := String.list_byte_of_string s.
Definition bstr0 (s : string) : list byte := bstr s ++ [x00].

Arguments bstr _%_string.
Arguments bstr0 _%_string.

Definition zeros (n : nat) : list byte := replicate n x00.

Lemma length_zeros n : length (zeros n) = n.
Proof. apply length_replicate. Qed.

(** ** Little-endian integers: [to_le_bytes] and [from_le_bytes] *)

Fixpoint le_bytes (n : nat) (z : Z) : list byte :=
  match n with
  | O => []
  | S n => byte_of z :: le_bytes n (z / 256)
  end.

Fixpoint le_val (l : list byte) : Z :=
  match l with
  | [] => 0
  | b :: l => byte_val b + 256 * le_val l
  end.

Lemma length_le_bytes n z : length (le_bytes n z) = n.
Proof. revert z. induction n; intros z; cbn; [done | by rewrite IHn]. Qed.

Lemma le_val_range l : (0 <= le_val l < 256 ^ Z.of_nat (length l))%Z.
Proof.
  induction l as [|b l IH]; [cbn; lia|].
  pose proof (byte_val_range b). cbn [le_val length].
  rewrite Nat2Z.inj_succ, Z.pow_succ_r by lia. lia.
Qed.

Lemma le_val_bytes n z : le_val (le_bytes n z) = (z mod 256 ^ Z.of_nat n)%Z.
Proof.
  revert z. induction n as [|n IH]; intros z; [cbn; by rewrite Z.mod_1_r|].
  cbn [le_bytes le_val]. rewrite IH, byte_val_of, Nat2Z.inj_succ, Z.pow_succ_r by lia.
  rewrite Z.rem_mul_r by (try apply Z.pow_nonzero; lia). lia.
Qed.

Lemma le_bytes_val l : le_bytes (length l) (le_val l) = l.
Proof.
  induction l as [|b l IH]; [done|]. cbn [length le_bytes le_val].
  pose proof (byte_val_range b).
  replace ((byte_val b + 256 * le_val l) / 256)%Z with (le_val l)
    by (rewrite Z.mul_comm, Z.div_add, (Z.div_small (byte_val b)) by lia; lia).
  rewrite IH. f_equal. apply byte_val_inj.
  rewrite byte_val_of, Z.mul_comm, Z.mod_add by lia. by apply Z.mod_small.
Qed.

Lemma le_bytes_mod n z : le_bytes n (z mod 256 ^ Z.of_nat n) = le_bytes n z.
Proof.
  rewrite <- le_val_bytes. rewrite <- (length_le_bytes n z) at 1. apply le_bytes_val.
Qed.

(** Unsigned and signed machine ranges. *)
Definition u8_ok (z : Z) : Prop := (0 <= z < 2 ^ 8)%Z.
Definition u16_ok (z : Z) : Prop := (0 <= z < 2 ^ 16)%Z.
Definition u32_ok (z : Z) : Prop := (0 <= z < 2 ^ 32)%Z.
Definition u64_ok (z : Z) : Prop := (0 <= z < 2 ^ 64)%Z.
Definition i64_ok (z : Z) : Prop := (- 2 ^ 63 <= z < 2 ^ 63)%Z.
Definition i128_ok (z : Z) : Prop := (- 2 ^ 127 <= z < 2 ^ 127)%Z.

(** Checked arithmetic: [None] outside the width. *)
Definition checked_u64 (z : Z) : option Z := if (0 <=? z)%Z && (z <? 2 ^ 64)%Z then Some z else None.
Definition checked_u32 (z : Z) : option Z := if (0 <=? z)%Z && (z <? 2 ^ 32)%Z then Some z else None.
Definition checked_i128 (z : Z) : option Z := if (- 2 ^ 127 <=? z)%Z && (z <? 2 ^ 127)%Z then Some z else None.
Definition checked_add_u64 (a b : Z) : option Z := checked_u64 (a + b).
Definition checked_sub_u64 (a b : Z) : option Z := checked_u64 (a - b).
Definition checked_mul_u64 (a b : Z) : option Z := checked_u64 (a * b).
Definition checked_add_u32 (a b : Z) : option Z := checked_u32 (a + b).
Definition checked_add_i128 (a b : Z) : option Z := checked_i128 (a + b).
Definition checked_mul_i128 (a b : Z) : option Z := checked_i128 (a * b).
Definition checked_neg_i128 (a : Z) : option Z := checked_i128 (- a).

Lemma checked_u64_Some z v : checked_u64 z = Some v <-> v = z /\ u64_ok z.
Proof.
  unfold checked_u64, u64_ok. destruct (Z.leb_spec 0 z), (Z.ltb_spec z (2 ^ 64)); cbn; naive_solver lia.
Qed.

Lemma checked_u32_Some z v : checked_u32 z = Some v <-> v = z /\ u32_ok z.
Proof.
  unfold checked_u32, u32_ok. destruct (Z.leb_spec 0 z), (Z.ltb_spec z (2 ^ 32)); cbn; naive_solver lia.
Qed.

Lemma checked_i128_Some z v : checked_i128 z = Some v <-> v = z /\ i128_ok z.
Proof.
  unfold checked_i128, i128_ok. destruct (Z.leb_spec (- 2 ^ 127) z), (Z.ltb_spec z (2 ^ 127)); cbn; naive_solver lia.
Qed.

(** [checked]: the facts successful checked operations give.  [run_checked]: evaluate one whose
    range [lia] proves. *)
Ltac checked :=
  unfold checked_add_u64, checked_sub_u64, checked_mul_u64, checked_add_u32, checked_add_i128,
    checked_mul_i128, checked_neg_i128 in *;
  repeat match goal with
  | T : checked_u64 _ = Some _ |- _ => apply checked_u64_Some in T as [-> ?]
  | T : checked_u32 _ = Some _ |- _ => apply checked_u32_Some in T as [-> ?]
  | T : checked_i128 _ = Some _ |- _ => apply checked_i128_Some in T as [-> ?]
  end.
Ltac run_checked :=
  unfold checked_add_u64, checked_sub_u64, checked_mul_u64, checked_add_u32, checked_add_i128,
    checked_mul_i128, checked_neg_i128;
  repeat (first
    [ match goal with
      | |- context [checked_u64 ?z] => rewrite (proj2 (checked_u64_Some z z)) by (split; [done | unfold u64_ok in *; lia])
      | |- context [checked_u32 ?z] => rewrite (proj2 (checked_u32_Some z z)) by (split; [done | unfold u32_ok in *; lia])
      | |- context [checked_i128 ?z] => rewrite (proj2 (checked_i128_Some z z)) by (split; [done | unfold i128_ok in *; lia])
      end ]; cbn [mbind result_bind option_bind ok_or]).

(** [i64] in two's complement: the value of 8 bytes. *)
Definition i64_val (l : list byte) : Z :=
  let u := le_val l in if (u <? 2 ^ 63)%Z then u else (u - 2 ^ 64)%Z.

Lemma le_val_u8 z : u8_ok z -> byte_val (byte_of z) = z.
Proof. intros H. rewrite byte_val_of. by apply Z.mod_small. Qed.

Lemma le_val_u16 z : u16_ok z -> le_val (le_bytes 2 z) = z.
Proof. intros H. rewrite le_val_bytes. by apply Z.mod_small. Qed.

Lemma le_val_u32 z : u32_ok z -> le_val (le_bytes 4 z) = z.
Proof. intros H. rewrite le_val_bytes. by apply Z.mod_small. Qed.

Lemma le_val_u64 z : u64_ok z -> le_val (le_bytes 8 z) = z.
Proof. intros H. rewrite le_val_bytes. by apply Z.mod_small. Qed.

Lemma i64_val_bytes z : i64_ok z -> i64_val (le_bytes 8 z) = z.
Proof.
  unfold i64_ok, i64_val. intros H. cbn zeta. rewrite le_val_bytes.
  change (256 ^ Z.of_nat 8)%Z with (2 ^ 64)%Z.
  destruct (Z.neg_nonneg_cases z) as [Hn|Hp].
  - assert (z mod 2 ^ 64 = z + 2 ^ 64)%Z as ->.
    { symmetry. apply (Z.mod_unique_pos _ _ (-1)); lia. }
    destruct (Z.ltb_spec (z + 2 ^ 64) (2 ^ 63)); lia.
  - rewrite Z.mod_small by lia. destruct (Z.ltb_spec z (2 ^ 63)); lia.
Qed.

Lemma le_bytes_i64_val l : length l = 8 -> le_bytes 8 (i64_val l) = l.
Proof.
  intros Hl. unfold i64_val. cbn zeta. destruct (Z.ltb_spec (le_val l) (2 ^ 63)).
  - rewrite <- Hl. apply le_bytes_val.
  - rewrite <- (le_bytes_val l) at 2. rewrite Hl.
    rewrite <- (le_bytes_mod 8 (le_val l - 2 ^ 64)), <- (le_bytes_mod 8 (le_val l)).
    f_equal. change (256 ^ Z.of_nat 8)%Z with (2 ^ 64)%Z.
    rewrite Zminus_mod, Z_mod_same_full, Z.sub_0_r. by rewrite Z.mod_mod by lia.
Qed.

Lemma le_val_range_len n l :
  length l = n -> (0 <= le_val l < 256 ^ Z.of_nat n)%Z.
Proof. intros <-. apply le_val_range. Qed.

Lemma i64_val_range l : length l = 8 -> i64_ok (i64_val l).
Proof.
  intros H. pose proof (le_val_range_len 8 l H) as Hr.
  change (256 ^ Z.of_nat 8)%Z with (2 ^ 64)%Z in Hr.
  unfold i64_ok, i64_val. cbn zeta. destruct (Z.ltb_spec (le_val l) (2 ^ 63)); lia.
Qed.

(** ** Fixed-size arrays [[u8; N]] *)

Record arr (n : nat) : Type := Arr { arr_list : list byte; arr_len : (length arr_list =? n) = true }.
Arguments Arr {n} _ _.
Arguments arr_list {n} _.
Arguments arr_len {n} _.
Coercion arr_list : arr >-> list.

Lemma arr_eq {n} (a b : arr n) : arr_list a = arr_list b -> a = b.
Proof.
  destruct a as [l Hl], b as [k Hk]. cbn. intros ->. f_equal.
  apply (Eqdep_dec.UIP_dec Bool.bool_dec).
Qed.

Lemma length_arr {n} (a : arr n) : length a = n.
Proof. apply Nat.eqb_eq, arr_len. Qed.

(** [<[u8; N]>::try_from(slice).ok()] *)
Definition try_into (n : nat) (l : list byte) : option (arr n) :=
  match Bool.bool_dec (length l =? n) true with
  | left H => Some (Arr l H)
  | right _ => None
  end.

Lemma try_into_Some n l (a : arr n) : try_into n l = Some a <-> arr_list a = l.
Proof.
  unfold try_into. destruct (Bool.bool_dec _ _) as [H|H]; split.
  - by intros [= <-].
  - intros <-. f_equal. by apply arr_eq.
  - done.
  - intros <-. destruct H. apply arr_len.
Qed.

Lemma try_into_arr {n} (a : arr n) : try_into n a = Some a.
Proof. by apply try_into_Some. Qed.

Lemma try_into_is_Some n l : length l = n -> exists a : arr n, try_into n l = Some a /\ arr_list a = l.
Proof.
  intros H. apply Nat.eqb_eq in H. exists (Arr l H). split; [|done]. by apply try_into_Some.
Qed.

Global Instance arr_eq_dec n : EqDecision (arr n).
Proof.
  intros a b. destruct (decide (arr_list a = arr_list b)) as [H|H].
  - left. by apply arr_eq.
  - right. by intros ->.
Defined.

Global Program Instance arr_countable n : Countable (arr n) :=
  inj_countable arr_list (try_into n) try_into_arr.

(** [[b; N]] *)
Fixpoint length_filled (n : nat) (b : byte) : (length (replicate n b) =? n) = true :=
  match n with O => eq_refl | S n => length_filled n b end.
Definition filled (n : nat) (b : byte) : arr n := Arr (replicate n b) (length_filled n b).

Abbreviation bytes32 := (arr 32).
Abbreviation bytes64 := (arr 64).
Abbreviation Pubkey := (arr 32).

(** [[0; 32]] and [Pubkey::default()]. *)
Definition zero32 : bytes32 := filled 32 x00.

Lemma arr_list_inj {n} (a b : arr n) : arr_list a = arr_list b <-> a = b.
Proof. split; [apply arr_eq | by intros ->]. Qed.

(** ** Range indexing

    [l[lo..hi]] on in-range bounds; every use in the source is preceded by a length check
    that makes the bounds valid.  [l.get(lo..hi)] is the checked form. *)

Definition slice (lo hi : nat) (l : list byte) : list byte := take (hi - lo) (drop lo l).
Definition slice_from (lo : nat) (l : list byte) : list byte := drop lo l.
Definition get_range (lo hi : nat) (l : list byte) : option (list byte) :=
  if (lo <=? hi) && (hi <=? length l) then Some (slice lo hi l) else None.
(** [l[i]], as the byte and as the number it holds. *)
Definition byte_at (i : nat) (l : list byte) : byte := nth i l x00.
Definition u8_at (i : nat) (l : list byte) : Z := byte_val (byte_at i l).

Lemma length_slice lo hi l : hi <= length l -> length (slice lo hi l) = hi - lo.
Proof. intros H. unfold slice. rewrite length_take, length_drop. lia. Qed.

Lemma slice_all l : slice 0 (length l) l = l.
Proof. unfold slice. rewrite drop_0, Nat.sub_0_r. apply firstn_all. Qed.

Lemma slice_split mid lo hi l :
  lo <= mid <= hi -> slice lo hi l = slice lo mid l ++ slice mid hi l.
Proof.
  intros [H1 H2]. unfold slice.
  replace (hi - lo) with ((mid - lo) + (hi - mid)) by lia.
  rewrite <- take_take_drop, drop_drop.
  replace (lo + (mid - lo)) with mid by lia. done.
Qed.

Lemma slice_skip lo hi a l :
  length a <= lo -> slice lo hi (a ++ l) = slice (lo - length a) (hi - length a) l.
Proof.
  intros H. unfold slice. rewrite drop_app_ge by done.
  destruct (decide (lo <= hi)); [f_equal; lia|].
  replace (hi - lo) with 0 by lia. replace (hi - length a - (lo - length a)) with 0 by lia.
  by rewrite !take_0.
Qed.

Lemma slice_hit n a l : length a = n -> slice 0 n (a ++ l) = a.
Proof. intros <-. unfold slice. rewrite drop_0, Nat.sub_0_r. apply take_app_length. Qed.

Lemma slice_hit_nil n a : length a = n -> slice 0 n a = a.
Proof. intros <-. apply slice_all. Qed.

Lemma slice_byte i l : i < length l -> slice i (S i) l = [byte_at i l].
Proof.
  intros H. unfold slice, byte_at. replace (S i - i) with 1 by lia.
  destruct (lookup_lt_is_Some_2 l i H) as [b Hb].
  rewrite (drop_S _ _ _ Hb). cbn. rewrite take_0. f_equal.
  symmetry. by apply nth_lookup_Some.
Qed.

Lemma get_range_Some lo hi l k :
  get_range lo hi l = Some k <-> lo <= hi <= length l /\ k = slice lo hi l.
Proof.
  unfold get_range.
  destruct (Nat.leb_spec lo hi), (Nat.leb_spec hi (length l)); cbn; naive_solver lia.
Qed.

Lemma byte_at_skip i a l : length a <= i -> byte_at i (a ++ l) = byte_at (i - length a) l.
Proof. intros H. unfold byte_at. by rewrite app_nth2 by lia. Qed.

Lemma byte_at_hit b l : byte_at 0 (b :: l) = b.
Proof. done. Qed.

(** ** Filling a zeroed buffer

    [out[off..off + src.len()].copy_from_slice(src)] and [out[off] = b]. *)

Definition put_at (off : nat) (src out : list byte) : list byte := list_inserts off src out.
Definition set_at (off : nat) (b : byte) (out : list byte) : list byte := put_at off [b] out.

(** [for key in keys { out[offset..offset + 32].copy_from_slice(key); offset += 32; }] *)
Definition put_keys {n} (off : nat) (keys : list (arr n)) (out : list byte) : list byte :=
  fst (fold_left (fun '(out, offset) key => (put_at offset (arr_list key) out, offset + n)) keys (out, off)).

Lemma put_at_zeros pre off src m :
  length pre <= off -> off + length src <= length pre + m ->
  put_at off src (pre ++ zeros m)
  = (pre ++ zeros (off - length pre) ++ src) ++ zeros (length pre + m - off - length src).
Proof.
  intros H1 H2. unfold put_at, zeros.
  replace off with (length pre + (off - length pre)) at 1 by lia.
  rewrite list_inserts_app_r, <- !app_assoc. f_equal.
  set (k := off - length pre).
  replace m with (k + (length src + (length pre + m - off - length src))) at 1 by (subst k; lia).
  rewrite replicate_add.
  replace (list_inserts k) with (list_inserts (A := byte) (length (replicate k x00) + 0))
    by (by rewrite length_replicate, Nat.add_0_r).
  rewrite list_inserts_app_r. f_equal.
  rewrite replicate_add. rewrite list_inserts_0_r by (by rewrite length_replicate). done.
Qed.

(** The common case: no gap before the field. *)
Lemma put_at_fill pre off src m :
  length pre = off -> length src <= m ->
  put_at off src (pre ++ zeros m) = (pre ++ src) ++ zeros (m - length src).
Proof.
  intros H1 H2. rewrite put_at_zeros by lia.
  rewrite H1, Nat.sub_diag. cbn [zeros replicate app]. do 2 f_equal. lia.
Qed.

Lemma length_put_at off src out : length (put_at off src out) = length out.
Proof. apply length_inserts. Qed.

(** Overwriting a range of an existing buffer. *)
Lemma put_at_split off src out :
  off + length src <= length out ->
  put_at off src out = take off out ++ src ++ drop (off + length src) out.
Proof.
  intros H. unfold put_at. rewrite <- (take_drop off out) at 1.
  replace off with (length (take off out) + 0) at 1 by (rewrite length_take; lia).
  rewrite list_inserts_app_r. f_equal.
  rewrite <- (take_drop (length src) (drop off out)) at 1. rewrite drop_drop.
  rewrite list_inserts_0_r; [done|]. rewrite length_take, length_drop. lia.
Qed.

Lemma slice_put_at off src out hi :
  off + length src <= length out -> hi = off + length src -> slice off hi (put_at off src out) = src.
Proof.
  intros H ->. rewrite put_at_split by done. rewrite slice_skip by (rewrite length_take; lia).
  rewrite length_take, Nat.min_l by lia.
  replace (off - off) with 0 by lia. apply slice_hit. lia.
Qed.

Lemma slice_put_at_before off src out lo hi :
  off + length src <= length out -> lo <= hi <= off -> slice lo hi (put_at off src out) = slice lo hi out.
Proof.
  intros H Hlh. rewrite put_at_split by done. unfold slice.
  rewrite drop_app_le by (rewrite length_take; lia).
  rewrite take_app_le by (rewrite length_drop, length_take; lia).
  rewrite <- (take_drop off out) at 2. rewrite drop_app_le by (rewrite length_take; lia).
  by rewrite take_app_le by (rewrite length_drop, length_take; lia).
Qed.

Lemma concat_keys_length {n} (keys : list (arr n)) :
  length (concat (map arr_list keys)) = n * length keys.
Proof.
  induction keys as [|k keys IH]; cbn; [lia|]. rewrite length_app, IH, length_arr. lia.
Qed.

Lemma put_keys_fill {n} (keys : list (arr n)) pre off m :
  length pre = off -> n * length keys <= m ->
  put_keys off keys (pre ++ zeros m)
  = (pre ++ concat (map arr_list keys)) ++ zeros (m - n * length keys).
Proof.
  unfold put_keys. revert pre off m.
  induction keys as [|k keys IH]; intros pre off m Hp Hm; cbn.
  - rewrite app_nil_r. do 2 f_equal. lia.
  - cbn in Hm. rewrite put_at_fill by (rewrite ?length_arr; lia).
    rewrite IH by (rewrite ?length_app, ?length_arr; lia).
    rewrite <- !app_assoc, length_arr. do 4 f_equal. lia.
Qed.

Lemma slice_join a b c l r :
  a <= b <= c -> slice a b l ++ slice b c l ++ r = slice a c l ++ r.
Proof. intros H. by rewrite app_assoc, <- slice_split. Qed.

Lemma slice_join_nil a b c l : a <= b <= c -> slice a b l ++ slice b c l = slice a c l.
Proof. intros H. by rewrite <- slice_split. Qed.

Lemma le_bytes_slice n lo hi l :
  hi <= length l -> n = hi - lo -> le_bytes n (le_val (slice lo hi l)) = slice lo hi l.
Proof. intros H ->. rewrite <- (length_slice lo hi l H). apply le_bytes_val. Qed.

Lemma le_bytes_i64_slice lo hi l :
  hi <= length l -> hi - lo = 8 -> le_bytes 8 (i64_val (slice lo hi l)) = slice lo hi l.
Proof. intros H H8. apply le_bytes_i64_val. by rewrite length_slice. Qed.

Lemma byte_of_u8_at i l : i < length l -> [byte_of (u8_at i l)] = slice i (S i) l.
Proof. intros H. unfold u8_at. by rewrite byte_of_val, slice_byte. Qed.

Lemma zeros_slice lo hi l :
  hi <= length l -> Forall (fun b => b = x00) (slice lo hi l) -> zeros (hi - lo) = slice lo hi l.
Proof.
  intros H Hz. unfold zeros. apply replicate_as_elem_of.
  split; [by apply length_slice|]. intros b Hb. apply list_elem_of_In in Hb.
  by apply (proj1 (List.Forall_forall _ _) Hz).
Qed.

(** Decoded integers are within their width. *)
Lemma u8_at_ok i l : u8_ok (u8_at i l).
Proof. apply byte_val_range. Qed.

Lemma u32_slice_ok lo hi l : hi <= length l -> hi - lo = 4 -> u32_ok (le_val (slice lo hi l)).
Proof. intros H H4. apply (le_val_range_len 4). by rewrite length_slice. Qed.

Lemma u64_slice_ok lo hi l : hi <= length l -> hi - lo = 8 -> u64_ok (le_val (slice lo hi l)).
Proof. intros H H8. apply (le_val_range_len 8). by rewrite length_slice. Qed.

Lemma i64_slice_ok lo hi l : hi <= length l -> hi - lo = 8 -> i64_ok (i64_val (slice lo hi l)).
Proof. intros H H8. apply i64_val_range. by rewrite length_slice. Qed.

(** ** Proof automation for codecs *)

Create Rewrite HintDb len.
#[export] Hint Rewrite @length_app @length_arr length_le_bytes length_zeros @concat_keys_length
  @length_put_at : len.

Ltac len := autorewrite with len; cbn [length Nat.add Nat.sub Nat.mul]; lia.

(** [fill]: a buffer filled field by field becomes the concatenation of its fields. *)
Ltac fill_step :=
  first [ rewrite put_at_fill by len | rewrite put_keys_fill by len ];
  rewrite ?length_arr, ?length_le_bytes; cbn [length Nat.sub Nat.mul].
(** A field that leaves a zero gap before it. *)
Ltac fill_gap :=
  rewrite put_at_zeros by len; autorewrite with len; cbn [length Nat.add Nat.sub Nat.mul].
Ltac fill n :=
  unfold set_at;
  change (zeros n) with ([] ++ zeros n);
  repeat first [fill_step | fill_gap];
  cbn [map concat app]; rewrite <- ?app_assoc; change (zeros 0) with (@nil byte);
  cbn [app]; rewrite ?app_nil_r.

(** ** Layouts

    A fixed-width record on the wire is the concatenation of its fields; [ns] are the field
    widths.  [field_at] finds the field a source range [lo..hi] selects, so each range of an
    encoded record is resolved by computation. *)

Fixpoint field_at (off : nat) (ns : list nat) (lo hi : nat) : option nat :=
  match ns with
  | [] => None
  | n :: ns =>
      if (off =? lo) && (off + n =? hi) then Some 0 else S <$> field_at (off + n) ns lo hi
  end.

Fixpoint cut (off : nat) (ns : list nat) (l : list byte) : list (list byte) :=
  match ns with
  | [] => []
  | n :: ns => slice off (off + n) l :: cut (off + n) ns l
  end.

Lemma field_at_ge ns off lo hi k : field_at off ns lo hi = Some k -> off <= lo.
Proof.
  revert off k. induction ns as [|n ns IH]; intros off k; cbn; [done|].
  destruct (Nat.eqb_spec off lo), (Nat.eqb_spec (off + n) hi); cbn; try (intros; lia);
    destruct (field_at (off + n) ns lo hi) eqn:E; cbn; intros; simplify_eq;
    apply IH in E; lia.
Qed.

Lemma slice_field_off fs ns off lo hi k :
  map length fs = ns -> field_at off ns lo hi = Some k ->
  slice (lo - off) (hi - off) (concat fs) = nth k fs [].
Proof.
  revert fs off k. induction ns as [|n ns IH]; intros [|f fs] off k Hl Hk; cbn in *; try done.
  injection Hl as Hf Hl.
  destruct ((off =? lo) && (off + n =? hi)) eqn:E.
  - injection Hk as <-. bguard. subst. rewrite Nat.sub_diag.
    apply slice_hit. lia.
  - destruct (field_at (off + n) ns lo hi) as [k'|] eqn:Hk'; [|done].
    injection Hk as <-. pose proof (field_at_ge _ _ _ _ _ Hk').
    rewrite slice_skip by lia. rewrite <- (IH fs (off + n) k' Hl Hk').
    f_equal; lia.
Qed.

Lemma slice_field fs ns lo hi k :
  map length fs = ns -> field_at 0 ns lo hi = Some k ->
  slice lo hi (concat fs) = nth k fs [].
Proof.
  intros Hl Hk. rewrite <- (slice_field_off fs ns 0 lo hi k Hl Hk). by rewrite !Nat.sub_0_r.
Qed.

Lemma byte_at_slice i l : byte_at i l = byte_at 0 (slice i (S i) l).
Proof.
  unfold byte_at, slice. replace (S i - i) with 1 by lia. revert l.
  induction i; intros [|b l]; cbn; try done.
Qed.

Lemma byte_field fs ns i k :
  map length fs = ns -> field_at 0 ns i (S i) = Some k ->
  byte_at i (concat fs) = byte_at 0 (nth k fs []).
Proof. intros Hl Hk. by rewrite byte_at_slice, (slice_field _ _ _ _ _ Hl Hk). Qed.

Lemma concat_cut off ns l :
  off + sum_list ns = length l -> concat (cut off ns l) = slice off (length l) l.
Proof.
  revert off. induction ns as [|n ns IH]; intros off H; cbn in *.
  - unfold slice. replace (length l - off) with 0 by lia. by rewrite take_0.
  - rewrite IH by lia. rewrite <- slice_split; [done|lia].
Qed.

Lemma concat_cut_all ns l : sum_list ns = length l -> concat (cut 0 ns l) = l.
Proof. intros H. rewrite concat_cut by done. apply slice_all. Qed.

(** [fields H]: resolve every range of [concat fs] in the goal, where [H : map length fs = ns]. *)
Ltac fields_step H :=
  match type of H with
  | map _ ?fs = ?ns =>
    match goal with
    | |- context [slice ?lo ?hi (concat fs)] =>
        let k := eval vm_compute in (field_at 0 ns lo hi) in
        lazymatch k with
        | Some ?k => rewrite (slice_field fs ns lo hi k H eq_refl)
        end
    | |- context [byte_at ?i (concat fs)] =>
        let k := eval vm_compute in (field_at 0 ns i (S i)) in
        lazymatch k with
        | Some ?k => rewrite (byte_field fs ns i k H eq_refl)
        end
    end
  end.
Ltac fields H := unfold u8_at; repeat fields_step H.

(** Side conditions of decoding an encoded value: arrays and machine integers. *)
Create Rewrite HintDb wire.
#[export] Hint Rewrite @try_into_arr : wire.
#[export] Hint Rewrite le_val_u64 le_val_u32 le_val_u16 le_val_u8 i64_val_bytes
  using (first [assumption | done]) : wire.

(** [uncut ns]: a decoded value's encoding is its input.  The goal is [concat fs = bytes];
    each field of [fs] is shown to be the range of [bytes] it was decoded from. *)
Lemma cons_eq {A} (a b : A) l k : a = b -> l = k -> a :: l = b :: k.
Proof. by intros -> ->. Qed.

Lemma byte_of_version i v l : i < length l -> u8_at i l = v -> [byte_of v] = slice i (S i) l.
Proof. intros H <-. by apply byte_of_u8_at. Qed.

Ltac uncut_field :=
  first [ reflexivity
        | eassumption
        | symmetry; eassumption
        | apply le_bytes_slice; lia
        | apply le_bytes_i64_slice; lia
        | apply byte_of_u8_at; lia
        | apply byte_of_version; [lia | assumption] ].
Ltac uncut ns :=
  repeat match goal with
  | H : try_into _ _ = Some _ |- _ => apply try_into_Some in H
  end;
  match goal with
  | |- _ = ?bytes =>
      transitivity (concat (cut 0 ns bytes));
      [ f_equal; cbn [cut Nat.add]; repeat (apply cons_eq; [uncut_field|]); reflexivity
      | apply concat_cut_all; cbn [sum_list sum_list_with fmap list_fmap id]; lia ]
  end.
