(* ===== verification/Extern.v ===== *)
(** * Code the workspace calls and does not contain

    Hashing ([sha2]), the Solana runtime ([solana-program], the system and token programs)
    and Ed25519 are third-party crates.  Each is a class whose fields are the functions the
    source calls; every definition that uses one takes it as an argument, and the theorems
    that rely on documented behaviour name it as a hypothesis. *)

From S2P Require Import Prelude Bytes.

(** [sha2::Sha256::digest]: an arbitrary function to 32 bytes.  No injectivity is assumed. *)
Class Sha256 : Type := sha256 : list byte -> bytes32.

(** [solana_program::program_error::ProgramError]: the variants the source names; the other
    builtin variants only come back from runtime calls and are kept as their code.
    [Panicked] stands for an instruction aborted by a Rust panic. *)
Inductive ProgramError : Type :=
| Custom (code : Z)
| InvalidAccountData
| IncorrectProgramId
| Builtin (code : Z)
| Panicked.
Global Instance ProgramError_eq_dec : EqDecision ProgramError.
Proof. solve_decision. Defined.

(** ** The Solana runtime as the program sees it *)

(** [solana_program::account_info::AccountInfo]: the key and flags are fixed for the
    instruction, lamports, owner and data live in cells the runtime and the callees update. *)
Record AccountInfo : Type := {
  ai_key : Pubkey;
  ai_is_signer : bool;
  ai_is_writable : bool;
  ai_executable : bool;
  ai_owner : Pubkey;
  ai_lamports : Z;
  ai_data : list byte;
}.

(** [solana_program::instruction::{AccountMeta, Instruction}] *)
Record AccountMeta : Type := {
  am_pubkey : Pubkey;
  am_is_signer : bool;
  am_is_writable : bool;
}.
Definition AccountMeta_new (key : Pubkey) (is_signer : bool) : AccountMeta :=
  {| am_pubkey := key; am_is_signer := is_signer; am_is_writable := true |}.
Definition AccountMeta_new_readonly (key : Pubkey) (is_signer : bool) : AccountMeta :=
  {| am_pubkey := key; am_is_signer := is_signer; am_is_writable := false |}.

Record Instruction : Type := {
  ix_program_id : Pubkey;
  ix_accounts : list AccountMeta;
  ix_data : list byte;
}.

(** The cells of one account after a cross-program invocation: lamports, owner, data. *)
Record AccountCells : Type := { ac_lamports : Z; ac_owner : Pubkey; ac_data : list byte }.

Class Solana : Type := {
  (** well-known addresses *)
  system_program_id : Pubkey;
  clock_sysvar_id : Pubkey;
  instructions_sysvar_id : Pubkey;
  ed25519_program_id : Pubkey;
  (** [Pubkey::find_program_address]: address and bump *)
  find_program_address : list (list byte) -> Pubkey -> Pubkey * Z;
  (** [Clock::from_account_info(a)?.unix_timestamp] *)
  clock_unix_timestamp : AccountInfo -> result ProgramError Z;
  (** [Rent::get()?.minimum_balance(len)] *)
  rent_minimum_balance : nat -> result ProgramError Z;
  (** the instructions sysvar *)
  load_current_index_checked : AccountInfo -> result ProgramError Z;
  load_instruction_at_checked : nat -> AccountInfo -> result ProgramError Instruction;
  (** [solana_system_interface::instruction] *)
  system_transfer : Pubkey -> Pubkey -> Z -> Instruction;
  system_allocate : Pubkey -> Z -> Instruction;
  system_assign : Pubkey -> Pubkey -> Instruction;
  (** [spl_token_interface::instruction::transfer_checked]: token program, source, mint,
      destination, authority, amount, decimals *)
  spl_transfer_checked :
    Pubkey -> Pubkey -> Pubkey -> Pubkey -> Pubkey -> Z -> Z -> result ProgramError Instruction;
  (** [invoke_signed]: the cells of the passed accounts after the call.  [invoke] is the
      call without seeds. *)
  invoke_signed :
    Instruction -> list AccountInfo -> list (list (list byte)) ->
    result ProgramError (list AccountCells);
}.
