(* ===== verification/ProgramWire.v ===== *)
(** * The signed wire payloads (crates/kageb-program/src/wire.rs) *)

From S2P Require Import Prelude Bytes Extern.

Definition CONFIG_DOMAIN : list byte := bstr0 "KAGEB_CONFIG_V1".
Definition LOCK_DOMAIN : list byte := bstr0 "KAGEB_LOCK_V1".
Definition SETTLEMENT_DOMAIN : list byte := bstr0 "KAGEB_SETTLEMENT_V1".

(** ** Epoch configuration *)

Record EpochConfigurationV1 : Type := {
  cfg_pool : Pubkey;
  cfg_epoch_id : bytes32;
  cfg_base_mint : Pubkey;
  cfg_quote_mint : Pubkey;
  cfg_base_lot_atoms : Z;
  cfg_quote_atoms_per_lot : Z;
  cfg_minimum_count : Z;
  cfg_lock_threshold : Z;
  cfg_settlement_threshold : Z;
  cfg_keypers : Pubkey * Pubkey * Pubkey;
  cfg_lock_deadline : Z;
  cfg_abort_deadline : Z;
}.

(** [[Pubkey; 3]] as the list its loops run over. *)
Definition keyper_list (k : Pubkey * Pubkey * Pubkey) : list Pubkey :=
  let '(a, b, c) := k in [a; b; c].

Definition EpochConfigurationV1_ENCODED_LEN : nat := 263.

Definition EpochConfigurationV1_encode (c : EpochConfigurationV1) : list byte :=
  let out := zeros 263 in
  let out := set_at 0 (byte_of 1) out in
  let out := put_at 1 (cfg_pool c) out in
  let out := put_at 33 (cfg_epoch_id c) out in
  let out := put_at 65 (cfg_base_mint c) out in
  let out := put_at 97 (cfg_quote_mint c) out in
  let out := put_at 129 (le_bytes 8 (cfg_base_lot_atoms c)) out in
  let out := put_at 137 (le_bytes 8 (cfg_quote_atoms_per_lot c)) out in
  let out := put_at 145 (le_bytes 4 (cfg_minimum_count c)) out in
  let out := set_at 149 (byte_of (cfg_lock_threshold c)) out in
  let out := set_at 150 (byte_of (cfg_settlement_threshold c)) out in
  let out := put_keys 151 (keyper_list (cfg_keypers c)) out in
  let out := put_at 247 (le_bytes 8 (cfg_lock_deadline c)) out in
  let out := put_at 255 (le_bytes 8 (cfg_abort_deadline c)) out in
  out.

Definition EpochConfigurationV1_decode (bytes : list byte) : option EpochConfigurationV1 :=
  if (length bytes != 263) || (u8_at 0 bytes != 1%Z) then None else
  keyper0 ← try_into 32 (slice 151 183 bytes);
  keyper1 ← try_into 32 (slice 183 215 bytes);
  keyper2 ← try_into 32 (slice 215 247 bytes);
  pool ← try_into 32 (slice 1 33 bytes);
  epoch_id ← try_into 32 (slice 33 65 bytes);
  base_mint ← try_into 32 (slice 65 97 bytes);
  quote_mint ← try_into 32 (slice 97 129 bytes);
  Some {|
    cfg_pool := pool;
    cfg_epoch_id := epoch_id;
    cfg_base_mint := base_mint;
    cfg_quote_mint := quote_mint;
    cfg_base_lot_atoms := le_val (slice 129 137 bytes);
    cfg_quote_atoms_per_lot := le_val (slice 137 145 bytes);
    cfg_minimum_count := le_val (slice 145 149 bytes);
    cfg_lock_threshold := u8_at 149 bytes;
    cfg_settlement_threshold := u8_at 150 bytes;
    cfg_keypers := (keyper0, keyper1, keyper2);
    cfg_lock_deadline := i64_val (slice 247 255 bytes);
    cfg_abort_deadline := i64_val (slice 255 263 bytes);
  |}.

(** The value ranges of the Rust field types. *)
Definition EpochConfigurationV1_wf (c : EpochConfigurationV1) : Prop :=
  u64_ok (cfg_base_lot_atoms c) /\ u64_ok (cfg_quote_atoms_per_lot c) /\
  u32_ok (cfg_minimum_count c) /\ u8_ok (cfg_lock_threshold c) /\
  u8_ok (cfg_settlement_threshold c) /\
  i64_ok (cfg_lock_deadline c) /\ i64_ok (cfg_abort_deadline c).

Definition EpochConfigurationV1_fields (c : EpochConfigurationV1) : list (list byte) :=
  [[byte_of 1]; cfg_pool c : list byte; cfg_epoch_id c : list byte; cfg_base_mint c : list byte;
   cfg_quote_mint c : list byte; le_bytes 8 (cfg_base_lot_atoms c);
   le_bytes 8 (cfg_quote_atoms_per_lot c); le_bytes 4 (cfg_minimum_count c);
   [byte_of (cfg_lock_threshold c)]; [byte_of (cfg_settlement_threshold c)];
   (cfg_keypers c).1.1 : list byte; (cfg_keypers c).1.2 : list byte; (cfg_keypers c).2 : list byte;
   le_bytes 8 (cfg_lock_deadline c); le_bytes 8 (cfg_abort_deadline c)].

Lemma EpochConfigurationV1_layout c :
  map length (EpochConfigurationV1_fields c) = [1; 32; 32; 32; 32; 8; 8; 4; 1; 1; 32; 32; 32; 8; 8].
Proof. cbn [map EpochConfigurationV1_fields]. by autorewrite with len. Qed.

Lemma EpochConfigurationV1_encode_fields c :
  EpochConfigurationV1_encode c = concat (EpochConfigurationV1_fields c).
Proof.
  unfold EpochConfigurationV1_encode, EpochConfigurationV1_fields. cbn zeta.
  destruct (cfg_keypers c) as [[k0 k1] k2]. cbn [keyper_list fst snd concat].
  by fill 263.
Qed.

Lemma EpochConfigurationV1_encode_length c : length (EpochConfigurationV1_encode c) = 263.
Proof. rewrite EpochConfigurationV1_encode_fields. cbn [concat EpochConfigurationV1_fields]. len. Qed.

Lemma EpochConfigurationV1_decode_encode c :
  EpochConfigurationV1_wf c ->
  EpochConfigurationV1_decode (EpochConfigurationV1_encode c) = Some c.
Proof.
  intros (H1 & H2 & H3 & H4 & H5 & H6 & H7).
  unfold EpochConfigurationV1_decode. rewrite EpochConfigurationV1_encode_length.
  rewrite EpochConfigurationV1_encode_fields.
  fields (EpochConfigurationV1_layout c).
  cbn [nth EpochConfigurationV1_fields]. unfold byte_at. cbn [nth].
  autorewrite with wire. cbn. destruct c as [? ? ? ? ? ? ? ? ? [[??]?] ? ?]. done.
Qed.

Lemma EpochConfigurationV1_encode_decode bytes c :
  EpochConfigurationV1_decode bytes = Some c -> EpochConfigurationV1_encode c = bytes.
Proof.
  unfold EpochConfigurationV1_decode. intros H. inv_ok. bguard. injection H as <-.
  rewrite EpochConfigurationV1_encode_fields. unfold EpochConfigurationV1_fields. cbn -[slice le_bytes byte_of concat].
  uncut [1; 32; 32; 32; 32; 8; 8; 4; 1; 1; 32; 32; 32; 8; 8].
Qed.

(** ** Lock payload *)

Record LockPayloadV1 : Type := {
  lp_epoch_account : Pubkey;
  lp_configuration_hash : bytes32;
  lp_pre_balance_root : bytes32;
  lp_member_root : bytes32;
  lp_member_count : Z;
  lp_lock_deadline : Z;
  lp_lock_nonce : bytes32;
}.

Definition LockPayloadV1_ENCODED_LEN : nat := 173.

Definition LockPayloadV1_encode (p : LockPayloadV1) : list byte :=
  let out := zeros 173 in
  let out := set_at 0 (byte_of 1) out in
  let out := put_at 1 (lp_epoch_account p) out in
  let out := put_at 33 (lp_configuration_hash p) out in
  let out := put_at 65 (lp_pre_balance_root p) out in
  let out := put_at 97 (lp_member_root p) out in
  let out := put_at 129 (le_bytes 4 (lp_member_count p)) out in
  let out := put_at 133 (le_bytes 8 (lp_lock_deadline p)) out in
  let out := put_at 141 (lp_lock_nonce p) out in
  out.

Definition LockPayloadV1_decode (bytes : list byte) : option LockPayloadV1 :=
  if (length bytes != 173) || (u8_at 0 bytes != 1%Z) then None else
  epoch_account ← try_into 32 (slice 1 33 bytes);
  configuration_hash ← try_into 32 (slice 33 65 bytes);
  pre_balance_root ← try_into 32 (slice 65 97 bytes);
  member_root ← try_into 32 (slice 97 129 bytes);
  lock_nonce ← try_into 32 (slice 141 173 bytes);
  Some {|
    lp_epoch_account := epoch_account;
    lp_configuration_hash := configuration_hash;
    lp_pre_balance_root := pre_balance_root;
    lp_member_root := member_root;
    lp_member_count := le_val (slice 129 133 bytes);
    lp_lock_deadline := i64_val (slice 133 141 bytes);
    lp_lock_nonce := lock_nonce;
  |}.

Definition LockPayloadV1_wf (p : LockPayloadV1) : Prop :=
  u32_ok (lp_member_count p) /\ i64_ok (lp_lock_deadline p).

Definition LockPayloadV1_fields (p : LockPayloadV1) : list (list byte) :=
  [[byte_of 1]; lp_epoch_account p : list byte; lp_configuration_hash p : list byte;
   lp_pre_balance_root p : list byte; lp_member_root p : list byte;
   le_bytes 4 (lp_member_count p); le_bytes 8 (lp_lock_deadline p); lp_lock_nonce p : list byte].

Lemma LockPayloadV1_layout p :
  map length (LockPayloadV1_fields p) = [1; 32; 32; 32; 32; 4; 8; 32].
Proof. cbn [map LockPayloadV1_fields]. by autorewrite with len. Qed.

Lemma LockPayloadV1_encode_fields p : LockPayloadV1_encode p = concat (LockPayloadV1_fields p).
Proof.
  unfold LockPayloadV1_encode, LockPayloadV1_fields. cbn zeta. cbn [concat]. by fill 173.
Qed.

Lemma LockPayloadV1_encode_length p : length (LockPayloadV1_encode p) = 173.
Proof. rewrite LockPayloadV1_encode_fields. cbn [concat LockPayloadV1_fields]. len. Qed.

Lemma LockPayloadV1_decode_encode p :
  LockPayloadV1_wf p -> LockPayloadV1_decode (LockPayloadV1_encode p) = Some p.
Proof.
  intros (H1 & H2). unfold LockPayloadV1_decode.
  rewrite LockPayloadV1_encode_length, LockPayloadV1_encode_fields.
  fields (LockPayloadV1_layout p). cbn [nth LockPayloadV1_fields]. unfold byte_at. cbn [nth].
  autorewrite with wire. cbn. by destruct p.
Qed.

Lemma LockPayloadV1_encode_decode bytes p :
  LockPayloadV1_decode bytes = Some p -> LockPayloadV1_encode p = bytes.
Proof.
  unfold LockPayloadV1_decode. intros H. inv_ok. bguard. injection H as <-.
  rewrite LockPayloadV1_encode_fields. unfold LockPayloadV1_fields.
  cbn -[slice le_bytes byte_of concat].
  uncut [1; 32; 32; 32; 32; 4; 8; 32].
Qed.

(** ** Settlement payload *)

Record SettlementPayloadV1 : Type := {
  sp_epoch_account : Pubkey;
  sp_lock_digest : bytes32;
  sp_result_commitment : bytes32;
  sp_residual_side : Z;
  sp_residual_lots : Z;
  sp_base_lot_atoms : Z;
  sp_quote_atoms_per_lot : Z;
  sp_base_mint : Pubkey;
  sp_quote_mint : Pubkey;
  sp_pool_base_vault : Pubkey;
  sp_pool_quote_vault : Pubkey;
  sp_venue_base_account : Pubkey;
  sp_venue_quote_account : Pubkey;
  sp_venue_authority : Pubkey;
  sp_settlement_nonce : bytes32;
}.

Definition SettlementPayloadV1_ENCODED_LEN : nat := 374.

Definition SettlementPayloadV1_encode (p : SettlementPayloadV1) : list byte :=
  let out := zeros 374 in
  let out := set_at 0 (byte_of 1) out in
  let out := put_at 1 (sp_epoch_account p) out in
  let out := put_at 33 (sp_lock_digest p) out in
  let out := put_at 65 (sp_result_commitment p) out in
  let out := set_at 97 (byte_of (sp_residual_side p)) out in
  let out := put_at 98 (le_bytes 4 (sp_residual_lots p)) out in
  let out := put_at 102 (le_bytes 8 (sp_base_lot_atoms p)) out in
  let out := put_at 110 (le_bytes 8 (sp_quote_atoms_per_lot p)) out in
  let keys := [sp_base_mint p; sp_quote_mint p; sp_pool_base_vault p; sp_pool_quote_vault p;
               sp_venue_base_account p; sp_venue_quote_account p; sp_venue_authority p] in
  let out := put_keys 118 keys out in
  let out := put_at 342 (sp_settlement_nonce p) out in
  out.

Definition SettlementPayloadV1_decode (bytes : list byte) : option SettlementPayloadV1 :=
  if (length bytes != 374) || (u8_at 0 bytes != 1%Z) then None else
  epoch_account ← try_into 32 (slice 1 33 bytes);
  lock_digest ← try_into 32 (slice 33 65 bytes);
  result_commitment ← try_into 32 (slice 65 97 bytes);
  base_mint ← try_into 32 (slice 118 150 bytes);
  quote_mint ← try_into 32 (slice 150 182 bytes);
  pool_base_vault ← try_into 32 (slice 182 214 bytes);
  pool_quote_vault ← try_into 32 (slice 214 246 bytes);
  venue_base_account ← try_into 32 (slice 246 278 bytes);
  venue_quote_account ← try_into 32 (slice 278 310 bytes);
  venue_authority ← try_into 32 (slice 310 342 bytes);
  settlement_nonce ← try_into 32 (slice 342 374 bytes);
  Some {|
    sp_epoch_account := epoch_account;
    sp_lock_digest := lock_digest;
    sp_result_commitment := result_commitment;
    sp_residual_side := u8_at 97 bytes;
    sp_residual_lots := le_val (slice 98 102 bytes);
    sp_base_lot_atoms := le_val (slice 102 110 bytes);
    sp_quote_atoms_per_lot := le_val (slice 110 118 bytes);
    sp_base_mint := base_mint;
    sp_quote_mint := quote_mint;
    sp_pool_base_vault := pool_base_vault;
    sp_pool_quote_vault := pool_quote_vault;
    sp_venue_base_account := venue_base_account;
    sp_venue_quote_account := venue_quote_account;
    sp_venue_authority := venue_authority;
    sp_settlement_nonce := settlement_nonce;
  |}.

Definition SettlementPayloadV1_wf (p : SettlementPayloadV1) : Prop :=
  u8_ok (sp_residual_side p) /\ u32_ok (sp_residual_lots p) /\
  u64_ok (sp_base_lot_atoms p) /\ u64_ok (sp_quote_atoms_per_lot p).

Definition SettlementPayloadV1_fields (p : SettlementPayloadV1) : list (list byte) :=
  [[byte_of 1]; sp_epoch_account p : list byte; sp_lock_digest p : list byte;
   sp_result_commitment p : list byte; [byte_of (sp_residual_side p)];
   le_bytes 4 (sp_residual_lots p); le_bytes 8 (sp_base_lot_atoms p);
   le_bytes 8 (sp_quote_atoms_per_lot p); sp_base_mint p : list byte; sp_quote_mint p : list byte;
   sp_pool_base_vault p : list byte; sp_pool_quote_vault p : list byte;
   sp_venue_base_account p : list byte; sp_venue_quote_account p : list byte;
   sp_venue_authority p : list byte; sp_settlement_nonce p : list byte].

Lemma SettlementPayloadV1_layout p :
  map length (SettlementPayloadV1_fields p)
  = [1; 32; 32; 32; 1; 4; 8; 8; 32; 32; 32; 32; 32; 32; 32; 32].
Proof. cbn [map SettlementPayloadV1_fields]. by autorewrite with len. Qed.

Lemma SettlementPayloadV1_encode_fields p :
  SettlementPayloadV1_encode p = concat (SettlementPayloadV1_fields p).
Proof.
  unfold SettlementPayloadV1_encode, SettlementPayloadV1_fields. cbn zeta. cbn [concat].
  by fill 374.
Qed.

Lemma SettlementPayloadV1_encode_length p : length (SettlementPayloadV1_encode p) = 374.
Proof. rewrite SettlementPayloadV1_encode_fields. cbn [concat SettlementPayloadV1_fields]. len. Qed.

Lemma SettlementPayloadV1_decode_encode p :
  SettlementPayloadV1_wf p -> SettlementPayloadV1_decode (SettlementPayloadV1_encode p) = Some p.
Proof.
  intros (H1 & H2 & H3 & H4). unfold SettlementPayloadV1_decode.
  rewrite SettlementPayloadV1_encode_length, SettlementPayloadV1_encode_fields.
  fields (SettlementPayloadV1_layout p). cbn [nth SettlementPayloadV1_fields].
  unfold byte_at. cbn [nth]. autorewrite with wire. cbn. by destruct p.
Qed.

Lemma SettlementPayloadV1_encode_decode bytes p :
  SettlementPayloadV1_decode bytes = Some p -> SettlementPayloadV1_encode p = bytes.
Proof.
  unfold SettlementPayloadV1_decode. intros H. inv_ok. bguard. injection H as <-.
  rewrite SettlementPayloadV1_encode_fields. unfold SettlementPayloadV1_fields.
  cbn -[slice le_bytes byte_of concat].
  uncut [1; 32; 32; 32; 1; 4; 8; 8; 32; 32; 32; 32; 32; 32; 32; 32].
Qed.

(** ** Digests *)

Section digests.
Context `{Sha256}.

Definition domain_hash (domain bytes : list byte) : bytes32 := sha256 (domain ++ bytes).

Definition EpochConfigurationV1_digest (c : EpochConfigurationV1) : bytes32 :=
  domain_hash CONFIG_DOMAIN (EpochConfigurationV1_encode c).
Definition LockPayloadV1_digest (p : LockPayloadV1) : bytes32 :=
  domain_hash LOCK_DOMAIN (LockPayloadV1_encode p).
Definition SettlementPayloadV1_digest (p : SettlementPayloadV1) : bytes32 :=
  domain_hash SETTLEMENT_DOMAIN (SettlementPayloadV1_encode p).
End digests.

(** Decoded payloads are within the ranges of their Rust types. *)
Lemma EpochConfigurationV1_decode_wf bytes c :
  EpochConfigurationV1_decode bytes = Some c -> EpochConfigurationV1_wf c.
Proof.
  unfold EpochConfigurationV1_decode. intros H. inv_ok. bguard. injection H as <-.
  unfold EpochConfigurationV1_wf. cbn -[slice]. split_and!;
    first [apply u8_at_ok | apply u32_slice_ok; lia | apply u64_slice_ok; lia | apply i64_slice_ok; lia].
Qed.

Lemma LockPayloadV1_decode_wf bytes p : LockPayloadV1_decode bytes = Some p -> LockPayloadV1_wf p.
Proof.
  unfold LockPayloadV1_decode. intros H. inv_ok. bguard. injection H as <-.
  unfold LockPayloadV1_wf. cbn -[slice]. split; [apply u32_slice_ok; lia | apply i64_slice_ok; lia].
Qed.

Lemma SettlementPayloadV1_decode_wf bytes p :
  SettlementPayloadV1_decode bytes = Some p -> SettlementPayloadV1_wf p.
Proof.
  unfold SettlementPayloadV1_decode. intros H. inv_ok. bguard. injection H as <-.
  unfold SettlementPayloadV1_wf. cbn -[slice]. split_and!;
    first [apply u8_at_ok | apply u32_slice_ok; lia | apply u64_slice_ok; lia].
Qed.

(** ** What a keyper or the program hashes *)

Inductive signed_message : Type :=
| MConfiguration (c : EpochConfigurationV1)
| MLock (p : LockPayloadV1)
| MSettlement (p : SettlementPayloadV1).

Definition preimage (m : signed_message) : list byte :=
  match m with
  | MConfiguration c => CONFIG_DOMAIN ++ EpochConfigurationV1_encode c
  | MLock p => LOCK_DOMAIN ++ LockPayloadV1_encode p
  | MSettlement p => SETTLEMENT_DOMAIN ++ SettlementPayloadV1_encode p
  end.

Definition message_wf (m : signed_message) : Prop :=
  match m with
  | MConfiguration c => EpochConfigurationV1_wf c
  | MLock p => LockPayloadV1_wf p
  | MSettlement p => SettlementPayloadV1_wf p
  end.

Lemma preimage_length m :
  length (preimage m) = match m with MConfiguration _ => 279 | MLock _ => 187 | MSettlement _ => 394 end.
Proof.
  destruct m; cbn [preimage]; rewrite length_app, ?EpochConfigurationV1_encode_length,
    ?LockPayloadV1_encode_length, ?SettlementPayloadV1_encode_length; done.
Qed.

Lemma preimage_inj m m' : message_wf m -> message_wf m' -> preimage m = preimage m' -> m = m'.
Proof.
  intros W W' E. pose proof (f_equal length E) as L. rewrite !preimage_length in L.
  destruct m as [c|p|p], m' as [c'|p'|p']; try discriminate L; cbn [preimage message_wf] in *; f_equal;
    apply app_inv_head in E.
  - apply EpochConfigurationV1_decode_encode in W, W'. rewrite E in W. congruence.
  - apply LockPayloadV1_decode_encode in W, W'. rewrite E in W. congruence.
  - apply SettlementPayloadV1_decode_encode in W, W'. rewrite E in W. congruence.
Qed.
