(* ===== verification/ProgramState.v ===== *)
(** * Program errors and on-chain account state (crates/kageb-program/src/{error,state}.rs)

    The pool and epoch accounts are 384-byte records behind a discriminator and a version
    byte.  The codecs thread an offset through small [put_*]/[take_*] helpers, as the source
    does; the theorems show that each decoder is the exact inverse of its encoder, in both
    directions, so an account's bytes and its decoded state determine each other. *)

From S2P Require Import Prelude Bytes Extern ProgramWire.

(** ** Errors *)

Inductive KagebError : Type :=
| InvalidInstruction | InvalidAccounts | MissingSignature | InvalidOwner | InvalidPda
| InvalidState | InvalidConfiguration | InvalidTokenAccount | DeadlinePassed
| DeadlineNotReached | CrowdBelowMinimum | InvalidLock | InsufficientQuorum
| ArithmeticOverflow | InvalidSettlement.

Definition KagebError_code (e : KagebError) : Z :=
  match e with
  | InvalidInstruction => 1
  | InvalidAccounts => 2
  | MissingSignature => 3
  | InvalidOwner => 4
  | InvalidPda => 5
  | InvalidState => 6
  | InvalidConfiguration => 7
  | InvalidTokenAccount => 8
  | DeadlinePassed => 9
  | DeadlineNotReached => 10
  | CrowdBelowMinimum => 11
  | InvalidLock => 12
  | InsufficientQuorum => 13
  | ArithmeticOverflow => 14
  | InvalidSettlement => 15
  end.

(** [impl From<KagebError> for ProgramError] *)
Definition into (e : KagebError) : ProgramError := Custom (KagebError_code e).

(** ** Lifecycle states *)

Inductive EpochTerminalState : Type := Open | Locked | Settled | Expired | Aborted.
Global Instance EpochTerminalState_eq_dec : EqDecision EpochTerminalState.
Proof. solve_decision. Defined.

Definition EpochTerminalState_as_u8 (s : EpochTerminalState) : Z :=
  match s with Open => 1 | Locked => 2 | Settled => 3 | Expired => 4 | Aborted => 5 end.

Definition EpochTerminalState_try_from (value : Z) : result ProgramError EpochTerminalState :=
  match value with
  | 1%Z => Ok Open
  | 2%Z => Ok Locked
  | 3%Z => Ok Settled
  | 4%Z => Ok Expired
  | 5%Z => Ok Aborted
  | _ => Err InvalidAccountData
  end.

Lemma EpochTerminalState_try_from_as s : EpochTerminalState_try_from (EpochTerminalState_as_u8 s) = Ok s.
Proof. by destruct s. Qed.

Lemma EpochTerminalState_as_try_from v s :
  EpochTerminalState_try_from v = Ok s -> v = EpochTerminalState_as_u8 s.
Proof.
  unfold EpochTerminalState_try_from. intros H.
  repeat (match type of H with context [match ?x with _ => _ end] => destruct x end; try discriminate);
    injection H as <-; done.
Qed.

Lemma EpochTerminalState_as_u8_ok s : u8_ok (EpochTerminalState_as_u8 s).
Proof. destruct s; unfold u8_ok; cbn; lia. Qed.

(** ** Offset-threading helpers *)

Definition STATE_LEN : nat := 384.
Definition POOL_DISCRIMINATOR : list byte := bstr "KAGEPOOL".
Definition EPOCH_DISCRIMINATOR : list byte := bstr "KAGEEPCH".
Definition VERSION : Z := 1.

(** A buffer and the offset the next field goes to. *)
Definition cursor : Type := list byte * nat.

Definition put_pubkey (cur : cursor) (key : Pubkey) : cursor :=
  let '(out, offset) := cur in (put_at offset key out, offset + 32).
Definition put_bytes32 (cur : cursor) (value : bytes32) : cursor :=
  let '(out, offset) := cur in (put_at offset value out, offset + 32).
Definition put_u32 (cur : cursor) (value : Z) : cursor :=
  let '(out, offset) := cur in (put_at offset (le_bytes 4 value) out, offset + 4).
Definition put_u64 (cur : cursor) (value : Z) : cursor :=
  let '(out, offset) := cur in (put_at offset (le_bytes 8 value) out, offset + 8).
(** [value as u64] reinterprets the 64 bits. *)
Definition put_i64 (cur : cursor) (value : Z) : cursor := put_u64 cur (value mod 2 ^ 64).

Definition take_bytes (N : nat) (data : list byte) (offset : nat) : result ProgramError (arr N * nat) :=
  range ← ok_or InvalidAccountData (get_range offset (offset + N) data);
  bytes ← ok_or InvalidAccountData (try_into N range);
  Ok (bytes, offset + N).
Definition take_pubkey (data : list byte) (offset : nat) : result ProgramError (Pubkey * nat) :=
  take_bytes 32 data offset.
Definition take_bytes32 (data : list byte) (offset : nat) : result ProgramError (bytes32 * nat) :=
  take_bytes 32 data offset.
Definition take_u32 (data : list byte) (offset : nat) : result ProgramError (Z * nat) :=
  '(bytes, offset) ← take_bytes 4 data offset; Ok (le_val (arr_list bytes), offset).
Definition take_u64 (data : list byte) (offset : nat) : result ProgramError (Z * nat) :=
  '(bytes, offset) ← take_bytes 8 data offset; Ok (le_val (arr_list bytes), offset).
Definition take_i64 (data : list byte) (offset : nat) : result ProgramError (Z * nat) :=
  '(bytes, offset) ← take_bytes 8 data offset; Ok (i64_val (arr_list bytes), offset).

Definition require_header_and_reserved (data discriminator : list byte) (reserved_start : nat)
  : result ProgramError unit :=
  if (length data != STATE_LEN)
     || (slice 0 8 data != discriminator)
     || (u8_at 8 data != VERSION)
     || existsb (fun b => b != x00) (slice_from reserved_start data)
  then Err InvalidAccountData else Ok tt.

(** ** The pool account *)

Record PoolStateV1 : Type := {
  pool_bump : Z;
  vault_bump : Z;
  pl_lock_threshold : Z;
  pl_settlement_threshold : Z;
  pl_operator : Pubkey;
  pl_base_mint : Pubkey;
  pl_quote_mint : Pubkey;
  pl_pool_base_vault : Pubkey;
  pl_pool_quote_vault : Pubkey;
  pl_venue_authority : Pubkey;
  pl_venue_base_account : Pubkey;
  pl_venue_quote_account : Pubkey;
  pl_keypers : Pubkey * Pubkey * Pubkey;
  pl_base_lot_atoms : Z;
}.

Definition PoolStateV1_encode (s : PoolStateV1) : list byte :=
  let out := zeros STATE_LEN in
  let out := put_at 0 POOL_DISCRIMINATOR out in
  let out := set_at 8 (byte_of VERSION) out in
  let out := set_at 9 (byte_of (pool_bump s)) out in
  let out := set_at 10 (byte_of (vault_bump s)) out in
  let out := set_at 11 (byte_of (pl_lock_threshold s)) out in
  let out := set_at 12 (byte_of (pl_settlement_threshold s)) out in
  let cur := fold_left put_pubkey
    ([pl_operator s; pl_base_mint s; pl_quote_mint s; pl_pool_base_vault s;
      pl_pool_quote_vault s; pl_venue_authority s; pl_venue_base_account s;
      pl_venue_quote_account s; (pl_keypers s).1.1; (pl_keypers s).1.2; (pl_keypers s).2])
    (out, 16) in
  let cur := put_u64 cur (pl_base_lot_atoms s) in
  fst cur.

Definition PoolStateV1_decode (data : list byte) : result ProgramError PoolStateV1 :=
  require_header_and_reserved data POOL_DISCRIMINATOR 376 ;;
  let offset := 16 in
  '(operator, offset) ← take_pubkey data offset;
  '(base_mint, offset) ← take_pubkey data offset;
  '(quote_mint, offset) ← take_pubkey data offset;
  '(pool_base_vault, offset) ← take_pubkey data offset;
  '(pool_quote_vault, offset) ← take_pubkey data offset;
  '(venue_authority, offset) ← take_pubkey data offset;
  '(venue_base_account, offset) ← take_pubkey data offset;
  '(venue_quote_account, offset) ← take_pubkey data offset;
  '(keyper0, offset) ← take_pubkey data offset;
  '(keyper1, offset) ← take_pubkey data offset;
  '(keyper2, offset) ← take_pubkey data offset;
  '(base_lot_atoms, offset) ← take_u64 data offset;
  if (slice 13 16 data != zeros 3) || (offset != 376) then Err InvalidAccountData else
  Ok {|
    pool_bump := u8_at 9 data;
    vault_bump := u8_at 10 data;
    pl_lock_threshold := u8_at 11 data;
    pl_settlement_threshold := u8_at 12 data;
    pl_operator := operator;
    pl_base_mint := base_mint;
    pl_quote_mint := quote_mint;
    pl_pool_base_vault := pool_base_vault;
    pl_pool_quote_vault := pool_quote_vault;
    pl_venue_authority := venue_authority;
    pl_venue_base_account := venue_base_account;
    pl_venue_quote_account := venue_quote_account;
    pl_keypers := (keyper0, keyper1, keyper2);
    pl_base_lot_atoms := base_lot_atoms;
  |}.

Definition PoolStateV1_wf (s : PoolStateV1) : Prop :=
  u8_ok (pool_bump s) /\ u8_ok (vault_bump s) /\ u8_ok (pl_lock_threshold s) /\
  u8_ok (pl_settlement_threshold s) /\ u64_ok (pl_base_lot_atoms s).

Definition PoolStateV1_fields (s : PoolStateV1) : list (list byte) :=
  [POOL_DISCRIMINATOR; [byte_of VERSION]; [byte_of (pool_bump s)]; [byte_of (vault_bump s)];
   [byte_of (pl_lock_threshold s)]; [byte_of (pl_settlement_threshold s)]; zeros 3;
   pl_operator s : list byte; pl_base_mint s : list byte; pl_quote_mint s : list byte;
   pl_pool_base_vault s : list byte; pl_pool_quote_vault s : list byte;
   pl_venue_authority s : list byte; pl_venue_base_account s : list byte;
   pl_venue_quote_account s : list byte; (pl_keypers s).1.1 : list byte;
   (pl_keypers s).1.2 : list byte; (pl_keypers s).2 : list byte;
   le_bytes 8 (pl_base_lot_atoms s); zeros 8].

Lemma PoolStateV1_layout s :
  map length (PoolStateV1_fields s)
  = [8; 1; 1; 1; 1; 1; 3; 32; 32; 32; 32; 32; 32; 32; 32; 32; 32; 32; 8; 8].
Proof. cbn [map PoolStateV1_fields]. by autorewrite with len. Qed.

Lemma length_POOL_DISCRIMINATOR : length POOL_DISCRIMINATOR = 8.
Proof. done. Qed.
Lemma length_EPOCH_DISCRIMINATOR : length EPOCH_DISCRIMINATOR = 8.
Proof. done. Qed.
#[export] Hint Rewrite length_POOL_DISCRIMINATOR length_EPOCH_DISCRIMINATOR : len.

(** ** Reading and writing through a cursor *)

Lemma take_bytes_inv N data off (a : arr N) off' :
  take_bytes N data off = Ok (a, off') ->
  off + N <= length data /\ arr_list a = slice off (off + N) data /\ off' = off + N.
Proof.
  unfold take_bytes. intros H. inv_ok. apply get_range_Some in H0 as [? ->].
  apply try_into_Some in H1. simplify_eq. split; [lia | done].
Qed.

Lemma take_bytes_ok N data off (a : arr N) :
  off + N <= length data -> slice off (off + N) data = a -> take_bytes N data off = Ok (a, off + N).
Proof.
  intros Hl Hs. unfold take_bytes.
  rewrite (proj2 (get_range_Some off (off + N) data (slice off (off + N) data))) by (split; [lia|done]).
  cbn. rewrite Hs, try_into_arr. done.
Qed.

Lemma take_pubkey_ok data off (a : Pubkey) :
  off + 32 <= length data -> slice off (off + 32) data = a -> take_pubkey data off = Ok (a, off + 32).
Proof. apply take_bytes_ok. Qed.

Lemma take_bytes32_ok data off (a : bytes32) :
  off + 32 <= length data -> slice off (off + 32) data = a -> take_bytes32 data off = Ok (a, off + 32).
Proof. apply take_bytes_ok. Qed.

Lemma take_le_ok n data off v :
  off + n <= length data -> slice off (off + n) data = le_bytes n v ->
  exists a : arr n, take_bytes n data off = Ok (a, off + n) /\ arr_list a = le_bytes n v.
Proof.
  intros Hl Hs. destruct (try_into_is_Some n (le_bytes n v) (length_le_bytes n v)) as (a & _ & Ha).
  exists a. split; [|done]. apply take_bytes_ok; [done | by rewrite Hs].
Qed.

Lemma take_u32_ok data off v :
  off + 4 <= length data -> slice off (off + 4) data = le_bytes 4 v -> u32_ok v ->
  take_u32 data off = Ok (v, off + 4).
Proof.
  intros Hl Hs Hv. destruct (take_le_ok 4 data off v Hl Hs) as (a & Ha & Hb).
  unfold take_u32. rewrite Ha. cbn -[le_bytes]. by rewrite Hb, le_val_u32.
Qed.

Lemma take_u64_ok data off v :
  off + 8 <= length data -> slice off (off + 8) data = le_bytes 8 v -> u64_ok v ->
  take_u64 data off = Ok (v, off + 8).
Proof.
  intros Hl Hs Hv. destruct (take_le_ok 8 data off v Hl Hs) as (a & Ha & Hb).
  unfold take_u64. rewrite Ha. cbn -[le_bytes]. by rewrite Hb, le_val_u64.
Qed.

Lemma take_i64_ok data off v :
  off + 8 <= length data -> slice off (off + 8) data = le_bytes 8 v -> i64_ok v ->
  take_i64 data off = Ok (v, off + 8).
Proof.
  intros Hl Hs Hv. destruct (take_le_ok 8 data off v Hl Hs) as (a & Ha & Hb).
  unfold take_i64. rewrite Ha. cbn -[le_bytes i64_val]. by rewrite Hb, i64_val_bytes.
Qed.

Lemma take_u32_inv data off v off' :
  take_u32 data off = Ok (v, off') ->
  off + 4 <= length data /\ v = le_val (slice off (off + 4) data) /\ off' = off + 4.
Proof.
  unfold take_u32. intros H. inv_ok. apply take_bytes_inv in H0 as (? & Ha & ->).
  rewrite Ha in H. by simplify_eq.
Qed.

Lemma take_u64_inv data off v off' :
  take_u64 data off = Ok (v, off') ->
  off + 8 <= length data /\ v = le_val (slice off (off + 8) data) /\ off' = off + 8.
Proof.
  unfold take_u64. intros H. inv_ok. apply take_bytes_inv in H0 as (? & Ha & ->).
  rewrite Ha in H. by simplify_eq.
Qed.

Lemma take_i64_inv data off v off' :
  take_i64 data off = Ok (v, off') ->
  off + 8 <= length data /\ v = i64_val (slice off (off + 8) data) /\ off' = off + 8.
Proof.
  unfold take_i64. intros H. inv_ok. apply take_bytes_inv in H0 as (? & Ha & ->).
  rewrite Ha in H. by simplify_eq.
Qed.

(** The reserved tail of a record whose header was accepted is zero. *)
Lemma require_header_Ok data disc start u :
  require_header_and_reserved data disc start = Ok u ->
  length data = 384 /\ slice 0 8 data = disc /\ u8_at 8 data = VERSION /\
  (start <= 384 -> zeros (384 - start) = slice start 384 data).
Proof.
  unfold require_header_and_reserved. intros H. inv_ok. bguard.
  split_and!; [done..|]. intros Hs. unfold STATE_LEN in *. apply zeros_slice; [lia|].
  apply List.Forall_forall. intros b Hb.
  destruct (decide (b = x00)) as [|Hn]; [done|exfalso].
  assert (existsb (fun b => b != x00) (slice_from start data) = true) as Ht; [|congruence].
  apply existsb_exists. exists b. split; [|by apply neqb_true].
  unfold slice_from. unfold slice in Hb. rewrite take_ge in Hb; [done|]. rewrite length_drop. lia.
Qed.


Lemma require_header_ok data disc start :
  length data = 384 -> slice 0 8 data = disc -> u8_at 8 data = VERSION ->
  slice start 384 data = zeros (384 - start) ->
  require_header_and_reserved data disc start = Ok tt.
Proof.
  intros Hl Hd Hv Hz. unfold require_header_and_reserved, STATE_LEN.
  rewrite !bool_decide_eq_true_2 by done. cbn [negb orb].
  destruct (existsb _ _) eqn:E; [|done]. exfalso.
  apply existsb_exists in E as (b & Hb & Hn). apply neqb_true in Hn. apply Hn.
  assert (slice_from start data = zeros (384 - start)) as Hs.
  { rewrite <- Hz. unfold slice, slice_from. rewrite take_ge; [done|]. rewrite length_drop. lia. }
  rewrite Hs in Hb. by apply list_elem_of_In, elem_of_replicate in Hb as [? _].
Qed.

(** [takes H]: run every [take_*] of the goal over [concat fs], where [H : map length fs = ns];
    the length of [concat fs] is a
    hypothesis. *)
Ltac run_take H fs ns t n lem off :=
  let off' := eval vm_compute in off in
  let hi := eval vm_compute in (off + n)%nat in
  let k := eval vm_compute in (field_at 0 ns off' hi) in
  lazymatch k with
  | Some ?k =>
      change (t (concat fs) off) with (t (concat fs) off');
      erewrite (lem (concat fs) off');
      [ cbn [mbind result_bind]; cbn beta iota
      | lia
      | change (off' + n) with hi; rewrite (slice_field fs ns off' hi k H eq_refl); cbn [nth]; reflexivity
      | assumption .. ]
  end.
Ltac take_field H :=
  match type of H with
  | map _ ?fs = ?ns =>
    match goal with
    | |- context [take_pubkey (concat fs) ?off] => run_take H fs ns take_pubkey 32 take_pubkey_ok off
    | |- context [take_bytes32 (concat fs) ?off] => run_take H fs ns take_bytes32 32 take_bytes32_ok off
    | |- context [take_u32 (concat fs) ?off] => run_take H fs ns take_u32 4 take_u32_ok off
    | |- context [take_u64 (concat fs) ?off] => run_take H fs ns take_u64 8 take_u64_ok off
    | |- context [take_i64 (concat fs) ?off] => run_take H fs ns take_i64 8 take_i64_ok off
    end
  end.

Lemma PoolStateV1_encode_fields s : PoolStateV1_encode s = concat (PoolStateV1_fields s).
Proof.
  unfold PoolStateV1_encode, PoolStateV1_fields, put_u64, put_pubkey, STATE_LEN.
  cbn [fold_left fst snd Nat.add concat]. cbn zeta. by fill 384.
Qed.

Lemma PoolStateV1_encode_length s : length (PoolStateV1_encode s) = 384.
Proof. rewrite PoolStateV1_encode_fields. cbn [concat PoolStateV1_fields]. len. Qed.

Lemma PoolStateV1_decode_encode s :
  PoolStateV1_wf s -> PoolStateV1_decode (PoolStateV1_encode s) = Ok s.
Proof.
  intros (H1 & H2 & H3 & H4 & H5). unfold PoolStateV1_decode.
  pose proof (PoolStateV1_encode_length s) as Hlen.
  rewrite PoolStateV1_encode_fields in *. pose proof (PoolStateV1_layout s) as HL.
  rewrite require_header_ok;
    [| done | by fields HL | by fields HL | by fields HL ].
  cbn [mbind result_bind]. repeat take_field HL.
  fields HL. cbn [nth PoolStateV1_fields]. unfold byte_at. cbn [nth].
  autorewrite with wire. cbn -[zeros]. by destruct s as [? ? ? ? ? ? ? ? ? ? ? ? [[??]?] ?].
Qed.

(** [untakes]: the facts a successful run of [take_*] gives, with the offsets computed. *)
Ltac untake_step :=
  match goal with
  | H : take_pubkey _ _ = Ok _ |- _ => apply take_bytes_inv in H as (? & ? & ?)
  | H : take_bytes32 _ _ = Ok _ |- _ => apply take_bytes_inv in H as (? & ? & ?)
  | H : take_u32 _ _ = Ok _ |- _ => apply take_u32_inv in H as (? & ? & ?)
  | H : take_u64 _ _ = Ok _ |- _ => apply take_u64_inv in H as (? & ? & ?)
  | H : take_i64 _ _ = Ok _ |- _ => apply take_i64_inv in H as (? & ? & ?)
  end.
Ltac untakes := repeat untake_step; subst; cbn [Nat.add] in *.

Lemma PoolStateV1_encode_decode data s :
  PoolStateV1_decode data = Ok s -> PoolStateV1_encode s = data.
Proof.
  unfold PoolStateV1_decode. intros H. inv_ok.
  apply require_header_Ok in H0 as (Hlen & Hd & Hv & Hz). specialize (Hz ltac:(lia)).
  untakes. bguard. rewrite PoolStateV1_encode_fields. unfold PoolStateV1_fields.
  cbn -[slice le_bytes byte_of concat zeros POOL_DISCRIMINATOR].
  uncut [8; 1; 1; 1; 1; 1; 3; 32; 32; 32; 32; 32; 32; 32; 32; 32; 32; 32; 8; 8].
Qed.

(** ** The epoch account *)

Record EpochStateV1 : Type := {
  epoch_bump : Z;
  terminal_state : EpochTerminalState;
  ep_residual_side : Z;
  ep_pool : Pubkey;
  ep_epoch_id : bytes32;
  ep_configuration_hash : bytes32;
  ep_pre_balance_root : bytes32;
  ep_member_root : bytes32;
  ep_lock_digest : bytes32;
  ep_result_commitment : bytes32;
  ep_settlement_digest : bytes32;
  ep_lock_nonce : bytes32;
  ep_settlement_nonce : bytes32;
  ep_member_count : Z;
  ep_minimum_count : Z;
  ep_residual_lots : Z;
  ep_base_lot_atoms : Z;
  ep_quote_atoms_per_lot : Z;
  ep_lock_deadline : Z;
  ep_abort_deadline : Z;
}.

Definition EpochStateV1_encode (s : EpochStateV1) : list byte :=
  let out := zeros STATE_LEN in
  let out := put_at 0 EPOCH_DISCRIMINATOR out in
  let out := set_at 8 (byte_of VERSION) out in
  let out := set_at 9 (byte_of (epoch_bump s)) out in
  let out := set_at 10 (byte_of (EpochTerminalState_as_u8 (terminal_state s))) out in
  let out := set_at 11 (byte_of (ep_residual_side s)) out in
  let cur := (out, 16) in
  let cur := put_pubkey cur (ep_pool s) in
  let cur := fold_left put_bytes32
    ([ep_epoch_id s; ep_configuration_hash s; ep_pre_balance_root s; ep_member_root s;
      ep_lock_digest s; ep_result_commitment s; ep_settlement_digest s; ep_lock_nonce s;
      ep_settlement_nonce s]) cur in
  let cur := put_u32 cur (ep_member_count s) in
  let cur := put_u32 cur (ep_minimum_count s) in
  let cur := put_u32 cur (ep_residual_lots s) in
  let cur := put_u64 cur (ep_base_lot_atoms s) in
  let cur := put_u64 cur (ep_quote_atoms_per_lot s) in
  let cur := put_i64 cur (ep_lock_deadline s) in
  let cur := put_i64 cur (ep_abort_deadline s) in
  fst cur.

Definition EpochStateV1_decode (data : list byte) : result ProgramError EpochStateV1 :=
  require_header_and_reserved data EPOCH_DISCRIMINATOR 380 ;;
  if slice 12 16 data != zeros 4 then Err InvalidAccountData else
  let offset := 16 in
  state ← EpochTerminalState_try_from (u8_at 10 data);
  '(pool, offset) ← take_pubkey data offset;
  '(epoch_id, offset) ← take_bytes32 data offset;
  '(configuration_hash, offset) ← take_bytes32 data offset;
  '(pre_balance_root, offset) ← take_bytes32 data offset;
  '(member_root, offset) ← take_bytes32 data offset;
  '(lock_digest, offset) ← take_bytes32 data offset;
  '(result_commitment, offset) ← take_bytes32 data offset;
  '(settlement_digest, offset) ← take_bytes32 data offset;
  '(lock_nonce, offset) ← take_bytes32 data offset;
  '(settlement_nonce, offset) ← take_bytes32 data offset;
  '(member_count, offset) ← take_u32 data offset;
  '(minimum_count, offset) ← take_u32 data offset;
  '(residual_lots, offset) ← take_u32 data offset;
  '(base_lot_atoms, offset) ← take_u64 data offset;
  '(quote_atoms_per_lot, offset) ← take_u64 data offset;
  '(lock_deadline, offset) ← take_i64 data offset;
  '(abort_deadline, offset) ← take_i64 data offset;
  if offset != 380 then Err InvalidAccountData else
  Ok {|
    epoch_bump := u8_at 9 data;
    terminal_state := state;
    ep_residual_side := u8_at 11 data;
    ep_pool := pool;
    ep_epoch_id := epoch_id;
    ep_configuration_hash := configuration_hash;
    ep_pre_balance_root := pre_balance_root;
    ep_member_root := member_root;
    ep_lock_digest := lock_digest;
    ep_result_commitment := result_commitment;
    ep_settlement_digest := settlement_digest;
    ep_lock_nonce := lock_nonce;
    ep_settlement_nonce := settlement_nonce;
    ep_member_count := member_count;
    ep_minimum_count := minimum_count;
    ep_residual_lots := residual_lots;
    ep_base_lot_atoms := base_lot_atoms;
    ep_quote_atoms_per_lot := quote_atoms_per_lot;
    ep_lock_deadline := lock_deadline;
    ep_abort_deadline := abort_deadline;
  |}.

Definition EpochStateV1_wf (s : EpochStateV1) : Prop :=
  u8_ok (epoch_bump s) /\ u8_ok (ep_residual_side s) /\ u32_ok (ep_member_count s) /\
  u32_ok (ep_minimum_count s) /\ u32_ok (ep_residual_lots s) /\ u64_ok (ep_base_lot_atoms s) /\
  u64_ok (ep_quote_atoms_per_lot s) /\ i64_ok (ep_lock_deadline s) /\ i64_ok (ep_abort_deadline s).

Definition EpochStateV1_fields (s : EpochStateV1) : list (list byte) :=
  [EPOCH_DISCRIMINATOR; [byte_of VERSION]; [byte_of (epoch_bump s)];
   [byte_of (EpochTerminalState_as_u8 (terminal_state s))]; [byte_of (ep_residual_side s)];
   zeros 4; ep_pool s : list byte; ep_epoch_id s : list byte; ep_configuration_hash s : list byte;
   ep_pre_balance_root s : list byte; ep_member_root s : list byte; ep_lock_digest s : list byte;
   ep_result_commitment s : list byte; ep_settlement_digest s : list byte;
   ep_lock_nonce s : list byte; ep_settlement_nonce s : list byte;
   le_bytes 4 (ep_member_count s); le_bytes 4 (ep_minimum_count s); le_bytes 4 (ep_residual_lots s);
   le_bytes 8 (ep_base_lot_atoms s); le_bytes 8 (ep_quote_atoms_per_lot s);
   le_bytes 8 (ep_lock_deadline s); le_bytes 8 (ep_abort_deadline s); zeros 4].

Lemma EpochStateV1_layout s :
  map length (EpochStateV1_fields s)
  = [8; 1; 1; 1; 1; 4; 32; 32; 32; 32; 32; 32; 32; 32; 32; 32; 4; 4; 4; 8; 8; 8; 8; 4].
Proof. cbn [map EpochStateV1_fields]. by autorewrite with len. Qed.

Lemma EpochStateV1_encode_fields s : EpochStateV1_encode s = concat (EpochStateV1_fields s).
Proof.
  unfold EpochStateV1_encode, EpochStateV1_fields, put_i64, put_u64, put_u32, put_pubkey,
    put_bytes32, STATE_LEN.
  rewrite !(le_bytes_mod 8). cbn [fold_left fst snd Nat.add concat]. cbn zeta. by fill 384.
Qed.

Lemma EpochStateV1_encode_length s : length (EpochStateV1_encode s) = 384.
Proof. rewrite EpochStateV1_encode_fields. cbn [concat EpochStateV1_fields]. len. Qed.

Lemma EpochStateV1_decode_encode s :
  EpochStateV1_wf s -> EpochStateV1_decode (EpochStateV1_encode s) = Ok s.
Proof.
  intros (H1 & H2 & H3 & H4 & H5 & H6 & H7 & H8 & H9). unfold EpochStateV1_decode.
  pose proof (EpochStateV1_encode_length s) as Hlen.
  pose proof (EpochTerminalState_as_u8_ok (terminal_state s)).
  rewrite EpochStateV1_encode_fields in *. pose proof (EpochStateV1_layout s) as HL.
  rewrite require_header_ok; [| done | by fields HL | by fields HL | by fields HL ].
  cbn [mbind result_bind]. fields HL. cbn [nth EpochStateV1_fields]. unfold byte_at. cbn [nth].
  autorewrite with wire. rewrite EpochTerminalState_try_from_as.
  change (bool_decide (zeros 4 = zeros 4)) with true. cbn [negb]. cbn [mbind result_bind].
  repeat take_field HL. cbn -[zeros]. by destruct s.
Qed.

Lemma EpochStateV1_encode_decode data s :
  EpochStateV1_decode data = Ok s -> EpochStateV1_encode s = data.
Proof.
  unfold EpochStateV1_decode. intros H. inv_ok.
  apply require_header_Ok in H0 as (Hlen & Hd & Hv & Hz). specialize (Hz ltac:(lia)).
  untakes. bguard. rewrite EpochStateV1_encode_fields. unfold EpochStateV1_fields.
  cbn -[slice le_bytes byte_of concat zeros EPOCH_DISCRIMINATOR EpochTerminalState_as_u8].
  match goal with H : EpochTerminalState_try_from _ = Ok _ |- _ =>
    apply EpochTerminalState_as_try_from in H; rewrite <- H end.
  uncut [8; 1; 1; 1; 1; 4; 32; 32; 32; 32; 32; 32; 32; 32; 32; 32; 4; 4; 4; 8; 8; 8; 8; 4].
Qed.

(** A decoded state is within the ranges of its Rust types. *)
Lemma EpochStateV1_decode_wf data s : EpochStateV1_decode data = Ok s -> EpochStateV1_wf s.
Proof.
  unfold EpochStateV1_decode. intros H. inv_ok. untakes. unfold EpochStateV1_wf. cbn -[slice].
  split_and!; first [apply u8_at_ok | apply u32_slice_ok; lia | apply u64_slice_ok; lia | apply i64_slice_ok; lia].
Qed.

Lemma PoolStateV1_decode_wf data s : PoolStateV1_decode data = Ok s -> PoolStateV1_wf s.
Proof.
  unfold PoolStateV1_decode. intros H. inv_ok. untakes. unfold PoolStateV1_wf. cbn -[slice].
  split_and!; first [apply u8_at_ok | apply u64_slice_ok; lia].
Qed.

(** An account never decodes as both kinds: the discriminators differ. *)
Lemma pool_epoch_disjoint data p e :
  PoolStateV1_decode data = Ok p -> EpochStateV1_decode data = Ok e -> False.
Proof.
  unfold PoolStateV1_decode, EpochStateV1_decode. intros Hp He.
  apply bind_Ok in Hp as (? & Hp & _). apply bind_Ok in He as (? & He & _).
  apply require_header_Ok in Hp as (_ & Hp & _), He as (_ & He & _).
  rewrite Hp in He. discriminate He.
Qed.
