(* ===== verification/ProgramInstruction.v ===== *)
(** * Instruction data and builders (crates/kageb-program/src/{lib,instruction}.rs)

    The program id, the derived addresses, the instruction enum with its byte format and the
    client-side builders.  Decoding is the exact inverse of encoding in both directions. *)

From S2P Require Import Prelude Bytes Extern ProgramWire ProgramState.

(** ** Addresses *)

Definition key_of (l : list Z) : option Pubkey := try_into 32 (map byte_of l).

(** [pubkey!("HbMyCP5GxicksRpSVrchRTJTznP3zTrzCMb7FmZNRa77")] *)
Definition ID : Pubkey :=
  default zero32 (key_of [246; 136; 114; 172; 72; 143; 152; 90; 75; 63; 102; 159; 24; 176; 35; 233;
    235; 245; 14; 97; 66; 83; 112; 181; 15; 75; 143; 4; 88; 58; 165; 22]%Z).

(** [pubkey!("TokenkegQfeZyiNwAJbNbGKPFXCWuBvf9Ss623VQ5DA")] *)
Definition TOKEN_PROGRAM_ID : Pubkey :=
  default zero32 (key_of [6; 221; 246; 225; 215; 101; 161; 147; 217; 203; 225; 70; 206; 235; 121;
    172; 28; 180; 133; 237; 95; 91; 55; 145; 58; 140; 245; 133; 126; 255; 0; 169]%Z).

(** The two byte lists against the base58 literals of the source. *)
Section base58.
Open Scope string_scope.

Fixpoint base58_digit (alphabet : string) (c : Ascii.ascii) : Z :=
  match alphabet with
  | String a rest => if Ascii.eqb a c then 0 else (1 + base58_digit rest c)%Z
  | EmptyString => 0
  end.
Definition base58_alphabet : string := "123456789ABCDEFGHJKLMNPQRSTUVWXYZabcdefghijkmnopqrstuvwxyz".
Fixpoint base58_val (acc : Z) (s : string) : Z :=
  match s with
  | String c rest => base58_val (acc * 58 + base58_digit base58_alphabet c) rest
  | EmptyString => acc
  end.

Example ID_base58 :
  le_val (rev ID) = base58_val 0 "HbMyCP5GxicksRpSVrchRTJTznP3zTrzCMb7FmZNRa77".
Proof. vm_compute. reflexivity. Qed.

Example TOKEN_PROGRAM_ID_base58 :
  le_val (rev TOKEN_PROGRAM_ID) = base58_val 0 "TokenkegQfeZyiNwAJbNbGKPFXCWuBvf9Ss623VQ5DA".
Proof. vm_compute. reflexivity. Qed.
End base58.

Section addresses.
Context `{Solana}.

Definition pool_address (operator base_mint quote_mint : Pubkey) : Pubkey * Z :=
  find_program_address
    [bstr "pool"; operator : list byte; base_mint : list byte; quote_mint : list byte] ID.

Definition vault_authority_address (pool : Pubkey) : Pubkey * Z :=
  find_program_address [bstr "vault"; pool : list byte] ID.

Definition epoch_address (pool : Pubkey) (epoch_id : bytes32) : Pubkey * Z :=
  find_program_address [bstr "epoch"; pool : list byte; epoch_id : list byte] ID.
End addresses.

(** ** The instruction enum *)

Record InitializePoolArgs : Type := {
  ia_lock_threshold : Z;
  ia_settlement_threshold : Z;
  ia_base_lot_atoms : Z;
  ia_keypers : Pubkey * Pubkey * Pubkey;
}.

Record CreateEpochArgs : Type := {
  ca_epoch_id : bytes32;
  ca_minimum_count : Z;
  ca_quote_atoms_per_lot : Z;
  ca_lock_deadline : Z;
  ca_abort_deadline : Z;
}.

Record CompactSettlementPayload : Type := {
  cs_result_commitment : bytes32;
  cs_residual_side : Z;
  cs_residual_lots : Z;
  cs_settlement_nonce : bytes32;
}.

Inductive KagebInstruction : Type :=
| InitializePool (args : InitializePoolArgs)
| CreateEpoch (args : CreateEpochArgs)
| Lock (payload : LockPayloadV1)
| Settle (payload : CompactSettlementPayload)
| Expire
| Abort.

(** [impl From<SettlementPayloadV1> for CompactSettlementPayload] *)
Definition CompactSettlementPayload_from (payload : SettlementPayloadV1) : CompactSettlementPayload :=
  {| cs_result_commitment := sp_result_commitment payload;
     cs_residual_side := sp_residual_side payload;
     cs_residual_lots := sp_residual_lots payload;
     cs_settlement_nonce := sp_settlement_nonce payload |}.

Definition encode_initialize_pool (args : InitializePoolArgs) : list byte :=
  let out := zeros 107 in
  let out := set_at 0 (byte_of 0) out in
  let out := set_at 1 (byte_of (ia_lock_threshold args)) out in
  let out := set_at 2 (byte_of (ia_settlement_threshold args)) out in
  let out := put_at 3 (le_bytes 8 (ia_base_lot_atoms args)) out in
  put_keys 11 (keyper_list (ia_keypers args)) out.

Definition encode_create_epoch (args : CreateEpochArgs) : list byte :=
  let out := zeros 61 in
  let out := set_at 0 (byte_of 1) out in
  let out := put_at 1 (ca_epoch_id args) out in
  let out := put_at 33 (le_bytes 4 (ca_minimum_count args)) out in
  let out := put_at 37 (le_bytes 8 (ca_quote_atoms_per_lot args)) out in
  let out := put_at 45 (le_bytes 8 (ca_lock_deadline args)) out in
  put_at 53 (le_bytes 8 (ca_abort_deadline args)) out.

Definition encode_settlement (payload : CompactSettlementPayload) : list byte :=
  let out := zeros 70 in
  let out := set_at 0 (byte_of 3) out in
  let out := put_at 1 (cs_result_commitment payload) out in
  let out := set_at 33 (byte_of (cs_residual_side payload)) out in
  let out := put_at 34 (le_bytes 4 (cs_residual_lots payload)) out in
  put_at 38 (cs_settlement_nonce payload) out.

Definition KagebInstruction_encode (i : KagebInstruction) : list byte :=
  match i with
  | InitializePool args => encode_initialize_pool args
  | CreateEpoch args => encode_create_epoch args
  | Lock payload => [byte_of 2] ++ LockPayloadV1_encode payload
  | Settle payload => encode_settlement payload
  | Expire => [byte_of 4]
  | Abort => [byte_of 5]
  end.

Definition invalid : ProgramError := into InvalidInstruction.

Definition decode_initialize_pool (data : list byte) : result ProgramError KagebInstruction :=
  keyper0 ← ok_or invalid (try_into 32 (slice 11 43 data));
  keyper1 ← ok_or invalid (try_into 32 (slice 43 75 data));
  keyper2 ← ok_or invalid (try_into 32 (slice 75 107 data));
  Ok (InitializePool {|
    ia_lock_threshold := u8_at 1 data;
    ia_settlement_threshold := u8_at 2 data;
    ia_base_lot_atoms := le_val (slice 3 11 data);
    ia_keypers := (keyper0, keyper1, keyper2) |}).

Definition decode_create_epoch (data : list byte) : result ProgramError KagebInstruction :=
  epoch_id ← ok_or invalid (try_into 32 (slice 1 33 data));
  Ok (CreateEpoch {|
    ca_epoch_id := epoch_id;
    ca_minimum_count := le_val (slice 33 37 data);
    ca_quote_atoms_per_lot := le_val (slice 37 45 data);
    ca_lock_deadline := i64_val (slice 45 53 data);
    ca_abort_deadline := i64_val (slice 53 61 data) |}).

Definition decode_settlement (data : list byte) : result ProgramError KagebInstruction :=
  result_commitment ← ok_or invalid (try_into 32 (slice 1 33 data));
  settlement_nonce ← ok_or invalid (try_into 32 (slice 38 70 data));
  Ok (Settle {|
    cs_result_commitment := result_commitment;
    cs_residual_side := u8_at 33 data;
    cs_residual_lots := le_val (slice 34 38 data);
    cs_settlement_nonce := settlement_nonce |}).

(** [match data.first().copied()]: the arms with their length guards; an empty buffer or a
    wrong length falls through to the last arm. *)
Definition KagebInstruction_decode (data : list byte) : result ProgramError KagebInstruction :=
  match data with
  | [] => Err invalid
  | first :: _ =>
      let tag := byte_val first in
      if (tag =? 0)%Z && (length data =? 107) then decode_initialize_pool data
      else if (tag =? 1)%Z && (length data =? 61) then decode_create_epoch data
      else if (tag =? 2)%Z && (length data =? 1 + LockPayloadV1_ENCODED_LEN) then
        ok_or invalid (Lock <$> LockPayloadV1_decode (slice_from 1 data))
      else if (tag =? 3)%Z && (length data =? 70) then decode_settlement data
      else if (tag =? 4)%Z && (length data =? 1) then Ok Expire
      else if (tag =? 5)%Z && (length data =? 1) then Ok Abort
      else Err invalid
  end.

Definition KagebInstruction_wf (i : KagebInstruction) : Prop :=
  match i with
  | InitializePool a =>
      u8_ok (ia_lock_threshold a) /\ u8_ok (ia_settlement_threshold a) /\ u64_ok (ia_base_lot_atoms a)
  | CreateEpoch a =>
      u32_ok (ca_minimum_count a) /\ u64_ok (ca_quote_atoms_per_lot a) /\
      i64_ok (ca_lock_deadline a) /\ i64_ok (ca_abort_deadline a)
  | Lock p => LockPayloadV1_wf p
  | Settle c => u8_ok (cs_residual_side c) /\ u32_ok (cs_residual_lots c)
  | Expire | Abort => True
  end.

(** ** Round trips *)

Definition initialize_pool_fields (a : InitializePoolArgs) : list (list byte) :=
  [[byte_of 0]; [byte_of (ia_lock_threshold a)]; [byte_of (ia_settlement_threshold a)];
   le_bytes 8 (ia_base_lot_atoms a); (ia_keypers a).1.1 : list byte;
   (ia_keypers a).1.2 : list byte; (ia_keypers a).2 : list byte].
Definition create_epoch_fields (a : CreateEpochArgs) : list (list byte) :=
  [[byte_of 1]; ca_epoch_id a : list byte; le_bytes 4 (ca_minimum_count a);
   le_bytes 8 (ca_quote_atoms_per_lot a); le_bytes 8 (ca_lock_deadline a);
   le_bytes 8 (ca_abort_deadline a)].
Definition settlement_fields (c : CompactSettlementPayload) : list (list byte) :=
  [[byte_of 3]; cs_result_commitment c : list byte; [byte_of (cs_residual_side c)];
   le_bytes 4 (cs_residual_lots c); cs_settlement_nonce c : list byte].

Lemma initialize_pool_layout a :
  map length (initialize_pool_fields a) = [1; 1; 1; 8; 32; 32; 32].
Proof. cbn [map initialize_pool_fields]. by autorewrite with len. Qed.
Lemma create_epoch_layout a : map length (create_epoch_fields a) = [1; 32; 4; 8; 8; 8].
Proof. cbn [map create_epoch_fields]. by autorewrite with len. Qed.
Lemma settlement_layout c : map length (settlement_fields c) = [1; 32; 1; 4; 32].
Proof. cbn [map settlement_fields]. by autorewrite with len. Qed.

Lemma encode_initialize_pool_fields a :
  encode_initialize_pool a = concat (initialize_pool_fields a).
Proof.
  unfold encode_initialize_pool, initialize_pool_fields. cbn zeta.
  destruct (ia_keypers a) as [[? ?] ?]. cbn [keyper_list fst snd concat]. by fill 107.
Qed.
Lemma encode_create_epoch_fields a : encode_create_epoch a = concat (create_epoch_fields a).
Proof. unfold encode_create_epoch, create_epoch_fields. cbn zeta. cbn [concat]. by fill 61. Qed.
Lemma encode_settlement_fields c : encode_settlement c = concat (settlement_fields c).
Proof. unfold encode_settlement, settlement_fields. cbn zeta. cbn [concat]. by fill 70. Qed.

Lemma encode_initialize_pool_length a : length (encode_initialize_pool a) = 107.
Proof. rewrite encode_initialize_pool_fields. cbn [concat initialize_pool_fields]. len. Qed.
Lemma encode_create_epoch_length a : length (encode_create_epoch a) = 61.
Proof. rewrite encode_create_epoch_fields. cbn [concat create_epoch_fields]. len. Qed.
Lemma encode_settlement_length c : length (encode_settlement c) = 70.
Proof. rewrite encode_settlement_fields. cbn [concat settlement_fields]. len. Qed.

Lemma decode_initialize_pool_encode a :
  KagebInstruction_wf (InitializePool a) ->
  decode_initialize_pool (encode_initialize_pool a) = Ok (InitializePool a).
Proof.
  intros (H1 & H2 & H3). unfold decode_initialize_pool. rewrite encode_initialize_pool_fields.
  fields (initialize_pool_layout a). cbn [nth initialize_pool_fields]. unfold byte_at. cbn [nth].
  autorewrite with wire. cbn. by destruct a as [? ? ? [[??]?]].
Qed.

Lemma decode_create_epoch_encode a :
  KagebInstruction_wf (CreateEpoch a) ->
  decode_create_epoch (encode_create_epoch a) = Ok (CreateEpoch a).
Proof.
  intros (H1 & H2 & H3 & H4). unfold decode_create_epoch. rewrite encode_create_epoch_fields.
  fields (create_epoch_layout a). cbn [nth create_epoch_fields].
  autorewrite with wire. cbn. by destruct a.
Qed.

Lemma decode_settlement_encode c :
  KagebInstruction_wf (Settle c) -> decode_settlement (encode_settlement c) = Ok (Settle c).
Proof.
  intros (H1 & H2). unfold decode_settlement. rewrite encode_settlement_fields.
  fields (settlement_layout c). cbn [nth settlement_fields]. unfold byte_at. cbn [nth].
  autorewrite with wire. cbn. by destruct c.
Qed.

(** The first byte of every encoding is its tag. *)
Lemma KagebInstruction_encode_head i :
  exists rest, KagebInstruction_encode i =
    byte_of (match i with InitializePool _ => 0 | CreateEpoch _ => 1 | Lock _ => 2
                        | Settle _ => 3 | Expire => 4 | Abort => 5 end) :: rest.
Proof.
  destruct i; cbn [KagebInstruction_encode];
    rewrite ?encode_initialize_pool_fields, ?encode_create_epoch_fields, ?encode_settlement_fields;
    eexists; reflexivity.
Qed.

Lemma KagebInstruction_decode_encode i :
  KagebInstruction_wf i -> KagebInstruction_decode (KagebInstruction_encode i) = Ok i.
Proof.
  intros Hwf. unfold KagebInstruction_decode.
  destruct (KagebInstruction_encode_head i) as [rest Hr].
  destruct (KagebInstruction_encode i) as [|b l] eqn:E; [done|]. injection Hr as -> ->.
  rewrite <- E. destruct i; cbn [KagebInstruction_encode].
  - rewrite encode_initialize_pool_length. by apply decode_initialize_pool_encode.
  - rewrite encode_create_epoch_length. by apply decode_create_epoch_encode.
  - rewrite length_app, LockPayloadV1_encode_length. unfold slice_from. cbn -[LockPayloadV1_encode LockPayloadV1_decode].
    rewrite drop_0. by rewrite LockPayloadV1_decode_encode.
  - rewrite encode_settlement_length. by apply decode_settlement_encode.
  - done.
  - done.
Qed.

Lemma byte_tag b v : byte_val b = v -> b = byte_of v.
Proof. intros <-. by rewrite byte_of_val. Qed.

Lemma encode_initialize_pool_decode data i :
  length data = 107 -> u8_at 0 data = 0%Z -> decode_initialize_pool data = Ok i ->
  KagebInstruction_encode i = data.
Proof.
  intros Hl Ht. unfold decode_initialize_pool. intros H. inv_ok. subst i.
  cbn [KagebInstruction_encode]. rewrite encode_initialize_pool_fields.
  unfold initialize_pool_fields. cbn -[slice le_bytes byte_of concat].
  uncut [1; 1; 1; 8; 32; 32; 32].
Qed.

Lemma encode_create_epoch_decode data i :
  length data = 61 -> u8_at 0 data = 1%Z -> decode_create_epoch data = Ok i ->
  KagebInstruction_encode i = data.
Proof.
  intros Hl Ht. unfold decode_create_epoch. intros H. inv_ok. subst i.
  cbn [KagebInstruction_encode]. rewrite encode_create_epoch_fields.
  unfold create_epoch_fields. cbn -[slice le_bytes byte_of concat].
  uncut [1; 32; 4; 8; 8; 8].
Qed.

Lemma encode_settlement_decode data i :
  length data = 70 -> u8_at 0 data = 3%Z -> decode_settlement data = Ok i ->
  KagebInstruction_encode i = data.
Proof.
  intros Hl Ht. unfold decode_settlement. intros H. inv_ok. subst i.
  cbn [KagebInstruction_encode]. rewrite encode_settlement_fields.
  unfold settlement_fields. cbn -[slice le_bytes byte_of concat].
  uncut [1; 32; 1; 4; 32].
Qed.

Lemma KagebInstruction_encode_decode data i :
  KagebInstruction_decode data = Ok i -> KagebInstruction_encode i = data.
Proof.
  destruct data as [|b rest]; [done|]. unfold KagebInstruction_decode. cbv zeta.
  repeat match goal with
  | |- (if ?c then _ else _) = _ -> _ => destruct c eqn:?
  end; intros H; bguard; try done.
  - by apply encode_initialize_pool_decode.
  - by apply encode_create_epoch_decode.
  - apply ok_or_Ok, fmap_Some in H as (p & Hp & ->). cbn [KagebInstruction_encode].
    apply LockPayloadV1_encode_decode in Hp. rewrite Hp. cbn. rewrite drop_0. f_equal.
    symmetry. by apply byte_tag.
  - by apply encode_settlement_decode.
  - inv_ok. subst i. destruct rest; [|done]. cbn. f_equal. symmetry. by apply byte_tag.
  - inv_ok. subst i. destruct rest; [|done]. cbn. f_equal. symmetry. by apply byte_tag.
Qed.

(** ** Client-side builders *)

Record InitializePoolAccounts : Type := {
  ipa_payer : Pubkey;
  ipa_operator : Pubkey;
  ipa_pool : Pubkey;
  ipa_vault_authority : Pubkey;
  ipa_base_mint : Pubkey;
  ipa_quote_mint : Pubkey;
  ipa_pool_base_vault : Pubkey;
  ipa_pool_quote_vault : Pubkey;
  ipa_venue_authority : Pubkey;
  ipa_venue_base_account : Pubkey;
  ipa_venue_quote_account : Pubkey;
}.

Record SettleAccounts : Type := {
  sa_payer : Pubkey;
  sa_pool : Pubkey;
  sa_epoch : Pubkey;
  sa_vault_authority : Pubkey;
  sa_pool_base_vault : Pubkey;
  sa_pool_quote_vault : Pubkey;
  sa_venue_authority : Pubkey;
  sa_venue_base_account : Pubkey;
  sa_venue_quote_account : Pubkey;
  sa_base_mint : Pubkey;
  sa_quote_mint : Pubkey;
}.

Section builders.
Context `{Solana}.

Definition initialize_pool_instruction (accounts : InitializePoolAccounts) (args : InitializePoolArgs)
  : Instruction :=
  {| ix_program_id := ID;
     ix_accounts :=
       [AccountMeta_new (ipa_payer accounts) true;
        AccountMeta_new_readonly (ipa_operator accounts) true;
        AccountMeta_new (ipa_pool accounts) false;
        AccountMeta_new_readonly (ipa_vault_authority accounts) false;
        AccountMeta_new_readonly (ipa_base_mint accounts) false;
        AccountMeta_new_readonly (ipa_quote_mint accounts) false;
        AccountMeta_new_readonly (ipa_pool_base_vault accounts) false;
        AccountMeta_new_readonly (ipa_pool_quote_vault accounts) false;
        AccountMeta_new_readonly (ipa_venue_authority accounts) false;
        AccountMeta_new_readonly (ipa_venue_base_account accounts) false;
        AccountMeta_new_readonly (ipa_venue_quote_account accounts) false;
        AccountMeta_new_readonly system_program_id false;
        AccountMeta_new_readonly TOKEN_PROGRAM_ID false];
     ix_data := KagebInstruction_encode (InitializePool args) |}.

Definition create_epoch_instruction (payer operator pool epoch : Pubkey) (args : CreateEpochArgs)
  : Instruction :=
  {| ix_program_id := ID;
     ix_accounts :=
       [AccountMeta_new payer true;
        AccountMeta_new_readonly operator true;
        AccountMeta_new_readonly pool false;
        AccountMeta_new epoch false;
        AccountMeta_new_readonly system_program_id false;
        AccountMeta_new_readonly clock_sysvar_id false];
     ix_data := KagebInstruction_encode (CreateEpoch args) |}.

Definition lock_instruction (payer pool epoch : Pubkey) (payload : LockPayloadV1) : Instruction :=
  {| ix_program_id := ID;
     ix_accounts :=
       [AccountMeta_new_readonly payer true;
        AccountMeta_new_readonly pool false;
        AccountMeta_new epoch false;
        AccountMeta_new_readonly instructions_sysvar_id false;
        AccountMeta_new_readonly clock_sysvar_id false];
     ix_data := KagebInstruction_encode (Lock payload) |}.

Definition settle_instruction (accounts : SettleAccounts) (payload : SettlementPayloadV1) : Instruction :=
  {| ix_program_id := ID;
     ix_accounts :=
       [AccountMeta_new_readonly (sa_payer accounts) true;
        AccountMeta_new_readonly (sa_pool accounts) false;
        AccountMeta_new (sa_epoch accounts) false;
        AccountMeta_new_readonly (sa_vault_authority accounts) false;
        AccountMeta_new (sa_pool_base_vault accounts) false;
        AccountMeta_new (sa_pool_quote_vault accounts) false;
        AccountMeta_new_readonly (sa_venue_authority accounts) true;
        AccountMeta_new (sa_venue_base_account accounts) false;
        AccountMeta_new (sa_venue_quote_account accounts) false;
        AccountMeta_new_readonly (sa_base_mint accounts) false;
        AccountMeta_new_readonly (sa_quote_mint accounts) false;
        AccountMeta_new_readonly TOKEN_PROGRAM_ID false;
        AccountMeta_new_readonly instructions_sysvar_id false;
        AccountMeta_new_readonly clock_sysvar_id false];
     ix_data := KagebInstruction_encode (Settle (CompactSettlementPayload_from payload)) |}.

Definition terminal_instruction (caller pool epoch : Pubkey) (instruction : KagebInstruction)
  : Instruction :=
  {| ix_program_id := ID;
     ix_accounts :=
       [AccountMeta_new_readonly caller true;
        AccountMeta_new_readonly pool false;
        AccountMeta_new epoch false;
        AccountMeta_new_readonly clock_sysvar_id false];
     ix_data := KagebInstruction_encode instruction |}.

Definition expire_instruction (caller pool epoch : Pubkey) : Instruction :=
  terminal_instruction caller pool epoch Expire.
Definition abort_instruction (caller pool epoch : Pubkey) : Instruction :=
  terminal_instruction caller pool epoch Abort.
End builders.

(** Decoded instructions are within the ranges of their Rust types. *)
Lemma KagebInstruction_decode_wf data i : KagebInstruction_decode data = Ok i -> KagebInstruction_wf i.
Proof.
  destruct data as [|b rest]; [done|]. unfold KagebInstruction_decode. cbv zeta.
  set (data := b :: rest).
  repeat match goal with
  | |- (if ?c then _ else _) = _ -> _ => destruct c eqn:?
  end; intros H; bguard; try done.
  - unfold decode_initialize_pool in H. inv_ok. subst i. cbn -[slice data].
    split_and!; first [apply u8_at_ok | apply u64_slice_ok; lia].
  - unfold decode_create_epoch in H. inv_ok. subst i. cbn -[slice data].
    split_and!; first [apply u32_slice_ok; lia | apply u64_slice_ok; lia | apply i64_slice_ok; lia].
  - apply ok_or_Ok, fmap_Some in H as (p & Hp & ->). by apply LockPayloadV1_decode_wf in Hp.
  - unfold decode_settlement in H. inv_ok. subst i. cbn -[slice data].
    split_and!; first [apply u8_at_ok | apply u32_slice_ok; lia].
  - by simplify_eq.
  - by simplify_eq.
Qed.
