(* ===== verification/Ed25519.v ===== *)
(** * Strict Ed25519 verifier parsing (crates/kageb-program/src/ed25519.rs)

    The program does not verify signatures: the native Ed25519 program does, in instructions
    that precede it in the transaction.  This file models the parsing of those instructions
    and the two loops that count distinct keypers over a digest, and relates the counts to the
    set of keypers that signed. *)

From S2P Require Import Prelude Bytes Extern ProgramWire ProgramState.

Definition VERIFIER_DATA_LEN : nat := 144.
Definition u16_MAX : Z := 65535.

Record StrictEd25519 : Type := { ed_signer : Pubkey; ed_digest : bytes32 }.

Definition read_u16 (data : list byte) (offset : nat) : result ProgramError Z :=
  range ← ok_or (into InvalidLock) (get_range offset (offset + 2) data);
  bytes ← ok_or (into InvalidLock) (try_into 2 range);
  Ok (le_val (arr_list bytes)).

Section ed25519.
Context `{Solana}.

(** The disjuncts with [?] inside are evaluated in order, as [||] does. *)
Definition parse_strict_ed25519 (instruction : Instruction) : result ProgramError StrictEd25519 :=
  let data := ix_data instruction in
  let bad := into InvalidLock in
  if (ix_program_id instruction != ed25519_program_id)
     || negb (match ix_accounts instruction with [] => true | _ => false end)
     || (length data != VERIFIER_DATA_LEN)
     || (u8_at 0 data != 1%Z)
     || (u8_at 1 data != 0%Z) then Err bad else
  signature_offset ← read_u16 data 2;
  if signature_offset != 48%Z then Err bad else
  signature_index ← read_u16 data 4;
  if signature_index != u16_MAX then Err bad else
  key_offset ← read_u16 data 6;
  if key_offset != 16%Z then Err bad else
  key_index ← read_u16 data 8;
  if key_index != u16_MAX then Err bad else
  message_offset ← read_u16 data 10;
  if message_offset != 112%Z then Err bad else
  message_size ← read_u16 data 12;
  if message_size != 32%Z then Err bad else
  message_index ← read_u16 data 14;
  if message_index != u16_MAX then Err bad else
  signer ← ok_or bad (try_into 32 (slice 16 48 data));
  digest ← ok_or bad (try_into 32 (slice 112 144 data));
  Ok {| ed_signer := signer; ed_digest := digest |}.

(** [keypers.iter().position(|keyper| *keyper == signer)] *)
Fixpoint position (signer : Pubkey) (keypers : list Pubkey) : option nat :=
  match keypers with
  | [] => None
  | k :: keypers => if k == signer then Some 0 else S <$> position signer keypers
  end.

(** One round of either loop: [continue] on a parse error or another digest, otherwise mark
    the keyper's slot. *)
Definition mark_keyper (keypers : list Pubkey) (digest : bytes32) (matched : list bool)
    (instruction : Instruction) : list bool :=
  match parse_strict_ed25519 instruction with
  | Err _ => matched
  | Ok parsed =>
      if ed_digest parsed != digest then matched else
      match position (ed_signer parsed) keypers with
      | Some index => <[index := true]> matched
      | None => matched
      end
  end.

(** [matched.into_iter().filter(|value| *value).count() as u8] *)
Definition count_true (matched : list bool) : Z :=
  Z.of_nat (length (List.filter (fun value : bool => value) matched)).

Definition count_matching_keypers (instructions : list Instruction)
    (keypers : Pubkey * Pubkey * Pubkey) (digest : bytes32) : Z :=
  count_true (fold_left (mark_keyper (keyper_list keypers) digest) instructions [false; false; false]).

Definition count_preceding_keypers (instructions_account : AccountInfo)
    (keypers : Pubkey * Pubkey * Pubkey) (digest : bytes32) : result ProgramError Z :=
  current_index ← load_current_index_checked instructions_account;
  matched ← try_fold
    (fun matched index =>
       instruction ← load_instruction_at_checked index instructions_account;
       Ok (mark_keyper (keyper_list keypers) digest matched instruction))
    [false; false; false] (seq 0 (Z.to_nat current_index));
  Ok (count_true matched).

(** ** What the parser accepts *)

(** The instruction an honest builder produces: the fixed header, then key, signature and
    32-byte message inline. *)
Definition strict_header : list byte :=
  [byte_of 1; byte_of 0] ++ le_bytes 2 48 ++ le_bytes 2 u16_MAX ++ le_bytes 2 16 ++
  le_bytes 2 u16_MAX ++ le_bytes 2 112 ++ le_bytes 2 32 ++ le_bytes 2 u16_MAX.

Definition strict_ed25519_instruction (signer : Pubkey) (signature : bytes64) (digest : bytes32)
  : Instruction :=
  {| ix_program_id := ed25519_program_id; ix_accounts := [];
     ix_data := strict_header ++ (signer : list byte) ++ (signature : list byte) ++ (digest : list byte) |}.

Lemma read_u16_inv data off v :
  read_u16 data off = Ok v -> off + 2 <= length data /\ le_bytes 2 v = slice off (off + 2) data.
Proof.
  unfold read_u16. intros H0. inv_ok. apply get_range_Some in H1 as [? ->].
  apply try_into_Some in H2. subst v. rewrite H2. split; [lia|]. apply le_bytes_slice; lia.
Qed.

Lemma read_u16_ok data off v :
  off + 2 <= length data -> slice off (off + 2) data = le_bytes 2 v -> u16_ok v ->
  read_u16 data off = Ok v.
Proof.
  intros Hl Hs Hv. unfold read_u16.
  rewrite (proj2 (get_range_Some off (off + 2) data (slice off (off + 2) data))) by (split; [lia|done]).
  cbn -[try_into]. rewrite Hs.
  destruct (try_into_is_Some 2 (le_bytes 2 v) (length_le_bytes _ _)) as (a & -> & Ha).
  cbn -[le_bytes]. by rewrite Ha, le_val_u16.
Qed.

Definition strict_fields (signer : Pubkey) (signature : bytes64) (digest : bytes32) : list (list byte) :=
  [[byte_of 1]; [byte_of 0]; le_bytes 2 48; le_bytes 2 u16_MAX; le_bytes 2 16; le_bytes 2 u16_MAX;
   le_bytes 2 112; le_bytes 2 32; le_bytes 2 u16_MAX; signer : list byte; signature : list byte;
   digest : list byte].

Lemma strict_layout k s d :
  map length (strict_fields k s d) = [1; 1; 2; 2; 2; 2; 2; 2; 2; 32; 64; 32].
Proof. cbn [map strict_fields]. by autorewrite with len. Qed.

Lemma strict_data k s d :
  ix_data (strict_ed25519_instruction k s d) = concat (strict_fields k s d).
Proof.
  unfold strict_ed25519_instruction, strict_fields, strict_header. cbn [ix_data concat].
  rewrite <- !app_assoc, app_nil_r. done.
Qed.

Lemma strict_length k s d : length (concat (strict_fields k s d)) = 144.
Proof. cbn [concat strict_fields]. len. Qed.

Lemma parse_strict_accepts k s d :
  parse_strict_ed25519 (strict_ed25519_instruction k s d) = Ok {| ed_signer := k; ed_digest := d |}.
Proof.
  pose proof (strict_length k s d) as Hlen. pose proof (strict_layout k s d) as HL.
  unfold parse_strict_ed25519. cbv zeta. rewrite strict_data. cbn [ix_program_id ix_accounts strict_ed25519_instruction].
  rewrite (bool_decide_eq_true_2 (ed25519_program_id = ed25519_program_id)) by done.
  rewrite Hlen. fields HL. cbn [nth strict_fields].
  change (byte_at 0 [byte_of 1]) with (byte_of 1). change (byte_at 0 [byte_of 0]) with (byte_of 0).
  rewrite !byte_val_of. cbn -[strict_fields read_u16 try_into slice].
  rewrite (read_u16_ok _ 2 48), (read_u16_ok _ 4 u16_MAX), (read_u16_ok _ 6 16),
    (read_u16_ok _ 8 u16_MAX), (read_u16_ok _ 10 112), (read_u16_ok _ 12 32),
    (read_u16_ok _ 14 u16_MAX);
    try lia; try done; cbn [Nat.add]; try (by fields HL).
  cbn -[strict_fields try_into slice]. rewrite !try_into_arr. done.
Qed.

Lemma parse_strict_inv ix p :
  parse_strict_ed25519 ix = Ok p ->
  exists signature, ix = strict_ed25519_instruction (ed_signer p) signature (ed_digest p).
Proof.
  unfold parse_strict_ed25519. cbv zeta. intros H0. inv_ok. bguard. subst.
  destruct ix as [prog accts data]. cbn -[slice try_into] in *. destruct accts; [|done].
  unfold VERIFIER_DATA_LEN in *.
  destruct (try_into_is_Some 64 (slice 48 112 data)) as (signature & _ & Hsig);
    [rewrite length_slice; lia|].
  exists signature. subst prog.
  repeat match goal with Hr : read_u16 _ _ = Ok _ |- _ => apply read_u16_inv in Hr as [_ Hr] end.
  cbn [Nat.add] in *.
  assert (concat (strict_fields x6 signature x7) = data) as Hd
    by (unfold strict_fields; uncut [1; 1; 2; 2; 2; 2; 2; 2; 2; 32; 64; 32]).
  rewrite <- Hd at 1. by rewrite <- strict_data.
Qed.

(** ** What the counts mean *)

(** Reference definition: keyper [k] signed [digest] in one of the instructions. *)
Definition signed_by (digest : bytes32) (instructions : list Instruction) (k : Pubkey) : bool :=
  existsb (fun ix => match parse_strict_ed25519 ix with
                     | Ok p => (ed_signer p == k) && (ed_digest p == digest)
                     | Err _ => false
                     end) instructions.

Lemma position_Some s K i : NoDup K -> position s K = Some i <-> K !! i = Some s.
Proof.
  intros HN. revert i. induction HN as [|k K Hk HN IH]; intros i; cbn; [by rewrite lookup_nil|].
  destruct (bool_decide_reflect (k = s)) as [->|Hne].
  - destruct i; cbn; [split; congruence|]. split; [done|].
    intros HK. destruct Hk. apply list_elem_of_lookup. by exists i.
  - rewrite fmap_Some. destruct i; cbn; [|rewrite <- IH]; naive_solver.
Qed.

Lemma mark_keyper_length K d m ix : length (mark_keyper K d m ix) = length m.
Proof.
  unfold mark_keyper. destruct (parse_strict_ed25519 ix); [|done].
  destruct (_ != _); [done|]. destruct (position _ _); [|done]. apply length_insert.
Qed.

Lemma mark_keyper_lookup K d m ix i k :
  NoDup K -> length m = length K -> K !! i = Some k ->
  mark_keyper K d m ix !! i = Some true <-> m !! i = Some true \/ signed_by d [ix] k = true.
Proof.
  intros HN Hl Hk. unfold mark_keyper, signed_by. cbn [existsb]. rewrite orb_false_r.
  destruct (parse_strict_ed25519 ix) as [p|]; [|naive_solver].
  destruct (bool_decide_reflect (ed_digest p = d)) as [Hd|Hd]; cbn [negb];
    [|rewrite andb_false_r; naive_solver].
  rewrite andb_true_r, bool_decide_eq_true.
  destruct (position (ed_signer p) K) as [j|] eqn:Hj.
  - apply position_Some in Hj; [|done]. destruct (decide (i = j)) as [<-|Hij].
    + rewrite list_lookup_insert_eq by (rewrite Hl; by apply lookup_lt_is_Some; eauto).
      split; [intros _; right; congruence | done].
    + rewrite list_lookup_insert_ne by done. split; [by left|]. intros [?|He]; [done|].
      destruct Hij. by apply (NoDup_lookup K i j k); [| |rewrite <- He].
  - split; [by left|]. intros [?|He]; [done|]. subst k.
    apply position_Some in Hk; [|done]. congruence.
Qed.

Lemma mark_fold_lookup K d ixs m i k :
  NoDup K -> length m = length K -> K !! i = Some k ->
  fold_left (mark_keyper K d) ixs m !! i = Some true
  <-> m !! i = Some true \/ signed_by d ixs k = true.
Proof.
  intros HN. revert m. induction ixs as [|ix ixs IH]; intros m Hl Hk; cbn [fold_left].
  - cbn. naive_solver.
  - rewrite IH by (by rewrite ?mark_keyper_length). rewrite (mark_keyper_lookup K d m ix i k) by done.
    unfold signed_by. cbn [existsb]. rewrite !orb_true_iff. naive_solver.
Qed.

Lemma mark_fold_length K d ixs m : length (fold_left (mark_keyper K d) ixs m) = length m.
Proof.
  revert m. induction ixs as [|ix ixs IH]; intros m; cbn; [done|].
  by rewrite IH, mark_keyper_length.
Qed.

(** The count of a three-slot array is the count of the keypers the array was marked for. *)
Lemma count_true_filter K m (f : Pubkey -> bool) :
  length m = length K ->
  (forall i k, K !! i = Some k -> m !! i = Some true <-> f k = true) ->
  count_true m = Z.of_nat (length (List.filter f K)).
Proof.
  unfold count_true. intros Hl Hf. f_equal. revert m Hl Hf.
  induction K as [|k K IH]; intros [|b m] Hl Hf; try done.
  injection Hl as Hl. specialize (IH m Hl (fun i => Hf (S i))).
  pose proof (Hf 0 k eq_refl) as H0. cbn in H0. cbn [List.filter].
  destruct b, (f k); cbn; try lia; exfalso; naive_solver.
Qed.

Lemma count_matching_spec ixs keypers d :
  NoDup (keyper_list keypers) ->
  count_matching_keypers ixs keypers d
  = Z.of_nat (length (List.filter (signed_by d ixs) (keyper_list keypers))).
Proof.
  intros HN. assert (length (keyper_list keypers) = 3) as H3 by (by destruct keypers as [[? ?] ?]).
  apply count_true_filter.
  - by rewrite mark_fold_length, H3.
  - intros i k Hk. rewrite (mark_fold_lookup _ d ixs _ i k) by done.
    split; [|by right]. intros [Hb|]; [|done].
    apply list_elem_of_lookup_2 in Hb. set_solver.
Qed.

Lemma count_preceding_spec ia keypers d n :
  count_preceding_keypers ia keypers d = Ok n <->
  exists idx ixs, load_current_index_checked ia = Ok idx /\
    Forall2 (fun i ix => load_instruction_at_checked i ia = Ok ix) (seq 0 (Z.to_nat idx)) ixs /\
    n = count_matching_keypers ixs keypers d.
Proof.
  unfold count_preceding_keypers, count_matching_keypers.
  assert (forall l m r,
    try_fold (fun matched index => instruction ← load_instruction_at_checked index ia;
      Ok (mark_keyper (keyper_list keypers) d matched instruction)) m l = Ok r <->
    exists ixs, Forall2 (fun i ix => load_instruction_at_checked i ia = Ok ix) l ixs /\
      r = fold_left (mark_keyper (keyper_list keypers) d) ixs m) as Hloop.
  { induction l as [|i l IH]; intros m r; cbn [try_fold].
    - split; [intros [= <-]; exists []; by split|]. intros (ixs & Hf & ->). by inversion Hf.
    - split.
      + intros H0. inv_ok. subst. apply IH in H0 as (ixs & Hf & ->). exists (x0 :: ixs).
        by split; [constructor|].
      + intros (ixs & Hf & ->). inversion Hf; subst. rewrite H2. cbn. apply IH. eauto. }
  split.
  - intros H0. inv_ok. apply Hloop in H2 as (ixs & Hf & ->). naive_solver.
  - intros (idx & ixs & -> & Hf & ->). cbn. rewrite (proj2 (Hloop _ _ _)) by eauto. done.
Qed.

Lemma count_matching_range ixs keypers d : (0 <= count_matching_keypers ixs keypers d <= 3)%Z.
Proof.
  unfold count_matching_keypers, count_true.
  pose proof (List.filter_length_le (fun v : bool => v)
    (fold_left (mark_keyper (keyper_list keypers) d) ixs [false; false; false])) as Hle.
  rewrite mark_fold_length in Hle. cbn in Hle. lia.
Qed.

(** Two counted keypers are two different members of the committee that both signed. *)
Lemma filter_two {A} (f : A -> bool) l :
  NoDup l -> 2 <= length (List.filter f l) ->
  exists a b, a <> b /\ a ∈ l /\ b ∈ l /\ f a = true /\ f b = true.
Proof.
  intros HN Hl. destruct (List.filter f l) as [|a [|b r]] eqn:E; cbn in Hl; try lia.
  assert (NoDup (List.filter f l)) as HNf by (apply NoDup_ListNoDup, List.NoDup_filter, NoDup_ListNoDup, HN).
  rewrite E in HNf. inversion HNf as [|? ? Hab _]; subst.
  assert (forall x, x ∈ a :: b :: r -> x ∈ l /\ f x = true) as Hin.
  { intros x. rewrite <- E, list_elem_of_In, List.filter_In, list_elem_of_In. done. }
  exists a, b. split; [set_solver|]. destruct (Hin a), (Hin b); set_solver.
Qed.

Lemma count_preceding_two ia keypers d n :
  NoDup (keyper_list keypers) ->
  count_preceding_keypers ia keypers d = Ok n -> (2 <= n)%Z ->
  exists idx ixs k1 k2, load_current_index_checked ia = Ok idx /\
    Forall2 (fun i ix => load_instruction_at_checked i ia = Ok ix) (seq 0 (Z.to_nat idx)) ixs /\
    k1 <> k2 /\ k1 ∈ keyper_list keypers /\ k2 ∈ keyper_list keypers /\
    signed_by d ixs k1 = true /\ signed_by d ixs k2 = true.
Proof.
  intros HN Hc Hn. apply count_preceding_spec in Hc as (idx & ixs & Hi & Hf & ->).
  rewrite count_matching_spec in Hn by done.
  destruct (filter_two (signed_by d ixs) (keyper_list keypers) HN ltac:(lia)) as (k1 & k2 & ?).
  naive_solver.
Qed.

(** What [signed_by] means in terms of the instruction bytes. *)
Lemma signed_by_instruction d ixs k :
  signed_by d ixs k = true <->
  exists signature, strict_ed25519_instruction k signature d ∈ ixs.
Proof.
  unfold signed_by. rewrite existsb_exists. split.
  - intros (ix & Hin & Hp). destruct (parse_strict_ed25519 ix) as [p|] eqn:E; [|done].
    bguard. subst. apply parse_strict_inv in E as [s ->]. exists s. by apply list_elem_of_In.
  - intros [s Hs]. exists (strict_ed25519_instruction k s d).
    split; [by apply list_elem_of_In|]. rewrite parse_strict_accepts. cbn.
    by rewrite !bool_decide_eq_true_2.
Qed.
End ed25519.
