(* ===== verification/Processor.v ===== *)
(** * The on-chain program (crates/kageb-program/src/processor.rs)

    Every handler of the program with all of its checks, in the order of the source.  A
    handler takes the accounts of the instruction and returns them with their cells updated;
    an error returns no accounts, since the runtime discards the effects of a failed
    instruction.  Account handles ([&AccountInfo]) that are passed to cross-program
    invocations are positions in the account list, so that the updates a callee makes are seen
    by the later reads of the same handle. *)

From S2P Require Import Prelude Bytes Extern ProgramWire ProgramState ProgramInstruction Ed25519.

(** ** Accounts as shared cells *)

Definition default_account : AccountInfo :=
  {| ai_key := zero32; ai_is_signer := false; ai_is_writable := false; ai_executable := false;
     ai_owner := zero32; ai_lamports := 0; ai_data := [] |}.

(** [&accounts[i]], after the length check. *)
Definition acct (i : nat) (accounts : list AccountInfo) : AccountInfo := nth i accounts default_account.

Definition with_data (a : AccountInfo) (data : list byte) : AccountInfo :=
  {| ai_key := ai_key a; ai_is_signer := ai_is_signer a; ai_is_writable := ai_is_writable a;
     ai_executable := ai_executable a; ai_owner := ai_owner a; ai_lamports := ai_lamports a;
     ai_data := data |}.

Definition with_cells (a : AccountInfo) (c : AccountCells) : AccountInfo :=
  {| ai_key := ai_key a; ai_is_signer := ai_is_signer a; ai_is_writable := ai_is_writable a;
     ai_executable := ai_executable a; ai_owner := ac_owner c; ai_lamports := ac_lamports c;
     ai_data := ac_data c |}.

(** [accounts[i].try_borrow_mut_data()?.copy_from_slice(bytes)]: panics on a length mismatch. *)
Definition copy_data (i : nat) (bytes : list byte) (accounts : list AccountInfo)
  : result ProgramError (list AccountInfo) :=
  let a := acct i accounts in
  if length (ai_data a) != length bytes then Err Panicked
  else Ok (<[i := with_data a bytes]> accounts).

(** Write the cells a callee returned back to the handles it was given. *)
Fixpoint write_back (handles : list nat) (cells : list AccountCells) (accounts : list AccountInfo)
  : list AccountInfo :=
  match handles, cells with
  | h :: handles, c :: cells =>
      write_back handles cells (<[h := with_cells (acct h accounts) c]> accounts)
  | _, _ => accounts
  end.

Section processor.
Context `{Sha256, Solana}.

(** [invoke_signed(&instruction, &[handles..], seeds)]; [invoke] passes no seeds. *)
Definition cpi (instruction : Instruction) (handles : list nat) (seeds : list (list (list byte)))
    (accounts : list AccountInfo) : result ProgramError (list AccountInfo) :=
  cells ← invoke_signed instruction (map (fun h => acct h accounts) handles) seeds;
  Ok (write_back handles cells accounts).

(** ** Checks *)

Definition require_account_flags (account : AccountInfo) (is_signer is_writable is_executable : bool)
  : result ProgramError unit :=
  if ai_is_signer account != is_signer then
    (if is_signer then Err (into MissingSignature) else Err (into InvalidAccounts))
  else if (ai_is_writable account != is_writable) || (ai_executable account != is_executable)
  then Err (into InvalidAccounts)
  else Ok tt.

Definition require_program_account (account : AccountInfo) (program_id : Pubkey)
  : result ProgramError unit :=
  if (ai_owner account != program_id) || (length (ai_data account) != STATE_LEN)
     || ai_executable account
  then Err (into InvalidOwner) else Ok tt.

(** [for (index, account) in accounts.iter().enumerate()]: the accounts before [index] are
    carried as [previous]. *)
Fixpoint require_distinct_from (previous accounts : list AccountInfo) : result ProgramError unit :=
  match accounts with
  | [] => Ok tt
  | account :: rest =>
      if existsb (fun p => ai_key p == ai_key account) previous
      then Err (into InvalidAccounts)
      else require_distinct_from (previous ++ [account]) rest
  end.
Definition require_distinct (accounts : list AccountInfo) : result ProgramError unit :=
  require_distinct_from [] accounts.

Definition three_distinct (keys : Pubkey * Pubkey * Pubkey) : bool :=
  let '(k0, k1, k2) := keys in (k0 != k1) && (k0 != k2) && (k1 != k2).

Definition valid_residual (side lots : Z) : bool :=
  ((side =? 0) && (lots =? 0) || ((side =? 1) || (side =? 2)) && (1 <=? lots) && (lots <=? 2 ^ 32 - 1))%Z.

Definition validate_mint (account : AccountInfo) : result ProgramError unit :=
  let data := ai_data account in
  if (ai_owner account != TOKEN_PROGRAM_ID) || ai_executable account || (length data != 82)
     || (u8_at 44 data != 0%Z) || (u8_at 45 data != 1%Z)
  then Err (into InvalidTokenAccount) else Ok tt.

Definition validate_token_account (account : AccountInfo) (expected_mint expected_authority : Pubkey)
  : result ProgramError unit :=
  let data := ai_data account in
  if (ai_owner account != TOKEN_PROGRAM_ID) || ai_executable account || (length data != 165)
     || (slice 0 32 data != arr_list expected_mint) || (slice 32 64 data != arr_list expected_authority)
     || (u8_at 108 data != 1%Z)
  then Err (into InvalidTokenAccount) else Ok tt.

Definition validate_pool_state (account : AccountInfo) (state : PoolStateV1) : result ProgramError unit :=
  let '(expected_pool, canonical_pool_bump) :=
    pool_address (pl_operator state) (pl_base_mint state) (pl_quote_mint state) in
  let '(_, canonical_vault_bump) := vault_authority_address (ai_key account) in
  if (expected_pool != ai_key account) || (pool_bump state != canonical_pool_bump)
     || (vault_bump state != canonical_vault_bump)
  then Err (into InvalidPda) else
  if (pl_lock_threshold state != 2%Z) || (pl_settlement_threshold state != 2%Z)
     || (pl_base_lot_atoms state == 0%Z) || (pl_base_mint state == pl_quote_mint state)
     || existsb (fun key => key == zero32) (keyper_list (pl_keypers state))
     || negb (three_distinct (pl_keypers state))
  then Err (into InvalidState) else Ok tt.

(** The configuration an epoch commits to, from the pool and the epoch's parameters. *)
Definition epoch_configuration (pool : Pubkey) (pool_state : PoolStateV1) (epoch_id : bytes32)
    (quote_atoms_per_lot minimum_count lock_deadline abort_deadline : Z) : EpochConfigurationV1 :=
  {| cfg_pool := pool;
     cfg_epoch_id := epoch_id;
     cfg_base_mint := pl_base_mint pool_state;
     cfg_quote_mint := pl_quote_mint pool_state;
     cfg_base_lot_atoms := pl_base_lot_atoms pool_state;
     cfg_quote_atoms_per_lot := quote_atoms_per_lot;
     cfg_minimum_count := minimum_count;
     cfg_lock_threshold := pl_lock_threshold pool_state;
     cfg_settlement_threshold := pl_settlement_threshold pool_state;
     cfg_keypers := pl_keypers pool_state;
     cfg_lock_deadline := lock_deadline;
     cfg_abort_deadline := abort_deadline |}.

Definition validate_epoch_state (account : AccountInfo) (state : EpochStateV1) (pool : AccountInfo)
    (pool_state : PoolStateV1) : result ProgramError unit :=
  if ep_pool state != ai_key pool then Err (into InvalidState) else
  let '(expected_epoch, canonical_bump) := epoch_address (ai_key pool) (ep_epoch_id state) in
  if (expected_epoch != ai_key account) || (epoch_bump state != canonical_bump)
  then Err (into InvalidPda) else
  if (ep_minimum_count state <? 4)%Z || (ep_base_lot_atoms state != pl_base_lot_atoms pool_state)
     || (ep_quote_atoms_per_lot state == 0%Z)
     || (ep_abort_deadline state <=? ep_lock_deadline state)%Z
  then Err (into InvalidState) else
  let expected_configuration := EpochConfigurationV1_digest
    (epoch_configuration (ai_key pool) pool_state (ep_epoch_id state) (ep_quote_atoms_per_lot state)
       (ep_minimum_count state) (ep_lock_deadline state) (ep_abort_deadline state)) in
  if ep_configuration_hash state != expected_configuration then Err (into InvalidState) else Ok tt.

(** ** Account creation *)

Definition initialize_pda_account (payer pda system_program : nat) (program_id : Pubkey)
    (signer_seeds : list (list (list byte))) (accounts : list AccountInfo)
  : result ProgramError (list AccountInfo) :=
  let p := acct pda accounts in
  if (ai_owner p != system_program_id) || (length (ai_data p) != 0) || ai_executable p
  then Err (into InvalidState) else
  required_lamports ← rent_minimum_balance STATE_LEN;
  let existing_lamports := ai_lamports p in
  accounts ←
    (if (existing_lamports <? required_lamports)%Z then
       deficit ← ok_or (into ArithmeticOverflow) (checked_sub_u64 required_lamports existing_lamports);
       cpi (system_transfer (ai_key (acct payer accounts)) (ai_key p) deficit)
         [payer; pda; system_program] [] accounts
     else Ok accounts);
  accounts ← cpi (system_allocate (ai_key p) (Z.of_nat STATE_LEN)) [pda; system_program] signer_seeds accounts;
  accounts ← cpi (system_assign (ai_key p) program_id) [pda; system_program] signer_seeds accounts;
  let p := acct pda accounts in
  if (ai_owner p != program_id) || (length (ai_data p) != STATE_LEN)
  then Err (into InvalidState) else Ok accounts.

Definition initialize_pool (program_id : Pubkey) (accounts : list AccountInfo)
    (args : InitializePoolArgs) : result ProgramError (list AccountInfo) :=
  if length accounts != 13 then Err (into InvalidAccounts) else
  let payer := acct 0 accounts in
  let operator := acct 1 accounts in
  let pool := acct 2 accounts in
  let vault_authority := acct 3 accounts in
  let base_mint := acct 4 accounts in
  let quote_mint := acct 5 accounts in
  let pool_base_vault := acct 6 accounts in
  let pool_quote_vault := acct 7 accounts in
  let venue_authority := acct 8 accounts in
  let venue_base_account := acct 9 accounts in
  let venue_quote_account := acct 10 accounts in
  let system_program := acct 11 accounts in
  let token_program := acct 12 accounts in
  require_account_flags payer true true false ;;
  require_account_flags operator true false false ;;
  require_account_flags pool false true false ;;
  try_each (fun account => require_account_flags account false false false)
    [vault_authority; base_mint; quote_mint; pool_base_vault; pool_quote_vault; venue_authority;
     venue_base_account; venue_quote_account] ;;
  require_account_flags system_program false false true ;;
  require_account_flags token_program false false true ;;
  require_distinct accounts ;;
  if (ai_key system_program != system_program_id) || negb (ai_executable system_program)
     || (ai_key token_program != TOKEN_PROGRAM_ID) || negb (ai_executable token_program)
  then Err (into InvalidAccounts) else
  if (ia_lock_threshold args != 2%Z) || (ia_settlement_threshold args != 2%Z)
     || (ia_base_lot_atoms args == 0%Z)
     || existsb (fun key => key == zero32) (keyper_list (ia_keypers args))
     || negb (three_distinct (ia_keypers args))
     || (ai_key base_mint == ai_key quote_mint)
  then Err (into InvalidConfiguration) else
  let '(expected_pool, p_bump) := pool_address (ai_key operator) (ai_key base_mint) (ai_key quote_mint) in
  let '(expected_vault_authority, v_bump) := vault_authority_address (ai_key pool) in
  if (ai_key pool != expected_pool) || (ai_key vault_authority != expected_vault_authority)
  then Err (into InvalidPda) else
  validate_mint base_mint ;;
  validate_mint quote_mint ;;
  validate_token_account pool_base_vault (ai_key base_mint) (ai_key vault_authority) ;;
  validate_token_account pool_quote_vault (ai_key quote_mint) (ai_key vault_authority) ;;
  validate_token_account venue_base_account (ai_key base_mint) (ai_key venue_authority) ;;
  validate_token_account venue_quote_account (ai_key quote_mint) (ai_key venue_authority) ;;
  accounts ← initialize_pda_account 0 2 11 program_id
    [[bstr "pool"; ai_key operator : list byte; ai_key base_mint : list byte;
      ai_key quote_mint : list byte; [byte_of p_bump]]] accounts;
  let state := {|
    pool_bump := p_bump;
    vault_bump := v_bump;
    pl_lock_threshold := ia_lock_threshold args;
    pl_settlement_threshold := ia_settlement_threshold args;
    pl_operator := ai_key operator;
    pl_base_mint := ai_key base_mint;
    pl_quote_mint := ai_key quote_mint;
    pl_pool_base_vault := ai_key pool_base_vault;
    pl_pool_quote_vault := ai_key pool_quote_vault;
    pl_venue_authority := ai_key venue_authority;
    pl_venue_base_account := ai_key venue_base_account;
    pl_venue_quote_account := ai_key venue_quote_account;
    pl_keypers := ia_keypers args;
    pl_base_lot_atoms := ia_base_lot_atoms args |} in
  copy_data 2 (PoolStateV1_encode state) accounts.

Definition create_epoch (program_id : Pubkey) (accounts : list AccountInfo) (args : CreateEpochArgs)
  : result ProgramError (list AccountInfo) :=
  if length accounts != 6 then Err (into InvalidAccounts) else
  let payer := acct 0 accounts in
  let operator := acct 1 accounts in
  let pool := acct 2 accounts in
  let epoch := acct 3 accounts in
  let system_program := acct 4 accounts in
  let clock_account := acct 5 accounts in
  require_account_flags payer true true false ;;
  require_account_flags operator true false false ;;
  require_account_flags pool false false false ;;
  require_account_flags epoch false true false ;;
  require_account_flags system_program false false true ;;
  require_account_flags clock_account false false false ;;
  require_distinct accounts ;;
  require_program_account pool program_id ;;
  if (ai_key system_program != system_program_id) || negb (ai_executable system_program)
     || (ai_key clock_account != clock_sysvar_id)
  then Err (into InvalidAccounts) else
  pool_state ← PoolStateV1_decode (ai_data pool);
  validate_pool_state pool pool_state ;;
  if pl_operator pool_state != ai_key operator then Err (into InvalidConfiguration) else
  now ← clock_unix_timestamp clock_account;
  if (ca_minimum_count args <? 4)%Z || (ca_quote_atoms_per_lot args == 0%Z)
     || (ca_lock_deadline args <=? now)%Z || (ca_abort_deadline args <=? ca_lock_deadline args)%Z
  then Err (into InvalidConfiguration) else
  let '(expected_epoch, e_bump) := epoch_address (ai_key pool) (ca_epoch_id args) in
  if ai_key epoch != expected_epoch then Err (into InvalidPda) else
  accounts ← initialize_pda_account 0 3 4 program_id
    [[bstr "epoch"; ai_key pool : list byte; ca_epoch_id args : list byte; [byte_of e_bump]]] accounts;
  let configuration_hash := EpochConfigurationV1_digest
    (epoch_configuration (ai_key pool) pool_state (ca_epoch_id args) (ca_quote_atoms_per_lot args)
       (ca_minimum_count args) (ca_lock_deadline args) (ca_abort_deadline args)) in
  let state := {|
    epoch_bump := e_bump;
    terminal_state := Open;
    ep_residual_side := 0;
    ep_pool := ai_key pool;
    ep_epoch_id := ca_epoch_id args;
    ep_configuration_hash := configuration_hash;
    ep_pre_balance_root := zero32;
    ep_member_root := zero32;
    ep_lock_digest := zero32;
    ep_result_commitment := zero32;
    ep_settlement_digest := zero32;
    ep_lock_nonce := zero32;
    ep_settlement_nonce := zero32;
    ep_member_count := 0;
    ep_minimum_count := ca_minimum_count args;
    ep_residual_lots := 0;
    ep_base_lot_atoms := pl_base_lot_atoms pool_state;
    ep_quote_atoms_per_lot := ca_quote_atoms_per_lot args;
    ep_lock_deadline := ca_lock_deadline args;
    ep_abort_deadline := ca_abort_deadline args |} in
  copy_data 3 (EpochStateV1_encode state) accounts.

(** ** Lock *)

Definition set_locked (s : EpochStateV1) (payload : LockPayloadV1) (digest : bytes32) : EpochStateV1 :=
  {| epoch_bump := epoch_bump s; terminal_state := Locked; ep_residual_side := ep_residual_side s;
     ep_pool := ep_pool s; ep_epoch_id := ep_epoch_id s;
     ep_configuration_hash := ep_configuration_hash s;
     ep_pre_balance_root := lp_pre_balance_root payload; ep_member_root := lp_member_root payload;
     ep_lock_digest := digest; ep_result_commitment := ep_result_commitment s;
     ep_settlement_digest := ep_settlement_digest s; ep_lock_nonce := lp_lock_nonce payload;
     ep_settlement_nonce := ep_settlement_nonce s; ep_member_count := lp_member_count payload;
     ep_minimum_count := ep_minimum_count s; ep_residual_lots := ep_residual_lots s;
     ep_base_lot_atoms := ep_base_lot_atoms s; ep_quote_atoms_per_lot := ep_quote_atoms_per_lot s;
     ep_lock_deadline := ep_lock_deadline s; ep_abort_deadline := ep_abort_deadline s |}.

Definition lock (program_id : Pubkey) (accounts : list AccountInfo) (payload : LockPayloadV1)
  : result ProgramError (list AccountInfo) :=
  if length accounts != 5 then Err (into InvalidAccounts) else
  let payer := acct 0 accounts in
  let pool := acct 1 accounts in
  let epoch := acct 2 accounts in
  let instructions_account := acct 3 accounts in
  let clock_account := acct 4 accounts in
  require_account_flags payer true false false ;;
  require_account_flags pool false false false ;;
  require_account_flags epoch false true false ;;
  require_account_flags instructions_account false false false ;;
  require_account_flags clock_account false false false ;;
  require_distinct accounts ;;
  require_program_account pool program_id ;;
  require_program_account epoch program_id ;;
  if (ai_key instructions_account != instructions_sysvar_id) || (ai_key clock_account != clock_sysvar_id)
  then Err (into InvalidAccounts) else
  pool_state ← PoolStateV1_decode (ai_data pool);
  validate_pool_state pool pool_state ;;
  epoch_state ← EpochStateV1_decode (ai_data epoch);
  validate_epoch_state epoch epoch_state pool pool_state ;;
  if terminal_state epoch_state != Open then Err (into InvalidState) else
  now ← clock_unix_timestamp clock_account;
  if (ep_lock_deadline epoch_state <=? now)%Z then Err (into DeadlinePassed) else
  if (lp_epoch_account payload != ai_key epoch)
     || (lp_configuration_hash payload != ep_configuration_hash epoch_state)
     || (lp_lock_deadline payload != ep_lock_deadline epoch_state)
     || (lp_lock_nonce payload == zero32)
     || (lp_pre_balance_root payload == zero32)
     || (lp_member_root payload == zero32)
  then Err (into InvalidLock) else
  if (lp_member_count payload <? ep_minimum_count epoch_state)%Z then Err (into CrowdBelowMinimum) else
  let digest := LockPayloadV1_digest payload in
  count ← count_preceding_keypers instructions_account (pl_keypers pool_state) digest;
  if (count <? pl_lock_threshold pool_state)%Z then Err (into InsufficientQuorum) else
  copy_data 2 (EpochStateV1_encode (set_locked epoch_state payload digest)) accounts.

(** ** Settlement *)

Definition set_settled (s : EpochStateV1) (payload : SettlementPayloadV1) (digest : bytes32) : EpochStateV1 :=
  {| epoch_bump := epoch_bump s; terminal_state := Settled;
     ep_residual_side := sp_residual_side payload;
     ep_pool := ep_pool s; ep_epoch_id := ep_epoch_id s;
     ep_configuration_hash := ep_configuration_hash s;
     ep_pre_balance_root := ep_pre_balance_root s; ep_member_root := ep_member_root s;
     ep_lock_digest := ep_lock_digest s; ep_result_commitment := sp_result_commitment payload;
     ep_settlement_digest := digest; ep_lock_nonce := ep_lock_nonce s;
     ep_settlement_nonce := sp_settlement_nonce payload; ep_member_count := ep_member_count s;
     ep_minimum_count := ep_minimum_count s; ep_residual_lots := sp_residual_lots payload;
     ep_base_lot_atoms := ep_base_lot_atoms s; ep_quote_atoms_per_lot := ep_quote_atoms_per_lot s;
     ep_lock_deadline := ep_lock_deadline s; ep_abort_deadline := ep_abort_deadline s |}.

Definition transfer_checked (source mint destination authority token_program : nat) (amount : Z)
    (signer_seeds : option (list (list byte))) (accounts : list AccountInfo)
  : result ProgramError (list AccountInfo) :=
  let key h := ai_key (acct h accounts) in
  instruction ← spl_transfer_checked (key token_program) (key source) (key mint) (key destination)
    (key authority) amount 0;
  cpi instruction [source; mint; destination; authority; token_program]
    (match signer_seeds with Some seeds => [seeds] | None => [] end) accounts.

(** [match payload.residual_side]: the two token legs of a residual. *)
Definition settle_residual (residual_side base_amount quote_amount : Z) (vault_seeds : list (list byte))
    (accounts : list AccountInfo) : result ProgramError (list AccountInfo) :=
  match residual_side with
  | 0%Z => Ok accounts
  | 1%Z =>
      accounts ← transfer_checked 5 10 8 3 11 quote_amount (Some vault_seeds) accounts;
      transfer_checked 7 9 4 6 11 base_amount None accounts
  | 2%Z =>
      accounts ← transfer_checked 4 9 7 3 11 base_amount (Some vault_seeds) accounts;
      transfer_checked 8 10 5 6 11 quote_amount None accounts
  | _ => Err (into InvalidSettlement)
  end.

(** The accounts of a settlement match the pool record. *)
Definition settle_accounts_mismatch (accounts : list AccountInfo) (pool_state : PoolStateV1) : bool :=
  (ai_key (acct 9 accounts) != pl_base_mint pool_state)
  || (ai_key (acct 10 accounts) != pl_quote_mint pool_state)
  || (ai_key (acct 4 accounts) != pl_pool_base_vault pool_state)
  || (ai_key (acct 5 accounts) != pl_pool_quote_vault pool_state)
  || (ai_key (acct 6 accounts) != pl_venue_authority pool_state)
  || (ai_key (acct 7 accounts) != pl_venue_base_account pool_state)
  || (ai_key (acct 8 accounts) != pl_venue_quote_account pool_state).

Definition settle_payload_mismatch (payload : SettlementPayloadV1) (epoch_key : Pubkey)
    (epoch_state : EpochStateV1) (pool_state : PoolStateV1) : bool :=
  (sp_epoch_account payload != epoch_key)
  || (sp_lock_digest payload != ep_lock_digest epoch_state)
  || (sp_result_commitment payload == zero32)
  || (sp_base_lot_atoms payload != ep_base_lot_atoms epoch_state)
  || (sp_quote_atoms_per_lot payload != ep_quote_atoms_per_lot epoch_state)
  || (sp_base_mint payload != pl_base_mint pool_state)
  || (sp_quote_mint payload != pl_quote_mint pool_state)
  || (sp_pool_base_vault payload != pl_pool_base_vault pool_state)
  || (sp_pool_quote_vault payload != pl_pool_quote_vault pool_state)
  || (sp_venue_authority payload != pl_venue_authority pool_state)
  || (sp_venue_base_account payload != pl_venue_base_account pool_state)
  || (sp_venue_quote_account payload != pl_venue_quote_account pool_state)
  || (sp_settlement_nonce payload == zero32)
  || (sp_settlement_nonce payload == ep_lock_nonce epoch_state)
  || negb (valid_residual (sp_residual_side payload) (sp_residual_lots payload)).

Definition settle (program_id : Pubkey) (accounts : list AccountInfo) (payload : SettlementPayloadV1)
  : result ProgramError (list AccountInfo) :=
  if length accounts != 14 then Err (into InvalidAccounts) else
  let payer := acct 0 accounts in
  let pool := acct 1 accounts in
  let epoch := acct 2 accounts in
  let vault_authority := acct 3 accounts in
  let pool_base_vault := acct 4 accounts in
  let pool_quote_vault := acct 5 accounts in
  let venue_authority := acct 6 accounts in
  let venue_base_account := acct 7 accounts in
  let venue_quote_account := acct 8 accounts in
  let base_mint := acct 9 accounts in
  let quote_mint := acct 10 accounts in
  let token_program := acct 11 accounts in
  let instructions_account := acct 12 accounts in
  let clock_account := acct 13 accounts in
  require_account_flags payer true false false ;;
  require_account_flags pool false false false ;;
  require_account_flags epoch false true false ;;
  require_account_flags vault_authority false false false ;;
  try_each (fun account => require_account_flags account false true false)
    [pool_base_vault; pool_quote_vault; venue_base_account; venue_quote_account] ;;
  require_account_flags venue_authority true false false ;;
  require_account_flags base_mint false false false ;;
  require_account_flags quote_mint false false false ;;
  require_account_flags token_program false false true ;;
  require_account_flags instructions_account false false false ;;
  require_account_flags clock_account false false false ;;
  require_distinct accounts ;;
  require_program_account pool program_id ;;
  require_program_account epoch program_id ;;
  if (ai_key token_program != TOKEN_PROGRAM_ID) || negb (ai_executable token_program)
     || (ai_key instructions_account != instructions_sysvar_id)
     || (ai_key clock_account != clock_sysvar_id)
  then Err (into InvalidAccounts) else
  now ← clock_unix_timestamp clock_account;
  pool_state ← PoolStateV1_decode (ai_data pool);
  validate_pool_state pool pool_state ;;
  epoch_state ← EpochStateV1_decode (ai_data epoch);
  validate_epoch_state epoch epoch_state pool pool_state ;;
  if terminal_state epoch_state != Locked then Err (into InvalidState) else
  if (ep_abort_deadline epoch_state <? now)%Z then Err (into DeadlinePassed) else
  let '(expected_vault_authority, canonical_vault_bump) := vault_authority_address (ai_key pool) in
  if (expected_vault_authority != ai_key vault_authority) || (canonical_vault_bump != vault_bump pool_state)
  then Err (into InvalidPda) else
  if settle_accounts_mismatch accounts pool_state then Err (into InvalidAccounts) else
  validate_mint base_mint ;;
  validate_mint quote_mint ;;
  validate_token_account pool_base_vault (ai_key base_mint) (ai_key vault_authority) ;;
  validate_token_account pool_quote_vault (ai_key quote_mint) (ai_key vault_authority) ;;
  validate_token_account venue_base_account (ai_key base_mint) (ai_key venue_authority) ;;
  validate_token_account venue_quote_account (ai_key quote_mint) (ai_key venue_authority) ;;
  if settle_payload_mismatch payload (ai_key epoch) epoch_state pool_state
  then Err (into InvalidSettlement) else
  let digest := SettlementPayloadV1_digest payload in
  count ← count_preceding_keypers instructions_account (pl_keypers pool_state) digest;
  if (count <? pl_settlement_threshold pool_state)%Z then Err (into InsufficientQuorum) else
  let lots := sp_residual_lots payload in
  base_amount ← ok_or (into ArithmeticOverflow) (checked_mul_u64 (sp_base_lot_atoms payload) lots);
  quote_amount ← ok_or (into ArithmeticOverflow) (checked_mul_u64 (sp_quote_atoms_per_lot payload) lots);
  let vault_seeds := [bstr "vault"; ai_key pool : list byte; [byte_of (vault_bump pool_state)]] in
  accounts ← settle_residual (sp_residual_side payload) base_amount quote_amount vault_seeds accounts;
  copy_data 2 (EpochStateV1_encode (set_settled epoch_state payload digest)) accounts.

Definition settle_compact (program_id : Pubkey) (accounts : list AccountInfo)
    (compact : CompactSettlementPayload) : result ProgramError (list AccountInfo) :=
  if length accounts != 14 then Err (into InvalidAccounts) else
  pool_state ← PoolStateV1_decode (ai_data (acct 1 accounts));
  epoch_state ← EpochStateV1_decode (ai_data (acct 2 accounts));
  settle program_id accounts {|
    sp_epoch_account := ai_key (acct 2 accounts);
    sp_lock_digest := ep_lock_digest epoch_state;
    sp_result_commitment := cs_result_commitment compact;
    sp_residual_side := cs_residual_side compact;
    sp_residual_lots := cs_residual_lots compact;
    sp_base_lot_atoms := ep_base_lot_atoms epoch_state;
    sp_quote_atoms_per_lot := ep_quote_atoms_per_lot epoch_state;
    sp_base_mint := pl_base_mint pool_state;
    sp_quote_mint := pl_quote_mint pool_state;
    sp_pool_base_vault := pl_pool_base_vault pool_state;
    sp_pool_quote_vault := pl_pool_quote_vault pool_state;
    sp_venue_base_account := pl_venue_base_account pool_state;
    sp_venue_quote_account := pl_venue_quote_account pool_state;
    sp_venue_authority := pl_venue_authority pool_state;
    sp_settlement_nonce := cs_settlement_nonce compact |}.

(** ** Expiry and abort *)

Definition set_terminal (s : EpochStateV1) (t : EpochTerminalState) : EpochStateV1 :=
  {| epoch_bump := epoch_bump s; terminal_state := t; ep_residual_side := ep_residual_side s;
     ep_pool := ep_pool s; ep_epoch_id := ep_epoch_id s;
     ep_configuration_hash := ep_configuration_hash s;
     ep_pre_balance_root := ep_pre_balance_root s; ep_member_root := ep_member_root s;
     ep_lock_digest := ep_lock_digest s; ep_result_commitment := ep_result_commitment s;
     ep_settlement_digest := ep_settlement_digest s; ep_lock_nonce := ep_lock_nonce s;
     ep_settlement_nonce := ep_settlement_nonce s; ep_member_count := ep_member_count s;
     ep_minimum_count := ep_minimum_count s; ep_residual_lots := ep_residual_lots s;
     ep_base_lot_atoms := ep_base_lot_atoms s; ep_quote_atoms_per_lot := ep_quote_atoms_per_lot s;
     ep_lock_deadline := ep_lock_deadline s; ep_abort_deadline := ep_abort_deadline s |}.

Definition expire_or_abort (program_id : Pubkey) (accounts : list AccountInfo) (abort : bool)
  : result ProgramError (list AccountInfo) :=
  if length accounts != 4 then Err (into InvalidAccounts) else
  let caller := acct 0 accounts in
  let pool := acct 1 accounts in
  let epoch := acct 2 accounts in
  let clock_account := acct 3 accounts in
  require_account_flags caller true false false ;;
  require_account_flags pool false false false ;;
  require_account_flags epoch false true false ;;
  require_account_flags clock_account false false false ;;
  require_distinct accounts ;;
  require_program_account pool program_id ;;
  require_program_account epoch program_id ;;
  if ai_key clock_account != clock_sysvar_id then Err (into InvalidAccounts) else
  pool_state ← PoolStateV1_decode (ai_data pool);
  validate_pool_state pool pool_state ;;
  state ← EpochStateV1_decode (ai_data epoch);
  validate_epoch_state epoch state pool pool_state ;;
  now ← clock_unix_timestamp clock_account;
  let '(required_state, deadline, final_state) :=
    if abort then (Locked, ep_abort_deadline state, Aborted)
    else (Open, ep_lock_deadline state, Expired) in
  if terminal_state state != required_state then Err (into InvalidState) else
  if (now <=? deadline)%Z then Err (into DeadlineNotReached) else
  copy_data 2 (EpochStateV1_encode (set_terminal state final_state)) accounts.

(** ** Dispatch *)

Definition process_instruction (program_id : Pubkey) (accounts : list AccountInfo) (data : list byte)
  : result ProgramError (list AccountInfo) :=
  if program_id != ID then Err IncorrectProgramId else
  instruction ← KagebInstruction_decode data;
  match instruction with
  | InitializePool args => initialize_pool program_id accounts args
  | CreateEpoch args => create_epoch program_id accounts args
  | Lock payload => lock program_id accounts payload
  | Settle payload => settle_compact program_id accounts payload
  | Expire => expire_or_abort program_id accounts false
  | Abort => expire_or_abort program_id accounts true
  end.
End processor.
