(* ===== verification/ProcessorProps.v ===== *)
(** * What each instruction of the program does

    One characterisation per handler ([lock_Ok], [settle_Ok], ...): the conditions under which
    it succeeds and the exact accounts it returns.  The chain-level theorems and the claims of
    the development are proved from these. *)

From S2P Require Import Prelude Bytes Extern ProgramWire ProgramState ProgramInstruction Ed25519.
From S2P Require Import Processor.

(** ** Checks as propositions *)

Lemma require_account_flags_Ok a s w x u :
  require_account_flags a s w x = Ok u <->
  ai_is_signer a = s /\ ai_is_writable a = w /\ ai_executable a = x.
Proof.
  unfold require_account_flags. destruct u, s, w, x, (ai_is_signer a), (ai_is_writable a),
    (ai_executable a); cbn; naive_solver.
Qed.

Lemma require_distinct_from_Ok prev l u :
  NoDup (map ai_key prev) ->
  require_distinct_from prev l = Ok u <-> NoDup (map ai_key (prev ++ l)).
Proof.
  destruct u. revert prev. induction l as [|a l IH]; intros prev Hp; cbn [require_distinct_from].
  - rewrite app_nil_r. naive_solver.
  - assert (map ai_key (prev ++ a :: l) = map ai_key ((prev ++ [a]) ++ l)) as -> by (by rewrite <- app_assoc).
    destruct (existsb _ prev) eqn:E.
    + split; [done|]. intros HN. exfalso. apply existsb_exists in E as (p & Hin & Hk). bguard.
      rewrite !map_app in HN. apply list.NoDup_app in HN as (HN & _ & _).
      apply list.NoDup_app in HN as (_ & HN & _). apply (HN (ai_key p)).
      * by apply list_elem_of_In, in_map.
      * cbn. rewrite Hk. set_solver.
    + apply IH. rewrite map_app. apply list.NoDup_app. split_and!; [done| |apply NoDup_singleton].
      intros k Hk Hka. cbn in Hka. apply list_elem_of_singleton in Hka. subst k.
      apply list_elem_of_In, in_map_iff in Hk as (p & Hpk & Hin).
      assert (existsb (fun p => ai_key p == ai_key a) prev = true); [|congruence].
      apply existsb_exists. exists p. split; [done|]. by apply bool_decide_eq_true.
Qed.

Lemma require_distinct_Ok l u : require_distinct l = Ok u <-> NoDup (map ai_key l).
Proof. apply require_distinct_from_Ok. apply NoDup_nil_2. Qed.

Lemma require_program_account_Ok a pid u :
  require_program_account a pid = Ok u <->
  ai_owner a = pid /\ length (ai_data a) = 384 /\ ai_executable a = false.
Proof.
  unfold require_program_account, STATE_LEN. destruct u. split.
  - intros H. inv_ok. bguard. done.
  - intros (-> & -> & ->). by rewrite !bool_decide_eq_true_2.
Qed.

Lemma three_distinct_NoDup K : three_distinct K = true <-> NoDup (keyper_list K).
Proof.
  destruct K as [[a b] c]. unfold three_distinct, keyper_list. split.
  - intros H. bguard. repeat constructor; set_solver.
  - intros H. inversion H as [|? ? Ha H']. inversion H' as [|? ? Hb H'']. subst.
    apply andb_true_iff; split; [apply andb_true_iff; split|]; apply neqb_true; set_solver.
Qed.

Lemma valid_residual_spec side lots :
  valid_residual side lots = true <->
  (side = 0 /\ lots = 0)%Z \/ ((side = 1 \/ side = 2) /\ 1 <= lots < 2 ^ 32)%Z.
Proof.
  unfold valid_residual. rewrite !orb_true_iff, !andb_true_iff, orb_true_iff, !Z.eqb_eq, !Z.leb_le. lia.
Qed.

Section validity.
Context `{Sha256, Solana}.

(** A pool record at the address it derives. *)
Definition valid_pool (key : Pubkey) (ps : PoolStateV1) : Prop :=
  pool_address (pl_operator ps) (pl_base_mint ps) (pl_quote_mint ps) = (key, pool_bump ps) /\
  snd (vault_authority_address key) = vault_bump ps /\
  pl_lock_threshold ps = 2%Z /\ pl_settlement_threshold ps = 2%Z /\ pl_base_lot_atoms ps <> 0%Z /\
  pl_base_mint ps <> pl_quote_mint ps /\ (zero32 ∉ keyper_list (pl_keypers ps)) /\
  NoDup (keyper_list (pl_keypers ps)).

Definition epoch_config_of (pool : Pubkey) (ps : PoolStateV1) (es : EpochStateV1) : EpochConfigurationV1 :=
  epoch_configuration pool ps (ep_epoch_id es) (ep_quote_atoms_per_lot es) (ep_minimum_count es)
    (ep_lock_deadline es) (ep_abort_deadline es).

(** An epoch record at the address it derives, under its pool. *)
Definition valid_epoch (key : Pubkey) (es : EpochStateV1) (pool : Pubkey) (ps : PoolStateV1) : Prop :=
  ep_pool es = pool /\ epoch_address pool (ep_epoch_id es) = (key, epoch_bump es) /\
  (4 <= ep_minimum_count es)%Z /\ ep_base_lot_atoms es = pl_base_lot_atoms ps /\
  ep_quote_atoms_per_lot es <> 0%Z /\ (ep_lock_deadline es < ep_abort_deadline es)%Z /\
  ep_configuration_hash es = EpochConfigurationV1_digest (epoch_config_of pool ps es).

Lemma existsb_elem {A} `{EqDecision A} (x : A) l : existsb (fun y => y == x) l = false <-> x ∉ l.
Proof.
  rewrite <- not_true_iff_false, existsb_exists. split.
  - intros Hn Hx. apply Hn. exists x. split; [by apply list_elem_of_In | by apply bool_decide_eq_true].
  - intros Hn (y & Hy & E). bguard. subst y. by apply Hn, list_elem_of_In.
Qed.

Lemma validate_pool_state_Ok a ps u :
  validate_pool_state a ps = Ok u <-> valid_pool (ai_key a) ps.
Proof.
  unfold validate_pool_state, valid_pool. destruct u.
  destruct (pool_address _ _ _) as [ep eb], (vault_authority_address _) as [? vb]. cbn. split.
  - intros H1. inv_ok. bguard. subst.
    match goal with E : existsb _ _ = false |- _ => apply existsb_elem in E end.
    match goal with E : three_distinct _ = true |- _ => apply three_distinct_NoDup in E end.
    naive_solver.
  - intros (Hk & Hv & Hl & Hs & Hb & Hm & Hz & HN). injection Hk as -> ->. subst vb.
    rewrite Hl, Hs, !bool_decide_eq_true_2 by done. rewrite !bool_decide_eq_false_2 by done.
    apply existsb_elem in Hz as ->. apply three_distinct_NoDup in HN as ->. done.
Qed.

Lemma validate_epoch_state_Ok a es pool ps u :
  validate_epoch_state a es pool ps = Ok u <-> valid_epoch (ai_key a) es (ai_key pool) ps.
Proof.
  unfold validate_epoch_state, valid_epoch, epoch_config_of. destruct u.
  destruct (epoch_address _ _) as [ee eb]. cbn zeta. split.
  - intros H1. inv_ok. bguard. subst. naive_solver lia.
  - intros (Hp & Hk & Hm & Hb & Hq & Hd & Hc). injection Hk as -> ->.
    rewrite (bool_decide_eq_false_2 (ep_quote_atoms_per_lot es = 0%Z)) by done.
    rewrite !bool_decide_eq_true_2 by done. cbn.
    apply Z.ltb_ge in Hm as ->. apply Z.leb_gt in Hd as ->. done.
Qed.

(** The facts every instruction on an existing epoch establishes first: accounts 1 and 2 are
    the pool and the epoch. *)
Definition epoch_ctx (pid : Pubkey) (accounts : list AccountInfo) (ps : PoolStateV1) (es : EpochStateV1) : Prop :=
  NoDup (map ai_key accounts) /\
  ai_owner (acct 1 accounts) = pid /\ ai_owner (acct 2 accounts) = pid /\
  ai_is_writable (acct 2 accounts) = true /\
  PoolStateV1_decode (ai_data (acct 1 accounts)) = Ok ps /\
  valid_pool (ai_key (acct 1 accounts)) ps /\
  EpochStateV1_decode (ai_data (acct 2 accounts)) = Ok es /\
  valid_epoch (ai_key (acct 2 accounts)) es (ai_key (acct 1 accounts)) ps.

Lemma epoch_decode_length data es : EpochStateV1_decode data = Ok es -> length data = 384.
Proof. intros Hd. apply EpochStateV1_encode_decode in Hd as <-. apply EpochStateV1_encode_length. Qed.

Lemma pool_decode_length data ps : PoolStateV1_decode data = Ok ps -> length data = 384.
Proof. intros Hd. apply PoolStateV1_encode_decode in Hd as <-. apply PoolStateV1_encode_length. Qed.

Lemma copy_data_Ok i bytes accounts accounts' :
  copy_data i bytes accounts = Ok accounts' <->
  length (ai_data (acct i accounts)) = length bytes /\
  accounts' = <[i := with_data (acct i accounts) bytes]> accounts.
Proof. unfold copy_data. cbn zeta. rewrite guard_Ok, neqb_false. naive_solver. Qed.

(** [checks]: turn every successful check in the context into its propositions. *)
Ltac checks :=
  repeat match goal with
  | E : require_account_flags _ _ _ _ = Ok _ |- _ => apply require_account_flags_Ok in E as (? & ? & ?)
  | E : require_distinct _ = Ok _ |- _ => apply require_distinct_Ok in E
  | E : require_program_account _ _ = Ok _ |- _ => apply require_program_account_Ok in E as (? & ? & ?)
  | E : validate_pool_state _ _ = Ok _ |- _ => apply validate_pool_state_Ok in E
  | E : validate_epoch_state _ _ _ _ = Ok _ |- _ => apply validate_epoch_state_Ok in E
  | E : copy_data _ _ _ = Ok _ |- _ => apply copy_data_Ok in E as [? ?]
  end.

(** The signatures a quorum of two stands for. *)
Definition quorum_signed (ia : AccountInfo) (keypers : Pubkey * Pubkey * Pubkey) (digest : bytes32) : Prop :=
  exists idx ixs k1 k2, load_current_index_checked ia = Ok idx /\
    Forall2 (fun i ix => load_instruction_at_checked i ia = Ok ix) (seq 0 (Z.to_nat idx)) ixs /\
    k1 <> k2 /\ k1 ∈ keyper_list keypers /\ k2 ∈ keyper_list keypers /\
    signed_by digest ixs k1 = true /\ signed_by digest ixs k2 = true.

(** [run_checks]: the converse of [checks], run the successful checks of the goal. *)
Ltac run_check :=
  match goal with
  | |- context [require_account_flags ?a ?s ?w ?x] =>
      rewrite (proj2 (require_account_flags_Ok a s w x tt)) by (split_and!; assumption)
  | |- context [require_distinct ?l] => rewrite (proj2 (require_distinct_Ok l tt)) by assumption
  | |- context [require_program_account ?a ?p] =>
      rewrite (proj2 (require_program_account_Ok a p tt)) by (split_and!; assumption)
  | |- context [validate_pool_state ?a ?p] => rewrite (proj2 (validate_pool_state_Ok a p tt)) by assumption
  | |- context [validate_epoch_state ?a ?e ?b ?p] =>
      rewrite (proj2 (validate_epoch_state_Ok a e b p tt)) by assumption
  | E : ?x = Ok _ |- context [mbind _ ?x] => rewrite E
  | E : ?x = ?y |- context [bool_decide (?x = ?y)] => rewrite (bool_decide_eq_true_2 (x = y) E)
  | E : ?x <> ?y |- context [bool_decide (?x = ?y)] => rewrite (bool_decide_eq_false_2 (x = y) E)
  | |- context [(?x <=? ?y)%Z] => rewrite (proj2 (Z.leb_gt x y)) by lia
  | |- context [(?x <? ?y)%Z] => rewrite (proj2 (Z.ltb_ge x y)) by lia
  end; cbn [mbind result_bind negb orb andb]; cbn beta iota.
Ltac run_checks := repeat run_check.

Definition flags_are (a : AccountInfo) (s w x : bool) : Prop :=
  ai_is_signer a = s /\ ai_is_writable a = w /\ ai_executable a = x.

(** ** Lock *)

Definition lock_flags (accounts : list AccountInfo) : Prop :=
  length accounts = 5 /\
  flags_are (acct 0 accounts) true false false /\ flags_are (acct 1 accounts) false false false /\
  flags_are (acct 2 accounts) false true false /\ flags_are (acct 3 accounts) false false false /\
  flags_are (acct 4 accounts) false false false /\
  ai_key (acct 3 accounts) = instructions_sysvar_id /\ ai_key (acct 4 accounts) = clock_sysvar_id.

Definition lock_payload_matches (payload : LockPayloadV1) (epoch : Pubkey) (es : EpochStateV1) : Prop :=
  lp_epoch_account payload = epoch /\ lp_configuration_hash payload = ep_configuration_hash es /\
  lp_lock_deadline payload = ep_lock_deadline es /\ lp_lock_nonce payload <> zero32 /\
  lp_pre_balance_root payload <> zero32 /\ lp_member_root payload <> zero32 /\
  (ep_minimum_count es <= lp_member_count payload)%Z.

Lemma lock_Ok pid accounts payload accounts' :
  lock pid accounts payload = Ok accounts' <->
  exists ps es now n,
    lock_flags accounts /\ epoch_ctx pid accounts ps es /\ terminal_state es = Open /\
    clock_unix_timestamp (acct 4 accounts) = Ok now /\ (now < ep_lock_deadline es)%Z /\
    lock_payload_matches payload (ai_key (acct 2 accounts)) es /\
    count_preceding_keypers (acct 3 accounts) (pl_keypers ps) (LockPayloadV1_digest payload) = Ok n /\
    (2 <= n)%Z /\
    accounts' = <[2 := with_data (acct 2 accounts)
      (EpochStateV1_encode (set_locked es payload (LockPayloadV1_digest payload)))]> accounts.
Proof.
  unfold lock, lock_flags, flags_are, epoch_ctx, lock_payload_matches. cbn zeta. split.
  - intros E. inv_ok. checks. bguard.
    match goal with E : valid_pool _ _ |- _ => pose proof E as (_ & _ & Hl & _) end.
    eexists _, _, _, _. split_and!; first [eassumption | lia].
  - intros (ps & es & now & n & Hf & Hctx & Ho & Hnow & Hdl & Hm & Hc & Hn & ->).
    destruct_and!. pose proof (epoch_decode_length _ _ ltac:(eassumption)).
    match goal with E : PoolStateV1_decode _ = Ok _ |- _ => pose proof (pool_decode_length _ _ E) end.
    match goal with E : valid_pool _ _ |- _ => pose proof E as (_ & _ & Hl & _) end.
    run_checks. apply copy_data_Ok. by rewrite EpochStateV1_encode_length.
Qed.

Lemma quorum_of_count ia key ps d n :
  valid_pool key ps -> count_preceding_keypers ia (pl_keypers ps) d = Ok n -> (2 <= n)%Z ->
  quorum_signed ia (pl_keypers ps) d.
Proof. intros (_ & _ & _ & _ & _ & _ & _ & HN) Hc Hn. by apply (count_preceding_two _ _ _ n). Qed.

(** ** Expiry and abort *)

Definition terminal_flags (accounts : list AccountInfo) : Prop :=
  length accounts = 4 /\
  flags_are (acct 0 accounts) true false false /\ flags_are (acct 1 accounts) false false false /\
  flags_are (acct 2 accounts) false true false /\ flags_are (acct 3 accounts) false false false /\
  ai_key (acct 3 accounts) = clock_sysvar_id.

Lemma expire_or_abort_Ok pid accounts abort accounts' :
  expire_or_abort pid accounts abort = Ok accounts' <->
  exists ps es now,
    terminal_flags accounts /\ epoch_ctx pid accounts ps es /\
    clock_unix_timestamp (acct 3 accounts) = Ok now /\
    terminal_state es = (if abort then Locked else Open) /\
    ((if abort then ep_abort_deadline es else ep_lock_deadline es) < now)%Z /\
    accounts' = <[2 := with_data (acct 2 accounts)
      (EpochStateV1_encode (set_terminal es (if abort then Aborted else Expired)))]> accounts.
Proof.
  unfold expire_or_abort, terminal_flags, flags_are, epoch_ctx. cbn zeta. split.
  - intros E. inv_ok. checks. destruct abort; inv_ok; checks; bguard;
      eexists _, _, _; split_and!; first [eassumption | lia].
  - intros (ps & es & now & Hf & Hctx & Hnow & Ht & Hdl & ->). destruct_and!.
    match goal with E : EpochStateV1_decode _ = Ok _ |- _ => pose proof (epoch_decode_length _ _ E) end.
    match goal with E : PoolStateV1_decode _ = Ok _ |- _ => pose proof (pool_decode_length _ _ E) end.
    run_checks. destruct abort; run_checks; apply copy_data_Ok; by rewrite EpochStateV1_encode_length.
Qed.

(** ** Cross-program invocations *)

(** Everything of the other accounts, and the key and flags of all, survive an invocation. *)
Definition same_id (a b : AccountInfo) : Prop :=
  ai_key a = ai_key b /\ ai_is_signer a = ai_is_signer b /\ ai_is_writable a = ai_is_writable b /\
  ai_executable a = ai_executable b.

Lemma acct_lookup i accounts a : accounts !! i = Some a -> acct i accounts = a.
Proof. apply nth_lookup_Some. Qed.

Lemma acct_insert_eq i a accounts : i < length accounts -> acct i (<[i := a]> accounts) = a.
Proof. intros Hi. apply acct_lookup. by apply list_lookup_insert_eq. Qed.

Lemma acct_insert_ne i j a accounts : i <> j -> acct j (<[i := a]> accounts) = acct j accounts.
Proof. intros Hij. unfold acct. rewrite !nth_lookup. by rewrite list_lookup_insert_ne. Qed.

Lemma write_back_other h handles cells accounts :
  h ∉ handles -> acct h (write_back handles cells accounts) = acct h accounts.
Proof.
  revert cells accounts. induction handles as [|g handles IH]; intros [|c cells] accounts Hh; try done.
  cbn [write_back]. rewrite IH by set_solver. apply acct_insert_ne. set_solver.
Qed.

Lemma write_back_length handles cells accounts :
  length (write_back handles cells accounts) = length accounts.
Proof.
  revert cells accounts. induction handles as [|g handles IH]; intros [|c cells] accounts; try done.
  cbn [write_back]. by rewrite IH, length_insert.
Qed.

Lemma insert_same_id i a accounts j :
  same_id a (acct i accounts) -> same_id (acct j (<[i := a]> accounts)) (acct j accounts).
Proof.
  intros Ha. destruct (decide (i = j)) as [->|Hij]; [|by rewrite acct_insert_ne].
  destruct (decide (j < length accounts)); [by rewrite acct_insert_eq|].
  by rewrite list_insert_ge by lia.
Qed.

Lemma same_id_trans a b c : same_id a b -> same_id b c -> same_id a c.
Proof. unfold same_id. intros (-> & -> & -> & ->). done. Qed.

Lemma write_back_same_id handles cells accounts j :
  same_id (acct j (write_back handles cells accounts)) (acct j accounts).
Proof.
  revert cells accounts. induction handles as [|g handles IH]; intros [|c cells] accounts; try done.
  cbn [write_back]. eapply same_id_trans; [apply IH|]. by apply insert_same_id.
Qed.

Lemma write_back_at handles cells accounts k h c :
  NoDup handles -> handles !! k = Some h -> cells !! k = Some c -> h < length accounts ->
  acct h (write_back handles cells accounts) = with_cells (acct h accounts) c.
Proof.
  intros HN. revert k cells accounts. induction HN as [|g handles Hg HN IH];
    intros k [|c' cells] accounts Hk Hc Hl; try done. destruct k as [|k]; cbn [lookup list_lookup write_back] in *.
  - simplify_eq. rewrite write_back_other by done. by apply acct_insert_eq.
  - assert (g <> h) by (intros ->; apply Hg; by apply list_elem_of_lookup_2 in Hk).
    rewrite (IH k) by (rewrite ?length_insert; done). by rewrite acct_insert_ne.
Qed.

Lemma cpi_Ok ix handles seeds accounts accounts' :
  cpi ix handles seeds accounts = Ok accounts' <->
  exists cells, invoke_signed ix (map (fun h => acct h accounts) handles) seeds = Ok cells /\
    accounts' = write_back handles cells accounts.
Proof. unfold cpi. rewrite bind_Ok. naive_solver. Qed.

Lemma transfer_checked_frame src mint dst auth tp amount seeds accounts accounts' :
  transfer_checked src mint dst auth tp amount seeds accounts = Ok accounts' ->
  length accounts' = length accounts /\ (forall j, same_id (acct j accounts') (acct j accounts)) /\
  (forall j, j ∉ [src; mint; dst; auth; tp] -> acct j accounts' = acct j accounts).
Proof.
  unfold transfer_checked. cbn zeta. intros E. inv_ok. apply cpi_Ok in E as (cells & _ & ->).
  split_and!; [apply write_back_length | intros; apply write_back_same_id | intros; by apply write_back_other].
Qed.

Lemma settle_residual_frame side b q seeds accounts accounts' :
  settle_residual side b q seeds accounts = Ok accounts' ->
  length accounts' = length accounts /\ (forall j, same_id (acct j accounts') (acct j accounts)) /\
  (forall j, j ∉ [3; 4; 5; 6; 7; 8; 9; 10; 11] -> acct j accounts' = acct j accounts).
Proof.
  unfold settle_residual. intros E.
  repeat (match type of E with context [match ?x with _ => _ end] => destruct x end; try discriminate);
    inv_ok; subst; [done| |];
    repeat match goal with
    | T : transfer_checked _ _ _ _ _ _ _ _ = Ok _ |- _ => apply transfer_checked_frame in T as (? & ? & ?)
    end;
    (split_and!; [congruence | intros; eapply same_id_trans; eauto | intros j Hj]);
    etrans; match goal with Hx : (forall j, j ∉ _ -> _) |- _ => apply Hx; set_solver end.
Qed.

Lemma settle_residual_epoch side b q seeds accounts accounts' :
  settle_residual side b q seeds accounts = Ok accounts' -> acct 2 accounts' = acct 2 accounts.
Proof. intros (_ & _ & Hf)%settle_residual_frame. apply Hf. set_solver. Qed.

(** ** Settlement *)

Definition settle_flags (accounts : list AccountInfo) : Prop :=
  length accounts = 14 /\
  flags_are (acct 0 accounts) true false false /\ flags_are (acct 1 accounts) false false false /\
  flags_are (acct 2 accounts) false true false /\ flags_are (acct 3 accounts) false false false /\
  flags_are (acct 4 accounts) false true false /\ flags_are (acct 5 accounts) false true false /\
  flags_are (acct 6 accounts) true false false /\
  flags_are (acct 7 accounts) false true false /\ flags_are (acct 8 accounts) false true false /\
  flags_are (acct 9 accounts) false false false /\ flags_are (acct 10 accounts) false false false /\
  flags_are (acct 11 accounts) false false true /\ flags_are (acct 12 accounts) false false false /\
  flags_are (acct 13 accounts) false false false /\
  ai_key (acct 11 accounts) = TOKEN_PROGRAM_ID /\
  ai_key (acct 12 accounts) = instructions_sysvar_id /\ ai_key (acct 13 accounts) = clock_sysvar_id.

Definition token_account_ok (a : AccountInfo) (mint authority : Pubkey) : Prop :=
  ai_owner a = TOKEN_PROGRAM_ID /\ length (ai_data a) = 165 /\
  slice 0 32 (ai_data a) = mint /\ slice 32 64 (ai_data a) = authority.

Lemma validate_token_account_Ok a m auth u :
  validate_token_account a m auth = Ok u -> token_account_ok a m auth.
Proof. unfold validate_token_account, token_account_ok. intros E. inv_ok. bguard. done. Qed.

(** The vaults and venue accounts passed are the pool's, under the pool's mints. *)
Definition settle_custody (accounts : list AccountInfo) (ps : PoolStateV1) : Prop :=
  ai_key (acct 9 accounts) = pl_base_mint ps /\ ai_key (acct 10 accounts) = pl_quote_mint ps /\
  ai_key (acct 4 accounts) = pl_pool_base_vault ps /\ ai_key (acct 5 accounts) = pl_pool_quote_vault ps /\
  ai_key (acct 6 accounts) = pl_venue_authority ps /\ ai_key (acct 7 accounts) = pl_venue_base_account ps /\
  ai_key (acct 8 accounts) = pl_venue_quote_account ps /\
  ai_key (acct 3 accounts) = fst (vault_authority_address (ai_key (acct 1 accounts))) /\
  token_account_ok (acct 4 accounts) (pl_base_mint ps) (ai_key (acct 3 accounts)) /\
  token_account_ok (acct 5 accounts) (pl_quote_mint ps) (ai_key (acct 3 accounts)) /\
  token_account_ok (acct 7 accounts) (pl_base_mint ps) (pl_venue_authority ps) /\
  token_account_ok (acct 8 accounts) (pl_quote_mint ps) (pl_venue_authority ps).

Definition settle_payload_matches (p : SettlementPayloadV1) (epoch : Pubkey) (es : EpochStateV1)
    (ps : PoolStateV1) : Prop :=
  sp_epoch_account p = epoch /\ sp_lock_digest p = ep_lock_digest es /\
  sp_result_commitment p <> zero32 /\ sp_base_lot_atoms p = ep_base_lot_atoms es /\
  sp_quote_atoms_per_lot p = ep_quote_atoms_per_lot es /\ sp_base_mint p = pl_base_mint ps /\
  sp_quote_mint p = pl_quote_mint ps /\ sp_pool_base_vault p = pl_pool_base_vault ps /\
  sp_pool_quote_vault p = pl_pool_quote_vault ps /\ sp_venue_authority p = pl_venue_authority ps /\
  sp_venue_base_account p = pl_venue_base_account ps /\
  sp_venue_quote_account p = pl_venue_quote_account ps /\ sp_settlement_nonce p <> zero32 /\
  sp_settlement_nonce p <> ep_lock_nonce es /\
  valid_residual (sp_residual_side p) (sp_residual_lots p) = true.

Lemma checked_mul_u64_Some a b c :
  checked_mul_u64 a b = Some c -> c = (a * b)%Z /\ (a * b < 2 ^ 64)%Z.
Proof. unfold checked_mul_u64. rewrite checked_u64_Some. unfold u64_ok. lia. Qed.

Definition vault_seeds_of (pool : Pubkey) (ps : PoolStateV1) : list (list byte) :=
  [bstr "vault"; pool : list byte; [byte_of (vault_bump ps)]].

Lemma settle_Ok pid accounts p accounts' :
  settle pid accounts p = Ok accounts' ->
  exists ps es now n accounts1,
    settle_flags accounts /\ epoch_ctx pid accounts ps es /\ settle_custody accounts ps /\
    terminal_state es = Locked /\ clock_unix_timestamp (acct 13 accounts) = Ok now /\
    (now <= ep_abort_deadline es)%Z /\ settle_payload_matches p (ai_key (acct 2 accounts)) es ps /\
    count_preceding_keypers (acct 12 accounts) (pl_keypers ps) (SettlementPayloadV1_digest p) = Ok n /\
    (2 <= n)%Z /\
    (ep_base_lot_atoms es * sp_residual_lots p < 2 ^ 64)%Z /\
    (ep_quote_atoms_per_lot es * sp_residual_lots p < 2 ^ 64)%Z /\
    settle_residual (sp_residual_side p) (ep_base_lot_atoms es * sp_residual_lots p)
      (ep_quote_atoms_per_lot es * sp_residual_lots p)
      (vault_seeds_of (ai_key (acct 1 accounts)) ps) accounts = Ok accounts1 /\
    accounts' = <[2 := with_data (acct 2 accounts)
      (EpochStateV1_encode (set_settled es p (SettlementPayloadV1_digest p)))]> accounts1.
Proof.
  unfold settle. cbn zeta. intros E. inv_ok.
  destruct (vault_authority_address _) as [va vb] eqn:Eva. inv_ok.
  match goal with T : try_each _ _ = Ok _ |- _ => apply try_each_Ok in T;
    rewrite !Forall_cons_iff in T; destruct T as (? & ? & ? & ? & _) end. checks.
  repeat match goal with T : validate_token_account _ _ _ = Ok _ |- _ => apply validate_token_account_Ok in T end.
  unfold settle_accounts_mismatch, settle_payload_mismatch in *. bguard.
  match goal with T : valid_pool _ _ |- _ => pose proof T as (_ & _ & _ & Hs & _) end.
  match goal with T : settle_residual _ _ _ _ _ = Ok _ |- _ => pose proof (settle_residual_epoch _ _ _ _ _ _ T) as Hfr end.
  repeat match goal with T : checked_mul_u64 _ _ = Some _ |- _ => apply checked_mul_u64_Some in T as [-> ?] end.
  match goal with T : accounts' = _ |- _ => rewrite Hfr in T end.
  unfold epoch_ctx, settle_flags, settle_custody, flags_are,
    settle_payload_matches, vault_seeds_of. rewrite Eva. cbn [fst].
  repeat match goal with
  | T : ai_key (acct ?i accounts) = _, U : token_account_ok _ _ _ |- _ => rewrite T in U
  | T : sp_base_lot_atoms p = _, U : settle_residual _ _ _ _ _ = _ |- _ => rewrite T in U
  | T : sp_quote_atoms_per_lot p = _, U : settle_residual _ _ _ _ _ = _ |- _ => rewrite T in U
  end.
  eexists _, _, _, _, _. split_and!; first [eassumption | done | lia | congruence].
Qed.

(** The payload the program reconstructs from its own records. *)
Definition full_payload (epoch : Pubkey) (ps : PoolStateV1) (es : EpochStateV1)
    (c : CompactSettlementPayload) : SettlementPayloadV1 :=
  {| sp_epoch_account := epoch;
     sp_lock_digest := ep_lock_digest es;
     sp_result_commitment := cs_result_commitment c;
     sp_residual_side := cs_residual_side c;
     sp_residual_lots := cs_residual_lots c;
     sp_base_lot_atoms := ep_base_lot_atoms es;
     sp_quote_atoms_per_lot := ep_quote_atoms_per_lot es;
     sp_base_mint := pl_base_mint ps;
     sp_quote_mint := pl_quote_mint ps;
     sp_pool_base_vault := pl_pool_base_vault ps;
     sp_pool_quote_vault := pl_pool_quote_vault ps;
     sp_venue_base_account := pl_venue_base_account ps;
     sp_venue_quote_account := pl_venue_quote_account ps;
     sp_venue_authority := pl_venue_authority ps;
     sp_settlement_nonce := cs_settlement_nonce c |}.

Lemma full_payload_compact p epoch es ps :
  settle_payload_matches p epoch es ps -> full_payload epoch ps es (CompactSettlementPayload_from p) = p.
Proof.
  intros (M1 & M2 & _ & M4 & M5 & M6 & M7 & M8 & M9 & M10 & M11 & M12 & _).
  destruct p. unfold full_payload. cbn in *. by subst.
Qed.

Lemma settle_compact_Ok pid accounts c accounts' :
  settle_compact pid accounts c = Ok accounts' <->
  exists ps es, length accounts = 14 /\ PoolStateV1_decode (ai_data (acct 1 accounts)) = Ok ps /\
    EpochStateV1_decode (ai_data (acct 2 accounts)) = Ok es /\
    settle pid accounts (full_payload (ai_key (acct 2 accounts)) ps es c) = Ok accounts'.
Proof.
  unfold settle_compact. split.
  - intros E. inv_ok. bguard. eauto 10.
  - intros (ps & es & Hl & Hp & He & Hs). by run_checks.
Qed.

(** An epoch that is not locked cannot be settled, whatever the payload. *)
Lemma settle_not_locked pid accounts p ps es now :
  settle_flags accounts -> epoch_ctx pid accounts ps es ->
  clock_unix_timestamp (acct 13 accounts) = Ok now -> terminal_state es <> Locked ->
  settle pid accounts p = Err (into InvalidState).
Proof.
  intros Hf Hctx Hnow Ht. unfold settle, settle_flags, epoch_ctx, flags_are in *. cbn zeta. destruct_and!.
  match goal with E : EpochStateV1_decode _ = Ok _ |- _ => pose proof (epoch_decode_length _ _ E) end.
  match goal with E : PoolStateV1_decode _ = Ok _ |- _ => pose proof (pool_decode_length _ _ E) end.
  cbn [try_each]. run_checks.
  match goal with E : ai_executable (acct 11 accounts) = true |- _ => rewrite E end.
  run_checks. done.
Qed.

(** ** Account creation *)

Lemma cpi_frame_positions ix handles seeds accounts accounts' :
  cpi ix handles seeds accounts = Ok accounts' ->
  length accounts' = length accounts /\ (forall j, same_id (acct j accounts') (acct j accounts)) /\
  (forall j, j ∉ handles -> acct j accounts' = acct j accounts).
Proof.
  intros (cells & _ & ->)%cpi_Ok.
  split_and!; [apply write_back_length | intros; apply write_back_same_id | intros; by apply write_back_other].
Qed.

Lemma initialize_pda_Ok payer pda sys pid seeds accounts accounts' :
  initialize_pda_account payer pda sys pid seeds accounts = Ok accounts' ->
  ai_owner (acct pda accounts) = system_program_id /\ ai_data (acct pda accounts) = [] /\
  length accounts' = length accounts /\ (forall j, same_id (acct j accounts') (acct j accounts)) /\
  (forall j, j ∉ [payer; pda; sys] -> acct j accounts' = acct j accounts) /\
  ai_owner (acct pda accounts') = pid /\ length (ai_data (acct pda accounts')) = 384.
Proof.
  unfold initialize_pda_account. cbn zeta. intros E. inv_ok. bguard. subst.
  match goal with T : cpi (system_allocate _ _) _ _ _ = _ |- _ =>
    apply cpi_frame_positions in T as (L1 & S1 & F1) end.
  match goal with T : cpi (system_assign _ _) _ _ _ = _ |- _ =>
    apply cpi_frame_positions in T as (L2 & S2 & F2) end.
  assert (length x0 = length accounts /\ (forall j, same_id (acct j x0) (acct j accounts)) /\
    (forall j, j ∉ [payer; pda; sys] -> acct j x0 = acct j accounts)) as (L0 & S0 & F0).
  { match goal with T : (if ?c then _ else _) = Ok x0 |- _ => destruct c; inv_ok; subst; [|done] end.
    match goal with T : cpi (system_transfer _ _ _) _ _ _ = _ |- _ => by apply cpi_frame_positions in T end. }
  split_and!; try done; try congruence.
  - by apply nil_length_inv.
  - intros j. eapply same_id_trans; [apply S2|]. eapply same_id_trans; [apply S1 | apply S0].
  - clear -F0 F1 F2. intros j Hj. rewrite F2, F1, F0 by set_solver. done.
Qed.

Definition new_epoch (pool epoch : Pubkey) (ps : PoolStateV1) (args : CreateEpochArgs) : EpochStateV1 :=
  {| epoch_bump := snd (epoch_address pool (ca_epoch_id args));
     terminal_state := Open; ep_residual_side := 0; ep_pool := pool; ep_epoch_id := ca_epoch_id args;
     ep_configuration_hash := EpochConfigurationV1_digest
       (epoch_configuration pool ps (ca_epoch_id args) (ca_quote_atoms_per_lot args)
          (ca_minimum_count args) (ca_lock_deadline args) (ca_abort_deadline args));
     ep_pre_balance_root := zero32; ep_member_root := zero32; ep_lock_digest := zero32;
     ep_result_commitment := zero32; ep_settlement_digest := zero32; ep_lock_nonce := zero32;
     ep_settlement_nonce := zero32; ep_member_count := 0; ep_minimum_count := ca_minimum_count args;
     ep_residual_lots := 0; ep_base_lot_atoms := pl_base_lot_atoms ps;
     ep_quote_atoms_per_lot := ca_quote_atoms_per_lot args;
     ep_lock_deadline := ca_lock_deadline args; ep_abort_deadline := ca_abort_deadline args |}.

Lemma create_epoch_Ok pid accounts args accounts' :
  create_epoch pid accounts args = Ok accounts' ->
  exists ps now accounts1,
    length accounts = 6 /\ NoDup (map ai_key accounts) /\
    ai_is_signer (acct 1 accounts) = true /\ pl_operator ps = ai_key (acct 1 accounts) /\
    ai_owner (acct 2 accounts) = pid /\ ai_is_writable (acct 3 accounts) = true /\
    ai_key (acct 4 accounts) = system_program_id /\
    PoolStateV1_decode (ai_data (acct 2 accounts)) = Ok ps /\ valid_pool (ai_key (acct 2 accounts)) ps /\
    clock_unix_timestamp (acct 5 accounts) = Ok now /\ ai_key (acct 5 accounts) = clock_sysvar_id /\
    (now < ca_lock_deadline args < ca_abort_deadline args)%Z /\ (4 <= ca_minimum_count args)%Z /\
    ca_quote_atoms_per_lot args <> 0%Z /\
    ai_key (acct 3 accounts) = fst (epoch_address (ai_key (acct 2 accounts)) (ca_epoch_id args)) /\
    (exists seeds, initialize_pda_account 0 3 4 pid seeds accounts = Ok accounts1) /\
    accounts' = <[3 := with_data (acct 3 accounts1) (EpochStateV1_encode
      (new_epoch (ai_key (acct 2 accounts)) (ai_key (acct 3 accounts)) ps args))]> accounts1.
Proof.
  unfold create_epoch. cbn zeta. intros E. inv_ok.
  unfold new_epoch. destruct (epoch_address _ _) as [ea eb] eqn:Ea. inv_ok. checks. bguard.
  eexists _, _, _. cbn [fst snd].
  split_and!; first [eassumption | lia | by eexists].
Qed.

Definition new_pool (accounts : list AccountInfo) (args : InitializePoolArgs) : PoolStateV1 :=
  {| pool_bump := snd (pool_address (ai_key (acct 1 accounts)) (ai_key (acct 4 accounts)) (ai_key (acct 5 accounts)));
     vault_bump := snd (vault_authority_address (ai_key (acct 2 accounts)));
     pl_lock_threshold := ia_lock_threshold args; pl_settlement_threshold := ia_settlement_threshold args;
     pl_operator := ai_key (acct 1 accounts);
     pl_base_mint := ai_key (acct 4 accounts); pl_quote_mint := ai_key (acct 5 accounts);
     pl_pool_base_vault := ai_key (acct 6 accounts); pl_pool_quote_vault := ai_key (acct 7 accounts);
     pl_venue_authority := ai_key (acct 8 accounts); pl_venue_base_account := ai_key (acct 9 accounts);
     pl_venue_quote_account := ai_key (acct 10 accounts); pl_keypers := ia_keypers args;
     pl_base_lot_atoms := ia_base_lot_atoms args |}.

Lemma initialize_pool_Ok pid accounts args accounts' :
  initialize_pool pid accounts args = Ok accounts' ->
  exists accounts1,
    length accounts = 13 /\ NoDup (map ai_key accounts) /\
    ai_is_signer (acct 1 accounts) = true /\ ai_is_writable (acct 2 accounts) = true /\
    ai_key (acct 11 accounts) = system_program_id /\
    valid_pool (ai_key (acct 2 accounts)) (new_pool accounts args) /\
    ai_key (acct 3 accounts) = fst (vault_authority_address (ai_key (acct 2 accounts))) /\
    token_account_ok (acct 6 accounts) (ai_key (acct 4 accounts)) (ai_key (acct 3 accounts)) /\
    token_account_ok (acct 7 accounts) (ai_key (acct 5 accounts)) (ai_key (acct 3 accounts)) /\
    token_account_ok (acct 9 accounts) (ai_key (acct 4 accounts)) (ai_key (acct 8 accounts)) /\
    token_account_ok (acct 10 accounts) (ai_key (acct 5 accounts)) (ai_key (acct 8 accounts)) /\
    (exists seeds, initialize_pda_account 0 2 11 pid seeds accounts = Ok accounts1) /\
    accounts' = <[2 := with_data (acct 2 accounts1) (PoolStateV1_encode (new_pool accounts args))]> accounts1.
Proof.
  unfold initialize_pool. cbn zeta. intros E. inv_ok. unfold new_pool, valid_pool.
  destruct (pool_address _ _ _) as [pa pb] eqn:Ep, (vault_authority_address _) as [va vb] eqn:Ev.
  inv_ok. checks.
  repeat match goal with T : validate_token_account _ _ _ = Ok _ |- _ => apply validate_token_account_Ok in T end.
  bguard. cbn [fst snd pool_bump vault_bump pl_lock_threshold pl_settlement_threshold pl_operator
    pl_base_mint pl_quote_mint pl_keypers pl_base_lot_atoms].
  match goal with T : existsb _ _ = false |- _ => apply existsb_elem in T end.
  match goal with T : three_distinct _ = true |- _ => apply three_distinct_NoDup in T end.
  eexists. rewrite ?Ep. subst pa. split_and!; first [eassumption | by eexists | done].
Qed.

(** ** Overwriting the state byte *)

Lemma encode_set_terminal es t :
  EpochStateV1_encode (set_terminal es t)
  = set_at 10 (byte_of (EpochTerminalState_as_u8 t)) (EpochStateV1_encode es).
Proof.
  unfold set_at. rewrite put_at_split by (cbn [length]; rewrite EpochStateV1_encode_length; lia).
  rewrite !EpochStateV1_encode_fields. cbn [length Nat.add].
  change (concat (EpochStateV1_fields es)) with
    ((EPOCH_DISCRIMINATOR ++ [byte_of VERSION] ++ [byte_of (epoch_bump es)]) ++
     [byte_of (EpochTerminalState_as_u8 (terminal_state es))] ++ concat (drop 4 (EpochStateV1_fields es))).
  rewrite take_app_length' by done. rewrite drop_app_ge by (cbn; lia). done.
Qed.
End validity.
