(* ===== verification/Chain.v ===== *)
(** * The program on a ledger

    Accounts live in a ledger; a step is either one successful instruction of the program or
    anything the rest of the chain may do to accounts the program does not own.  The file
    states the documented behaviour of the system and token programs the proofs rely on,
    reduces every instruction to one [effect] on one account, and proves by rule induction what
    holds of every pool and epoch account in every reachable ledger. *)

From S2P Require Import Prelude Bytes Extern ProgramWire ProgramState ProgramInstruction Ed25519.
From S2P Require Import Processor ProcessorProps.

(** ** Documented behaviour of the callees *)

(** The callee left the account's owner and data alone. *)
Definition keeps (a : AccountInfo) (c : AccountCells) : Prop :=
  ac_owner c = ai_owner a /\ ac_data c = ai_data a.

(** System program: a transfer moves lamports only; allocate and assign change only the account
    they name. *)
Class SystemLaws `{Solana} : Prop := {
  bump_is_u8 : forall seeds program, u8_ok (snd (find_program_address seeds program));
  system_is_not_kageb : system_program_id <> ID;
  system_transfer_law : forall from to amount infos seeds cells,
    invoke_signed (system_transfer from to amount) infos seeds = Ok cells -> Forall2 keeps infos cells;
  system_allocate_law : forall key space infos seeds cells,
    invoke_signed (system_allocate key space) infos seeds = Ok cells ->
    Forall2 (fun a c => ai_key a <> key -> keeps a c) infos cells;
  system_assign_law : forall key owner infos seeds cells,
    invoke_signed (system_assign key owner) infos seeds = Ok cells ->
    Forall2 (fun a c => ai_key a <> key -> keeps a c) infos cells;
}.

(** The amount field of an SPL token account: bytes 64..72. *)
Definition token_amount (a : AccountInfo) : Z := le_val (slice 64 72 (ai_data a)).

(** SPL Token: a successful [TransferChecked] between two different accounts moves exactly
    [amount] from source to destination, does not underflow or overflow, and changes nothing
    else. *)
Class TokenLaws `{Solana} : Prop := token_transfer_law :
  forall src mint dst auth amount decimals ix s m d a t seeds cells,
    spl_transfer_checked TOKEN_PROGRAM_ID src mint dst auth amount decimals = Ok ix ->
    ai_key s = src -> ai_key d = dst -> src <> dst ->
    invoke_signed ix [s; m; d; a; t] seeds = Ok cells ->
    (0 <= amount <= token_amount s)%Z /\ (token_amount d + amount < 2 ^ 64)%Z /\
    exists cs cm cd ca ct, cells = [cs; cm; cd; ca; ct] /\ keeps m cm /\ keeps a ca /\ keeps t ct /\
      ac_owner cs = ai_owner s /\ ac_owner cd = ai_owner d /\
      ac_data cs = put_at 64 (le_bytes 8 (token_amount s - amount)) (ai_data s) /\
      ac_data cd = put_at 64 (le_bytes 8 (token_amount d + amount)) (ai_data d).

(** ** Transitions of one epoch record *)

Section transitions.
Context `{Sha256, Solana}.

(** What each instruction may do to the epoch record at [key], as of clock reading [now]. *)
Inductive epoch_trans (key : Pubkey) (ps : PoolStateV1) (now : Z) (es : EpochStateV1) : EpochStateV1 -> Prop :=
| trans_lock payload :
    terminal_state es = Open -> (now < ep_lock_deadline es)%Z ->
    LockPayloadV1_wf payload -> lock_payload_matches payload key es ->
    epoch_trans key ps now es (set_locked es payload (LockPayloadV1_digest payload))
| trans_settle c :
    terminal_state es = Locked -> (now <= ep_abort_deadline es)%Z ->
    u8_ok (cs_residual_side c) -> u32_ok (cs_residual_lots c) ->
    settle_payload_matches (full_payload key ps es c) key es ps ->
    epoch_trans key ps now es
      (set_settled es (full_payload key ps es c) (SettlementPayloadV1_digest (full_payload key ps es c)))
| trans_expire :
    terminal_state es = Open -> (ep_lock_deadline es < now)%Z ->
    epoch_trans key ps now es (set_terminal es Expired)
| trans_abort :
    terminal_state es = Locked -> (ep_abort_deadline es < now)%Z ->
    epoch_trans key ps now es (set_terminal es Aborted).

Lemma epoch_trans_wf key ps now es es' : EpochStateV1_wf es -> epoch_trans key ps now es es' -> EpochStateV1_wf es'.
Proof.
  intros (W1 & W2 & W3 & W4 & W5 & W6 & W7 & W8 & W9) T. unfold EpochStateV1_wf.
  destruct T as [p ? ? [? ?] ?|c ? ? ? ? ?|? ?|? ?]; cbn; split_and!; done.
Qed.

Lemma epoch_trans_valid key ps now es es' pool :
  epoch_trans key ps now es es' -> valid_epoch key es pool ps -> valid_epoch key es' pool ps.
Proof. intros T V. by destruct T. Qed.

Lemma epoch_trans_pool key ps now es es' : epoch_trans key ps now es es' -> ep_pool es' = ep_pool es.
Proof. intros T. by destruct T. Qed.

(** ** One instruction, one effect *)

(** The time an instruction reads from the clock sysvar among its accounts. *)
Definition reads_clock (accounts : list AccountInfo) (now : Z) : Prop :=
  exists c, c < length accounts /\ ai_key (acct c accounts) = clock_sysvar_id /\
    flags_are (acct c accounts) false false false /\ clock_unix_timestamp (acct c accounts) = Ok now.

(** The account at position [i] is the only one of the program's whose data changes, and
    [accounts] to [accounts'] is how. *)
Inductive effect (accounts : list AccountInfo) (i : nat) (accounts' : list AccountInfo) : Prop :=
| effect_pool ps :
    ai_owner (acct i accounts) = system_program_id -> ai_owner (acct i accounts') = ID ->
    valid_pool (ai_key (acct i accounts)) ps -> PoolStateV1_wf ps ->
    ai_data (acct i accounts') = PoolStateV1_encode ps -> effect accounts i accounts'
| effect_epoch j ps args :
    i <> j -> j < length accounts ->
    ai_owner (acct i accounts) = system_program_id -> ai_owner (acct i accounts') = ID ->
    ai_owner (acct j accounts) = ID -> PoolStateV1_decode (ai_data (acct j accounts)) = Ok ps ->
    valid_epoch (ai_key (acct i accounts))
      (new_epoch (ai_key (acct j accounts)) (ai_key (acct i accounts)) ps args) (ai_key (acct j accounts)) ps ->
    EpochStateV1_wf (new_epoch (ai_key (acct j accounts)) (ai_key (acct i accounts)) ps args) ->
    ai_data (acct i accounts')
      = EpochStateV1_encode (new_epoch (ai_key (acct j accounts)) (ai_key (acct i accounts)) ps args) ->
    effect accounts i accounts'
| effect_trans j ps es es' now :
    i <> j -> j < length accounts -> reads_clock accounts now ->
    ai_owner (acct i accounts) = ID -> ai_owner (acct i accounts') = ID ->
    ai_owner (acct j accounts) = ID -> PoolStateV1_decode (ai_data (acct j accounts)) = Ok ps ->
    EpochStateV1_decode (ai_data (acct i accounts)) = Ok es ->
    valid_epoch (ai_key (acct i accounts)) es (ai_key (acct j accounts)) ps ->
    epoch_trans (ai_key (acct i accounts)) ps now es es' ->
    ai_data (acct i accounts') = EpochStateV1_encode es' -> effect accounts i accounts'.

(** The other accounts keep owner and data, or were and stay owned by someone else. *)
Definition others_kept (accounts : list AccountInfo) (i : nat) (accounts' : list AccountInfo) : Prop :=
  forall j, j <> i ->
    (ai_owner (acct j accounts') = ai_owner (acct j accounts) /\
     (ai_data (acct j accounts') = ai_data (acct j accounts) \/ ai_owner (acct j accounts) = TOKEN_PROGRAM_ID)).

Definition one_effect (accounts accounts' : list AccountInfo) : Prop :=
  NoDup (map ai_key accounts) /\ length accounts' = length accounts /\
  (forall j, same_id (acct j accounts') (acct j accounts)) /\
  exists i, i < length accounts /\ others_kept accounts i accounts' /\ effect accounts i accounts'.

Lemma epoch_ctx_one_effect accounts ps es es' now :
  2 < length accounts -> epoch_ctx ID accounts ps es -> reads_clock accounts now ->
  epoch_trans (ai_key (acct 2 accounts)) ps now es es' ->
  one_effect accounts (<[2 := with_data (acct 2 accounts) (EpochStateV1_encode es')]> accounts).
Proof.
  intros Hl (HN & Ho1 & Ho2 & _ & Hp & _ & He & Hv) Hc T. split_and!; [done | apply length_insert | |].
  - intros j. by apply insert_same_id.
  - exists 2. split_and!; [done| |].
    + intros j Hj. rewrite acct_insert_ne by done. by split; [|left].
    + apply (effect_trans _ _ _ 1 ps es es' now); try done; try lia.
      all: by rewrite acct_insert_eq.
Qed.
End transitions.

(** ** Token movements *)

Section tokens.
Context `{Sha256, Solana, !TokenLaws}.

Lemma transfer_checked_Ok src mint dst auth tp amount seeds accounts accounts' :
  transfer_checked src mint dst auth tp amount seeds accounts = Ok accounts' ->
  NoDup [src; mint; dst; auth; tp] -> Forall (fun h => h < length accounts) [src; mint; dst; auth; tp] ->
  ai_key (acct tp accounts) = TOKEN_PROGRAM_ID -> ai_key (acct src accounts) <> ai_key (acct dst accounts) ->
  let s := acct src accounts in let d := acct dst accounts in
  (0 <= amount <= token_amount s)%Z /\ (token_amount d + amount < 2 ^ 64)%Z /\
  ai_data (acct src accounts') = put_at 64 (le_bytes 8 (token_amount s - amount)) (ai_data s) /\
  ai_data (acct dst accounts') = put_at 64 (le_bytes 8 (token_amount d + amount)) (ai_data d) /\
  (forall j, ai_owner (acct j accounts') = ai_owner (acct j accounts)) /\
  (forall j, j <> src -> j <> dst -> ai_data (acct j accounts') = ai_data (acct j accounts)).
Proof.
  unfold transfer_checked. cbn zeta. intros E HN HF Htp Hsd. inv_ok.
  apply cpi_Ok in E as (cells & Hi & ->). cbn [map] in Hi. rewrite Htp in *.
  match goal with T : spl_transfer_checked _ _ _ _ _ _ _ = _ |- _ => rename T into Hix end.
  destruct (token_transfer_law _ _ _ _ _ _ _ _ _ _ _ _ _ _ Hix eq_refl eq_refl Hsd Hi)
    as (Hle & Hov & cs & cm & cd & ca & ct & -> & Km & Ka & Kt & Os & Od & Ds & Dd).
  assert (forall k h c, [src; mint; dst; auth; tp] !! k = Some h -> [cs; cm; cd; ca; ct] !! k = Some c ->
    acct h (write_back [src; mint; dst; auth; tp] [cs; cm; cd; ca; ct] accounts) = with_cells (acct h accounts) c) as Hat.
  { intros k h c Hk Hc. apply (write_back_at _ _ _ k); try done.
    apply (proj1 (Forall_lookup _ _) HF k h Hk). }
  assert (forall j, j ∈ [src; mint; dst; auth; tp] \/ j ∉ [src; mint; dst; auth; tp]) as Hdec
    by (intros j; destruct (decide (j ∈ [src; mint; dst; auth; tp])); auto).
  split_and!; try done; try lia.
  - by rewrite (Hat 0 src cs).
  - by rewrite (Hat 2 dst cd).
  - intros j. destruct (Hdec j) as [Hj|Hj]; [|by rewrite write_back_other].
    repeat (apply elem_of_cons in Hj as [->|Hj]);
      [rewrite (Hat 0 src cs) | rewrite (Hat 1 mint cm) | rewrite (Hat 2 dst cd)
      | rewrite (Hat 3 auth ca) | rewrite (Hat 4 tp ct) |]; try done;
      try apply Km; try apply Ka; try apply Kt. by apply not_elem_of_nil in Hj.
  - intros j Hs Hd. destruct (Hdec j) as [Hj|Hj]; [|by rewrite write_back_other].
    repeat (apply elem_of_cons in Hj as [->|Hj]);
      [done | rewrite (Hat 1 mint cm) | done | rewrite (Hat 3 auth ca) | rewrite (Hat 4 tp ct) |]; try done;
      try apply Km; try apply Ka; try apply Kt. by apply not_elem_of_nil in Hj.
Qed.

Lemma acct_key_ne accounts i j :
  NoDup (map ai_key accounts) -> i < length accounts -> j < length accounts -> i <> j ->
  ai_key (acct i accounts) <> ai_key (acct j accounts).
Proof.
  intros HN Hi Hj Hij E. apply Hij. unfold acct in E.
  apply (proj1 (NoDup_nth (map ai_key accounts) (ai_key default_account)));
    [by apply NoDup_ListNoDup | by rewrite length_map.. | by rewrite !map_nth].
Qed.

(** What the pool and the venue hold, in atoms. *)
Record Holdings : Type := { pool_base : Z; pool_quote : Z; venue_base : Z; venue_quote : Z }.
Definition holdings (accounts : list AccountInfo) : Holdings :=
  {| pool_base := token_amount (acct 4 accounts); pool_quote := token_amount (acct 5 accounts);
     venue_base := token_amount (acct 7 accounts); venue_quote := token_amount (acct 8 accounts) |}.

(** Specification of a residual of [b] base atoms against [q] quote atoms: side 1 buys base from
    the venue, side 2 sells base to it. *)
Definition settle_holdings (side b q : Z) (h : Holdings) : option Holdings :=
  match side with
  | 0%Z => Some h
  | 1%Z =>
      if (pool_quote h <? q)%Z || (venue_base h <? b)%Z then None else
      Some {| pool_base := pool_base h + b; pool_quote := pool_quote h - q;
              venue_base := venue_base h - b; venue_quote := venue_quote h + q |}
  | 2%Z =>
      if (pool_base h <? b)%Z || (venue_quote h <? q)%Z then None else
      Some {| pool_base := pool_base h - b; pool_quote := pool_quote h + q;
              venue_base := venue_base h + b; venue_quote := venue_quote h - q |}
  | _ => None
  end.

Lemma settle_holdings_conserves side b q h h' :
  settle_holdings side b q h = Some h' ->
  (pool_base h' + venue_base h' = pool_base h + venue_base h)%Z /\
  (pool_quote h' + venue_quote h' = pool_quote h + venue_quote h)%Z.
Proof.
  unfold settle_holdings. intros E.
  repeat (match type of E with context [match ?x with _ => _ end] => destruct x end; try discriminate);
    injection E as <-; cbn; lia.
Qed.

Lemma token_amount_put a v :
  u64_ok v -> 72 <= length (ai_data a) ->
  forall a', ai_data a' = put_at 64 (le_bytes 8 v) (ai_data a) -> token_amount a' = v.
Proof.
  intros Hv Hl a' E. unfold token_amount. rewrite E.
  rewrite slice_put_at by (rewrite length_le_bytes; lia). by apply le_val_u64.
Qed.

Lemma token_amount_data a b : ai_data a = ai_data b -> token_amount a = token_amount b.
Proof. unfold token_amount. intros E. by rewrite E. Qed.

Lemma token_amount_range a : 72 <= length (ai_data a) -> u64_ok (token_amount a).
Proof. intros Hl. apply u64_slice_ok; lia. Qed.

(** One leg moves its amount and leaves every other account's amount and length. *)
Lemma leg_Ok src mint dst auth amount seeds accounts accounts' :
  transfer_checked src mint dst auth 11 amount seeds accounts = Ok accounts' ->
  NoDup [src; mint; dst; auth; 11] -> Forall (fun h => h < length accounts) [src; mint; dst; auth; 11] ->
  ai_key (acct 11 accounts) = TOKEN_PROGRAM_ID -> NoDup (map ai_key accounts) ->
  72 <= length (ai_data (acct src accounts)) -> 72 <= length (ai_data (acct dst accounts)) ->
  (amount <= token_amount (acct src accounts))%Z /\
  token_amount (acct src accounts') = (token_amount (acct src accounts) - amount)%Z /\
  token_amount (acct dst accounts') = (token_amount (acct dst accounts) + amount)%Z /\
  (forall j, length (ai_data (acct j accounts')) = length (ai_data (acct j accounts))) /\
  (forall j, ai_owner (acct j accounts') = ai_owner (acct j accounts)) /\
  (forall j, j <> src -> j <> dst -> ai_data (acct j accounts') = ai_data (acct j accounts)).
Proof.
  intros E HN HF Htp HK Hs Hd.
  assert (src <> dst /\ src < length accounts /\ dst < length accounts) as (Hne & Hsl & Hdl).
  { inversion HN as [|? ? Hn _]. rewrite !Forall_cons_iff in HF. set_solver. }
  destruct (transfer_checked_Ok _ _ _ _ _ _ _ _ _ E HN HF Htp (acct_key_ne _ _ _ HK Hsl Hdl Hne))
    as (Ha & Ho & Ds & Dd & Ow & Oth).
  pose proof (token_amount_range _ Hs) as Rs. pose proof (token_amount_range _ Hd) as Rd. unfold u64_ok in *.
  split_and!; try done; try lia.
  - eapply token_amount_put; [|exact Hs|exact Ds]. unfold u64_ok. lia.
  - eapply token_amount_put; [|exact Hd|exact Dd]. unfold u64_ok. lia.
  - intros j. destruct (decide (j = src)) as [->|]; [rewrite Ds; apply length_put_at|].
    destruct (decide (j = dst)) as [->|]; [rewrite Dd; apply length_put_at|]. by rewrite Oth.
Qed.

Lemma same_id_keys accounts accounts' :
  length accounts' = length accounts -> (forall j, same_id (acct j accounts') (acct j accounts)) ->
  map ai_key accounts' = map ai_key accounts.
Proof.
  intros Hl HI. apply (nth_ext _ _ (ai_key default_account) (ai_key default_account));
    [by rewrite !length_map|].
  intros n _. rewrite !map_nth. apply HI.
Qed.

(** Two legs in opposite directions over four different token accounts. *)
Lemma two_legs s1 m1 d1 a1 amt1 seeds1 s2 m2 d2 a2 amt2 seeds2 accounts acc1 accounts' :
  transfer_checked s1 m1 d1 a1 11 amt1 seeds1 accounts = Ok acc1 ->
  transfer_checked s2 m2 d2 a2 11 amt2 seeds2 acc1 = Ok accounts' ->
  NoDup [s1; m1; d1; a1; 11] -> NoDup [s2; m2; d2; a2; 11] -> NoDup [s1; d1; s2; d2] ->
  Forall (fun h => h < length accounts) [s1; m1; d1; a1; s2; m2; d2; a2; 11] ->
  NoDup (map ai_key accounts) -> ai_key (acct 11 accounts) = TOKEN_PROGRAM_ID ->
  Forall (fun i => length (ai_data (acct i accounts)) = 165) [s1; d1; s2; d2] ->
  (amt1 <= token_amount (acct s1 accounts))%Z /\ (amt2 <= token_amount (acct s2 accounts))%Z /\
  token_amount (acct s1 accounts') = (token_amount (acct s1 accounts) - amt1)%Z /\
  token_amount (acct d1 accounts') = (token_amount (acct d1 accounts) + amt1)%Z /\
  token_amount (acct s2 accounts') = (token_amount (acct s2 accounts) - amt2)%Z /\
  token_amount (acct d2 accounts') = (token_amount (acct d2 accounts) + amt2)%Z /\
  (forall j, ai_owner (acct j accounts') = ai_owner (acct j accounts)) /\
  (forall j, j ∉ [s1; d1; s2; d2] -> ai_data (acct j accounts') = ai_data (acct j accounts)).
Proof.
  intros E1 E2 HN1 HN2 HN3 HB HK Htp HF. rewrite !Forall_cons_iff in HF. rewrite !Forall_cons_iff in HB.
  destruct HF as (L1 & L2 & L3 & L4 & _), HB as (B1 & B2 & B3 & B4 & B5 & B6 & B7 & B8 & B9 & _).
  pose proof (transfer_checked_frame _ _ _ _ _ _ _ _ _ E1) as (FL & FI & _).
  apply leg_Ok in E1 as (A1 & S1 & D1 & Len1 & O1 & X1); try done; try lia;
    [|repeat constructor; done].
  assert (ai_key (acct 11 acc1) = TOKEN_PROGRAM_ID) as Htp1 by (rewrite (proj1 (FI 11)); done).
  apply leg_Ok in E2 as (A2 & S2 & D2 & Len2 & O2 & X2); rewrite ?FL, ?Len1, ?same_id_keys with accounts acc1;
    try done; try lia; [|repeat constructor; done].
  assert (s1 <> s2 /\ s1 <> d2 /\ d1 <> s2 /\ d1 <> d2) as (N1 & N2 & N3 & N4)
    by (clear -HN3; inversion HN3 as [|? ? Hn HN4]; inversion HN4 as [|? ? Hn' _]; set_solver).
  rewrite (token_amount_data (acct s2 acc1) (acct s2 accounts)) in * by (by apply X1).
  rewrite (token_amount_data (acct d2 acc1) (acct d2 accounts)) in * by (by apply X1).
  rewrite (token_amount_data (acct s1 accounts') (acct s1 acc1)) by (by apply X2).
  rewrite (token_amount_data (acct d1 accounts') (acct d1 acc1)) by (by apply X2).
  split_and!; try done; [intros j; by rewrite O2, O1|].
  clear -X1 X2. intros j Hj. rewrite X2, X1 by set_solver. done.
Qed.

(** The residual's token legs implement [settle_holdings]. *)
Lemma settle_residual_tokens side b q seeds accounts accounts' :
  settle_residual side b q seeds accounts = Ok accounts' ->
  length accounts = 14 -> NoDup (map ai_key accounts) -> ai_key (acct 11 accounts) = TOKEN_PROGRAM_ID ->
  Forall (fun i => length (ai_data (acct i accounts)) = 165) [4; 5; 7; 8] ->
  settle_holdings side b q (holdings accounts) = Some (holdings accounts') /\
  (forall j, ai_owner (acct j accounts') = ai_owner (acct j accounts)) /\
  (forall j, j ∉ [4; 5; 7; 8] -> ai_data (acct j accounts') = ai_data (acct j accounts)).
Proof.
  intros E Hl HK Htp HF. rewrite !Forall_cons_iff in HF. destruct HF as (L4 & L5 & L7 & L8 & _).
  unfold settle_residual in E. unfold settle_holdings.
  repeat (match type of E with context [match ?x with _ => _ end] => destruct x end; try discriminate);
    inv_ok; [by subst| |];
  match goal with E1 : transfer_checked _ _ _ _ _ _ (Some _) accounts = Ok ?acc1 |- _ =>
    destruct (two_legs _ _ _ _ _ _ _ _ _ _ _ _ _ _ _ E1 E)
      as (A1 & A2 & S1 & D1 & S2 & D2 & O & X); try compute_done; try done;
      [rewrite Hl; compute_done | by repeat constructor |] end;
  (split_and!; [|done | clear -X; intros j Hj; apply X; set_solver]);
  unfold holdings; cbn [pool_base pool_quote venue_base venue_quote];
  rewrite S1, D1, S2, D2, !(proj2 (Z.ltb_ge _ _)) by lia; done.
Qed.
(** What a whole settlement does to the four token accounts. *)
Lemma settle_compact_moves accounts c accounts' :
  settle_compact ID accounts c = Ok accounts' ->
  exists es, EpochStateV1_decode (ai_data (acct 2 accounts)) = Ok es /\
    let b := (ep_base_lot_atoms es * cs_residual_lots c)%Z in
    let q := (ep_quote_atoms_per_lot es * cs_residual_lots c)%Z in
    (b < 2 ^ 64)%Z /\ (q < 2 ^ 64)%Z /\
    settle_holdings (cs_residual_side c) b q (holdings accounts) = Some (holdings accounts') /\
    (pool_base (holdings accounts') + venue_base (holdings accounts')
      = pool_base (holdings accounts) + venue_base (holdings accounts))%Z /\
    (pool_quote (holdings accounts') + venue_quote (holdings accounts')
      = pool_quote (holdings accounts) + venue_quote (holdings accounts))%Z /\
    forall j, j ∉ [2; 4; 5; 7; 8] -> ai_data (acct j accounts') = ai_data (acct j accounts).
Proof.
  intros E. apply settle_compact_Ok in E as (ps0 & es0 & _ & Hp0 & He0 & E).
  apply settle_Ok in E as (ps & es & now & n & acc1 & Hf & Hctx & Hcu & _ & _ & _ & _ & _ & _ & Hb & Hq & Hr & ->).
  destruct Hctx as (HK & _ & _ & _ & _ & _ & He & _). assert (es0 = es) as -> by congruence.
  destruct Hf as (Hl & _ & _ & _ & _ & _ & _ & _ & _ & _ & _ & _ & _ & _ & _ & Htp & _).
  destruct Hcu as (_ & _ & _ & _ & _ & _ & _ & _ & T4 & T5 & T7 & T8).
  apply settle_residual_tokens in Hr as (HH & _ & X); try done;
    [|repeat constructor; [apply T4 | apply T5 | apply T7 | apply T8]].
  exists es. cbn [cs_residual_side sp_residual_side sp_residual_lots full_payload] in *. cbn zeta.
  assert (forall a, holdings (<[2 := a]> acc1) = holdings acc1) as Hins
    by (intros a; unfold holdings; by rewrite !acct_insert_ne).
  rewrite Hins. split_and!; try done.
  1,2: apply settle_holdings_conserves in HH; lia.
  clear -X. intros j Hj. rewrite acct_insert_ne by set_solver. apply X. set_solver.
Qed.

End tokens.

(** ** Every instruction has one effect *)

Section effects.
Context `{Sha256, Solana, !SystemLaws, !TokenLaws}.

(** A call whose laws keep owner and data of every account whose key is not [key]. *)
Lemma cpi_kept ix handles seeds accounts accounts' key :
  cpi ix handles seeds accounts = Ok accounts' -> NoDup handles ->
  (forall infos seeds cells, invoke_signed ix infos seeds = Ok cells ->
     Forall2 (fun a c => ai_key a <> key -> keeps a c) infos cells) ->
  forall j, ai_key (acct j accounts) <> key ->
    ai_owner (acct j accounts') = ai_owner (acct j accounts) /\ ai_data (acct j accounts') = ai_data (acct j accounts).
Proof.
  intros E HN Hlaw j Hj. apply cpi_Ok in E as (cells & Hi & ->). apply Hlaw in Hi.
  destruct (decide (j ∈ handles)) as [Hin|Hin]; [|by rewrite write_back_other].
  destruct (decide (j < length accounts)) as [Hl|Hl].
  - apply list_elem_of_lookup in Hin as [k Hk].
    assert (map (fun h => acct h accounts) handles !! k = Some (acct j accounts)) as Hm
      by (by rewrite list_lookup_fmap, Hk).
    destruct (Forall2_lookup_l _ _ _ _ _ Hi Hm) as (c & Hc & Hkeep).
    rewrite (write_back_at _ _ _ k j c) by done. apply Hkeep, Hj.
  - unfold acct. rewrite !nth_overflow by (rewrite ?write_back_length; lia). done.
Qed.

Lemma initialize_pda_kept payer pda sys pid seeds accounts accounts' :
  initialize_pda_account payer pda sys pid seeds accounts = Ok accounts' ->
  NoDup [payer; pda; sys] -> NoDup (map ai_key accounts) -> pda < length accounts ->
  forall j, j < length accounts -> j <> pda ->
    ai_owner (acct j accounts') = ai_owner (acct j accounts) /\ ai_data (acct j accounts') = ai_data (acct j accounts).
Proof.
  unfold initialize_pda_account. cbn zeta. intros E HN HK Hp j Hj Hjp. inv_ok.
  assert (NoDup [pda; sys]) as HN2 by (inversion HN; done).
  pose proof (acct_key_ne accounts j pda HK Hj Hp Hjp) as Hne.
  match goal with T : cpi (system_allocate _ _) _ _ _ = _ |- _ => rename T into E1 end.
  match goal with T : cpi (system_assign _ _) _ _ _ = _ |- _ => rename T into E2 end.
  pose proof (proj1 (proj2 (cpi_frame_positions _ _ _ _ _ E1))) as I1.
  pose proof (cpi_kept _ _ _ _ _ _ E1 HN2 (fun i s c => system_allocate_law _ _ i s c) j) as K1.
  pose proof (cpi_kept _ _ _ _ _ _ E2 HN2 (fun i s c => system_assign_law _ _ i s c) j) as K2.
  rewrite (proj1 (I1 j)) in K2.
  assert (ai_key (acct j x0) = ai_key (acct j accounts) /\
    ai_owner (acct j x0) = ai_owner (acct j accounts) /\ ai_data (acct j x0) = ai_data (acct j accounts)) as (Kk & Ko & Kd).
  { match goal with T : (if ?c then _ else _) = Ok x0 |- _ => destruct c; inv_ok; subst; [|done] end.
    match goal with T : cpi (system_transfer _ _ _) _ _ _ = _ |- _ => rename T into E0 end.
    split; [apply (proj1 (proj2 (cpi_frame_positions _ _ _ _ _ E0)))|].
    apply (cpi_kept _ _ _ _ _ (ai_key (acct pda accounts)) E0 HN); [|done].
    intros i s c Hi. apply system_transfer_law in Hi. eapply Forall2_impl; [|exact Hi]. by intros. }
  rewrite Kk in *. destruct (K1 Hne), (K2 Hne). split; congruence.
Qed.

Lemma new_epoch_valid pool epoch ps args now :
  valid_pool pool ps -> epoch = fst (epoch_address pool (ca_epoch_id args)) ->
  (now < ca_lock_deadline args < ca_abort_deadline args)%Z -> (4 <= ca_minimum_count args)%Z ->
  ca_quote_atoms_per_lot args <> 0%Z -> valid_epoch epoch (new_epoch pool epoch ps args) pool ps.
Proof.
  intros Hp -> Hd Hm Hq. unfold valid_epoch, epoch_config_of. cbn.
  split_and!; try done; try lia. by destruct (epoch_address _ _).
Qed.

Lemma create_epoch_effect accounts args accounts' :
  create_epoch ID accounts args = Ok accounts' -> KagebInstruction_wf (CreateEpoch args) ->
  one_effect accounts accounts'.
Proof.
  intros E (W1 & W2 & W3 & W4).
  apply create_epoch_Ok in E as (ps & now & acc1 & Hl & HK & _ & _ & Hop & _ & _ & Hp & Hvp & _ & _ & Hd & Hm & Hq & Hk & (seeds & Hi) & ->).
  pose proof (initialize_pda_Ok _ _ _ _ _ _ _ Hi) as (Hsys & _ & L1 & I1 & _ & Ho1 & _).
  pose proof (initialize_pda_kept _ _ _ _ _ _ _ Hi ltac:(compute_done) HK ltac:(lia)) as Kept.
  split_and!; [done | by rewrite length_insert | |].
  - intros j. eapply same_id_trans; [by apply insert_same_id | apply I1].
  - exists 3. split_and!; [lia | |].
    + intros j Hj. rewrite acct_insert_ne by done. destruct (decide (j < length accounts)).
      * destruct (Kept j) as [-> ->]; [done..|]. by split; [|left].
      * unfold acct. rewrite !nth_overflow by lia. by split; [|left].
    + eapply (effect_epoch _ _ _ 2 ps args); try done; try lia.
      * rewrite acct_insert_eq by lia. done.
      * by eapply new_epoch_valid.
      * apply PoolStateV1_decode_wf in Hp as (_ & _ & _ & _ & Wb).
        unfold EpochStateV1_wf. cbn. split_and!; try done. apply bump_is_u8.
      * rewrite acct_insert_eq by lia. done.
Qed.

Lemma initialize_pool_effect accounts args accounts' :
  initialize_pool ID accounts args = Ok accounts' -> KagebInstruction_wf (InitializePool args) ->
  one_effect accounts accounts'.
Proof.
  intros E (W1 & W2 & W3).
  apply initialize_pool_Ok in E as (acc1 & Hl & HK & _ & _ & _ & Hv & _ & _ & _ & _ & _ & (seeds & Hi) & ->).
  pose proof (initialize_pda_Ok _ _ _ _ _ _ _ Hi) as (Hsys & _ & L1 & I1 & _ & Ho1 & _).
  pose proof (initialize_pda_kept _ _ _ _ _ _ _ Hi ltac:(compute_done) HK ltac:(lia)) as Kept.
  split_and!; [done | by rewrite length_insert | |].
  - intros j. eapply same_id_trans; [by apply insert_same_id | apply I1].
  - exists 2. split_and!; [lia | |].
    + intros j Hj. rewrite acct_insert_ne by done. destruct (decide (j < length accounts)).
      * destruct (Kept j) as [-> ->]; [done..|]. by split; [|left].
      * unfold acct. rewrite !nth_overflow by lia. by split; [|left].
    + eapply (effect_pool _ _ _ (new_pool accounts args)); try done.
      * rewrite acct_insert_eq by lia. done.
      * unfold PoolStateV1_wf. cbn. split_and!; try done; apply bump_is_u8.
      * rewrite acct_insert_eq by lia. done.
Qed.

Lemma lock_effect accounts payload accounts' :
  lock ID accounts payload = Ok accounts' -> LockPayloadV1_wf payload -> one_effect accounts accounts'.
Proof.
  intros E W. apply lock_Ok in E as (ps & es & now & n & Hf & Hctx & Ho & Hnow & Hd & Hm & _ & _ & ->).
  apply (epoch_ctx_one_effect _ ps es _ now); [destruct Hf; lia | done | | by apply trans_lock].
  destruct Hf as (Hl & _ & _ & _ & _ & Hc & _ & Hk). exists 4. split_and!; [lia | done..].
Qed.

Lemma expire_or_abort_effect accounts abort accounts' :
  expire_or_abort ID accounts abort = Ok accounts' -> one_effect accounts accounts'.
Proof.
  intros E. apply expire_or_abort_Ok in E as (ps & es & now & Hf & Hctx & Hnow & Ht & Hd & ->).
  apply (epoch_ctx_one_effect _ ps es _ now); [destruct Hf; lia | done | |].
  - destruct Hf as (Hl & _ & _ & _ & Hc & Hk). exists 3. split_and!; [lia | done..].
  - destruct abort; [by apply trans_abort | by apply trans_expire].
Qed.

Lemma settle_compact_effect accounts c accounts' :
  settle_compact ID accounts c = Ok accounts' -> KagebInstruction_wf (Settle c) -> one_effect accounts accounts'.
Proof.
  intros E (W1 & W2). apply settle_compact_Ok in E as (ps0 & es0 & _ & Hp0 & He0 & E).
  apply settle_Ok in E as (ps & es & now & n & acc1 & Hf & Hctx & Hcu & Ht & Hnow & Hd & Hm & _ & _ & _ & _ & Hr & ->).
  pose proof Hctx as (HK & Ho1 & Ho2 & _ & Hp & _ & He & Hv).
  assert (ps0 = ps) as -> by congruence. assert (es0 = es) as -> by congruence.
  destruct Hf as (Hl & _ & _ & _ & _ & _ & _ & _ & _ & _ & _ & _ & _ & _ & Hc13 & Htp & _ & Hk13).
  assert (reads_clock accounts now) as Hclock by (exists 13; split_and!; [lia | done..]).
  destruct Hcu as (_ & _ & _ & _ & _ & _ & _ & _ & T4 & T5 & T7 & T8).
  pose proof (settle_residual_frame _ _ _ _ _ _ Hr) as (FL & FI & _).
  apply settle_residual_tokens in Hr as (_ & O & X); try done;
    [|repeat constructor; [apply T4 | apply T5 | apply T7 | apply T8]].
  assert (same_id (with_data (acct 2 accounts) (EpochStateV1_encode (set_settled es
    (full_payload (ai_key (acct 2 accounts)) ps es c)
    (SettlementPayloadV1_digest (full_payload (ai_key (acct 2 accounts)) ps es c))))) (acct 2 acc1)) as S2.
  { pose proof (FI 2) as (? & ? & ? & ?). done. }
  split_and!; [done | by rewrite length_insert | |].
  - intros j. eapply same_id_trans; [by apply insert_same_id | apply FI].
  - exists 2. split_and!; [lia | |].
    + intros j Hj. rewrite acct_insert_ne by done. split; [apply O|].
      destruct (decide (j ∈ [4; 5; 7; 8])) as [Hin|Hin]; [right | left; by apply X].
      repeat (apply elem_of_cons in Hin as [->|Hin]);
        [apply T4 | apply T5 | apply T7 | apply T8 | by apply not_elem_of_nil in Hin].
    + set (p := full_payload (ai_key (acct 2 accounts)) ps es c).
      apply (effect_trans _ _ _ 1 ps es (set_settled es p (SettlementPayloadV1_digest p)) now);
        rewrite ?acct_insert_eq by lia; try done; try lia. by apply trans_settle.
Qed.

Lemma process_effect accounts data accounts' :
  process_instruction ID accounts data = Ok accounts' -> one_effect accounts accounts'.
Proof.
  unfold process_instruction. intros E. inv_ok.
  match goal with T : KagebInstruction_decode _ = Ok ?i |- _ => apply KagebInstruction_decode_wf in T; destruct i end;
    eauto using create_epoch_effect, initialize_pool_effect, lock_effect, settle_compact_effect,
      expire_or_abort_effect.
Qed.
End effects.
