(* ===== verification/Lifecycle.v ===== *)
(** * Reachable ledgers: invariants of pools and epochs

    The step relation of the chain as the program experiences it, the invariant of every
    program-owned account, and the lifecycle of an epoch as an abstract machine that every
    execution refines. *)

From S2P Require Import Prelude Bytes Extern ProgramWire ProgramState ProgramInstruction Ed25519.
From S2P Require Import Processor ProcessorProps Chain.

(** ** The ledger *)

Record Account : Type := {
  acc_lamports : Z;
  acc_owner : Pubkey;
  acc_executable : bool;
  acc_data : list byte;
}.
Abbreviation World := (gmap Pubkey Account).

Section ledger.
Context `{Sha256, Solana}.

(** The runtime's view of an account for one instruction; a missing account is an empty one of
    the system program. *)
Definition load (w : World) (m : AccountMeta) : AccountInfo :=
  let a := default {| acc_lamports := 0; acc_owner := system_program_id; acc_executable := false; acc_data := [] |}
             (w !! am_pubkey m) in
  {| ai_key := am_pubkey m; ai_is_signer := am_is_signer m; ai_is_writable := am_is_writable m;
     ai_executable := acc_executable a; ai_owner := acc_owner a; ai_lamports := acc_lamports a;
     ai_data := acc_data a |}.

(** The time of the ledger: what the clock sysvar holds. *)
Definition ledger_time (w : World) : result ProgramError Z :=
  clock_unix_timestamp (load w {| am_pubkey := clock_sysvar_id; am_is_signer := false; am_is_writable := false |}).

Definition account_of (a : AccountInfo) : Account :=
  {| acc_lamports := ai_lamports a; acc_owner := ai_owner a; acc_executable := ai_executable a;
     acc_data := ai_data a |}.

Definition store (accounts : list AccountInfo) (w : World) : World :=
  fold_right (fun a w => <[ai_key a := account_of a]> w) w accounts.

(** What the rest of the chain can do: only an account's owner changes its data, and an account
    handed to the program arrives with zeroed data. *)
Definition env_step (w w' : World) : Prop :=
  (forall k a, w !! k = Some a -> acc_owner a = ID ->
     exists a', w' !! k = Some a' /\ acc_owner a' = ID /\ acc_data a' = acc_data a) /\
  (forall k a', w' !! k = Some a' -> acc_owner a' = ID ->
     (exists a, w !! k = Some a /\ acc_owner a = ID) \/ acc_data a' = zeros (length (acc_data a'))).

Inductive step : World -> World -> Prop :=
| step_program w metas data accounts' :
    process_instruction ID (map (load w) metas) data = Ok accounts' -> step w (store accounts' w)
| step_env w w' : env_step w w' -> step w w'.

Inductive steps : World -> World -> Prop :=
| steps_refl w : steps w w
| steps_step w w1 w2 : steps w w1 -> step w1 w2 -> steps w w2.

(** Executions start on a ledger where the program owns nothing. *)
Definition genesis (w : World) : Prop := forall k a, w !! k = Some a -> acc_owner a <> ID.
Definition reachable (w : World) : Prop := exists w0, genesis w0 /\ steps w0 w.

(** The records the program would read at an address. *)
Definition owned_data (w : World) (k : Pubkey) : option (list byte) :=
  match w !! k with
  | Some a => if acc_owner a == ID then Some (acc_data a) else None
  | None => None
  end.
Definition pool_at (w : World) (k : Pubkey) : option PoolStateV1 :=
  data ← owned_data w k; ok (PoolStateV1_decode data).
Definition epoch_at (w : World) (k : Pubkey) : option EpochStateV1 :=
  data ← owned_data w k; ok (EpochStateV1_decode data).

(** ** Epoch records in every phase *)

(** The signed payloads, rebuilt from what the record stores. *)
Definition lock_payload_of (key : Pubkey) (es : EpochStateV1) : LockPayloadV1 :=
  {| lp_epoch_account := key; lp_configuration_hash := ep_configuration_hash es;
     lp_pre_balance_root := ep_pre_balance_root es; lp_member_root := ep_member_root es;
     lp_member_count := ep_member_count es; lp_lock_deadline := ep_lock_deadline es;
     lp_lock_nonce := ep_lock_nonce es |}.
Definition compact_of (es : EpochStateV1) : CompactSettlementPayload :=
  {| cs_result_commitment := ep_result_commitment es; cs_residual_side := ep_residual_side es;
     cs_residual_lots := ep_residual_lots es; cs_settlement_nonce := ep_settlement_nonce es |}.

Definition unlocked_part (es : EpochStateV1) : Prop :=
  ep_pre_balance_root es = zero32 /\ ep_member_root es = zero32 /\ ep_lock_digest es = zero32 /\
  ep_lock_nonce es = zero32 /\ ep_member_count es = 0%Z.
Definition unsettled_part (es : EpochStateV1) : Prop :=
  ep_result_commitment es = zero32 /\ ep_settlement_digest es = zero32 /\
  ep_settlement_nonce es = zero32 /\ ep_residual_side es = 0%Z /\ ep_residual_lots es = 0%Z.
Definition locked_part (key : Pubkey) (es : EpochStateV1) : Prop :=
  ep_pre_balance_root es <> zero32 /\ ep_member_root es <> zero32 /\ ep_lock_nonce es <> zero32 /\
  (4 <= ep_minimum_count es <= ep_member_count es)%Z /\
  ep_lock_digest es = LockPayloadV1_digest (lock_payload_of key es).
Definition settled_part (key : Pubkey) (ps : PoolStateV1) (es : EpochStateV1) : Prop :=
  ep_result_commitment es <> zero32 /\ ep_settlement_nonce es <> zero32 /\
  ep_settlement_nonce es <> ep_lock_nonce es /\
  valid_residual (ep_residual_side es) (ep_residual_lots es) = true /\
  ep_settlement_digest es = SettlementPayloadV1_digest (full_payload key ps es (compact_of es)).

Definition epoch_inv (key : Pubkey) (ps : PoolStateV1) (es : EpochStateV1) : Prop :=
  valid_epoch key es (ep_pool es) ps /\
  match terminal_state es with
  | Open | Expired => unlocked_part es /\ unsettled_part es
  | Locked | Aborted => locked_part key es /\ unsettled_part es
  | Settled => locked_part key es /\ settled_part key ps es
  end.

Lemma epoch_trans_inv key ps now es es' :
  epoch_trans key ps now es es' -> epoch_inv key ps es -> epoch_inv key ps es'.
Proof.
  intros T (V & I). pose proof (epoch_trans_pool _ _ _ _ _ T) as Hpool.
  split; [rewrite Hpool; by eapply epoch_trans_valid|].
  destruct V as (_ & _ & Hmin & _).
  destruct T as [p Ht _ _ (M1 & M2 & M3 & M4 & M5 & M6 & M7)|c Ht _ _ _ M|Ht _|Ht _]; rewrite Ht in I; cbn.
  - destruct I as [_ U]. split; [|exact U]. unfold locked_part. cbn. split_and!; try done; try lia.
    f_equal. unfold lock_payload_of. cbn. rewrite <- M1, <- M2, <- M3. by destruct p.
  - destruct I as [L _]. split; [exact L|]. destruct M as (_ & _ & M3 & _ & _ & _ & _ & _ & _ & _ & _ & _ & M13 & M14 & M15).
    unfold settled_part. cbn. split_and!; done.
  - exact I.
  - exact I.
Qed.

Lemma new_epoch_inv pool epoch ps args :
  valid_epoch epoch (new_epoch pool epoch ps args) pool ps -> epoch_inv epoch ps (new_epoch pool epoch ps args).
Proof. intros V. split; [exact V|]. by cbn. Qed.

(** ** The lifecycle as an abstract machine *)

Inductive lifecycle (lock_deadline abort_deadline now : Z) : EpochTerminalState -> EpochTerminalState -> Prop :=
| lc_lock : (now < lock_deadline)%Z -> lifecycle lock_deadline abort_deadline now Open Locked
| lc_expire : (lock_deadline < now)%Z -> lifecycle lock_deadline abort_deadline now Open Expired
| lc_settle : (now <= abort_deadline)%Z -> lifecycle lock_deadline abort_deadline now Locked Settled
| lc_abort : (abort_deadline < now)%Z -> lifecycle lock_deadline abort_deadline now Locked Aborted.

(** The parameters an epoch was opened with. *)
Definition same_terms (es es' : EpochStateV1) : Prop :=
  ep_pool es' = ep_pool es /\ ep_epoch_id es' = ep_epoch_id es /\
  ep_configuration_hash es' = ep_configuration_hash es /\ ep_minimum_count es' = ep_minimum_count es /\
  ep_base_lot_atoms es' = ep_base_lot_atoms es /\
  ep_quote_atoms_per_lot es' = ep_quote_atoms_per_lot es /\
  ep_lock_deadline es' = ep_lock_deadline es /\ ep_abort_deadline es' = ep_abort_deadline es.

Lemma epoch_trans_lifecycle key ps now es es' :
  epoch_trans key ps now es es' ->
  lifecycle (ep_lock_deadline es) (ep_abort_deadline es) now (terminal_state es) (terminal_state es') /\
  same_terms es es'.
Proof.
  intros T. destruct T as [? Ht Hd|? Ht Hd|Ht Hd|Ht Hd]; rewrite Ht; cbn.
  all: split; [by constructor | done].
Qed.

(** ** Steps on the ledger *)

Lemma owned_data_Some w k d :
  owned_data w k = Some d <-> exists a, w !! k = Some a /\ acc_owner a = ID /\ acc_data a = d.
Proof.
  unfold owned_data. destruct (w !! k) as [a|]; [|naive_solver].
  destruct (bool_decide_reflect (acc_owner a = ID)); naive_solver.
Qed.

Lemma ok_Some {E A} (r : result E A) a : ok r = Some a <-> r = Ok a.
Proof. destruct r; cbn; naive_solver. Qed.

Lemma pool_at_Some w k ps :
  pool_at w k = Some ps <-> exists d, owned_data w k = Some d /\ PoolStateV1_decode d = Ok ps.
Proof. unfold pool_at. rewrite bind_Some. setoid_rewrite ok_Some. done. Qed.

Lemma epoch_at_Some w k es :
  epoch_at w k = Some es <-> exists d, owned_data w k = Some d /\ EpochStateV1_decode d = Ok es.
Proof. unfold epoch_at. rewrite bind_Some. setoid_rewrite ok_Some. done. Qed.

Lemma load_key w m : ai_key (load w m) = am_pubkey m.
Proof. done. Qed.

Lemma store_cons a accounts w : store (a :: accounts) w = <[ai_key a := account_of a]> (store accounts w).
Proof. done. Qed.

Lemma store_lookup_ne accounts w k : k ∉ map ai_key accounts -> store accounts w !! k = w !! k.
Proof.
  induction accounts as [|a accounts IH]; cbn [map]; intros Hk; [done|].
  rewrite store_cons, lookup_insert_ne by set_solver. apply IH. set_solver.
Qed.

Lemma store_lookup accounts w i :
  NoDup (map ai_key accounts) -> i < length accounts ->
  store accounts w !! ai_key (acct i accounts) = Some (account_of (acct i accounts)).
Proof.
  revert i. induction accounts as [|a accounts IH]; cbn [length]; intros i HN Hi; [lia|].
  cbn [map] in HN. inversion HN as [|? ? Ha HN']. subst. rewrite store_cons. destruct i as [|i].
  - by rewrite lookup_insert_eq.
  - change (acct (S i) (a :: accounts)) with (acct i accounts).
    rewrite lookup_insert_ne; [apply IH; [done|lia]|].
    intros E. apply Ha. rewrite E. apply list_elem_of_In, in_map. apply nth_In. lia.
Qed.

Lemma owned_load w m : ai_owner (load w m) = ID -> system_program_id <> ID ->
  owned_data w (am_pubkey m) = Some (ai_data (load w m)).
Proof.
  intros Ho Hs. apply owned_data_Some. unfold load in *. cbn in *.
  destruct (w !! am_pubkey m) as [a|] eqn:E; cbn in *; [eauto | done].
Qed.

Lemma load_owned w m d : owned_data w (am_pubkey m) = Some d ->
  ai_owner (load w m) = ID /\ ai_data (load w m) = d.
Proof. intros (a & E & Ho & Hd)%owned_data_Some. unfold load. cbn. by rewrite E. Qed.
End ledger.

Section invariants.
Context `{Sha256, Solana, !SystemLaws, !TokenLaws}.

Lemma acct_load w metas j :
  j < length metas -> exists m, acct j (map (load w) metas) = load w m.
Proof.
  intros Hj. destruct (lookup_lt_is_Some_2 metas j Hj) as [m Hm]. exists m.
  apply acct_lookup. by rewrite list_lookup_fmap, Hm.
Qed.

Lemma owned_data_account w k a : w !! k = Some (account_of a) ->
  owned_data w k = if ai_owner a == ID then Some (ai_data a) else None.
Proof. intros E. unfold owned_data. by rewrite E. Qed.

Lemma owned_data_load w m :
  owned_data w (am_pubkey m) = if ai_owner (load w m) == ID then Some (ai_data (load w m)) else None.
Proof.
  unfold owned_data, load. cbn. destruct (w !! am_pubkey m) as [a|]; cbn; [done|].
  by rewrite bool_decide_eq_false_2 by apply system_is_not_kageb.
Qed.

(** An instruction reads the time of the ledger it runs on. *)
Lemma reads_ledger_time w metas now : reads_clock (map (load w) metas) now -> ledger_time w = Ok now.
Proof.
  intros (c & Hc & Hk & (Hs & Hw & _) & Hnow). rewrite length_map in Hc. destruct (acct_load w metas c Hc) as [m Em].
  rewrite Em in *. unfold ledger_time. rewrite <- Hnow. f_equal. f_equal. destruct m. cbn in *. by subst.
Qed.

(** A successful instruction changes the program's data at one address only. *)
Lemma program_step w metas data accounts' :
  process_instruction ID (map (load w) metas) data = Ok accounts' ->
  exists i, i < length metas /\ effect (map (load w) metas) i accounts' /\
    owned_data (store accounts' w) (ai_key (acct i (map (load w) metas))) = Some (ai_data (acct i accounts')) /\
    (forall k, k <> ai_key (acct i (map (load w) metas)) -> owned_data (store accounts' w) k = owned_data w k).
Proof.
  intros (HN & HL & HI & i & Hi & HO & HE)%process_effect. rewrite length_map in *.
  assert (NoDup (map ai_key accounts')) as HN' by (by rewrite (same_id_keys (map (load w) metas)) by (rewrite ?length_map; done)).
  assert (forall j, j < length metas ->
    store accounts' w !! ai_key (acct j (map (load w) metas)) = Some (account_of (acct j accounts'))) as HS.
  { intros j Hj. rewrite <- (proj1 (HI j)). apply store_lookup; [done|lia]. }
  exists i. split_and!; [done | done | |].
  - rewrite (owned_data_account _ _ _ (HS i Hi)). rewrite bool_decide_eq_true_2; [done|].
    by destruct HE.
  - intros k Hk. destruct (decide (k ∈ map ai_key accounts')) as [Hin|Hin];
      [|unfold owned_data; by rewrite store_lookup_ne].
    apply list_elem_of_In, (In_nth _ _ (ai_key default_account)) in Hin as (j & Hj & Ej).
    rewrite map_nth in Ej. rewrite length_map, HL in Hj. change (ai_key (acct j accounts') = k) in Ej.
    rewrite (proj1 (HI j)) in Ej. subst k. rewrite (owned_data_account _ _ _ (HS j Hj)).
    destruct (HO j) as [Ho Hd]; [congruence|]. destruct (acct_load w metas j Hj) as [m Em].
    rewrite Em in *. rewrite load_key, owned_data_load, Ho.
    destruct (bool_decide_reflect (ai_owner (load w m) = ID)) as [Hid|]; [|done].
    destruct Hd as [->|Htok]; [done|]. rewrite Htok in Hid. by vm_compute in Hid.
Qed.

Lemma pool_at_data w w' k : owned_data w' k = owned_data w k -> pool_at w' k = pool_at w k.
Proof. unfold pool_at. by intros ->. Qed.

Lemma epoch_at_data w w' k : owned_data w' k = owned_data w k -> epoch_at w' k = epoch_at w k.
Proof. unfold epoch_at. by intros ->. Qed.

Lemma env_owned w w' k d : env_step w w' -> owned_data w k = Some d -> owned_data w' k = Some d.
Proof.
  intros [He _] (a & Ha & Ho & Hd)%owned_data_Some. apply owned_data_Some.
  destruct (He k a Ha Ho) as (a' & ? & ? & ?). exists a'. split_and!; congruence.
Qed.

(** The key of a freshly created account held no record of the program. *)
Lemma system_owned_None w metas i :
  i < length metas -> ai_owner (acct i (map (load w) metas)) = system_program_id ->
  owned_data w (ai_key (acct i (map (load w) metas))) = None.
Proof.
  intros Hi Ho. destruct (acct_load w metas i Hi) as [m Em]. rewrite Em in *.
  rewrite load_key, owned_data_load, Ho. by rewrite bool_decide_eq_false_2 by apply system_is_not_kageb.
Qed.

Lemma acct_owned w metas i :
  i < length metas -> ai_owner (acct i (map (load w) metas)) = ID ->
  owned_data w (ai_key (acct i (map (load w) metas))) = Some (ai_data (acct i (map (load w) metas))).
Proof.
  intros Hi Ho. destruct (acct_load w metas i Hi) as [m Em]. rewrite Em in *.
  rewrite load_key, owned_data_load, Ho. by rewrite bool_decide_eq_true_2.
Qed.

(** ** Pools never change *)

Lemma step_pool w w' k ps : step w w' -> pool_at w k = Some ps -> pool_at w' k = Some ps.
Proof.
  intros S (d & Hd & Hp)%pool_at_Some. destruct S as [w metas data accounts' E | w w' He].
  - apply program_step in E as (i & Hi & HE & _ & HO).
    destruct (decide (k = ai_key (acct i (map (load w) metas)))) as [->|Hk];
      [|rewrite (pool_at_data w) by (by apply HO); apply pool_at_Some; eauto].
    exfalso. destruct HE as [? Ho|? ? ? _ _ Ho|? ? ? ? ? _ _ _ Ho _ _ _ Hdec].
    1,2: rewrite (system_owned_None w metas i) in Hd by done; done.
    rewrite (acct_owned w metas i) in Hd by done. injection Hd as <-.
    by eapply pool_epoch_disjoint.
  - apply pool_at_Some. eauto using env_owned.
Qed.

Lemma steps_pool w w' k ps : steps w w' -> pool_at w k = Some ps -> pool_at w' k = Some ps.
Proof. induction 1; eauto using step_pool. Qed.

(** ** Epochs only move along the lifecycle *)

Lemma step_epoch w w' k es :
  step w w' -> epoch_at w k = Some es ->
  exists es', epoch_at w' k = Some es' /\
    (es' = es \/ exists ps now, pool_at w (ep_pool es) = Some ps /\ ledger_time w = Ok now /\ epoch_trans k ps now es es').
Proof.
  intros S (d & Hd & He)%epoch_at_Some. destruct S as [w metas data accounts' E | w w' Henv].
  - apply program_step in E as (i & Hi & HE & HI & HO).
    destruct (decide (k = ai_key (acct i (map (load w) metas)))) as [->|Hk];
      [|exists es; rewrite (epoch_at_data w) by (by apply HO); split; [apply epoch_at_Some; eauto | by left]].
    destruct HE as [? Ho|? ? ? _ _ Ho|j ps es0 es' now _ Hj Hclock Ho _ Hoj Hdp Hde Hv T Hd'].
    1,2: rewrite (system_owned_None w metas i) in Hd by done; done.
    rewrite length_map in Hj. rewrite (acct_owned w metas i) in Hd by done. injection Hd as <-.
    assert (es0 = es) as -> by congruence. exists es'. rewrite Hd' in HI. split.
    + apply epoch_at_Some. eexists. split; [exact HI|]. apply EpochStateV1_decode_encode.
      eapply epoch_trans_wf; [by eapply EpochStateV1_decode_wf | exact T].
    + right. exists ps, now. split_and!; [|by eapply reads_ledger_time | exact T]. destruct Hv as (-> & _).
      apply pool_at_Some. eexists. split; [by apply acct_owned | done].
  - exists es. split; [|by left]. apply epoch_at_Some. eauto using env_owned.
Qed.

(** ** The invariant of every account the program owns *)

Definition account_inv (w : World) (k : Pubkey) (d : list byte) : Prop :=
  d = zeros (length d) \/
  (exists ps, PoolStateV1_decode d = Ok ps /\ valid_pool k ps) \/
  (exists es ps, EpochStateV1_decode d = Ok es /\ pool_at w (ep_pool es) = Some ps /\
     valid_pool (ep_pool es) ps /\ epoch_inv k ps es).
Definition chain_inv (w : World) : Prop := forall k d, owned_data w k = Some d -> account_inv w k d.

Lemma account_inv_step w w' k d : step w w' -> account_inv w k d -> account_inv w' k d.
Proof.
  intros S [Hz|[Hp|(es & ps & He & Hp & Hv & HI)]]; [by left | by right; left | right; right].
  exists es, ps. split_and!; try done. by eapply step_pool.
Qed.

Lemma pool_decode_zeros n ps : PoolStateV1_decode (zeros n) = Ok ps -> False.
Proof.
  unfold PoolStateV1_decode. intros E. apply bind_Ok in E as (? & E & _).
  apply require_header_Ok in E as (Hl & Hd & _). rewrite length_zeros in Hl. by subst n.
Qed.

Lemma epoch_decode_zeros n es : EpochStateV1_decode (zeros n) = Ok es -> False.
Proof.
  unfold EpochStateV1_decode. intros E. apply bind_Ok in E as (? & E & _).
  apply require_header_Ok in E as (Hl & Hd & _). rewrite length_zeros in Hl. by subst n.
Qed.

Lemma chain_inv_epoch w k es :
  chain_inv w -> epoch_at w k = Some es ->
  exists ps, pool_at w (ep_pool es) = Some ps /\ valid_pool (ep_pool es) ps /\ epoch_inv k ps es.
Proof.
  intros HI (d & Hd & He)%epoch_at_Some. destruct (HI k d Hd) as [Hz|[(ps & Hp & _)|(es' & ps & He' & ?)]].
  - exfalso. rewrite Hz in He. by eapply epoch_decode_zeros.
  - exfalso. by eapply pool_epoch_disjoint.
  - assert (es' = es) as -> by congruence. naive_solver.
Qed.

Lemma chain_inv_pool w k ps : chain_inv w -> pool_at w k = Some ps -> valid_pool k ps.
Proof.
  intros HI (d & Hd & Hp)%pool_at_Some. destruct (HI k d Hd) as [Hz|[(ps' & Hp' & Hv)|(es & ? & He & _)]].
  - exfalso. rewrite Hz in Hp. by eapply pool_decode_zeros.
  - by assert (ps' = ps) as -> by congruence.
  - exfalso. by eapply pool_epoch_disjoint.
Qed.

Lemma chain_inv_step w w' : step w w' -> chain_inv w -> chain_inv w'.
Proof.
  intros S HI. pose proof S as S0. destruct S as [w metas data accounts' E | w w' Henv].
  - apply program_step in E as (i & Hi & HE & HD & HO). intros k d Hd.
    destruct (decide (k = ai_key (acct i (map (load w) metas)))) as [->|Hk].
    2:{ rewrite HO in Hd by done. eapply account_inv_step; eauto. }
    rewrite HD in Hd. injection Hd as <-.
    destruct HE as [ps _ _ Hv W ->|j ps args _ Hj Hso _ Ho Hdp Hv W ->|j ps es es' now _ Hj _ Hoi _ Ho Hdp Hde Hv T ->].
    + right; left. exists ps. split; [by apply PoolStateV1_decode_encode | done].
    + right; right. rewrite length_map in Hj.
      assert (pool_at w (ai_key (acct j (map (load w) metas))) = Some ps) as Hpa
        by (apply pool_at_Some; eexists; split; [by apply acct_owned | done]).
      exists (new_epoch (ai_key (acct j (map (load w) metas))) (ai_key (acct i (map (load w) metas))) ps args), ps. split_and!;
        [by apply EpochStateV1_decode_encode | by eapply step_pool | by eapply chain_inv_pool | by apply new_epoch_inv].
    + right; right. rewrite length_map in Hj.
      assert (epoch_at w (ai_key (acct i (map (load w) metas))) = Some es) as Hea
        by (apply epoch_at_Some; eexists; split; [by apply acct_owned | done]).
      destruct (chain_inv_epoch _ _ _ HI Hea) as (ps' & Hp' & Hvp & Hinv).
      assert (ps' = ps) as ->.
      { destruct Hv as (Hpe & _). rewrite Hpe in Hp'. apply pool_at_Some in Hp' as (d' & Hd' & Hdec').
        rewrite acct_owned in Hd' by done. congruence. }
      exists es', ps. rewrite (epoch_trans_pool _ _ _ _ _ T). split_and!; [|by eapply step_pool | done |].
      * apply EpochStateV1_decode_encode. eapply epoch_trans_wf; [by eapply EpochStateV1_decode_wf | exact T].
      * by eapply epoch_trans_inv.
  - intros k d Hd. apply owned_data_Some in Hd as (a' & Ha' & Ho' & Hd').
    destruct (proj2 Henv k a' Ha' Ho') as [(a & Ha & Ho)|Hz]; [|left; by subst d].
    assert (owned_data w k = Some (acc_data a)) as Hw by (apply owned_data_Some; eauto).
    eapply account_inv_step; [exact S0|]. apply HI. rewrite Hw.
    pose proof (env_owned _ _ _ _ Henv Hw) as Hw'. apply owned_data_Some in Hw' as (a'' & E & _ & Ed).
    congruence.
Qed.

Lemma reachable_inv w : reachable w -> chain_inv w.
Proof.
  intros (w0 & Hg & Hs). induction Hs as [w|w w1 w2 Hs IH S].
  - intros k d (a & Ha & Ho & _)%owned_data_Some. by destruct (Hg k a Ha).
  - eapply chain_inv_step; eauto.
Qed.
End invariants.
