(* ===== verification/Runtime.v ===== *)
(** * A concrete runtime

    An executable instance of the external functions (hash, addresses, sysvars, system and token
    programs) that satisfies the laws of [Chain], and a concrete pool, epoch and settlement that
    runs on it.  It shows that the hypotheses of the theorems hold together and evaluates the
    handlers on real bytes. *)

From S2P Require Import Prelude Bytes Extern ProgramWire ProgramState ProgramInstruction Ed25519.
From S2P Require Import Processor ProcessorProps Chain.

(** [to_arr l]: 32 bytes as a key, zero if the length is wrong. *)
Definition to_arr (l : list byte) : bytes32 := default zero32 (try_into 32 l).

(** A stand-in hash: the first 32 bytes of the message, zero padded. *)
Definition toy_hash (l : list byte) : bytes32 := to_arr (take 32 (l ++ zeros 32)).
Definition toy_sha : Sha256 := toy_hash.

Definition key (b : byte) : Pubkey := filled 32 b.

Definition cells_of (a : AccountInfo) : AccountCells :=
  {| ac_lamports := ai_lamports a; ac_owner := ai_owner a; ac_data := ai_data a |}.

(** The system program: tag 0 transfers lamports, 1 allocates, 2 assigns. *)
Definition toy_system (keys : list Pubkey) (data : list byte) (infos : list AccountInfo) : list AccountCells :=
  let target := nth 0 keys zero32 in
  let n := le_val (slice_from 1 data) in
  match byte_at 0 data with
  | x00 => map (fun a =>
      {| ac_lamports := if ai_key a == target then (ai_lamports a - n)%Z
                        else if ai_key a == nth 1 keys zero32 then (ai_lamports a + n)%Z else ai_lamports a;
         ac_owner := ai_owner a; ac_data := ai_data a |}) infos
  | x01 => map (fun a =>
      {| ac_lamports := ai_lamports a; ac_owner := ai_owner a;
         ac_data := if ai_key a == target then zeros (Z.to_nat n) else ai_data a |}) infos
  | _ => map (fun a =>
      {| ac_lamports := ai_lamports a;
         ac_owner := if ai_key a == target then to_arr (slice_from 1 data) else ai_owner a;
         ac_data := ai_data a |}) infos
  end.

Definition set_amount (v : Z) (a : AccountInfo) : AccountCells :=
  {| ac_lamports := ai_lamports a; ac_owner := ai_owner a; ac_data := put_at 64 (le_bytes 8 v) (ai_data a) |}.

(** The token program: a checked transfer, authorised by a signer or by seeds. *)
Definition toy_token (data : list byte) (infos : list AccountInfo) (seeds : list (list (list byte)))
  : result ProgramError (list AccountCells) :=
  match infos with
  | [s; m; d; a; t] =>
      let amount := le_val (slice_from 1 data) in
      if (token_amount s <? amount)%Z || (2 ^ 64 <=? token_amount d + amount)%Z
         || negb (ai_is_signer a || match seeds with [] => false | _ => true end)
      then Err (Custom 1)
      else Ok [set_amount (token_amount s - amount) s; cells_of m; set_amount (token_amount d + amount) d;
               cells_of a; cells_of t]
  | _ => Err (Builtin 1)
  end.

Definition toy_invoke (ix : Instruction) (infos : list AccountInfo) (seeds : list (list (list byte)))
  : result ProgramError (list AccountCells) :=
  if ix_program_id ix == zero32 then Ok (toy_system (map am_pubkey (ix_accounts ix)) (ix_data ix) infos)
  else if ix_program_id ix == TOKEN_PROGRAM_ID then toy_token (ix_data ix) infos seeds
  else Err (Builtin 2).

Definition toy_ix (program : Pubkey) (keys : list Pubkey) (data : list byte) : Instruction :=
  {| ix_program_id := program; ix_accounts := map (fun k => AccountMeta_new k false) keys; ix_data := data |}.

(** The instructions sysvar: a count, then 64-byte entries of key and digest, each an instruction
    of the native verifier. *)
Definition toy_instruction (i : nat) (a : AccountInfo) : result ProgramError Instruction :=
  if i <? Z.to_nat (u8_at 0 (ai_data a)) then
    Ok {| ix_program_id := key x03; ix_accounts := [];
          ix_data := strict_header ++ slice (1 + 64 * i) (33 + 64 * i) (ai_data a) ++ zeros 64
                     ++ slice (33 + 64 * i) (65 + 64 * i) (ai_data a) |}
  else Err (Builtin 3).

Definition toy_solana : Solana := {|
  system_program_id := zero32;
  clock_sysvar_id := key x01;
  instructions_sysvar_id := key x02;
  ed25519_program_id := key x03;
  find_program_address seeds program := (toy_hash (concat seeds ++ program), 255%Z);
  clock_unix_timestamp a := Ok (i64_val (slice 32 40 (ai_data a)));
  rent_minimum_balance n := Ok (Z.of_nat n * 10)%Z;
  load_current_index_checked a := Ok (u8_at 0 (ai_data a));
  load_instruction_at_checked := toy_instruction;
  system_transfer from to n := toy_ix zero32 [from; to] (x00 :: le_bytes 8 n);
  system_allocate k n := toy_ix zero32 [k] (x01 :: le_bytes 8 n);
  system_assign k owner := toy_ix zero32 [k] (x02 :: (owner : list byte));
  spl_transfer_checked program src mint dst auth amount decimals :=
    if (0 <=? amount)%Z && (amount <? 2 ^ 64)%Z
    then Ok {| ix_program_id := program;
               ix_accounts := [AccountMeta_new src false; AccountMeta_new_readonly mint false; AccountMeta_new dst false; AccountMeta_new_readonly auth true];
               ix_data := x03 :: le_bytes 8 amount |}
    else Err (Builtin 4);
  invoke_signed := toy_invoke;
|}.

Lemma Forall2_map_r {A B} (P : A -> B -> Prop) (f : A -> B) l : (forall x, P x (f x)) -> Forall2 P l (map f l).
Proof. intros HP. induction l; cbn; constructor; auto. Qed.

Lemma toy_system_laws : @SystemLaws toy_solana.
Proof.
  split.
  - intros. unfold u8_ok. cbn. lia.
  - cbn. intros E. apply (f_equal (fun k : Pubkey => byte_at 0 k)) in E. vm_compute in E. discriminate.
  - intros. cbn in H. injection H as <-. apply Forall2_map_r. by intros.
  - intros. cbn in H. injection H as <-. apply Forall2_map_r. intros a Ha. split; [done|]. cbn.
    by rewrite bool_decide_eq_false_2.
  - intros. cbn in H. injection H as <-. apply Forall2_map_r. intros a Ha. split; [|done]. cbn.
    by rewrite bool_decide_eq_false_2.
Qed.

Lemma toy_token_laws : @TokenLaws toy_solana.
Proof.
  intros src mint dst auth amount decimals ix s m d a t seeds cells Hix _ _ _ Hi. cbn -[le_bytes] in Hix, Hi.
  destruct ((0 <=? amount)%Z && (amount <? 2 ^ 64)%Z) eqn:Ha; [|done]. bguard.
  apply Ok_inj in Hix as <-.
  unfold toy_invoke in Hi. cbn [ix_program_id toy_ix ix_data] in Hi.
  rewrite (bool_decide_eq_false_2 (TOKEN_PROGRAM_ID = zero32)) in Hi
    by (intros E; apply (f_equal (fun k : Pubkey => byte_at 0 k)) in E; vm_compute in E; discriminate).
  rewrite bool_decide_eq_true_2 in Hi by done. unfold toy_token in Hi. cbv zeta in Hi.
  change (slice_from 1 (x03 :: le_bytes 8 amount)) with (le_bytes 8 amount) in Hi.
  rewrite le_val_u64 in Hi by (unfold u64_ok; lia). inv_ok. subst cells. bguard.
  split_and!; try lia. eexists _, _, _, _, _. done.
Qed.

(** ** A concrete pool, epoch and settlement *)

#[local] Existing Instance toy_sha.
#[local] Existing Instance toy_solana.
#[local] Existing Instance toy_system_laws.
#[local] Existing Instance toy_token_laws.

Definition operator_key : Pubkey := key x10.
Definition payer_key : Pubkey := key x11.
Definition base_mint_key : Pubkey := key x12.
Definition quote_mint_key : Pubkey := key x13.
Definition pool_base_key : Pubkey := key x14.
Definition pool_quote_key : Pubkey := key x15.
Definition venue_key : Pubkey := key x16.
Definition venue_base_key : Pubkey := key x17.
Definition venue_quote_key : Pubkey := key x18.
Definition keypers3 : Pubkey * Pubkey * Pubkey := (key x21, key x22, key x23).
Definition pool_key : Pubkey := Eval vm_compute in fst (pool_address operator_key base_mint_key quote_mint_key).
Definition vault_key : Pubkey := Eval vm_compute in fst (vault_authority_address pool_key).
Definition epoch_id0 : bytes32 := key x31.
Definition epoch_key : Pubkey := Eval vm_compute in fst (epoch_address pool_key epoch_id0).

Definition info (k : Pubkey) (s w x : bool) (owner : Pubkey) (lamports : Z) (data : list byte) : AccountInfo :=
  {| ai_key := k; ai_is_signer := s; ai_is_writable := w; ai_executable := x; ai_owner := owner;
     ai_lamports := lamports; ai_data := data |}.

Definition mint_data : list byte := zeros 44 ++ [x00; x01] ++ zeros 36.
Definition token_data (mint authority : Pubkey) (amount : Z) : list byte :=
  (mint : list byte) ++ (authority : list byte) ++ le_bytes 8 amount ++ zeros 36 ++ [x01] ++ zeros 56.
Definition clock_data (now : Z) : list byte := zeros 32 ++ le_bytes 8 now.
Definition sigs_data (entries : list (Pubkey * bytes32)) : list byte :=
  byte_of (Z.of_nat (length entries)) ::
  concat (map (fun e : Pubkey * bytes32 => (fst e : list byte) ++ (snd e : list byte)) entries).

Definition signer0 (k : Pubkey) (w : bool) : AccountInfo := info k true w false zero32 5000 [].
Definition mint0 (k : Pubkey) : AccountInfo := info k false false false TOKEN_PROGRAM_ID 10 mint_data.
Definition program0 (k : Pubkey) : AccountInfo := info k false false true (key xfe) 1 [].
Definition clock0 (now : Z) : AccountInfo := info (key x01) false false false (key xff) 1 (clock_data now).
Definition sigs0 (entries : list (Pubkey * bytes32)) : AccountInfo :=
  info (key x02) false false false (key xff) 1 (sigs_data entries).
Definition token0 (k mint authority : Pubkey) (w : bool) (amount : Z) : AccountInfo :=
  info k false w false TOKEN_PROGRAM_ID 10 (token_data mint authority amount).

Definition accounts_of (r : result ProgramError (list AccountInfo)) : list AccountInfo :=
  match r with Ok l => l | Err _ => [] end.

Definition init_accounts : list AccountInfo :=
  [signer0 payer_key true; signer0 operator_key false;
   info pool_key false true false zero32 100 []; info vault_key false false false zero32 0 [];
   mint0 base_mint_key; mint0 quote_mint_key;
   token0 pool_base_key base_mint_key vault_key false 1000;
   token0 pool_quote_key quote_mint_key vault_key false 90000;
   info venue_key false false false zero32 0 [];
   token0 venue_base_key base_mint_key venue_key false 1000;
   token0 venue_quote_key quote_mint_key venue_key false 90000;
   program0 zero32; program0 TOKEN_PROGRAM_ID].
Definition init_args : InitializePoolArgs :=
  {| ia_lock_threshold := 2; ia_settlement_threshold := 2; ia_base_lot_atoms := 10; ia_keypers := keypers3 |}.
Definition init_result : list AccountInfo :=
  accounts_of (initialize_pool ID init_accounts init_args).

(** The pool and epoch accounts as the handlers leave them, with the flags of the next call. *)
Definition pool_bytes : list byte := Eval vm_compute in ai_data (acct 2 init_result).
Definition pool_account : AccountInfo := info pool_key false false false ID 3840 pool_bytes.

Definition create_accounts : list AccountInfo :=
  [signer0 payer_key true; signer0 operator_key false; pool_account;
   info epoch_key false true false zero32 0 []; program0 zero32; clock0 1000].
Definition create_args : CreateEpochArgs :=
  {| ca_epoch_id := epoch_id0; ca_minimum_count := 4; ca_quote_atoms_per_lot := 100;
     ca_lock_deadline := 2000; ca_abort_deadline := 3000 |}.
Definition create_result : list AccountInfo :=
  accounts_of (create_epoch ID create_accounts create_args).
Definition open_bytes : list byte := Eval vm_compute in ai_data (acct 3 create_result).
Definition epoch_account (data : list byte) : AccountInfo := info epoch_key false true false ID 3840 data.

Definition open_state : EpochStateV1 :=
  new_epoch pool_key epoch_key (new_pool init_accounts init_args) create_args.
Definition lock_payload0 : LockPayloadV1 :=
  {| lp_epoch_account := epoch_key; lp_configuration_hash := ep_configuration_hash open_state;
     lp_pre_balance_root := key x41; lp_member_root := key x42; lp_member_count := 5;
     lp_lock_deadline := 2000; lp_lock_nonce := key x43 |}.
Definition lock_accounts : list AccountInfo :=
  [signer0 payer_key false; pool_account; epoch_account open_bytes;
   sigs0 [(key x21, LockPayloadV1_digest lock_payload0); (key x23, LockPayloadV1_digest lock_payload0)];
   clock0 1500].
Definition lock_result : list AccountInfo :=
  accounts_of (lock ID lock_accounts lock_payload0).

Definition locked_bytes : list byte := Eval vm_compute in ai_data (acct 2 lock_result).

(** The pool buys two lots from the venue. *)
Definition compact0 : CompactSettlementPayload :=
  {| cs_result_commitment := key x51; cs_residual_side := 1; cs_residual_lots := 2;
     cs_settlement_nonce := key x52 |}.
Definition settlement0 : SettlementPayloadV1 :=
  full_payload epoch_key (new_pool init_accounts init_args)
    (set_locked open_state lock_payload0 (LockPayloadV1_digest lock_payload0)) compact0.
Definition settle_accounts : list AccountInfo :=
  [signer0 payer_key false; pool_account; epoch_account locked_bytes;
   info vault_key false false false zero32 0 [];
   token0 pool_base_key base_mint_key vault_key true 1000;
   token0 pool_quote_key quote_mint_key vault_key true 90000;
   info venue_key true false false zero32 0 [];
   token0 venue_base_key base_mint_key venue_key true 1000;
   token0 venue_quote_key quote_mint_key venue_key true 90000;
   mint0 base_mint_key; mint0 quote_mint_key; program0 TOKEN_PROGRAM_ID;
   sigs0 [(key x22, SettlementPayloadV1_digest settlement0); (key x23, SettlementPayloadV1_digest settlement0)];
   clock0 2500].
Definition settle_result : list AccountInfo :=
  accounts_of (settle_compact ID settle_accounts compact0).

Definition terminal_accounts (epoch_data : list byte) (now : Z) : list AccountInfo :=
  [signer0 payer_key false; pool_account; epoch_account epoch_data; clock0 now].

Example initialize_pool_runs : initialize_pool ID init_accounts init_args = Ok init_result.
Proof. vm_compute. reflexivity. Qed.
Example create_epoch_runs : create_epoch ID create_accounts create_args = Ok create_result.
Proof. vm_compute. reflexivity. Qed.
Example lock_runs : lock ID lock_accounts lock_payload0 = Ok lock_result.
Proof. vm_compute. reflexivity. Qed.
Example settle_runs : settle_compact ID settle_accounts compact0 = Ok settle_result.
Proof. vm_compute. reflexivity. Qed.
Example settle_moves_tokens :
  holdings settle_result = {| pool_base := 1020; pool_quote := 89800; venue_base := 980; venue_quote := 90200 |}.
Proof. vm_compute. reflexivity. Qed.
Example expire_runs :
  is_ok (expire_or_abort ID (terminal_accounts open_bytes 2001) false) = true.
Proof. vm_compute. reflexivity. Qed.
Example abort_runs :
  is_ok (expire_or_abort ID (terminal_accounts locked_bytes 3001) true) = true.
Proof. vm_compute. reflexivity. Qed.
