(* ===== verification/Scenario.v ===== *)
(** * A complete execution

    One pool, one epoch: initialised, opened, locked and settled on a ledger, with clock and
    signature sysvars updated in between.  Every state of it is reachable in the sense of
    [Lifecycle], by evaluation. *)

From S2P Require Import Prelude Bytes Extern ProgramWire ProgramState ProgramInstruction Ed25519.
From S2P Require Import Processor ProcessorProps Chain Lifecycle Runtime.

#[local] Existing Instance toy_sha.
#[local] Existing Instance toy_solana.
#[local] Existing Instance toy_system_laws.
#[local] Existing Instance toy_token_laws.

Definition metas_of (l : list AccountInfo) : list AccountMeta :=
  map (fun a => {| am_pubkey := ai_key a; am_is_signer := ai_is_signer a; am_is_writable := ai_is_writable a |}) l.

(** One successful instruction on the ledger. *)
Definition run (w : World) (metas : list AccountMeta) (data : list byte) : World :=
  store (accounts_of (process_instruction ID (map (load w) metas) data)) w.

Lemma run_step w metas data :
  is_ok (process_instruction ID (map (load w) metas) data) = true -> step w (run w metas data).
Proof.
  intros E. unfold run. destruct (process_instruction _ _ _) as [a|] eqn:E'; [|done].
  by apply (step_program w metas data).
Qed.

Lemma store_lookup_in l w k : k ∈ map ai_key l -> exists a, a ∈ l /\ store l w !! k = Some (account_of a).
Proof.
  induction l as [|a l IH]; cbn [map]; intros Hk; [set_solver|]. rewrite store_cons.
  destruct (decide (ai_key a = k)) as [->|Hne].
  - exists a. split; [set_solver | apply lookup_insert_eq].
  - destruct IH as (b & Hb & E); [set_solver|]. exists b. split; [set_solver|].
    by rewrite lookup_insert_ne.
Qed.

(** Updating accounts that are not the program's, sysvars for instance. *)
Definition foreign (w : World) (l : list AccountInfo) : bool :=
  forallb (fun a => (ai_owner a != ID) && (owned_data w (ai_key a) == None)) l.

Lemma foreign_env w l : foreign w l = true -> env_step w (store l w).
Proof.
  intros Hf. unfold foreign in Hf. rewrite forallb_forall in Hf.
  assert (forall a, a ∈ l -> ai_owner a <> ID /\ owned_data w (ai_key a) = None) as Ha.
  { intros a Hin. apply list_elem_of_In, Hf in Hin. by bguard. }
  split.
  - intros k a Hk Ho. exists a. split_and!; try done. rewrite store_lookup_ne; [done|].
    intros Hin. apply list_elem_of_In, in_map_iff in Hin as (b & <- & Hb).
    apply list_elem_of_In, Ha in Hb as [_ Hn]. unfold owned_data in Hn.
    rewrite Hk, bool_decide_eq_true_2 in Hn by done. done.
  - intros k a' Hk Ho. destruct (decide (k ∈ map ai_key l)) as [Hin|Hin].
    + destruct (store_lookup_in l w k Hin) as (b & Hb & E). rewrite E in Hk. injection Hk as <-.
      by destruct (Ha b Hb).
    + rewrite store_lookup_ne in Hk by done. left. eauto.
Qed.

Lemma genesis_empty : genesis ∅.
Proof. intros k a E. by rewrite lookup_empty in E. Qed.

Lemma genesis_store l w :
  forallb (fun a => ai_owner a != ID) l = true -> genesis w -> genesis (store l w).
Proof.
  intros Hf Hg k a Hk. rewrite forallb_forall in Hf.
  destruct (decide (k ∈ map ai_key l)) as [Hin|Hin].
  - destruct (store_lookup_in l w k Hin) as (b & Hb & E). rewrite E in Hk. injection Hk as <-. cbn.
    apply list_elem_of_In, Hf in Hb. by bguard.
  - rewrite store_lookup_ne in Hk by done. by eapply Hg.
Qed.

(** ** The ledgers of the execution *)

Definition world0 : World := store (init_accounts ++ [clock0 1000; sigs0 []]) ∅.
Definition world1 : World :=
  run world0 (metas_of init_accounts) (KagebInstruction_encode (InitializePool init_args)).
Definition world2 : World :=
  run world1 (metas_of create_accounts) (KagebInstruction_encode (CreateEpoch create_args)).
Definition lock_sysvars : list AccountInfo := [acct 3 lock_accounts; acct 4 lock_accounts].
Definition world3 : World := store lock_sysvars world2.
Definition world4 : World :=
  run world3 (metas_of lock_accounts) (KagebInstruction_encode (Lock lock_payload0)).
Definition settle_sysvars : list AccountInfo := [acct 12 settle_accounts; acct 13 settle_accounts].
Definition world5 : World := store settle_sysvars world4.
Definition world6 : World :=
  run world5 (metas_of settle_accounts) (KagebInstruction_encode (Settle compact0)).

Definition epoch_in (w : World) : EpochStateV1 := default open_state (epoch_at w epoch_key).
Definition pool_in (w : World) : PoolStateV1 := default (new_pool init_accounts init_args) (pool_at w pool_key).

Lemma step01 : step world0 world1.
Proof. apply run_step. vm_compute. reflexivity. Qed.
Lemma step12 : step world1 world2.
Proof. apply run_step. vm_compute. reflexivity. Qed.
Lemma step23 : step world2 world3.
Proof. apply step_env, foreign_env. vm_compute. reflexivity. Qed.
Lemma step34 : step world3 world4.
Proof. apply run_step. vm_compute. reflexivity. Qed.
Lemma step45 : step world4 world5.
Proof. apply step_env, foreign_env. vm_compute. reflexivity. Qed.
Lemma step56 : step world5 world6.
Proof. apply run_step. vm_compute. reflexivity. Qed.

Lemma steps04 : steps world0 world4.
Proof.
  exact (steps_step _ world3 world4 (steps_step _ world2 world3 (steps_step _ world1 world2
    (steps_step _ world0 world1 (steps_refl world0) step01) step12) step23) step34).
Qed.
Lemma steps26 : steps world2 world6.
Proof.
  exact (steps_step _ world5 world6 (steps_step _ world4 world5 (steps_step _ world3 world4
    (steps_step _ world2 world3 (steps_refl world2) step23) step34) step45) step56).
Qed.
Lemma reachable4 : reachable world4.
Proof.
  exists world0. split; [|apply steps04]. apply genesis_store; [vm_compute; reflexivity | apply genesis_empty].
Qed.

Lemma epoch_at4 : epoch_at world4 epoch_key = Some (epoch_in world4).
Proof. vm_compute. reflexivity. Qed.
Lemma epoch_at5 : epoch_at world5 epoch_key = Some (epoch_in world5).
Proof. vm_compute. reflexivity. Qed.
Lemma epoch_at6 : epoch_at world6 epoch_key = Some (epoch_in world6).
Proof. vm_compute. reflexivity. Qed.
Lemma pool_at2 : pool_at world2 pool_key = Some (pool_in world2).
Proof. vm_compute. reflexivity. Qed.
Lemma settled6 : terminal_state (epoch_in world6) = Settled.
Proof. vm_compute. reflexivity. Qed.
(** Afterwards anyone may update the clock; the settled record stays. *)
Definition world7 : World := store [clock0 9000] world6.
Lemma steps67 : steps world6 world7.
Proof.
  apply (steps_step world6 world6); [apply steps_refl|].
  apply step_env, foreign_env. vm_compute. reflexivity.
Qed.
