(* ===== verification/ProgramClaims.v ===== *)
(** * The on-chain program: main theorems

    The properties that make the program correct, each with a witness on the concrete runtime. *)

From S2P Require Import Prelude Bytes Extern ProgramWire ProgramState ProgramInstruction Ed25519.
From S2P Require Import Processor ProcessorProps Chain Lifecycle Runtime Scenario.

Section chain_claims.
Context `{Sha256, Solana, !SystemLaws, !TokenLaws}.

(** C2 (refinement).  Every step of the ledger, by the program or by anyone else, either leaves an
    epoch record unchanged or moves it along the abstract lifecycle at the time the clock sysvar of
    that very ledger holds (open to locked before the lock deadline, open to expired after it,
    locked to settled up to the abort deadline, locked to aborted after it), with all the terms it
    was opened with unchanged. *)
Theorem epoch_refines_lifecycle w w' k es :
  step w w' -> epoch_at w k = Some es ->
  exists es', epoch_at w' k = Some es' /\
    (es' = es \/
     exists now, ledger_time w = Ok now /\
       lifecycle (ep_lock_deadline es) (ep_abort_deadline es) now (terminal_state es) (terminal_state es') /\
       same_terms es es').
Proof.
  intros S E. destruct (step_epoch w w' k es S E) as (es' & E' & T). exists es'. split; [done|].
  destruct T as [->|(ps & now & _ & Hnow & T)]; [by left | right]. exists now. split; [done|]. by eapply epoch_trans_lifecycle.
Qed.

(** C15 (invariant).  In every reachable ledger, an epoch record is at the address derived from its
    pool and id, commits to its configuration, and is consistent with its phase: an open or
    expired epoch holds no lock, a locked or aborted one holds a lock of at least four members
    whose digest is the digest of the stored fields, and a settled one also holds a valid
    residual under a fresh nonce with the matching settlement digest. *)
Theorem reachable_epoch_invariant w k es :
  reachable w -> epoch_at w k = Some es ->
  exists ps, pool_at w (ep_pool es) = Some ps /\ valid_pool (ep_pool es) ps /\ epoch_inv k ps es.
Proof. intros R E. apply (chain_inv_epoch w); [by apply reachable_inv | done]. Qed.

(**  Settled, expired and aborted are final: from then on no execution of any length
    changes a single field of the record. *)
Theorem terminal_epochs_frozen w w' k es :
  steps w w' -> epoch_at w k = Some es ->
  terminal_state es = Settled \/ terminal_state es = Expired \/ terminal_state es = Aborted ->
  epoch_at w' k = Some es.
Proof.
  intros S E T. induction S as [w|w w1 w2 S IH S1]; [done|].
  destruct (step_epoch w1 w2 k es S1 (IH E)) as (es' & E' & [->|(ps & now & _ & _ & Tr)]); [done|].
  apply epoch_trans_lifecycle in Tr as [L _]. destruct T as [T|[T|T]]; rewrite T in L; inversion L.
Qed.

(** A pool record never changes once written: thresholds, keypers, mints, vaults and
    venue are fixed for the life of the pool. *)
Theorem pools_immutable w w' k ps :
  steps w w' -> pool_at w k = Some ps -> pool_at w' k = Some ps.
Proof. apply steps_pool. Qed.

(** C3 (functional).  A successful settlement moves exactly the signed residual: the four token
    balances change as [settle_holdings] says for [lots * base_lot_atoms] base and
    [lots * quote_atoms_per_lot] quote atoms, without overflow, the total of each token over pool
    and venue is unchanged, and no other account's data changes except the epoch record. *)
Theorem settle_moves_exact_residual accounts c accounts' :
  settle_compact ID accounts c = Ok accounts' ->
  exists es, EpochStateV1_decode (ai_data (acct 2 accounts)) = Ok es /\
    let b := (ep_base_lot_atoms es * cs_residual_lots c)%Z in
    let q := (ep_quote_atoms_per_lot es * cs_residual_lots c)%Z in
    (b < 2 ^ 64)%Z /\ (q < 2 ^ 64)%Z /\
    settle_holdings (cs_residual_side c) b q (holdings accounts) = Some (holdings accounts') /\
    (pool_base (holdings accounts') + venue_base (holdings accounts')
      = pool_base (holdings accounts) + venue_base (holdings accounts))%Z /\
    (pool_quote (holdings accounts') + venue_quote (holdings accounts')
      = pool_quote (holdings accounts) + venue_quote (holdings accounts))%Z /\
    forall j, j ∉ [2; 4; 5; 7; 8] -> ai_data (acct j accounts') = ai_data (acct j accounts).
Proof. apply settle_compact_moves. Qed.

(** C16 (safety).  An epoch is locked only with the approval of two different keypers of its pool:
    each has a strict native Ed25519 instruction over the digest of exactly this payload earlier
    in the same transaction, before the deadline, for at least the minimum crowd of four. *)
Theorem lock_needs_quorum accounts payload accounts' :
  lock ID accounts payload = Ok accounts' ->
  exists ps es now,
    epoch_ctx ID accounts ps es /\
    quorum_signed (acct 3 accounts) (pl_keypers ps) (LockPayloadV1_digest payload) /\
    clock_unix_timestamp (acct 4 accounts) = Ok now /\ (now < ep_lock_deadline es)%Z /\
    (4 <= ep_minimum_count es <= lp_member_count payload)%Z.
Proof.
  intros E. apply lock_Ok in E as (ps & es & now & n & _ & Hctx & _ & Hnow & Hd & Hm & Hc & Hn & _).
  exists ps, es, now. pose proof Hctx as (_ & _ & _ & _ & _ & Hvp & _ & (_ & _ & H4 & _)).
  destruct Hm as (_ & _ & _ & _ & _ & _ & Hmin). split_and!; try done; try lia. by eapply quorum_of_count.
Qed.

(** C17 (safety).  An epoch is settled only with the approval of two different keypers over the
    digest of the payload rebuilt from the program's own records, with the venue authority's
    signature, up to the abort deadline, and with the pool's own vaults and the recorded venue
    accounts. *)
Theorem settle_needs_quorum accounts c accounts' :
  settle_compact ID accounts c = Ok accounts' ->
  exists ps es now,
    epoch_ctx ID accounts ps es /\ settle_custody accounts ps /\
    ai_is_signer (acct 6 accounts) = true /\
    quorum_signed (acct 12 accounts) (pl_keypers ps)
      (SettlementPayloadV1_digest (full_payload (ai_key (acct 2 accounts)) ps es c)) /\
    clock_unix_timestamp (acct 13 accounts) = Ok now /\ (now <= ep_abort_deadline es)%Z.
Proof.
  intros E. apply settle_compact_Ok in E as (ps0 & es0 & _ & Hp0 & He0 & E).
  apply settle_Ok in E as (ps & es & now & n & acc1 & Hf & Hctx & Hcu & _ & Hnow & Hd & _ & Hc & Hn & _).
  pose proof Hctx as (_ & _ & _ & _ & Hp & Hvp & He & _).
  assert (es0 = es) as -> by congruence. assert (ps0 = ps) as -> by congruence.
  exists ps, es, now. split_and!; try done; [apply Hf | by eapply quorum_of_count].
Qed.
End chain_claims.

Section handler_claims.
Context `{Sha256, Solana}.

Lemma settle_flags_same_id accounts accounts' :
  length accounts' = length accounts -> (forall j, same_id (acct j accounts') (acct j accounts)) ->
  settle_flags accounts -> settle_flags accounts'.
Proof.
  intros Hl HI Hf. unfold settle_flags, flags_are in *.
  pose proof (HI 0) as (_ & -> & -> & ->). pose proof (HI 1) as (_ & -> & -> & ->).
  pose proof (HI 2) as (_ & -> & -> & ->). pose proof (HI 3) as (_ & -> & -> & ->).
  pose proof (HI 4) as (_ & -> & -> & ->). pose proof (HI 5) as (_ & -> & -> & ->).
  pose proof (HI 6) as (_ & -> & -> & ->). pose proof (HI 7) as (_ & -> & -> & ->).
  pose proof (HI 8) as (_ & -> & -> & ->). pose proof (HI 9) as (_ & -> & -> & ->).
  pose proof (HI 10) as (_ & -> & -> & ->). pose proof (HI 11) as (-> & -> & -> & ->).
  pose proof (HI 12) as (-> & -> & -> & ->). pose proof (HI 13) as (-> & -> & -> & ->).
  rewrite Hl. exact Hf.
Qed.

(**  Lock, completely: it succeeds exactly when the accounts have the required
    flags and addresses, pool and epoch validate, the epoch is open, the clock is before the lock
    deadline, the payload names this epoch, its configuration and deadline with nonzero roots and
    nonce and enough members, and at least two keypers signed; the result writes the lock into the
    epoch record and changes nothing else. *)
Theorem lock_succeeds_iff accounts payload accounts' :
  lock ID accounts payload = Ok accounts' <->
  exists ps es now n,
    lock_flags accounts /\ epoch_ctx ID accounts ps es /\ terminal_state es = Open /\
    clock_unix_timestamp (acct 4 accounts) = Ok now /\ (now < ep_lock_deadline es)%Z /\
    lock_payload_matches payload (ai_key (acct 2 accounts)) es /\
    count_preceding_keypers (acct 3 accounts) (pl_keypers ps) (LockPayloadV1_digest payload) = Ok n /\
    (2 <= n)%Z /\
    accounts' = <[2 := with_data (acct 2 accounts)
      (EpochStateV1_encode (set_locked es payload (LockPayloadV1_digest payload)))]> accounts.
Proof. apply lock_Ok. Qed.

(**  Expire and abort, completely: they succeed exactly on an open (locked)
    epoch strictly after its lock (abort) deadline, and then change only the state byte of the
    epoch record: no token account, no lamports, no other field. *)
Theorem expire_or_abort_succeeds_iff accounts abort accounts' :
  expire_or_abort ID accounts abort = Ok accounts' <->
  exists ps es now,
    terminal_flags accounts /\ epoch_ctx ID accounts ps es /\
    clock_unix_timestamp (acct 3 accounts) = Ok now /\
    terminal_state es = (if abort then Locked else Open) /\
    ((if abort then ep_abort_deadline es else ep_lock_deadline es) < now)%Z /\
    accounts' = <[2 := with_data (acct 2 accounts)
      (set_at 10 (byte_of (if abort then 5 else 4)) (ai_data (acct 2 accounts)))]> accounts.
Proof.
  rewrite expire_or_abort_Ok.
  assert (forall ps es (t : EpochTerminalState), epoch_ctx ID accounts ps es ->
    EpochStateV1_encode (set_terminal es t)
    = set_at 10 (byte_of (EpochTerminalState_as_u8 t)) (ai_data (acct 2 accounts))) as Hset.
  { intros ps es t (_ & _ & _ & _ & _ & _ & He & _). apply EpochStateV1_encode_decode in He. rewrite <- He.
    apply encode_set_terminal. }
  split; intros (ps & es & now & Hf & Hctx & Hnow & Ht & Hd & ->); exists ps, es, now; split_and!; try done;
    rewrite (Hset ps es) by done; by destruct abort.
Qed.

(** On one epoch record and one clock reading, lock and expire never both succeed,
    and neither do settle and abort. *)
Theorem deadlines_exclude a1 a2 payload c r1 r2 :
  ai_data (acct 2 a1) = ai_data (acct 2 a2) ->
  ~ (lock ID a1 payload = Ok r1 /\ expire_or_abort ID a2 false = Ok r2 /\
     clock_unix_timestamp (acct 4 a1) = clock_unix_timestamp (acct 3 a2)) /\
  ~ (settle_compact ID a1 c = Ok r1 /\ expire_or_abort ID a2 true = Ok r2 /\
     clock_unix_timestamp (acct 13 a1) = clock_unix_timestamp (acct 3 a2)).
Proof.
  intros Hd. split; intros (E1 & E2 & Hclk).
  - apply lock_Ok in E1 as (ps & es & now & n & _ & Hctx & _ & Hnow & Hlt & _).
    apply expire_or_abort_Ok in E2 as (ps' & es' & now' & _ & Hctx' & Hnow' & _ & Hgt & _).
    destruct Hctx as (_ & _ & _ & _ & _ & _ & He & _), Hctx' as (_ & _ & _ & _ & _ & _ & He' & _).
    rewrite Hd in He. assert (es' = es) as -> by congruence. assert (now' = now) as -> by congruence. lia.
  - apply settle_compact_Ok in E1 as (ps0 & es0 & _ & _ & _ & E1).
    apply settle_Ok in E1 as (ps & es & now & n & acc1 & _ & Hctx & _ & _ & Hnow & Hle & _).
    apply expire_or_abort_Ok in E2 as (ps' & es' & now' & _ & Hctx' & Hnow' & _ & Hgt & _).
    destruct Hctx as (_ & _ & _ & _ & _ & _ & He & _), Hctx' as (_ & _ & _ & _ & _ & _ & He' & _).
    rewrite Hd in He. assert (es' = es) as -> by congruence. assert (now' = now) as -> by congruence. lia.
Qed.

(**  A settlement happens once: presenting any settlement again, on the accounts the
    first one returned, is refused with [InvalidState]. *)
Theorem settle_is_once accounts c accounts' c' :
  KagebInstruction_wf (Settle c) -> settle_compact ID accounts c = Ok accounts' ->
  settle_compact ID accounts' c' = Err (into InvalidState).
Proof.
  intros [W1 W2] E. apply settle_compact_Ok in E as (ps0 & es0 & _ & _ & _ & E).
  apply settle_Ok in E as (ps & es & now & n & acc1 & Hf & Hctx & _ & _ & Hnow & _ & _ & _ & _ & _ & _ & Hr & ->).
  destruct Hctx as (HK & Ho1 & Ho2 & Hw & Hp & Hvp & He & Hv).
  pose proof (settle_residual_frame _ _ _ _ _ _ Hr) as (FL & FI & FF).
  pose proof (settle_residual_epoch _ _ _ _ _ _ Hr) as F2.
  assert (acct 1 acc1 = acct 1 accounts) as F1 by (apply FF; set_solver).
  assert (acct 13 acc1 = acct 13 accounts) as F13 by (apply FF; set_solver).
  pose proof (proj1 Hf) as Hl. set (p := full_payload _ _ _ _) in *.
  set (es' := set_settled es p (SettlementPayloadV1_digest p)).
  set (a2 := with_data (acct 2 accounts) (EpochStateV1_encode es')). set (accounts' := <[2 := a2]> acc1).
  assert (forall j, same_id (acct j accounts') (acct j accounts)) as HI.
  { intros j. eapply same_id_trans; [apply insert_same_id | apply FI]. by rewrite F2. }
  assert (length accounts' = length accounts) as HL by (unfold accounts'; by rewrite length_insert).
  assert (EpochStateV1_wf es') as We.
  { apply EpochStateV1_decode_wf in He as (?&?&?&?&?&?&?&?&?). unfold EpochStateV1_wf. cbn. split_and!; done. }
  assert (acct 1 accounts' = acct 1 accounts) as F1' by (unfold accounts'; by rewrite acct_insert_ne).
  assert (acct 13 accounts' = acct 13 accounts) as F13' by (unfold accounts'; by rewrite acct_insert_ne).
  assert (acct 2 accounts' = a2) as F2' by (apply acct_insert_eq; lia).
  assert (epoch_ctx ID accounts' ps es') as Hctx'.
  { unfold epoch_ctx. rewrite F1', F2', (same_id_keys accounts accounts') by done.
    cbn [a2 with_data ai_owner ai_data ai_key ai_is_writable].
    split_and!; try done. by apply EpochStateV1_decode_encode. }
  unfold settle_compact. rewrite bool_decide_eq_true_2 by lia. cbn [negb].
  pose proof Hctx' as (_ & _ & _ & _ & -> & _ & -> & _). cbn [mbind result_bind].
  eapply settle_not_locked; [by eapply settle_flags_same_id | exact Hctx' | by rewrite F13' | done].
Qed.
End handler_claims.

Section codec_claims.
Context `{Sha256, Solana}.

(**  Instruction data and instructions determine each other: decoding accepts
    exactly the encodings of in-range instructions, and no other byte string. *)
Theorem instruction_codec_exact data i :
  KagebInstruction_decode data = Ok i <-> KagebInstruction_wf i /\ KagebInstruction_encode i = data.
Proof.
  split.
  - intros E. split; [by eapply KagebInstruction_decode_wf | by apply KagebInstruction_encode_decode].
  - intros [W <-]. by apply KagebInstruction_decode_encode.
Qed.

(** C31 (roundtrip).  An account's bytes and its record determine each other, for pools and for
    epochs: decoding accepts exactly the 384-byte encodings of in-range records, and no bytes
    decode as both. *)
Theorem state_codecs_exact data :
  (forall ps, PoolStateV1_decode data = Ok ps <-> PoolStateV1_wf ps /\ PoolStateV1_encode ps = data) /\
  (forall es, EpochStateV1_decode data = Ok es <-> EpochStateV1_wf es /\ EpochStateV1_encode es = data) /\
  ~ (is_ok (PoolStateV1_decode data) = true /\ is_ok (EpochStateV1_decode data) = true).
Proof.
  split_and!.
  - intros ps. split.
    + intros E. split; [by eapply PoolStateV1_decode_wf | by apply PoolStateV1_encode_decode].
    + intros [W <-]. by apply PoolStateV1_decode_encode.
  - intros es. split.
    + intros E. split; [by eapply EpochStateV1_decode_wf | by apply EpochStateV1_encode_decode].
    + intros [W <-]. by apply EpochStateV1_decode_encode.
  - intros [Hp He]. destruct (PoolStateV1_decode data) eqn:E1, (EpochStateV1_decode data) eqn:E2; try done.
    by eapply pool_epoch_disjoint.
Qed.

(**  The three signed payloads and their wire bytes determine each other. *)
Theorem wire_codecs_exact bytes :
  (forall c, EpochConfigurationV1_decode bytes = Some c
     <-> EpochConfigurationV1_wf c /\ EpochConfigurationV1_encode c = bytes) /\
  (forall p, LockPayloadV1_decode bytes = Some p <-> LockPayloadV1_wf p /\ LockPayloadV1_encode p = bytes) /\
  (forall p, SettlementPayloadV1_decode bytes = Some p
     <-> SettlementPayloadV1_wf p /\ SettlementPayloadV1_encode p = bytes).
Proof.
  split_and!; intros x; split.
  - intros E. split; [by eapply EpochConfigurationV1_decode_wf | by apply EpochConfigurationV1_encode_decode].
  - intros [W <-]. by apply EpochConfigurationV1_decode_encode.
  - intros E. split; [by eapply LockPayloadV1_decode_wf | by apply LockPayloadV1_encode_decode].
  - intros [W <-]. by apply LockPayloadV1_decode_encode.
  - intros E. split; [by eapply SettlementPayloadV1_decode_wf | by apply SettlementPayloadV1_encode_decode].
  - intros [W <-]. by apply SettlementPayloadV1_decode_encode.
Qed.

(**  No byte string a keyper signs for one purpose stands for another: configuration,
    lock and settlement hash pre-images are pairwise distinct and determine the message, and each
    digest is the hash of its pre-image. *)
Theorem digests_domain_separated m m' :
  message_wf m -> message_wf m' ->
  (preimage m = preimage m' -> m = m') /\
  match m with
  | MConfiguration c => EpochConfigurationV1_digest c
  | MLock p => LockPayloadV1_digest p
  | MSettlement p => SettlementPayloadV1_digest p
  end = sha256 (preimage m).
Proof. intros W W'. split; [by apply preimage_inj | by destruct m]. Qed.

(**  The verifier parser accepts exactly the instructions of the native Ed25519
    program with one signature, no accounts, the fixed self-contained offsets and a 32-byte
    message, and returns the key and message they carry. *)
Theorem strict_parser_exact ix p :
  parse_strict_ed25519 ix = Ok p <->
  exists signature, ix = strict_ed25519_instruction (ed_signer p) signature (ed_digest p).
Proof.
  split; [apply parse_strict_inv|]. intros [s ->]. rewrite parse_strict_accepts. by destruct p.
Qed.

(**  The on-chain count is the number of committee members that signed: it
    reads every instruction before the current one, and for three distinct keypers counts each
    member at most once however many instructions it has. *)
Theorem keyper_count_exact ia keypers digest n :
  NoDup (keyper_list keypers) ->
  count_preceding_keypers ia keypers digest = Ok n <->
  exists idx ixs, load_current_index_checked ia = Ok idx /\
    Forall2 (fun i ix => load_instruction_at_checked i ia = Ok ix) (seq 0 (Z.to_nat idx)) ixs /\
    n = Z.of_nat (length (List.filter (signed_by digest ixs) (keyper_list keypers))).
Proof.
  intros HN. rewrite count_preceding_spec. split; intros (idx & ixs & Hi & Hf & ->);
    exists idx, ixs; by rewrite count_matching_spec.
Qed.

(** A settlement submitted with the client builder reaches the program as the
    full signed payload: the compact form on the wire loses nothing, because the program rebuilds
    the rest from its own records. *)
Theorem settle_builder_dispatches sa p accounts ps es :
  length accounts = 14 -> SettlementPayloadV1_wf p ->
  PoolStateV1_decode (ai_data (acct 1 accounts)) = Ok ps ->
  EpochStateV1_decode (ai_data (acct 2 accounts)) = Ok es ->
  settle_payload_matches p (ai_key (acct 2 accounts)) es ps ->
  process_instruction ID accounts (ix_data (settle_instruction sa p)) = settle ID accounts p.
Proof.
  intros Hl (W1 & W2 & _) Hp He M.
  unfold process_instruction. rewrite bool_decide_eq_true_2 by done. cbn [negb settle_instruction ix_data].
  rewrite KagebInstruction_decode_encode by done. cbn [mbind result_bind].
  unfold settle_compact. rewrite bool_decide_eq_true_2 by done. cbn [negb]. rewrite Hp. cbn [mbind result_bind].
  rewrite He. cbn [mbind result_bind].
  change (settle ID accounts (full_payload (ai_key (acct 2 accounts)) ps es (CompactSettlementPayload_from p))
    = settle ID accounts p).
  by rewrite (full_payload_compact _ _ _ _ M).
Qed.

(**  Creating an epoch writes exactly the initial open record, at the derived
    address of a previously empty system account, only for the pool's operator, with deadlines in
    the future and at least four members; the record validates under its pool. *)
Theorem create_epoch_opens accounts args accounts' `{!SystemLaws} :
  KagebInstruction_wf (CreateEpoch args) -> create_epoch ID accounts args = Ok accounts' ->
  exists ps now,
    PoolStateV1_decode (ai_data (acct 2 accounts)) = Ok ps /\ ai_owner (acct 2 accounts) = ID /\
    ai_is_signer (acct 1 accounts) = true /\ pl_operator ps = ai_key (acct 1 accounts) /\
    clock_unix_timestamp (acct 5 accounts) = Ok now /\
    (now < ca_lock_deadline args < ca_abort_deadline args)%Z /\ (4 <= ca_minimum_count args)%Z /\
    ai_owner (acct 3 accounts) = system_program_id /\ ai_data (acct 3 accounts) = [] /\
    ai_owner (acct 3 accounts') = ID /\
    let es := new_epoch (ai_key (acct 2 accounts)) (ai_key (acct 3 accounts)) ps args in
    EpochStateV1_decode (ai_data (acct 3 accounts')) = Ok es /\ terminal_state es = Open /\
    valid_epoch (ai_key (acct 3 accounts)) es (ai_key (acct 2 accounts)) ps.
Proof.
  intros (W1 & W2 & W3 & W4) E. apply create_epoch_Ok in E as
    (ps & now & acc1 & Hl & HK & Hs & Hop & Ho & _ & _ & Hp & Hvp & Hnow & _ & Hd & Hm & Hq & Hk & (seeds & Hi) & ->).
  apply initialize_pda_Ok in Hi as (Hsys & Hempty & L1 & _ & _ & Ho1 & _).
  exists ps, now. cbn zeta. rewrite !acct_insert_eq by lia. cbn [with_data ai_owner ai_data].
  split_and!; try done; try lia.
  - apply EpochStateV1_decode_encode. apply PoolStateV1_decode_wf in Hp as (_ & _ & _ & _ & Wb).
    unfold EpochStateV1_wf. cbn. split_and!; try done. apply bump_is_u8.
  - by eapply new_epoch_valid.
Qed.

(**  Initialising a pool writes exactly the record of its arguments and accounts,
    at the derived address of a previously empty system account, with thresholds of two, three
    distinct nonzero keypers and two different mints, both vaults held by the pool's own vault
    authority and both venue accounts by the venue. *)
Theorem initialize_pool_records accounts args accounts' `{!SystemLaws} :
  KagebInstruction_wf (InitializePool args) -> initialize_pool ID accounts args = Ok accounts' ->
  let ps := new_pool accounts args in
  ai_owner (acct 2 accounts) = system_program_id /\ ai_data (acct 2 accounts) = [] /\
  ai_owner (acct 2 accounts') = ID /\ PoolStateV1_decode (ai_data (acct 2 accounts')) = Ok ps /\
  valid_pool (ai_key (acct 2 accounts)) ps /\ ai_is_signer (acct 1 accounts) = true /\
  ai_key (acct 3 accounts) = fst (vault_authority_address (ai_key (acct 2 accounts))) /\
  token_account_ok (acct 6 accounts) (pl_base_mint ps) (ai_key (acct 3 accounts)) /\
  token_account_ok (acct 7 accounts) (pl_quote_mint ps) (ai_key (acct 3 accounts)) /\
  token_account_ok (acct 9 accounts) (pl_base_mint ps) (pl_venue_authority ps) /\
  token_account_ok (acct 10 accounts) (pl_quote_mint ps) (pl_venue_authority ps).
Proof.
  intros (W1 & W2 & W3) E. apply initialize_pool_Ok in E as
    (acc1 & Hl & HK & Hs & _ & _ & Hv & Hk & T6 & T7 & T9 & T10 & (seeds & Hi) & ->).
  apply initialize_pda_Ok in Hi as (Hsys & Hempty & L1 & _ & _ & Ho1 & _).
  cbn zeta. rewrite !acct_insert_eq by lia. cbn [with_data ai_owner ai_data].
  split_and!; try done. apply PoolStateV1_decode_encode.
  unfold PoolStateV1_wf. cbn. split_and!; try done; apply bump_is_u8.
Qed.
End codec_claims.

(** ** Witnesses: the theorems on the execution of [Scenario] *)

#[local] Existing Instance toy_sha.
#[local] Existing Instance toy_solana.
#[local] Existing Instance toy_system_laws.
#[local] Existing Instance toy_token_laws.

Lemma epoch_refines_lifecycle_witness :
  exists es', epoch_at world6 epoch_key = Some es' /\
    (es' = epoch_in world5 \/
     exists now, ledger_time world5 = Ok now /\
       lifecycle (ep_lock_deadline (epoch_in world5)) (ep_abort_deadline (epoch_in world5)) now
         (terminal_state (epoch_in world5)) (terminal_state es') /\ same_terms (epoch_in world5) es').
Proof. exact (epoch_refines_lifecycle world5 world6 epoch_key (epoch_in world5) step56 epoch_at5). Defined.

Lemma reachable_epoch_invariant_witness :
  exists ps, pool_at world4 (ep_pool (epoch_in world4)) = Some ps /\
    valid_pool (ep_pool (epoch_in world4)) ps /\ epoch_inv epoch_key ps (epoch_in world4).
Proof. exact (reachable_epoch_invariant world4 epoch_key (epoch_in world4) reachable4 epoch_at4). Defined.

Lemma terminal_epochs_frozen_witness : epoch_at world7 epoch_key = Some (epoch_in world6).
Proof.
  exact (terminal_epochs_frozen world6 world7 epoch_key (epoch_in world6) steps67 epoch_at6 (or_introl settled6)).
Defined.

Lemma pools_immutable_witness : pool_at world6 pool_key = Some (pool_in world2).
Proof. exact (pools_immutable world2 world6 pool_key (pool_in world2) steps26 pool_at2). Defined.

Lemma settle_moves_exact_residual_witness :
  exists es, EpochStateV1_decode (ai_data (acct 2 settle_accounts)) = Ok es /\
    settle_holdings 1 (ep_base_lot_atoms es * 2) (ep_quote_atoms_per_lot es * 2) (holdings settle_accounts)
      = Some (holdings settle_result).
Proof.
  destruct (settle_moves_exact_residual settle_accounts compact0 settle_result settle_runs)
    as (es & E & _ & _ & Hh & _).
  exists es. split; [exact E | exact Hh].
Defined.

Lemma lock_needs_quorum_witness :
  exists ps es now,
    epoch_ctx ID lock_accounts ps es /\
    quorum_signed (acct 3 lock_accounts) (pl_keypers ps) (LockPayloadV1_digest lock_payload0) /\
    clock_unix_timestamp (acct 4 lock_accounts) = Ok now /\ (now < ep_lock_deadline es)%Z /\
    (4 <= ep_minimum_count es <= lp_member_count lock_payload0)%Z.
Proof. exact (lock_needs_quorum lock_accounts lock_payload0 lock_result lock_runs). Defined.

Lemma settle_needs_quorum_witness :
  exists ps es now,
    epoch_ctx ID settle_accounts ps es /\ settle_custody settle_accounts ps /\
    ai_is_signer (acct 6 settle_accounts) = true /\
    quorum_signed (acct 12 settle_accounts) (pl_keypers ps)
      (SettlementPayloadV1_digest (full_payload (ai_key (acct 2 settle_accounts)) ps es compact0)) /\
    clock_unix_timestamp (acct 13 settle_accounts) = Ok now /\ (now <= ep_abort_deadline es)%Z.
Proof. exact (settle_needs_quorum settle_accounts compact0 settle_result settle_runs). Defined.

Lemma deadlines_exclude_witness :
  ~ (lock ID lock_accounts lock_payload0 = Ok lock_result /\
     expire_or_abort ID (terminal_accounts open_bytes 1500) false = Ok [] /\
     clock_unix_timestamp (acct 4 lock_accounts)
       = clock_unix_timestamp (acct 3 (terminal_accounts open_bytes 1500))) /\
  ~ (settle_compact ID lock_accounts compact0 = Ok lock_result /\
     expire_or_abort ID (terminal_accounts open_bytes 1500) true = Ok [] /\
     clock_unix_timestamp (acct 13 lock_accounts)
       = clock_unix_timestamp (acct 3 (terminal_accounts open_bytes 1500))).
Proof.
  apply (deadlines_exclude lock_accounts (terminal_accounts open_bytes 1500) lock_payload0 compact0 lock_result []).
  reflexivity.
Defined.

Lemma settle_is_once_witness : settle_compact ID settle_result compact0 = Err (into InvalidState).
Proof.
  apply (settle_is_once settle_accounts compact0 settle_result compact0); [|exact settle_runs].
  unfold KagebInstruction_wf, u8_ok, u32_ok. cbn. lia.
Defined.

Lemma digests_domain_separated_witness :
  (preimage (MLock lock_payload0) = preimage (MSettlement settlement0) -> MLock lock_payload0 = MSettlement settlement0) /\
  LockPayloadV1_digest lock_payload0 = sha256 (preimage (MLock lock_payload0)).
Proof.
  apply (digests_domain_separated (MLock lock_payload0) (MSettlement settlement0)).
  - unfold message_wf, LockPayloadV1_wf, u32_ok, i64_ok. cbn. lia.
  - unfold message_wf, SettlementPayloadV1_wf, u8_ok, u32_ok, u64_ok. cbn. lia.
Defined.

Lemma keyper_count_exact_witness :
  count_preceding_keypers (acct 3 lock_accounts) keypers3 (LockPayloadV1_digest lock_payload0) = Ok 2%Z <->
  exists idx ixs, load_current_index_checked (acct 3 lock_accounts) = Ok idx /\
    Forall2 (fun i ix => load_instruction_at_checked i (acct 3 lock_accounts) = Ok ix) (seq 0 (Z.to_nat idx)) ixs /\
    2%Z = Z.of_nat (length (List.filter (signed_by (LockPayloadV1_digest lock_payload0) ixs) (keyper_list keypers3))).
Proof.
  apply (keyper_count_exact (acct 3 lock_accounts) keypers3 (LockPayloadV1_digest lock_payload0) 2).
  vm_compute. repeat constructor; intros Hin; repeat (apply elem_of_cons in Hin as [Hin|Hin]; [discriminate Hin|]);
    by apply not_elem_of_nil in Hin.
Defined.

Definition settle_keys : SettleAccounts :=
  {| sa_payer := payer_key; sa_pool := pool_key; sa_epoch := epoch_key; sa_vault_authority := vault_key;
     sa_pool_base_vault := pool_base_key; sa_pool_quote_vault := pool_quote_key;
     sa_venue_authority := venue_key; sa_venue_base_account := venue_base_key;
     sa_venue_quote_account := venue_quote_key; sa_base_mint := base_mint_key;
     sa_quote_mint := quote_mint_key |}.
Definition locked_state : EpochStateV1 :=
  set_locked open_state lock_payload0 (LockPayloadV1_digest lock_payload0).

Lemma settle_builder_dispatches_witness :
  process_instruction ID settle_accounts (ix_data (settle_instruction settle_keys settlement0))
  = settle ID settle_accounts settlement0.
Proof.
  apply (settle_builder_dispatches settle_keys settlement0 settle_accounts
           (new_pool init_accounts init_args) locked_state).
  - reflexivity.
  - unfold SettlementPayloadV1_wf, u8_ok, u32_ok, u64_ok. cbn. lia.
  - vm_compute. reflexivity.
  - vm_compute. reflexivity.
  - vm_compute. repeat split; intros E; discriminate E.
Defined.

Lemma create_epoch_opens_witness :
  exists ps now,
    PoolStateV1_decode (ai_data (acct 2 create_accounts)) = Ok ps /\ ai_owner (acct 2 create_accounts) = ID /\
    ai_is_signer (acct 1 create_accounts) = true /\ pl_operator ps = ai_key (acct 1 create_accounts) /\
    clock_unix_timestamp (acct 5 create_accounts) = Ok now /\
    (now < ca_lock_deadline create_args < ca_abort_deadline create_args)%Z /\ (4 <= ca_minimum_count create_args)%Z /\
    ai_owner (acct 3 create_accounts) = system_program_id /\ ai_data (acct 3 create_accounts) = [] /\
    ai_owner (acct 3 create_result) = ID /\
    let es := new_epoch (ai_key (acct 2 create_accounts)) (ai_key (acct 3 create_accounts)) ps create_args in
    EpochStateV1_decode (ai_data (acct 3 create_result)) = Ok es /\ terminal_state es = Open /\
    valid_epoch (ai_key (acct 3 create_accounts)) es (ai_key (acct 2 create_accounts)) ps.
Proof.
  apply (create_epoch_opens create_accounts create_args create_result); [|exact create_epoch_runs].
  unfold KagebInstruction_wf, u32_ok, u64_ok, i64_ok. cbn. lia.
Defined.

Lemma initialize_pool_records_witness :
  PoolStateV1_decode (ai_data (acct 2 init_result)) = Ok (new_pool init_accounts init_args).
Proof.
  apply (initialize_pool_records init_accounts init_args init_result); [|exact initialize_pool_runs].
  unfold KagebInstruction_wf, u8_ok, u64_ok. cbn. lia.
Defined.
