(* ===== verification/BTree.v ===== *)
(** * Ordered maps and sorting

    Rust's order on byte arrays is lexicographic; [sort_unstable] on them and iteration over a
    [BTreeMap] both follow it.  A [BTreeMap] is a [gmap] here, and where the source iterates,
    [btree_list] is its key-ordered enumeration. *)

From S2P Require Import Prelude Bytes.

(** ** The lexicographic order *)

Fixpoint lex_leb (a b : list byte) : bool :=
  match a, b with
  | [], _ => true
  | _ :: _, [] => false
  | x :: a, y :: b => (byte_val x <? byte_val y)%Z || ((byte_val x =? byte_val y)%Z && lex_leb a b)
  end.
Definition lex_le (a b : list byte) : Prop := lex_leb a b = true.
Global Instance lex_le_dec : RelDecision lex_le := fun a b => Bool.bool_dec (lex_leb a b) true.

Lemma lex_le_cons x y a b :
  lex_le (x :: a) (y :: b) <-> (byte_val x < byte_val y)%Z \/ (x = y /\ lex_le a b).
Proof.
  unfold lex_le. cbn. rewrite orb_true_iff, andb_true_iff, Z.ltb_lt, Z.eqb_eq.
  split; intros [?|[E ?]]; auto; right; split; try done; [by apply byte_val_inj | by rewrite E].
Qed.

Global Instance lex_le_trans : Transitive lex_le.
Proof.
  intros a. induction a as [|x a IH]; intros [|y b] [|z c] H1 H2; try done.
  rewrite lex_le_cons in *. destruct H1 as [?|[-> ?]], H2 as [?|[-> ?]]; try (left; lia).
  right. split; [done|]. by eapply IH.
Qed.

Global Instance lex_le_total : Total lex_le.
Proof.
  intros a. induction a as [|x a IH]; intros [|y b]; [by left | by left | by right|].
  rewrite !lex_le_cons. destruct (Z.lt_trichotomy (byte_val x) (byte_val y)) as [?|[E|?]]; auto.
  apply byte_val_inj in E as ->. destruct (IH b); auto.
Qed.

Global Instance lex_le_anti : AntiSymm (=) lex_le.
Proof.
  intros a. induction a as [|x a IH]; intros [|y b] H1 H2; try done.
  rewrite lex_le_cons in *. destruct H1 as [?|[-> ?]], H2 as [?|[? ?]]; try lia; [subst; lia|].
  f_equal. by apply IH.
Qed.

(** ** [sort_unstable] on byte arrays *)

Definition arr_le {n} (a b : arr n) : Prop := lex_le a b.
Global Instance arr_le_dec {n} : RelDecision (arr_le (n := n)) := fun a b => lex_le_dec a b.
Global Instance arr_le_trans {n} : Transitive (arr_le (n := n)).
Proof. intros a b c. unfold arr_le. apply lex_le_trans. Qed.
Global Instance arr_le_total {n} : Total (arr_le (n := n)).
Proof. intros a b. apply lex_le_total. Qed.
Global Instance arr_le_anti {n} : AntiSymm (=) (arr_le (n := n)).
Proof. intros a b H1 H2. apply arr_eq. by apply lex_le_anti. Qed.

Definition sort_arr {n} (l : list (arr n)) : list (arr n) := merge_sort arr_le l.

Lemma sort_arr_perm {n} (l : list (arr n)) : sort_arr l ≡ₚ l.
Proof. apply merge_sort_Permutation. Qed.

Lemma sort_arr_unique {n} (l k : list (arr n)) : l ≡ₚ k -> sort_arr l = sort_arr k.
Proof.
  intros HP. apply (Sorted_unique arr_le); [apply Sorted_merge_sort; apply _ ..|].
  by rewrite !sort_arr_perm.
Qed.

(** [windows(2).any(|pair| pair[0] == pair[1])]: adjacent equal elements. *)
Fixpoint adjacent_equal {A} `{EqDecision A} (l : list A) : bool :=
  match l with
  | x :: ((y :: _) as rest) => (x == y) || adjacent_equal rest
  | _ => false
  end.

(** On a sorted list adjacent equality finds every duplicate. *)
Lemma adjacent_equal_sorted {n} (l : list (arr n)) :
  StronglySorted arr_le l -> adjacent_equal l = false <-> NoDup l.
Proof.
  induction 1 as [|x l Hs IH Hx]; [split; [intros _; apply NoDup_nil_2 | done]|].
  destruct l as [|y l]; [split; [intros _; apply NoDup_singleton | done]|].
  cbn [adjacent_equal]. rewrite orb_false_iff, IH, bool_decide_eq_false, (list.NoDup_cons x).
  split; intros [Hxy HN]; (split; [|done]).
  - intros Hin. apply elem_of_cons in Hin as [->|Hin]; [done|].
    apply Hxy. apply (anti_symm arr_le); [by inversion Hx|].
    inversion Hs as [|? ? ? Hy]. subst. by apply (proj1 (List.Forall_forall _ _) Hy), list_elem_of_In.
  - intros ->. apply Hxy. set_solver.
Qed.

(** ** Key-ordered enumeration *)

Definition entry_le {n A} (a b : arr n * A) : Prop := arr_le (fst a) (fst b).
Global Instance entry_le_dec {n A} : RelDecision (entry_le (n := n) (A := A)) :=
  fun a b => arr_le_dec (fst a) (fst b).
Global Instance entry_le_trans {n A} : Transitive (entry_le (n := n) (A := A)).
Proof. intros a b c. apply arr_le_trans. Qed.
Global Instance entry_le_total {n A} : Total (entry_le (n := n) (A := A)).
Proof. intros a b. apply arr_le_total. Qed.

(** [map.iter()] and [map.values()] of a [BTreeMap]. *)
Definition btree_list {n A} (m : gmap (arr n) A) : list (arr n * A) := merge_sort entry_le (map_to_list m).
Definition btree_values {n A} (m : gmap (arr n) A) : list A := map snd (btree_list m).

Lemma btree_list_perm {n A} (m : gmap (arr n) A) : btree_list m ≡ₚ map_to_list m.
Proof. apply merge_sort_Permutation. Qed.

Lemma btree_list_elem {n A} (m : gmap (arr n) A) k x : (k, x) ∈ btree_list m <-> m !! k = Some x.
Proof. rewrite btree_list_perm. apply elem_of_map_to_list. Qed.

Lemma btree_list_keys_NoDup {n A} (m : gmap (arr n) A) : NoDup (map fst (btree_list m)).
Proof. rewrite btree_list_perm. apply NoDup_fst_map_to_list. Qed.

Lemma btree_list_sorted {n A} (m : gmap (arr n) A) : StronglySorted entry_le (btree_list m).
Proof. apply (StronglySorted_merge_sort entry_le). Qed.

Lemma btree_list_to_map {n A} (m : gmap (arr n) A) : list_to_map (btree_list m) = m.
Proof.
  rewrite (list_to_map_proper (btree_list m) (map_to_list m));
    [apply list_to_map_to_list | apply btree_list_keys_NoDup | apply btree_list_perm].
Qed.

Lemma btree_list_length {n A} (m : gmap (arr n) A) : length (btree_list m) = size m.
Proof. rewrite btree_list_perm. apply length_map_to_list. Qed.

Lemma btree_keys_sorted {n A} (m : gmap (arr n) A) : StronglySorted arr_le (map fst (btree_list m)).
Proof.
  pose proof (btree_list_sorted m) as HS. revert HS. generalize (btree_list m) as l.
  induction 1 as [|e l HS IH He]; cbn [map]; constructor; [done|]. apply Forall_map. revert He. apply Forall_impl. done.
Qed.

(** Values that determine their key are enumerated without repetition. *)
Lemma btree_values_NoDup {n A B} (m : gmap (arr n) A) (f : A -> B) :
  (forall k1 k2 x1 x2, m !! k1 = Some x1 -> m !! k2 = Some x2 -> f x1 = f x2 -> k1 = k2) ->
  NoDup (map f (btree_values m)).
Proof.
  intros Hf. unfold btree_values. rewrite map_map. pose proof (btree_list_keys_NoDup m) as HK.
  assert (forall e, e ∈ btree_list m -> m !! fst e = Some (snd e)) as HE by (intros [k x]; apply btree_list_elem).
  revert HK HE. generalize (btree_list m) as l. induction l as [|e l IH]; intros HK HE; [constructor|].
  cbn [map] in *. apply list.NoDup_cons in HK as [Hk HK]. apply list.NoDup_cons. split; [|apply IH; [done | set_solver]].
  intros Hin. apply list_elem_of_In, in_map_iff in Hin as (e' & Ee & He'). apply list_elem_of_In in He'. apply Hk.
  rewrite (Hf (fst e) (fst e') (snd e) (snd e')); [|apply HE; set_solver..|done].
  by apply list_elem_of_In, in_map, list_elem_of_In.
Qed.
