(* ===== verification/Domain.v ===== *)
(** * The order body (crates/kageb-host/src/domain.rs)

    The 128-byte intent a client signs and encrypts: one lot, a nonzero limit, zero padding.
    Decoding accepts exactly the encodings of valid intents. *)

From S2P Require Import Prelude Bytes.

Definition INTENT_VERSION : Z := 1.
Definition INTENT_LEN : nat := 128.
Definition PADDING_START : nat := 94.

Inductive Side : Type := Buy | Sell.
Global Instance Side_eq_dec : EqDecision Side.
Proof. solve_decision. Defined.

Inductive ProtocolError : Type :=
| InvalidIntentLength (length : nat)
| InvalidVersion (version : Z)
| InvalidSide (side : Z)
| InvalidLots (lots : Z)
| InvalidLimitPrice
| NonZeroPadding.
Global Instance ProtocolError_eq_dec : EqDecision ProtocolError.
Proof. solve_decision. Defined.

Definition Side_as_u8 (s : Side) : Z := match s with Buy => 0 | Sell => 1 end.
Definition Side_try_from (value : Z) : result ProtocolError Side :=
  match value with
  | 0%Z => Ok Buy
  | 1%Z => Ok Sell
  | _ => Err (InvalidSide value)
  end.

Record IntentBodyV1 : Type := {
  ib_side : Side;
  ib_lots : Z;
  ib_limit_price : Z;
  ib_epoch_id : bytes32;
  ib_participant_id : bytes32;
  ib_client_nonce : arr 16;
}.

Definition IntentBodyV1_new (side : Side) (lots limit_price : Z) (epoch_id participant_id : bytes32)
    (client_nonce : arr 16) : result ProtocolError IntentBodyV1 :=
  if lots != 1%Z then Err (InvalidLots lots) else
  if limit_price == 0%Z then Err InvalidLimitPrice else
  Ok {| ib_side := side; ib_lots := lots; ib_limit_price := limit_price; ib_epoch_id := epoch_id;
        ib_participant_id := participant_id; ib_client_nonce := client_nonce |}.

Definition IntentBodyV1_encode (b : IntentBodyV1) : list byte :=
  let bytes := zeros 128 in
  let bytes := set_at 0 (byte_of INTENT_VERSION) bytes in
  let bytes := set_at 1 (byte_of (Side_as_u8 (ib_side b))) bytes in
  let bytes := put_at 2 (le_bytes 4 (ib_lots b)) bytes in
  let bytes := put_at 6 (le_bytes 8 (ib_limit_price b)) bytes in
  let bytes := put_at 14 (ib_epoch_id b) bytes in
  let bytes := put_at 46 (ib_participant_id b) bytes in
  let bytes := put_at 78 (ib_client_nonce b) bytes in
  bytes.

(** [try_into().expect(..)] on slices whose length is fixed by their bounds: the last arm of the
    match is never taken ([IntentBodyV1_decode_total]). *)
Definition IntentBodyV1_decode (bytes : list byte) : result ProtocolError IntentBodyV1 :=
  if length bytes != INTENT_LEN then Err (InvalidIntentLength (length bytes)) else
  if u8_at 0 bytes != INTENT_VERSION then Err (InvalidVersion (u8_at 0 bytes)) else
  if existsb (fun b => b != x00) (slice_from PADDING_START bytes) then Err NonZeroPadding else
  side ← Side_try_from (u8_at 1 bytes);
  let lots := le_val (slice 2 6 bytes) in
  let limit_price := le_val (slice 6 14 bytes) in
  match try_into 32 (slice 14 46 bytes), try_into 32 (slice 46 78 bytes), try_into 16 (slice 78 94 bytes) with
  | Some epoch_id, Some participant_id, Some client_nonce =>
      IntentBodyV1_new side lots limit_price epoch_id participant_id client_nonce
  | _, _, _ => Err NonZeroPadding
  end.

(** What [IntentBodyV1::new] accepts, within the Rust types. *)
Definition IntentBodyV1_wf (b : IntentBodyV1) : Prop :=
  ib_lots b = 1%Z /\ u64_ok (ib_limit_price b) /\ ib_limit_price b <> 0%Z.

Definition IntentBodyV1_fields (b : IntentBodyV1) : list (list byte) :=
  [[byte_of INTENT_VERSION]; [byte_of (Side_as_u8 (ib_side b))]; le_bytes 4 (ib_lots b);
   le_bytes 8 (ib_limit_price b); ib_epoch_id b : list byte; ib_participant_id b : list byte;
   ib_client_nonce b : list byte; zeros 34].

Lemma IntentBodyV1_layout b : map length (IntentBodyV1_fields b) = [1; 1; 4; 8; 32; 32; 16; 34].
Proof. cbn [map IntentBodyV1_fields]. by autorewrite with len. Qed.

Lemma IntentBodyV1_encode_fields b : IntentBodyV1_encode b = concat (IntentBodyV1_fields b).
Proof. unfold IntentBodyV1_encode, IntentBodyV1_fields. cbn zeta. cbn [concat]. by fill 128. Qed.

Lemma IntentBodyV1_encode_length b : length (IntentBodyV1_encode b) = 128.
Proof. rewrite IntentBodyV1_encode_fields. cbn [concat IntentBodyV1_fields]. len. Qed.

Lemma slice_from_slice lo l : slice_from lo l = slice lo (length l) l.
Proof. unfold slice_from, slice. rewrite take_ge; [done|]. rewrite length_drop. lia. Qed.

Lemma existsb_zeros l : existsb (fun b => b != x00) l = false <-> l = zeros (length l).
Proof.
  induction l as [|b l IH]; [done|]. cbn [existsb length zeros replicate].
  rewrite orb_false_iff, neqb_false, IH. unfold zeros. split; [by intros [-> <-] | intros [= -> E]; done].
Qed.

Lemma Side_try_from_as s : Side_try_from (Side_as_u8 s) = Ok s.
Proof. by destruct s. Qed.

Lemma Side_as_try_from v s : Side_try_from v = Ok s -> v = Side_as_u8 s.
Proof.
  unfold Side_try_from. intros H.
  repeat (match type of H with context [match ?x with _ => _ end] => destruct x end; try discriminate);
    injection H as <-; done.
Qed.

Lemma Side_as_u8_ok s : u8_ok (Side_as_u8 s).
Proof. destruct s; unfold u8_ok; cbn; lia. Qed.

Lemma IntentBodyV1_decode_encode b :
  IntentBodyV1_wf b -> IntentBodyV1_decode (IntentBodyV1_encode b) = Ok b.
Proof.
  intros (Hl & Hp & Hz). unfold IntentBodyV1_decode, INTENT_LEN, PADDING_START.
  pose proof (Side_as_u8_ok (ib_side b)). assert (u32_ok (ib_lots b)) by (rewrite Hl; unfold u32_ok; lia).
  rewrite slice_from_slice, IntentBodyV1_encode_length, IntentBodyV1_encode_fields.
  pose proof (IntentBodyV1_layout b) as HL. fields HL.
  cbn [nth IntentBodyV1_fields]. unfold byte_at. cbn [nth]. autorewrite with wire.
  rewrite Side_try_from_as, (proj2 (existsb_zeros (zeros 34))) by done. cbn [mbind result_bind].
  change (bool_decide (128 = 128)) with true.
  change (byte_val (byte_of INTENT_VERSION)) with INTENT_VERSION.
  change (bool_decide (INTENT_VERSION = INTENT_VERSION)) with true. cbn [negb].
  unfold IntentBodyV1_new. rewrite (bool_decide_eq_true_2 (ib_lots b = 1%Z)) by done. cbn [negb].
  rewrite bool_decide_eq_false_2 by done. by destruct b.
Qed.

Lemma IntentBodyV1_encode_decode bytes b :
  IntentBodyV1_decode bytes = Ok b -> IntentBodyV1_wf b /\ IntentBodyV1_encode b = bytes.
Proof.
  unfold IntentBodyV1_decode, INTENT_LEN, PADDING_START. intros H. inv_ok. bguard.
  match goal with T : existsb _ _ = false |- _ => rename T into Hpad end.
  rewrite slice_from_slice, H0 in Hpad. apply existsb_zeros in Hpad.
  rewrite length_slice in Hpad by lia.
  destruct (try_into 32 (slice 14 46 bytes)) eqn:E1, (try_into 32 (slice 46 78 bytes)) eqn:E2,
    (try_into 16 (slice 78 94 bytes)) eqn:E3; try done.
  unfold IntentBodyV1_new in H. inv_ok. bguard. subst b. split.
  - unfold IntentBodyV1_wf. cbn -[slice]. split_and!; try done. apply u64_slice_ok; lia.
  - rewrite IntentBodyV1_encode_fields. unfold IntentBodyV1_fields.
    cbn -[slice le_bytes byte_of concat zeros Side_as_u8].
    match goal with T : Side_try_from _ = Ok _ |- _ => apply Side_as_try_from in T; rewrite <- T end.
    uncut [1; 1; 4; 8; 32; 32; 16; 34].
Qed.

(** Each rejection, by the first check that fails. *)
Lemma IntentBodyV1_decode_total bytes :
  match IntentBodyV1_decode bytes with
  | Ok b => IntentBodyV1_wf b /\ IntentBodyV1_encode b = bytes
  | Err (InvalidIntentLength n) => n = length bytes /\ n <> 128
  | Err (InvalidVersion v) => length bytes = 128 /\ v = u8_at 0 bytes /\ v <> 1%Z
  | Err NonZeroPadding => length bytes = 128 /\ u8_at 0 bytes = 1%Z /\ slice 94 128 bytes <> zeros 34
  | Err (InvalidSide v) => length bytes = 128 /\ v = u8_at 1 bytes /\ v <> 0%Z /\ v <> 1%Z
  | Err (InvalidLots v) => length bytes = 128 /\ v = le_val (slice 2 6 bytes) /\ v <> 1%Z
  | Err InvalidLimitPrice => length bytes = 128 /\ le_val (slice 6 14 bytes) = 0%Z
  end.
Proof.
  destruct (IntentBodyV1_decode bytes) as [b|e] eqn:E; [by apply IntentBodyV1_encode_decode|].
  unfold IntentBodyV1_decode, INTENT_LEN, PADDING_START in E.
  destruct (bool_decide_reflect (length bytes = 128)) as [Hl|Hl]; cbn [negb] in E; [|by injection E as <-].
  destruct (bool_decide_reflect (u8_at 0 bytes = INTENT_VERSION)) as [Hv|Hv]; cbn [negb] in E; [|by injection E as <-].
  rewrite slice_from_slice, Hl in E.
  destruct (existsb _ _) eqn:Hp.
  { injection E as <-. split_and!; try done. intros Hz.
    rewrite <- not_false_iff_true, existsb_zeros, length_slice in Hp by lia. done. }
  destruct (Side_try_from (u8_at 1 bytes)) as [s|es] eqn:Hs; cbn [mbind result_bind] in E.
  2:{ injection E as <-. unfold Side_try_from in Hs.
      destruct (decide (u8_at 1 bytes = 0%Z)) as [H0|H0]; [by rewrite H0 in Hs|].
      destruct (decide (u8_at 1 bytes = 1%Z)) as [H1|H1]; [by rewrite H1 in Hs|].
      repeat (match type of Hs with context [match ?x with _ => _ end] => destruct x eqn:? end; try done);
        injection Hs as <-; done. }
  destruct (try_into_is_Some 32 (slice 14 46 bytes)) as (e1 & E1 & _); [rewrite length_slice; lia|].
  destruct (try_into_is_Some 32 (slice 46 78 bytes)) as (e2 & E2 & _); [rewrite length_slice; lia|].
  destruct (try_into_is_Some 16 (slice 78 94 bytes)) as (e3 & E3 & _); [rewrite length_slice; lia|].
  rewrite E1, E2, E3 in E. unfold IntentBodyV1_new in E.
  destruct (bool_decide_reflect (le_val (slice 2 6 bytes) = 1%Z)); cbn [negb] in E; [|by injection E as <-].
  destruct (bool_decide_reflect (le_val (slice 6 14 bytes) = 0%Z)); [by injection E as <- | done].
Qed.
