(* ===== verification/Ledger.v ===== *)
(** * Netting a batch (crates/kageb-host/src/ledger.rs)

    [net_batch] fills every order of a batch at the epoch price against the balances of its
    participants and returns one aggregate residual.  The file proves it equal to a
    declarative specification and shows that the internal conservation check and the 128-bit
    overflow checks never fire. *)

From S2P Require Import Prelude Bytes BTree Domain.

Abbreviation ParticipantId := bytes32.

Module LedgerError.
Inductive t : Type :=
| InvalidConfig
| InvalidLimit
| EmptyBatch
| UnknownParticipant (id : ParticipantId)
| DuplicateParticipant (id : ParticipantId)
| InsufficientReservation (id : ParticipantId)
| LimitViolated (id : ParticipantId)
| ArithmeticOverflow
| ConservationFailed.
End LedgerError.
Abbreviation LedgerError := LedgerError.t.
Global Instance LedgerError_eq_dec : EqDecision LedgerError.
Proof. solve_decision. Defined.

Record BatchConfig : Type := { bc_base_lot_atoms : Z; bc_quote_atoms_per_lot : Z }.

Definition BatchConfig_new (base_lot_atoms quote_atoms_per_lot : Z) : result LedgerError BatchConfig :=
  if (base_lot_atoms == 0%Z) || (quote_atoms_per_lot == 0%Z) then Err LedgerError.InvalidConfig else
  Ok {| bc_base_lot_atoms := base_lot_atoms; bc_quote_atoms_per_lot := quote_atoms_per_lot |}.

Record PoolBalance : Type := { base_atoms : Z; quote_atoms : Z }.
Global Instance PoolBalance_eq_dec : EqDecision PoolBalance.
Proof. solve_decision. Defined.

Record FundedOrder : Type := { fo_participant_id : ParticipantId; fo_side : Side; fo_limit_price : Z }.

Definition FundedOrder_new (participant_id : ParticipantId) (side : Side) (limit_price : Z)
  : result LedgerError FundedOrder :=
  if limit_price == 0%Z then Err LedgerError.InvalidLimit else
  Ok {| fo_participant_id := participant_id; fo_side := side; fo_limit_price := limit_price |}.

Module Residual.
Inductive t : Type := None | Buy (lots : Z) | Sell (lots : Z).
End Residual.
Abbreviation Residual := Residual.t.
Global Instance Residual_eq_dec : EqDecision Residual.
Proof. solve_decision. Defined.

Record VaultDelta : Type := { vd_base_atoms : Z; vd_quote_atoms : Z }.

Abbreviation Balances := (gmap ParticipantId PoolBalance).

Record BatchResult : Type := {
  before_balances : Balances;
  balances : Balances;
  residual : Residual;
  vault_delta : VaultDelta;
}.

(** [values().try_fold((0, 0), ..)] in key order. *)
Fixpoint totals_fold (acc : Z * Z) (l : list PoolBalance) : option (Z * Z) :=
  match l with
  | [] => Some acc
  | balance :: l =>
      base ← checked_add_i128 (fst acc) (base_atoms balance);
      quote ← checked_add_i128 (snd acc) (quote_atoms balance);
      totals_fold (base, quote) l
  end.
Definition totals (balances : Balances) : option (Z * Z) := totals_fold (0%Z, 0%Z) (btree_values balances).

Definition conserves (r : BatchResult) (before : Balances) : bool :=
  match totals before with
  | None => false
  | Some (before_base, before_quote) =>
      match totals (balances r) with
      | None => false
      | Some (after_base, after_quote) =>
          (checked_add_i128 before_base (vd_base_atoms (vault_delta r)) == Some after_base)
          && (checked_add_i128 before_quote (vd_quote_atoms (vault_delta r)) == Some after_quote)
      end
  end.

(** The [BTreeSet] of participants seen so far. *)
Fixpoint reject_duplicates (seen : gset ParticipantId) (orders : list FundedOrder) : result LedgerError unit :=
  match orders with
  | [] => Ok tt
  | order :: orders =>
      if bool_decide (fo_participant_id order ∈ seen)
      then Err (LedgerError.DuplicateParticipant (fo_participant_id order))
      else reject_duplicates ({[fo_participant_id order]} ∪ seen) orders
  end.

Definition net_order (config : BatchConfig) (st : Balances * Z * Z) (order : FundedOrder)
  : result LedgerError (Balances * Z * Z) :=
  let '(balances, buys, sells) := st in
  let id := fo_participant_id order in
  balance ← ok_or (LedgerError.UnknownParticipant id) (balances !! id);
  if (base_atoms balance <? bc_base_lot_atoms config)%Z
     || (quote_atoms balance <? bc_quote_atoms_per_lot config)%Z
  then Err (LedgerError.InsufficientReservation id) else
  match fo_side order with
  | Buy =>
      if (fo_limit_price order <? bc_quote_atoms_per_lot config)%Z then Err (LedgerError.LimitViolated id) else
      base ← ok_or LedgerError.ArithmeticOverflow (checked_add_u64 (base_atoms balance) (bc_base_lot_atoms config));
      quote ← ok_or LedgerError.ArithmeticOverflow (checked_sub_u64 (quote_atoms balance) (bc_quote_atoms_per_lot config));
      buys ← ok_or LedgerError.ArithmeticOverflow (checked_add_u32 buys 1);
      Ok (<[id := {| base_atoms := base; quote_atoms := quote |}]> balances, buys, sells)
  | Sell =>
      if (bc_quote_atoms_per_lot config <? fo_limit_price order)%Z then Err (LedgerError.LimitViolated id) else
      base ← ok_or LedgerError.ArithmeticOverflow (checked_sub_u64 (base_atoms balance) (bc_base_lot_atoms config));
      quote ← ok_or LedgerError.ArithmeticOverflow (checked_add_u64 (quote_atoms balance) (bc_quote_atoms_per_lot config));
      sells ← ok_or LedgerError.ArithmeticOverflow (checked_add_u32 sells 1);
      Ok (<[id := {| base_atoms := base; quote_atoms := quote |}]> balances, buys, sells)
  end.

(** [match buys.cmp(&sells)] *)
Definition net_residual (buys sells : Z) : Residual * Z :=
  match (buys ?= sells)%Z with
  | Gt => let lots := (buys - sells)%Z in (Residual.Buy lots, lots)
  | Lt => let lots := (sells - buys)%Z in (Residual.Sell lots, (- lots)%Z)
  | Eq => (Residual.None, 0%Z)
  end.

Definition net_batch (config : BatchConfig) (before : Balances) (orders : list FundedOrder)
  : result LedgerError BatchResult :=
  if match orders with [] => true | _ => false end then Err LedgerError.EmptyBatch else
  reject_duplicates ∅ orders ;;
  '(balances, buys, sells) ← try_fold (net_order config) (before, 0%Z, 0%Z) orders;
  let '(residual, signed_lots) := net_residual buys sells in
  base_atoms ← ok_or LedgerError.ArithmeticOverflow (checked_mul_i128 signed_lots (bc_base_lot_atoms config));
  quote_atoms ← ok_or LedgerError.ArithmeticOverflow
    (q ← checked_mul_i128 signed_lots (bc_quote_atoms_per_lot config); checked_neg_i128 q);
  let r := {| before_balances := before; balances := balances; residual := residual;
              vault_delta := {| vd_base_atoms := base_atoms; vd_quote_atoms := quote_atoms |} |} in
  if negb (conserves r before) then Err LedgerError.ConservationFailed else Ok r.

(** ** Specification *)

Definition balance_ok (b : PoolBalance) : Prop := u64_ok (base_atoms b) /\ u64_ok (quote_atoms b).

(** What one fill does to a participant's balance. *)
Definition fill_order (config : BatchConfig) (side : Side) (b : PoolBalance) : PoolBalance :=
  match side with
  | Buy => {| base_atoms := base_atoms b + bc_base_lot_atoms config;
              quote_atoms := quote_atoms b - bc_quote_atoms_per_lot config |}
  | Sell => {| base_atoms := base_atoms b - bc_base_lot_atoms config;
               quote_atoms := quote_atoms b + bc_quote_atoms_per_lot config |}
  end.

(** An order the batch can fill: funded on both sides, limit respected, no overflow. *)
Definition fillable (config : BatchConfig) (before : Balances) (o : FundedOrder) : Prop :=
  exists b, before !! fo_participant_id o = Some b /\
    (bc_base_lot_atoms config <= base_atoms b)%Z /\ (bc_quote_atoms_per_lot config <= quote_atoms b)%Z /\
    match fo_side o with
    | Buy => (bc_quote_atoms_per_lot config <= fo_limit_price o)%Z /\
             (base_atoms b + bc_base_lot_atoms config < 2 ^ 64)%Z
    | Sell => (fo_limit_price o <= bc_quote_atoms_per_lot config)%Z /\
              (quote_atoms b + bc_quote_atoms_per_lot config < 2 ^ 64)%Z
    end.

Definition is_buy (o : FundedOrder) : bool := fo_side o == Buy.
Definition lots_of (f : FundedOrder -> bool) (orders : list FundedOrder) : Z :=
  Z.of_nat (length (List.filter f orders)).
(** Signed residual: buys less sells. *)
Definition net_lots (orders : list FundedOrder) : Z :=
  (lots_of is_buy orders - lots_of (fun o => negb (is_buy o)) orders)%Z.

Definition residual_of (n : Z) : Residual :=
  if (0 <? n)%Z then Residual.Buy n else if (n <? 0)%Z then Residual.Sell (- n) else Residual.None.

(** The order of a participant in the batch, if any. *)
Fixpoint order_of (id : ParticipantId) (orders : list FundedOrder) : option FundedOrder :=
  match orders with
  | [] => None
  | o :: orders => if fo_participant_id o == id then Some o else order_of id orders
  end.

Definition settle_balances (config : BatchConfig) (orders : list FundedOrder) (before : Balances) : Balances :=
  map_imap (fun id b => Some (match order_of id orders with
                              | Some o => fill_order config (fo_side o) b
                              | None => b
                              end)) before.

Definition batch_of (config : BatchConfig) (before : Balances) (orders : list FundedOrder) : BatchResult :=
  {| before_balances := before; balances := settle_balances config orders before;
     residual := residual_of (net_lots orders);
     vault_delta := {| vd_base_atoms := net_lots orders * bc_base_lot_atoms config;
                       vd_quote_atoms := - (net_lots orders * bc_quote_atoms_per_lot config) |} |}.

(** The ranges of the Rust types and the sizes a machine can hold. *)
Definition batch_wf (config : BatchConfig) (before : Balances) (orders : list FundedOrder) : Prop :=
  u64_ok (bc_base_lot_atoms config) /\ u64_ok (bc_quote_atoms_per_lot config) /\
  map_Forall (fun _ b => balance_ok b) before /\ (Z.of_nat (size before) < 2 ^ 62)%Z /\
  (Z.of_nat (length orders) < 2 ^ 32)%Z.

(** ** Duplicates *)

Lemma reject_duplicates_Ok seen orders u :
  reject_duplicates seen orders = Ok u <->
  NoDup (map fo_participant_id orders) /\ Forall (fun o => fo_participant_id o ∉ seen) orders.
Proof.
  destruct u. revert seen. induction orders as [|o orders IH]; intros seen; cbn [reject_duplicates map].
  - split; [intros _; split; [apply NoDup_nil_2 | constructor] | done].
  - rewrite list.NoDup_cons, Forall_cons_iff.
    destruct (bool_decide_reflect (fo_participant_id o ∈ seen)) as [Hin|Hin]; [naive_solver|].
    rewrite IH, !list.Forall_forall. split.
    + intros [HN HF]. split_and!; try done; [|intros o' Ho'; specialize (HF o' Ho'); set_solver].
      intros Hx. apply list_elem_of_In, in_map_iff in Hx as (o' & E & Ho').
      apply list_elem_of_In in Ho'. specialize (HF o' Ho'). set_solver.
    + intros [[Hx HN] [_ HF]]. split; [done|]. intros o' Ho'. specialize (HF o' Ho').
      assert (fo_participant_id o' ∈ map fo_participant_id orders) by (by apply list_elem_of_In, in_map, list_elem_of_In).
      set_solver.
Qed.

(** ** The loop *)

Lemma fill_order_ok config m o b :
  u64_ok (bc_base_lot_atoms config) -> u64_ok (bc_quote_atoms_per_lot config) -> fillable config m o ->
  m !! fo_participant_id o = Some b -> balance_ok b -> balance_ok (fill_order config (fo_side o) b).
Proof.
  unfold balance_ok, u64_ok. intros Hc1 Hc2 (b' & Hb' & H1 & H2 & H3) Hb [W1 W2].
  assert (b' = b) as -> by congruence. destruct (fo_side o); cbn; lia.
Qed.

Lemma net_order_Ok config m buys sells o st :
  u64_ok (bc_base_lot_atoms config) -> u64_ok (bc_quote_atoms_per_lot config) ->
  map_Forall (fun _ b => balance_ok b) m -> (0 <= buys < 2 ^ 32 - 1)%Z -> (0 <= sells < 2 ^ 32 - 1)%Z ->
  net_order config (m, buys, sells) o = Ok st <->
  fillable config m o /\ exists b, m !! fo_participant_id o = Some b /\
    st = (<[fo_participant_id o := fill_order config (fo_side o) b]> m,
          if is_buy o then buys + 1 else buys, if is_buy o then sells else sells + 1)%Z.
Proof.
  intros Hc1 Hc2 Hm Hb Hs. unfold net_order, fillable, is_buy. cbn zeta.
  destruct (m !! fo_participant_id o) as [b|] eqn:E; cbn; [|naive_solver].
  pose proof (Hm _ _ E) as [W1 W2]. cbn in W1, W2. unfold u64_ok in *.
  destruct (Z.ltb_spec (base_atoms b) (bc_base_lot_atoms config)),
    (Z.ltb_spec (quote_atoms b) (bc_quote_atoms_per_lot config)); cbn;
    try (split; [done | intros [(b' & [= <-] & ?) ?]; lia]).
  destruct (fo_side o); cbn -[Z.pow].
  - destruct (Z.ltb_spec (fo_limit_price o) (bc_quote_atoms_per_lot config));
      [split; [done | intros [(b' & [= <-] & ?) ?]; lia]|]. split.
    + intros E'. inv_ok. checked. unfold u64_ok in *. split; exists b; [split_and!; try done; lia | by subst].
    + intros [(b1 & [= <-] & ? & ? & ? & ?) (b2 & [= <-] & ->)]. by run_checked.
  - destruct (Z.ltb_spec (bc_quote_atoms_per_lot config) (fo_limit_price o));
      [split; [done | intros [(b' & [= <-] & ?) ?]; lia]|]. split.
    + intros E'. inv_ok. checked. unfold u64_ok in *. split; exists b; [split_and!; try done; lia | by subst].
    + intros [(b1 & [= <-] & ? & ? & ? & ?) (b2 & [= <-] & ->)]. by run_checked.
Qed.

Lemma order_of_None id orders : id ∉ map fo_participant_id orders -> order_of id orders = None.
Proof.
  induction orders as [|o orders IH]; cbn; intros Hid; [done|].
  rewrite bool_decide_eq_false_2 by set_solver. apply IH. set_solver.
Qed.

Lemma settle_balances_cons config o orders m b :
  fo_participant_id o ∉ map fo_participant_id orders -> m !! fo_participant_id o = Some b ->
  settle_balances config (o :: orders) m
  = settle_balances config orders (<[fo_participant_id o := fill_order config (fo_side o) b]> m).
Proof.
  intros Hid Hb. apply map_eq. intros id. unfold settle_balances. rewrite !map_lookup_imap. cbn.
  destruct (decide (fo_participant_id o = id)) as [<-|Hne].
  - rewrite lookup_insert_eq, Hb, bool_decide_eq_true_2 by done. cbn. by rewrite order_of_None.
  - by rewrite lookup_insert_ne, bool_decide_eq_false_2.
Qed.

Lemma fillable_other config m id b o :
  fo_participant_id o <> id -> fillable config (<[id := b]> m) o <-> fillable config m o.
Proof. intros Hne. unfold fillable. by rewrite lookup_insert_ne by congruence. Qed.

Lemma lots_of_cons f o orders : lots_of f (o :: orders) = ((if f o then 1 else 0) + lots_of f orders)%Z.
Proof. unfold lots_of. cbn. destruct (f o); cbn; lia. Qed.

Lemma lots_of_nil f : lots_of f [] = 0%Z.
Proof. done. Qed.

Lemma settle_balances_nil config m : settle_balances config [] m = m.
Proof.
  apply map_eq. intros i. unfold settle_balances. rewrite map_lookup_imap. cbn. by destruct (m !! i).
Qed.

Lemma triple_eq {A} (a : A) (x y x' y' : Z) : x = x' -> y = y' -> (a, x, y) = (a, x', y').
Proof. by intros -> ->. Qed.

Lemma net_loop_Ok config orders m buys sells st :
  u64_ok (bc_base_lot_atoms config) -> u64_ok (bc_quote_atoms_per_lot config) ->
  map_Forall (fun _ b => balance_ok b) m -> NoDup (map fo_participant_id orders) ->
  (0 <= buys /\ buys + Z.of_nat (length orders) < 2 ^ 32)%Z ->
  (0 <= sells /\ sells + Z.of_nat (length orders) < 2 ^ 32)%Z ->
  try_fold (net_order config) (m, buys, sells) orders = Ok st <->
  Forall (fillable config m) orders /\
  st = (settle_balances config orders m, buys + lots_of is_buy orders,
        sells + lots_of (fun o => negb (is_buy o)) orders)%Z.
Proof.
  intros Hc1 Hc2. revert m buys sells. induction orders as [|o orders IH]; intros m buys sells Hm HN Hb Hs; cbn [try_fold].
  - rewrite settle_balances_nil, !lots_of_nil, !Z.add_0_r. split; [intros [= <-]; by split | by intros [_ ->]].
  - cbn [map] in HN. apply list.NoDup_cons in HN as [Hid HN]. cbn [length] in *.
    rewrite bind_Ok, Forall_cons_iff. setoid_rewrite (net_order_Ok config m buys sells o); [|done..|lia|lia].
    assert (forall b, m !! fo_participant_id o = Some b -> fillable config m o ->
      map_Forall (fun _ b => balance_ok b) (<[fo_participant_id o := fill_order config (fo_side o) b]> m)) as Hm'.
    { intros b Eb Hf. apply map_Forall_insert_2; [by eapply fill_order_ok; eauto | done]. }
    assert (forall b, Forall (fillable config (<[fo_participant_id o := b]> m)) orders <-> Forall (fillable config m) orders) as Hfo.
    { intros b. rewrite !list.Forall_forall.
      assert (forall o', o' ∈ orders -> fo_participant_id o' <> fo_participant_id o) as Hne
        by (intros o' Ho' E; apply Hid; rewrite <- E; by apply list_elem_of_In, in_map, list_elem_of_In).
      split; intros HF o' Ho'; specialize (HF o' Ho'); by apply (fillable_other config m _ b o' (Hne o' Ho')). }
    rewrite !lots_of_cons. split.
    + intros (st1 & (Hf & b & Eb & ->) & Hr). apply IH in Hr as [HF ->]; [|by apply Hm'|done|destruct (is_buy o); lia..].
      rewrite Hfo in HF. split; [done|]. rewrite (settle_balances_cons _ _ _ _ b) by done.
      destruct (is_buy o); cbn [negb]; apply triple_eq; lia.
    + intros ((Hf & HF) & ->). pose proof Hf as (b & Eb & _). eexists. split; [split; [done|]; exists b; done|].
      apply IH; [by apply Hm'|done|destruct (is_buy o); lia..|]. rewrite Hfo. split; [done|].
      rewrite (settle_balances_cons _ _ _ _ b) by done. destruct (is_buy o); cbn [negb]; apply triple_eq; lia.
Qed.

(** ** Totals and conservation *)

Definition sumZ {A} (f : A -> Z) (l : list A) : Z := foldr (fun x acc => (f x + acc)%Z) 0%Z l.

Global Instance sumZ_perm {A} (f : A -> Z) : Proper ((≡ₚ) ==> (=)) (sumZ f).
Proof. intros l k HP. unfold sumZ. induction HP; cbn; lia. Qed.

Definition total (f : PoolBalance -> Z) (m : Balances) : Z := sumZ f (btree_values m).

Lemma total_map_to_list f m : total f m = sumZ (fun e => f (snd e)) (map_to_list m).
Proof.
  unfold total, btree_values. rewrite <- (btree_list_perm m). generalize (btree_list m) as l.
  induction l; cbn; [done|]. unfold sumZ in *. lia.
Qed.

Lemma total_delete f m i b : m !! i = Some b -> total f m = (f b + total f (delete i m))%Z.
Proof. intros E. rewrite !total_map_to_list, <- (map_to_list_delete m i b E). done. Qed.

Lemma total_insert f m i b b' : m !! i = Some b -> total f (<[i := b']> m) = (total f m - f b + f b')%Z.
Proof.
  intros E. rewrite (total_delete f m i b E), (total_delete f (<[i := b']> m) i b') by apply lookup_insert_eq.
  rewrite delete_insert_eq. lia.
Qed.

Lemma total_settle f config orders m :
  (forall b, f (fill_order config Buy b) - f b = f (fill_order config Buy {| base_atoms := 0; quote_atoms := 0 |}))%Z ->
  (forall b, f (fill_order config Sell b) - f b = f (fill_order config Sell {| base_atoms := 0; quote_atoms := 0 |}))%Z ->
  NoDup (map fo_participant_id orders) -> Forall (fun o => is_Some (m !! fo_participant_id o)) orders ->
  (total f (settle_balances config orders m)
   = total f m
     + lots_of is_buy orders * f (fill_order config Buy {| base_atoms := 0; quote_atoms := 0 |})
     + lots_of (fun o => negb (is_buy o)) orders * f (fill_order config Sell {| base_atoms := 0; quote_atoms := 0 |}))%Z.
Proof.
  intros HB HS. revert m. induction orders as [|o orders IH]; intros m HN HF.
  - rewrite settle_balances_nil, !lots_of_nil. lia.
  - cbn [map] in HN. apply list.NoDup_cons in HN as [Hid HN]. apply Forall_cons_iff in HF as [[b Eb] HF].
    rewrite (settle_balances_cons _ _ _ _ b Hid Eb), IH, (total_insert f m _ b _ Eb); [|done|].
    + rewrite !lots_of_cons. destruct (fo_side o) eqn:Es.
      * assert (is_buy o = true) as -> by (unfold is_buy; by rewrite Es). specialize (HB b). cbn [negb]. lia.
      * assert (is_buy o = false) as -> by (unfold is_buy; by rewrite Es). specialize (HS b). cbn [negb]. lia.
    + rewrite list.Forall_forall in *. intros o' Ho'. destruct (HF o' Ho') as [b' Hb'].
      destruct (decide (fo_participant_id o = fo_participant_id o')) as [<-|Hne];
        [rewrite lookup_insert_eq | rewrite lookup_insert_ne by done]; eauto.
Qed.

Lemma totals_fold_Some l acc :
  Forall balance_ok l -> (0 <= fst acc)%Z -> (0 <= snd acc)%Z ->
  (fst acc + Z.of_nat (length l) * 2 ^ 64 < 2 ^ 127)%Z -> (snd acc + Z.of_nat (length l) * 2 ^ 64 < 2 ^ 127)%Z ->
  totals_fold acc l = Some (fst acc + sumZ base_atoms l, snd acc + sumZ quote_atoms l)%Z.
Proof.
  revert acc. induction l as [|b l IH]; intros [x y] HF Hx Hy Bx By; cbn [totals_fold sumZ foldr fst snd] in *.
  - by rewrite !Z.add_0_r.
  - apply Forall_cons_iff in HF as [[W1 W2] HF]. cbn [length] in *. unfold u64_ok in *. run_checked.
    rewrite IH by (cbn [fst snd]; try done; lia). cbn [fst snd]. unfold sumZ. f_equal. f_equal; lia.
Qed.

Lemma btree_values_length (m : Balances) : length (btree_values m) = size m.
Proof. unfold btree_values. by rewrite length_map, btree_list_length. Qed.

Lemma totals_Some m :
  map_Forall (fun _ b => balance_ok b) m -> (Z.of_nat (size m) < 2 ^ 62)%Z ->
  totals m = Some (total base_atoms m, total quote_atoms m).
Proof.
  intros HF Hs. unfold totals. rewrite totals_fold_Some; cbn [fst snd]; rewrite ?btree_values_length; try done; try lia.
  unfold btree_values. apply Forall_map, list.Forall_forall. intros [k b] Hin. apply btree_list_elem in Hin.
  by apply (HF k b).
Qed.

Lemma totals_bound m :
  map_Forall (fun _ b => balance_ok b) m -> (Z.of_nat (size m) < 2 ^ 62)%Z ->
  (0 <= total base_atoms m < 2 ^ 126)%Z /\ (0 <= total quote_atoms m < 2 ^ 126)%Z.
Proof.
  intros HF Hs. rewrite <- btree_values_length in Hs. unfold total.
  assert (Forall balance_ok (btree_values m)) as HV.
  { unfold btree_values. apply Forall_map, list.Forall_forall. intros [k b] Hin. apply btree_list_elem in Hin.
    by apply (HF k b). }
  assert (forall l, Forall balance_ok l ->
    (0 <= sumZ base_atoms l <= Z.of_nat (length l) * 2 ^ 64)%Z /\
    (0 <= sumZ quote_atoms l <= Z.of_nat (length l) * 2 ^ 64)%Z) as Hb; [|specialize (Hb _ HV); lia].
  induction 1 as [|b l [W1 W2] _ IH]; cbn [sumZ foldr length]; unfold sumZ, u64_ok in *; lia.
Qed.

Lemma settle_balances_size config orders m : size (settle_balances config orders m) = size m.
Proof.
  rewrite <- !size_dom. unfold settle_balances. f_equal. apply set_eq. intros i.
  rewrite !elem_of_dom, map_lookup_imap. destruct (m !! i); cbn; split; intros [? ?]; eauto; done.
Qed.

(** ** The batch equals its specification *)

Lemma net_residual_spec buys sells :
  net_residual buys sells = (residual_of (buys - sells), (buys - sells)%Z).
Proof.
  unfold net_residual, residual_of. destruct (Z.compare_spec buys sells).
  - subst. by rewrite Z.sub_diag.
  - destruct (Z.ltb_spec 0 (buys - sells)), (Z.ltb_spec (buys - sells) 0); try lia.
    f_equal; [f_equal|]; lia.
  - destruct (Z.ltb_spec 0 (buys - sells)); [done | lia].
Qed.

Lemma lots_of_range f orders : (0 <= lots_of f orders <= Z.of_nat (length orders))%Z.
Proof. unfold lots_of. pose proof (List.filter_length_le f orders). lia. Qed.

Lemma settle_balances_ok config orders m :
  u64_ok (bc_base_lot_atoms config) -> u64_ok (bc_quote_atoms_per_lot config) ->
  map_Forall (fun _ b => balance_ok b) m -> Forall (fillable config m) orders ->
  map_Forall (fun _ b => balance_ok b) (settle_balances config orders m).
Proof.
  intros Hc1 Hc2 Hm HF id b Hb. unfold settle_balances in Hb. rewrite map_lookup_imap in Hb.
  destruct (m !! id) as [b0|] eqn:E; [|done]. cbn in Hb. injection Hb as <-.
  destruct (order_of id orders) as [o|] eqn:Eo; [|by apply (Hm id)].
  assert (o ∈ orders /\ fo_participant_id o = id) as [Hin <-].
  { clear -Eo. induction orders as [|o' orders IH]; cbn in Eo; [done|].
    destruct (bool_decide_reflect (fo_participant_id o' = id)); [|specialize (IH Eo); set_solver].
    injection Eo as <-. set_solver. }
  eapply fill_order_ok; [done | done | by eapply list.Forall_forall | exact E | by apply (Hm (fo_participant_id o))].
Qed.

Lemma batch_conserves config before orders :
  batch_wf config before orders -> NoDup (map fo_participant_id orders) ->
  Forall (fillable config before) orders -> conserves (batch_of config before orders) before = true.
Proof.
  intros (Hc1 & Hc2 & Hm & Hsz & Hlen) HN HF. unfold conserves, batch_of. cbn [balances vault_delta].
  rewrite totals_Some by done.
  rewrite totals_Some by (rewrite ?settle_balances_size; auto using settle_balances_ok).
  assert (Forall (fun o => is_Some (before !! fo_participant_id o)) orders) as HS
    by (eapply Forall_impl; [|exact HF]; intros o (b & -> & _); eauto).
  pose proof (settle_balances_ok config orders before Hc1 Hc2 Hm HF) as Hm'.
  pose proof (totals_bound before Hm Hsz) as (B1 & B2).
  pose proof (totals_bound _ Hm' ltac:(by rewrite settle_balances_size)) as (B3 & B4).
  pose proof (total_settle base_atoms config orders before ltac:(cbn; lia) ltac:(cbn; lia) HN HS) as T1.
  pose proof (total_settle quote_atoms config orders before ltac:(cbn; lia) ltac:(cbn; lia) HN HS) as T2.
  cbn [fill_order base_atoms quote_atoms vd_base_atoms vd_quote_atoms] in *. unfold net_lots.
  apply andb_true_iff. split; apply bool_decide_eq_true; unfold checked_add_i128;
    apply checked_i128_Some; unfold i128_ok; lia.
Qed.

Lemma net_batch_Ok config before orders r :
  batch_wf config before orders ->
  net_batch config before orders = Ok r <->
  orders <> [] /\ NoDup (map fo_participant_id orders) /\ Forall (fillable config before) orders /\
  r = batch_of config before orders.
Proof.
  intros W. pose proof W as (Hc1 & Hc2 & Hm & Hsz & Hlen). unfold net_batch.
  rewrite guard_Ok, bind_Ok. setoid_rewrite reject_duplicates_Ok.
  assert ((match orders with [] => true | _ => false end = false) <-> orders <> []) as -> by (by destruct orders).
  assert (Forall (fun o : FundedOrder => fo_participant_id o ∉ (∅ : gset ParticipantId)) orders) as HE
    by (apply list.Forall_forall; set_solver).
  pose proof (lots_of_range is_buy orders) as R1.
  pose proof (lots_of_range (fun o => negb (is_buy o)) orders) as R2.
  split.
  - intros (Hne & u & [HN _] & E). split_and!; try done.
    all: apply bind_Ok in E as (st & Hst & E); apply net_loop_Ok in Hst as [HF ->]; try done; try lia.
    rewrite net_residual_spec in E. inv_ok. checked. rewrite !Z.add_0_l in *. by subst.
  - intros (Hne & HN & HF & ->). split; [done|]. exists tt. split; [done|].
    rewrite (proj2 (net_loop_Ok config orders before 0 0 _ Hc1 Hc2 Hm HN ltac:(lia) ltac:(lia)) (conj HF eq_refl)).
    cbn [mbind result_bind]. rewrite net_residual_spec, !Z.add_0_l.
    pose proof (batch_conserves config before orders W HN HF) as HC. unfold batch_of, net_lots in *.
    set (n := (lots_of is_buy orders - lots_of (fun o => negb (is_buy o)) orders)%Z) in *.
    assert (i128_ok (n * bc_base_lot_atoms config) /\ i128_ok (n * bc_quote_atoms_per_lot config) /\
            i128_ok (- (n * bc_quote_atoms_per_lot config))) as (I1 & I2 & I3).
    { unfold i128_ok, u64_ok in *. split_and!; nia. }
    unfold checked_mul_i128, checked_neg_i128.
    rewrite (proj2 (checked_i128_Some (n * bc_base_lot_atoms config) _) (conj eq_refl I1)).
    rewrite (proj2 (checked_i128_Some (n * bc_quote_atoms_per_lot config) _) (conj eq_refl I2)).
    cbn [mbind option_bind result_bind ok_or].
    rewrite (proj2 (checked_i128_Some (- (n * bc_quote_atoms_per_lot config)) _) (conj eq_refl I3)).
    cbn [mbind option_bind result_bind ok_or]. by rewrite HC.
Qed.

(** ** The conservation check never fires *)

Lemma net_order_no_conservation config st o : net_order config st o <> Err LedgerError.ConservationFailed.
Proof.
  destruct st as [[m buys] sells]. unfold net_order, ok_or.
  destruct (m !! fo_participant_id o); [|done]. cbn [mbind result_bind]. destruct (_ || _); [done|].
  destruct (fo_side o); (destruct (_ <? _)%Z; [done|]); repeat (case_match; try done).
Qed.

Lemma net_fold_no_conservation config st orders :
  try_fold (net_order config) st orders <> Err LedgerError.ConservationFailed.
Proof.
  revert st. induction orders as [|o orders IH]; intros st; cbn [try_fold]; [done|].
  pose proof (net_order_no_conservation config st o). destruct (net_order config st o) as [st'|e]; [apply IH | done].
Qed.

(** The internal conservation check never fires. *)
Lemma net_batch_no_conservation_failure config before orders :
  batch_wf config before orders -> net_batch config before orders <> Err LedgerError.ConservationFailed.
Proof.
  intros HW E. pose proof E as E0. pose proof (net_batch_Ok config before orders (batch_of config before orders) HW) as [_ HO].
  pose proof HW as (W1 & W2 & W3 & W4 & W5). unfold net_batch in E.
  destruct orders as [|o orders]; [done|]. cbn [mbind result_bind] in E.
  destruct (reject_duplicates ∅ (o :: orders)) as [u|e] eqn:ED; [|].
  2:{ cbn in E. injection E as ->. clear -ED. revert ED. generalize (o :: orders) as l. generalize (∅ : gset ParticipantId) as seen.
      intros seen l. revert seen. induction l as [|x l IH]; intros seen; cbn; [done|]. case_bool_decide; [done | apply IH]. }
  apply reject_duplicates_Ok in ED as [HN _].
  destruct (try_fold (net_order config) (before, 0%Z, 0%Z) (o :: orders)) as [st|e] eqn:EF; cbn [result_bind] in E.
  2:{ injection E as ->. by apply net_fold_no_conservation in EF. }
  destruct (proj1 (net_loop_Ok config (o :: orders) before 0 0 st W1 W2 W3 HN ltac:(lia) ltac:(lia)) EF) as [HF _].
  rewrite HO in E0 by done. discriminate E0.
Qed.
