(* ===== verification/Commitment.v ===== *)
(** * Set commitments (crates/kageb-host/src/commitment.rs)

    [content_root] hashes an unordered set of byte strings under a protocol domain.  It does not
    depend on the order of the leaves, refuses duplicates, and is binding: two sets with one root
    are equal, or the two computations exhibit a SHA-256 collision. *)

From S2P Require Import Prelude Bytes Extern BTree.

Definition LEAF_TAG : list byte := bstr0 "KAGEB_LEAF_V1".
Definition ROOT_TAG : list byte := bstr0 "KAGEB_ROOT_V1".

Inductive CommitmentDomain : Type := BalanceSet | MemberSet | ResultSet.
Global Instance CommitmentDomain_eq_dec : EqDecision CommitmentDomain.
Proof. solve_decision. Defined.

Definition tag (d : CommitmentDomain) : list byte :=
  match d with
  | BalanceSet => bstr0 "KAGEB_BALANCE_SET_V1"
  | MemberSet => bstr0 "KAGEB_MEMBER_SET_V1"
  | ResultSet => bstr0 "KAGEB_RESULT_SET_V1"
  end.

Inductive CommitmentError : Type := DuplicateLeaf.

(** [(slice.len() as u64).to_le_bytes()] *)
Definition len_bytes {A} (l : list A) : list byte := le_bytes 8 (Z.of_nat (length l)).

(** The bytes fed to the hasher for one leaf and for the root. *)
Definition leaf_preimage (domain leaf : list byte) : list byte :=
  LEAF_TAG ++ len_bytes domain ++ domain ++ len_bytes leaf ++ leaf.
Definition root_preimage (domain : list byte) (leaf_hashes : list bytes32) : list byte :=
  ROOT_TAG ++ len_bytes domain ++ domain ++ len_bytes leaf_hashes ++ concat (map arr_list leaf_hashes).

Section commitment.
Context `{Sha256}.

Definition content_root (domain : CommitmentDomain) (leaves : list (list byte)) : result CommitmentError bytes32 :=
  let domain := tag domain in
  let leaf_hashes := map (fun leaf => sha256 (leaf_preimage domain leaf)) leaves in
  let leaf_hashes := sort_arr leaf_hashes in
  if adjacent_equal leaf_hashes then Err DuplicateLeaf else
  Ok (sha256 (root_preimage domain leaf_hashes)).

(** Every message the computation hashes. *)
Definition hashed (d : CommitmentDomain) (leaves : list (list byte)) : list (list byte) :=
  root_preimage (tag d) (sort_arr (map (fun leaf => sha256 (leaf_preimage (tag d) leaf)) leaves))
  :: map (leaf_preimage (tag d)) leaves.

Definition leaf_hashes (d : CommitmentDomain) (leaves : list (list byte)) : list bytes32 :=
  map (fun leaf => sha256 (leaf_preimage (tag d) leaf)) leaves.

Lemma content_root_Ok d leaves r :
  content_root d leaves = Ok r <->
  NoDup (leaf_hashes d leaves) /\ r = sha256 (root_preimage (tag d) (sort_arr (leaf_hashes d leaves))).
Proof.
  unfold content_root. cbn zeta. fold (leaf_hashes d leaves). rewrite guard_Ok, adjacent_equal_sorted
    by (apply (StronglySorted_merge_sort arr_le)).
  assert (NoDup (sort_arr (leaf_hashes d leaves)) <-> NoDup (leaf_hashes d leaves)) as -> by (by rewrite sort_arr_perm).
  naive_solver.
Qed.

Lemma content_root_perm d l1 l2 : l1 ≡ₚ l2 -> content_root d l1 = content_root d l2.
Proof.
  intros HP. unfold content_root. cbn zeta.
  rewrite (sort_arr_unique _ (map (fun leaf => sha256 (leaf_preimage (tag d) leaf)) l2)); [done|].
  by rewrite HP.
Qed.

Lemma content_root_Err d leaves e :
  content_root d leaves = Err e <-> ~ NoDup (leaf_hashes d leaves).
Proof.
  destruct e. pose proof (content_root_Ok d leaves). destruct (content_root d leaves) as [r|[]]; [|naive_solver].
  split; [done|]. intros HN. destruct HN. by apply (H0 r).
Qed.

(** ** Injectivity of the encodings *)

Lemma leaf_preimage_inj d a b : leaf_preimage d a = leaf_preimage d b -> a = b.
Proof.
  unfold leaf_preimage. intros E. do 3 apply app_inv_head in E.
  apply app_inj_1 in E as [_ E]; [done|]. unfold len_bytes. by rewrite !length_le_bytes.
Qed.

Lemma concat_arr_inj {n} (l k : list (arr n)) :
  n <> 0 -> concat (map arr_list l) = concat (map arr_list k) -> l = k.
Proof.
  intros Hn. revert k. induction l as [|a l IH]; intros [|b k] E; cbn in E; try done.
  - apply (f_equal length) in E. rewrite length_app, length_arr in E. cbn in E. lia.
  - apply (f_equal length) in E. rewrite length_app, length_arr in E. cbn in E. lia.
  - apply app_inj_1 in E as [E1 E2]; [|by rewrite !length_arr]. f_equal; [by apply arr_eq | by apply IH].
Qed.

Lemma tag_inj d d' r r' : len_bytes (tag d) ++ tag d ++ r = len_bytes (tag d') ++ tag d' ++ r' -> d = d' /\ r = r'.
Proof.
  intros E. apply app_inj_1 in E as [El E]; [|by unfold len_bytes; rewrite !length_le_bytes].
  destruct d, d'; try (vm_compute in El; discriminate El);
    try (split; [done | by apply app_inv_head in E]);
    cbn in E; discriminate E.
Qed.

Lemma root_preimage_inj d d' l l' :
  root_preimage (tag d) l = root_preimage (tag d') l' -> d = d' /\ l = l'.
Proof.
  unfold root_preimage. intros E. apply app_inv_head, tag_inj in E as [-> E]. split; [done|].
  apply app_inj_1 in E as [_ E]; [|by unfold len_bytes; rewrite !length_le_bytes].
  by apply (concat_arr_inj (n := 32)).
Qed.

(** Equal hash lists give equal leaf lists up to order, or a collision among the hashed leaves. *)
Lemma leaf_hashes_perm d l1 l2 :
  leaf_hashes d l1 ≡ₚ leaf_hashes d l2 ->
  l1 ≡ₚ l2 \/ exists a b, a ∈ l1 /\ b ∈ l2 /\ leaf_preimage (tag d) a <> leaf_preimage (tag d) b /\
    sha256 (leaf_preimage (tag d) a) = sha256 (leaf_preimage (tag d) b).
Proof.
  unfold leaf_hashes. revert l2. induction l1 as [|a l1 IH]; intros l2 HP; cbn [map] in HP.
  - left. apply Permutation_nil_l in HP. symmetry in HP. apply map_eq_nil in HP as ->. done.
  - assert (sha256 (leaf_preimage (tag d) a) ∈ map (fun leaf => sha256 (leaf_preimage (tag d) leaf)) l2) as Hin
      by (rewrite <- HP; set_solver).
    apply list_elem_of_In, in_map_iff in Hin as (b & Eb & Hb). apply list_elem_of_In in Hb.
    destruct (decide (a = b)) as [<-|Hab].
    + apply elem_of_Permutation in Hb as [k Hk]. rewrite Hk in HP. cbn [map] in HP.
      apply Permutation_cons_inv in HP. destruct (IH k HP) as [HP'|(x & y & Hx & Hy & Hne & Hs)].
      * left. by rewrite HP', Hk.
      * right. exists x, y. split_and!; try done; [set_solver | rewrite Hk; set_solver].
    + right. exists a, b. split_and!; try done; [set_solver|]. intros E. by apply leaf_preimage_inj in E.
Qed.

Lemma content_root_binding d1 d2 l1 l2 r :
  content_root d1 l1 = Ok r -> content_root d2 l2 = Ok r ->
  (d1 = d2 /\ l1 ≡ₚ l2) \/
  exists m1 m2, m1 ∈ hashed d1 l1 /\ m2 ∈ hashed d2 l2 /\ m1 <> m2 /\ sha256 m1 = sha256 m2.
Proof.
  intros [_ E1]%content_root_Ok [_ E2]%content_root_Ok.
  destruct (decide (root_preimage (tag d1) (sort_arr (leaf_hashes d1 l1))
                    = root_preimage (tag d2) (sort_arr (leaf_hashes d2 l2)))) as [E|Hne].
  - apply root_preimage_inj in E as [-> E].
    assert (leaf_hashes d2 l1 ≡ₚ leaf_hashes d2 l2) as HP
      by (by rewrite <- (sort_arr_perm (leaf_hashes d2 l1)), E, sort_arr_perm).
    destruct (leaf_hashes_perm d2 l1 l2 HP) as [?|(a & b & Ha & Hb & ? & ?)]; [by left | right].
    exists (leaf_preimage (tag d2) a), (leaf_preimage (tag d2) b). unfold hashed.
    split_and!; try done; apply list_elem_of_In; right; by apply in_map, list_elem_of_In.
  - right. unfold hashed, leaf_hashes in *. eexists _, _. split_and!; [by left | by left | exact Hne | congruence].
Qed.
End commitment.
