(* ===== verification/Storage.v ===== *)
(** * Durable files, advisory locks and checksummed tables

    The journals of the host (reservations, suspensions, accounts) share one scheme: take an
    advisory lock, read the whole file, check header, checksum and exact length, change the table
    in memory, and replace the file by writing a temporary one and renaming it.  The file system
    is a parameter of every operation: [Io] says what each system call did, so that a theorem
    that holds for all [Io] covers busy locks, read errors and crashes before or after the
    rename. *)

From stdpp Require Import relations.
From S2P Require Import Prelude Bytes Extern BTree.

(** ** Runs *)

(** [run R x l]: from [x] on, the states of [l] follow one another by steps of [R]; [final x l] is the
    last of them, and [occurs S x l] says that one of these very steps is also in [S]. *)
Fixpoint run {A} (R : relation A) (x : A) (l : list A) : Prop :=
  match l with [] => True | y :: l => R x y /\ run R y l end.
Fixpoint final {A} (x : A) (l : list A) : A :=
  match l with [] => x | y :: l => final y l end.
Definition occurs {A} (S : relation A) (x : A) (l : list A) : Prop :=
  exists before y z after, x :: l = before ++ y :: z :: after /\ S y z.

Lemma occurs_here {A} (S : relation A) x y l : S x y -> occurs S x (y :: l).
Proof. intros HS. by exists [], x, y, l. Qed.

Lemma occurs_later {A} (S : relation A) x y l : occurs S y l -> occurs S x (y :: l).
Proof. intros (pre & u & v & post & E & HS). exists (x :: pre), u, v, post. by rewrite E. Qed.

Lemma run_rtc {A} (R : relation A) x l : run R x l -> rtc R x (final x l).
Proof. revert x. induction l as [|y l IH]; intros x; [done|]. intros [HR Hl]. eapply rtc_l; [exact HR | by apply IH]. Qed.

(** ** Outcomes of system calls *)

(** [io::ErrorKind]: the one the source distinguishes, and the others. *)
Inductive ErrorKind : Type := WouldBlock | OtherKind (code : Z).
Global Instance ErrorKind_eq_dec : EqDecision ErrorKind.
Proof. solve_decision. Defined.

(** The write-sync-rename-sync sequence: it completes, or fails before the rename took effect
    (the old file stays), or after it (the new file is in place). *)
Inductive WriteOutcome : Type := Written | FailedBefore (e : ErrorKind) | FailedAfter (e : ErrorKind).

(** What the calls of one operation did: [None] is success. *)
Record Io : Type := {
  io_open_lock : option ErrorKind;
  io_try_lock : nat -> option ErrorKind;
  io_metadata : option ErrorKind;
  io_read : option ErrorKind;
  io_write : WriteOutcome;
}.

Definition LOCK_ATTEMPTS : nat := 100.

(** [for _ in 0..LOCK_ATTEMPTS]: retry only on [WouldBlock]. *)
Fixpoint lock_loop (try_lock : nat -> option ErrorKind) (attempt remaining : nat) : result ErrorKind unit :=
  match remaining with
  | O => Err WouldBlock
  | S remaining =>
      match try_lock attempt with
      | None => Ok tt
      | Some error => if error != WouldBlock then Err error else lock_loop try_lock (S attempt) remaining
      end
  end.

Definition AdvisoryLock_acquire (io : Io) : result ErrorKind unit :=
  match io_open_lock io with
  | Some error => Err error
  | None => lock_loop (io_try_lock io) 0 LOCK_ATTEMPTS
  end.

(** [Path::exists]: [false] also when the metadata cannot be read. *)
Definition path_exists (io : Io) (file : option (list byte)) : bool :=
  match io_metadata io, file with None, Some _ => true | _, _ => false end.

(** [fs::read]: a missing file is an error too. *)
Definition read_file (io : Io) (file : option (list byte)) : result ErrorKind (list byte) :=
  match io_read io, file with
  | Some error, _ => Err error
  | None, None => Err (OtherKind 2)
  | None, Some bytes => Ok bytes
  end.

(** Write a temporary file, sync, rename over the journal, sync the directory. *)
Definition replace_file (io : Io) (file : option (list byte)) (bytes : list byte)
  : option (list byte) * result ErrorKind unit :=
  match io_write io with
  | Written => (Some bytes, Ok tt)
  | FailedBefore error => (file, Err error)
  | FailedAfter error => (Some bytes, Err error)
  end.

(** A run in which every call succeeds. *)
Definition io_fine : Io :=
  {| io_open_lock := None; io_try_lock := fun _ => None; io_metadata := None; io_read := None; io_write := Written |}.

Lemma acquire_fine : AdvisoryLock_acquire io_fine = Ok tt.
Proof. done. Qed.

(** The lock is granted exactly when some attempt among the first hundred succeeds and every
    earlier one was told to try again. *)
Lemma lock_loop_Ok f i n u :
  lock_loop f i n = Ok u <->
  exists k, k < n /\ f (i + k) = None /\ forall j, j < k -> f (i + j) = Some WouldBlock.
Proof.
  destruct u. revert i. induction n as [|n IH]; intros i; cbn [lock_loop]; [split; [done | intros (k & ? & _); lia]|].
  destruct (f i) as [e|] eqn:E.
  - destruct (bool_decide_reflect (e = WouldBlock)) as [->|Hne]; cbn [negb].
    + rewrite IH. split.
      * intros (k & Hk & Hf & Hj). exists (S k). replace (i + S k) with (S i + k) by lia.
        split_and!; [lia | done |]. intros [|j] Hlt; [by rewrite Nat.add_0_r|].
        replace (i + S j) with (S i + j) by lia. apply Hj. lia.
      * intros ([|k] & Hk & Hf & Hj); [rewrite Nat.add_0_r in Hf; congruence|].
        exists k. replace (S i + k) with (i + S k) by lia. split_and!; [lia | done |].
        intros j Hlt. replace (S i + j) with (i + S j) by lia. apply Hj. lia.
    + split; [done|]. intros ([|k] & Hk & Hf & Hj); [rewrite Nat.add_0_r in Hf; congruence|].
      specialize (Hj 0 ltac:(lia)). rewrite Nat.add_0_r in Hj. congruence.
  - split; [|done]. intros _. exists 0. rewrite Nat.add_0_r. split_and!; [lia | done | lia].
Qed.

(** ** Checksummed tables *)

Definition CHECKSUM_LEN : nat := 32.

Section checksum.
Context `{Sha256}.

(** [bytes.extend_from_slice(&Sha256::digest(&bytes))] *)
Definition with_checksum (payload : list byte) : list byte := payload ++ (sha256 payload : list byte).

(** [Sha256::digest(&bytes[..payload_len]) == bytes[payload_len..]] *)
Definition checksum_ok (bytes : list byte) : bool :=
  let payload_len := length bytes - CHECKSUM_LEN in
  arr_list (sha256 (take payload_len bytes)) == drop payload_len bytes.

Lemma with_checksum_ok payload : checksum_ok (with_checksum payload) = true.
Proof.
  unfold checksum_ok, with_checksum, CHECKSUM_LEN. rewrite length_app, length_arr.
  replace (length payload + 32 - 32) with (length payload) by lia.
  rewrite take_app_length, drop_app_length. by apply bool_decide_eq_true.
Qed.

Lemma checksum_ok_inv bytes :
  32 <= length bytes -> checksum_ok bytes = true -> bytes = with_checksum (take (length bytes - 32) bytes).
Proof.
  unfold checksum_ok, with_checksum, CHECKSUM_LEN. cbn zeta. intros Hl E. bguard.
  rewrite E. by rewrite take_drop.
Qed.
End checksum.

(** The loading loop over fixed-width entries: decode, then insert, refusing a repeated key.  A
    [BTreeSet] is a [BTreeMap] to the unit type, here as in the Rust library. *)
Section table.
Context {E V : Type} (corrupt : E) (decode : list byte -> result E (bytes32 * V)) (width : nat).

Fixpoint load_table (n offset : nat) (bytes : list byte) (table : gmap bytes32 V) : result E (gmap bytes32 V) :=
  match n with
  | O => Ok table
  | S n =>
      entry ← decode (slice offset (offset + width) bytes);
      match table !! fst entry with
      | Some _ => Err corrupt
      | None => load_table n (offset + width) bytes (<[fst entry := snd entry]> table)
      end
  end.

Context (encode : bytes32 * V -> list byte).

(** The entries of a table as one byte string, in key order. *)
Definition table_bytes (table : gmap bytes32 V) : list byte := concat (map encode (btree_list table)).

Lemma load_table_encoded l pre post table :
  Forall (fun e => length (encode e) = width /\ decode (encode e) = Ok e) l ->
  NoDup (map fst l) -> Forall (fun e => table !! fst e = None) l ->
  load_table (length l) (length pre) (pre ++ concat (map encode l) ++ post) table
  = Ok (list_to_map l ∪ table).
Proof.
  revert pre table. induction l as [|e l IH]; intros pre table HD HN HT; cbn [load_table length map concat].
  - f_equal. symmetry. apply (left_id_L ∅ (∪)).
  - apply Forall_cons_iff in HD as [[Hl Hd] HD], HT as [Ht HT]. cbn [map] in HN.
    apply list.NoDup_cons in HN as [Hk HN].
    assert (slice (length pre) (length pre + width) (pre ++ (encode e ++ concat (map encode l)) ++ post) = encode e) as ->.
    { rewrite slice_skip by lia. rewrite <- app_assoc. replace (length pre - length pre) with 0 by lia.
      apply slice_hit. lia. }
    rewrite Hd. cbn [mbind result_bind]. rewrite Ht.
    replace (pre ++ (encode e ++ concat (map encode l)) ++ post)
      with ((pre ++ encode e) ++ concat (map encode l) ++ post) by (by rewrite <- !app_assoc).
    replace (length pre + width) with (length (pre ++ encode e)) by (rewrite length_app; lia).
    rewrite IH; [|done|done|].
    + f_equal. cbn. destruct e as [k v]. cbn. rewrite <- insert_union_r; [by rewrite insert_union_l|].
      by apply not_elem_of_list_to_map_1.
    + rewrite list.Forall_forall in *. intros e' He'. rewrite lookup_insert_ne; [by apply HT|].
      intros Ek. apply Hk. rewrite Ek. by apply list_elem_of_In, in_map, list_elem_of_In.
Qed.

(** Loading back a table. *)
Lemma load_table_bytes (m : gmap bytes32 V) n off pre post :
  map_Forall (fun k v => length (encode (k, v)) = width /\ decode (encode (k, v)) = Ok (k, v)) m ->
  n = size m -> off = length pre -> load_table n off (pre ++ table_bytes m ++ post) ∅ = Ok m.
Proof.
  intros HF -> ->. rewrite <- btree_list_length. unfold table_bytes. rewrite load_table_encoded.
  - by rewrite btree_list_to_map, (right_id_L ∅ (∪)).
  - apply list.Forall_forall. intros [k r] Hin%btree_list_elem. apply (HF k r Hin).
  - apply btree_list_keys_NoDup.
  - apply list.Forall_forall. intros. apply lookup_empty.
Qed.

Lemma table_bytes_length (m : gmap bytes32 V) :
  map_Forall (fun k v => length (encode (k, v)) = width) m -> length (table_bytes m) = size m * width.
Proof.
  intros HF. unfold table_bytes. rewrite <- btree_list_length.
  assert (forall e, e ∈ btree_list m -> length (encode e) = width) as HL.
  { intros [k v] Hin%btree_list_elem. by apply (HF k v). }
  revert HL. generalize (btree_list m) as l. induction l as [|e l IH]; intros HL; [done|].
  cbn. rewrite length_app, IH, HL; [lia | set_solver..].
Qed.

(** Every loaded entry was decoded from the file, under its own key. *)
Lemma load_table_inv (P : bytes32 -> V -> Prop) n offset bytes table table' :
  load_table n offset bytes table = Ok table' ->
  (forall b k v, decode b = Ok (k, v) -> P k v) ->
  map_Forall P table -> map_Forall P table'.
Proof.
  intros HL HD. revert offset table HL. induction n as [|n IH]; intros offset table HL HF; cbn [load_table] in HL.
  - by injection HL as <-.
  - apply bind_Ok in HL as ([k v] & Hr & HL). cbn [fst snd] in HL. destruct (table !! k); [done|].
    eapply IH; [exact HL|]. apply map_Forall_insert_2; eauto.
Qed.

Lemma load_table_size n offset bytes table table' :
  load_table n offset bytes table = Ok table' -> size table' = n + size table.
Proof.
  revert offset table. induction n as [|n IH]; intros offset table HL; cbn [load_table] in HL.
  - by injection HL as <-.
  - apply bind_Ok in HL as (e & Hr & HL). destruct (table !! fst e) eqn:Ek; [done|].
    apply IH in HL. rewrite map_size_insert_None in HL by done. lia.
Qed.
End table.

(** The first [n] attempts from [i] on are all told to try again. *)
Definition again (f : nat -> option ErrorKind) (i n : nat) : Prop := forall j, j < n -> f (i + j) = Some WouldBlock.

Lemma again_S f i n : again f i (S n) <-> f i = Some WouldBlock /\ again f (S i) n.
Proof.
  split.
  - intros HA. split; [specialize (HA 0 ltac:(lia)); by rewrite Nat.add_0_r in HA|].
    intros j Hj. replace (S i + j) with (i + S j) by lia. apply HA. lia.
  - intros [H0 HA] [|j] Hj; [by rewrite Nat.add_0_r|]. replace (i + S j) with (S i + j) by lia. apply HA. lia.
Qed.

(** A refusal: some attempt fails with another error after attempts told to try again, or all are. *)
Lemma lock_loop_Err f i n e :
  lock_loop f i n = Err e <->
  (e = WouldBlock /\ again f i n) \/ (e <> WouldBlock /\ exists k, k < n /\ f (i + k) = Some e /\ again f i k).
Proof.
  revert i. induction n as [|n IH]; intros i; cbn [lock_loop].
  { split; [intros [= <-]; left; split; [done | intros j ?; lia]|]. intros [[-> _]|(_ & k & ? & _)]; [done | lia]. }
  assert (forall e', f i = Some e' -> (exists k, k < S n /\ f (i + k) = Some e /\ again f i k) <->
    e' = e \/ (e' = WouldBlock /\ exists k, k < n /\ f (S i + k) = Some e /\ again f (S i) k)) as HX.
  { intros e' Ei. split.
    - intros ([|k] & Hk & Hf & HA); [left; rewrite Nat.add_0_r in Hf; congruence|].
      apply again_S in HA as [H0 HA]. right. split; [congruence|]. exists k.
      replace (S i + k) with (i + S k) by lia. split_and!; [lia | done..].
    - intros [->|(-> & k & Hk & Hf & HA)]; [exists 0 | exists (S k)].
      + rewrite Nat.add_0_r. split_and!; [lia | done | intros j ?; lia].
      + replace (i + S k) with (S i + k) by lia. split_and!; [lia | done | by apply again_S]. }
  rewrite again_S. destruct (f i) as [e'|] eqn:Ei.
  - rewrite (HX e' eq_refl). destruct (bool_decide_reflect (e' = WouldBlock)) as [->|Hne]; cbn [negb]; [rewrite IH|]; naive_solver.
  - split; [done|]. intros [(_ & ? & _)|(_ & [|k] & _ & Hf & HA)]; [done | rewrite Nat.add_0_r in Hf; congruence|].
    apply again_S in HA as [? _]. congruence.
Qed.

(** The first twelve bytes of a table file: an eight-byte header and the number of entries. *)
Lemma table_header (header rest : list byte) n :
  length header = 8 -> u32_ok n ->
  let bytes := (header ++ le_bytes 4 n) ++ rest in
  take 8 bytes = header /\ le_val (slice 8 12 bytes) = n /\ length bytes = 12 + length rest.
Proof.
  intros HH Hn. cbn zeta. rewrite <- app_assoc. split_and!.
  - rewrite <- HH at 1. apply take_app_length.
  - rewrite slice_skip, HH by lia. cbn [Nat.sub]. rewrite slice_hit by apply length_le_bytes. by apply le_val_u32.
  - rewrite !length_app, length_le_bytes, HH. lia.
Qed.
