(* ===== verification/Reservation.v ===== *)
(** * The reservation journal (crates/kageb-host/src/admission.rs)

    A durable table of funded reservations keyed by nonce.  Every operation takes the advisory
    lock, reads the whole file, changes the table and replaces the file; an in-memory copy of
    the table is refreshed on success only. *)

From S2P Require Import Prelude Bytes Extern BTree Ledger Storage.

Definition RESERVATION_HEADER : list byte := Eval vm_compute in bstr0 "KGBRSV2".
Definition RESERVATION_RECORD_LEN : nat := 113.

Module ReservationState.
Inductive t : Type := Reserved | Used | Released.
End ReservationState.
Abbreviation ReservationState := ReservationState.t.
Global Instance ReservationState_eq_dec : EqDecision ReservationState.
Proof. solve_decision. Defined.

Module JournalError.
Inductive t : Type :=
| Io (kind : ErrorKind)
| Busy
| Corrupt
| DuplicateNonce
| UnknownNonce
| InvalidTransition
| InvalidAmount
| InsufficientBalance
| ArithmeticOverflow.
End JournalError.
Abbreviation JournalError := JournalError.t.
Global Instance JournalError_eq_dec : EqDecision JournalError.
Proof. solve_decision. Defined.

Definition ReservationState_as_u8 (s : ReservationState) : Z :=
  match s with ReservationState.Reserved => 1 | ReservationState.Used => 2 | ReservationState.Released => 3 end.

Definition ReservationState_try_from (value : Z) : result JournalError ReservationState :=
  match value with
  | 1%Z => Ok ReservationState.Reserved
  | 2%Z => Ok ReservationState.Used
  | 3%Z => Ok ReservationState.Released
  | _ => Err JournalError.Corrupt
  end.

Record ReservationRecord : Type := {
  rr_nonce : bytes32;
  rr_epoch_id : bytes32;
  rr_participant_id : bytes32;
  rr_base_atoms : Z;
  rr_quote_atoms : Z;
  rr_state : ReservationState;
}.

(** The capability handed out once the reservation is durable. *)
Record UnsignedFundedAuthorizationV1 : Type := {
  ua_nonce : bytes32;
  ua_epoch_id : bytes32;
  ua_participant_id : bytes32;
  ua_base_atoms : Z;
  ua_quote_atoms : Z;
}.

Definition into_parts (u : UnsignedFundedAuthorizationV1) : bytes32 * bytes32 * bytes32 * Z * Z :=
  (ua_nonce u, ua_epoch_id u, ua_participant_id u, ua_base_atoms u, ua_quote_atoms u).

Definition ReservationRecord_new (nonce epoch_id participant_id : bytes32) (base_atoms quote_atoms : Z)
  : result JournalError ReservationRecord :=
  if (nonce == zero32) || (epoch_id == zero32) || (participant_id == zero32)
     || (base_atoms == 0%Z) || (quote_atoms == 0%Z)
  then Err JournalError.InvalidAmount else
  Ok {| rr_nonce := nonce; rr_epoch_id := epoch_id; rr_participant_id := participant_id;
        rr_base_atoms := base_atoms; rr_quote_atoms := quote_atoms; rr_state := ReservationState.Reserved |}.

(** [record.state = state] *)
Definition with_state (r : ReservationRecord) (state : ReservationState) : ReservationRecord :=
  {| rr_nonce := rr_nonce r; rr_epoch_id := rr_epoch_id r; rr_participant_id := rr_participant_id r;
     rr_base_atoms := rr_base_atoms r; rr_quote_atoms := rr_quote_atoms r; rr_state := state |}.

Definition ReservationRecord_decode (bytes : list byte) : result JournalError ReservationRecord :=
  if length bytes != RESERVATION_RECORD_LEN then Err JournalError.Corrupt else
  nonce ← ok_or JournalError.Corrupt (try_into 32 (slice 0 32 bytes));
  epoch_id ← ok_or JournalError.Corrupt (try_into 32 (slice 32 64 bytes));
  participant_id ← ok_or JournalError.Corrupt (try_into 32 (slice 64 96 bytes));
  let base_atoms := le_val (slice 96 104 bytes) in
  let quote_atoms := le_val (slice 104 112 bytes) in
  record ← map_err (fun _ => JournalError.Corrupt)
    (ReservationRecord_new nonce epoch_id participant_id base_atoms quote_atoms);
  state ← ReservationState_try_from (u8_at 112 bytes);
  Ok (with_state record state).

Definition ReservationRecord_encode (r : ReservationRecord) : list byte :=
  (rr_nonce r : list byte) ++ (rr_epoch_id r : list byte) ++ (rr_participant_id r : list byte)
  ++ le_bytes 8 (rr_base_atoms r) ++ le_bytes 8 (rr_quote_atoms r)
  ++ [byte_of (ReservationState_as_u8 (rr_state r))].

Abbreviation Reservations := (gmap bytes32 ReservationRecord).

(** The journal: the file at its path, which other handles share, and this handle's copy. *)
Record ReservationJournal : Type := { rj_file : option (list byte); rj_records : Reservations }.

(** [HEADER.len() + 4 + count * RECORD_LEN + CHECKSUM_LEN] in checked [usize] arithmetic. *)
Definition checked_table_len (header : Z) (count record_len : Z) : option Z :=
  length ← checked_add_u64 header 4;
  size ← checked_mul_u64 count record_len;
  length ← checked_add_u64 length size;
  checked_add_u64 length (Z.of_nat CHECKSUM_LEN).

Section journal.
Context `{Sha256}.

(** *** Loading and persisting *)

Definition reservation_entry (bytes : list byte) : result JournalError (bytes32 * ReservationRecord) :=
  record ← ReservationRecord_decode bytes; Ok (rr_nonce record, record).

Definition decode_records (bytes : list byte) : result JournalError Reservations :=
  if (length bytes <? length RESERVATION_HEADER + 4 + CHECKSUM_LEN)%nat
     || (take (length RESERVATION_HEADER) bytes != RESERVATION_HEADER)
  then Err JournalError.Corrupt else
  if negb (checksum_ok bytes) then Err JournalError.Corrupt else
  let count := le_val (slice 8 12 bytes) in
  expected_len ← ok_or JournalError.Corrupt (checked_table_len 8 count (Z.of_nat RESERVATION_RECORD_LEN));
  if Z.of_nat (length bytes) != expected_len then Err JournalError.Corrupt else
  load_table JournalError.Corrupt reservation_entry RESERVATION_RECORD_LEN (Z.to_nat count) 12 bytes ∅.

Definition load_records (io : Io) (file : option (list byte)) : result JournalError Reservations :=
  bytes ← map_err JournalError.Io (read_file io file);
  decode_records bytes.

Definition encode_records (records : Reservations) : list byte :=
  with_checksum (RESERVATION_HEADER ++ le_bytes 4 (Z.of_nat (size records))
                 ++ concat (map ReservationRecord_encode (btree_values records))).

Definition persist_records (io : Io) (file : option (list byte)) (records : Reservations)
  : option (list byte) * result JournalError unit :=
  match checked_u32 (Z.of_nat (size records)) with
  | None => (file, Err JournalError.ArithmeticOverflow)
  | Some _ =>
      let '(file, written) := replace_file io file (encode_records records) in
      (file, map_err JournalError.Io written)
  end.

Definition acquire_journal_lock (io : Io) : result JournalError unit :=
  map_err (fun error => if error == WouldBlock then JournalError.Busy else JournalError.Io error)
    (AdvisoryLock_acquire io).

(** *** Operations *)

(** [ReservationJournal::open]: the file afterwards, and the new handle. *)
Definition ReservationJournal_open (io : Io) (file : option (list byte))
  : option (list byte) * result JournalError ReservationJournal :=
  _ ←[file] acquire_journal_lock io;
  let '(file, created) := if path_exists io file then (file, Ok tt) else persist_records io file ∅ in
  _ ←[file] created;
  records ←[file] load_records io file;
  (file, Ok {| rj_file := file; rj_records := records |}).

Definition ReservationJournal_mutate (io : Io) (self : ReservationJournal)
    (operation : Reservations -> result JournalError Reservations)
  : ReservationJournal * result JournalError unit :=
  _ ←[self] acquire_journal_lock io;
  current ←[self] load_records io (rj_file self);
  current ←[self] operation current;
  let '(file, persisted) := persist_records io (rj_file self) current in
  _ ←[{| rj_file := file; rj_records := rj_records self |}] persisted;
  ({| rj_file := file; rj_records := current |}, Ok tt).

(** The sums over the participant's live reservations, in key order. *)
Definition live_of (participant_id : bytes32) (existing : ReservationRecord) : bool :=
  (rr_participant_id existing == participant_id) && (rr_state existing == ReservationState.Reserved).

Fixpoint reserved_totals (totals : Z * Z) (l : list ReservationRecord) : option (Z * Z) :=
  match l with
  | [] => Some totals
  | existing :: l =>
      base ← checked_add_u64 (fst totals) (rr_base_atoms existing);
      quote ← checked_add_u64 (snd totals) (rr_quote_atoms existing);
      reserved_totals (base, quote) l
  end.

Definition reserve_operation (record : ReservationRecord) (available : PoolBalance) (records : Reservations)
  : result JournalError Reservations :=
  if bool_decide (is_Some (records !! rr_nonce record)) then Err JournalError.DuplicateNonce else
  '(reserved_base, reserved_quote) ← ok_or JournalError.ArithmeticOverflow
    (reserved_totals (0%Z, 0%Z) (List.filter (live_of (rr_participant_id record)) (btree_values records)));
  required_base ← ok_or JournalError.ArithmeticOverflow (checked_add_u64 reserved_base (rr_base_atoms record));
  required_quote ← ok_or JournalError.ArithmeticOverflow (checked_add_u64 reserved_quote (rr_quote_atoms record));
  if (base_atoms available <? required_base)%Z || (quote_atoms available <? required_quote)%Z
  then Err JournalError.InsufficientBalance else
  Ok (<[rr_nonce record := record]> records).

Definition ReservationJournal_reserve (io : Io) (self : ReservationJournal) (record : ReservationRecord)
    (available : PoolBalance) : ReservationJournal * result JournalError UnsignedFundedAuthorizationV1 :=
  let '(self, mutated) := ReservationJournal_mutate io self (reserve_operation record available) in
  _ ←[self] mutated;
  (self, Ok {| ua_nonce := rr_nonce record; ua_epoch_id := rr_epoch_id record;
               ua_participant_id := rr_participant_id record; ua_base_atoms := rr_base_atoms record;
               ua_quote_atoms := rr_quote_atoms record |}).

Definition transition_operation (nonce : bytes32) (next : ReservationState) (records : Reservations)
  : result JournalError Reservations :=
  record ← ok_or JournalError.UnknownNonce (records !! nonce);
  if rr_state record != ReservationState.Reserved then Err JournalError.InvalidTransition else
  Ok (<[nonce := with_state record next]> records).

Definition ReservationJournal_transition (io : Io) (self : ReservationJournal) (nonce : bytes32)
    (next : ReservationState) : ReservationJournal * result JournalError unit :=
  ReservationJournal_mutate io self (transition_operation nonce next).

Definition ReservationJournal_mark_used (io : Io) (self : ReservationJournal) (nonce : bytes32) :=
  ReservationJournal_transition io self nonce ReservationState.Used.

Definition ReservationJournal_release (io : Io) (self : ReservationJournal) (nonce : bytes32) :=
  ReservationJournal_transition io self nonce ReservationState.Released.

Definition ReservationJournal_state (self : ReservationJournal) (nonce : bytes32) : option ReservationState :=
  rr_state <$> rj_records self !! nonce.

(** One turn of the checking loop of [finalize_epoch]: nonces seen, members, [had_used]. *)
Definition finalize_check (epoch_id : bytes32) (current : Reservations)
    (acc : gset bytes32 * gset bytes32 * bool) (nonce : bytes32)
  : result JournalError (gset bytes32 * gset bytes32 * bool) :=
  let '(seen_nonces, members, had_used) := acc in
  if bool_decide (nonce ∈ seen_nonces) then Err JournalError.InvalidTransition else
  record ← ok_or JournalError.UnknownNonce (current !! nonce);
  if (rr_epoch_id record != epoch_id) || (rr_state record == ReservationState.Released)
  then Err JournalError.InvalidTransition else
  Ok ({[nonce]} ∪ seen_nonces, {[rr_participant_id record]} ∪ members,
      had_used || (rr_state record == ReservationState.Used)).

(** One turn of the updating loop: only a live reservation changes. *)
Definition advance (next : ReservationState) (acc : Reservations * bool) (nonce : bytes32)
  : result JournalError (Reservations * bool) :=
  let '(current, changed) := acc in
  record ← ok_or JournalError.UnknownNonce (current !! nonce);
  if rr_state record == ReservationState.Reserved
  then Ok (<[nonce := with_state record next]> current, true)
  else Ok (current, changed).

(** The common tail of the two epoch operations: update, persist when something changed. *)
Definition finish_epoch (io : Io) (self : ReservationJournal) (current : Reservations)
    (nonces : list bytes32) (next : ReservationState) : ReservationJournal * result JournalError unit :=
  '(current, changed) ←[self] try_fold (advance next) (current, false) nonces;
  let '(file, persisted) :=
    if changed : bool then persist_records io (rj_file self) current else (rj_file self, Ok tt) in
  _ ←[{| rj_file := file; rj_records := rj_records self |}] persisted;
  ({| rj_file := file; rj_records := current |}, Ok tt).

(** [apply] is the caller's closure over a state [S] of its own. *)
Definition finalize_epoch {E S} (io : Io) (self : ReservationJournal) (s : S) (epoch_id : bytes32)
    (nonces : list bytes32) (expected_members : gset bytes32) (apply : bool -> S -> S * result E unit)
  : ReservationJournal * S * result JournalError (result E unit) :=
  _ ←[(self, s)] acquire_journal_lock io;
  current ←[(self, s)] load_records io (rj_file self);
  '(_, members, had_used) ←[(self, s)] try_fold (finalize_check epoch_id current) (∅, ∅, false) nonces;
  if (length nonces != size expected_members) || (members != expected_members)
  then (self, s, Err JournalError.InvalidTransition) else
  let '(s, applied) := apply had_used s in
  match applied with
  | Err error => (self, s, Ok (Err error))
  | Ok _ =>
      let '(self, finished) := finish_epoch io self current nonces ReservationState.Used in
      _ ←[(self, s)] finished;
      (self, s, Ok (Ok tt))
  end.

Definition release_check (epoch_id : bytes32) (current : Reservations) (seen : gset bytes32) (nonce : bytes32)
  : result JournalError (gset bytes32) :=
  if bool_decide (nonce ∈ seen) then Err JournalError.InvalidTransition else
  record ← ok_or JournalError.UnknownNonce (current !! nonce);
  if (rr_epoch_id record != epoch_id) || (rr_state record == ReservationState.Used)
  then Err JournalError.InvalidTransition else Ok ({[nonce]} ∪ seen).

Definition release_epoch_checked {E S} (io : Io) (self : ReservationJournal) (s : S) (epoch_id : bytes32)
    (nonces : list bytes32) (check : S -> S * result E unit)
  : ReservationJournal * S * result JournalError (result E unit) :=
  _ ←[(self, s)] acquire_journal_lock io;
  current ←[(self, s)] load_records io (rj_file self);
  _ ←[(self, s)] try_fold (release_check epoch_id current) ∅ nonces;
  let '(s, checked) := check s in
  match checked with
  | Err error => (self, s, Ok (Err error))
  | Ok _ =>
      let '(self, finished) := finish_epoch io self current nonces ReservationState.Released in
      _ ←[(self, s)] finished;
      (self, s, Ok (Ok tt))
  end.
End journal.
