(* ===== verification/ReservationProps.v ===== *)
(** * The reservation journal: codec, table laws and durable steps

    The file of a journal represents a table; every operation, for every behaviour of the file
    system, leaves a file that represents a table the old one may evolve to. *)

From S2P Require Import Prelude Bytes Extern BTree Ledger Storage Reservation.

Import ReservationState.

(** ** The record codec *)

Definition record_wf (r : ReservationRecord) : Prop :=
  rr_nonce r <> zero32 /\ rr_epoch_id r <> zero32 /\ rr_participant_id r <> zero32 /\
  (u64_ok (rr_base_atoms r) /\ rr_base_atoms r <> 0%Z) /\ (u64_ok (rr_quote_atoms r) /\ rr_quote_atoms r <> 0%Z).

Definition record_fields (r : ReservationRecord) : list (list byte) :=
  [rr_nonce r : list byte; rr_epoch_id r : list byte; rr_participant_id r : list byte;
   le_bytes 8 (rr_base_atoms r); le_bytes 8 (rr_quote_atoms r); [byte_of (ReservationState_as_u8 (rr_state r))]].

Lemma record_layout r : map length (record_fields r) = [32; 32; 32; 8; 8; 1].
Proof. cbn [map record_fields]. by autorewrite with len. Qed.

Lemma record_encode_fields r : ReservationRecord_encode r = concat (record_fields r).
Proof. unfold ReservationRecord_encode, record_fields. cbn [concat]. by rewrite app_nil_r. Qed.

Lemma record_encode_length r : length (ReservationRecord_encode r) = 113.
Proof. rewrite record_encode_fields. cbn [concat record_fields]. len. Qed.

Lemma state_try_from_as s : ReservationState_try_from (ReservationState_as_u8 s) = Ok s.
Proof. by destruct s. Qed.

Lemma state_as_u8_ok s : u8_ok (ReservationState_as_u8 s).
Proof. destruct s; unfold u8_ok; cbn; lia. Qed.

Lemma state_as_try_from v s : ReservationState_try_from v = Ok s -> v = ReservationState_as_u8 s.
Proof.
  unfold ReservationState_try_from. intros H.
  repeat (match type of H with context [match ?x with _ => _ end] => destruct x end; try discriminate);
    injection H as <-; done.
Qed.

Lemma record_new_Ok n e p b q r :
  ReservationRecord_new n e p b q = Ok r <->
  (n <> zero32 /\ e <> zero32 /\ p <> zero32 /\ b <> 0%Z /\ q <> 0%Z) /\
  r = {| rr_nonce := n; rr_epoch_id := e; rr_participant_id := p; rr_base_atoms := b; rr_quote_atoms := q;
         rr_state := Reserved |}.
Proof.
  unfold ReservationRecord_new. rewrite guard_Ok, !orb_false_iff, !bool_decide_eq_false.
  split; [intros (Hc & [= <-]) | intros (Hc & ->)]; tauto.
Qed.

Lemma record_decode_encode r : record_wf r -> ReservationRecord_decode (ReservationRecord_encode r) = Ok r.
Proof.
  intros (Hn & He & Hp & [Hb Hb0] & [Hq Hq0]). unfold ReservationRecord_decode, RESERVATION_RECORD_LEN.
  rewrite record_encode_length, record_encode_fields. pose proof (record_layout r) as HL. fields HL.
  cbn [nth record_fields]. unfold byte_at. cbn [nth]. pose proof (state_as_u8_ok (rr_state r)).
  autorewrite with wire. rewrite !state_try_from_as.
  change (bool_decide (113 = 113)) with true. cbn [negb mbind result_bind ok_or].
  rewrite (proj2 (record_new_Ok _ _ _ _ _ _)) by (split; [tauto | reflexivity]). by destruct r.
Qed.

Lemma record_encode_decode bytes r :
  ReservationRecord_decode bytes = Ok r -> record_wf r /\ ReservationRecord_encode r = bytes.
Proof.
  unfold ReservationRecord_decode, RESERVATION_RECORD_LEN. intros H. inv_ok. bguard.
  repeat match goal with T : ReservationRecord_new _ _ _ _ _ = Ok _ |- _ => apply record_new_Ok in T as [(? & ? & ? & ? & ?) ->] end.
  subst r. split.
  - unfold record_wf. cbn -[slice]. split_and!; try done; apply u64_slice_ok; lia.
  - rewrite record_encode_fields. unfold record_fields, with_state. cbn -[slice le_bytes byte_of concat ReservationState_as_u8].
    match goal with T : ReservationState_try_from _ = Ok _ |- _ => apply state_as_try_from in T; rewrite <- T end.
    uncut [32; 32; 32; 8; 8; 1].
Qed.

(** ** Files and tables *)

(** A table a file can hold. *)
Definition table_ok (m : Reservations) : Prop :=
  map_Forall (fun k r => rr_nonce r = k /\ record_wf r) m /\ (Z.of_nat (size m) < 2 ^ 32)%Z.

Lemma concat_values (m : Reservations) :
  concat (map ReservationRecord_encode (btree_values m)) = table_bytes (fun e => ReservationRecord_encode (snd e)) m.
Proof. unfold table_bytes, btree_values. by rewrite map_map. Qed.

Lemma checked_table_len_Some h c w :
  (0 <= h <= 2 ^ 16)%Z -> u32_ok c -> (0 <= w <= 2 ^ 16)%Z ->
  checked_table_len h c w = Some (h + 4 + c * w + 32)%Z.
Proof.
  unfold u32_ok. intros Hh Hc Hw. unfold checked_table_len, CHECKSUM_LEN.
  assert (0 <= c * w <= 2 ^ 32 * 2 ^ 16)%Z by nia. by run_checked.
Qed.

Section files.
Context `{Sha256}.

Lemma encode_records_length m : length (encode_records m) = 12 + size m * 113 + 32.
Proof.
  unfold encode_records, with_checksum. rewrite concat_values, !length_app, length_le_bytes, length_arr.
  rewrite (table_bytes_length 113); [change (length RESERVATION_HEADER) with 8; lia|].
  intros k r _. apply record_encode_length.
Qed.

Lemma encode_records_split m :
  encode_records m = (RESERVATION_HEADER ++ le_bytes 4 (Z.of_nat (size m)))
    ++ table_bytes (fun e => ReservationRecord_encode (snd e)) m ++ (sha256
       (RESERVATION_HEADER ++ le_bytes 4 (Z.of_nat (size m))
        ++ concat (map ReservationRecord_encode (btree_values m))) : list byte).
Proof. unfold encode_records, with_checksum. by rewrite <- concat_values, <- !app_assoc. Qed.

(** What is persisted is read back. *)
Lemma decode_encode_records m : table_ok m -> decode_records (encode_records m) = Ok m.
Proof.
  intros [HF Hs]. unfold decode_records, RESERVATION_RECORD_LEN, CHECKSUM_LEN.
  assert (checksum_ok (encode_records m) = true) as -> by apply with_checksum_ok.
  change (length RESERVATION_HEADER) with 8.
  assert (u32_ok (Z.of_nat (size m))) as Hu by (unfold u32_ok; lia).
  assert (take 8 (encode_records m) = RESERVATION_HEADER) as ->.
  { rewrite encode_records_split, <- !app_assoc. apply (take_app_length RESERVATION_HEADER). }
  assert (le_val (slice 8 12 (encode_records m)) = Z.of_nat (size m)) as ->.
  { rewrite encode_records_split, <- !app_assoc, slice_skip by (cbn; lia).
    rewrite slice_hit by (by rewrite length_le_bytes). by apply le_val_u32. }
  rewrite encode_records_length, bool_decide_eq_true_2 by done.
  assert ((12 + size m * 113 + 32 <? 8 + 4 + 32) = false)%nat as -> by (apply Nat.ltb_ge; lia).
  cbn [negb orb ok_or]. cbn zeta. rewrite checked_table_len_Some by (try done; lia). cbn [ok_or mbind result_bind].
  rewrite bool_decide_eq_true_2 by lia. cbn [negb]. rewrite Nat2Z.id, encode_records_split.
  apply load_table_bytes; [|done | by rewrite length_app, length_le_bytes].
  intros k r Hk. cbn [snd]. destruct (HF k r Hk) as [<- Hw]. split; [apply record_encode_length|].
  unfold reservation_entry. by rewrite record_decode_encode.
Qed.

(** Whatever is read is a table the journal could have written. *)
Lemma decode_records_ok bytes m : decode_records bytes = Ok m -> table_ok m.
Proof.
  unfold decode_records, RESERVATION_RECORD_LEN, CHECKSUM_LEN. change (length RESERVATION_HEADER) with 8.
  intros HD. inv_ok. bguard. assert (u32_ok (le_val (slice 8 12 bytes))) as Hu by (apply u32_slice_ok; lia).
  split.
  - eapply (load_table_inv _ _ _ (fun k r => rr_nonce r = k /\ record_wf r)); [exact HD | | apply map_Forall_empty].
    intros b k r Hb. unfold reservation_entry in Hb. inv_ok.
    match goal with T : ReservationRecord_decode _ = Ok _ |- _ => apply record_encode_decode in T as [? _] end.
    by simplify_eq.
  - apply load_table_size in HD. rewrite HD, map_size_empty, Nat.add_0_r. unfold u32_ok in Hu. lia.
Qed.

(** The table a file represents. *)
Definition represents (file : option (list byte)) (m : Reservations) : Prop :=
  exists bytes, file = Some bytes /\ decode_records bytes = Ok m.

Lemma represents_fun file m m' : represents file m -> represents file m' -> m = m'.
Proof. intros (b & -> & E) (b' & [= <-] & E'). congruence. Qed.

Lemma represents_ok file m : represents file m -> table_ok m.
Proof. intros (b & _ & E). by eapply decode_records_ok. Qed.

Lemma represents_encode m : table_ok m -> represents (Some (encode_records m)) m.
Proof. intros Hm. eexists. split; [done|]. by apply decode_encode_records. Qed.

Lemma load_records_Ok io file m : load_records io file = Ok m <-> io_read io = None /\ represents file m.
Proof.
  unfold load_records, read_file, represents. destruct (io_read io), file as [b|]; cbn; naive_solver.
Qed.

(** A write leaves the old file or the complete new one, and reports success only for the new. *)
Lemma persist_records_cases io file m file' r :
  persist_records io file m = (file', r) ->
  (file' = file /\ r <> Ok tt) \/ (file' = Some (encode_records m) /\ (Z.of_nat (size m) < 2 ^ 32)%Z).
Proof.
  unfold persist_records, replace_file. destruct (checked_u32 _) as [v|] eqn:E; [|intros [= <- <-]; by left].
  apply checked_u32_Some in E as [_ [_ E]].
  destruct (io_write io); intros [= <- <-]; [by right | by left | by right].
Qed.

Lemma persist_records_Ok io file m file' :
  persist_records io file m = (file', Ok tt) -> file' = Some (encode_records m).
Proof. intros E. apply persist_records_cases in E as [[_ Hr]|[-> _]]; done. Qed.
End files.

(** ** What may happen to one reservation *)

Inductive record_step : option ReservationRecord -> option ReservationRecord -> Prop :=
| record_stays o : record_step o o
| record_reserved r : rr_state r = Reserved -> record_step None (Some r)
| record_advances r next :
    rr_state r = Reserved -> next <> Reserved -> record_step (Some r) (Some (with_state r next)).

Definition evolves (m m' : Reservations) : Prop := forall n, record_step (m !! n) (m' !! n).

Lemma evolves_refl m : evolves m m.
Proof. intros n. constructor. Qed.

Lemma evolves_insert m n o r :
  m !! n = o -> record_step o (Some r) -> evolves m (<[n := r]> m).
Proof.
  intros <- Hr n'. destruct (decide (n = n')) as [<-|Hne]; [by rewrite lookup_insert_eq|].
  rewrite lookup_insert_ne by done. constructor.
Qed.

(** The part of [table_ok] that concerns single records. *)
Definition records_ok (m : Reservations) : Prop := map_Forall (fun k r => rr_nonce r = k /\ record_wf r) m.

Lemma with_state_ok k r next : rr_nonce r = k /\ record_wf r -> rr_nonce (with_state r next) = k /\ record_wf (with_state r next).
Proof. by destruct r. Qed.

(** *** The two single-record operations *)

Lemma reserve_operation_step record available m m' :
  record_wf record -> rr_state record = Reserved -> records_ok m ->
  reserve_operation record available m = Ok m' -> evolves m m' /\ records_ok m'.
Proof.
  intros Hw Hs Hm E. unfold reserve_operation in E. inv_ok. bguard. subst m'.
  assert (m !! rr_nonce record = None) as Hn by (by apply eq_None_not_Some). split.
  - apply (evolves_insert _ _ _ _ Hn). by constructor.
  - by apply map_Forall_insert_2.
Qed.

Lemma transition_operation_Ok nonce next m m' :
  transition_operation nonce next m = Ok m' <->
  exists r, m !! nonce = Some r /\ rr_state r = Reserved /\ m' = <[nonce := with_state r next]> m.
Proof.
  unfold transition_operation. split.
  - intros E. inv_ok. bguard. subst. eauto.
  - intros (r & -> & Hs & ->). cbn. by rewrite bool_decide_eq_true_2.
Qed.

Lemma transition_operation_step nonce next m m' :
  next <> Reserved -> records_ok m ->
  transition_operation nonce next m = Ok m' -> evolves m m' /\ records_ok m'.
Proof.
  intros Hx Hm (r & Hr & Hs & ->)%transition_operation_Ok. split.
  - apply (evolves_insert _ _ _ _ Hr). by constructor.
  - apply map_Forall_insert_2; [|done]. apply with_state_ok, (Hm _ _ Hr).
Qed.

(** *** The updating loop of the epoch operations *)

Definition advance_record (next : ReservationState) (r : ReservationRecord) : ReservationRecord :=
  if rr_state r == Reserved then with_state r next else r.

(** Every live reservation among [nonces] moved to [next]. *)
Definition advance_all (next : ReservationState) (nonces : list bytes32) (m : Reservations) : Reservations :=
  map_imap (fun n r => Some (if bool_decide (n ∈ nonces) then advance_record next r else r)) m.

Lemma lookup_advance_all next nonces m n :
  advance_all next nonces m !! n
  = (fun r => if bool_decide (n ∈ nonces) then advance_record next r else r) <$> m !! n.
Proof. unfold advance_all. rewrite map_lookup_imap. by destruct (m !! n). Qed.

Lemma advance_all_nil next m : advance_all next [] m = m.
Proof.
  apply map_eq. intros n. rewrite lookup_advance_all. rewrite bool_decide_eq_false_2 by set_solver.
  by destruct (m !! n).
Qed.

Lemma advance_record_twice next r :
  next <> Reserved -> advance_record next (advance_record next r) = advance_record next r.
Proof.
  intros Hx. unfold advance_record. destruct (bool_decide_reflect (rr_state r = Reserved)) as [Hr|Hr]; cbn.
  - by rewrite bool_decide_eq_false_2.
  - by rewrite bool_decide_eq_false_2.
Qed.

Lemma advance_all_cons next n nonces m r :
  next <> Reserved -> m !! n = Some r ->
  advance_all next nonces (<[n := advance_record next r]> m) = advance_all next (n :: nonces) m.
Proof.
  intros Hx Hr. apply map_eq. intros n'. rewrite !lookup_advance_all.
  destruct (decide (n = n')) as [<-|Hne].
  - rewrite lookup_insert_eq, Hr. cbn. rewrite (bool_decide_eq_true_2 (n ∈ n :: nonces)) by set_solver.
    case_bool_decide; [by rewrite advance_record_twice | done].
  - rewrite lookup_insert_ne by done. destruct (m !! n') as [r'|]; [|done]. cbn. f_equal.
    destruct (bool_decide_reflect (n' ∈ nonces)), (bool_decide_reflect (n' ∈ n :: nonces)); set_solver.
Qed.

Lemma advance_step next m c n :
  advance next (m, c) n = match m !! n with
    | Some r => Ok (<[n := advance_record next r]> m, c || (rr_state r == Reserved))
    | None => Err JournalError.UnknownNonce
    end.
Proof.
  unfold advance, advance_record. destruct (m !! n) as [r|] eqn:E; [|done]. cbn.
  case_bool_decide; [by rewrite orb_true_r|]. by rewrite orb_false_r, insert_id.
Qed.

(** The loop advances exactly the named reservations and reports whether any was live. *)
Lemma advance_loop next nonces m c :
  next <> Reserved -> Forall (fun n => is_Some (m !! n)) nonces ->
  exists c', try_fold (advance next) (m, c) nonces = Ok (advance_all next nonces m, c') /\
    (c' = false -> c = false /\ advance_all next nonces m = m).
Proof.
  intros Hx. revert m c. induction nonces as [|n nonces IH]; intros m c HF.
  - exists c. rewrite advance_all_nil. done.
  - apply Forall_cons_iff in HF as [[r Hr] HF]. cbn [try_fold]. rewrite advance_step, Hr. cbn [mbind result_bind].
    destruct (IH (<[n := advance_record next r]> m) (c || (rr_state r == Reserved))) as (c' & E & Hc).
    { revert HF. apply Forall_impl. intros n' ?. destruct (decide (n = n')) as [<-|];
        [rewrite lookup_insert_eq; eauto | by rewrite lookup_insert_ne]. }
    rewrite advance_all_cons in E, Hc by done. exists c'. split; [done|]. intros ->.
    destruct (Hc eq_refl) as [Hl Ha]. apply orb_false_iff in Hl as [-> Hl]. split; [done|].
    rewrite Ha. unfold advance_record. rewrite Hl. by apply insert_id.
Qed.

Lemma advance_all_step next nonces m :
  next <> Reserved -> records_ok m -> evolves m (advance_all next nonces m) /\ records_ok (advance_all next nonces m).
Proof.
  intros Hx Hm. split.
  - intros n. rewrite lookup_advance_all. destruct (m !! n) as [r|]; cbn; [|constructor].
    unfold advance_record. repeat case_bool_decide; by constructor.
  - intros n r'. rewrite lookup_advance_all, fmap_Some. intros (r & Hr & ->). specialize (Hm n r Hr).
    unfold advance_record. repeat case_bool_decide; done || by apply with_state_ok.
Qed.

Lemma advance_all_size next nonces m : size (advance_all next nonces m) = size m.
Proof.
  rewrite <- !size_dom. f_equal. apply set_eq. intros n. rewrite !elem_of_dom, lookup_advance_all.
  by rewrite fmap_is_Some.
Qed.

(** ** Durable steps *)

Section steps.
Context `{Sha256}.

(** A mutation leaves the file as it was, or replaced by the changed table; it reports success
    only in the second case, and then the handle agrees with the file. *)
Lemma mutate_cases io j op j' r :
  ReservationJournal_mutate io j op = (j', r) ->
  (rj_file j' = rj_file j /\ rj_records j' = rj_records j /\ r <> Ok tt) \/
  exists m m', represents (rj_file j) m /\ op m = Ok m' /\ (Z.of_nat (size m') < 2 ^ 32)%Z /\
    rj_file j' = Some (encode_records m') /\ (r = Ok tt -> rj_records j' = m').
Proof.
  unfold ReservationJournal_mutate.
  destruct (acquire_journal_lock io) as [?|e1]; [|intros [= <- <-]; by left].
  destruct (load_records io (rj_file j)) as [m|e2] eqn:EL; [|intros [= <- <-]; by left].
  destruct (op m) as [m'|e3] eqn:EO; [|intros [= <- <-]; by left].
  apply load_records_Ok in EL as [_ HR].
  destruct (persist_records io (rj_file j) m') as [file [[]|e4]] eqn:EP; intros [= <- <-];
    apply persist_records_cases in EP as [[-> Hr]|[-> Hs]]; try done; [right | by left | right];
    exists m, m'; done.
Qed.

Lemma mutate_step io j op m :
  represents (rj_file j) m ->
  (forall m', records_ok m -> op m = Ok m' -> evolves m m' /\ records_ok m') ->
  exists m', represents (rj_file (fst (ReservationJournal_mutate io j op))) m' /\ evolves m m'.
Proof.
  intros HR Hop. destruct (ReservationJournal_mutate io j op) as [j' r] eqn:E. cbn.
  apply mutate_cases in E as [(-> & _)|(m0 & m' & HR0 & HO & Hs & -> & _)]; [exists m; split; [done | apply evolves_refl]|].
  rewrite (represents_fun _ _ _ HR0 HR) in HO. destruct (Hop m') as [He Hm']; [by apply (represents_ok _ _ HR) | done|].
  exists m'. split; [|done]. by apply represents_encode.
Qed.

(** The tail of the epoch operations, once every nonce is known. *)
Lemma finish_epoch_cases io j m nonces next j' r :
  next <> Reserved -> represents (rj_file j) m -> Forall (fun n => is_Some (m !! n)) nonces ->
  finish_epoch io j m nonces next = (j', r) ->
  (represents (rj_file j') m \/ represents (rj_file j') (advance_all next nonces m)) /\
  (r = Ok tt -> represents (rj_file j') (advance_all next nonces m) /\ rj_records j' = advance_all next nonces m).
Proof.
  intros Hx HR HF. unfold finish_epoch.
  destruct (advance_loop next nonces m false Hx HF) as (c & -> & Hc).
  pose proof (represents_ok _ _ HR) as [HM HS].
  assert (represents (Some (encode_records (advance_all next nonces m))) (advance_all next nonces m)) as HE.
  { apply represents_encode. split; [by apply advance_all_step | by rewrite advance_all_size]. }
  destruct c; [|destruct (Hc eq_refl) as [_ Ha]; rewrite Ha; intros [= <- <-]; split; [by left | done]].
  destruct (persist_records io (rj_file j) (advance_all next nonces m)) as [file [[]|e]] eqn:EP; intros [= <- <-]; cbn.
  - apply persist_records_Ok in EP as ->. split; [by right | done].
  - split; [|done]. apply persist_records_cases in EP as [[-> _]|[-> _]]; [by left | by right].
Qed.
End steps.

(** ** The checking loops *)

(** The nonces name distinct reservations of the epoch, none in the forbidden state. *)
Definition epoch_batch (epoch_id : bytes32) (forbidden : ReservationState) (m : Reservations) (nonces : list bytes32) : Prop :=
  NoDup nonces /\
  Forall (fun n => exists r, m !! n = Some r /\ rr_epoch_id r = epoch_id /\ rr_state r <> forbidden) nonces.

Definition members_of (m : Reservations) (nonces : list bytes32) : gset bytes32 :=
  list_to_set (omap (fun n => rr_participant_id <$> m !! n) nonces).

Definition any_used (m : Reservations) (nonces : list bytes32) : bool :=
  existsb (fun n => match m !! n with Some r => rr_state r == Used | None => false end) nonces.

Lemma epoch_batch_known epoch_id f m nonces :
  epoch_batch epoch_id f m nonces -> Forall (fun n => is_Some (m !! n)) nonces.
Proof. intros [_ HF]. revert HF. apply Forall_impl. intros n (r & -> & _). eauto. Qed.

Lemma epoch_batch_nil epoch_id f m : epoch_batch epoch_id f m [].
Proof. split; constructor. Qed.

Lemma epoch_batch_cons epoch_id f m n nonces :
  epoch_batch epoch_id f m (n :: nonces) <->
  (n ∉ nonces) /\ (exists r, m !! n = Some r /\ rr_epoch_id r = epoch_id /\ rr_state r <> f) /\
  epoch_batch epoch_id f m nonces.
Proof. unfold epoch_batch. rewrite list.NoDup_cons, Forall_cons_iff. tauto. Qed.

Lemma union_rotate (a b c : gset bytes32) : a ∪ (b ∪ c) = b ∪ (a ∪ c).
Proof. by rewrite !(assoc_L (∪)), (comm_L (∪) a b). Qed.

Lemma finalize_check_Ok epoch_id m seen members used n acc :
  finalize_check epoch_id m (seen, members, used) n = Ok acc <->
  (n ∉ seen) /\ exists r, (m !! n = Some r /\ rr_epoch_id r = epoch_id /\ rr_state r <> Released) /\
    acc = ({[n]} ∪ seen, {[rr_participant_id r]} ∪ members, used || (rr_state r == Used)).
Proof.
  unfold finalize_check. rewrite guard_Ok, bool_decide_eq_false. split.
  - intros [Hn E]. destruct (m !! n) as [r|]; [|done]. apply guard_Ok in E as [Hg E]. apply Ok_inj in E as <-.
    bguard. split; [done|]. by exists r.
  - intros [Hn (r & (-> & He & Hs) & ->)]. split; [done|]. cbn.
    by rewrite bool_decide_eq_true_2, bool_decide_eq_false_2.
Qed.

Lemma finalize_loop epoch_id m nonces seen members used acc :
  try_fold (finalize_check epoch_id m) (seen, members, used) nonces = Ok acc <->
  epoch_batch epoch_id Released m nonces /\ Forall (fun n => n ∉ seen) nonces /\
  acc = (list_to_set nonces ∪ seen, members_of m nonces ∪ members, used || any_used m nonces).
Proof.
  revert seen members used. induction nonces as [|n nonces IH]; intros seen members used; cbn [try_fold].
  - unfold members_of, any_used. cbn. rewrite orb_false_r, !(left_id_L ∅ (∪)).
    split; [intros [= <-] | by intros (_ & _ & ->)]. split_and!; try done. apply epoch_batch_nil.
  - rewrite epoch_batch_cons, Forall_cons_iff, bind_Ok. split.
    + intros (a & Ha & Hrest). apply finalize_check_Ok in Ha as (Hn & r & Hr & ->).
      apply IH in Hrest as (HB & HS & ->). rewrite list.Forall_forall in HS. split_and!; try done.
      * intros Hin. specialize (HS n Hin). clear -HS. set_solver.
      * by exists r.
      * apply list.Forall_forall. intros x Hx. specialize (HS x Hx). clear -HS. set_solver.
      * unfold members_of, any_used. cbn. rewrite (proj1 Hr). cbn. rewrite orb_assoc.
        rewrite !(assoc_L (∪)), !(comm_L (∪) _ {[_]}). done.
    + intros ((Hn & (r & Hr) & HB) & [Hs HS] & ->). eexists. rewrite finalize_check_Ok. split; [split; [done|]; by exists r|].
      apply IH. rewrite list.Forall_forall in HS |- *. split_and!; try done.
      * intros x Hx. specialize (HS x Hx). clear -HS Hn Hx. set_solver.
      * unfold members_of, any_used. cbn. rewrite (proj1 Hr). cbn. rewrite orb_assoc.
        rewrite !(assoc_L (∪)), !(comm_L (∪) _ {[_]}). done.
Qed.

Lemma release_check_Ok epoch_id m seen n acc :
  release_check epoch_id m seen n = Ok acc <->
  (n ∉ seen) /\ (exists r, m !! n = Some r /\ rr_epoch_id r = epoch_id /\ rr_state r <> Used) /\
  acc = {[n]} ∪ seen.
Proof.
  unfold release_check. rewrite guard_Ok, bool_decide_eq_false. split.
  - intros [Hn E]. destruct (m !! n) as [r|]; [|done]. apply guard_Ok in E as [Hg E]. apply Ok_inj in E as <-.
    bguard. split_and!; try done. by exists r.
  - intros (Hn & (r & -> & He & Hs) & ->). split; [done|]. cbn.
    by rewrite bool_decide_eq_true_2, bool_decide_eq_false_2.
Qed.

Lemma release_loop epoch_id m nonces seen acc :
  try_fold (release_check epoch_id m) seen nonces = Ok acc <->
  epoch_batch epoch_id Used m nonces /\ Forall (fun n => n ∉ seen) nonces /\ acc = list_to_set nonces ∪ seen.
Proof.
  revert seen. induction nonces as [|n nonces IH]; intros seen; cbn [try_fold].
  - cbn. rewrite (left_id_L ∅ (∪)).
    split; [intros [= <-] | by intros (_ & _ & ->)]. split_and!; try done. apply epoch_batch_nil.
  - rewrite epoch_batch_cons, Forall_cons_iff, bind_Ok. cbn [list_to_set].
    rewrite <- (assoc_L (∪)), (union_rotate {[n]}). split.
    + intros (a & (Hn & Hr & ->)%release_check_Ok & (HB & HS & ->)%IH). rewrite list.Forall_forall in HS.
      split_and!; try done.
      * intros Hin. specialize (HS n Hin). clear -HS. set_solver.
      * apply list.Forall_forall. intros x Hx. specialize (HS x Hx). clear -HS. set_solver.
    + intros ((Hn & Hr & HB) & [Hs HS] & ->). eexists. rewrite release_check_Ok. split; [done|].
      apply IH. rewrite list.Forall_forall in HS |- *. split_and!; try done.
      intros x Hx. specialize (HS x Hx). clear -HS Hn Hx. set_solver.
Qed.

Lemma finalize_loop_runs epoch_id m nonces :
  epoch_batch epoch_id Released m nonces ->
  try_fold (finalize_check epoch_id m) (∅, ∅, false) nonces = Ok (list_to_set nonces ∪ ∅, members_of m nonces, any_used m nonces).
Proof.
  intros HB. apply finalize_loop. split_and!; [done | apply list.Forall_forall; set_solver|].
  by rewrite (right_id_L ∅ (∪) (members_of m nonces)).
Qed.

Lemma release_loop_runs epoch_id m nonces :
  epoch_batch epoch_id Used m nonces ->
  try_fold (release_check epoch_id m) ∅ nonces = Ok (list_to_set nonces ∪ ∅).
Proof. intros HB. apply release_loop. split_and!; [done | apply list.Forall_forall; set_solver | done]. Qed.

(** ** The epoch operations *)

(** Runs in which the lock is granted and the read and the write succeed. *)
Definition io_succeeds (io : Io) : Prop :=
  AdvisoryLock_acquire io = Ok tt /\ io_read io = None /\ io_write io = Written.

Lemma io_fine_succeeds : io_succeeds io_fine.
Proof. done. Qed.

Section epoch.
Context `{Sha256} {E S : Type}.

(** What an epoch operation that got past its checks leaves: the caller's verdict decides. *)
Definition epoch_outcome (j j' : ReservationJournal) (m : Reservations) (nonces : list bytes32)
    (next : ReservationState) (verdict : result E unit) (r : result JournalError (result E unit)) : Prop :=
  match verdict with
  | Err error => j' = j /\ r = Ok (Err error)
  | Ok _ =>
      (r = Ok (Ok tt) /\ represents (rj_file j') (advance_all next nonces m) /\ rj_records j' = advance_all next nonces m)
      \/ (exists e, r = Err e) /\
         (represents (rj_file j') m \/ represents (rj_file j') (advance_all next nonces m))
  end.

Lemma finish_outcome io j m nonces next (s : S) j' s' r :
  next <> Reserved -> represents (rj_file j) m -> Forall (fun n => is_Some (m !! n)) nonces ->
  (let '(self, finished) := finish_epoch io j m nonces next in
   _ ←[(self, s)] finished; (self, s, Ok (Ok tt))) = (j', s', r) ->
  s' = s /\ epoch_outcome j j' m nonces next (Ok tt) r.
Proof.
  intros Hx HR HF. destruct (finish_epoch io j m nonces next) as [j1 r1] eqn:EF.
  apply finish_epoch_cases in EF as [Hor Hok]; [|done..].
  destruct r1 as [[]|e]; intros [= <- <- <-]; (split; [done|]); cbn; [left; by destruct Hok | right; eauto].
Qed.

(** [finalize_epoch]: it stops before the caller's closure runs and changes nothing, or the
    table passed every check and the closure saw whether some reservation was already used. *)
Lemma finalize_epoch_cases io j (s : S) epoch_id nonces expected (apply : bool -> S -> S * result E unit) j' s' r :
  finalize_epoch io j s epoch_id nonces expected apply = (j', s', r) ->
  (j' = j /\ s' = s /\ exists e, r = Err e) \/
  exists m verdict, represents (rj_file j) m /\ epoch_batch epoch_id Released m nonces /\
    length nonces = size expected /\ members_of m nonces = expected /\
    apply (any_used m nonces) s = (s', verdict) /\ epoch_outcome j j' m nonces Used verdict r.
Proof.
  unfold finalize_epoch.
  destruct (acquire_journal_lock io) as [?|e1]; [|intros [= <- <- <-]; eauto].
  destruct (load_records io (rj_file j)) as [m|e2] eqn:EL; [|intros [= <- <- <-]; eauto].
  apply load_records_Ok in EL as [_ HR].
  destruct (try_fold _ _ _) as [[[seen members] used]|e3] eqn:EF; [|intros [= <- <- <-]; eauto].
  apply finalize_loop in EF as (HB & _ & [= -> -> ->]). cbn [orb]. rewrite (right_id_L ∅ (∪)).
  destruct (_ || _) eqn:EG; [intros [= <- <- <-]; eauto|]. bguard.
  destruct (apply (any_used m nonces) s) as [s1 [[]|e4]] eqn:EA.
  - intros HO. apply finish_outcome in HO as [-> HO]; [|done | done | by eapply epoch_batch_known].
    right. exists m, (Ok tt). done.
  - intros [= <- <- <-]. right. exists m, (Err e4). done.
Qed.

Lemma release_epoch_cases io j (s : S) epoch_id nonces (check : S -> S * result E unit) j' s' r :
  release_epoch_checked io j s epoch_id nonces check = (j', s', r) ->
  (j' = j /\ s' = s /\ exists e, r = Err e) \/
  exists m verdict, represents (rj_file j) m /\ epoch_batch epoch_id Used m nonces /\
    check s = (s', verdict) /\ epoch_outcome j j' m nonces Released verdict r.
Proof.
  unfold release_epoch_checked.
  destruct (acquire_journal_lock io) as [?|e1]; [|intros [= <- <- <-]; eauto].
  destruct (load_records io (rj_file j)) as [m|e2] eqn:EL; [|intros [= <- <- <-]; eauto].
  apply load_records_Ok in EL as [_ HR].
  destruct (try_fold _ _ _) as [seen|e3] eqn:EF; [|intros [= <- <- <-]; eauto].
  apply release_loop in EF as (HB & _ & ->).
  destruct (check s) as [s1 [[]|e4]] eqn:EA.
  - intros HO. apply finish_outcome in HO as [-> HO]; [|done | done | by eapply epoch_batch_known].
    right. exists m, (Ok tt). done.
  - intros [= <- <- <-]. right. exists m, (Err e4). done.
Qed.

(** When the calls succeed and the batch is as expected, the outcome is the closure's. *)
Lemma persist_succeeds io file m :
  io_write io = Written -> (Z.of_nat (size m) < 2 ^ 32)%Z ->
  persist_records io file m = (Some (encode_records m), Ok tt).
Proof.
  intros HW Hs. unfold persist_records, replace_file.
  rewrite (proj2 (checked_u32_Some _ (Z.of_nat (size m)))); [by rewrite HW | unfold u32_ok; lia].
Qed.

Lemma finish_succeeds io j m nonces next :
  io_write io = Written -> next <> Reserved -> represents (rj_file j) m ->
  Forall (fun n => is_Some (m !! n)) nonces ->
  exists j', finish_epoch io j m nonces next = (j', Ok tt).
Proof.
  intros HW Hx HR HF. unfold finish_epoch.
  destruct (advance_loop next nonces m false Hx HF) as (c & -> & _).
  destruct c; [|by eexists]. rewrite persist_succeeds; [by eexists | done|].
  rewrite advance_all_size. apply (represents_ok _ _ HR).
Qed.

Lemma finalize_epoch_succeeds io j (s : S) epoch_id nonces (apply : bool -> S -> S * result E unit) m s' :
  io_succeeds io -> represents (rj_file j) m -> epoch_batch epoch_id Released m nonces ->
  length nonces = size (members_of m nonces) -> apply (any_used m nonces) s = (s', Ok tt) ->
  exists j', finalize_epoch io j s epoch_id nonces (members_of m nonces) apply = (j', s', Ok (Ok tt)).
Proof.
  intros (HL & HD & HW) HR HB Hlen HA. unfold finalize_epoch, acquire_journal_lock. rewrite HL. cbn [map_err].
  rewrite (proj2 (load_records_Ok io _ m)) by done.
  rewrite finalize_loop_runs, !bool_decide_eq_true_2 by done. cbn [negb orb]. rewrite HA.
  destruct (finish_succeeds io j m nonces Used HW) as (j' & ->); [done | done | by eapply epoch_batch_known|].
  by eexists.
Qed.

Lemma release_epoch_succeeds io j (s : S) epoch_id nonces (check : S -> S * result E unit) m s' :
  io_succeeds io -> represents (rj_file j) m -> epoch_batch epoch_id Used m nonces -> check s = (s', Ok tt) ->
  exists j', release_epoch_checked io j s epoch_id nonces check = (j', s', Ok (Ok tt)).
Proof.
  intros (HL & HD & HW) HR HB HA. unfold release_epoch_checked, acquire_journal_lock. rewrite HL. cbn [map_err].
  rewrite (proj2 (load_records_Ok io _ m)) by done.
  rewrite release_loop_runs, HA by done. destruct (finish_succeeds io j m nonces Released HW) as (j' & ->); [done | done | by eapply epoch_batch_known|].
  by eexists.
Qed.
End epoch.

(** ** Reserving *)

(** Atoms a participant has in live reservations. *)
Definition live_total (f : ReservationRecord -> Z) (participant_id : bytes32) (m : Reservations) : Z :=
  sumZ f (List.filter (live_of participant_id) (btree_values m)).

Lemma sumZ_nonneg {A} (f : A -> Z) l : Forall (fun x => 0 <= f x)%Z l -> (0 <= sumZ f l)%Z.
Proof. induction 1; unfold sumZ in *; cbn; lia. Qed.

Lemma filter_perm {A} (f : A -> bool) l k : l ≡ₚ k -> List.filter f l ≡ₚ List.filter f k.
Proof.
  induction 1 as [|x l k _ IH|x y l|l1 l2 l3 _ IH1 _ IH2]; cbn.
  - done.
  - destruct (f x); by rewrite IH.
  - destruct (f x), (f y); try done. constructor.
  - by rewrite IH1.
Qed.

Lemma reserved_totals_Some l acc v :
  Forall (fun r => 0 <= rr_base_atoms r /\ 0 <= rr_quote_atoms r)%Z l -> (0 <= fst acc)%Z -> (0 <= snd acc)%Z ->
  reserved_totals acc l = Some v <->
  (l = [] \/ fst acc + sumZ rr_base_atoms l < 2 ^ 64 /\ snd acc + sumZ rr_quote_atoms l < 2 ^ 64)%Z /\
  v = (fst acc + sumZ rr_base_atoms l, snd acc + sumZ rr_quote_atoms l)%Z.
Proof.
  revert acc. induction l as [|r l IH]; intros [a b] HF Ha Hb; cbn [reserved_totals fst snd] in *.
  - unfold sumZ. cbn. rewrite !Z.add_0_r. naive_solver.
  - apply Forall_cons_iff in HF as [[Hr1 Hr2] HF].
    assert (0 <= sumZ rr_base_atoms l)%Z by (apply sumZ_nonneg; revert HF; apply Forall_impl; tauto).
    assert (0 <= sumZ rr_quote_atoms l)%Z by (apply sumZ_nonneg; revert HF; apply Forall_impl; tauto).
    rewrite bind_Some. unfold sumZ in *. cbn [map foldr fold_right] in *. split.
    + intros (a' & Ha' & HB). apply bind_Some in HB as (b' & Hb' & HB). unfold checked_add_u64 in *.
      apply checked_u64_Some in Ha' as [-> Ua], Hb' as [-> Ub]. unfold u64_ok in *.
      apply IH in HB as [HC ->]; cbn [fst snd]; [|done | lia..]. split; [right|f_equal; lia].
      destruct HC as [->|]; cbn in *; lia.
    + intros [[?|HC] ->]; [done|]. exists (a + rr_base_atoms r)%Z. split; [by run_checked|].
      rewrite bind_Some. exists (b + rr_quote_atoms r)%Z. split; [by run_checked|].
      apply IH; cbn [fst snd]; [done | lia | lia|]. split; [right; lia | f_equal; lia].
Qed.

Lemma live_totals_nonneg p m :
  records_ok m ->
  Forall (fun r => 0 <= rr_base_atoms r /\ 0 <= rr_quote_atoms r)%Z (List.filter (live_of p) (btree_values m)).
Proof.
  intros Hm. apply List.Forall_forall. intros r [Hin _]%filter_In. unfold btree_values in Hin.
  apply in_map_iff in Hin as ([k r'] & <- & Hin). apply list_elem_of_In, btree_list_elem in Hin.
  destruct (Hm k r' Hin) as (_ & _ & _ & _ & [[? ?] _] & [[? ?] _]). cbn in *. lia.
Qed.

(** A reservation is granted exactly when its nonce is new and the participant's live
    reservations, with it, fit in the available balance. *)
Lemma reserve_operation_Ok record available m m' :
  records_ok m -> record_wf record -> balance_ok available ->
  reserve_operation record available m = Ok m' <->
  m !! rr_nonce record = None /\
  (live_total rr_base_atoms (rr_participant_id record) m + rr_base_atoms record <= base_atoms available)%Z /\
  (live_total rr_quote_atoms (rr_participant_id record) m + rr_quote_atoms record <= quote_atoms available)%Z /\
  m' = <[rr_nonce record := record]> m.
Proof.
  intros Hm (_ & _ & _ & [[Wb1 Wb2] _] & [[Wq1 Wq2] _]) [[A1 A2] [A3 A4]]. unfold live_total, reserve_operation.
  pose proof (live_totals_nonneg (rr_participant_id record) m Hm) as HN.
  remember (List.filter (live_of (rr_participant_id record)) (btree_values m)) as l eqn:El.
  pose proof (fun v => reserved_totals_Some l (0%Z, 0%Z) v HN ltac:(done) ltac:(done)) as HT.
  cbn [fst snd] in HT. rewrite !Z.add_0_l in HT. split.
  - intros HE. inv_ok. bguard.
    match goal with T : reserved_totals _ _ = Some _ |- _ => apply HT in T as [_ [= -> ->]] end.
    checked. split_and!; [by apply eq_None_not_Some | lia | lia | done].
  - intros (Hn & Hb & Hq & ->). rewrite bool_decide_eq_false_2 by (rewrite Hn; by intros [? ?]).
    assert (reserved_totals (0%Z, 0%Z) l = Some (sumZ rr_base_atoms l, sumZ rr_quote_atoms l)) as ->
      by (apply HT; split; [right; lia | done]).
    assert (0 <= sumZ rr_base_atoms l)%Z by (apply sumZ_nonneg; revert HN; apply Forall_impl; tauto).
    assert (0 <= sumZ rr_quote_atoms l)%Z by (apply sumZ_nonneg; revert HN; apply Forall_impl; tauto).
    cbn [ok_or mbind result_bind]. run_checked.
    rewrite (proj2 (Z.ltb_ge _ _)), (proj2 (Z.ltb_ge _ _)) by lia. done.
Qed.

Lemma live_total_insert f p m n r :
  m !! n = None ->
  live_total f p (<[n := r]> m) = ((if live_of p r then f r else 0) + live_total f p m)%Z.
Proof.
  intros Hn. unfold live_total, btree_values.
  assert (List.filter (live_of p) (map snd (btree_list (<[n := r]> m)))
          ≡ₚ List.filter (live_of p) (map snd ((n, r) :: btree_list m))) as ->.
  { apply filter_perm, Permutation_map. rewrite !btree_list_perm. by apply map_to_list_insert. }
  cbn. by destruct (live_of p r).
Qed.

(** ** Runs of the journal *)

Section runs.
Context `{Sha256}.

(** One operation through one handle, with any behaviour of the file system.  Handles share the
    file: [step_handle] passes to another handle with its own copy of the table. *)
Inductive journal_step : ReservationJournal -> ReservationJournal -> Prop :=
| step_open io j :
    journal_step j {| rj_file := fst (ReservationJournal_open io (rj_file j)); rj_records := rj_records j |}
| step_handle j records : journal_step j {| rj_file := rj_file j; rj_records := records |}
| step_reserve io j record available :
    record_wf record -> rr_state record = Reserved ->
    journal_step j (fst (ReservationJournal_reserve io j record available))
| step_mark_used io j nonce : journal_step j (fst (ReservationJournal_mark_used io j nonce))
| step_release io j nonce : journal_step j (fst (ReservationJournal_release io j nonce))
| step_finalize E S io j (s : S) epoch_id nonces expected (apply : bool -> S -> S * result E unit) :
    journal_step j (fst (fst (finalize_epoch io j s epoch_id nonces expected apply)))
| step_release_epoch E S io j (s : S) epoch_id nonces (check : S -> S * result E unit) :
    journal_step j (fst (fst (release_epoch_checked io j s epoch_id nonces check))).

(** [path.exists()] is also false when the metadata of an existing file cannot be read: such an
    opening writes an empty journal over it. *)
Definition journal_erased (j j' : ReservationJournal) : Prop :=
  exists io, io_metadata io <> None /\ rj_file j' = fst (ReservationJournal_open io (rj_file j)) /\
    rj_file j' = Some (encode_records ∅) /\ rj_file j' <> rj_file j.

Lemma reserve_file io j record available :
  rj_file (fst (ReservationJournal_reserve io j record available))
  = rj_file (fst (ReservationJournal_mutate io j (reserve_operation record available))).
Proof.
  unfold ReservationJournal_reserve. destruct (ReservationJournal_mutate io j _) as [j' [[]|e]]; done.
Qed.

Lemma outcome_step {E} j j' m nonces next (verdict : result E unit) r :
  next <> Reserved -> represents (rj_file j) m -> epoch_outcome j j' m nonces next verdict r ->
  exists m', represents (rj_file j') m' /\ evolves m m'.
Proof.
  intros Hx HR HO. pose proof (advance_all_step next nonces m Hx (proj1 (represents_ok _ _ HR))) as [He _].
  assert (represents (rj_file j') m \/ represents (rj_file j') (advance_all next nonces m)) as [?|?].
  { destruct verdict; cbn in HO; [destruct HO as [(_ & ? & _)|(_ & [?|?])]; auto | destruct HO as [-> _]; auto]. }
  - exists m. split; [done | apply evolves_refl].
  - eauto.
Qed.

(** Opening leaves an existing journal as it is, or erases it without having seen its metadata. *)
Lemma open_existing io bytes :
  fst (ReservationJournal_open io (Some bytes)) = Some bytes \/
  io_metadata io <> None /\ fst (ReservationJournal_open io (Some bytes)) = Some (encode_records ∅).
Proof.
  unfold ReservationJournal_open, path_exists. destruct (acquire_journal_lock io) as [?|?]; [|by left].
  destruct (io_metadata io) as [e|].
  - destruct (persist_records io (Some bytes) ∅) as [file v] eqn:EP.
    apply persist_records_cases in EP as [[-> _]|[-> _]]; [left | right; split; [done|]];
      (destruct v; [by destruct (load_records io _)|done]).
  - left. by destruct (load_records io (Some bytes)).
Qed.

(** Opening without the metadata does erase the journal when the other calls succeed. *)
Lemma open_blind io file :
  io_metadata io <> None -> acquire_journal_lock io = Ok tt -> io_write io = Written ->
  fst (ReservationJournal_open io file) = Some (encode_records ∅).
Proof.
  intros HM HL HW. unfold ReservationJournal_open, path_exists. rewrite HL.
  destruct (io_metadata io); [|done]. rewrite persist_succeeds by (done || by rewrite map_size_empty).
  by destruct (load_records io _).
Qed.

Lemma represents_empty : represents (Some (encode_records ∅)) ∅.
Proof. apply represents_encode. split; [apply map_Forall_empty | by rewrite map_size_empty]. Qed.

Lemma journal_step_evolves j j' m :
  journal_step j j' -> represents (rj_file j) m ->
  exists m', represents (rj_file j') m' /\ (evolves m m' \/ journal_erased j j' /\ m' = ∅).
Proof.
  intros HS HR. pose proof (represents_ok _ _ HR) as [HM _].
  enough ((exists m', represents (rj_file j') m' /\ evolves m m') \/ journal_erased j j') as [(m' & ? & ?)|HE].
  { eauto. }
  { exists ∅. split; [|auto]. destruct HE as (io & _ & _ & -> & _). apply represents_empty. }
  destruct HS; cbn [rj_file].
  - destruct HR as (b & Hb & HD). destruct (open_existing io b) as [E|[Hm E]]; rewrite <- Hb in E.
    + left. exists m. split; [exists b; by rewrite E | apply evolves_refl].
    + destruct (decide (rj_file j = Some (encode_records ∅))) as [Ej|Ej].
      * left. exists m. split; [|apply evolves_refl]. rewrite E, <- Ej. by exists b.
      * right. exists io. cbn [rj_file]. rewrite E. by split_and!.
  - left. exists m. split; [done | apply evolves_refl].
  - left. rewrite reserve_file. apply mutate_step; [done|]. intros m' _. by apply reserve_operation_step.
  - left. apply mutate_step; [done|]. intros m' _. by apply transition_operation_step.
  - left. apply mutate_step; [done|]. intros m' _. by apply transition_operation_step.
  - left. destruct (finalize_epoch _ _ _ _ _ _ _) as [[j' s'] r] eqn:EF. cbn.
    apply finalize_epoch_cases in EF as [(-> & _)|(m0 & v & HR0 & _ & _ & _ & _ & HO)];
      [exists m; split; [done | apply evolves_refl]|].
    rewrite <- (represents_fun _ _ _ HR0 HR). by eapply outcome_step; [|exact HR0 | exact HO].
  - left. destruct (release_epoch_checked _ _ _ _ _ _) as [[j' s'] r] eqn:EF. cbn.
    apply release_epoch_cases in EF as [(-> & _)|(m0 & v & HR0 & _ & _ & HO)];
      [exists m; split; [done | apply evolves_refl]|].
    rewrite <- (represents_fun _ _ _ HR0 HR). by eapply outcome_step; [|exact HR0 | exact HO].
Qed.

(** Along a run a reservation keeps its identity and amounts, and a terminal state for good. *)
Definition settled_from (r r' : ReservationRecord) : Prop :=
  r' = with_state r (rr_state r') /\ (rr_state r <> Reserved -> r' = r).

Lemma settled_from_refl r : settled_from r r.
Proof. unfold settled_from. by destruct r. Qed.

Lemma settled_from_trans r1 r2 r3 : settled_from r1 r2 -> settled_from r2 r3 -> settled_from r1 r3.
Proof.
  intros [E1 T1] [E2 T2]. split; [by rewrite E2, E1 at 1|]. intros Ht. specialize (T1 Ht) as ->. by apply T2.
Qed.

Lemma record_step_settled r o : record_step (Some r) o -> exists r', o = Some r' /\ settled_from r r'.
Proof.
  inversion 1 as [o' Ho | |r0 next Hs Hx E1 E2]; subst; [exists r; split; [done | apply settled_from_refl]|].
  exists (with_state r next). split; [done|]. split; [done | congruence].
Qed.

(** Every reservation of [m] is still in [m'], settled from what it was. *)
Definition spent_from (m m' : Reservations) : Prop :=
  forall n r, m !! n = Some r -> exists r', m' !! n = Some r' /\ settled_from r r'.

Lemma spent_from_refl m : spent_from m m.
Proof. intros n r Hn. exists r. split; [done | apply settled_from_refl]. Qed.

Lemma spent_from_step m1 m2 m3 : evolves m1 m2 -> spent_from m2 m3 -> spent_from m1 m3.
Proof.
  intros He Hs n r Hn. specialize (He n). rewrite Hn in He.
  apply record_step_settled in He as (r1 & Hr1 & HS1). destruct (Hs n r1 Hr1) as (r2 & Hr2 & HS2).
  exists r2. split; [done|]. by eapply settled_from_trans.
Qed.

Lemma journal_run_settled j l m :
  run journal_step j l -> represents (rj_file j) m ->
  exists m', represents (rj_file (final j l)) m' /\ (spent_from m m' \/ occurs journal_erased j l).
Proof.
  revert j m. induction l as [|j1 l IH]; intros j m; cbn [run final].
  - intros _ HR. exists m. split; [done | left; apply spent_from_refl].
  - intros [Hs HS] HR. destruct (journal_step_evolves _ _ _ Hs HR) as (m1 & HR1 & He).
    destruct (IH j1 m1 HS HR1) as (m2 & HR2 & H2). exists m2. split; [done|].
    destruct He as [He|[He _]]; [|right; by apply occurs_here].
    destruct H2 as [H2|H2]; [left; by eapply spent_from_step | right; by apply occurs_later].
Qed.
End runs.

(** ** Reserving when the calls succeed *)

Section reserving.
Context `{Sha256}.

Lemma reserve_succeeds io j record available m m' :
  io_succeeds io -> represents (rj_file j) m -> reserve_operation record available m = Ok m' ->
  (Z.of_nat (size m') < 2 ^ 32)%Z ->
  ReservationJournal_reserve io j record available
  = ({| rj_file := Some (encode_records m'); rj_records := m' |},
     Ok {| ua_nonce := rr_nonce record; ua_epoch_id := rr_epoch_id record; ua_participant_id := rr_participant_id record;
           ua_base_atoms := rr_base_atoms record; ua_quote_atoms := rr_quote_atoms record |}).
Proof.
  intros (HL & HD & HW) HR HO Hs. unfold ReservationJournal_reserve, ReservationJournal_mutate, acquire_journal_lock.
  rewrite HL. cbn [map_err]. rewrite (proj2 (load_records_Ok io _ m)) by done. rewrite HO.
  by rewrite persist_succeeds.
Qed.

Lemma reserve_refuses io j record available m e :
  io_succeeds io -> represents (rj_file j) m -> reserve_operation record available m = Err e ->
  ReservationJournal_reserve io j record available = (j, Err e).
Proof.
  intros (HL & HD & HW) HR HO. unfold ReservationJournal_reserve, ReservationJournal_mutate, acquire_journal_lock.
  rewrite HL. cbn [map_err]. rewrite (proj2 (load_records_Ok io _ m)) by done. by rewrite HO.
Qed.
End reserving.
