(* ===== verification/HostExtern.v ===== *)
(** * Cryptographic crates the host calls

    [ed25519-dalek] signatures, as classes whose fields are the functions the source calls and
    whose laws are documented behaviour.  Keys are their 32-byte encodings. *)

From S2P Require Import Prelude Bytes.

Class Dalek : Type := {
  SigningKey : Type;
  (** [SigningKey::verifying_key().to_bytes()] *)
  verifying_key : SigningKey -> bytes32;
  (** [VerifyingKey::from_bytes(..).is_ok()] *)
  verifying_key_ok : bytes32 -> bool;
  (** [Signer::sign(..).to_bytes()] *)
  dalek_sign : SigningKey -> list byte -> arr 64;
  (** [Verifier::verify(.., &Signature::from_bytes(..)).is_ok()] *)
  dalek_verify : bytes32 -> list byte -> arr 64 -> bool;
}.

(** A key's own signatures verify, and its public half decodes. *)
Class DalekLaws `{Dalek} : Prop := {
  verifying_key_decodes k : verifying_key_ok (verifying_key k) = true;
  sign_verifies k m : dalek_verify (verifying_key k) m (dalek_sign k m) = true;
}.

(** ** [threshold_crypto] and its [bincode] encodings

    [keys_encrypt] takes the randomness the crate draws.  Serialization is
    [DefaultOptions::new().with_fixint_encoding().reject_trailing_bytes()]. *)
Class Threshold : Type := {
  Ciphertext : Type;
  DecryptionShare : Type;
  PublicKeySet : Type;
  SecretKeyShare : Type;
  Randomness : Type;
  ciphertext_verify : Ciphertext -> bool;
  ciphertext_serialize : Ciphertext -> option (list byte);
  ciphertext_deserialize : list byte -> option Ciphertext;
  keys_serialize : PublicKeySet -> option (list byte);
  (** with the source's limit of 1024 bytes *)
  keys_deserialize : list byte -> option PublicKeySet;
  keys_threshold : PublicKeySet -> nat;
  share_serialize : DecryptionShare -> option (list byte);
  share_deserialize : list byte -> option DecryptionShare;
  keys_encrypt : PublicKeySet -> Randomness -> list byte -> Ciphertext;
  (** [public_key_share(i).verify_decryption_share(share, ciphertext)] *)
  verify_decryption_share : PublicKeySet -> Z -> DecryptionShare -> Ciphertext -> bool;
  keys_decrypt : PublicKeySet -> list (Z * DecryptionShare) -> Ciphertext -> option (list byte);
  decrypt_share : SecretKeyShare -> Ciphertext -> option DecryptionShare;
  (** [public_key_share(i).to_bytes()] of the set, and of a secret share *)
  keys_public_share : PublicKeySet -> Z -> arr 48;
  secret_public_share : SecretKeyShare -> arr 48;
}.

(** Fresh ciphertexts verify and serialization round-trips. *)
Class ThresholdLaws `{Threshold} : Prop := {
  encrypt_verifies keys rnd m : ciphertext_verify (keys_encrypt keys rnd m) = true;
  ciphertext_round_trip c bytes : ciphertext_serialize c = Some bytes -> ciphertext_deserialize bytes = Some c;
  share_round_trip d bytes : share_serialize d = Some bytes -> share_deserialize bytes = Some d;
  keys_round_trip k bytes : keys_serialize k = Some bytes -> length bytes <= 1024 -> keys_deserialize bytes = Some k;
  (** more than [threshold] valid shares of distinct indices open a ciphertext to its message *)
  decrypt_opens keys rnd m shares :
    keys_threshold keys < length shares -> NoDup (map fst shares) ->
    Forall (fun s => verify_decryption_share keys (fst s) (snd s) (keys_encrypt keys rnd m) = true) shares ->
    keys_decrypt keys shares (keys_encrypt keys rnd m) = Some m;
  (** any two such sets of shares open a valid ciphertext to the same message *)
  decrypt_unique keys c shares1 shares2 :
    ciphertext_verify c = true ->
    keys_threshold keys < length shares1 -> NoDup (map fst shares1) ->
    Forall (fun s => verify_decryption_share keys (fst s) (snd s) c = true) shares1 ->
    keys_threshold keys < length shares2 -> NoDup (map fst shares2) ->
    Forall (fun s => verify_decryption_share keys (fst s) (snd s) c = true) shares2 ->
    keys_decrypt keys shares1 c = keys_decrypt keys shares2 c;
  (** a secret share answers every valid ciphertext, with a share its public half confirms *)
  decrypt_share_answers secret c : ciphertext_verify c = true -> is_Some (decrypt_share secret c);
  decrypt_share_verifies keys i secret c d :
    keys_public_share keys i = secret_public_share secret -> ciphertext_verify c = true ->
    decrypt_share secret c = Some d -> verify_decryption_share keys i d c = true;
}.

(** ** Confirmed reads over RPC

    [solana_rpc_client] answers with a slot and accounts; [None] is a failed call.  The clock
    account is decoded with [bincode]. *)
Record Clock : Type := { clk_slot : Z; clk_unix_timestamp : Z }.

Class Sysvars : Type := {
  (** [sysvar::ID], the owner of sysvar accounts *)
  sysvar_owner_id : Pubkey;
  (** [bincode::deserialize::<Clock>(..).ok()] *)
  clock_deserialize : list byte -> option Clock;
}.

Record RpcAccount : Type := { ra_owner : Pubkey; ra_data : list byte }.

(** The replies to one [get_account_with_commitment] and one
    [get_multiple_accounts_with_commitment] of the same operation. *)
Record RpcReplies : Type := {
  get_account : Pubkey -> option (Z * option RpcAccount);
  get_multiple_accounts : list Pubkey -> option (Z * list (option RpcAccount));
}.

(** ** What keyper processes exchange

    [codec()] is bincode with fixed integers, no trailing bytes and a limit of 73 bytes.  The
    self-test signs with the [threshold_crypto] share. *)
Record SelfTestRequest `{Threshold} : Type := {
  str_version : Z;
  str_index : Z;
  str_challenge : bytes32;
  str_share : SecretKeyShare;
}.

Class KeyperCodec `{Dalek} `{Threshold} : Type := {
  (** [codec().serialize(&SerdeSecret(..))] and back *)
  secret_serialize : SecretKeyShare -> option (list byte);
  secret_deserialize : list byte -> option SecretKeyShare;
  (** the same for the self-test request *)
  self_test_serialize : SelfTestRequest -> option (list byte);
  self_test_deserialize : list byte -> option SelfTestRequest;
  (** [SigningKey::from_bytes] *)
  signing_key_from_bytes : bytes32 -> SigningKey;
  (** [share.sign(challenge).to_bytes()] *)
  share_sign : SecretKeyShare -> bytes32 -> arr 96;
  (** [PublicKeyShare::from_bytes(..).is_ok()], [SignatureShare::from_bytes(..).is_ok()] *)
  public_key_share_ok : arr 48 -> bool;
  signature_share_ok : arr 96 -> bool;
  (** [public_key.verify(&signature, challenge)] of decodable parts *)
  public_key_share_verify : arr 48 -> arr 96 -> bytes32 -> bool;
}.

(** Serialization round-trips, and a share's own signatures verify. *)
Class KeyperCodecLaws `{KeyperCodec} : Prop := {
  secret_round_trip k bytes : secret_serialize k = Some bytes -> secret_deserialize bytes = Some k;
  self_test_round_trip r bytes : self_test_serialize r = Some bytes -> self_test_deserialize bytes = Some r;
  share_signature_decodes k m : signature_share_ok (share_sign k m) = true;
  public_share_decodes k : public_key_share_ok (secret_public_share k) = true;
  share_signature_verifies k m : public_key_share_verify (secret_public_share k) (share_sign k m) m = true;
}.
