(* ===== verification/Account.v ===== *)
(** * The account journal and settlement finalization (crates/kageb-host/src/account.rs)

    Balances of registered participants, and the digest of every settlement applied, in one
    checksummed file.  [finalize_settlement] and [release_reservations] couple this journal with
    the reservation journal. *)

From S2P Require Import Prelude Bytes Extern ProgramState BTree Ledger Storage.
From S2P Require Import Reservation HostExtern.

Definition ACCOUNT_HEADER : list byte := Eval vm_compute in bstr0 "KGBACC2".
Definition ACCOUNT_RECORD_LEN : nat := 112.

Module AccountError.
Inductive t : Type :=
| Io (kind : ErrorKind)
| Busy
| Corrupt
| InvalidAccount
| DuplicateAccount
| UnknownAccount
| Unauthorized
| ResultPending
| StaleSettlement
| ArithmeticOverflow
| Reservation (error : JournalError).
End AccountError.
Abbreviation AccountError := AccountError.t.
Global Instance AccountError_eq_dec : EqDecision AccountError.
Proof. solve_decision. Defined.

Record AccountRecord : Type := {
  ar_participant_id : bytes32;
  ar_trading_key : bytes32;
  ar_balance : PoolBalance;
  ar_last_epoch : bytes32;
}.
Global Instance AccountRecord_eq_dec : EqDecision AccountRecord.
Proof. solve_decision. Defined.

Record AccountResultV1 : Type := { rs_epoch_id : bytes32; rs_balance : PoolBalance }.

(** The capability of a confirmed aborted or expired epoch. *)
Record ConfirmedTerminalEpoch : Type := {
  ct_epoch_account : Pubkey;
  ct_epoch_id : bytes32;
  ct_terminal_state : EpochTerminalState;
  ct_confirmation_slot : Z;
}.

Abbreviation Accounts := (gmap bytes32 AccountRecord).
Abbreviation AppliedEpochs := (gmap bytes32 bytes32).

Record AccountJournal : Type := {
  aj_file : option (list byte);
  aj_records : Accounts;
  aj_applied_epochs : AppliedEpochs;
}.

(** [HEADER.len() + 8 + account_count * RECORD_LEN + epoch_count * 64 + CHECKSUM_LEN] *)
Definition checked_account_len (account_count epoch_count : Z) : option Z :=
  length ← checked_add_u64 8 8;
  size ← checked_mul_u64 account_count (Z.of_nat ACCOUNT_RECORD_LEN);
  length ← checked_add_u64 length size;
  size ← checked_mul_u64 epoch_count 64;
  length ← checked_add_u64 length size;
  checked_add_u64 length (Z.of_nat CHECKSUM_LEN).

Definition AccountRecord_encode (r : AccountRecord) : list byte :=
  (ar_participant_id r : list byte) ++ (ar_trading_key r : list byte)
  ++ le_bytes 8 (base_atoms (ar_balance r)) ++ le_bytes 8 (quote_atoms (ar_balance r))
  ++ (ar_last_epoch r : list byte).

Definition epoch_encode (entry : bytes32 * bytes32) : list byte :=
  (fst entry : list byte) ++ (snd entry : list byte).

(** The two 32-byte halves of an applied epoch. *)
Definition epoch_decode (bytes : list byte) : result AccountError (bytes32 * bytes32) :=
  epoch ← ok_or AccountError.Corrupt (try_into 32 (slice 0 32 bytes));
  result_digest ← ok_or AccountError.Corrupt (try_into 32 (slice 32 64 bytes));
  if (epoch == zero32) || (result_digest == zero32) then Err AccountError.Corrupt else Ok (epoch, result_digest).

Definition settlement_matches (records : Accounts) (epoch_id : bytes32) (r : BatchResult) : bool :=
  forallb (fun '(participant_id, balance) =>
    match records !! participant_id with
    | Some record => (ar_last_epoch record == epoch_id) && (ar_balance record == balance)
    | None => false
    end) (btree_list (balances r)).

(** One balance map as the digest absorbs it: [u32::try_from(len).unwrap_or(u32::MAX)], entries. *)
Definition balance_bytes (entry : bytes32 * PoolBalance) : list byte :=
  (fst entry : list byte) ++ le_bytes 8 (base_atoms (snd entry)) ++ le_bytes 8 (quote_atoms (snd entry)).
Definition balances_bytes (m : Balances) : list byte :=
  le_bytes 4 (match checked_u32 (Z.of_nat (size m)) with Some n => n | None => (2 ^ 32 - 1)%Z end)
  ++ concat (map balance_bytes (btree_list m)).

Definition ACCOUNT_SETTLEMENT_DOMAIN : list byte := Eval vm_compute in bstr "kageb-account-settlement-v1".
Definition settlement_preimage (r : BatchResult) : list byte :=
  ACCOUNT_SETTLEMENT_DOMAIN ++ balances_bytes (before_balances r) ++ balances_bytes (balances r).

Section accounts.
Context `{Sha256} `{Dalek}.

Definition settlement_digest (r : BatchResult) : bytes32 := sha256 (settlement_preimage r).

Definition AccountRecord_decode (bytes : list byte) : result AccountError AccountRecord :=
  if length bytes != ACCOUNT_RECORD_LEN then Err AccountError.Corrupt else
  participant_id ← ok_or AccountError.Corrupt (try_into 32 (slice 0 32 bytes));
  trading_key ← ok_or AccountError.Corrupt (try_into 32 (slice 32 64 bytes));
  if negb (verifying_key_ok trading_key) then Err AccountError.Corrupt else
  let base_atoms := le_val (slice 64 72 bytes) in
  let quote_atoms := le_val (slice 72 80 bytes) in
  last_epoch ← ok_or AccountError.Corrupt (try_into 32 (slice 80 112 bytes));
  if (participant_id == zero32) || ((base_atoms == 0%Z) && (quote_atoms == 0%Z)) then Err AccountError.Corrupt else
  Ok {| ar_participant_id := participant_id; ar_trading_key := trading_key;
        ar_balance := {| base_atoms := base_atoms; quote_atoms := quote_atoms |};
        ar_last_epoch := last_epoch |}.

Definition account_entry (bytes : list byte) : result AccountError (bytes32 * AccountRecord) :=
  record ← AccountRecord_decode bytes; Ok (ar_participant_id record, record).

Definition decode_accounts (bytes : list byte) : result AccountError (Accounts * AppliedEpochs) :=
  if (length bytes <? length ACCOUNT_HEADER + 8 + CHECKSUM_LEN)%nat
     || (take (length ACCOUNT_HEADER) bytes != ACCOUNT_HEADER)
  then Err AccountError.Corrupt else
  if negb (checksum_ok bytes) then Err AccountError.Corrupt else
  let account_count := le_val (slice 8 12 bytes) in
  let epoch_count := le_val (slice 12 16 bytes) in
  expected_len ← ok_or AccountError.Corrupt (checked_account_len account_count epoch_count);
  if Z.of_nat (length bytes) != expected_len then Err AccountError.Corrupt else
  records ← load_table AccountError.Corrupt account_entry ACCOUNT_RECORD_LEN (Z.to_nat account_count) 16 bytes ∅;
  applied_epochs ← load_table AccountError.Corrupt epoch_decode 64 (Z.to_nat epoch_count)
    (16 + Z.to_nat account_count * ACCOUNT_RECORD_LEN) bytes ∅;
  Ok (records, applied_epochs).

Definition load (io : Io) (file : option (list byte)) : result AccountError (Accounts * AppliedEpochs) :=
  bytes ← map_err AccountError.Io (read_file io file);
  decode_accounts bytes.

Definition encode_accounts (records : Accounts) (applied_epochs : AppliedEpochs) : list byte :=
  with_checksum (ACCOUNT_HEADER ++ le_bytes 4 (Z.of_nat (size records)) ++ le_bytes 4 (Z.of_nat (size applied_epochs))
                 ++ concat (map AccountRecord_encode (btree_values records))
                 ++ concat (map epoch_encode (btree_list applied_epochs))).

Definition persist (io : Io) (file : option (list byte)) (records : Accounts) (applied_epochs : AppliedEpochs)
  : option (list byte) * result AccountError unit :=
  match checked_u32 (Z.of_nat (size records)), checked_u32 (Z.of_nat (size applied_epochs)) with
  | Some _, Some _ =>
      let '(file, written) := replace_file io file (encode_accounts records applied_epochs) in
      (file, map_err AccountError.Io written)
  | _, _ => (file, Err AccountError.ArithmeticOverflow)
  end.

Definition acquire_lock (io : Io) : result AccountError unit :=
  map_err (fun error => if error == WouldBlock then AccountError.Busy else AccountError.Io error)
    (AdvisoryLock_acquire io).

Definition AccountJournal_open (io : Io) (file : option (list byte))
  : option (list byte) * result AccountError AccountJournal :=
  _ ←[file] acquire_lock io;
  let '(file, created) := if path_exists io file then (file, Ok tt) else persist io file ∅ ∅ in
  _ ←[file] created;
  '(records, applied_epochs) ←[file] load io file;
  (file, Ok {| aj_file := file; aj_records := records; aj_applied_epochs := applied_epochs |}).

Definition AccountJournal_reload (io : Io) (self : AccountJournal) : AccountJournal * result AccountError unit :=
  _ ←[self] acquire_lock io;
  '(records, applied_epochs) ←[self] load io (aj_file self);
  ({| aj_file := aj_file self; aj_records := records; aj_applied_epochs := applied_epochs |}, Ok tt).

Definition AccountJournal_mutate (io : Io) (self : AccountJournal)
    (operation : Accounts -> AppliedEpochs -> result AccountError (Accounts * AppliedEpochs))
  : AccountJournal * result AccountError unit :=
  _ ←[self] acquire_lock io;
  '(records, applied_epochs) ←[self] load io (aj_file self);
  '(records, applied_epochs) ←[self] operation records applied_epochs;
  let '(file, persisted) := persist io (aj_file self) records applied_epochs in
  _ ←[{| aj_file := file; aj_records := aj_records self; aj_applied_epochs := aj_applied_epochs self |}] persisted;
  ({| aj_file := file; aj_records := records; aj_applied_epochs := applied_epochs |}, Ok tt).

Definition register_operation (participant_id trading_key : bytes32) (balance : PoolBalance)
    (records : Accounts) (applied_epochs : AppliedEpochs) : result AccountError (Accounts * AppliedEpochs) :=
  if bool_decide (is_Some (records !! participant_id)) then Err AccountError.DuplicateAccount else
  Ok (<[participant_id := {| ar_participant_id := participant_id; ar_trading_key := trading_key;
                             ar_balance := balance; ar_last_epoch := zero32 |}]> records, applied_epochs).

Definition AccountJournal_register (io : Io) (self : AccountJournal) (participant_id trading_key : bytes32)
    (balance : PoolBalance) : AccountJournal * result AccountError unit :=
  if (participant_id == zero32) || ((base_atoms balance == 0%Z) && (quote_atoms balance == 0%Z))
  then (self, Err AccountError.InvalidAccount) else
  AccountJournal_mutate io self (register_operation participant_id trading_key balance).

Definition AccountJournal_query_result (io : Io) (self : AccountJournal) (participant_id trading_key : bytes32)
  : AccountJournal * result AccountError AccountResultV1 :=
  let '(self, reloaded) := AccountJournal_reload io self in
  _ ←[self] reloaded;
  (self,
   record ← ok_or AccountError.UnknownAccount (aj_records self !! participant_id);
   if ar_trading_key record != trading_key then Err AccountError.Unauthorized else
   if ar_last_epoch record == zero32 then Err AccountError.ResultPending else
   Ok {| rs_epoch_id := ar_last_epoch record; rs_balance := ar_balance record |}).

(** [record.balance = *balance; record.last_epoch = epoch_id] *)
Definition settle_record (epoch_id : bytes32) (balance : PoolBalance) (r : AccountRecord) : AccountRecord :=
  {| ar_participant_id := ar_participant_id r; ar_trading_key := ar_trading_key r;
     ar_balance := balance; ar_last_epoch := epoch_id |}.

Definition settle_entry (epoch_id : bytes32) (records : Accounts) (entry : bytes32 * PoolBalance)
  : result AccountError Accounts :=
  record ← ok_or AccountError.UnknownAccount (records !! fst entry);
  Ok (<[fst entry := settle_record epoch_id (snd entry) record]> records).

(** The closure [apply_settlement] passes to [mutate]. *)
Definition settlement_operation (epoch_id : bytes32) (r : BatchResult) (records : Accounts)
    (applied_epochs : AppliedEpochs) : result AccountError (Accounts * AppliedEpochs) :=
  try_each (fun '(participant_id, _) =>
    if bool_decide (is_Some (records !! participant_id)) then Ok tt else Err AccountError.UnknownAccount)
    (btree_list (balances r)) ;;
  let result_digest := settlement_digest r in
  match applied_epochs !! epoch_id with
  | Some applied_digest =>
      if (applied_digest == result_digest) && settlement_matches records epoch_id r
      then Ok (records, applied_epochs) else Err AccountError.StaleSettlement
  | None =>
      if existsb (fun '(participant_id, balance) =>
           match records !! participant_id with
           | Some record => ar_balance record != balance
           | None => true
           end) (btree_list (before_balances r))
      then Err AccountError.StaleSettlement else
      records ← try_fold (settle_entry epoch_id) records (btree_list (balances r));
      Ok (records, <[epoch_id := result_digest]> applied_epochs)
  end.

Definition AccountJournal_apply_settlement (io : Io) (self : AccountJournal) (epoch_id : bytes32) (r : BatchResult)
  : AccountJournal * result AccountError unit :=
  if epoch_id == zero32 then (self, Err AccountError.StaleSettlement) else
  AccountJournal_mutate io self (settlement_operation epoch_id r).

Definition AccountJournal_settlement_matches (io : Io) (self : AccountJournal) (epoch_id : bytes32) (r : BatchResult)
  : AccountJournal * result AccountError bool :=
  let '(self, reloaded) := AccountJournal_reload io self in
  _ ←[self] reloaded;
  (self, Ok ((aj_applied_epochs self !! epoch_id == Some (settlement_digest r))
             && settlement_matches (aj_records self) epoch_id r)).

Definition AccountJournal_has_applied_epoch (io : Io) (self : AccountJournal) (epoch_id : bytes32)
  : AccountJournal * result AccountError bool :=
  let '(self, reloaded) := AccountJournal_reload io self in
  _ ←[self] reloaded;
  (self, Ok (bool_decide (is_Some (aj_applied_epochs self !! epoch_id)))).

(** [.map_err(AccountError::Reservation)?] on the nested result of an epoch operation. *)
Definition flatten (r : result JournalError (result AccountError unit)) : result AccountError unit :=
  match r with
  | Err error => Err (AccountError.Reservation error)
  | Ok inner => inner
  end.

(** The file-system behaviour of the three journal operations one call makes. *)
Record SettleIo : Type := { sio_reservations : Io; sio_query : Io; sio_apply : Io }.

(** The closure of [finalize_settlement]. *)
Definition finalize_apply (io : SettleIo) (epoch_id : bytes32) (r : BatchResult) (had_used : bool)
    (accounts : AccountJournal) : AccountJournal * result AccountError unit :=
  if had_used then
    let '(accounts, matched) := AccountJournal_settlement_matches (sio_query io) accounts epoch_id r in
    matched ←[accounts] matched;
    if negb matched then (accounts, Err AccountError.StaleSettlement) else
    AccountJournal_apply_settlement (sio_apply io) accounts epoch_id r
  else AccountJournal_apply_settlement (sio_apply io) accounts epoch_id r.

Definition finalize_settlement (io : SettleIo) (accounts : AccountJournal) (reservations : ReservationJournal)
    (epoch_id : bytes32) (r : BatchResult) (reservation_nonces : list bytes32)
  : AccountJournal * ReservationJournal * result AccountError unit :=
  let result_members := dom (balances r) in
  let '(reservations, accounts, outcome) :=
    finalize_epoch (sio_reservations io) reservations accounts epoch_id reservation_nonces result_members
      (finalize_apply io epoch_id r) in
  (accounts, reservations, flatten outcome).

Definition release_verdict (io : SettleIo) (epoch_id : bytes32) (accounts : AccountJournal)
  : AccountJournal * result AccountError unit :=
  let '(accounts, applied) := AccountJournal_has_applied_epoch (sio_query io) accounts epoch_id in
  applied ←[accounts] applied;
  (accounts, if (applied : bool) then Err AccountError.StaleSettlement else Ok tt).

Definition release_reservations (io : SettleIo) (accounts : AccountJournal) (reservations : ReservationJournal)
    (terminal_epoch : ConfirmedTerminalEpoch) (reservation_nonces : list bytes32)
  : AccountJournal * ReservationJournal * result AccountError unit :=
  let epoch_id := ct_epoch_id terminal_epoch in
  let '(reservations, accounts, outcome) :=
    release_epoch_checked (sio_reservations io) reservations accounts epoch_id reservation_nonces
      (release_verdict io epoch_id) in
  (accounts, reservations, flatten outcome).
End accounts.
