(* ===== verification/AccountProps.v ===== *)
(** * The account journal: codec, settlement as a table operation, durable steps *)

From S2P Require Import Prelude Bytes Extern BTree Ledger Storage.
From S2P Require Import Reservation ReservationProps HostExtern Account.

(** ** Codecs *)

Section codec.
Context `{Sha256} `{Dalek}.

Definition nonempty_balance (b : PoolBalance) : Prop := ~ (base_atoms b = 0%Z /\ quote_atoms b = 0%Z).

Definition account_wf (r : AccountRecord) : Prop :=
  ar_participant_id r <> zero32 /\ verifying_key_ok (ar_trading_key r) = true /\
  balance_ok (ar_balance r) /\ nonempty_balance (ar_balance r).

Definition account_fields (r : AccountRecord) : list (list byte) :=
  [ar_participant_id r : list byte; ar_trading_key r : list byte; le_bytes 8 (base_atoms (ar_balance r));
   le_bytes 8 (quote_atoms (ar_balance r)); ar_last_epoch r : list byte].

Lemma account_layout r : map length (account_fields r) = [32; 32; 8; 8; 32].
Proof. cbn [map account_fields]. by autorewrite with len. Qed.

Lemma account_encode_fields r : AccountRecord_encode r = concat (account_fields r).
Proof. unfold AccountRecord_encode, account_fields. cbn [concat]. by rewrite app_nil_r. Qed.

Lemma account_encode_length r : length (AccountRecord_encode r) = 112.
Proof. rewrite account_encode_fields. cbn [concat account_fields]. len. Qed.

Lemma account_decode_encode r : account_wf r -> AccountRecord_decode (AccountRecord_encode r) = Ok r.
Proof.
  intros (Hp & Hk & [Hb Hq] & Hz). unfold AccountRecord_decode, ACCOUNT_RECORD_LEN.
  rewrite account_encode_length, account_encode_fields. pose proof (account_layout r) as HL. fields HL.
  cbn [nth account_fields]. autorewrite with wire. change (bool_decide (112 = 112)) with true.
  cbn [negb mbind result_bind ok_or]. rewrite Hk. cbn [negb]. rewrite (bool_decide_eq_false_2 (_ = zero32)) by done.
  cbn [orb]. assert ((base_atoms (ar_balance r) == 0%Z) && (quote_atoms (ar_balance r) == 0%Z) = false) as ->.
  { apply andb_false_iff. rewrite !bool_decide_eq_false. unfold nonempty_balance in Hz.
    destruct (decide (base_atoms (ar_balance r) = 0%Z)); tauto. }
  by destruct r as [? ? [] ?].
Qed.

Lemma account_encode_decode bytes r :
  AccountRecord_decode bytes = Ok r -> account_wf r /\ AccountRecord_encode r = bytes.
Proof.
  unfold AccountRecord_decode, ACCOUNT_RECORD_LEN. intros E. inv_ok. bguard. subst r.
  match goal with T : (_ && _) = false |- _ => rename T into Hz end. split.
  - unfold account_wf. cbn -[slice]. split_and!; try done.
    + split; apply u64_slice_ok; cbn -[slice]; lia.
    + intros [Hb Hq]. cbn -[slice] in Hb, Hq. by rewrite Hb, Hq in Hz.
  - rewrite account_encode_fields. unfold account_fields. cbn -[slice le_bytes concat]. uncut [32; 32; 8; 8; 32].
Qed.

Lemma epoch_encode_length e : length (epoch_encode e) = 64.
Proof. unfold epoch_encode. by rewrite length_app, !length_arr. Qed.

Lemma epoch_decode_encode e d : e <> zero32 -> d <> zero32 -> epoch_decode (epoch_encode (e, d)) = Ok (e, d).
Proof.
  intros He Hd. unfold epoch_decode, epoch_encode. cbn [fst snd].
  rewrite slice_hit by apply length_arr. rewrite slice_skip, length_arr by (rewrite length_arr; lia).
  cbn [Nat.sub]. rewrite slice_hit_nil by apply length_arr. rewrite !try_into_arr. cbn [ok_or mbind result_bind].
  by rewrite !bool_decide_eq_false_2.
Qed.

Lemma epoch_decode_Ok bytes e d : epoch_decode bytes = Ok (e, d) -> e <> zero32 /\ d <> zero32.
Proof. unfold epoch_decode. intros E. inv_ok. bguard. by simplify_eq. Qed.

(** ** Files and tables *)

Definition accounts_ok (m : Accounts) : Prop := map_Forall (fun k r => ar_participant_id r = k /\ account_wf r) m.
Definition epochs_ok (a : AppliedEpochs) : Prop := map_Forall (fun e d => e <> zero32 /\ d <> zero32) a.
Definition ledger_ok (m : Accounts) (a : AppliedEpochs) : Prop :=
  accounts_ok m /\ epochs_ok a /\ (Z.of_nat (size m) < 2 ^ 32)%Z /\ (Z.of_nat (size a) < 2 ^ 32)%Z.

Lemma concat_accounts (m : Accounts) :
  concat (map AccountRecord_encode (btree_values m)) = table_bytes (fun e => AccountRecord_encode (snd e)) m.
Proof. unfold table_bytes, btree_values. by rewrite map_map. Qed.

Lemma accounts_bytes_length (m : Accounts) :
  length (table_bytes (fun e => AccountRecord_encode (snd e)) m) = size m * 112.
Proof. apply table_bytes_length. intros k r _. apply account_encode_length. Qed.

Lemma epochs_bytes_length (a : AppliedEpochs) : length (table_bytes epoch_encode a) = size a * 64.
Proof. apply table_bytes_length. intros k r _. apply epoch_encode_length. Qed.

Lemma encode_accounts_split m a :
  exists sum : bytes32, encode_accounts m a =
    ACCOUNT_HEADER ++ le_bytes 4 (Z.of_nat (size m)) ++ le_bytes 4 (Z.of_nat (size a))
    ++ table_bytes (fun e => AccountRecord_encode (snd e)) m ++ table_bytes epoch_encode a ++ (sum : list byte).
Proof.
  eexists. unfold encode_accounts, with_checksum. rewrite <- concat_accounts.
  unfold table_bytes. rewrite <- !app_assoc. reflexivity.
Qed.

Lemma checked_account_len_Some n k :
  u32_ok n -> u32_ok k -> checked_account_len n k = Some (16 + n * 112 + k * 64 + 32)%Z.
Proof. unfold u32_ok. intros Hn Hk. unfold checked_account_len, CHECKSUM_LEN, ACCOUNT_RECORD_LEN. by run_checked. Qed.

(** The fixed part of an encoded file. *)
Lemma account_header n k rest :
  u32_ok n -> u32_ok k ->
  let bytes := ACCOUNT_HEADER ++ le_bytes 4 n ++ le_bytes 4 k ++ rest in
  take 8 bytes = ACCOUNT_HEADER /\ le_val (slice 8 12 bytes) = n /\ le_val (slice 12 16 bytes) = k /\
  length bytes = 16 + length rest.
Proof.
  intros Hn Hk. assert (length ACCOUNT_HEADER = 8) as HH by done. cbn zeta. split_and!.
  - rewrite <- HH at 1. apply take_app_length.
  - rewrite slice_skip, HH by lia. cbn [Nat.sub]. rewrite slice_hit by apply length_le_bytes. by apply le_val_u32.
  - rewrite slice_skip, HH by lia. rewrite slice_skip, length_le_bytes by (rewrite length_le_bytes; lia). cbn [Nat.sub].
    rewrite slice_hit by apply length_le_bytes. by apply le_val_u32.
  - rewrite !length_app, !length_le_bytes, HH. lia.
Qed.

(** The accounts of an encoded file are read back whatever its epochs are. *)
Lemma decode_encoded_records m a :
  accounts_ok m -> (Z.of_nat (size m) < 2 ^ 32)%Z -> (Z.of_nat (size a) < 2 ^ 32)%Z ->
  exists epochs, decode_accounts (encode_accounts m a) = (applied ← epochs; Ok (m, applied)) /\ (epochs_ok a -> epochs = Ok a).
Proof.
  intros HM Hm Ha. unfold decode_accounts, ACCOUNT_RECORD_LEN, CHECKSUM_LEN.
  assert (checksum_ok (encode_accounts m a) = true) as -> by apply with_checksum_ok.
  change (length ACCOUNT_HEADER) with 8.
  assert (u32_ok (Z.of_nat (size m))) as Um by (unfold u32_ok; lia).
  assert (u32_ok (Z.of_nat (size a))) as Ua by (unfold u32_ok; lia).
  destruct (encode_accounts_split m a) as (sum & ->).
  pose proof (account_header _ _ (table_bytes (fun e => AccountRecord_encode (snd e)) m ++ table_bytes epoch_encode a
    ++ (sum : list byte)) Um Ua) as HH. cbn zeta in HH. destruct HH as (E1 & E2 & E3 & HL).
  rewrite E1, E2, E3, HL, !length_app, accounts_bytes_length, epochs_bytes_length, length_arr, bool_decide_eq_true_2 by done.
  rewrite (proj2 (Nat.ltb_ge _ _)) by lia. cbn [orb negb]. cbn zeta.
  rewrite checked_account_len_Some by done. cbn [ok_or mbind result_bind].
  rewrite bool_decide_eq_true_2 by lia. cbn [negb]. rewrite !Nat2Z.id.
  rewrite (app_assoc (le_bytes 4 (Z.of_nat (size m)))), (app_assoc ACCOUNT_HEADER).
  rewrite (load_table_bytes _ account_entry _ (fun e => AccountRecord_encode (snd e)) m); [|..].
  - cbn [mbind result_bind]. eexists. split; [reflexivity|]. intros HA. rewrite (app_assoc _ (table_bytes _ m)).
    rewrite (load_table_bytes _ epoch_decode _ epoch_encode a); [done| |done|].
    + intros e d He. split; [apply epoch_encode_length|]. destruct (HA e d He). by apply epoch_decode_encode.
    + rewrite !length_app, !length_le_bytes, accounts_bytes_length. change (length ACCOUNT_HEADER) with 8. lia.
  - intros k r Hk. cbn [snd]. destruct (HM k r Hk) as [<- Hw]. split; [apply account_encode_length|].
    unfold account_entry. by rewrite account_decode_encode.
  - done.
  - by rewrite !length_app, !length_le_bytes.
Qed.

Lemma decode_encode_accounts m a : ledger_ok m a -> decode_accounts (encode_accounts m a) = Ok (m, a).
Proof. intros (HM & HA & Hm & Ha). destruct (decode_encoded_records m a HM Hm Ha) as (epochs & -> & HE). by rewrite (HE HA). Qed.

Lemma decode_accounts_ok bytes m a : decode_accounts bytes = Ok (m, a) -> ledger_ok m a.
Proof.
  unfold decode_accounts, ACCOUNT_RECORD_LEN, CHECKSUM_LEN. change (length ACCOUNT_HEADER) with 8.
  intros HD. inv_ok. bguard. simplify_eq.
  assert (u32_ok (le_val (slice 8 12 bytes))) as Hu by (apply u32_slice_ok; lia).
  assert (u32_ok (le_val (slice 12 16 bytes))) as Hv by (apply u32_slice_ok; lia). unfold u32_ok in Hu, Hv.
  match goal with T : load_table _ account_entry _ _ _ _ _ = Ok _, T' : load_table _ epoch_decode _ _ _ _ _ = Ok _ |- _ =>
    pose proof (load_table_size _ _ _ _ _ _ _ _ T) as S1; pose proof (load_table_size _ _ _ _ _ _ _ _ T') as S2;
    rename T into L1; rename T' into L2 end.
  rewrite map_size_empty, Nat.add_0_r in S1. rewrite map_size_empty, Nat.add_0_r in S2. split_and!; [| |lia|lia].
  - eapply (load_table_inv _ _ _ (fun k r => ar_participant_id r = k /\ account_wf r)); [exact L1 | | apply map_Forall_empty].
    intros b k r Hb. unfold account_entry in Hb. inv_ok.
    match goal with T : AccountRecord_decode _ = Ok _ |- _ => apply account_encode_decode in T as [? _] end.
    by simplify_eq.
  - eapply (load_table_inv _ _ _ (fun e d => e <> zero32 /\ d <> zero32)); [exact L2 | | apply map_Forall_empty].
    intros b k r Hb. by eapply epoch_decode_Ok.
Qed.

(** The accounts and applied epochs a file holds. *)
Definition holds (file : option (list byte)) (m : Accounts) (a : AppliedEpochs) : Prop :=
  exists bytes, file = Some bytes /\ decode_accounts bytes = Ok (m, a).

Lemma holds_fun file m a m' a' : holds file m a -> holds file m' a' -> m' = m /\ a' = a.
Proof. intros (b & -> & E) (b' & [= <-] & E'). rewrite E in E'. by injection E' as <- <-. Qed.

Lemma holds_ok file m a : holds file m a -> ledger_ok m a.
Proof. intros (b & _ & E). by eapply decode_accounts_ok. Qed.

Lemma holds_encode m a : ledger_ok m a -> holds (Some (encode_accounts m a)) m a.
Proof. intros Hm. eexists. split; [done|]. by apply decode_encode_accounts. Qed.

Lemma load_Ok io file m a : load io file = Ok (m, a) <-> io_read io = None /\ holds file m a.
Proof. unfold load, read_file, holds. destruct (io_read io), file as [b|]; cbn; naive_solver. Qed.

Lemma persist_cases io file m a file' r :
  persist io file m a = (file', r) ->
  (file' = file /\ r <> Ok tt) \/
  (file' = Some (encode_accounts m a) /\ (Z.of_nat (size m) < 2 ^ 32)%Z /\ (Z.of_nat (size a) < 2 ^ 32)%Z).
Proof.
  unfold persist, replace_file. destruct (checked_u32 (Z.of_nat (size m))) as [v|] eqn:E; [|intros [= <- <-]; by left].
  destruct (checked_u32 (Z.of_nat (size a))) as [w|] eqn:E'; [|intros [= <- <-]; by left].
  apply checked_u32_Some in E as [_ [_ E]], E' as [_ [_ E']].
  destruct (io_write io); intros [= <- <-]; [by right | by left | by right].
Qed.

Lemma persist_accounts_succeeds io file m a :
  io_write io = Written -> ledger_ok m a -> persist io file m a = (Some (encode_accounts m a), Ok tt).
Proof.
  intros HW (_ & _ & Hm & Ha). unfold persist, replace_file.
  rewrite (proj2 (checked_u32_Some _ (Z.of_nat (size m)))) by (unfold u32_ok; lia).
  rewrite (proj2 (checked_u32_Some _ (Z.of_nat (size a)))) by (unfold u32_ok; lia). by rewrite HW.
Qed.
End codec.

(** ** Applying a settlement to the tables *)

(** The accounts after a settlement: members take their new balance and the epoch. *)
Definition settle_accounts (epoch_id : bytes32) (new : Balances) (m : Accounts) : Accounts :=
  map_imap (fun id r => Some (match new !! id with Some b => settle_record epoch_id b r | None => r end)) m.

Definition members_known (new : Balances) (m : Accounts) : Prop := forall id, is_Some (new !! id) -> is_Some (m !! id).
Definition starts_from (before : Balances) (m : Accounts) : Prop :=
  forall id b, before !! id = Some b -> exists r, m !! id = Some r /\ ar_balance r = b.
Definition at_settlement (epoch_id : bytes32) (new : Balances) (m : Accounts) : Prop :=
  forall id b, new !! id = Some b -> exists r, m !! id = Some r /\ ar_last_epoch r = epoch_id /\ ar_balance r = b.

Lemma lookup_settle_accounts e new m id :
  settle_accounts e new m !! id
  = (fun r => match new !! id with Some b => settle_record e b r | None => r end) <$> m !! id.
Proof. unfold settle_accounts. rewrite map_lookup_imap. by destruct (m !! id). Qed.

Lemma settle_accounts_empty e m : settle_accounts e ∅ m = m.
Proof. apply map_eq. intros id. rewrite lookup_settle_accounts, lookup_empty. by destruct (m !! id). Qed.

Lemma settle_accounts_insert e id b new m r :
  new !! id = None -> m !! id = Some r ->
  settle_accounts e new (<[id := settle_record e b r]> m) = settle_accounts e (<[id := b]> new) m.
Proof.
  intros Hn Hr. apply map_eq. intros id'. rewrite !lookup_settle_accounts.
  destruct (decide (id = id')) as [<-|Hne]; [by rewrite !lookup_insert_eq, Hn, Hr | by rewrite !lookup_insert_ne].
Qed.

Lemma settle_accounts_size e new m : size (settle_accounts e new m) = size m.
Proof.
  rewrite <- !size_dom. f_equal. apply set_eq. intros n. rewrite !elem_of_dom, lookup_settle_accounts.
  by rewrite fmap_is_Some.
Qed.

Lemma settle_entry_known e m id b r :
  m !! id = Some r -> settle_entry e m (id, b) = Ok (<[id := settle_record e b r]> m).
Proof. intros Hr. unfold settle_entry. cbn [fst snd]. by rewrite Hr. Qed.

Lemma settle_loop_list e l m :
  NoDup (map fst l) -> Forall (fun entry => is_Some (m !! fst entry)) l ->
  try_fold (settle_entry e) m l = Ok (settle_accounts e (list_to_map l) m).
Proof.
  revert m. induction l as [|[id b] l IH]; intros m HN HF; cbn [try_fold]; [by rewrite settle_accounts_empty|].
  cbn [map fst] in HN. apply list.NoDup_cons in HN as [Hid HN]. apply Forall_cons_iff in HF as [[r Hr] HF].
  cbn [fst] in Hr. rewrite (settle_entry_known _ _ _ _ _ Hr). cbn [mbind result_bind]. rewrite IH; [|done|].
  - cbn [list_to_map foldr]. f_equal. apply settle_accounts_insert; [|done]. by apply not_elem_of_list_to_map_1.
  - revert HF. apply Forall_impl. intros [id' b'] HS. cbn in *. destruct (decide (id = id')) as [<-|];
      [rewrite lookup_insert_eq; eauto | by rewrite lookup_insert_ne].
Qed.

Lemma settle_loop e new m :
  members_known new m -> try_fold (settle_entry e) m (btree_list new) = Ok (settle_accounts e new m).
Proof.
  intros HK. rewrite settle_loop_list.
  - by rewrite btree_list_to_map.
  - apply btree_list_keys_NoDup.
  - apply list.Forall_forall. intros [id b] Hin%btree_list_elem. apply HK. eauto.
Qed.

Lemma settlement_matches_spec m e r : settlement_matches m e r = true <-> at_settlement e (balances r) m.
Proof.
  unfold settlement_matches, at_settlement. rewrite forallb_forall. split.
  - intros HF id b Hb. specialize (HF (id, b)). cbn in HF.
    destruct (m !! id) as [rec|]; [|by discriminate HF; apply list_elem_of_In, btree_list_elem].
    exists rec. assert (bool_decide (ar_last_epoch rec = e) && bool_decide (ar_balance rec = b) = true) as Hm
      by (apply HF; by apply list_elem_of_In, btree_list_elem). bguard. done.
  - intros HS [id b] Hin. apply list_elem_of_In, btree_list_elem in Hin.
    destruct (HS id b Hin) as (rec & -> & He & Hb). by rewrite !bool_decide_eq_true_2.
Qed.

Lemma members_known_spec (new : Balances) (m : Accounts) u :
  try_each (fun '(participant_id, _) =>
    if bool_decide (is_Some (m !! participant_id)) then Ok tt else Err AccountError.UnknownAccount)
    (btree_list new) = Ok u <-> members_known new m.
Proof.
  rewrite try_each_Ok, list.Forall_forall. unfold members_known. split.
  - intros HF id [b Hb]. specialize (HF (id, b) ltac:(by apply btree_list_elem)). cbn in HF.
    destruct (bool_decide_reflect (is_Some (m !! id))); done.
  - intros HK [id b] Hin%btree_list_elem. rewrite bool_decide_eq_true_2; [done|]. apply HK. eauto.
Qed.

Lemma starts_from_spec (before : Balances) (m : Accounts) :
  existsb (fun '(participant_id, balance) =>
    match m !! participant_id with Some record => ar_balance record != balance | None => true end)
    (btree_list before) = false <-> starts_from before m.
Proof.
  rewrite <- not_true_iff_false, existsb_exists. unfold starts_from. split.
  - intros HN id b Hb. destruct (m !! id) as [rec|] eqn:Em.
    + exists rec. split; [done|]. destruct (bool_decide_reflect (ar_balance rec = b)) as [?|Hne]; [done|].
      destruct HN. exists (id, b). split; [by apply list_elem_of_In, btree_list_elem|]. rewrite Em.
      by rewrite bool_decide_eq_false_2.
    + destruct HN. exists (id, b). split; [by apply list_elem_of_In, btree_list_elem|]. by rewrite Em.
  - intros HS ([id b] & Hin & Ht). apply list_elem_of_In, btree_list_elem in Hin.
    destruct (HS id b Hin) as (rec & Hr & Hb). rewrite Hr in Ht. by rewrite bool_decide_eq_true_2 in Ht.
Qed.

Section settlement.
Context `{Sha256} `{Dalek}.

(** The operation succeeds in exactly two ways: a fresh epoch whose result starts from the stored
    balances is applied, or the very same settlement is found already applied. *)
Lemma settlement_operation_Ok e r m a m' a' :
  settlement_operation e r m a = Ok (m', a') <->
  members_known (balances r) m /\
  ((a !! e = None /\ starts_from (before_balances r) m /\
    m' = settle_accounts e (balances r) m /\ a' = <[e := settlement_digest r]> a) \/
   (a !! e = Some (settlement_digest r) /\ at_settlement e (balances r) m /\ m' = m /\ a' = a)).
Proof.
  unfold settlement_operation. rewrite bind_Ok. split.
  - intros (u & HK & HO). apply members_known_spec in HK. split; [done|]. destruct (a !! e) as [d|] eqn:Ea.
    + right. destruct (_ && _) eqn:Eg; [|done]. bguard.
      match goal with T : settlement_matches _ _ _ = true |- _ => apply settlement_matches_spec in T end.
      by simplify_eq.
    + left. apply guard_Ok in HO as [HS HO]. apply starts_from_spec in HS.
      rewrite settle_loop in HO by done. by simplify_eq/=.
  - intros (HK & HC). exists tt. split; [by apply members_known_spec|].
    destruct HC as [(-> & HS & -> & ->)|(-> & HS & -> & ->)].
    + apply guard_Ok. split; [by apply starts_from_spec|]. by rewrite settle_loop.
    + by rewrite (bool_decide_eq_true_2 (settlement_digest r = _)), (proj2 (settlement_matches_spec _ _ _)).
Qed.

Lemma at_settlement_settled e new m : members_known new m -> at_settlement e new (settle_accounts e new m).
Proof.
  intros HK id b Hb. destruct (HK id) as [r Hr]; [eauto|]. rewrite lookup_settle_accounts, Hr, Hb. cbn.
  by eexists.
Qed.

Lemma members_known_settled e new new' m : members_known new m -> members_known new (settle_accounts e new' m).
Proof. intros HK id Hid. rewrite lookup_settle_accounts, fmap_is_Some. by apply HK. Qed.

(** Applying a settlement a second time changes nothing. *)
Lemma settlement_operation_again e r m a m' a' :
  settlement_operation e r m a = Ok (m', a') -> settlement_operation e r m' a' = Ok (m', a').
Proof.
  rewrite !settlement_operation_Ok. intros (HK & [(Ha & HS & -> & ->)|(Ha & HS & -> & ->)]).
  - split; [by apply members_known_settled|]. right. rewrite lookup_insert_eq.
    split_and!; try done. by apply at_settlement_settled.
  - split; [done|]. by right.
Qed.

(** What a result must satisfy for the journal to stay readable. *)
Definition result_ok (r : BatchResult) : Prop :=
  map_Forall (fun _ b => balance_ok b /\ nonempty_balance b) (balances r) /\ settlement_digest r <> zero32.

Lemma settlement_operation_accounts e r m a m' a' :
  map_Forall (fun _ b => balance_ok b /\ nonempty_balance b) (balances r) -> accounts_ok m ->
  settlement_operation e r m a = Ok (m', a') -> accounts_ok m' /\ at_settlement e (balances r) m'.
Proof.
  intros HB HM. rewrite settlement_operation_Ok.
  intros (HK & [(_ & _ & -> & _)|(_ & HS & -> & _)]); [|done]. split; [|by apply at_settlement_settled].
  intros id rec. rewrite lookup_settle_accounts, fmap_Some. intros (r0 & Hr0 & ->).
  destruct (HM id r0 Hr0) as [Hid (W1 & W2 & W3 & W4)]. destruct (balances r !! id) as [b|] eqn:Eb; [|done].
  destruct (HB id b Eb). done.
Qed.

Lemma settlement_operation_ledger e r m a m' a' :
  e <> zero32 -> result_ok r -> accounts_ok m -> epochs_ok a ->
  settlement_operation e r m a = Ok (m', a') -> accounts_ok m' /\ epochs_ok a'.
Proof.
  intros He [HB HD] HM HA HO. split; [by eapply settlement_operation_accounts|].
  apply settlement_operation_Ok in HO as (_ & [(_ & _ & _ & ->)|(_ & _ & _ & ->)]); [|done]. by apply map_Forall_insert_2.
Qed.

(** ** Durable account operations *)

Lemma account_mutate_cases io j op j' r :
  AccountJournal_mutate io j op = (j', r) ->
  (j' = j /\ r <> Ok tt) \/
  exists m a m' a', holds (aj_file j) m a /\ op m a = Ok (m', a') /\
    (Z.of_nat (size m') < 2 ^ 32)%Z /\ (Z.of_nat (size a') < 2 ^ 32)%Z /\
    aj_file j' = Some (encode_accounts m' a') /\ (r = Ok tt -> aj_records j' = m' /\ aj_applied_epochs j' = a').
Proof.
  unfold AccountJournal_mutate.
  destruct (acquire_lock io) as [[]|e1]; [|intros [= <- <-]; by left].
  destruct (load io (aj_file j)) as [[m a]|e2] eqn:EL; [|intros [= <- <-]; by left].
  destruct (op m a) as [[m' a']|e3] eqn:EO; [|intros [= <- <-]; by left].
  apply load_Ok in EL as [_ HR].
  destruct (persist io (aj_file j) m' a') as [file [[]|e4]] eqn:EP; intros [= <- <-];
    apply persist_cases in EP as [[-> Hr]|(-> & Hm & Ha)]; try done; [right | left | right];
    [exists m, a, m', a'; done | by destruct j | exists m, a, m', a'; done].
Qed.

Lemma account_mutate_succeeds io j op m a m' a' :
  io_succeeds io -> holds (aj_file j) m a -> op m a = Ok (m', a') -> ledger_ok m' a' ->
  AccountJournal_mutate io j op
  = ({| aj_file := Some (encode_accounts m' a'); aj_records := m'; aj_applied_epochs := a' |}, Ok tt).
Proof.
  intros (HL & HD & HW) HH HO HK. unfold AccountJournal_mutate, acquire_lock. rewrite HL. cbn [map_err].
  rewrite (proj2 (load_Ok io _ m a)) by done. rewrite HO. by rewrite persist_accounts_succeeds.
Qed.

Lemma reload_cases io j j' r :
  AccountJournal_reload io j = (j', r) ->
  aj_file j' = aj_file j /\ (r = Ok tt -> holds (aj_file j) (aj_records j') (aj_applied_epochs j')).
Proof.
  unfold AccountJournal_reload. destruct (acquire_lock io) as [[]|e1]; [|by intros [= <- <-]].
  destruct (load io (aj_file j)) as [[m a]|e2] eqn:EL; [|by intros [= <- <-]].
  apply load_Ok in EL as [_ HR]. by intros [= <- <-].
Qed.

Lemma reload_succeeds io j m a :
  io_succeeds io -> holds (aj_file j) m a ->
  AccountJournal_reload io j = ({| aj_file := aj_file j; aj_records := m; aj_applied_epochs := a |}, Ok tt).
Proof.
  intros (HL & HD & HW) HH. unfold AccountJournal_reload, acquire_lock. rewrite HL. cbn [map_err].
  by rewrite (proj2 (load_Ok io _ m a)).
Qed.
End settlement.

(** ** Finalization *)

Section finalize.
Context `{Sha256} `{Dalek}.

Lemma apply_settlement_cases io j e r m a j' v :
  result_ok r -> holds (aj_file j) m a ->
  AccountJournal_apply_settlement io j e r = (j', v) ->
  (holds (aj_file j') m a /\ v <> Ok tt) \/
  exists m' a', settlement_operation e r m a = Ok (m', a') /\ holds (aj_file j') m' a' /\
    (v = Ok tt -> aj_records j' = m' /\ aj_applied_epochs j' = a').
Proof.
  intros HR HH. unfold AccountJournal_apply_settlement.
  destruct (bool_decide_reflect (e = zero32)) as [->|He]; [intros [= <- <-]; by left|].
  intros HM. apply account_mutate_cases in HM as [[-> Hv]|(m0 & a0 & m' & a' & HH' & HO & Hm & Ha & Hf & Hr)]; [by left|].
  right. destruct (holds_fun _ _ _ _ _ HH HH') as [-> ->]. exists m', a'. split_and!; try done.
  destruct (holds_ok _ _ _ HH) as (HM & HA & _). rewrite Hf. apply holds_encode.
  destruct (settlement_operation_ledger _ _ _ _ _ _ He HR HM HA HO). done.
Qed.

Lemma finalize_apply_cases io e r used j m a j' v :
  result_ok r -> holds (aj_file j) m a -> finalize_apply io e r used j = (j', v) ->
  (holds (aj_file j') m a /\ v <> Ok tt) \/
  (used = true -> a !! e = Some (settlement_digest r) /\ at_settlement e (balances r) m) /\
  exists m' a', settlement_operation e r m a = Ok (m', a') /\ holds (aj_file j') m' a'.
Proof.
  intros HR HH. unfold finalize_apply. destruct used.
  - unfold AccountJournal_settlement_matches. destruct (AccountJournal_reload _ j) as [j1 [[]|e1]] eqn:ER;
      apply reload_cases in ER as [Hf Hok]; [|intros [= <- <-]; left; by rewrite Hf].
    destruct (holds_fun _ _ _ _ _ HH (Hok eq_refl)) as [-> ->].
    destruct (_ && _) eqn:Eg; cbn [negb]; [|intros [= <- <-]; left; by rewrite Hf].
    bguard. rewrite <- Hf in HH. intros HA. apply (apply_settlement_cases _ _ _ _ _ _ _ _ HR HH) in HA as [?|(m' & a' & HO & HH' & _)]; [by left|].
    right. split; [|by exists m', a']. intros _. split; [done | by apply settlement_matches_spec].
  - intros HA. apply (apply_settlement_cases _ _ _ _ _ _ _ _ HR HH) in HA as [?|(m' & a' & HO & HH' & _)]; [by left|].
    right. split; [done | by exists m', a'].
Qed.

(** What the reservations must look like for a settlement of [members] to be finalized. *)
Definition finalizable (e : bytes32) (members : gset bytes32) (nonces : list bytes32) (t : Reservations) : Prop :=
  epoch_batch e ReservationState.Released t nonces /\ length nonces = size members /\ members_of t nonces = members.

(** The outcome of one call, for every behaviour of the file system: neither file changes, or the
    accounts hold the settlement and the reservations are untouched or consumed; success means
    consumed. *)
Lemma finalize_settlement_cases io accounts reservations e r nonces m a t accounts' reservations' out :
  result_ok r -> holds (aj_file accounts) m a -> represents (rj_file reservations) t ->
  finalize_settlement io accounts reservations e r nonces = (accounts', reservations', out) ->
  (holds (aj_file accounts') m a /\ represents (rj_file reservations') t /\ out <> Ok tt) \/
  finalizable e (dom (balances r)) nonces t /\
  (any_used t nonces = true -> a !! e = Some (settlement_digest r) /\ at_settlement e (balances r) m) /\
  exists m' a', settlement_operation e r m a = Ok (m', a') /\ holds (aj_file accounts') m' a' /\
    ((represents (rj_file reservations') t /\ out <> Ok tt) \/
     represents (rj_file reservations') (advance_all ReservationState.Used nonces t)).
Proof.
  intros HR HH HT. unfold finalize_settlement. cbn zeta.
  destruct (finalize_epoch _ _ _ _ _ _ _) as [[res acc] o] eqn:EF. intros [= <- <- <-].
  apply finalize_epoch_cases in EF as [(-> & -> & err & ->)|(t' & v & HT' & HB & Hlen & Hmem & HA & HO)]; [by left|].
  rewrite (represents_fun _ _ _ HT' HT) in *.
  apply (finalize_apply_cases _ _ _ _ _ _ _ _ _ HR HH) in HA as [[HH' Hv]|(Hused & m' & a' & Hop & HH')].
  - left. destruct v as [[]|err]; [done|]. cbn in HO. destruct HO as [-> ->]. done.
  - right. split_and!; try done. exists m', a'. split_and!; try done.
    destruct v as [[]|err]; cbn in HO.
    + destruct HO as [(-> & ? & _)|((err & ->) & [?|?])]; [by right | by left | by right].
    + destruct HO as [-> ->]. by left.
Qed.

(** After a success the accounts' file is an encoding of accounts that hold the settlement. *)
Lemma finalize_settlement_stored io accounts reservations e r nonces accounts' reservations' :
  map_Forall (fun _ b => balance_ok b /\ nonempty_balance b) (balances r) ->
  finalize_settlement io accounts reservations e r nonces = (accounts', reservations', Ok tt) ->
  exists m' a', aj_file accounts' = Some (encode_accounts m' a') /\ accounts_ok m' /\ (Z.of_nat (size m') < 2 ^ 32)%Z /\
    (Z.of_nat (size a') < 2 ^ 32)%Z /\ at_settlement e (balances r) m'.
Proof.
  intros HB. unfold finalize_settlement. cbn zeta. destruct (finalize_epoch _ _ _ _ _ _ _) as [[res acc] o] eqn:EF. intros [= <- <- HF].
  apply finalize_epoch_cases in EF as [(_ & _ & err & ->)|(t' & v & _ & _ & _ & _ & HA & HO)]; [done|].
  destruct v as [[]|err]; cbn in HO; [|by destruct HO as [_ ->]]. clear HO.
  assert (exists j, AccountJournal_apply_settlement (sio_apply io) j e r = (acc, Ok tt)) as (j & HJ).
  { unfold finalize_apply in HA. destruct (any_used t' nonces); [|by exists accounts].
    destruct (AccountJournal_settlement_matches _ _ _ _) as [j [[]|err]]; [by exists j | done | done]. }
  unfold AccountJournal_apply_settlement in HJ. destruct (bool_decide _); [done|].
  apply account_mutate_cases in HJ as [[_ ?]|(m & a & m' & a' & HH & HO & Hm & Ha & Hf & _)]; [done|].
  destruct (holds_ok _ _ _ HH) as (HM & _). destruct (settlement_operation_accounts _ _ _ _ _ _ HB HM HO). by exists m', a'.
Qed.
End finalize.

(** ** Retrying a finalization after crashes *)

Lemma advance_all_idem next nonces t :
  next <> ReservationState.Reserved -> advance_all next nonces (advance_all next nonces t) = advance_all next nonces t.
Proof.
  intros Hx. apply map_eq. intros n. rewrite !lookup_advance_all. destruct (t !! n) as [rec|]; [|done]. cbn.
  case_bool_decide; [by rewrite advance_record_twice | done].
Qed.

Lemma lookup_advanced next nonces t n rec :
  advance_all next nonces t !! n = Some rec ->
  exists r0, t !! n = Some r0 /\ rr_epoch_id rec = rr_epoch_id r0 /\ rr_participant_id rec = rr_participant_id r0 /\
    (rr_state rec = rr_state r0 \/ rr_state rec = next).
Proof.
  rewrite lookup_advance_all, fmap_Some. intros (r0 & Hr & ->). exists r0. split; [done|].
  unfold advance_record. repeat case_bool_decide; cbn; auto.
Qed.

Lemma lookup_advanced_fwd next nonces t n r0 :
  t !! n = Some r0 -> exists rec, advance_all next nonces t !! n = Some rec.
Proof. intros Hr. rewrite lookup_advance_all, Hr. by eexists. Qed.

Lemma members_of_advanced next nonces nonces' t : members_of (advance_all next nonces t) nonces' = members_of t nonces'.
Proof.
  unfold members_of. f_equal. induction nonces' as [|n l IH]; [done|]. cbn.
  rewrite lookup_advance_all. destruct (t !! n) as [rec|]; cbn; [|done]. rewrite IH. f_equal.
  unfold advance_record. repeat case_bool_decide; done.
Qed.

Lemma finalizable_advanced e members nonces t :
  finalizable e members nonces t -> finalizable e members nonces (advance_all ReservationState.Used nonces t).
Proof.
  intros ([HN HF] & Hl & Hm). split_and!; [|done | by rewrite members_of_advanced].
  split; [done|]. revert HF. apply Forall_impl. intros n (r0 & Hr & He & Hs).
  destruct (lookup_advanced_fwd ReservationState.Used nonces t n r0 Hr) as (rec & Hrec).
  exists rec. destruct (lookup_advanced _ _ _ _ _ Hrec) as (r0' & Hr' & E1 & _ & E2).
  assert (r0' = r0) as -> by congruence. split_and!; [done | congruence|]. by destruct E2 as [->| ->].
Qed.

Inductive Stage : Type := Fresh | Applied | Consumed.
Definition stage_le (s s' : Stage) : bool :=
  match s, s' with Fresh, _ | Applied, Applied | Applied, Consumed | Consumed, Consumed => true | _, _ => false end.

Section retry.
Context `{Sha256} `{Dalek}.
Context (e : bytes32) (r : BatchResult) (nonces : list bytes32) (m : Accounts) (a : AppliedEpochs) (t : Reservations).

(** A settlement that is ready to be finalized. *)
Definition ready : Prop :=
  e <> zero32 /\ result_ok r /\ finalizable e (dom (balances r)) nonces t /\ any_used t nonces = false /\
  members_known (balances r) m /\ starts_from (before_balances r) m /\ a !! e = None /\
  (Z.of_nat (size a) + 1 < 2 ^ 32)%Z.

(** The durable state of the pair of journals. *)
Definition at_stage (s : Stage) (p : AccountJournal * ReservationJournal) : Prop :=
  match s with Fresh => holds (aj_file (fst p)) m a
          | _ => holds (aj_file (fst p)) (settle_accounts e (balances r) m) (<[e := settlement_digest r]> a) end /\
  represents (rj_file (snd p)) (match s with Consumed => advance_all ReservationState.Used nonces t | _ => t end).

Lemma at_stage_ready s p : ready -> at_stage s p ->
  exists m' a' t', holds (aj_file (fst p)) m' a' /\ represents (rj_file (snd p)) t' /\
    settlement_operation e r m' a' = Ok (settle_accounts e (balances r) m, <[e := settlement_digest r]> a) /\
    finalizable e (dom (balances r)) nonces t' /\
    (any_used t' nonces = true -> a' !! e = Some (settlement_digest r) /\ at_settlement e (balances r) m') /\
    advance_all ReservationState.Used nonces t' = advance_all ReservationState.Used nonces t.
Proof.
  intros (_ & _ & HF & Hu & HK & HS & Ha & _) [HH HT].
  assert (settlement_operation e r m a = Ok (settle_accounts e (balances r) m, <[e := settlement_digest r]> a)) as HO.
  { apply settlement_operation_Ok. split; [done|]. by left. }
  assert (at_settlement e (balances r) (settle_accounts e (balances r) m)) by (by apply at_settlement_settled).
  destruct s.
  - exists m, a, t. split_and!; try done. congruence.
  - exists (settle_accounts e (balances r) m), (<[e := settlement_digest r]> a), t. split_and!; try done.
    by apply settlement_operation_again in HO.
    intros _. by rewrite lookup_insert_eq.
  - exists (settle_accounts e (balances r) m), (<[e := settlement_digest r]> a), (advance_all ReservationState.Used nonces t).
    split_and!; try done.
    + by apply settlement_operation_again in HO.
    + by apply finalizable_advanced.
    + intros _. by rewrite lookup_insert_eq.
    + by apply advance_all_idem.
Qed.

(** One attempt, whatever the file system does, moves forward through the stages. *)
Lemma attempt_stage s p io accounts' reservations' out :
  ready -> at_stage s p -> finalize_settlement io (fst p) (snd p) e r nonces = (accounts', reservations', out) ->
  exists s', stage_le s s' = true /\ at_stage s' (accounts', reservations') /\ (out = Ok tt -> s' = Consumed).
Proof.
  intros HR HP EF. destruct (at_stage_ready s p HR HP) as (m' & a' & t' & HH & HT & HO & _ & _ & Hadv).
  destruct HR as (_ & HR & _).
  pose proof (finalize_settlement_cases _ _ _ _ _ _ _ _ _ _ _ _ HR HH HT EF) as HC. clear EF.
  destruct HC as [(HH' & HT' & Hout)|(Hfin & Huse & m2 & a2 & HO' & HH' & HC)].
  - exists s. split_and!; [by destruct s | | done]. destruct HP as [HPa HPt]. split; cbn [fst snd].
    + destruct s; by destruct (holds_fun _ _ _ _ _ HPa HH) as [-> ->].
    + by rewrite (represents_fun _ _ _ HPt HT).
  - rewrite HO in HO'. apply Ok_inj in HO'. injection HO' as <- <-. rewrite Hadv in HC.
    destruct HC as [[HT' Hout]|HT'].
    + destruct HP as [_ HPt]. rewrite <- (represents_fun _ _ _ HPt HT) in HT'.
      exists (match s with Fresh => Applied | _ => s end). split_and!; [by destruct s | | done]. by destruct s.
    + exists Consumed. split_and!; [by destruct s | done | done].
Qed.

Definition settle_io_succeeds (io : SettleIo) : Prop :=
  io_succeeds (sio_reservations io) /\ io_succeeds (sio_query io) /\ io_succeeds (sio_apply io).

(** An attempt in which the calls succeed completes, from any stage. *)
Lemma attempt_succeeds s p io :
  ready -> at_stage s p -> settle_io_succeeds io ->
  exists accounts' reservations',
    finalize_settlement io (fst p) (snd p) e r nonces = (accounts', reservations', Ok tt) /\
    at_stage Consumed (accounts', reservations').
Proof.
  intros HR HP (HI1 & HI2 & HI3). destruct (at_stage_ready s p HR HP) as (m' & a' & t' & HH & HT & HO & HF & Hu & Hadv).
  assert (exists acc', finalize_apply io e r (any_used t' nonces) (fst p) = (acc', Ok tt)) as (acc' & HA).
  { destruct HR as (He & HR & _ & _ & _ & _ & _ & Hsz).
    assert (ledger_ok (settle_accounts e (balances r) m) (<[e := settlement_digest r]> a)) as HL.
    { destruct (holds_ok _ _ _ HH) as (HM & HA & HM2 & HA2).
      destruct (settlement_operation_ledger _ _ _ _ _ _ He HR HM HA HO) as [? ?]. split_and!; try done.
      - apply settlement_operation_Ok in HO as (_ & [(_ & _ & -> & _)|(_ & _ & -> & _)]); by rewrite ?settle_accounts_size.
      - rewrite map_size_insert. destruct (a !! e); cbn; lia. }
    unfold finalize_apply, AccountJournal_apply_settlement, AccountJournal_settlement_matches.
    rewrite (bool_decide_eq_false_2 (e = zero32)) by done.
    destruct (any_used t' nonces).
    - rewrite (reload_succeeds _ _ _ _ HI2 HH). cbn [aj_records aj_applied_epochs].
      destruct (Hu eq_refl) as [-> Hat]. rewrite bool_decide_eq_true_2 by done.
      rewrite (proj2 (settlement_matches_spec _ _ _)) by done. cbn [andb negb].
      by erewrite account_mutate_succeeds; [eexists|..].
    - by erewrite account_mutate_succeeds; [eexists|..]. }
  destruct HF as (HB & Hlen & Hmem).
  destruct (finalize_epoch_succeeds (sio_reservations io) (snd p) (fst p) e nonces (finalize_apply io e r) t' acc')
    as (res' & HE); [done | done | done | by rewrite Hmem | done|].
  rewrite Hmem in HE. exists acc', res'.
  assert (finalize_settlement io (fst p) (snd p) e r nonces = (acc', res', Ok tt)) as HFS
    by (unfold finalize_settlement; cbn zeta; by rewrite HE).
  split; [done|]. destruct (attempt_stage _ _ _ _ _ _ HR HP HFS) as (s' & _ & Hs' & Hc). by rewrite <- (Hc eq_refl).
Qed.

(** One attempt, possibly cut short, after which other handles carry on from the files. *)
Definition attempt (p p' : AccountJournal * ReservationJournal) : Prop :=
  exists io accounts' reservations' out,
    finalize_settlement io (fst p) (snd p) e r nonces = (accounts', reservations', out) /\
    aj_file (fst p') = aj_file accounts' /\ rj_file (snd p') = rj_file reservations'.

Lemma attempts_stage p p' s :
  ready -> rtc attempt p p' -> at_stage s p -> exists s', stage_le s s' = true /\ at_stage s' p'.
Proof.
  intros HR HA. revert s. induction HA as [p|p p1 p2 (io & acc & res & out & EF & Hf1 & Hf2) _ IH]; intros s HP.
  - exists s. split; [by destruct s | done].
  - destruct (attempt_stage s p io acc res out HR HP EF) as (s1 & Hle & Hs1 & _).
    assert (at_stage s1 p1) as Hs1' by (unfold at_stage in *; cbn [fst snd] in Hs1; by rewrite Hf1, Hf2).
    destruct (IH s1 Hs1') as (s2 & Hle2 & Hs2). exists s2. split; [|done]. by destruct s, s1, s2.
Qed.
End retry.

(** ** Releasing *)

Section release.
Context `{Sha256} `{Dalek}.

Lemma release_verdict_cases io e j m a j' v :
  holds (aj_file j) m a -> release_verdict io e j = (j', v) ->
  aj_file j' = aj_file j /\ (v = Ok tt -> a !! e = None).
Proof.
  intros HH. unfold release_verdict, AccountJournal_has_applied_epoch.
  destruct (AccountJournal_reload (sio_query io) j) as [j1 [[]|err]] eqn:ER; apply reload_cases in ER as [Hf Hok].
  - destruct (holds_fun _ _ _ _ _ HH (Hok eq_refl)) as [_ Ha]. intros [= <- <-]. split; [done|].
    rewrite Ha. case_bool_decide as Hs; [done|]. intros _. by apply eq_None_not_Some.
  - by intros [= <- <-].
Qed.

(** A release never touches the accounts, and changes the reservations only of an epoch whose
    settlement was not applied. *)
Lemma release_reservations_cases io accounts reservations terminal nonces m a t accounts' reservations' out :
  holds (aj_file accounts) m a -> represents (rj_file reservations) t ->
  release_reservations io accounts reservations terminal nonces = (accounts', reservations', out) ->
  holds (aj_file accounts') m a /\
  ((represents (rj_file reservations') t /\ out <> Ok tt) \/
   (a !! ct_epoch_id terminal = None /\ epoch_batch (ct_epoch_id terminal) ReservationState.Used t nonces /\
    represents (rj_file reservations') (advance_all ReservationState.Released nonces t))).
Proof.
  intros HH HT. unfold release_reservations. cbn zeta.
  destruct (release_epoch_checked _ _ _ _ _ _) as [[res acc] o] eqn:EF. intros [= <- <- <-].
  pose proof (release_epoch_cases _ _ _ _ _ _ _ _ _ EF) as HC. clear EF.
  destruct HC as [(-> & -> & err & ->)|(t' & v & HT' & HB & HV & HO)]; [split; [done | by left]|].
  rewrite (represents_fun _ _ _ HT' HT) in *.
  apply (release_verdict_cases _ _ _ _ _ _ _ HH) in HV as [Hf Hv]. rewrite Hf. split; [done|].
  destruct v as [[]|err]; cbn in HO.
  - specialize (Hv eq_refl). destruct HO as [(-> & ? & _)|((err & ->) & [?|?])]; [by right | by left | by right].
  - destruct HO as [-> ->]. by left.
Qed.

Lemma release_reservations_succeeds io accounts reservations terminal nonces m a t :
  io_succeeds (sio_reservations io) -> io_succeeds (sio_query io) ->
  holds (aj_file accounts) m a -> represents (rj_file reservations) t ->
  a !! ct_epoch_id terminal = None -> epoch_batch (ct_epoch_id terminal) ReservationState.Used t nonces ->
  exists accounts' reservations',
    release_reservations io accounts reservations terminal nonces = (accounts', reservations', Ok tt).
Proof.
  intros HI1 HI2 HH HT Ha HB.
  destruct (release_epoch_succeeds (sio_reservations io) reservations accounts (ct_epoch_id terminal) nonces
    (release_verdict io (ct_epoch_id terminal)) t
    {| aj_file := aj_file accounts; aj_records := m; aj_applied_epochs := a |}) as (res' & HE); [done..| |].
  - unfold release_verdict, AccountJournal_has_applied_epoch. rewrite (reload_succeeds _ _ _ _ HI2 HH).
    cbn [aj_applied_epochs]. rewrite bool_decide_eq_false_2; [done|]. rewrite Ha. by intros [? ?].
  - unfold release_reservations. cbn zeta. rewrite HE. by eexists _, _.
Qed.

(** ** Runs of the coordinator *)

(** Any sequence of openings, registrations, finalizations, releases and reservation updates, by any
    handles on the two files and with any behaviour of the file system. *)
Inductive pair_step : AccountJournal * ReservationJournal -> AccountJournal * ReservationJournal -> Prop :=
| pair_open io p :
    pair_step p ({| aj_file := fst (AccountJournal_open io (aj_file (fst p))); aj_records := aj_records (fst p);
                    aj_applied_epochs := aj_applied_epochs (fst p) |}, snd p)
| pair_register io p participant_id trading_key balance :
    verifying_key_ok trading_key = true -> balance_ok balance ->
    pair_step p (fst (AccountJournal_register io (fst p) participant_id trading_key balance), snd p)
| pair_finalize io p e r nonces :
    result_ok r -> pair_step p (fst (finalize_settlement io (fst p) (snd p) e r nonces))
| pair_release io p terminal nonces : pair_step p (fst (release_reservations io (fst p) (snd p) terminal nonces))
| pair_journal p j : journal_step (snd p) j -> pair_step p (fst p, j)
| pair_handle p records applied :
    pair_step p ({| aj_file := aj_file (fst p); aj_records := records; aj_applied_epochs := applied |}, snd p).

(** The one step that loses an account file: an opening that could not see it and wrote over it. *)
Definition accounts_erased (p p' : AccountJournal * ReservationJournal) : Prop :=
  exists io, io_metadata io <> None /\ snd p' = snd p /\
    aj_file (fst p') = fst (AccountJournal_open io (aj_file (fst p))) /\ aj_file (fst p') = Some (encode_accounts ∅ ∅) /\
    aj_file (fst p') <> aj_file (fst p).
Definition reservations_erased (p p' : AccountJournal * ReservationJournal) : Prop :=
  fst p' = fst p /\ journal_erased (snd p) (snd p').

Lemma ledger_empty_ok : ledger_ok ∅ ∅.
Proof. split_and!; [apply map_Forall_empty | apply map_Forall_empty | by rewrite map_size_empty..]. Qed.

Lemma open_accounts_existing io bytes :
  fst (AccountJournal_open io (Some bytes)) = Some bytes \/
  io_metadata io <> None /\ fst (AccountJournal_open io (Some bytes)) = Some (encode_accounts ∅ ∅).
Proof.
  unfold AccountJournal_open, path_exists. destruct (acquire_lock io) as [?|?]; [|by left].
  destruct (io_metadata io) as [e|].
  - destruct (persist io (Some bytes) ∅ ∅) as [file v] eqn:EP.
    apply persist_cases in EP as [[-> _]|[-> _]]; [left | right; split; [done|]];
      (destruct v; [by destruct (load io _) as [[??]|?]|done]).
  - left. by destruct (load io (Some bytes)) as [[??]|?].
Qed.

(** Opening a missing file leaves it missing or creates an empty one. *)
Lemma open_accounts_missing io :
  fst (AccountJournal_open io None) = None \/ fst (AccountJournal_open io None) = Some (encode_accounts ∅ ∅).
Proof.
  unfold AccountJournal_open, path_exists. destruct (acquire_lock io) as [?|?]; [|by left].
  replace (match io_metadata io with Some _ | _ => false end) with false by (by destruct (io_metadata io)).
  destruct (persist io None ∅ ∅) as [file v] eqn:EP. apply persist_cases in EP as [[-> _]|[-> _]]; [left|right];
    (destruct v; [by destruct (load io _) as [[??]|?]|done]).
Qed.

Lemma register_cases io j id k b m a j' v :
  holds (aj_file j) m a -> verifying_key_ok k = true -> balance_ok b ->
  AccountJournal_register io j id k b = (j', v) ->
  exists m', holds (aj_file j') m' a /\ forall id' r', m !! id' = Some r' -> m' !! id' = Some r'.
Proof.
  intros HH Hk Hb. unfold AccountJournal_register.
  destruct (_ || _) eqn:Eg; [intros [= <- <-]; by exists m|]. apply orb_false_iff in Eg as [Hid Hz]. bguard.
  intros HM. apply account_mutate_cases in HM as [[-> Hv]|(m0 & a0 & m' & a' & HH' & HO & Hm & Ha & Hf & Hr)]; [by exists m|].
  destruct (holds_fun _ _ _ _ _ HH HH') as [-> ->]. unfold register_operation in HO. inv_ok. bguard. simplify_eq.
  assert (m !! id = None) as Hn by (by apply eq_None_not_Some).
  eexists. rewrite Hf. split.
  - apply holds_encode. destruct (holds_ok _ _ _ HH) as (HM & HA & _). split_and!; try done.
    apply map_Forall_insert_2; [|done]. split; [done|]. split_and!; try done. cbn.
    intros [E1 E2]. rewrite !bool_decide_eq_true_2 in Hz by done. done.
  - intros id' r' Hr'. rewrite lookup_insert_ne by congruence. done.
Qed.

(** Every step keeps both files readable; only an erasing opening forgets an applied settlement or
    loses a reservation. *)
Lemma pair_step_keeps p p' m a t :
  pair_step p p' -> holds (aj_file (fst p)) m a -> represents (rj_file (snd p)) t ->
  exists m' a' t', holds (aj_file (fst p')) m' a' /\ represents (rj_file (snd p')) t' /\
    (a ⊆ a' \/ accounts_erased p p') /\ (evolves t t' \/ reservations_erased p p').
Proof.
  intros HS HH HT. destruct HS as [io p|io p id k b Hk Hb|io p e r nonces HR|io p terminal nonces|p j Hj|p records applied].
  - pose proof HH as (b & Hb & _). destruct (open_accounts_existing io b) as [E|[Hm E]]; rewrite <- Hb in E; cbn [fst snd aj_file].
    + exists m, a, t. rewrite E. split_and!; try done; left; [done | apply evolves_refl].
    + destruct (decide (aj_file (fst p) = Some (encode_accounts ∅ ∅))) as [Ep|Ep].
      * exists m, a, t. rewrite E, <- Ep. split_and!; try done; left; [done | apply evolves_refl].
      * exists ∅, ∅, t. rewrite E.
        split_and!; [apply holds_encode, ledger_empty_ok | done | right | left; apply evolves_refl].
        exists io. cbn [fst snd aj_file]. rewrite E. by split_and!.
  - destruct (AccountJournal_register io (fst p) id k b) as [j' v] eqn:ER. cbn.
    destruct (register_cases _ _ _ _ _ _ _ _ _ HH Hk Hb ER) as (m' & HH' & _). exists m', a, t.
    split_and!; try done; left; [done | apply evolves_refl].
  - destruct (finalize_settlement io (fst p) (snd p) e r nonces) as [[acc res] out] eqn:EF. cbn.
    pose proof (finalize_settlement_cases _ _ _ _ _ _ _ _ _ _ _ _ HR HH HT EF) as [(HH' & HT' & _)|(_ & _ & m' & a' & HO & HH' & HC)].
    { exists m, a, t. split_and!; try done; left; [done | apply evolves_refl]. }
    assert (exists t', represents (rj_file res) t' /\ evolves t t') as (t' & HT' & Ht').
    { destruct HC as [[HT' _]|HT']; eexists; (split; [exact HT'|]); [apply evolves_refl|].
      apply advance_all_step; [done | apply (represents_ok _ _ HT)]. }
    exists m', a', t'. split_and!; try done; left; [|done].
    apply settlement_operation_Ok in HO as (_ & [(Hn & _ & _ & ->)|(_ & _ & _ & ->)]); [|done]. by apply insert_subseteq.
  - destruct (release_reservations io (fst p) (snd p) terminal nonces) as [[acc res] out] eqn:EF. cbn.
    pose proof (release_reservations_cases _ _ _ _ _ _ _ _ _ _ _ HH HT EF) as [HH' HC].
    destruct HC as [[HT' _]|(_ & _ & HT')]; [exists m, a, t | exists m, a, (advance_all ReservationState.Released nonces t)];
      split_and!; try done; left; try done; [apply evolves_refl|]. apply advance_all_step; [done | apply (represents_ok _ _ HT)].
  - destruct (journal_step_evolves _ _ _ Hj HT) as (t' & HT' & He). exists m, a, t'. split_and!; try done; [by left|].
    destruct He as [He|[He _]]; [by left | right; by split].
  - exists m, a, t. split_and!; try done; left; [done | apply evolves_refl].
Qed.

Lemma pair_run_keeps p l m a t :
  run pair_step p l -> holds (aj_file (fst p)) m a -> represents (rj_file (snd p)) t ->
  exists m' a' t', holds (aj_file (fst (final p l))) m' a' /\ represents (rj_file (snd (final p l))) t' /\
    (a ⊆ a' \/ occurs accounts_erased p l) /\ (spent_from t t' \/ occurs reservations_erased p l).
Proof.
  revert p m a t. induction l as [|p1 l IH]; intros p m a t; cbn [run final].
  - intros _ HH HT. exists m, a, t. split_and!; try done; left; [done | apply spent_from_refl].
  - intros [Hs HS] HH HT. destruct (pair_step_keeps _ _ _ _ _ Hs HH HT) as (m1 & a1 & t1 & HH1 & HT1 & Ha1 & He1).
    destruct (IH p1 m1 a1 t1 HS HH1 HT1) as (m2 & a2 & t2 & HH2 & HT2 & Ha2 & Ht2). exists m2, a2, t2. split_and!; try done.
    + destruct Ha1 as [Ha1|Ha1]; [|right; by apply occurs_here].
      destruct Ha2 as [Ha2|Ha2]; [left; by transitivity a1 | right; by apply occurs_later].
    + destruct He1 as [He1|He1]; [|right; by apply occurs_here].
      destruct Ht2 as [Ht2|Ht2]; [left; by eapply spent_from_step | right; by apply occurs_later].
Qed.

(** *** From missing files *)

(** A file that satisfies [P], or that is missing still. *)
Definition stays (P : option (list byte) -> Prop) (file file' : option (list byte)) : Prop :=
  P file' \/ file = None /\ file' = None.
Definition accounts_typed (file : option (list byte)) : Prop := exists m a, holds file m a.
Definition reservations_typed (file : option (list byte)) : Prop := exists t, represents file t.

Lemma account_mutate_missing io j op : aj_file j = None -> aj_file (fst (AccountJournal_mutate io j op)) = None.
Proof.
  intros Hj. destruct (AccountJournal_mutate io j op) as [j' v] eqn:E.
  apply account_mutate_cases in E as [[-> _]|(m & a & ? & ? & (b & Hb & _) & _)]; [done | congruence].
Qed.

Lemma finalize_apply_missing io e r used j :
  aj_file j = None -> aj_file (fst (finalize_apply io e r used j)) = None /\ snd (finalize_apply io e r used j) <> Ok tt.
Proof.
  intros Hj. assert (forall j0, aj_file j0 = None -> aj_file (fst (AccountJournal_apply_settlement (sio_apply io) j0 e r)) = None /\
    snd (AccountJournal_apply_settlement (sio_apply io) j0 e r) <> Ok tt) as HA.
  { intros j0 Hj0. unfold AccountJournal_apply_settlement. case_bool_decide; [done|]. split; [by apply account_mutate_missing|].
    destruct (AccountJournal_mutate _ j0 _) as [j' v] eqn:E.
    apply account_mutate_cases in E as [[_ ?]|(m & a & ? & ? & (b & Hb & _) & _)]; [done | congruence]. }
  unfold finalize_apply. destruct used; [|by apply HA]. unfold AccountJournal_settlement_matches.
  destruct (AccountJournal_reload _ j) as [j1 [[]|e1]] eqn:ER; apply reload_cases in ER as [Hf Hok]; rewrite Hj in Hf; [|done].
  destruct (_ && _); cbn [negb]; [by apply HA | done].
Qed.

(** With a missing file neither epoch operation changes anything on disk. *)
Lemma finalize_missing io accounts reservations e r nonces :
  aj_file accounts = None \/ rj_file reservations = None ->
  let p := fst (finalize_settlement io accounts reservations e r nonces) in
  aj_file (fst p) = aj_file accounts /\ rj_file (snd p) = rj_file reservations.
Proof.
  intros HM. unfold finalize_settlement. cbn zeta.
  destruct (finalize_epoch _ _ _ _ _ _ _) as [[res acc] o] eqn:EF. cbn [fst snd].
  apply finalize_epoch_cases in EF as [(-> & -> & _)|(t & v & HT & _ & _ & _ & HA & HO)]; [done|].
  destruct HM as [HM|HM]; [|destruct HT as (b & Hb & _); congruence].
  pose proof (finalize_apply_missing io e r (any_used t nonces) accounts HM) as [Hf Hv]. rewrite HA in Hf, Hv. cbn in Hf, Hv.
  rewrite HM. destruct v as [[]|err]; [done|]. destruct HO as [-> _]. done.
Qed.

Lemma release_missing io accounts reservations terminal nonces :
  aj_file accounts = None \/ rj_file reservations = None ->
  let p := fst (release_reservations io accounts reservations terminal nonces) in
  aj_file (fst p) = aj_file accounts /\ rj_file (snd p) = rj_file reservations.
Proof.
  intros HM. unfold release_reservations. cbn zeta.
  destruct (release_epoch_checked _ _ _ _ _ _) as [[res acc] o] eqn:EF. cbn [fst snd].
  apply release_epoch_cases in EF as [(-> & -> & _)|(t & v & HT & _ & HA & HO)]; [done|].
  destruct HM as [HM|HM]; [|destruct HT as (b & Hb & _); congruence].
  unfold release_verdict, AccountJournal_has_applied_epoch in HA.
  destruct (AccountJournal_reload _ accounts) as [j1 [[]|err]] eqn:ER; apply reload_cases in ER as [Hf Hok].
  - destruct (Hok eq_refl) as (b & Hb & _). congruence.
  - injection HA as <- <-. rewrite Hf. destruct HO as [-> _]. done.
Qed.

Lemma journal_step_missing j j' :
  journal_step j j' -> rj_file j = None -> rj_file j' = None \/ reservations_typed (rj_file j').
Proof.
  intros HS Hj. assert (forall m, ~ represents (rj_file j) m) as HN by (intros m (b & Hb & _); congruence).
  assert (forall io op, rj_file (fst (ReservationJournal_mutate io j op)) = None) as HM.
  { intros io op. destruct (ReservationJournal_mutate io j op) as [j1 v] eqn:E. cbn.
    by apply mutate_cases in E as [(-> & _)|(m0 & m' & HR0 & _)]; [|destruct (HN m0)]. }
  destruct HS; cbn [rj_file]; try (rewrite ?reserve_file; by left; apply HM); [| by left | |].
  - rewrite Hj. unfold ReservationJournal_open, path_exists. destruct (acquire_journal_lock io) as [?|?]; [|by left].
    replace (match io_metadata io with Some _ | _ => false end) with false by (by destruct (io_metadata io)).
    destruct (persist_records io None ∅) as [file v] eqn:EP.
    apply persist_records_cases in EP as [[-> _]|[-> _]]; [left | right; exists ∅];
      (destruct v; [destruct (load_records io _)|]); try done; apply represents_empty.
  - left. destruct (finalize_epoch _ _ _ _ _ _ _) as [[j1 s1] r] eqn:EF. cbn.
    by apply finalize_epoch_cases in EF as [(-> & _)|(m0 & v & HR0 & _)]; [|destruct (HN m0)].
  - left. destruct (release_epoch_checked _ _ _ _ _ _) as [[j1 s1] r] eqn:EF. cbn.
    by apply release_epoch_cases in EF as [(-> & _)|(m0 & v & HR0 & _)]; [|destruct (HN m0)].
Qed.

Definition pair_stays (p p' : AccountJournal * ReservationJournal) : Prop :=
  stays accounts_typed (aj_file (fst p)) (aj_file (fst p')) /\ stays reservations_typed (rj_file (snd p)) (rj_file (snd p')).

Lemma open_accounts_stays io file : stays accounts_typed file file -> stays accounts_typed file (fst (AccountJournal_open io file)).
Proof.
  intros [(m & a & b & -> & HD)|[-> _]].
  - left. destruct (open_accounts_existing io b) as [E|[_ E]]; rewrite E; [by exists m, a, b|].
    exists ∅, ∅. apply holds_encode, ledger_empty_ok.
  - destruct (open_accounts_missing io) as [E|E]; rewrite E; [by right | left; exists ∅, ∅; apply holds_encode, ledger_empty_ok].
Qed.

Lemma register_stays io j id k b :
  verifying_key_ok k = true -> balance_ok b -> stays accounts_typed (aj_file j) (aj_file j) ->
  stays accounts_typed (aj_file j) (aj_file (fst (AccountJournal_register io j id k b))).
Proof.
  intros Hk Hb [(m & a & HH)|[Hj _]].
  - left. destruct (AccountJournal_register io j id k b) as [j' v] eqn:ER.
    destruct (register_cases _ _ _ _ _ _ _ _ _ HH Hk Hb ER) as (m' & HH' & _). by exists m', a.
  - right. split; [done|]. unfold AccountJournal_register. destruct (_ || _); [done | by apply account_mutate_missing].
Qed.

Lemma pair_step_stays p p' : pair_step p p' -> pair_stays p p -> pair_stays p p'.
Proof.
  intros HS [HA HT].
  assert ((exists m a t, holds (aj_file (fst p)) m a /\ represents (rj_file (snd p)) t) \/
          (aj_file (fst p) = None \/ rj_file (snd p) = None)) as [(m & a & t & HH & HR)|HM].
  { destruct HA as [(m & a & ?)|[? _]], HT as [(t & ?)|[? _]]; auto. left. by exists m, a, t. }
  { destruct (pair_step_keeps _ _ _ _ _ HS HH HR) as (m' & a' & t' & ? & ? & _). split; left; [by exists m', a' | by exists t']. }
  destruct HS as [io p|io p id k b Hk Hb|io p e r nonces HR|io p terminal nonces|p j Hj|p records applied]; unfold pair_stays; cbn [fst snd aj_file].
  - split; [by apply open_accounts_stays | done].
  - split; [by apply register_stays | done].
  - destruct (finalize_missing io (fst p) (snd p) e r nonces HM) as [-> ->]. done.
  - destruct (release_missing io (fst p) (snd p) terminal nonces HM) as [-> ->]. done.
  - split; [done|]. destruct HT as [(t & HT)|[HT _]].
    + left. destruct (journal_step_evolves _ _ _ Hj HT) as (t' & HT' & _). by exists t'.
    + destruct (journal_step_missing _ _ Hj HT) as [?|?]; [by right | by left].
  - done.
Qed.

Lemma pair_run_stays p p' : rtc pair_step p p' -> pair_stays p p -> pair_stays p p'.
Proof.
  intros HS HP. assert (pair_stays p p /\ pair_stays p p') as [_ ?]; [|done].
  revert HP. induction HS as [p|p p1 p2 Hs _ IH]; intros HP; [done|]. split; [done|].
  pose proof (pair_step_stays _ _ Hs HP) as [HA HT].
  destruct IH as [_ [HA' HT']].
  { split; [destruct HA as [?|[_ ?]] | destruct HT as [?|[_ ?]]]; [by left | by right | by left | by right]. }
  split; [destruct HA' as [?|[E ?]]; [by left|] | destruct HT' as [?|[E ?]]; [by left|]].
  - destruct HA as [(m & a & b & Hb & _)|[? _]]; [congruence | by right].
  - destruct HT as [(t & b & Hb & _)|[? _]]; [congruence | by right].
Qed.
End release.

(** ** Results of the netting stay readable, and their digest binds them *)

Lemma net_batch_nonempty config before orders r :
  batch_wf config before orders -> (0 < bc_base_lot_atoms config)%Z -> (0 < bc_quote_atoms_per_lot config)%Z ->
  map_Forall (fun _ b => nonempty_balance b) before -> net_batch config before orders = Ok r ->
  map_Forall (fun _ b => balance_ok b /\ nonempty_balance b) (balances r).
Proof.
  intros HW Hl Hq HB HN. apply (net_batch_Ok _ _ _ _ HW) in HN as (_ & Hnd & HF & ->).
  pose proof HW as (Wl & Wq & Wb & _). intros id b Hb. cbn [balances batch_of] in Hb.
  split; [by apply (settle_balances_ok _ _ _ Wl Wq Wb HF id b)|].
  unfold settle_balances in Hb. rewrite map_lookup_imap in Hb. destruct (before !! id) as [b0|] eqn:E0; [|done].
  cbn in Hb. injection Hb as <-. specialize (HB id b0 E0). destruct (Wb id b0 E0) as [[? ?] [? ?]]. cbn in *.
  destruct (order_of id orders) as [o|]; [|done].
  unfold nonempty_balance, fill_order in *. destruct (fo_side o); cbn; lia.
Qed.

Definition balances_ok (m : Balances) : Prop :=
  map_Forall (fun _ b => balance_ok b) m /\ (Z.of_nat (size m) < 2 ^ 32)%Z.

Lemma balance_bytes_length e : length (balance_bytes e) = 48.
Proof. unfold balance_bytes. len. Qed.

Lemma le_bytes_u64_inj x y : u64_ok x -> u64_ok y -> le_bytes 8 x = le_bytes 8 y -> x = y.
Proof. intros Hx Hy E. apply (f_equal le_val) in E. by rewrite !le_val_u64 in E. Qed.

Lemma balance_bytes_inj e e' :
  balance_ok (snd e) -> balance_ok (snd e') -> balance_bytes e = balance_bytes e' -> e = e'.
Proof.
  destruct e as [k [b q]], e' as [k' [b' q']]. unfold balance_bytes, balance_ok. cbn [fst snd base_atoms quote_atoms]. intros [Hb Hq] [Hb' Hq'] E.
  apply app_inj_1 in E as [Ek E]; [|by rewrite !length_arr].
  apply app_inj_1 in E as [Eb Eq]; [|by rewrite !length_le_bytes].
  apply arr_eq in Ek as ->. by rewrite (le_bytes_u64_inj b b'), (le_bytes_u64_inj q q').
Qed.

Lemma entries_inj l l' x y :
  length l = length l' -> Forall (fun e => balance_ok (snd e)) l -> Forall (fun e => balance_ok (snd e)) l' ->
  concat (map balance_bytes l) ++ x = concat (map balance_bytes l') ++ y -> l = l' /\ x = y.
Proof.
  revert l'. induction l as [|e l IH]; intros [|e' l'] HL HF HF' E; try done.
  apply Forall_cons_iff in HF as [He HF], HF' as [He' HF']. cbn [map concat] in E. rewrite <- !app_assoc in E.
  apply app_inj_1 in E as [Ee E]; [|by rewrite !balance_bytes_length].
  apply balance_bytes_inj in Ee as ->; [|done..]. cbn in HL. by destruct (IH l' ltac:(lia) HF HF' E) as [-> ->].
Qed.

Lemma balances_bytes_inj m m' x y :
  balances_ok m -> balances_ok m' -> balances_bytes m ++ x = balances_bytes m' ++ y -> m = m' /\ x = y.
Proof.
  intros [HF HS] [HF' HS'] E. unfold balances_bytes in E.
  rewrite (proj2 (checked_u32_Some _ (Z.of_nat (size m)))) in E by (unfold u32_ok; lia).
  rewrite (proj2 (checked_u32_Some _ (Z.of_nat (size m')))) in E by (unfold u32_ok; lia).
  rewrite <- !app_assoc in E. apply app_inj_1 in E as [En E]; [|by rewrite !length_le_bytes].
  apply (f_equal le_val) in En. rewrite !le_val_u32 in En by (unfold u32_ok; lia).
  assert (forall (n : Balances), map_Forall (fun _ b => balance_ok b) n -> Forall (fun e => balance_ok (snd e)) (btree_list n)) as HE.
  { intros n Hn. apply list.Forall_forall. intros [k b] Hin%btree_list_elem. by apply (Hn k b). }
  apply entries_inj in E as [El ->]; [|rewrite !btree_list_length; lia | by apply HE..].
  split; [|done]. by rewrite <- (btree_list_to_map m), El, btree_list_to_map.
Qed.

Lemma settlement_preimage_inj r r' :
  balances_ok (before_balances r) -> balances_ok (balances r) ->
  balances_ok (before_balances r') -> balances_ok (balances r') ->
  settlement_preimage r = settlement_preimage r' -> before_balances r = before_balances r' /\ balances r = balances r'.
Proof.
  intros H1 H2 H3 H4 E. unfold settlement_preimage in E. apply app_inv_head in E.
  apply balances_bytes_inj in E as [-> E]; [|done..].
  rewrite <- (app_nil_r (balances_bytes (balances r))), <- (app_nil_r (balances_bytes (balances r'))) in E.
  by apply balances_bytes_inj in E as [-> _].
Qed.

(** A retry overtaken by a later settlement of one of the members is refused and changes
    nothing. *)
Section overtaken.
Context `{Sha256} `{Dalek}.

Lemma finalize_overtaken io accounts reservations e r nonces m a t d accounts' reservations' out :
  result_ok r -> holds (aj_file accounts) m a -> represents (rj_file reservations) t ->
  a !! e = Some d -> ~ at_settlement e (balances r) m ->
  finalize_settlement io accounts reservations e r nonces = (accounts', reservations', out) ->
  out <> Ok tt /\ holds (aj_file accounts') m a /\ represents (rj_file reservations') t.
Proof.
  intros HR HH HT Ha Hat EF.
  pose proof (finalize_settlement_cases _ _ _ _ _ _ _ _ _ _ _ _ HR HH HT EF) as [(? & ? & ?)|(_ & _ & m' & a' & HO & _)]; [done|].
  apply settlement_operation_Ok in HO as (_ & [(E & _)|(_ & E & _)]); [congruence | done].
Qed.
End overtaken.
