(* ===== verification/HostCrypto.v ===== *)
(** * Authorizations, submissions and admission (crates/kageb-host/src/crypto.rs)

    The operator's funded authorization, the trader's signed intent, the encrypted submission
    that carries both, the released decryption shares, and the selection of a batch. *)

From S2P Require Import Prelude Bytes Extern BTree Domain Ledger Storage.
From S2P Require Import Reservation HostExtern.

Definition FUNDED_AUTH_DOMAIN : list byte := Eval vm_compute in bstr0 "KAGEB_FUNDED_AUTH_V1".
Definition INTENT_DOMAIN : list byte := Eval vm_compute in bstr0 "KAGEB_INTENT_V1".
Definition SUBMISSION_DOMAIN : list byte := Eval vm_compute in bstr0 "KAGEB_SUBMISSION_V1".
Definition EPOCH_KEY_SET_DOMAIN : list byte := Eval vm_compute in bstr0 "KAGEB_EPOCH_KEY_SET_V1".
Definition AUTHORIZATION_VERSION : Z := 1.
Definition SIGNED_INTENT_LEN : nat := 192.
Definition FUNDED_AUTHORIZATION_V1_LEN : nat := 249.
Definition ENCRYPTED_INTENT_V1_LEN : nat := 344.
Definition ENCRYPTED_SUBMISSION_V1_LEN : nat := FUNDED_AUTHORIZATION_V1_LEN + ENCRYPTED_INTENT_V1_LEN + 32 + 64.

Module CryptoError.
Inductive t : Type :=
| EntropyUnavailable
| InvalidAuthorization
| InvalidInnerSignature
| InvalidOuterSignature
| InvalidSignedIntent
| InvalidCiphertext
| InvalidReceipt
| WrongEpoch
| WrongParticipant
| InsufficientCrowd (valid minimum : nat)
| InsufficientShares
| DuplicateShare
| InvalidShare
| InvalidMinimum
| WrongTradingKey.
End CryptoError.
Abbreviation CryptoError := CryptoError.t.
Global Instance CryptoError_eq_dec : EqDecision CryptoError.
Proof. solve_decision. Defined.

Record AdmissionPolicyV1 : Type := {
  ap_epoch_id : bytes32;
  ap_operator_key : bytes32;
  ap_minimum : nat;
  ap_base_atoms : Z;
  ap_quote_atoms : Z;
  ap_current_slot : Z;
}.

Definition AdmissionPolicyV1_new (epoch_id operator_key : bytes32) (minimum : nat)
    (base_atoms quote_atoms current_slot : Z) : result CryptoError AdmissionPolicyV1 :=
  if minimum == 0 then Err CryptoError.InvalidMinimum else
  if (base_atoms == 0%Z) || (quote_atoms == 0%Z) then Err CryptoError.InvalidAuthorization else
  Ok {| ap_epoch_id := epoch_id; ap_operator_key := operator_key; ap_minimum := minimum;
        ap_base_atoms := base_atoms; ap_quote_atoms := quote_atoms; ap_current_slot := current_slot |}.

Record FundedAuthorizationV1 : Type := {
  fa_version : Z;
  fa_operator_key : bytes32;
  fa_epoch_id : bytes32;
  fa_participant_id : bytes32;
  fa_trading_key : bytes32;
  fa_nonce : bytes32;
  fa_base_atoms : Z;
  fa_quote_atoms : Z;
  fa_expiry_slot : Z;
  fa_operator_signature : arr 64;
}.

Definition authorization_bytes (version : Z) (operator_key epoch_id participant_id trading_key nonce : bytes32)
    (base_atoms quote_atoms expiry_slot : Z) : list byte :=
  let encoded := zeros 185 in
  let encoded := set_at 0 (byte_of version) encoded in
  let encoded := put_at 1 operator_key encoded in
  let encoded := put_at 33 epoch_id encoded in
  let encoded := put_at 65 participant_id encoded in
  let encoded := put_at 97 trading_key encoded in
  let encoded := put_at 129 nonce encoded in
  let encoded := put_at 161 (le_bytes 8 base_atoms) encoded in
  let encoded := put_at 169 (le_bytes 8 quote_atoms) encoded in
  let encoded := put_at 177 (le_bytes 8 expiry_slot) encoded in
  encoded.

Definition authorization_message (unsigned : list byte) : list byte := FUNDED_AUTH_DOMAIN ++ unsigned.

(** The bytes the operator signs. *)
Definition FundedAuthorizationV1_unsigned (a : FundedAuthorizationV1) : list byte :=
  authorization_bytes (fa_version a) (fa_operator_key a) (fa_epoch_id a) (fa_participant_id a) (fa_trading_key a)
    (fa_nonce a) (fa_base_atoms a) (fa_quote_atoms a) (fa_expiry_slot a).

Definition FundedAuthorizationV1_encode (a : FundedAuthorizationV1) : list byte :=
  let encoded := zeros 249 in
  let encoded := put_at 0 (FundedAuthorizationV1_unsigned a) encoded in
  let encoded := put_at 185 (fa_operator_signature a) encoded in
  encoded.

Record SignedIntentV1 : Type := { si_body : IntentBodyV1; si_signature : arr 64 }.

Definition intent_message (encoded_body : list byte) : list byte := INTENT_DOMAIN ++ encoded_body.

Definition SignedIntentV1_encode (s : SignedIntentV1) : list byte :=
  let encoded := zeros 192 in
  let encoded := put_at 0 (IntentBodyV1_encode (si_body s)) encoded in
  let encoded := put_at 128 (si_signature s) encoded in
  encoded.

(** [impl From<ProtocolError> for CryptoError] drops the detail. *)
Definition SignedIntentV1_decode (encoded : list byte) : result CryptoError SignedIntentV1 :=
  if length encoded != SIGNED_INTENT_LEN then Err CryptoError.InvalidSignedIntent else
  body ← map_err (fun _ => CryptoError.InvalidSignedIntent) (IntentBodyV1_decode (slice 0 128 encoded));
  signature ← ok_or CryptoError.InvalidSignedIntent (try_into 64 (slice_from 128 encoded));
  Ok {| si_body := body; si_signature := signature |}.

Record EncryptedSubmissionV1 : Type := {
  es_authorization : FundedAuthorizationV1;
  es_ciphertext : list byte;
  es_receipt : bytes32;
  es_outer_signature : arr 64;
}.

Definition EncryptedSubmissionV1_participant_id (s : EncryptedSubmissionV1) : bytes32 :=
  fa_participant_id (es_authorization s).

Definition EncryptedSubmissionV1_encode_wire (s : EncryptedSubmissionV1) : list byte :=
  FundedAuthorizationV1_encode (es_authorization s) ++ es_ciphertext s ++ (es_receipt s : list byte)
  ++ (es_outer_signature s : list byte).

Definition submission_message (epoch_id authorization_hash ciphertext_hash receipt : bytes32) : list byte :=
  SUBMISSION_DOMAIN ++ (epoch_id : list byte) ++ (authorization_hash : list byte)
  ++ (ciphertext_hash : list byte) ++ (receipt : list byte).

Record AdmittedBatch : Type := { ab_members : list EncryptedSubmissionV1 }.
Definition AdmittedBatch_member_count (b : AdmittedBatch) : nat := length (ab_members b).
Definition AdmittedBatch_participant_ids (b : AdmittedBatch) : list bytes32 :=
  map EncryptedSubmissionV1_participant_id (ab_members b).

Section crypto.
Context `{Sha256} `{Dalek} `{Threshold}.

(** ** Funded authorizations *)

Definition FundedAuthorizationV1_sign (reserved : UnsignedFundedAuthorizationV1) (trading_key : bytes32)
    (operator : SigningKey) (expiry_slot : Z) : FundedAuthorizationV1 :=
  let '(nonce, epoch_id, participant_id, base_atoms, quote_atoms) := into_parts reserved in
  let operator_key := verifying_key operator in
  let unsigned := authorization_bytes AUTHORIZATION_VERSION operator_key epoch_id participant_id trading_key nonce
    base_atoms quote_atoms expiry_slot in
  {| fa_version := AUTHORIZATION_VERSION; fa_operator_key := operator_key; fa_epoch_id := epoch_id;
     fa_participant_id := participant_id; fa_trading_key := trading_key; fa_nonce := nonce;
     fa_base_atoms := base_atoms; fa_quote_atoms := quote_atoms; fa_expiry_slot := expiry_slot;
     fa_operator_signature := dalek_sign operator (authorization_message unsigned) |}.

Definition FundedAuthorizationV1_trading_key (a : FundedAuthorizationV1) : result CryptoError bytes32 :=
  if negb (verifying_key_ok (fa_trading_key a)) then Err CryptoError.InvalidAuthorization else Ok (fa_trading_key a).

Definition FundedAuthorizationV1_verify (a : FundedAuthorizationV1) (policy : AdmissionPolicyV1)
  : result CryptoError unit :=
  if (fa_version a != AUTHORIZATION_VERSION) || (fa_operator_key a != ap_operator_key policy)
     || (fa_base_atoms a != ap_base_atoms policy) || (fa_quote_atoms a != ap_quote_atoms policy)
     || (fa_expiry_slot a <? ap_current_slot policy)%Z
  then Err CryptoError.InvalidAuthorization else
  if fa_epoch_id a != ap_epoch_id policy then Err CryptoError.WrongEpoch else
  let unsigned := FundedAuthorizationV1_unsigned a in
  if negb (verifying_key_ok (fa_operator_key a)) then Err CryptoError.InvalidAuthorization else
  if dalek_verify (fa_operator_key a) (authorization_message unsigned) (fa_operator_signature a)
  then Ok tt else Err CryptoError.InvalidAuthorization.

Definition FundedAuthorizationV1_hash (a : FundedAuthorizationV1) : bytes32 :=
  sha256 (FUNDED_AUTH_DOMAIN ++ FundedAuthorizationV1_encode a).

Definition FundedAuthorizationV1_decode (encoded : list byte) : result CryptoError FundedAuthorizationV1 :=
  if (length encoded != FUNDED_AUTHORIZATION_V1_LEN) || (u8_at 0 encoded != AUTHORIZATION_VERSION)
  then Err CryptoError.InvalidAuthorization else
  operator_key ← ok_or CryptoError.InvalidAuthorization (try_into 32 (slice 1 33 encoded));
  epoch_id ← ok_or CryptoError.InvalidAuthorization (try_into 32 (slice 33 65 encoded));
  participant_id ← ok_or CryptoError.InvalidAuthorization (try_into 32 (slice 65 97 encoded));
  trading_key ← ok_or CryptoError.InvalidAuthorization (try_into 32 (slice 97 129 encoded));
  nonce ← ok_or CryptoError.InvalidAuthorization (try_into 32 (slice 129 161 encoded));
  let base_atoms := le_val (slice 161 169 encoded) in
  let quote_atoms := le_val (slice 169 177 encoded) in
  let expiry_slot := le_val (slice 177 185 encoded) in
  operator_signature ← ok_or CryptoError.InvalidAuthorization (try_into 64 (slice 185 249 encoded));
  let authorization :=
    {| fa_version := u8_at 0 encoded; fa_operator_key := operator_key; fa_epoch_id := epoch_id;
       fa_participant_id := participant_id; fa_trading_key := trading_key; fa_nonce := nonce;
       fa_base_atoms := base_atoms; fa_quote_atoms := quote_atoms; fa_expiry_slot := expiry_slot;
       fa_operator_signature := operator_signature |} in
  FundedAuthorizationV1_trading_key authorization ;;
  if negb (verifying_key_ok (fa_operator_key authorization)) then Err CryptoError.InvalidAuthorization else
  Ok authorization.

(** ** Signed intents *)

Definition SignedIntentV1_sign (body : IntentBodyV1) (trading_key : SigningKey) : SignedIntentV1 :=
  {| si_body := body; si_signature := dalek_sign trading_key (intent_message (IntentBodyV1_encode body)) |}.

Definition SignedIntentV1_verify (s : SignedIntentV1) (trading_key expected_epoch expected_participant : bytes32)
  : result CryptoError unit :=
  if ib_epoch_id (si_body s) != expected_epoch then Err CryptoError.WrongEpoch else
  if ib_participant_id (si_body s) != expected_participant then Err CryptoError.WrongParticipant else
  if dalek_verify trading_key (intent_message (IntentBodyV1_encode (si_body s))) (si_signature s)
  then Ok tt else Err CryptoError.InvalidInnerSignature.

(** ** Threshold ciphertexts and shares *)

Record EncryptedIntentV1 : Type := { ei_encoded : list byte; ei_ciphertext : Ciphertext }.
Record EpochPublicKeys : Type := { ek_keys : PublicKeySet }.
Record KeyperSecretShare : Type := { ks_epoch_account : bytes32; ks_index : Z; ks_secret : SecretKeyShare }.
Record ReleasedShareV1 : Type := {
  rel_epoch_account : bytes32;
  rel_lock_digest : bytes32;
  rel_ciphertext_hash : bytes32;
  rel_index : Z;
  rel_share : DecryptionShare;
}.

Definition encode_ciphertext (ciphertext : Ciphertext) : result CryptoError EncryptedIntentV1 :=
  if negb (ciphertext_verify ciphertext) then Err CryptoError.InvalidCiphertext else
  encoded ← ok_or CryptoError.InvalidCiphertext (ciphertext_serialize ciphertext);
  if length encoded != ENCRYPTED_INTENT_V1_LEN then Err CryptoError.InvalidCiphertext else
  Ok {| ei_encoded := encoded; ei_ciphertext := ciphertext |}.

Definition decode_ciphertext (encoded : list byte) : result CryptoError EncryptedIntentV1 :=
  if length encoded != ENCRYPTED_INTENT_V1_LEN then Err CryptoError.InvalidCiphertext else
  ciphertext ← ok_or CryptoError.InvalidCiphertext (ciphertext_deserialize encoded);
  if negb (ciphertext_verify ciphertext) then Err CryptoError.InvalidCiphertext else
  Ok {| ei_encoded := encoded; ei_ciphertext := ciphertext |}.

Definition EpochPublicKeys_encode_wire (k : EpochPublicKeys) : result CryptoError (list byte) :=
  ok_or CryptoError.InvalidShare (keys_serialize (ek_keys k)).

Definition EpochPublicKeys_decode_wire (encoded : list byte) : result CryptoError EpochPublicKeys :=
  keys ← ok_or CryptoError.InvalidShare (keys_deserialize encoded);
  if keys_threshold keys != 1 then Err CryptoError.InvalidShare else Ok {| ek_keys := keys |}.

Definition EpochPublicKeys_commitment_leaf (k : EpochPublicKeys) : result CryptoError (list byte) :=
  encoded ← EpochPublicKeys_encode_wire k;
  Ok (EPOCH_KEY_SET_DOMAIN ++ encoded).

Definition EpochPublicKeys_matches_share (k : EpochPublicKeys) (share : KeyperSecretShare) : bool :=
  keys_public_share (ek_keys k) (ks_index share) == secret_public_share (ks_secret share).

Definition EpochPublicKeys_encrypt (k : EpochPublicKeys) (rnd : Randomness) (intent : SignedIntentV1)
  : result CryptoError EncryptedIntentV1 :=
  encode_ciphertext (keys_encrypt (ek_keys k) rnd (SignedIntentV1_encode intent)).

Definition EpochPublicKeys_encrypt_encoded_intent (k : EpochPublicKeys) (rnd : Randomness) (encoded : list byte)
  : result CryptoError EncryptedIntentV1 :=
  if length encoded != SIGNED_INTENT_LEN then Err CryptoError.InvalidSignedIntent else
  encode_ciphertext (keys_encrypt (ek_keys k) rnd encoded).

(** One turn of the loop of [recover]: the indices seen so far. *)
Definition recover_check (k : EpochPublicKeys) (encrypted : EncryptedIntentV1) (indices : gset Z)
    (share : ReleasedShareV1) : result CryptoError (gset Z) :=
  if bool_decide (rel_index share ∈ indices) then Err CryptoError.DuplicateShare else
  if negb (verify_decryption_share (ek_keys k) (rel_index share) (rel_share share) (ei_ciphertext encrypted))
  then Err CryptoError.InvalidShare else Ok ({[rel_index share]} ∪ indices).

Definition EpochPublicKeys_recover (k : EpochPublicKeys) (encrypted : EncryptedIntentV1)
    (shares : list ReleasedShareV1) : result CryptoError SignedIntentV1 :=
  if (length shares <? 2)%nat then Err CryptoError.InsufficientShares else
  try_fold (recover_check k encrypted) ∅ shares ;;
  plaintext ← ok_or CryptoError.InsufficientShares
    (keys_decrypt (ek_keys k) (map (fun share => (rel_index share, rel_share share)) shares) (ei_ciphertext encrypted));
  SignedIntentV1_decode plaintext.

Definition EpochPublicKeys_recover_submission (k : EpochPublicKeys) (submission : EncryptedSubmissionV1)
    (shares : list ReleasedShareV1) : result CryptoError SignedIntentV1 :=
  let ciphertext_hash := sha256 (es_ciphertext submission) in
  match shares with
  | [] => Err CryptoError.InsufficientShares
  | first :: _ =>
      if existsb (fun share => (rel_epoch_account share != rel_epoch_account first)
                               || (rel_lock_digest share != rel_lock_digest first)
                               || (rel_ciphertext_hash share != ciphertext_hash)) shares
      then Err CryptoError.InvalidShare else
      encrypted ← decode_ciphertext (es_ciphertext submission);
      EpochPublicKeys_recover k encrypted shares
  end.

Definition ReleasedShareV1_verify (s : ReleasedShareV1) (public_keys : EpochPublicKeys)
    (submission : EncryptedSubmissionV1) : bool :=
  let ciphertext_hash := sha256 (es_ciphertext submission) in
  if rel_ciphertext_hash s != ciphertext_hash then false else
  match decode_ciphertext (es_ciphertext submission) with
  | Err _ => false
  | Ok encrypted =>
      verify_decryption_share (ek_keys public_keys) (rel_index s) (rel_share s) (ei_ciphertext encrypted)
  end.

Definition ReleasedShareV1_encode_wire (s : ReleasedShareV1) : result CryptoError (list byte) :=
  encoded_share ← ok_or CryptoError.InvalidShare (share_serialize (rel_share s));
  share_len ← ok_or CryptoError.InvalidShare (checked_u32 (Z.of_nat (length encoded_share)));
  Ok ([byte_of 1] ++ le_bytes 8 (rel_index s) ++ (rel_epoch_account s : list byte)
      ++ (rel_lock_digest s : list byte) ++ (rel_ciphertext_hash s : list byte)
      ++ le_bytes 4 share_len ++ encoded_share).

Definition ReleasedShareV1_decode_wire (bytes : list byte) : result CryptoError ReleasedShareV1 :=
  if (length bytes <? 109)%nat || (u8_at 0 bytes != 1%Z) then Err CryptoError.InvalidShare else
  let share_len := le_val (slice 105 109 bytes) in
  if checked_add_u64 109 share_len != Some (Z.of_nat (length bytes)) then Err CryptoError.InvalidShare else
  share ← ok_or CryptoError.InvalidShare (share_deserialize (slice_from 109 bytes));
  let index := le_val (slice 1 9 bytes) in
  epoch_account ← ok_or CryptoError.InvalidShare (try_into 32 (slice 9 41 bytes));
  lock_digest ← ok_or CryptoError.InvalidShare (try_into 32 (slice 41 73 bytes));
  ciphertext_hash ← ok_or CryptoError.InvalidShare (try_into 32 (slice 73 105 bytes));
  Ok {| rel_epoch_account := epoch_account; rel_lock_digest := lock_digest; rel_ciphertext_hash := ciphertext_hash;
        rel_index := index; rel_share := share |}.

Definition KeyperSecretShare_release (s : KeyperSecretShare) (epoch_account lock_digest : bytes32)
    (ciphertext : list byte) : result CryptoError ReleasedShareV1 :=
  encrypted ← decode_ciphertext ciphertext;
  share ← ok_or CryptoError.InvalidCiphertext (decrypt_share (ks_secret s) (ei_ciphertext encrypted));
  Ok {| rel_epoch_account := epoch_account; rel_lock_digest := lock_digest;
        rel_ciphertext_hash := sha256 ciphertext; rel_index := ks_index s; rel_share := share |}.

(** ** Submissions *)

Definition EncryptedSubmissionV1_sign (authorization : FundedAuthorizationV1) (encrypted : EncryptedIntentV1)
    (receipt : bytes32) (trading_key : SigningKey) : result CryptoError EncryptedSubmissionV1 :=
  if receipt == zero32 then Err CryptoError.InvalidReceipt else
  if verifying_key trading_key != fa_trading_key authorization then Err CryptoError.WrongTradingKey else
  let ciphertext := ei_encoded encrypted in
  let message := submission_message (fa_epoch_id authorization) (FundedAuthorizationV1_hash authorization)
    (sha256 ciphertext) receipt in
  Ok {| es_authorization := authorization; es_ciphertext := ciphertext; es_receipt := receipt;
        es_outer_signature := dalek_sign trading_key message |}.

Definition EncryptedSubmissionV1_verify_admission (s : EncryptedSubmissionV1) (policy : AdmissionPolicyV1)
  : result CryptoError unit :=
  FundedAuthorizationV1_verify (es_authorization s) policy ;;
  if es_receipt s == zero32 then Err CryptoError.InvalidReceipt else
  decode_ciphertext (es_ciphertext s) ;;
  trading_key ← FundedAuthorizationV1_trading_key (es_authorization s);
  let message := submission_message (fa_epoch_id (es_authorization s))
    (FundedAuthorizationV1_hash (es_authorization s)) (sha256 (es_ciphertext s)) (es_receipt s) in
  if dalek_verify trading_key message (es_outer_signature s) then Ok tt else Err CryptoError.InvalidOuterSignature.

Definition EncryptedSubmissionV1_commitment_bytes (s : EncryptedSubmissionV1) : list byte :=
  FundedAuthorizationV1_encode (es_authorization s) ++ (sha256 (es_ciphertext s) : list byte)
  ++ (es_receipt s : list byte) ++ (es_outer_signature s : list byte).

Definition EncryptedSubmissionV1_decode_wire (bytes : list byte) : result CryptoError EncryptedSubmissionV1 :=
  if length bytes != ENCRYPTED_SUBMISSION_V1_LEN then Err CryptoError.InvalidCiphertext else
  authorization ← FundedAuthorizationV1_decode (slice 0 249 bytes);
  receipt ← ok_or CryptoError.InvalidReceipt (try_into 32 (slice 593 625 bytes));
  outer_signature ← ok_or CryptoError.InvalidOuterSignature (try_into 64 (slice 625 689 bytes));
  Ok {| es_authorization := authorization; es_ciphertext := slice 249 593 bytes; es_receipt := receipt;
        es_outer_signature := outer_signature |}.

(** One turn of the loop of [admit_batch]: [&&] stops early, so a nonce is recorded before the
    receipt is looked at. *)
Definition admit_step (policy : AdmissionPolicyV1)
    (st : gmap bytes32 EncryptedSubmissionV1 * gset bytes32 * gset bytes32) (submission : EncryptedSubmissionV1)
  : gmap bytes32 EncryptedSubmissionV1 * gset bytes32 * gset bytes32 :=
  let '(valid, nonces, receipts) := st in
  let participant_id := fa_participant_id (es_authorization submission) in
  let nonce := fa_nonce (es_authorization submission) in
  if negb (is_ok (EncryptedSubmissionV1_verify_admission submission policy)) then st else
  if bool_decide (is_Some (valid !! participant_id)) then st else
  if bool_decide (nonce ∈ nonces) then st else
  let nonces := {[nonce]} ∪ nonces in
  if bool_decide (es_receipt submission ∈ receipts) then (valid, nonces, receipts) else
  let receipts := {[es_receipt submission]} ∪ receipts in
  (<[participant_id := submission]> valid, nonces, receipts).

Definition admit_batch (submissions : list EncryptedSubmissionV1) (policy : AdmissionPolicyV1)
  : result CryptoError AdmittedBatch :=
  let '(valid, _, _) := fold_left (admit_step policy) submissions (∅, ∅, ∅) in
  if (size valid <? ap_minimum policy)%nat
  then Err (CryptoError.InsufficientCrowd (size valid) (ap_minimum policy)) else
  Ok {| ab_members := btree_values valid |}.
End crypto.
