(* ===== verification/Suspension.v ===== *)
(** * The suspension registry (crates/kageb-host/src/admission.rs)

    A durable denylist of trading keys.  The supported issuer of funded authorizations reads it
    under its lock, so a suspended key gets no new authorization.  A [BTreeSet] of keys is a map
    to the unit type. *)

From S2P Require Import Prelude Bytes Extern BTree Ledger Storage.
From S2P Require Import Reservation ReservationProps HostExtern HostCrypto.

Definition SUSPENSION_HEADER : list byte := Eval vm_compute in bstr0 "KGBSUS1".
Definition TRADING_KEY_LEN : nat := 32.

Module SuspensionError.
Inductive t : Type := Io (kind : ErrorKind) | Busy | Corrupt | Suspended | Capacity.
End SuspensionError.
Abbreviation SuspensionError := SuspensionError.t.
Global Instance SuspensionError_eq_dec : EqDecision SuspensionError.
Proof. solve_decision. Defined.

Abbreviation TradingKeys := (gmap bytes32 unit).

Record SuspensionRegistry : Type := { sr_file : option (list byte); sr_trading_keys : TradingKeys }.

Definition key_entry (bytes : list byte) : result SuspensionError (bytes32 * unit) :=
  trading_key ← ok_or SuspensionError.Corrupt (try_into 32 bytes);
  Ok (trading_key, tt).

Definition key_encode (entry : bytes32 * unit) : list byte := fst entry.

Section registry.
Context `{Sha256} `{Dalek}.

Definition decode_suspensions (bytes : list byte) : result SuspensionError TradingKeys :=
  if (length bytes <? length SUSPENSION_HEADER + 4 + CHECKSUM_LEN)%nat
     || (take (length SUSPENSION_HEADER) bytes != SUSPENSION_HEADER)
  then Err SuspensionError.Corrupt else
  if negb (checksum_ok bytes) then Err SuspensionError.Corrupt else
  let count := le_val (slice 8 12 bytes) in
  expected_len ← ok_or SuspensionError.Corrupt (checked_table_len 8 count (Z.of_nat TRADING_KEY_LEN));
  if Z.of_nat (length bytes) != expected_len then Err SuspensionError.Corrupt else
  load_table SuspensionError.Corrupt key_entry TRADING_KEY_LEN (Z.to_nat count) 12 bytes ∅.

Definition load_suspensions (io : Io) (file : option (list byte)) : result SuspensionError TradingKeys :=
  bytes ← map_err SuspensionError.Io (read_file io file);
  decode_suspensions bytes.

Definition encode_suspensions (trading_keys : TradingKeys) : list byte :=
  with_checksum (SUSPENSION_HEADER ++ le_bytes 4 (Z.of_nat (size trading_keys))
                 ++ concat (map key_encode (btree_list trading_keys))).

Definition persist_suspensions (io : Io) (file : option (list byte)) (trading_keys : TradingKeys)
  : option (list byte) * result SuspensionError unit :=
  match checked_u32 (Z.of_nat (size trading_keys)) with
  | None => (file, Err SuspensionError.Capacity)
  | Some _ =>
      let '(file, written) := replace_file io file (encode_suspensions trading_keys) in
      (file, map_err SuspensionError.Io written)
  end.

Definition acquire_suspension_lock (io : Io) : result SuspensionError unit :=
  map_err (fun error => if error == WouldBlock then SuspensionError.Busy else SuspensionError.Io error)
    (AdvisoryLock_acquire io).

Definition SuspensionRegistry_open (io : Io) (file : option (list byte))
  : option (list byte) * result SuspensionError SuspensionRegistry :=
  _ ←[file] acquire_suspension_lock io;
  let '(file, created) := if path_exists io file then (file, Ok tt) else persist_suspensions io file ∅ in
  _ ←[file] created;
  trading_keys ←[file] load_suspensions io file;
  (file, Ok {| sr_file := file; sr_trading_keys := trading_keys |}).

Definition SuspensionRegistry_suspend (io : Io) (self : SuspensionRegistry) (trading_key : bytes32)
  : SuspensionRegistry * result SuspensionError unit :=
  _ ←[self] acquire_suspension_lock io;
  current ←[self] load_suspensions io (sr_file self);
  let current := <[trading_key := tt]> current in
  let '(file, persisted) := persist_suspensions io (sr_file self) current in
  _ ←[{| sr_file := file; sr_trading_keys := sr_trading_keys self |}] persisted;
  ({| sr_file := file; sr_trading_keys := current |}, Ok tt).

Definition SuspensionRegistry_is_suspended (self : SuspensionRegistry) (trading_key : bytes32) : bool :=
  bool_decide (is_Some (sr_trading_keys self !! trading_key)).

Definition SuspensionRegistry_issue_authorization (io : Io) (self : SuspensionRegistry)
    (reserved : UnsignedFundedAuthorizationV1) (trading_key : bytes32) (operator : SigningKey) (expiry_slot : Z)
  : result SuspensionError FundedAuthorizationV1 :=
  acquire_suspension_lock io ;;
  trading_keys ← load_suspensions io (sr_file self);
  if bool_decide (is_Some (trading_keys !! trading_key)) then Err SuspensionError.Suspended else
  Ok (FundedAuthorizationV1_sign reserved trading_key operator expiry_slot).

(** ** The file format *)

Definition keys_ok (m : TradingKeys) : Prop := (Z.of_nat (size m) < 2 ^ 32)%Z.

Lemma key_entry_encode k : key_entry (key_encode (k, tt)) = Ok (k, tt).
Proof. unfold key_entry, key_encode. cbn [fst]. by rewrite try_into_arr. Qed.

Lemma keys_bytes_length (m : TradingKeys) : length (table_bytes key_encode m) = size m * 32.
Proof. apply table_bytes_length. intros k [] _. apply length_arr. Qed.

Lemma encode_suspensions_split m :
  exists sum : bytes32, encode_suspensions m =
    (SUSPENSION_HEADER ++ le_bytes 4 (Z.of_nat (size m))) ++ table_bytes key_encode m ++ (sum : list byte).
Proof. eexists. unfold encode_suspensions, with_checksum, table_bytes. rewrite <- !app_assoc. reflexivity. Qed.

Lemma decode_encode_suspensions m : keys_ok m -> decode_suspensions (encode_suspensions m) = Ok m.
Proof.
  unfold keys_ok. intros Hs. unfold decode_suspensions, TRADING_KEY_LEN, CHECKSUM_LEN.
  assert (checksum_ok (encode_suspensions m) = true) as -> by apply with_checksum_ok.
  assert (u32_ok (Z.of_nat (size m))) as Hu by (unfold u32_ok; lia).
  destruct (encode_suspensions_split m) as (sum & ->). change (length SUSPENSION_HEADER) with 8.
  pose proof (table_header SUSPENSION_HEADER (table_bytes key_encode m ++ (sum : list byte)) _ eq_refl Hu) as HH.
  cbn zeta in HH. destruct HH as (E1 & E2 & E3). rewrite E1, E2, E3, length_app, keys_bytes_length, length_arr.
  rewrite bool_decide_eq_true_2, (proj2 (Nat.ltb_ge _ _)) by (done || lia). cbn [negb orb]. cbn zeta.
  rewrite checked_table_len_Some by (done || lia). cbn [ok_or mbind result_bind].
  rewrite bool_decide_eq_true_2 by lia. cbn [negb]. rewrite Nat2Z.id.
  apply load_table_bytes; [|done | by rewrite length_app, length_le_bytes]. intros k [] _. split; [apply length_arr | apply key_entry_encode].
Qed.

Lemma decode_suspensions_ok bytes m : decode_suspensions bytes = Ok m -> keys_ok m.
Proof.
  unfold decode_suspensions, TRADING_KEY_LEN, CHECKSUM_LEN, keys_ok. change (length SUSPENSION_HEADER) with 8.
  intros HD. inv_ok. bguard. assert (u32_ok (le_val (slice 8 12 bytes))) as Hu by (apply u32_slice_ok; lia).
  apply load_table_size in HD. rewrite map_size_empty, Nat.add_0_r in HD. unfold u32_ok in Hu. lia.
Qed.

Definition lists (file : option (list byte)) (m : TradingKeys) : Prop :=
  exists bytes, file = Some bytes /\ decode_suspensions bytes = Ok m.

Lemma load_suspensions_Ok io file m : load_suspensions io file = Ok m <-> io_read io = None /\ lists file m.
Proof. unfold load_suspensions, read_file, lists. destruct (io_read io), file as [b|]; cbn; naive_solver. Qed.

Lemma lists_fun file m m' : lists file m -> lists file m' -> m = m'.
Proof. intros (b & -> & E) (b' & [= <-] & E'). congruence. Qed.

Lemma lists_encode m : keys_ok m -> lists (Some (encode_suspensions m)) m.
Proof. intros Hm. eexists. split; [done|]. by apply decode_encode_suspensions. Qed.

Lemma persist_suspensions_cases io file m file' r :
  persist_suspensions io file m = (file', r) ->
  (file' = file /\ r <> Ok tt) \/ file' = Some (encode_suspensions m).
Proof.
  unfold persist_suspensions, replace_file. destruct (checked_u32 _) as [v|]; [|intros [= <- <-]; by left].
  destruct (io_write io); intros [= <- <-]; [by right | by left | by right].
Qed.

(** ** Steps of the registry *)

Lemma suspend_cases io j k j' v m :
  lists (sr_file j) m -> SuspensionRegistry_suspend io j k = (j', v) ->
  (lists (sr_file j') m /\ v <> Ok tt) \/ lists (sr_file j') (<[k := tt]> m).
Proof.
  intros HL. unfold SuspensionRegistry_suspend.
  destruct (acquire_suspension_lock io) as [[]|e1]; [|intros [= <- <-]; by left].
  destruct (load_suspensions io (sr_file j)) as [m0|e2] eqn:EL; [|intros [= <- <-]; by left].
  apply load_suspensions_Ok in EL as [_ EL]. rewrite <- (lists_fun _ _ _ HL EL). cbn zeta.
  unfold persist_suspensions, replace_file. destruct (checked_u32 _) as [c|] eqn:EC.
  - apply checked_u32_Some in EC as [_ [_ EC]].
    assert (lists (Some (encode_suspensions (<[k := tt]> m))) (<[k := tt]> m)) as HN.
    { eexists. split; [done|]. by apply decode_encode_suspensions. }
    destruct (io_write io); intros [= <- <-]; [by right | by left | by right].
  - intros [= <- <-]. by left.
Qed.

Inductive registry_step : SuspensionRegistry -> SuspensionRegistry -> Prop :=
| registry_suspend io j k : registry_step j (fst (SuspensionRegistry_suspend io j k))
| registry_open io j :
    registry_step j {| sr_file := fst (SuspensionRegistry_open io (sr_file j)); sr_trading_keys := sr_trading_keys j |}
| registry_handle j keys : registry_step j {| sr_file := sr_file j; sr_trading_keys := keys |}.

(** An opening that could not see the registry and wrote an empty one over it. *)
Definition registry_erased (j j' : SuspensionRegistry) : Prop :=
  exists io, io_metadata io <> None /\ sr_file j' = fst (SuspensionRegistry_open io (sr_file j)) /\
    sr_file j' = Some (encode_suspensions ∅) /\ sr_file j' <> sr_file j.

Lemma lists_empty : lists (Some (encode_suspensions ∅)) ∅.
Proof. apply lists_encode. unfold keys_ok. by rewrite map_size_empty. Qed.

Lemma open_registry_existing io bytes :
  fst (SuspensionRegistry_open io (Some bytes)) = Some bytes \/
  io_metadata io <> None /\ fst (SuspensionRegistry_open io (Some bytes)) = Some (encode_suspensions ∅).
Proof.
  unfold SuspensionRegistry_open, path_exists. destruct (acquire_suspension_lock io) as [?|?]; [|by left].
  destruct (io_metadata io) as [e|].
  - destruct (persist_suspensions io (Some bytes) ∅) as [file v] eqn:EP.
    apply persist_suspensions_cases in EP as [[-> _]| ->]; [left | right; split; [done|]];
      (destruct v; [by destruct (load_suspensions io _)|done]).
  - left. by destruct (load_suspensions io (Some bytes)).
Qed.

(** A key once listed stays listed, unless the registry is erased. *)
Lemma registry_step_keeps j j' m :
  registry_step j j' -> lists (sr_file j) m ->
  exists m', lists (sr_file j') m' /\ (m ⊆ m' \/ registry_erased j j').
Proof.
  intros HS HL. destruct HS as [io j k|io j|j keys]; cbn [sr_file].
  - destruct (SuspensionRegistry_suspend io j k) as [j' v] eqn:ES. cbn.
    destruct (suspend_cases _ _ _ _ _ _ HL ES) as [[HL' _]|HL']; [exists m; by split; [|left]|].
    exists (<[k := tt]> m). split; [done|]. left.
    destruct (m !! k) as [[]|] eqn:Ek; [by rewrite insert_id | by apply insert_subseteq].
  - destruct HL as (b & Hb & HD). destruct (open_registry_existing io b) as [E|[HM E]]; rewrite <- Hb in E.
    + exists m. split; [exists b; by rewrite E | by left].
    + destruct (decide (sr_file j = Some (encode_suspensions ∅))) as [Ej|Ej].
      * exists m. split; [rewrite E, <- Ej; by exists b | by left].
      * exists ∅. split; [rewrite E; apply lists_empty | right; exists io]. cbn [sr_file]. rewrite E. by split_and!.
  - exists m. by split; [|left].
Qed.

Lemma registry_run_keeps j l m :
  run registry_step j l -> lists (sr_file j) m ->
  exists m', lists (sr_file (final j l)) m' /\ (m ⊆ m' \/ occurs registry_erased j l).
Proof.
  revert j m. induction l as [|j1 l IH]; intros j m; cbn [run final]; [intros _ HL; exists m; by split; [|left]|].
  intros [Hs HS] HL. destruct (registry_step_keeps _ _ _ Hs HL) as (m1 & HL1 & Hm1).
  destruct (IH j1 m1 HS HL1) as (m2 & HL2 & Hm2). exists m2. split; [done|].
  destruct Hm1 as [Hm1|?]; [|right; by apply occurs_here].
  destruct Hm2 as [Hm2|?]; [left; by transitivity m1 | right; by apply occurs_later].
Qed.
End registry.
