(* ===== verification/HostCryptoProps.v ===== *)
(** * Authorizations, submissions and admission: laws *)

From S2P Require Import Prelude Bytes Extern BTree Domain Ledger Storage.
From S2P Require Import Reservation HostExtern HostCrypto.

(** ** Codecs *)

Definition authorization_ok (a : FundedAuthorizationV1) : Prop :=
  fa_version a = AUTHORIZATION_VERSION /\ u64_ok (fa_base_atoms a) /\ u64_ok (fa_quote_atoms a) /\ u64_ok (fa_expiry_slot a).

Definition authorization_fields (a : FundedAuthorizationV1) : list (list byte) :=
  [[byte_of (fa_version a)]; fa_operator_key a : list byte; fa_epoch_id a : list byte; fa_participant_id a : list byte;
   fa_trading_key a : list byte; fa_nonce a : list byte; le_bytes 8 (fa_base_atoms a); le_bytes 8 (fa_quote_atoms a);
   le_bytes 8 (fa_expiry_slot a); fa_operator_signature a : list byte].

Lemma authorization_layout a : map length (authorization_fields a) = [1; 32; 32; 32; 32; 32; 8; 8; 8; 64].
Proof. cbn [map authorization_fields]. by autorewrite with len. Qed.

Definition unsigned_fields (a : FundedAuthorizationV1) : list (list byte) :=
  [[byte_of (fa_version a)]; fa_operator_key a : list byte; fa_epoch_id a : list byte; fa_participant_id a : list byte;
   fa_trading_key a : list byte; fa_nonce a : list byte; le_bytes 8 (fa_base_atoms a); le_bytes 8 (fa_quote_atoms a);
   le_bytes 8 (fa_expiry_slot a)].

Lemma unsigned_encode_fields a : FundedAuthorizationV1_unsigned a = concat (unsigned_fields a).
Proof.
  unfold FundedAuthorizationV1_unsigned, authorization_bytes, unsigned_fields. cbn zeta. cbn [concat]. by fill 185.
Qed.

Lemma unsigned_length a : length (FundedAuthorizationV1_unsigned a) = 185.
Proof. rewrite unsigned_encode_fields. cbn [concat unsigned_fields]. len. Qed.

(** A buffer filled by two copies. *)
Lemma put_two (a b : list byte) k n :
  length a = n -> n + length b = k -> put_at n b (put_at 0 a (zeros k)) = a ++ b.
Proof.
  intros Ha Hb. pose proof (put_at_fill [] 0 a k eq_refl ltac:(lia)) as E. cbn [app] in E.
  rewrite E, put_at_fill by lia.
  replace (k - length a - length b) with 0 by lia. cbn. by rewrite app_nil_r.
Qed.

Lemma authorization_encode_split a :
  FundedAuthorizationV1_encode a = FundedAuthorizationV1_unsigned a ++ (fa_operator_signature a : list byte).
Proof. unfold FundedAuthorizationV1_encode. cbn zeta. apply put_two; [apply unsigned_length | by rewrite length_arr]. Qed.

Lemma authorization_encode_fields a : FundedAuthorizationV1_encode a = concat (authorization_fields a).
Proof.
  rewrite authorization_encode_split, unsigned_encode_fields. unfold authorization_fields, unsigned_fields.
  cbn [concat]. rewrite <- !app_assoc, !app_nil_r. done.
Qed.

Lemma authorization_encode_length a : length (FundedAuthorizationV1_encode a) = 249.
Proof. rewrite authorization_encode_split, length_app, unsigned_length, length_arr. done. Qed.

Section codec.
Context `{Sha256} `{Dalek} `{Threshold}.

Definition authorization_wf (a : FundedAuthorizationV1) : Prop :=
  authorization_ok a /\ verifying_key_ok (fa_trading_key a) = true /\ verifying_key_ok (fa_operator_key a) = true.

Lemma authorization_decode_encode a :
  authorization_wf a -> FundedAuthorizationV1_decode (FundedAuthorizationV1_encode a) = Ok a.
Proof.
  intros ((Hv & Hb & Hq & Hx) & Ht & Ho). unfold FundedAuthorizationV1_decode, FUNDED_AUTHORIZATION_V1_LEN.
  rewrite authorization_encode_length, authorization_encode_fields. pose proof (authorization_layout a) as HL. fields HL.
  cbn [nth authorization_fields]. unfold byte_at. cbn [nth]. rewrite Hv.
  change (byte_val (byte_of AUTHORIZATION_VERSION)) with AUTHORIZATION_VERSION.
  autorewrite with wire. change (bool_decide (249 = 249)) with true.
  change (bool_decide (AUTHORIZATION_VERSION = AUTHORIZATION_VERSION)) with true.
  cbn [negb orb mbind result_bind ok_or]. unfold FundedAuthorizationV1_trading_key.
  cbn [fa_trading_key fa_operator_key]. rewrite Ht, Ho. cbn [negb mbind result_bind]. f_equal. destruct a; cbn in *. by subst.
Qed.

Lemma authorization_encode_decode bytes a :
  FundedAuthorizationV1_decode bytes = Ok a -> authorization_wf a /\ FundedAuthorizationV1_encode a = bytes.
Proof.
  unfold FundedAuthorizationV1_decode, FUNDED_AUTHORIZATION_V1_LEN, FundedAuthorizationV1_trading_key. intros E.
  apply guard_Ok in E as [Hg E]. bguard. inv_ok. bguard. cbn [fa_trading_key fa_operator_key] in *.
  subst a. split.
  - unfold authorization_wf, authorization_ok. cbn -[slice u8_at]. split_and!; try done; apply u64_slice_ok; lia.
  - rewrite authorization_encode_fields. unfold authorization_fields. cbn -[slice le_bytes byte_of concat u8_at].
    uncut [1; 32; 32; 32; 32; 32; 8; 8; 8; 64].
Qed.
End codec.

Lemma signed_intent_encode s :
  SignedIntentV1_encode s = IntentBodyV1_encode (si_body s) ++ (si_signature s : list byte).
Proof. unfold SignedIntentV1_encode. cbn zeta. apply put_two; [apply IntentBodyV1_encode_length | by rewrite length_arr]. Qed.

Lemma signed_intent_encode_length s : length (SignedIntentV1_encode s) = 192.
Proof. rewrite signed_intent_encode, length_app, IntentBodyV1_encode_length, length_arr. done. Qed.

Lemma signed_intent_decode_encode s :
  IntentBodyV1_wf (si_body s) -> SignedIntentV1_decode (SignedIntentV1_encode s) = Ok s.
Proof.
  intros HW. unfold SignedIntentV1_decode, SIGNED_INTENT_LEN.
  rewrite signed_intent_encode_length, signed_intent_encode. change (bool_decide (192 = 192)) with true. cbn [negb].
  rewrite slice_hit by apply IntentBodyV1_encode_length. rewrite IntentBodyV1_decode_encode by done.
  cbn [map_err mbind result_bind]. unfold slice_from.
  rewrite drop_app_ge, IntentBodyV1_encode_length, Nat.sub_diag by (rewrite IntentBodyV1_encode_length; lia).
  rewrite drop_0, try_into_arr. by destruct s.
Qed.

Lemma signed_intent_encode_decode bytes s :
  SignedIntentV1_decode bytes = Ok s -> IntentBodyV1_wf (si_body s) /\ SignedIntentV1_encode s = bytes.
Proof.
  unfold SignedIntentV1_decode, SIGNED_INTENT_LEN. intros E. inv_ok. bguard. subst s.
  match goal with T : IntentBodyV1_decode _ = Ok _ |- _ => apply IntentBodyV1_encode_decode in T as [HW HB] end.
  split; [done|]. rewrite signed_intent_encode. cbn [si_body si_signature]. rewrite HB.
  match goal with T : try_into 64 _ = Some _ |- _ => apply try_into_Some in T as -> end.
  unfold slice, slice_from. rewrite drop_0. apply take_drop.
Qed.

Section wire.
Context `{Sha256} `{Dalek} `{Threshold}.

Definition submission_wf (s : EncryptedSubmissionV1) : Prop :=
  authorization_wf (es_authorization s) /\ length (es_ciphertext s) = 344.

Definition submission_fields (s : EncryptedSubmissionV1) : list (list byte) :=
  [FundedAuthorizationV1_encode (es_authorization s); es_ciphertext s; es_receipt s : list byte;
   es_outer_signature s : list byte].

Lemma submission_encode_fields s : EncryptedSubmissionV1_encode_wire s = concat (submission_fields s).
Proof. unfold EncryptedSubmissionV1_encode_wire, submission_fields. cbn [concat]. by rewrite app_nil_r. Qed.

Lemma submission_decode_encode s :
  submission_wf s -> EncryptedSubmissionV1_decode_wire (EncryptedSubmissionV1_encode_wire s) = Ok s.
Proof.
  intros [HA HC]. unfold EncryptedSubmissionV1_decode_wire.
  assert (map length (submission_fields s) = [249; 344; 32; 64]) as HL.
  { cbn [map submission_fields]. rewrite authorization_encode_length, HC, !length_arr. done. }
  assert (length (EncryptedSubmissionV1_encode_wire s) = ENCRYPTED_SUBMISSION_V1_LEN) as Hlen.
  { unfold EncryptedSubmissionV1_encode_wire. rewrite !length_app, authorization_encode_length, HC, !length_arr. done. }
  rewrite Hlen, bool_decide_eq_true_2 by done. cbn [negb]. rewrite submission_encode_fields. fields HL.
  cbn [nth submission_fields]. rewrite authorization_decode_encode by done. cbn [mbind result_bind].
  rewrite !try_into_arr. cbn [ok_or]. by destruct s.
Qed.

Lemma submission_encode_decode bytes s :
  EncryptedSubmissionV1_decode_wire bytes = Ok s -> submission_wf s /\ EncryptedSubmissionV1_encode_wire s = bytes.
Proof.
  unfold EncryptedSubmissionV1_decode_wire. intros E. apply guard_Ok in E as [Hg E]. bguard. inv_ok. subst s.
  assert (length bytes = 689) as Hl by done.
  match goal with T : FundedAuthorizationV1_decode _ = Ok _ |- _ => apply authorization_encode_decode in T as [HW HB] end.
  split; [split; [done | cbn -[slice]; rewrite length_slice; lia]|].
  rewrite submission_encode_fields. unfold submission_fields. cbn -[slice FundedAuthorizationV1_encode concat].
  rewrite HB. uncut [249; 344; 32; 64].
Qed.

(** ** Released shares *)

Lemma released_decode_encode s bytes :
  ThresholdLaws -> u64_ok (rel_index s) -> ReleasedShareV1_encode_wire s = Ok bytes ->
  ReleasedShareV1_decode_wire bytes = Ok s.
Proof.
  intros HT Hi E. unfold ReleasedShareV1_encode_wire in E. inv_ok. checked. subst bytes.
  match goal with T : share_serialize _ = Some ?d |- _ => pose proof (share_round_trip _ _ T) as Hd; rename d into enc end.
  match goal with T : u32_ok _ |- _ => rename T into Hu end.
  set (fs := [[byte_of 1]; le_bytes 8 (rel_index s); rel_epoch_account s : list byte; rel_lock_digest s : list byte;
              rel_ciphertext_hash s : list byte; le_bytes 4 (Z.of_nat (length enc)); enc]).
  match goal with |- ReleasedShareV1_decode_wire ?b = _ => assert (b = concat fs) as -> by (subst fs; cbn [concat]; by rewrite app_nil_r) end.
  assert (map length fs = [1; 8; 32; 32; 32; 4; length enc]) as HL by (subst fs; cbn [map]; by autorewrite with len).
  assert (length (concat fs) = 109 + length enc) as Hlen by (subst fs; cbn [concat]; len).
  assert (slice 109 (109 + length enc) (concat fs) = enc) as Htail.
  { assert (field_at 0 [1; 8; 32; 32; 32; 4; length enc] 109 (109 + length enc) = Some 6) as Hf
      by (cbn; by rewrite Nat.eqb_refl). by rewrite (slice_field _ _ _ _ _ HL Hf). }
  unfold ReleasedShareV1_decode_wire. rewrite slice_from_slice, Hlen, Htail. clear Htail. fields HL. subst fs. cbn [nth]. unfold byte_at. cbn [nth].
  change (byte_val (byte_of 1)) with 1%Z. autorewrite with wire.
  rewrite (proj2 (Nat.ltb_ge _ _)) by lia. change (bool_decide (1%Z = 1%Z)) with true. cbn [negb orb]. cbn zeta.
  unfold u32_ok in Hu. unfold checked_add_u64. rewrite (proj2 (checked_u64_Some _ (109 + Z.of_nat (length enc)))) by (unfold u64_ok; lia).
  rewrite bool_decide_eq_true_2 by (f_equal; lia). cbn [negb].
  rewrite Hd. cbn [ok_or mbind result_bind]. rewrite ?try_into_arr. cbn [ok_or mbind result_bind]. by destruct s.
Qed.
End wire.

(** ** Verification *)

Section verification.
Context `{Sha256} `{Dalek} `{Threshold}.

(** What an admitted submission has been checked for. *)
Definition admissible (policy : AdmissionPolicyV1) (s : EncryptedSubmissionV1) : Prop :=
  let a := es_authorization s in
  fa_version a = AUTHORIZATION_VERSION /\ fa_operator_key a = ap_operator_key policy /\
  fa_base_atoms a = ap_base_atoms policy /\ fa_quote_atoms a = ap_quote_atoms policy /\
  (ap_current_slot policy <= fa_expiry_slot a)%Z /\ fa_epoch_id a = ap_epoch_id policy /\
  verifying_key_ok (fa_operator_key a) = true /\ verifying_key_ok (fa_trading_key a) = true /\
  dalek_verify (fa_operator_key a) (authorization_message (FundedAuthorizationV1_unsigned a)) (fa_operator_signature a) = true /\
  es_receipt s <> zero32 /\ is_ok (decode_ciphertext (es_ciphertext s)) = true /\
  dalek_verify (fa_trading_key a)
    (submission_message (fa_epoch_id a) (FundedAuthorizationV1_hash a) (sha256 (es_ciphertext s)) (es_receipt s))
    (es_outer_signature s) = true.

Lemma authorization_verify_Ok a policy u :
  FundedAuthorizationV1_verify a policy = Ok u <->
  (fa_version a = AUTHORIZATION_VERSION /\ fa_operator_key a = ap_operator_key policy /\
   fa_base_atoms a = ap_base_atoms policy /\ fa_quote_atoms a = ap_quote_atoms policy /\
   (ap_current_slot policy <= fa_expiry_slot a)%Z) /\ fa_epoch_id a = ap_epoch_id policy /\
  verifying_key_ok (fa_operator_key a) = true /\
  dalek_verify (fa_operator_key a) (authorization_message (FundedAuthorizationV1_unsigned a)) (fa_operator_signature a) = true.
Proof.
  destruct u. unfold FundedAuthorizationV1_verify. cbn zeta.
  rewrite !guard_Ok, !orb_false_iff, !neqb_false, Z.ltb_ge, negb_false_iff.
  destruct (dalek_verify _ _ _); intuition congruence.
Qed.

Lemma verify_admission_Ok s policy u :
  EncryptedSubmissionV1_verify_admission s policy = Ok u <-> admissible policy s.
Proof.
  destruct u. pose proof (authorization_verify_Ok (es_authorization s) policy tt) as HV.
  unfold EncryptedSubmissionV1_verify_admission, admissible, FundedAuthorizationV1_trading_key. cbn zeta.
  destruct (FundedAuthorizationV1_verify (es_authorization s) policy) as [[]|e]; cbn [mbind result_bind];
    [pose proof (proj1 HV eq_refl) as HA; clear HV | split; [done|]; intros HA; cbn zeta in HA; destruct HV as [_ HV]; discriminate HV; tauto].
  destruct (bool_decide_reflect (es_receipt s = zero32)); [split; [done | tauto]|].
  destruct (decode_ciphertext (es_ciphertext s)) as [c|]; cbn [mbind result_bind is_ok];
    [|split; [done | intuition discriminate]].
  destruct (verifying_key_ok (fa_trading_key (es_authorization s))); cbn [negb mbind result_bind];
    [|split; [done | intuition discriminate]].
  destruct (dalek_verify _ _ (es_outer_signature s)); [tauto | split; [done | intuition discriminate]].
Qed.

(** An honestly issued and signed submission is admitted under its policy. *)
Lemma honest_submission_admissible `{!DalekLaws} reserved trader operator expiry_slot encrypted receipt policy s :
  EncryptedSubmissionV1_sign (FundedAuthorizationV1_sign reserved (verifying_key trader) operator expiry_slot)
    encrypted receipt trader = Ok s ->
  decode_ciphertext (ei_encoded encrypted) = Ok encrypted ->
  ap_operator_key policy = verifying_key operator -> ap_epoch_id policy = ua_epoch_id reserved ->
  ap_base_atoms policy = ua_base_atoms reserved -> ap_quote_atoms policy = ua_quote_atoms reserved ->
  (ap_current_slot policy <= expiry_slot)%Z -> admissible policy s.
Proof.
  unfold EncryptedSubmissionV1_sign. intros E HD Ho He Hb Hq Hx. inv_ok. bguard. subst s.
  unfold admissible. cbn -[authorization_bytes]. rewrite HD, Ho, He, Hb, Hq. split_and!; try done; try apply verifying_key_decodes;
    apply sign_verifies.
Qed.

(** ** Selecting a batch *)

Lemma is_ok_true {E A} (x : result E A) : is_ok x = true <-> exists v, x = Ok v.
Proof. destruct x; cbn; naive_solver. Qed.

Abbreviation participant s := (fa_participant_id (es_authorization s)).
Abbreviation nonce_of s := (fa_nonce (es_authorization s)).

(** The loop invariant: every kept submission passed, came from the input, sits under its
    participant, and its nonce and receipt are recorded and not shared. *)
Definition admit_inv (policy : AdmissionPolicyV1) (input : list EncryptedSubmissionV1)
    (st : gmap bytes32 EncryptedSubmissionV1 * gset bytes32 * gset bytes32) : Prop :=
  let '(valid, nonces, receipts) := st in
  map_Forall (fun id s => participant s = id /\ s ∈ input /\ admissible policy s /\ nonce_of s ∈ nonces /\ es_receipt s ∈ receipts) valid /\
  (forall id1 id2 s1 s2, valid !! id1 = Some s1 -> valid !! id2 = Some s2 ->
     nonce_of s1 = nonce_of s2 \/ es_receipt s1 = es_receipt s2 -> id1 = id2).

Lemma admit_step_inv policy input st s : s ∈ input -> admit_inv policy input st -> admit_inv policy input (admit_step policy st s).
Proof.
  destruct st as [[valid nonces] receipts]. intros Hs [HF HD]. unfold admit_step.
  destruct (is_ok _) eqn:Ev; cbn [negb]; [|done].
  apply is_ok_true in Ev as [u Ev]. apply verify_admission_Ok in Ev.
  case_bool_decide as Hp; [done|]. case_bool_decide as Hn; [done|]. case_bool_decide as Hr.
  - split; [|done]. intros id s' Hs'. destruct (HF id s' Hs') as (? & ? & ? & ? & ?). split_and!; try done. set_solver.
  - split.
    + apply map_Forall_insert_2; [split_and!; try done; set_solver|].
      intros id s' Hs'. destruct (HF id s' Hs') as (? & ? & ? & ? & ?). split_and!; try done; set_solver.
    + intros id1 id2 s1 s2. rewrite !lookup_insert_Some.
      assert (forall id s', valid !! id = Some s' -> nonce_of s = nonce_of s' \/ es_receipt s = es_receipt s' -> False) as Hfresh.
      { intros id s' Hs' Hor. destruct (HF id s' Hs') as (_ & _ & _ & Hn' & Hr'). destruct Hor as [E|E]; rewrite <- E in *; done. }
      intros [[<- <-]|[_ Hv1]] [[<- <-]|[_ Hv2]] Hor; [done | by destruct (Hfresh _ _ Hv2) | | by eapply HD].
      destruct (Hfresh _ _ Hv1). intuition.
Qed.

Lemma admit_fold_inv policy input l st :
  l ⊆ input -> admit_inv policy input st -> admit_inv policy input (fold_left (admit_step policy) l st).
Proof.
  revert st. induction l as [|s l IH]; intros st Hl HI; [done|]. cbn [fold_left]. apply IH; [set_solver|].
  apply admit_step_inv; [set_solver | done].
Qed.

Definition passing (policy : AdmissionPolicyV1) (l : list EncryptedSubmissionV1) : list EncryptedSubmissionV1 :=
  List.filter (fun s => is_ok (EncryptedSubmissionV1_verify_admission s policy)) l.

(** With distinct nonces and receipts, every passing participant is kept. *)
Lemma passing_cons policy s l :
  passing policy (s :: l)
  = if is_ok (EncryptedSubmissionV1_verify_admission s policy) then s :: passing policy l else passing policy l.
Proof. done. Qed.

Lemma admit_step_keeps policy valid nonces receipts s valid' nonces' receipts' id :
  admit_step policy (valid, nonces, receipts) s = (valid', nonces', receipts') ->
  is_Some (valid !! id) -> is_Some (valid' !! id).
Proof.
  intros E Hid. unfold admit_step in E. repeat case_match; simplify_eq; try done.
  apply lookup_insert_is_Some'. by right.
Qed.

Lemma admit_fold_keeps policy l st valid' nonces' receipts' id :
  fold_left (admit_step policy) l st = (valid', nonces', receipts') ->
  is_Some (fst (fst st) !! id) -> is_Some (valid' !! id).
Proof.
  revert st. induction l as [|s l IH]; intros [[valid nonces] receipts] E Hid; cbn [fold_left] in E; [by simplify_eq|].
  destruct (admit_step policy (valid, nonces, receipts) s) as [[v1 n1] r1] eqn:Es.
  eapply IH; [exact E|]. by eapply admit_step_keeps.
Qed.

Lemma admit_step_eq policy valid nonces receipts s :
  admit_step policy (valid, nonces, receipts) s =
  if negb (is_ok (EncryptedSubmissionV1_verify_admission s policy)) then (valid, nonces, receipts) else
  if bool_decide (is_Some (valid !! participant s)) then (valid, nonces, receipts) else
  if bool_decide (nonce_of s ∈ nonces) then (valid, nonces, receipts) else
  if bool_decide (es_receipt s ∈ receipts) then (valid, {[nonce_of s]} ∪ nonces, receipts) else
  (<[participant s := s]> valid, {[nonce_of s]} ∪ nonces, {[es_receipt s]} ∪ receipts).
Proof. done. Qed.

Lemma admit_fold_complete policy l valid nonces receipts valid' nonces' receipts' :
  fold_left (admit_step policy) l (valid, nonces, receipts) = (valid', nonces', receipts') ->
  NoDup (map (fun s => nonce_of s) (passing policy l)) -> NoDup (map es_receipt (passing policy l)) ->
  Forall (fun s => (nonce_of s ∉ nonces) /\ (es_receipt s ∉ receipts)) (passing policy l) ->
  Forall (fun s => is_Some (valid' !! participant s)) (passing policy l).
Proof.
  revert valid nonces receipts. induction l as [|s l IH]; intros valid nonces receipts E HN HR HF; [constructor|].
  cbn [fold_left] in E. rewrite passing_cons in *. destruct (is_ok _) eqn:Ev.
  2:{ rewrite admit_step_eq, Ev in E. cbn [negb] in E. eapply IH; eassumption. }
  cbn [map] in HN, HR. apply list.NoDup_cons in HN as [Hn HN], HR as [Hr HR].
  apply Forall_cons_iff in HF as [[Hn0 Hr0] HF].
  assert (Forall (fun s' => nonce_of s' <> nonce_of s /\ es_receipt s' <> es_receipt s) (passing policy l)) as Hne.
  { apply list.Forall_forall. intros s' Hs'. split; intros E'; [apply Hn | apply Hr]; rewrite <- E';
      apply list_elem_of_In; [apply (in_map (fun s => nonce_of s)) | apply in_map]; by apply list_elem_of_In. }
  rewrite admit_step_eq, Ev in E. cbn [negb] in E. case_bool_decide as Hp.
  - constructor; [eapply (admit_fold_keeps _ _ _ _ _ _ _ E); exact Hp | eapply IH; eassumption].
  - rewrite !bool_decide_eq_false_2 in E by done. constructor.
    + eapply (admit_fold_keeps _ _ _ _ _ _ _ E). cbn [fst]. rewrite lookup_insert_eq. eauto.
    + eapply IH; [exact E | done | done |]. rewrite list.Forall_forall in HF, Hne |- *. intros s' Hs'.
      destruct (HF s' Hs'), (Hne s' Hs'). split; set_solver.
Qed.

Lemma admit_batch_sound policy l b :
  admit_batch l policy = Ok b ->
  ap_minimum policy <= length (ab_members b) /\
  Forall (fun s => s ∈ l /\ admissible policy s) (ab_members b) /\
  NoDup (map (fun s => participant s) (ab_members b)) /\ NoDup (map (fun s => nonce_of s) (ab_members b)) /\
  NoDup (map es_receipt (ab_members b)) /\
  StronglySorted arr_le (map (fun s => participant s) (ab_members b)).
Proof.
  unfold admit_batch. destruct (fold_left _ _ _) as [[valid nonces] receipts] eqn:EF. intros E. inv_ok. bguard. subst b.
  cbn [ab_members].
  assert (admit_inv policy l (valid, nonces, receipts)) as [HF HD].
  { rewrite <- EF. apply admit_fold_inv; [done|]. split; [apply map_Forall_empty|]. intros ? ? ? ? Hx. by rewrite lookup_empty in Hx. }
  assert (map (fun s => participant s) (btree_values valid) = map fst (btree_list valid)) as HP.
  { unfold btree_values. rewrite map_map. apply map_ext_in. intros [id s] Hin. apply list_elem_of_In, btree_list_elem in Hin.
    by destruct (HF id s Hin). }
  split_and!.
  - unfold btree_values. rewrite length_map, btree_list_length. done.
  - unfold btree_values. apply Forall_map, list.Forall_forall. intros [id s] Hin%btree_list_elem.
    destruct (HF id s Hin) as (_ & ? & ? & _). done.
  - rewrite HP. apply btree_list_keys_NoDup.
  - apply btree_values_NoDup. intros. eapply HD; eauto.
  - apply btree_values_NoDup. intros. eapply HD; eauto.
  - rewrite HP. apply btree_keys_sorted.
Qed.
End verification.

(** ** Recovering an intent *)

Section recovery.
Context `{Sha256} `{Dalek} `{Threshold}.

Definition share_verifies (k : EpochPublicKeys) (c : Ciphertext) (share : ReleasedShareV1) : Prop :=
  verify_decryption_share (ek_keys k) (rel_index share) (rel_share share) c = true.

Lemma recover_loop k encrypted shares seen acc :
  try_fold (recover_check k encrypted) seen shares = Ok acc <->
  NoDup (map rel_index shares) /\ Forall (fun s => rel_index s ∉ seen) shares /\
  Forall (share_verifies k (ei_ciphertext encrypted)) shares /\ acc = list_to_set (map rel_index shares) ∪ seen.
Proof.
  revert seen. induction shares as [|s shares IH]; intros seen; cbn [try_fold map].
  - cbn [list_to_set]. rewrite (left_id_L ∅ (∪)). split; [intros [= <-]; split_and!; by constructor | by intros (_ & _ & _ & ->)].
  - rewrite list.NoDup_cons, !Forall_cons_iff, bind_Ok. cbn [list_to_set]. unfold share_verifies at 1. split.
    + intros (a & Hs & Hrest). unfold recover_check in Hs. inv_ok. bguard. subst a.
      apply IH in Hrest as (HN & HS & HV & ->). rewrite list.Forall_forall in HS. split_and!; try done.
      * intros Hin. apply list_elem_of_In, in_map_iff in Hin as (s' & Es & Hs'). apply list_elem_of_In in Hs'.
        specialize (HS s' Hs'). set_solver.
      * apply list.Forall_forall. intros s' Hs'. specialize (HS s' Hs'). set_solver.
      * by rewrite (assoc_L (∪)), (comm_L (∪) _ {[rel_index s]}).
    + intros ((Hn & HN) & (Hs & HS) & (Hv & HV) & ->). exists ({[rel_index s]} ∪ seen). split.
      * unfold recover_check. by rewrite bool_decide_eq_false_2, Hv.
      * apply IH. rewrite list.Forall_forall in HS |- *. split_and!; try done.
        -- intros s' Hs'. specialize (HS s' Hs'). apply not_elem_of_union. split; [|done]. intros E%elem_of_singleton.
           apply Hn. rewrite <- E. by apply list_elem_of_In, in_map, list_elem_of_In.
        -- by rewrite (assoc_L (∪)), (comm_L (∪) _ {[rel_index s]}).
Qed.

(** Nothing is recovered without two shares of distinct indices that verify. *)
Lemma recover_needs k encrypted shares intent :
  EpochPublicKeys_recover k encrypted shares = Ok intent ->
  2 <= length shares /\ NoDup (map rel_index shares) /\ Forall (share_verifies k (ei_ciphertext encrypted)) shares /\
  IntentBodyV1_wf (si_body intent).
Proof.
  unfold EpochPublicKeys_recover. intros E. inv_ok. bguard.
  match goal with T : try_fold _ _ _ = Ok _ |- _ => apply recover_loop in T as (HN & _ & HV & _) end.
  apply signed_intent_encode_decode in E as [HW _]. done.
Qed.

Lemma encode_ciphertext_Ok c encrypted :
  encode_ciphertext c = Ok encrypted -> ei_ciphertext encrypted = c /\ ciphertext_verify c = true /\
  ciphertext_serialize c = Some (ei_encoded encrypted) /\ length (ei_encoded encrypted) = ENCRYPTED_INTENT_V1_LEN.
Proof. unfold encode_ciphertext. intros E. inv_ok. bguard. by subst. Qed.

(** What was encoded is decoded. *)
Lemma decode_encode_ciphertext `{!ThresholdLaws} c encrypted :
  encode_ciphertext c = Ok encrypted -> decode_ciphertext (ei_encoded encrypted) = Ok encrypted.
Proof.
  intros (<- & Hv & Hs & Hl)%encode_ciphertext_Ok. unfold decode_ciphertext. rewrite Hl, bool_decide_eq_true_2 by done.
  cbn [negb]. rewrite (ciphertext_round_trip _ _ Hs). cbn [ok_or mbind result_bind]. rewrite Hv. by destruct encrypted.
Qed.

(** Any two or more verifying shares of distinct indices recover the encrypted intent. *)
Lemma recover_opens `{!ThresholdLaws} k rnd intent encrypted shares :
  keys_threshold (ek_keys k) = 1 -> IntentBodyV1_wf (si_body intent) ->
  EpochPublicKeys_encrypt k rnd intent = Ok encrypted -> 2 <= length shares -> NoDup (map rel_index shares) ->
  Forall (share_verifies k (ei_ciphertext encrypted)) shares ->
  EpochPublicKeys_recover k encrypted shares = Ok intent.
Proof.
  intros Ht HW HE Hl HN HV. unfold EpochPublicKeys_encrypt in HE. apply encode_ciphertext_Ok in HE as (Hc & _).
  unfold EpochPublicKeys_recover. rewrite (proj2 (Nat.ltb_ge _ _)) by done.
  rewrite (proj2 (recover_loop k encrypted shares ∅ (list_to_set (map rel_index shares) ∪ ∅)));
    [|split_and!; try done; apply list.Forall_forall; set_solver].
  cbn [mbind result_bind]. rewrite Hc in HV |- *. rewrite decrypt_opens; [by apply signed_intent_decode_encode|..].
  - rewrite length_map. lia.
  - by rewrite map_map.
  - apply Forall_map. done.
Qed.
End recovery.

(** ** The participants a batch keeps *)

Section kept.
Context `{Sha256} `{Dalek} `{Threshold}.

Lemma admit_fold_start policy l : admit_inv policy l (fold_left (admit_step policy) l (∅, ∅, ∅)).
Proof.
  apply admit_fold_inv; [done|]. split; [apply map_Forall_empty|]. intros ? ? ? ? Hx. by rewrite lookup_empty in Hx.
Qed.

Lemma admit_valid_dom policy l valid nonces receipts :
  fold_left (admit_step policy) l (∅, ∅, ∅) = (valid, nonces, receipts) ->
  NoDup (map (fun s => fa_nonce (es_authorization s)) (passing policy l)) -> NoDup (map es_receipt (passing policy l)) ->
  dom valid = list_to_set (map EncryptedSubmissionV1_participant_id (passing policy l)).
Proof.
  intros EF HN HR. pose proof (admit_fold_start policy l) as HI. rewrite EF in HI. destruct HI as [HF _].
  pose proof (admit_fold_complete _ _ _ _ _ _ _ _ EF HN HR) as HC. rewrite !list.Forall_forall in HC.
  apply set_eq. intros id. rewrite elem_of_dom, elem_of_list_to_set, list_elem_of_In, in_map_iff. split.
  - intros [s Hs]. destruct (HF id s Hs) as (Hid & Hin & Ha & _). exists s. split; [done|].
    apply filter_In. split; [by apply list_elem_of_In|]. apply is_ok_true. exists tt. by apply verify_admission_Ok.
  - intros (s & <- & Hs). apply HC; [|by apply list_elem_of_In]. intros s' _. set_solver.
Qed.

Lemma admit_members_dom policy l valid nonces receipts :
  fold_left (admit_step policy) l (∅, ∅, ∅) = (valid, nonces, receipts) ->
  list_to_set (AdmittedBatch_participant_ids {| ab_members := btree_values valid |}) = dom valid.
Proof.
  intros EF. pose proof (admit_fold_start policy l) as HI. rewrite EF in HI. destruct HI as [HF _].
  unfold AdmittedBatch_participant_ids, btree_values. cbn [ab_members]. rewrite map_map. apply set_eq. intros id.
  rewrite elem_of_list_to_set, elem_of_dom, list_elem_of_In, in_map_iff. split.
  - intros ([k s] & <- & Hin). apply list_elem_of_In, btree_list_elem in Hin. destruct (HF k s Hin) as [E _].
    cbn. unfold EncryptedSubmissionV1_participant_id. rewrite E. eauto.
  - intros [s Hs]. exists (id, s). split; [|by apply list_elem_of_In, btree_list_elem].
    by destruct (HF id s Hs) as [E _].
Qed.
End kept.
