(* ===== verification/Dealer.v ===== *)
(** * The dealer of an epoch (crates/kageb-host/src/crypto.rs, lines 621 to 658)

    The key set that the demonstration deals to the keypers.  [SecretKeySet] is library code and
    stands as a class with the laws the crate documents. *)

From S2P Require Import Prelude Bytes Extern Domain HostExtern HostCrypto HostCryptoProps.

(** [threshold_crypto::SecretKeySet]; [secrets_try_random] takes the seed of the generator. *)
Class SecretSets `{Threshold} : Type := {
  SecretKeySet : Type;
  secrets_try_random : nat -> bytes32 -> option SecretKeySet;
  secrets_public_keys : SecretKeySet -> PublicKeySet;
  secrets_share : SecretKeySet -> Z -> SecretKeyShare;
}.

(** The set has the threshold it was asked for, and its shares are the ones its public half names. *)
Class SecretSetsLaws `{SecretSets} : Prop := {
  secrets_threshold t seed s : secrets_try_random t seed = Some s -> keys_threshold (secrets_public_keys s) = t;
  secrets_share_public s i : keys_public_share (secrets_public_keys s) i = secret_public_share (secrets_share s i);
}.

Section dealer.
Context `{Sha256} `{Dalek} `{Threshold} `{!SecretSets}.

Record EpochDealer : Type := { ed_secrets : SecretKeySet; ed_public : EpochPublicKeys }.

(** [entropy] is the draw of [getrandom]. *)
Definition EpochDealer_random (entropy : option bytes32) : result CryptoError EpochDealer :=
  seed ← ok_or CryptoError.EntropyUnavailable entropy;
  secrets ← ok_or CryptoError.EntropyUnavailable (secrets_try_random 1 seed);
  Ok {| ed_secrets := secrets; ed_public := {| ek_keys := secrets_public_keys secrets |} |}.

Definition EpochDealer_public_keys (d : EpochDealer) : EpochPublicKeys := ed_public d.

Definition EpochDealer_share (d : EpochDealer) (epoch_account : bytes32) (index : Z) : KeyperSecretShare :=
  {| ks_epoch_account := epoch_account; ks_index := index; ks_secret := secrets_share (ed_secrets d) index |}.

Lemma dealt_threshold `{!SecretSetsLaws} entropy d :
  EpochDealer_random entropy = Ok d ->
  ed_public d = {| ek_keys := secrets_public_keys (ed_secrets d) |} /\ keys_threshold (ek_keys (ed_public d)) = 1.
Proof.
  unfold EpochDealer_random. intros E. apply bind_Ok in E as (seed & _ & E). apply bind_Ok in E as (s & Hs%ok_or_Ok & E).
  apply Ok_inj in E as <-. split; [done|]. by eapply secrets_threshold.
Qed.

(** A dealt share answers every ciphertext that decodes, and the set's public half confirms the answer. *)
Lemma dealt_share_releases `{!ThresholdLaws} `{!SecretSetsLaws} entropy d epoch digest index ciphertext encrypted :
  EpochDealer_random entropy = Ok d -> decode_ciphertext ciphertext = Ok encrypted ->
  exists share, KeyperSecretShare_release (EpochDealer_share d epoch index) epoch digest ciphertext = Ok share /\
    rel_index share = index /\ rel_epoch_account share = epoch /\ rel_lock_digest share = digest /\
    rel_ciphertext_hash share = sha256 ciphertext /\ share_verifies (ed_public d) (ei_ciphertext encrypted) share.
Proof.
  intros [Hp _]%dealt_threshold Hd. assert (ciphertext_verify (ei_ciphertext encrypted) = true) as Hv.
  { unfold decode_ciphertext in Hd. apply guard_Ok in Hd as [_ Hd]. apply bind_Ok in Hd as (c & _ & Hd). apply guard_Ok in Hd as [G Hd].
    apply Ok_inj in Hd as <-. by apply negb_false_iff in G. }
  destruct (decrypt_share_answers (secrets_share (ed_secrets d) index) _ Hv) as [x Hx].
  unfold KeyperSecretShare_release. rewrite Hd. cbn [mbind result_bind EpochDealer_share ks_secret ks_index]. rewrite Hx.
  eexists. split; [done|]. cbn [rel_index rel_epoch_account rel_lock_digest rel_ciphertext_hash]. split_and!; try done.
  unfold share_verifies. cbn [rel_index rel_share]. rewrite Hp. cbn [ek_keys].
  by apply decrypt_share_verifies with (secrets_share (ed_secrets d) index); [apply secrets_share_public|..].
Qed.
End dealer.
