(* ===== verification/LockJournal.v ===== *)
(** * The keyper's lock journal (crates/kageb-host/src/lock.rs)

    A durable table from epoch account to the one lock digest a keyper may sign for it, and a
    marker file that keeps a lost journal from being taken for a fresh one.  Disk and handle are
    separate: several handles, one after the other or at once, work on the same two files. *)

From S2P Require Import Prelude Bytes Extern BTree Storage.

Module LockValidationError.
Inductive t : Type :=
| InvalidBalance
| InvalidSnapshot
| InvalidConfiguration
| InvalidSubmission
| DuplicateParticipant
| DuplicateAuthorization
| DuplicateReceipt
| MemberCountMismatch
| MemberLimitExceeded
| CrowdBelowMinimum
| MemberRootMismatch
| DeadlinePassed
| WrongKeyper
| ConflictingLock
| CorruptJournal
| JournalBusy
| Io (kind : ErrorKind)
| Rpc
| MissingAccount
| InvalidOnchainEpoch
| InvalidOnchainLock.
End LockValidationError.
Abbreviation LockValidationError := LockValidationError.t.
Global Instance LockValidationError_eq_dec : EqDecision LockValidationError.
Proof. solve_decision. Defined.

Definition LOCK_JOURNAL_HEADER : list byte := Eval vm_compute in bstr0 "KGBLCK1".
Definition JOURNAL_INITIALIZED : list byte := Eval vm_compute in bstr0 "KGBINI1".
Definition LOCK_RECORD_LEN : nat := 64.

Abbreviation LockRecords := (gmap Pubkey bytes32).

(** The journal file and [initialized_path]. *)
Record LockDisk : Type := { ld_journal : option (list byte); ld_marker : option (list byte) }.

(** A handle: its copy of the records. *)
Record LockJournal : Type := { lj_records : LockRecords }.

(** Creating a file that must not exist: done, not created, or created with only a first part
    of its content before the error. *)
Inductive CreateOutcome : Type := Created | NotCreated (e : ErrorKind) | Incomplete (written : nat) (e : ErrorKind).

(** What the system calls of one operation did: those on the lock file and the journal, those
    on the marker. *)
Record LockIo : Type := { li_journal : Io; li_marker : Io; li_create_marker : CreateOutcome }.

Definition lock_io_fine : LockIo := {| li_journal := io_fine; li_marker := io_fine; li_create_marker := Created |}.

Fixpoint journal_lock_loop (try_lock : nat -> option ErrorKind) (attempt remaining : nat)
  : result LockValidationError unit :=
  match remaining with
  | O => Err LockValidationError.JournalBusy
  | S remaining =>
      match try_lock attempt with
      | None => Ok tt
      | Some WouldBlock => journal_lock_loop try_lock (S attempt) remaining
      | Some error => Err (LockValidationError.Io error)
      end
  end.

Definition JournalFileLock_acquire (io : LockIo) : result LockValidationError unit :=
  match io_open_lock (li_journal io) with
  | Some error => Err (LockValidationError.Io error)
  | None => journal_lock_loop (io_try_lock (li_journal io)) 0 LOCK_ATTEMPTS
  end.

(** [OpenOptions::create_new]: an existing file is an error and stays as it is. *)
Definition create_new (outcome : CreateOutcome) (file : option (list byte)) (bytes : list byte)
  : option (list byte) * result ErrorKind unit :=
  match file with
  | Some _ => (file, Err (OtherKind 17))
  | None =>
      match outcome with
      | Created => (Some bytes, Ok tt)
      | NotCreated error => (None, Err error)
      | Incomplete written error => (Some (take written bytes), Err error)
      end
  end.

(** One record: the epoch account, then the digest. *)
Definition lock_entry (record : list byte) : result LockValidationError (Pubkey * bytes32) :=
  epoch ← ok_or LockValidationError.CorruptJournal (try_into 32 (slice 0 32 record));
  digest ← ok_or LockValidationError.CorruptJournal (try_into 32 (slice 32 64 record));
  Ok (epoch, digest).

Definition lock_entry_encode (entry : Pubkey * bytes32) : list byte :=
  (fst entry : list byte) ++ (snd entry : list byte).

Definition with_journal (disk : LockDisk) (file : option (list byte)) : LockDisk :=
  {| ld_journal := file; ld_marker := ld_marker disk |}.
Definition with_marker (disk : LockDisk) (file : option (list byte)) : LockDisk :=
  {| ld_journal := ld_journal disk; ld_marker := file |}.

Section journal.
Context `{Sha256}.

(** The bytes [persist_journal] writes. *)
Definition encode_lock_journal (records : LockRecords) : list byte :=
  with_checksum (LOCK_JOURNAL_HEADER ++ le_bytes 4 (Z.of_nat (size records)) ++ table_bytes lock_entry_encode records).

Definition decode_lock_journal (bytes : list byte) : result LockValidationError LockRecords :=
  if (length bytes <? length LOCK_JOURNAL_HEADER + 4 + CHECKSUM_LEN) || (slice 0 8 bytes != LOCK_JOURNAL_HEADER)
  then Err LockValidationError.CorruptJournal else
  if negb (checksum_ok bytes) then Err LockValidationError.CorruptJournal else
  let count := le_val (slice 8 12 bytes) in
  size ← ok_or LockValidationError.CorruptJournal (checked_mul_u64 count (Z.of_nat LOCK_RECORD_LEN));
  expected ← ok_or LockValidationError.CorruptJournal
    (value ← checked_add_u64 12 size; checked_add_u64 value (Z.of_nat CHECKSUM_LEN));
  if Z.of_nat (length bytes) != expected then Err LockValidationError.CorruptJournal else
  load_table LockValidationError.CorruptJournal lock_entry LOCK_RECORD_LEN (Z.to_nat count) 12 bytes ∅.

Definition load_journal (io : LockIo) (disk : LockDisk) : result LockValidationError LockRecords :=
  bytes ← map_err LockValidationError.Io (read_file (li_journal io) (ld_journal disk));
  decode_lock_journal bytes.

Definition persist_journal (io : LockIo) (disk : LockDisk) (records : LockRecords)
  : LockDisk * result LockValidationError unit :=
  match checked_u32 (Z.of_nat (size records)) with
  | None => (disk, Err LockValidationError.CorruptJournal)
  | Some _ =>
      let '(file, out) := replace_file (li_journal io) (ld_journal disk) (encode_lock_journal records) in
      (with_journal disk file, map_err LockValidationError.Io out)
  end.

Definition initialization_marker : list byte := with_checksum JOURNAL_INITIALIZED.

Definition persist_initialization_marker (io : LockIo) (disk : LockDisk) : LockDisk * result LockValidationError unit :=
  let '(file, out) := create_new (li_create_marker io) (ld_marker disk) initialization_marker in
  (with_marker disk file, map_err LockValidationError.Io out).

Definition validate_initialization_marker (io : LockIo) (disk : LockDisk) : result LockValidationError unit :=
  bytes ← map_err LockValidationError.Io (read_file (li_marker io) (ld_marker disk));
  if (length bytes != length JOURNAL_INITIALIZED + CHECKSUM_LEN)
     || (slice 0 (length JOURNAL_INITIALIZED) bytes != JOURNAL_INITIALIZED)
     || (arr_list (sha256 (slice 0 (length JOURNAL_INITIALIZED) bytes)) != slice_from (length JOURNAL_INITIALIZED) bytes)
  then Err LockValidationError.CorruptJournal else Ok tt.

(** The [match] of [open] on which of the two files exist. *)
Definition open_files (io : LockIo) (disk : LockDisk) : LockDisk * result LockValidationError unit :=
  match path_exists (li_journal io) (ld_journal disk), path_exists (li_marker io) (ld_marker disk) with
  | false, false =>
      let '(disk, out) := persist_initialization_marker io disk in
      _ ←[disk] out; persist_journal io disk ∅
  | true, true => (disk, validate_initialization_marker io disk)
  | false, true | true, false => (disk, Err LockValidationError.CorruptJournal)
  end.

Definition LockJournal_open (io : LockIo) (disk : LockDisk) : LockDisk * result LockValidationError LockJournal :=
  _ ←[disk] JournalFileLock_acquire io;
  let '(disk, out) := open_files io disk in
  _ ←[disk] out;
  records ←[disk] load_journal io disk;
  (disk, Ok {| lj_records := records |}).

Definition LockJournal_digest (journal : LockJournal) (epoch : Pubkey) : option bytes32 := lj_records journal !! epoch.

Definition LockJournal_record (io : LockIo) (disk : LockDisk) (journal : LockJournal) (epoch : Pubkey) (digest : bytes32)
  : LockDisk * LockJournal * result LockValidationError unit :=
  _ ←[(disk, journal)] JournalFileLock_acquire io;
  if negb (path_exists (li_journal io) (ld_journal disk))
  then (disk, journal, Err LockValidationError.CorruptJournal) else
  records ←[(disk, journal)] load_journal io disk;
  match records !! epoch with
  | Some existing =>
      if existing == digest then (disk, {| lj_records := records |}, Ok tt)
      else (disk, journal, Err LockValidationError.ConflictingLock)
  | None =>
      let records := <[epoch := digest]> records in
      let '(disk, out) := persist_journal io disk records in
      _ ←[(disk, journal)] out;
      (disk, {| lj_records := records |}, Ok tt)
  end.
End journal.
