(* ===== verification/LockJournalProps.v ===== *)
(** * Properties of the lock journal

    The file codec, and what one call of [open] and of [record] can do to the two files, whatever
    the system calls do. *)

From S2P Require Import Prelude Bytes Extern BTree Storage LockJournal.

Lemma lock_entry_length e : length (lock_entry_encode e) = 64.
Proof. unfold lock_entry_encode. by rewrite length_app, !length_arr. Qed.

Lemma lock_entry_round_trip e : lock_entry (lock_entry_encode e) = Ok e.
Proof.
  destruct e as [k d]. unfold lock_entry, lock_entry_encode. cbn [fst snd].
  rewrite slice_hit by apply length_arr. rewrite slice_skip by (rewrite length_arr; lia).
  rewrite length_arr, slice_hit_nil by apply length_arr. by rewrite !try_into_arr.
Qed.

(** A table the journal can hold. *)
Definition lock_table_ok (m : LockRecords) : Prop := (Z.of_nat (size m) < 2 ^ 32)%Z.

Section props.
Context `{Sha256}.

Lemma encode_lock_journal_split m :
  exists sum : bytes32, encode_lock_journal m =
    (LOCK_JOURNAL_HEADER ++ le_bytes 4 (Z.of_nat (size m))) ++ table_bytes lock_entry_encode m ++ (sum : list byte).
Proof. eexists. unfold encode_lock_journal, with_checksum. rewrite <- !app_assoc. reflexivity. Qed.

Lemma decode_encode_lock_journal m : lock_table_ok m -> decode_lock_journal (encode_lock_journal m) = Ok m.
Proof.
  unfold lock_table_ok. intros Hs. unfold decode_lock_journal, LOCK_RECORD_LEN, CHECKSUM_LEN.
  assert (checksum_ok (encode_lock_journal m) = true) as -> by apply with_checksum_ok.
  assert (u32_ok (Z.of_nat (size m))) as Hu by (unfold u32_ok; lia).
  destruct (encode_lock_journal_split m) as (sum & ->). change (length LOCK_JOURNAL_HEADER) with 8.
  pose proof (table_header LOCK_JOURNAL_HEADER (table_bytes lock_entry_encode m ++ (sum : list byte)) _ eq_refl Hu) as HH.
  cbn zeta in HH. destruct HH as (E1 & E2 & E3). change (slice 0 8 ?b) with (take 8 b).
  rewrite E1, E2, E3, length_app, (table_bytes_length 64), length_arr by (intros ???; apply lock_entry_length).
  rewrite bool_decide_eq_true_2, (proj2 (Nat.ltb_ge _ _)) by (done || lia). cbn [negb orb]. cbn zeta.
  unfold u32_ok in Hu. run_checked. cbn [ok_or mbind result_bind option_bind]. run_checked. cbn [ok_or mbind result_bind].
  rewrite bool_decide_eq_true_2 by lia. cbn [negb]. rewrite Nat2Z.id.
  apply load_table_bytes; [|done | by rewrite length_app, length_le_bytes].
  intros k d _. split; [apply lock_entry_length | apply lock_entry_round_trip].
Qed.

Lemma decode_lock_journal_ok bytes m : decode_lock_journal bytes = Ok m -> lock_table_ok m.
Proof.
  unfold decode_lock_journal, LOCK_RECORD_LEN, CHECKSUM_LEN, lock_table_ok. change (length LOCK_JOURNAL_HEADER) with 8.
  intros HD. inv_ok. bguard. assert (u32_ok (le_val (slice 8 12 bytes))) as Hu by (apply u32_slice_ok; lia).
  apply load_table_size in HD. rewrite map_size_empty, Nat.add_0_r in HD. unfold u32_ok in Hu. lia.
Qed.

(** The two files of an initialised journal that holds these records. *)
Definition keeps (disk : LockDisk) (m : LockRecords) : Prop :=
  is_Some (ld_marker disk) /\ exists bytes, ld_journal disk = Some bytes /\ decode_lock_journal bytes = Ok m.

Lemma load_journal_Ok io disk m :
  load_journal io disk = Ok m <->
  io_read (li_journal io) = None /\ exists bytes, ld_journal disk = Some bytes /\ decode_lock_journal bytes = Ok m.
Proof.
  unfold load_journal, read_file. destruct (io_read (li_journal io)), (ld_journal disk) as [b|]; cbn; naive_solver.
Qed.

Lemma keeps_load io disk m m' : keeps disk m -> load_journal io disk = Ok m' -> m' = m.
Proof. intros (_ & b & Hb & Hd) (_ & b' & Hb' & Hd')%load_journal_Ok. congruence. Qed.

(** A persisted table is read back. *)
Lemma keeps_persisted disk m : is_Some (ld_marker disk) -> lock_table_ok m ->
  keeps (with_journal disk (Some (encode_lock_journal m))) m.
Proof. intros Hk Hm. split; [done|]. eexists. split; [done|]. by apply decode_encode_lock_journal. Qed.

(** On an initialised journal [open] changes nothing, and hands out exactly its records. *)
Lemma open_cases io disk m disk' out :
  keeps disk m -> LockJournal_open io disk = (disk', out) ->
  disk' = disk /\ forall j, out = Ok j -> lj_records j = m.
Proof.
  intros HK. unfold LockJournal_open, open_files.
  destruct (JournalFileLock_acquire io); [|naive_solver].
  destruct (path_exists _ _) eqn:?, (path_exists (li_marker io) _) eqn:?; cbn; try naive_solver.
  - destruct (validate_initialization_marker io disk); [|naive_solver].
    destruct (load_journal io disk) as [m'|] eqn:EL; [|naive_solver].
    intros [= <- <-]. split; [done|]. intros j [= <-]. by apply (keeps_load io disk).
  - unfold persist_initialization_marker, create_new. destruct HK as [[b Hb] HK]. rewrite Hb. cbn.
    intros [= <- <-]. split; [|done]. unfold with_marker. rewrite <- Hb. by destruct disk.
Qed.

(** A handle is only ever given out on an initialised journal. *)
Lemma open_Ok io disk disk' j :
  LockJournal_open io disk = (disk', Ok j) -> keeps disk' (lj_records j).
Proof.
  unfold LockJournal_open. destruct (JournalFileLock_acquire io); [|done].
  destruct (open_files io disk) as [d [[]|]] eqn:EO; [|done]. destruct (load_journal io d) as [m|] eqn:EL; [|done].
  intros [= <- <-]. apply load_journal_Ok in EL as [_ EL]. split; [|exact EL].
  unfold open_files, path_exists in EO.
  destruct (io_metadata (li_journal io)), (io_metadata (li_marker io)), (ld_journal disk), (ld_marker disk) as [k|] eqn:Ek;
    try done; try (injection EO as <-; rewrite Ek; done);
    unfold persist_initialization_marker, create_new in EO; rewrite Ek in EO; try done;
    destruct (li_create_marker io); try done; cbn in EO; unfold persist_journal in EO;
    destruct (checked_u32 _); try done; unfold replace_file in EO; destruct (io_write _); try done;
    cbn in EO; by injection EO as <-.
Qed.

Lemma checked_size_ok (m : LockRecords) n : checked_u32 (Z.of_nat (size m)) = Some n -> lock_table_ok m.
Proof. intros [_ HU]%checked_u32_Some. unfold u32_ok in HU. unfold lock_table_ok. lia. Qed.

(** One call of [record] on an initialised journal: the records stay, or the new digest is added
    for an epoch that had none; success means the epoch is bound to exactly this digest and the
    handle holds what the file holds. *)
Lemma record_cases io disk j e d m disk' j' out :
  keeps disk m -> LockJournal_record io disk j e d = (disk', j', out) ->
  exists m', keeps disk' m' /\ (m' = m \/ m !! e = None /\ m' = <[e := d]> m) /\
    (j' = j \/ lj_records j' = m') /\ (out = Ok tt -> m' !! e = Some d /\ lj_records j' = m').
Proof.
  intros HK. unfold LockJournal_record. destruct (JournalFileLock_acquire io); [|intros [= <- <- <-]; exists m; naive_solver].
  destruct (path_exists _ _); cbn [negb]; [|intros [= <- <- <-]; exists m; naive_solver].
  destruct (load_journal io disk) as [r|] eqn:EL; [|intros [= <- <- <-]; exists m; naive_solver].
  apply (keeps_load _ _ _ _ HK) in EL as ->. destruct (m !! e) as [x|] eqn:Ex.
  - destruct (bool_decide_reflect (x = d)) as [->|]; intros [= <- <- <-]; exists m; naive_solver.
  - unfold persist_journal. destruct (checked_u32 _) eqn:EC; [|intros [= <- <- <-]; exists m; naive_solver].
    assert (lock_table_ok (<[e := d]> m)) as Hok by (by eapply checked_size_ok).
    assert (keeps (with_journal disk (Some (encode_lock_journal (<[e := d]> m)))) (<[e := d]> m)) as HN
      by (apply keeps_persisted; [apply HK | done]).
    unfold replace_file. destruct (io_write _); cbn; intros [= <- <- <-];
      [exists (<[e := d]> m) | exists m | exists (<[e := d]> m)]; split_and!; try done; try naive_solver.
    intros _. by rewrite lookup_insert_eq.
Qed.
End props.
