(* ===== verification/Lock.v ===== *)
(** * Lock packages, keyper approvals and confirmed chain reads (crates/kageb-host/src/lock.rs)

    What a keyper checks before it signs a lock, what it checks again before it releases a
    decryption share, and the capabilities that stand for confirmed reads of the chain. *)

From S2P Require Import Prelude Bytes Extern ProgramWire ProgramState ProgramInstruction BTree Ledger Commitment.
From S2P Require Import Storage Reservation HostExtern HostCrypto Account LockJournal.

Definition SNAPSHOT_DOMAIN : list byte := Eval vm_compute in bstr0 "KAGEB_BALANCE_SNAPSHOT_V1".
Definition MAX_BATCH_MEMBERS : nat := 64.
Definition MAX_EPOCH_PUBLIC_KEYS_LEN : nat := 1024.

Global Instance EpochConfigurationV1_eq_dec : EqDecision EpochConfigurationV1.
Proof. solve_decision. Defined.

(** [usize] addition and multiplication. *)
Definition checked_add_usize (a b : nat) : option nat := Z.to_nat <$> checked_add_u64 (Z.of_nat a) (Z.of_nat b).
Definition checked_mul_usize (a b : nat) : option nat := Z.to_nat <$> checked_mul_u64 (Z.of_nat a) (Z.of_nat b).

(** [i64::saturating_sub] *)
Definition saturating_sub_i64 (a b : Z) : Z := Z.min (2 ^ 63 - 1) (Z.max (- 2 ^ 63) (a - b)).

(** [chunks_exact] over a slice of [n] whole chunks. *)
Fixpoint chunks (width n : nat) (bytes : list byte) : list (list byte) :=
  match n with
  | O => []
  | S n => take width bytes :: chunks width n (drop width bytes)
  end.

(** ** Balance records *)

Record BalanceRecordV1 : Type := {
  br_participant_id : bytes32;
  br_base_atoms : Z;
  br_quote_atoms : Z;
  br_reserved_base_atoms : Z;
  br_reserved_quote_atoms : Z;
}.

Definition BalanceRecordV1_new (participant_id : bytes32) (base_atoms quote_atoms reserved_base_atoms reserved_quote_atoms : Z)
  : result LockValidationError BalanceRecordV1 :=
  if (participant_id == zero32) || (reserved_base_atoms == 0%Z) || (reserved_quote_atoms == 0%Z)
     || (base_atoms <? reserved_base_atoms)%Z || (quote_atoms <? reserved_quote_atoms)%Z
  then Err LockValidationError.InvalidBalance else
  Ok {| br_participant_id := participant_id; br_base_atoms := base_atoms; br_quote_atoms := quote_atoms;
        br_reserved_base_atoms := reserved_base_atoms; br_reserved_quote_atoms := reserved_quote_atoms |}.

Definition BalanceRecordV1_encode (b : BalanceRecordV1) : list byte :=
  let bytes := zeros 64 in
  let bytes := put_at 0 (br_participant_id b) bytes in
  let bytes := put_at 32 (le_bytes 8 (br_base_atoms b)) bytes in
  let bytes := put_at 40 (le_bytes 8 (br_quote_atoms b)) bytes in
  let bytes := put_at 48 (le_bytes 8 (br_reserved_base_atoms b)) bytes in
  let bytes := put_at 56 (le_bytes 8 (br_reserved_quote_atoms b)) bytes in
  bytes.

Definition BalanceRecordV1_decode (bytes : list byte) : result LockValidationError BalanceRecordV1 :=
  if length bytes != 64 then Err LockValidationError.InvalidBalance else
  participant_id ← ok_or LockValidationError.InvalidBalance (try_into 32 (slice 0 32 bytes));
  BalanceRecordV1_new participant_id (le_val (slice 32 40 bytes)) (le_val (slice 40 48 bytes))
    (le_val (slice 48 56 bytes)) (le_val (slice 56 64 bytes)).

Definition BalanceRecordV1_pool_balance (b : BalanceRecordV1) : PoolBalance :=
  {| base_atoms := br_base_atoms b; quote_atoms := br_quote_atoms b |}.

(** ** Signed snapshots *)

Record SignedBalanceSnapshotV1 : Type := {
  bs_epoch_id : bytes32;
  bs_record_count : Z;
  bs_balance_root : bytes32;
  bs_operator_key : bytes32;
  bs_signature : arr 64;
}.

Definition snapshot_message (epoch_id : bytes32) (count : Z) (root : bytes32) : list byte :=
  SNAPSHOT_DOMAIN ++ (epoch_id : list byte) ++ le_bytes 4 count ++ (root : list byte).

Definition SignedBalanceSnapshotV1_encode (s : SignedBalanceSnapshotV1) : list byte :=
  let bytes := zeros 164 in
  let bytes := put_at 0 (bs_epoch_id s) bytes in
  let bytes := put_at 32 (le_bytes 4 (bs_record_count s)) bytes in
  let bytes := put_at 36 (bs_balance_root s) bytes in
  let bytes := put_at 68 (bs_operator_key s) bytes in
  let bytes := put_at 100 (bs_signature s) bytes in
  bytes.

Definition SignedBalanceSnapshotV1_decode (bytes : list byte) : result LockValidationError SignedBalanceSnapshotV1 :=
  if length bytes != 164 then Err LockValidationError.InvalidSnapshot else
  epoch_id ← ok_or LockValidationError.InvalidSnapshot (try_into 32 (slice 0 32 bytes));
  let record_count := le_val (slice 32 36 bytes) in
  balance_root ← ok_or LockValidationError.InvalidSnapshot (try_into 32 (slice 36 68 bytes));
  operator_key ← ok_or LockValidationError.InvalidSnapshot (try_into 32 (slice 68 100 bytes));
  signature ← ok_or LockValidationError.InvalidSnapshot (try_into 64 (slice 100 164 bytes));
  Ok {| bs_epoch_id := epoch_id; bs_record_count := record_count; bs_balance_root := balance_root;
        bs_operator_key := operator_key; bs_signature := signature |}.

(** ** Capabilities *)

Record ConfirmedOpenEpoch : Type := {
  co_epoch_account : Pubkey;
  co_configuration : EpochConfigurationV1;
  co_policy : AdmissionPolicyV1;
  co_current_timestamp : Z;
  co_confirmation_slot : Z;
}.

Record ConfirmedLock : Type := {
  cl_epoch_account : Pubkey;
  cl_state : EpochStateV1;
  cl_pool : option PoolStateV1;
  cl_confirmation_slot : Z;
}.
Definition ConfirmedLock_lock_digest (c : ConfirmedLock) : bytes32 := ep_lock_digest (cl_state c).
Definition ConfirmedLock_member_root (c : ConfirmedLock) : bytes32 := ep_member_root (cl_state c).

(** The configuration a confirmed epoch and its pool describe. *)
Definition confirmed_configuration (state : EpochStateV1) (pool : PoolStateV1) : EpochConfigurationV1 :=
  {| cfg_pool := ep_pool state; cfg_epoch_id := ep_epoch_id state; cfg_base_mint := pl_base_mint pool;
     cfg_quote_mint := pl_quote_mint pool; cfg_base_lot_atoms := pl_base_lot_atoms pool;
     cfg_quote_atoms_per_lot := ep_quote_atoms_per_lot state; cfg_minimum_count := ep_minimum_count state;
     cfg_lock_threshold := pl_lock_threshold pool; cfg_settlement_threshold := pl_settlement_threshold pool;
     cfg_keypers := pl_keypers pool; cfg_lock_deadline := ep_lock_deadline state;
     cfg_abort_deadline := ep_abort_deadline state |}.

Section package.
Context `{Sha256} `{Dalek} `{Threshold}.

Definition member_root (public_keys : EpochPublicKeys) (submissions : list EncryptedSubmissionV1)
  : result LockValidationError bytes32 :=
  leaf ← map_err (fun _ => LockValidationError.InvalidConfiguration) (EpochPublicKeys_commitment_leaf public_keys);
  let leaves := leaf :: map EncryptedSubmissionV1_commitment_bytes submissions in
  map_err (fun _ => LockValidationError.InvalidSubmission) (content_root MemberSet leaves).

Definition balance_root (records : list BalanceRecordV1) : result LockValidationError bytes32 :=
  map_err (fun _ => LockValidationError.InvalidBalance) (content_root BalanceSet (map BalanceRecordV1_encode records)).

Definition SignedBalanceSnapshotV1_sign (epoch_id : bytes32) (records : list BalanceRecordV1) (operator : SigningKey)
  : result LockValidationError SignedBalanceSnapshotV1 :=
  record_count ← ok_or LockValidationError.InvalidSnapshot (checked_u32 (Z.of_nat (length records)));
  root ← balance_root records;
  Ok {| bs_epoch_id := epoch_id; bs_record_count := record_count; bs_balance_root := root;
        bs_operator_key := verifying_key operator;
        bs_signature := dalek_sign operator (snapshot_message epoch_id record_count root) |}.

(** The recomputed root is the last operand of the [||]: its own error shows only when the
    others are false. *)
Definition SignedBalanceSnapshotV1_verify (s : SignedBalanceSnapshotV1) (epoch_id : bytes32)
    (records : list BalanceRecordV1) (operator_key : bytes32) : result LockValidationError unit :=
  count ← ok_or LockValidationError.InvalidSnapshot (checked_u32 (Z.of_nat (length records)));
  if (bs_epoch_id s != epoch_id) || (bs_record_count s != count) || (bs_operator_key s != operator_key)
  then Err LockValidationError.InvalidSnapshot else
  root ← balance_root records;
  if bs_balance_root s != root then Err LockValidationError.InvalidSnapshot else
  if negb (verifying_key_ok (bs_operator_key s)) then Err LockValidationError.InvalidSnapshot else
  if dalek_verify (bs_operator_key s) (snapshot_message (bs_epoch_id s) (bs_record_count s) (bs_balance_root s))
       (bs_signature s)
  then Ok tt else Err LockValidationError.InvalidSnapshot.

Record LockPackageV1 : Type := {
  pk_epoch_account : Pubkey;
  pk_configuration : EpochConfigurationV1;
  pk_epoch_public_keys : EpochPublicKeys;
  pk_submissions : list EncryptedSubmissionV1;
  pk_balances : list BalanceRecordV1;
  pk_balance_snapshot : SignedBalanceSnapshotV1;
  pk_pre_balance_root : bytes32;
  pk_member_root : bytes32;
  pk_member_count : Z;
  pk_lock_nonce : bytes32;
}.

Definition LockPackageV1_new (epoch_account : Pubkey) (configuration : EpochConfigurationV1)
    (epoch_public_keys : EpochPublicKeys) (submissions : list EncryptedSubmissionV1)
    (balances : list BalanceRecordV1) (balance_snapshot : SignedBalanceSnapshotV1) (lock_nonce : bytes32)
  : result LockValidationError LockPackageV1 :=
  if (MAX_BATCH_MEMBERS <? length submissions) || (MAX_BATCH_MEMBERS <? length balances)
  then Err LockValidationError.MemberLimitExceeded else
  member_count ← ok_or LockValidationError.MemberCountMismatch (checked_u32 (Z.of_nat (length submissions)));
  members ← member_root epoch_public_keys submissions;
  pre_balance_root ← balance_root balances;
  Ok {| pk_epoch_account := epoch_account; pk_configuration := configuration;
        pk_epoch_public_keys := epoch_public_keys; pk_submissions := submissions; pk_balances := balances;
        pk_balance_snapshot := balance_snapshot; pk_pre_balance_root := pre_balance_root;
        pk_member_root := members; pk_member_count := member_count; pk_lock_nonce := lock_nonce |}.

Definition LockPackageV1_lock_payload (p : LockPackageV1) : LockPayloadV1 :=
  {| lp_epoch_account := pk_epoch_account p;
     lp_configuration_hash := EpochConfigurationV1_digest (pk_configuration p);
     lp_pre_balance_root := pk_pre_balance_root p; lp_member_root := pk_member_root p;
     lp_member_count := pk_member_count p; lp_lock_deadline := cfg_lock_deadline (pk_configuration p);
     lp_lock_nonce := pk_lock_nonce p |}.

(** One turn of the submission loop of [validate]: participants, nonces and receipts seen. *)
Definition check_submission (policy : AdmissionPolicyV1) (seen : gset bytes32 * gset bytes32 * gset bytes32)
    (submission : EncryptedSubmissionV1) : result LockValidationError (gset bytes32 * gset bytes32 * gset bytes32) :=
  let '(participants, nonces, receipts) := seen in
  map_err (fun _ => LockValidationError.InvalidSubmission) (EncryptedSubmissionV1_verify_admission submission policy) ;;
  let participant_id := fa_participant_id (es_authorization submission) in
  if bool_decide (participant_id ∈ participants) then Err LockValidationError.DuplicateParticipant else
  let nonce := fa_nonce (es_authorization submission) in
  if bool_decide (nonce ∈ nonces) then Err LockValidationError.DuplicateAuthorization else
  if bool_decide (es_receipt submission ∈ receipts) then Err LockValidationError.DuplicateReceipt else
  Ok ({[participant_id]} ∪ participants, {[nonce]} ∪ nonces, {[es_receipt submission]} ∪ receipts).

(** Collecting into a [BTreeMap]: a later record replaces an earlier one. *)
Definition balances_by_participant (balances : list BalanceRecordV1) : gmap bytes32 BalanceRecordV1 :=
  fold_left (fun table balance => <[br_participant_id balance := balance]> table) balances ∅.

Definition check_funding (balances : gmap bytes32 BalanceRecordV1) (submission : EncryptedSubmissionV1)
  : result LockValidationError unit :=
  balance ← ok_or LockValidationError.InvalidBalance (balances !! fa_participant_id (es_authorization submission));
  if (br_reserved_base_atoms balance != fa_base_atoms (es_authorization submission))
     || (br_reserved_quote_atoms balance != fa_quote_atoms (es_authorization submission))
     || (br_base_atoms balance <? br_reserved_base_atoms balance)%Z
     || (br_quote_atoms balance <? br_reserved_quote_atoms balance)%Z
  then Err LockValidationError.InvalidBalance else Ok tt.

(** The first condition of [validate]. *)
Definition configuration_refused (p : LockPackageV1) (confirmed : ConfirmedOpenEpoch) : bool :=
  let configuration := pk_configuration p in
  let '(k0, k1, k2) := cfg_keypers configuration in
  (pk_epoch_account p != co_epoch_account confirmed)
  || (configuration != co_configuration confirmed)
  || (cfg_minimum_count configuration <? 4)%Z
  || (cfg_lock_threshold configuration != 2%Z)
  || (cfg_settlement_threshold configuration != 2%Z)
  || (cfg_pool configuration == zero32)
  || (cfg_base_mint configuration == zero32)
  || (cfg_quote_mint configuration == zero32)
  || (cfg_base_mint configuration == cfg_quote_mint configuration)
  || existsb (fun keyper => keyper == zero32) (keyper_list (cfg_keypers configuration))
  || (k0 == k1) || (k0 == k2) || (k1 == k2)
  || (cfg_abort_deadline configuration <=? cfg_lock_deadline configuration)%Z
  || (pk_lock_nonce p == zero32).

Definition LockPackageV1_validate (p : LockPackageV1) (confirmed : ConfirmedOpenEpoch)
  : result LockValidationError bytes32 :=
  if configuration_refused p confirmed then Err LockValidationError.InvalidConfiguration else
  if (cfg_lock_deadline (pk_configuration p) <=? co_current_timestamp confirmed)%Z
  then Err LockValidationError.DeadlinePassed else
  if (MAX_BATCH_MEMBERS <? length (pk_submissions p)) || (MAX_BATCH_MEMBERS <? length (pk_balances p))
  then Err LockValidationError.MemberLimitExceeded else
  if pk_member_count p != Z.of_nat (length (pk_submissions p)) then Err LockValidationError.MemberCountMismatch else
  if (pk_member_count p <? cfg_minimum_count (pk_configuration p))%Z then Err LockValidationError.CrowdBelowMinimum else
  try_fold (check_submission (co_policy confirmed)) (∅, ∅, ∅) (pk_submissions p) ;;
  members ← member_root (pk_epoch_public_keys p) (pk_submissions p);
  if members != pk_member_root p then Err LockValidationError.MemberRootMismatch else
  SignedBalanceSnapshotV1_verify (pk_balance_snapshot p) (cfg_epoch_id (pk_configuration p)) (pk_balances p)
    (ap_operator_key (co_policy confirmed)) ;;
  root ← balance_root (pk_balances p);
  if root != pk_pre_balance_root p then Err LockValidationError.InvalidBalance else
  if length (pk_balances p) != length (pk_submissions p) then Err LockValidationError.InvalidBalance else
  let balances := balances_by_participant (pk_balances p) in
  if size balances != length (pk_balances p) then Err LockValidationError.InvalidBalance else
  try_each (check_funding balances) (pk_submissions p) ;;
  Ok (LockPayloadV1_digest (LockPackageV1_lock_payload p)).

Definition LockPackageV1_validate_locked (p : LockPackageV1) (confirmed : ConfirmedLock)
  : result LockValidationError bytes32 :=
  pool ← ok_or LockValidationError.InvalidOnchainLock (cl_pool confirmed);
  let configuration := confirmed_configuration (cl_state confirmed) pool in
  if negb (verifying_key_ok (pl_operator pool)) then Err LockValidationError.InvalidOnchainLock else
  policy ← map_err (fun _ => LockValidationError.InvalidOnchainLock)
    (AdmissionPolicyV1_new (cfg_epoch_id configuration) (pl_operator pool)
       (Z.to_nat (cfg_minimum_count configuration)) (cfg_base_lot_atoms configuration)
       (cfg_quote_atoms_per_lot configuration) (cl_confirmation_slot confirmed));
  let open :=
    {| co_epoch_account := cl_epoch_account confirmed; co_configuration := configuration; co_policy := policy;
       co_current_timestamp := saturating_sub_i64 (cfg_lock_deadline configuration) 1;
       co_confirmation_slot := cl_confirmation_slot confirmed |} in
  digest ← LockPackageV1_validate p open;
  if (digest != ep_lock_digest (cl_state confirmed))
     || (pk_pre_balance_root p != ep_pre_balance_root (cl_state confirmed))
     || (pk_member_root p != ep_member_root (cl_state confirmed))
     || (pk_member_count p != ep_member_count (cl_state confirmed))%Z
  then Err LockValidationError.InvalidOnchainLock else Ok digest.

(** ** Wire form of a package *)

Definition WIRE_FIXED_PREFIX : nat := 1 + 32 + EpochConfigurationV1_ENCODED_LEN + 4 + 4.
Definition WIRE_FIXED_SUFFIX : nat := 4 + 164 + 32 + 32 + 4 + 32.

Definition LockPackageV1_encode_wire (p : LockPackageV1) : result LockValidationError (list byte) :=
  if (MAX_BATCH_MEMBERS <? length (pk_submissions p)) || (MAX_BATCH_MEMBERS <? length (pk_balances p))
  then Err LockValidationError.MemberLimitExceeded else
  public_keys ← map_err (fun _ => LockValidationError.InvalidConfiguration)
    (EpochPublicKeys_encode_wire (pk_epoch_public_keys p));
  if MAX_EPOCH_PUBLIC_KEYS_LEN <? length public_keys then Err LockValidationError.InvalidConfiguration else
  public_keys_len ← ok_or LockValidationError.InvalidConfiguration (checked_u32 (Z.of_nat (length public_keys)));
  submission_count ← ok_or LockValidationError.MemberCountMismatch (checked_u32 (Z.of_nat (length (pk_submissions p))));
  balance_count ← ok_or LockValidationError.InvalidBalance (checked_u32 (Z.of_nat (length (pk_balances p))));
  Ok ([byte_of 1] ++ (pk_epoch_account p : list byte)
      ++ EpochConfigurationV1_encode (pk_configuration p)
      ++ le_bytes 4 public_keys_len ++ public_keys
      ++ le_bytes 4 submission_count
      ++ concat (map EncryptedSubmissionV1_encode_wire (pk_submissions p))
      ++ le_bytes 4 balance_count
      ++ concat (map BalanceRecordV1_encode (pk_balances p))
      ++ SignedBalanceSnapshotV1_encode (pk_balance_snapshot p)
      ++ (pk_pre_balance_root p : list byte) ++ (pk_member_root p : list byte)
      ++ le_bytes 4 (pk_member_count p) ++ (pk_lock_nonce p : list byte)).

Definition LockPackageV1_decode_wire (bytes : list byte) : result LockValidationError LockPackageV1 :=
  if (length bytes <? WIRE_FIXED_PREFIX + WIRE_FIXED_SUFFIX) || (u8_at 0 bytes != 1%Z)
  then Err LockValidationError.InvalidSubmission else
  epoch_account ← ok_or LockValidationError.InvalidConfiguration (try_into 32 (slice 1 33 bytes));
  let configuration_end := 33 + EpochConfigurationV1_ENCODED_LEN in
  configuration ← ok_or LockValidationError.InvalidConfiguration
    (EpochConfigurationV1_decode (slice 33 configuration_end bytes));
  let public_keys_len := le_val (slice configuration_end (configuration_end + 4) bytes) in
  if (Z.of_nat MAX_EPOCH_PUBLIC_KEYS_LEN <? public_keys_len)%Z then Err LockValidationError.InvalidConfiguration else
  let public_keys_start := configuration_end + 4 in
  public_keys_end ← ok_or LockValidationError.InvalidConfiguration
    (checked_add_usize public_keys_start (Z.to_nat public_keys_len));
  public_keys ← ok_or LockValidationError.InvalidConfiguration (get_range public_keys_start public_keys_end bytes);
  epoch_public_keys ← map_err (fun _ => LockValidationError.InvalidConfiguration) (EpochPublicKeys_decode_wire public_keys);
  count_end ← ok_or LockValidationError.InvalidSubmission (checked_add_usize public_keys_end 4);
  count_bytes ← ok_or LockValidationError.InvalidSubmission (get_range public_keys_end count_end bytes);
  let submission_count := le_val count_bytes in
  if (Z.of_nat MAX_BATCH_MEMBERS <? submission_count)%Z then Err LockValidationError.MemberLimitExceeded else
  submissions_len ← ok_or LockValidationError.InvalidSubmission
    (checked_mul_usize (Z.to_nat submission_count) ENCRYPTED_SUBMISSION_V1_LEN);
  let submissions_start := count_end in
  submissions_end ← ok_or LockValidationError.InvalidSubmission (checked_add_usize submissions_start submissions_len);
  if length bytes <? submissions_end + WIRE_FIXED_SUFFIX then Err LockValidationError.InvalidSubmission else
  submissions ← try_map
    (fun encoded => map_err (fun _ => LockValidationError.InvalidSubmission) (EncryptedSubmissionV1_decode_wire encoded))
    (chunks ENCRYPTED_SUBMISSION_V1_LEN (Z.to_nat submission_count) (slice submissions_start submissions_end bytes));
  let balance_count := le_val (slice submissions_end (submissions_end + 4) bytes) in
  if (Z.of_nat MAX_BATCH_MEMBERS <? balance_count)%Z then Err LockValidationError.MemberLimitExceeded else
  let balances_start := submissions_end + 4 in
  balances_len ← ok_or LockValidationError.InvalidBalance (checked_mul_usize (Z.to_nat balance_count) 64);
  balances_end ← ok_or LockValidationError.InvalidBalance (checked_add_usize balances_start balances_len);
  expected_len ← ok_or LockValidationError.InvalidSubmission (checked_add_usize balances_end (164 + 32 + 32 + 4 + 32));
  if expected_len != length bytes then Err LockValidationError.InvalidSubmission else
  balances ← try_map BalanceRecordV1_decode (chunks 64 (Z.to_nat balance_count) (slice balances_start balances_end bytes));
  let snapshot_end := balances_end + 164 in
  balance_snapshot ← SignedBalanceSnapshotV1_decode (slice balances_end snapshot_end bytes);
  pre_balance_root ← ok_or LockValidationError.InvalidBalance (try_into 32 (slice snapshot_end (snapshot_end + 32) bytes));
  members ← ok_or LockValidationError.MemberRootMismatch (try_into 32 (slice (snapshot_end + 32) (snapshot_end + 64) bytes));
  let member_count := le_val (slice (snapshot_end + 64) (snapshot_end + 68) bytes) in
  lock_nonce ← ok_or LockValidationError.InvalidConfiguration
    (try_into 32 (slice (snapshot_end + 68) (snapshot_end + 100) bytes));
  Ok {| pk_epoch_account := epoch_account; pk_configuration := configuration;
        pk_epoch_public_keys := epoch_public_keys; pk_submissions := submissions; pk_balances := balances;
        pk_balance_snapshot := balance_snapshot; pk_pre_balance_root := pre_balance_root;
        pk_member_root := members; pk_member_count := member_count; pk_lock_nonce := lock_nonce |}.

(** ** Approvals and released shares *)

Record LockApprovalV1 : Type := { la_keyper_key : bytes32; la_digest : bytes32; la_signature : arr 64 }.

Definition LockApprovalV1_verify (a : LockApprovalV1) : bool :=
  if negb (verifying_key_ok (la_keyper_key a)) then false else
  dalek_verify (la_keyper_key a) (la_digest a) (la_signature a).

Record ReferenceKeyper : Type := { rk_index : Z; rk_signing_key : SigningKey; rk_journal : LockJournal }.

Definition ReferenceKeyper_sign_lock (io : LockIo) (disk : LockDisk) (keyper : ReferenceKeyper)
    (package : LockPackageV1) (confirmed : ConfirmedOpenEpoch) (secret : KeyperSecretShare)
  : LockDisk * ReferenceKeyper * result LockValidationError LockApprovalV1 :=
  configured ←[(disk, keyper)] ok_or LockValidationError.WrongKeyper
    (keyper_list (cfg_keypers (co_configuration confirmed)) !! Z.to_nat (rk_index keyper));
  let keyper_key := verifying_key (rk_signing_key keyper) in
  if (configured != keyper_key) || (ks_index secret != rk_index keyper)
     || (ks_epoch_account secret != pk_epoch_account package)
     || negb (EpochPublicKeys_matches_share (pk_epoch_public_keys package) secret)
  then (disk, keyper, Err LockValidationError.WrongKeyper) else
  digest ←[(disk, keyper)] LockPackageV1_validate package confirmed;
  let '(disk, journal, recorded) := LockJournal_record io disk (rk_journal keyper) (pk_epoch_account package) digest in
  let keyper := {| rk_index := rk_index keyper; rk_signing_key := rk_signing_key keyper; rk_journal := journal |} in
  _ ←[(disk, keyper)] recorded;
  (disk, keyper,
   Ok {| la_keyper_key := keyper_key; la_digest := digest; la_signature := dalek_sign (rk_signing_key keyper) digest |}).

(** [ciphertexts.insert(..)] is false on the second of two equal hashes. *)
Fixpoint repeated_ciphertext (seen : gset bytes32) (submissions : list EncryptedSubmissionV1) : bool :=
  match submissions with
  | [] => false
  | member :: submissions =>
      let hash := sha256 (es_ciphertext member) in
      if bool_decide (hash ∈ seen) then true else repeated_ciphertext ({[hash]} ∪ seen) submissions
  end.

Definition ReferenceKeyper_release_share (keyper : ReferenceKeyper) (package : LockPackageV1)
    (confirmed : ConfirmedLock) (secret : KeyperSecretShare) (member_index : nat)
  : result LockValidationError ReleasedShareV1 :=
  digest ← LockPackageV1_validate_locked package confirmed;
  configured ← ok_or LockValidationError.WrongKeyper
    (pool ← cl_pool confirmed; keyper_list (pl_keypers pool) !! Z.to_nat (rk_index keyper));
  if (configured != verifying_key (rk_signing_key keyper))
     || (LockJournal_digest (rk_journal keyper) (pk_epoch_account package) != Some digest)
     || (rk_index keyper != ks_index secret)
     || (ks_epoch_account secret != pk_epoch_account package)
     || negb (EpochPublicKeys_matches_share (pk_epoch_public_keys package) secret)
  then Err LockValidationError.WrongKeyper else
  submission ← ok_or LockValidationError.InvalidSubmission (pk_submissions package !! member_index);
  if repeated_ciphertext ∅ (pk_submissions package) then Err LockValidationError.InvalidSubmission else
  map_err (fun _ => LockValidationError.InvalidSubmission)
    (KeyperSecretShare_release secret (pk_epoch_account package) (ConfirmedLock_lock_digest confirmed)
       (es_ciphertext submission)).
End package.
