(* ===== verification/LockProps.v ===== *)
(** * Properties of lock packages

    The exact conditions under which a package validates, its wire codec, and what a keyper that
    signs and releases can and cannot do. *)

From S2P Require Import Prelude Bytes Extern ProgramWire ProgramState ProgramInstruction Processor ProcessorProps.
From S2P Require Import BTree Ledger Commitment.
From S2P Require Import Storage Reservation HostExtern HostCrypto HostCryptoProps Account LockJournal LockJournalProps Lock.

(** ** Collecting the balances *)

Section by_participant.
Let add (table : gmap bytes32 BalanceRecordV1) (balance : BalanceRecordV1) := <[br_participant_id balance := balance]> table.

Lemma size_add m b : size (add m b) = if decide (m !! br_participant_id b = None) then S (size m) else size m.
Proof. unfold add. rewrite map_size_insert. by destruct (m !! br_participant_id b), (decide _). Qed.

Lemma fold_add_size l m : size (fold_left add l m) <= size m + length l.
Proof.
  revert m. induction l as [|b l IH]; intros m; cbn [fold_left length]; [lia|].
  specialize (IH (add m b)). rewrite size_add in IH. destruct (decide _); lia.
Qed.

Lemma fresh_add b l m :
  m !! br_participant_id b = None ->
  Forall (fun c => add m b !! br_participant_id c = None) l <->
  (br_participant_id b ∉ map br_participant_id l) /\ Forall (fun c => m !! br_participant_id c = None) l.
Proof.
  intros Hm. rewrite not_elem_of_map, <- list.Forall_and. apply list.Forall_iff. intros c. unfold add.
  rewrite lookup_insert_None. naive_solver.
Qed.

Lemma fold_add_distinct l m :
  size (fold_left add l m) = size m + length l <->
  NoDup (map br_participant_id l) /\ Forall (fun b => m !! br_participant_id b = None) l.
Proof.
  revert m. induction l as [|b l IH]; intros m; cbn [fold_left map length].
  { split; [intros _; split; constructor | lia]. }
  rewrite list.NoDup_cons, Forall_cons_iff. pose proof (fold_add_size l (add m b)) as HS. rewrite size_add in HS.
  specialize (IH (add m b)). rewrite size_add in IH. destruct (decide (m !! br_participant_id b = None)) as [E|E].
  - replace (size m + S (length l)) with (S (size m) + length l) by lia. rewrite IH, fresh_add by done. tauto.
  - split; [lia | tauto].
Qed.

Lemma fold_add_lookup l m k b :
  NoDup (map br_participant_id l) -> Forall (fun b => m !! br_participant_id b = None) l ->
  fold_left add l m !! k = Some b <-> (b ∈ l /\ br_participant_id b = k) \/ m !! k = Some b.
Proof.
  revert m. induction l as [|c l IH]; intros m HN HF; cbn [fold_left map] in *; [set_solver|].
  apply list.NoDup_cons in HN as [Hc HN]. apply Forall_cons_iff in HF as [Hm HF].
  rewrite IH by (rewrite ?fresh_add; done). rewrite elem_of_cons. unfold add.
  destruct (decide (br_participant_id c = k)) as [<-|Hne].
  - rewrite lookup_insert_eq, Hm. naive_solver.
  - rewrite lookup_insert_ne by done. naive_solver.
Qed.
End by_participant.

Lemma balances_distinct l : size (balances_by_participant l) = length l <-> NoDup (map br_participant_id l).
Proof.
  pose proof (fold_add_distinct l ∅) as HD. rewrite map_size_empty in HD. unfold balances_by_participant. rewrite HD.
  split; [tauto|]. intros HN. split; [done|]. apply list.Forall_forall. intros. apply lookup_empty.
Qed.

Lemma balances_lookup l k b :
  NoDup (map br_participant_id l) ->
  balances_by_participant l !! k = Some b <-> b ∈ l /\ br_participant_id b = k.
Proof.
  intros HN. unfold balances_by_participant. rewrite fold_add_lookup, lookup_empty; [naive_solver | done |].
  apply list.Forall_forall. intros. apply lookup_empty.
Qed.

Section valid.
Context `{Sha256} `{Dalek} `{Threshold}.

Lemma check_submission_Ok policy P N R s out :
  check_submission policy (P, N, R) s = Ok out <->
  admissible policy s /\ (fa_participant_id (es_authorization s) ∉ P) /\ (fa_nonce (es_authorization s) ∉ N) /\
  (es_receipt s ∉ R) /\
  out = ({[fa_participant_id (es_authorization s)]} ∪ P, {[fa_nonce (es_authorization s)]} ∪ N, {[es_receipt s]} ∪ R).
Proof.
  unfold check_submission. rewrite <- (verify_admission_Ok s policy tt).
  destruct (EncryptedSubmissionV1_verify_admission s policy) as [[]|]; cbn [map_err mbind result_bind]; [|naive_solver].
  repeat case_bool_decide; naive_solver.
Qed.

(** The loop accepts exactly admissible submissions with three kinds of identifiers, each without
    repetition and none seen before. *)
Lemma check_submissions_Ok policy l P N R :
  (exists out, try_fold (check_submission policy) (P, N, R) l = Ok out) <->
  Forall (admissible policy) l /\
  NoDup (map EncryptedSubmissionV1_participant_id l) /\ NoDup (map (fun s => fa_nonce (es_authorization s)) l) /\
  NoDup (map es_receipt l) /\
  Forall (fun s => (EncryptedSubmissionV1_participant_id s ∉ P) /\ (fa_nonce (es_authorization s) ∉ N) /\ es_receipt s ∉ R) l.
Proof.
  revert P N R. induction l as [|s l IH]; intros P N R; cbn [try_fold map].
  { split; [intros _; split_and!; constructor | by eexists]. }
  rewrite !Forall_cons_iff, !list.NoDup_cons. split.
  - intros (out & E). apply bind_Ok in E as (seen & Hc & E). apply check_submission_Ok in Hc as (HA & HP & HN & HR & ->).
    destruct (proj1 (IH _ _ _) (ex_intro _ _ E)) as (HF & U1 & U2 & U3 & HX).
    split_and!; try done; try (apply not_elem_of_map); revert HX; apply Forall_impl; intros s';
      unfold EncryptedSubmissionV1_participant_id; clear; set_solver.
  - intros ([HA HF] & [D1 U1] & [D2 U2] & [D3 U3] & (HP & HN & HR) & HX).
    assert (check_submission policy (P, N, R) s = Ok ({[fa_participant_id (es_authorization s)]} ∪ P,
      {[fa_nonce (es_authorization s)]} ∪ N, {[es_receipt s]} ∪ R)) as -> by (apply check_submission_Ok; done).
    cbn [mbind result_bind]. apply IH. split_and!; try done.
    apply not_elem_of_map in D1, D2, D3. rewrite list.Forall_forall in *. intros s' Hin.
    specialize (HX s' Hin). specialize (D1 s' Hin). specialize (D2 s' Hin). specialize (D3 s' Hin). cbn beta in *.
    unfold EncryptedSubmissionV1_participant_id in *. clear -HX D1 D2 D3. set_solver.
Qed.

(** A submission backed by one of the balance records. *)
Definition backed (balances : list BalanceRecordV1) (s : EncryptedSubmissionV1) : Prop :=
  exists b, b ∈ balances /\ br_participant_id b = EncryptedSubmissionV1_participant_id s /\
    br_reserved_base_atoms b = fa_base_atoms (es_authorization s) /\
    br_reserved_quote_atoms b = fa_quote_atoms (es_authorization s) /\
    (br_reserved_base_atoms b <= br_base_atoms b)%Z /\ (br_reserved_quote_atoms b <= br_quote_atoms b)%Z.

Lemma check_funding_Ok l s :
  NoDup (map br_participant_id l) -> check_funding (balances_by_participant l) s = Ok tt <-> backed l s.
Proof.
  intros HN. unfold check_funding, backed. split.
  - intros E. inv_ok. bguard. match goal with T : _ !! _ = Some ?b |- _ => apply balances_lookup in T as [? ?]; [|done]; exists b end.
    split_and!; try done; lia.
  - intros (b & Hb & Hid & Hrb & Hrq & Hlb & Hlq).
    assert (balances_by_participant l !! fa_participant_id (es_authorization s) = Some b) as ->
      by (by apply balances_lookup).
    cbn [ok_or mbind result_bind]. rewrite Hrb, Hrq in *. rewrite !bool_decide_eq_true_2 by done.
    rewrite !(proj2 (Z.ltb_ge _ _)) by lia. done.
Qed.

(** What a keyper requires of a configuration it is asked to lock. *)
Definition configuration_accepted (c : EpochConfigurationV1) : Prop :=
  (4 <= cfg_minimum_count c)%Z /\ cfg_lock_threshold c = 2%Z /\ cfg_settlement_threshold c = 2%Z /\
  cfg_pool c <> zero32 /\ cfg_base_mint c <> zero32 /\ cfg_quote_mint c <> zero32 /\
  cfg_base_mint c <> cfg_quote_mint c /\ (zero32 ∉ keyper_list (cfg_keypers c)) /\
  NoDup (keyper_list (cfg_keypers c)) /\ (cfg_lock_deadline c < cfg_abort_deadline c)%Z.

Lemma configuration_refused_false p confirmed :
  configuration_refused p confirmed = false <->
  pk_epoch_account p = co_epoch_account confirmed /\ pk_configuration p = co_configuration confirmed /\
  configuration_accepted (pk_configuration p) /\ pk_lock_nonce p <> zero32.
Proof.
  unfold configuration_refused, configuration_accepted.
  pose proof (existsb_elem zero32 (keyper_list (cfg_keypers (pk_configuration p)))) as HZ.
  pose proof (three_distinct_NoDup (cfg_keypers (pk_configuration p))) as HD. unfold three_distinct in HD.
  destruct (cfg_keypers (pk_configuration p)) as [[k0 k1] k2].
  rewrite !orb_false_iff, HZ, !neqb_false, !bool_decide_eq_false, Z.ltb_ge, Z.leb_gt.
  rewrite !andb_true_iff, !neqb_true in HD. rewrite <- HD. tauto.
Qed.

(** A package a keyper accepts against a confirmed open epoch. *)
Record package_valid (p : LockPackageV1) (confirmed : ConfirmedOpenEpoch) : Prop := {
  pv_epoch : pk_epoch_account p = co_epoch_account confirmed;
  pv_same_configuration : pk_configuration p = co_configuration confirmed;
  pv_configuration : configuration_accepted (pk_configuration p);
  pv_nonce : pk_lock_nonce p <> zero32;
  pv_in_time : (co_current_timestamp confirmed < cfg_lock_deadline (pk_configuration p))%Z;
  pv_limit : length (pk_submissions p) <= 64;
  pv_count : pk_member_count p = Z.of_nat (length (pk_submissions p));
  pv_crowd : (cfg_minimum_count (pk_configuration p) <= pk_member_count p)%Z;
  pv_admissible : Forall (admissible (co_policy confirmed)) (pk_submissions p);
  pv_participants : NoDup (map EncryptedSubmissionV1_participant_id (pk_submissions p));
  pv_authorizations : NoDup (map (fun s => fa_nonce (es_authorization s)) (pk_submissions p));
  pv_receipts : NoDup (map es_receipt (pk_submissions p));
  pv_members : member_root (pk_epoch_public_keys p) (pk_submissions p) = Ok (pk_member_root p);
  pv_snapshot : SignedBalanceSnapshotV1_verify (pk_balance_snapshot p) (cfg_epoch_id (pk_configuration p))
    (pk_balances p) (ap_operator_key (co_policy confirmed)) = Ok tt;
  pv_root : balance_root (pk_balances p) = Ok (pk_pre_balance_root p);
  pv_balances : length (pk_balances p) = length (pk_submissions p);
  pv_balance_ids : NoDup (map br_participant_id (pk_balances p));
  pv_backed : Forall (backed (pk_balances p)) (pk_submissions p);
}.

Lemma validate_Ok p confirmed d :
  LockPackageV1_validate p confirmed = Ok d <->
  package_valid p confirmed /\ d = LockPayloadV1_digest (LockPackageV1_lock_payload p).
Proof.
  unfold LockPackageV1_validate, MAX_BATCH_MEMBERS. split.
  - intros E. inv_ok. bguard.
    match goal with T : configuration_refused _ _ = false |- _ => apply configuration_refused_false in T as (? & ? & ? & ?) end.
    match goal with T : try_fold _ _ _ = Ok _ |- _ => pose proof (proj1 (check_submissions_Ok _ _ _ _ _) (ex_intro _ _ T)) as (? & ? & ? & ? & _) end.
    match goal with T : size _ = length _ |- _ => apply balances_distinct in T as HN end.
    match goal with T : try_each _ _ = Ok _ |- _ => apply try_each_Ok in T as HB end.
    split; [|done]. split; try done; try lia; try congruence.
    + match goal with T : SignedBalanceSnapshotV1_verify _ _ _ _ = Ok ?u |- _ => by destruct u end.
    + revert HB. apply Forall_impl. intros s. by apply check_funding_Ok.
  - intros [HV ->]. destruct HV as [? ? ? ? ? ? ? ? ? ? ? ? HM HS HR ? ? HB].
    rewrite (proj2 (configuration_refused_false p confirmed)) by done.
    rewrite (proj2 (Z.leb_gt _ _)) by lia. rewrite !(proj2 (Nat.ltb_ge _ _)) by lia. cbn [orb].
    rewrite bool_decide_eq_true_2 by done. cbn [negb]. rewrite (proj2 (Z.ltb_ge _ _)) by lia.
    assert (exists out, try_fold (check_submission (co_policy confirmed)) (∅, ∅, ∅) (pk_submissions p) = Ok out) as [out ->].
    { apply check_submissions_Ok. split_and!; try done. apply list.Forall_forall. intros. clear. set_solver. }
    cbn [mbind result_bind]. rewrite HM. cbn [mbind result_bind].
    rewrite bool_decide_eq_true_2 by done. cbn [negb]. rewrite HS, HR. cbn [mbind result_bind].
    rewrite !bool_decide_eq_true_2 by (try apply balances_distinct; done). cbn [negb].
    rewrite (proj2 (try_each_Ok _ _ tt)); [done|]. revert HB. apply Forall_impl. intros s. by apply check_funding_Ok.
Qed.

(** Validity only depends on the clock through the deadline and the expiry slots. *)
Lemma package_valid_later p c c' :
  package_valid p c -> co_epoch_account c' = co_epoch_account c -> co_configuration c' = co_configuration c ->
  ap_epoch_id (co_policy c') = ap_epoch_id (co_policy c) -> ap_operator_key (co_policy c') = ap_operator_key (co_policy c) ->
  ap_base_atoms (co_policy c') = ap_base_atoms (co_policy c) -> ap_quote_atoms (co_policy c') = ap_quote_atoms (co_policy c) ->
  (co_current_timestamp c' < cfg_lock_deadline (pk_configuration p))%Z ->
  Forall (fun s => (ap_current_slot (co_policy c') <= fa_expiry_slot (es_authorization s))%Z) (pk_submissions p) ->
  package_valid p c'.
Proof.
  intros [? ? ? ? ? ? ? ? HA ? ? ? ? ? ? ? ? ?] Ee Ec E1 E2 E3 E4 Ht HX. split; try done; try congruence.
  rewrite list.Forall_forall in *. intros s Hs. specialize (HA s Hs). specialize (HX s Hs).
  unfold admissible in *. rewrite E1, E2, E3, E4. tauto.
Qed.
End valid.
