(* ===== verification/LockWire.v ===== *)
(** * Codecs of lock packages

    Balance records, snapshots and whole packages are read back from the bytes they encode to. *)

From S2P Require Import Prelude Bytes Extern ProgramWire Storage HostExtern HostCrypto HostCryptoProps LockJournal Lock.

(** ** Balance records *)

Definition balance_wf (b : BalanceRecordV1) : Prop :=
  br_participant_id b <> zero32 /\ br_reserved_base_atoms b <> 0%Z /\ br_reserved_quote_atoms b <> 0%Z /\
  (br_reserved_base_atoms b <= br_base_atoms b)%Z /\ (br_reserved_quote_atoms b <= br_quote_atoms b)%Z /\
  u64_ok (br_base_atoms b) /\ u64_ok (br_quote_atoms b) /\
  u64_ok (br_reserved_base_atoms b) /\ u64_ok (br_reserved_quote_atoms b).

Definition balance_fields (b : BalanceRecordV1) : list (list byte) :=
  [br_participant_id b : list byte; le_bytes 8 (br_base_atoms b); le_bytes 8 (br_quote_atoms b);
   le_bytes 8 (br_reserved_base_atoms b); le_bytes 8 (br_reserved_quote_atoms b)].

Lemma balance_layout b : map length (balance_fields b) = [32; 8; 8; 8; 8].
Proof. cbn [map balance_fields]. by rewrite length_arr, !length_le_bytes. Qed.

Lemma balance_encode_fields b : BalanceRecordV1_encode b = concat (balance_fields b).
Proof. unfold BalanceRecordV1_encode, balance_fields. cbn zeta. cbn [concat]. by fill 64. Qed.

Lemma balance_encode_length b : length (BalanceRecordV1_encode b) = 64.
Proof. unfold BalanceRecordV1_encode. cbn zeta. by rewrite !length_put_at, length_zeros. Qed.

Lemma balance_new_Ok id b q rb rq r :
  BalanceRecordV1_new id b q rb rq = Ok r <->
  (id <> zero32 /\ rb <> 0 /\ rq <> 0 /\ rb <= b /\ rq <= q)%Z /\
  r = {| br_participant_id := id; br_base_atoms := b; br_quote_atoms := q;
         br_reserved_base_atoms := rb; br_reserved_quote_atoms := rq |}.
Proof.
  unfold BalanceRecordV1_new. rewrite guard_Ok, !orb_false_iff, !bool_decide_eq_false, !Z.ltb_ge. naive_solver.
Qed.

Lemma balance_decode_encode b : balance_wf b -> BalanceRecordV1_decode (BalanceRecordV1_encode b) = Ok b.
Proof.
  intros (Hid & Hrb & Hrq & Hb & Hq & U1 & U2 & U3 & U4). unfold BalanceRecordV1_decode.
  rewrite balance_encode_length, balance_encode_fields, bool_decide_eq_true_2 by done. cbn [negb].
  pose proof (balance_layout b) as HL. fields HL. cbn [nth balance_fields]. autorewrite with wire; try done.
  cbn [ok_or mbind result_bind]. apply balance_new_Ok. split; [done|]. by destruct b.
Qed.

Lemma balance_encode_decode bytes b :
  BalanceRecordV1_decode bytes = Ok b -> balance_wf b /\ BalanceRecordV1_encode b = bytes.
Proof.
  unfold BalanceRecordV1_decode. intros E. apply guard_Ok in E as [Hg E]. bguard. inv_ok.
  apply balance_new_Ok in E as [(? & ? & ? & ? & ?) ->]. split.
  - unfold balance_wf. cbn -[slice]. split_and!; try done; apply u64_slice_ok; lia.
  - rewrite balance_encode_fields. unfold balance_fields. cbn -[slice le_bytes concat]. uncut [32; 8; 8; 8; 8].
Qed.

(** ** Snapshots *)

Definition snapshot_fields (s : SignedBalanceSnapshotV1) : list (list byte) :=
  [bs_epoch_id s : list byte; le_bytes 4 (bs_record_count s); bs_balance_root s : list byte;
   bs_operator_key s : list byte; bs_signature s : list byte].

Lemma snapshot_layout s : map length (snapshot_fields s) = [32; 4; 32; 32; 64].
Proof. cbn [map snapshot_fields]. by rewrite !length_arr, length_le_bytes. Qed.

Lemma snapshot_encode_fields s : SignedBalanceSnapshotV1_encode s = concat (snapshot_fields s).
Proof. unfold SignedBalanceSnapshotV1_encode, snapshot_fields. cbn zeta. cbn [concat]. by fill 164. Qed.

Lemma snapshot_encode_length s : length (SignedBalanceSnapshotV1_encode s) = 164.
Proof. unfold SignedBalanceSnapshotV1_encode. cbn zeta. by rewrite !length_put_at, length_zeros. Qed.

Lemma snapshot_decode_encode s :
  u32_ok (bs_record_count s) -> SignedBalanceSnapshotV1_decode (SignedBalanceSnapshotV1_encode s) = Ok s.
Proof.
  intros HC. unfold SignedBalanceSnapshotV1_decode.
  rewrite snapshot_encode_length, snapshot_encode_fields, bool_decide_eq_true_2 by done. cbn [negb].
  pose proof (snapshot_layout s) as HL. fields HL. cbn [nth snapshot_fields]. autorewrite with wire; try done.
  cbn [ok_or mbind result_bind]. by destruct s.
Qed.

Lemma snapshot_encode_decode bytes s :
  SignedBalanceSnapshotV1_decode bytes = Ok s -> u32_ok (bs_record_count s) /\ SignedBalanceSnapshotV1_encode s = bytes.
Proof.
  unfold SignedBalanceSnapshotV1_decode. intros E. apply guard_Ok in E as [Hg E]. bguard. inv_ok. subst s. split.
  - cbn -[slice]. apply u32_slice_ok; lia.
  - rewrite snapshot_encode_fields. unfold snapshot_fields. cbn -[slice le_bytes concat]. uncut [32; 4; 32; 32; 64].
Qed.

(** ** Chunks *)

Lemma chunks_concat {A} (encode : A -> list byte) width l rest :
  Forall (fun x => length (encode x) = width) l ->
  chunks width (length l) (concat (map encode l) ++ rest) = map encode l.
Proof.
  induction l as [|x l IH]; intros HF; cbn [chunks length map concat]; [done|].
  apply Forall_cons_iff in HF as [Hx HF]. rewrite <- app_assoc, take_app_length', drop_app_length' by done.
  f_equal. by apply IH.
Qed.

Lemma concat_length_const {A} (encode : A -> list byte) width l :
  Forall (fun x => length (encode x) = width) l -> length (concat (map encode l)) = length l * width.
Proof. induction 1 as [|x l Hx _ IH]; cbn; [done|]. rewrite length_app, Hx, IH. lia. Qed.

Lemma decode_chunks {E A} (encode : A -> list byte) (decode : list byte -> result E A) width l :
  Forall (fun x => length (encode x) = width) l -> Forall (fun x => decode (encode x) = Ok x) l ->
  try_map decode (chunks width (length l) (concat (map encode l))) = Ok l.
Proof.
  intros HL HD. rewrite <- (app_nil_r (concat _)), chunks_concat by done. apply try_map_Ok.
  induction HD; cbn; constructor; try done. apply IHHD. by apply Forall_inv_tail in HL.
Qed.

Lemma concat_chunks width n bytes : length bytes = n * width -> concat (chunks width n bytes) = bytes.
Proof.
  revert bytes. induction n as [|n IH]; intros bytes Hl; cbn [chunks concat].
  - by destruct bytes.
  - rewrite IH; [apply take_drop|]. rewrite length_drop. lia.
Qed.

Lemma chunks_length width n bytes : length (chunks width n bytes) = n.
Proof. revert bytes. induction n; intros; cbn; [done | by f_equal]. Qed.

(** Decoding a run of chunks, seen from its result. *)
Lemma try_map_chunks {E A} (encode : A -> list byte) (decode : list byte -> result E A) (P : A -> Prop) width n bytes l :
  (forall b x, decode b = Ok x -> P x /\ encode x = b) -> length bytes = n * width ->
  try_map decode (chunks width n bytes) = Ok l ->
  Forall P l /\ length l = n /\ concat (map encode l) = bytes.
Proof.
  intros HD Hl HT. apply try_map_Ok in HT. pose proof (Forall2_length HT) as HL. rewrite chunks_length in HL.
  split_and!; [| done |].
  - clear -HT HD. induction HT; constructor; [by eapply HD | done].
  - rewrite <- (concat_chunks width n bytes Hl). f_equal. clear -HT HD. induction HT; cbn; [done|].
    f_equal; [by eapply HD | done].
Qed.

(** The [k]-th of a run of fields, at the offset its predecessors end. *)
Lemma slice_of_field fs k x lo hi :
  fs !! k = Some x -> lo = length (concat (take k fs)) -> hi = lo + length x -> slice lo hi (concat fs) = x.
Proof.
  intros Hk -> ->. rewrite <- (take_drop_middle fs k x Hk) at 3. rewrite concat_app, slice_skip by lia.
  replace (length (concat (take k fs)) - length (concat (take k fs))) with 0 by lia.
  replace (length (concat (take k fs)) + length x - length (concat (take k fs))) with (length x) by lia.
  cbn [concat]. by apply slice_hit.
Qed.

Lemma checked_add_usize_Some a b : (Z.of_nat (a + b) < 2 ^ 64)%Z -> checked_add_usize a b = Some (a + b).
Proof. intros Hl. unfold checked_add_usize. run_checked. cbn. f_equal. lia. Qed.

Lemma checked_mul_usize_Some a b : (Z.of_nat (a * b) < 2 ^ 64)%Z -> checked_mul_usize a b = Some (a * b).
Proof.
  intros Hl. unfold checked_mul_usize, checked_mul_u64. rewrite <- Nat2Z.inj_mul.
  rewrite (proj2 (checked_u64_Some _ (Z.of_nat (a * b)))) by (unfold u64_ok; lia). cbn. by rewrite Nat2Z.id.
Qed.

(** ** Packages *)

Section package.
Context `{Sha256} `{Dalek} `{Threshold}.

Definition package_wf (p : LockPackageV1) : Prop :=
  EpochConfigurationV1_wf (pk_configuration p) /\ keys_threshold (ek_keys (pk_epoch_public_keys p)) = 1 /\
  Forall submission_wf (pk_submissions p) /\ Forall balance_wf (pk_balances p) /\
  u32_ok (bs_record_count (pk_balance_snapshot p)) /\ u32_ok (pk_member_count p).

Definition package_fields (p : LockPackageV1) (public_keys : list byte) : list (list byte) :=
  [[byte_of 1]; pk_epoch_account p : list byte; EpochConfigurationV1_encode (pk_configuration p);
   le_bytes 4 (Z.of_nat (length public_keys)); public_keys;
   le_bytes 4 (Z.of_nat (length (pk_submissions p))); concat (map EncryptedSubmissionV1_encode_wire (pk_submissions p));
   le_bytes 4 (Z.of_nat (length (pk_balances p))); concat (map BalanceRecordV1_encode (pk_balances p));
   SignedBalanceSnapshotV1_encode (pk_balance_snapshot p); pk_pre_balance_root p : list byte;
   pk_member_root p : list byte; le_bytes 4 (pk_member_count p); pk_lock_nonce p : list byte].

(** What [encode_wire] checks and writes. *)
Lemma package_encode_Ok p bytes :
  LockPackageV1_encode_wire p = Ok bytes <->
  exists public_keys, length (pk_submissions p) <= 64 /\ length (pk_balances p) <= 64 /\
    keys_serialize (ek_keys (pk_epoch_public_keys p)) = Some public_keys /\ length public_keys <= 1024 /\
    bytes = concat (package_fields p public_keys).
Proof.
  unfold LockPackageV1_encode_wire, MAX_BATCH_MEMBERS, MAX_EPOCH_PUBLIC_KEYS_LEN, EpochPublicKeys_encode_wire. split.
  - intros E. apply guard_Ok in E as [Hg E]. apply bind_Ok in E as (keys & Hk & E). apply map_err_Ok, ok_or_Ok in Hk.
    apply guard_Ok in E as [Hl E]. apply bind_Ok in E as (n1 & Hn1 & E). apply bind_Ok in E as (n2 & Hn2 & E).
    apply bind_Ok in E as (n3 & Hn3 & E). rewrite ok_or_Ok in Hn1, Hn2, Hn3. bguard. checked. apply Ok_inj in E. subst bytes.
    exists keys. split_and!; [lia | lia | done | lia |].
    unfold package_fields. cbn [concat]. by rewrite app_nil_r.
  - intros (keys & HS & HB & HK & Hl & ->). rewrite !(proj2 (Nat.ltb_ge _ _)) by lia. cbn [orb]. rewrite HK.
    cbn [ok_or map_err mbind result_bind]. rewrite (proj2 (Nat.ltb_ge _ _)) by lia.
    run_checked.
    unfold package_fields. cbn [concat]. by rewrite app_nil_r.
Qed.

Lemma submission_encode_length s : submission_wf s -> length (EncryptedSubmissionV1_encode_wire s) = 689.
Proof.
  intros [_ HC]. unfold EncryptedSubmissionV1_encode_wire. by rewrite !length_app, authorization_encode_length, HC, !length_arr.
Qed.

Lemma package_fields_lengths p keys :
  Forall submission_wf (pk_submissions p) ->
  map length (package_fields p keys) =
  [1; 32; 263; 4; length keys; 4; length (pk_submissions p) * 689; 4; length (pk_balances p) * 64; 164; 32; 32; 4; 32].
Proof.
  intros HF. cbn [map package_fields]. rewrite EpochConfigurationV1_encode_length, snapshot_encode_length.
  rewrite (concat_length_const _ 689), (concat_length_const _ 64), !length_arr, !length_le_bytes; [done | |].
  - apply list.Forall_forall. intros b _. apply balance_encode_length.
  - revert HF. apply Forall_impl. apply submission_encode_length.
Qed.

Lemma length_concat_take k (fs : list (list byte)) : length (concat (take k fs)) = sum_list (take k (map length fs)).
Proof. revert k. induction fs as [|f fs IH]; intros [|k]; cbn; try done. by rewrite length_app, IH. Qed.

(** Read the [k]-th field of the package at the offset the decoder has reached. *)
Lemma package_slice p keys k x lo hi ns :
  map length (package_fields p keys) = ns -> package_fields p keys !! k = Some x ->
  lo = sum_list (take k ns) -> hi = lo + nth k ns 0 -> slice lo hi (concat (package_fields p keys)) = x.
Proof.
  intros HL Hk -> ->. apply (slice_of_field _ k); [done | by rewrite length_concat_take, HL|]. f_equal.
  rewrite <- HL. clear HL. revert k Hk. generalize (package_fields p keys). induction l as [|f l IH]; intros [|k] Hk; cbn in *; try done.
  - by injection Hk as ->.
  - by apply IH.
Qed.

Ltac read_at k HL := eapply (package_slice _ _ k _ _ _ _ HL eq_refl); cbn -[Nat.mul Nat.add]; lia.
Ltac bind_with tac := apply bind_Ok; eexists; split; [tac|].

(** The slices of an encoded package, at the offsets the decoder computes. *)
Lemma package_slices p keys :
  Forall submission_wf (pk_submissions p) ->
  let bytes := concat (package_fields p keys) in
  let a := 300 + length keys in let b := a + 4 + length (pk_submissions p) * 689 in
  let c := b + 4 + length (pk_balances p) * 64 in
  length bytes = c + 264 /\ u8_at 0 bytes = 1%Z /\ slice 1 33 bytes = pk_epoch_account p /\
  slice 33 296 bytes = EpochConfigurationV1_encode (pk_configuration p) /\
  slice 296 300 bytes = le_bytes 4 (Z.of_nat (length keys)) /\ slice 300 a bytes = keys /\
  slice a (a + 4) bytes = le_bytes 4 (Z.of_nat (length (pk_submissions p))) /\
  slice (a + 4) b bytes = concat (map EncryptedSubmissionV1_encode_wire (pk_submissions p)) /\
  slice b (b + 4) bytes = le_bytes 4 (Z.of_nat (length (pk_balances p))) /\
  slice (b + 4) c bytes = concat (map BalanceRecordV1_encode (pk_balances p)) /\
  slice c (c + 164) bytes = SignedBalanceSnapshotV1_encode (pk_balance_snapshot p) /\
  slice (c + 164) (c + 164 + 32) bytes = pk_pre_balance_root p /\
  slice (c + 164 + 32) (c + 164 + 64) bytes = pk_member_root p /\
  slice (c + 164 + 64) (c + 164 + 68) bytes = le_bytes 4 (pk_member_count p) /\
  slice (c + 164 + 68) (c + 164 + 100) bytes = pk_lock_nonce p.
Proof.
  intros HS. cbn zeta. pose proof (package_fields_lengths p keys HS) as HL. split; [|split; [done|]].
  { rewrite <- (take_ge (package_fields p keys) 14) by done. rewrite length_concat_take, HL. cbn. lia. }
  split_and!; [read_at 1 HL | read_at 2 HL | read_at 3 HL | read_at 4 HL | read_at 5 HL | read_at 6 HL | read_at 7 HL
    | read_at 8 HL | read_at 9 HL | read_at 10 HL | read_at 11 HL | read_at 12 HL | read_at 13 HL].
Qed.

Lemma package_decode_fields p keys :
  package_wf p -> length (pk_submissions p) <= 64 -> length (pk_balances p) <= 64 -> length keys <= 1024 ->
  keys_deserialize keys = Some (ek_keys (pk_epoch_public_keys p)) ->
  LockPackageV1_decode_wire (concat (package_fields p keys)) = Ok p.
Proof.
  intros (HC & HT & HS & HB & Hrc & Hmc) Hn Hm Hk HK.
  pose proof (package_slices p keys HS) as HP. cbn zeta in HP.
  revert HP. generalize (concat (package_fields p keys)) as bytes. intros bytes HP.
  destruct HP as (Hlen & Hv & E1 & E2 & E3 & E4 & E5 & E6 & E7 & E8 & E9 & E10 & E11 & E12 & E13).
  assert (2 ^ 64 = 18446744073709551616)%Z as pow64 by done.
  assert (2 ^ 32 = 4294967296)%Z as pow32 by done.
  unfold LockPackageV1_decode_wire, MAX_EPOCH_PUBLIC_KEYS_LEN, MAX_BATCH_MEMBERS. cbn zeta.
  change (WIRE_FIXED_PREFIX + WIRE_FIXED_SUFFIX) with 572. change (33 + EpochConfigurationV1_ENCODED_LEN) with 296.
  change (296 + 4) with 300. change WIRE_FIXED_SUFFIX with 268. change ENCRYPTED_SUBMISSION_V1_LEN with 689.
  apply guard_Ok. split; [apply orb_false_iff; split; [apply Nat.ltb_ge; lia | by rewrite Hv] |].
  bind_with ltac:(apply ok_or_Ok; rewrite E1; apply try_into_arr).
  bind_with ltac:(apply ok_or_Ok; rewrite E2; by apply EpochConfigurationV1_decode_encode).
  rewrite E3, le_val_u32 by (unfold u32_ok; lia). apply guard_Ok. split; [apply Z.ltb_ge; lia|]. rewrite Nat2Z.id.
  bind_with ltac:(apply ok_or_Ok, checked_add_usize_Some; lia).
  bind_with ltac:(apply ok_or_Ok, get_range_Some; split; [lia | reflexivity]).
  bind_with ltac:(rewrite E4; unfold EpochPublicKeys_decode_wire; rewrite HK; cbn [ok_or mbind result_bind];
    rewrite HT; reflexivity).
  bind_with ltac:(apply ok_or_Ok, checked_add_usize_Some; lia).
  bind_with ltac:(apply ok_or_Ok, get_range_Some; split; [lia | reflexivity]).
  rewrite E5, le_val_u32 by (unfold u32_ok; lia). apply guard_Ok. split; [apply Z.ltb_ge; lia|]. rewrite Nat2Z.id.
  bind_with ltac:(apply ok_or_Ok, checked_mul_usize_Some; lia).
  bind_with ltac:(apply ok_or_Ok, checked_add_usize_Some; lia).
  apply guard_Ok. split; [apply Nat.ltb_ge; lia|]. rewrite E6.
  bind_with ltac:(apply decode_chunks; [revert HS; apply Forall_impl, submission_encode_length|];
    revert HS; apply Forall_impl; intros x Hx; by rewrite submission_decode_encode).
  rewrite E7, le_val_u32 by (unfold u32_ok; lia). apply guard_Ok. split; [apply Z.ltb_ge; lia|]. rewrite Nat2Z.id.
  bind_with ltac:(apply ok_or_Ok, checked_mul_usize_Some; lia).
  bind_with ltac:(apply ok_or_Ok, checked_add_usize_Some; lia).
  bind_with ltac:(apply ok_or_Ok, checked_add_usize_Some; lia).
  apply guard_Ok. split; [apply neqb_false; lia|]. rewrite E8.
  bind_with ltac:(apply decode_chunks; [apply list.Forall_forall; intros; apply balance_encode_length|];
    revert HB; apply Forall_impl, balance_decode_encode).
  rewrite E9, E10, E11, E12, E13, le_val_u32, snapshot_decode_encode, !try_into_arr by done.
  cbn [ok_or mbind result_bind]. by destruct p as [? ? [] ? ? ? ? ? ? ?].
Qed.

Lemma package_decode_encode `{!ThresholdLaws} p bytes :
  package_wf p -> LockPackageV1_encode_wire p = Ok bytes -> LockPackageV1_decode_wire bytes = Ok p.
Proof.
  intros HW (keys & Hn & Hm & HK & Hk & ->)%package_encode_Ok. apply package_decode_fields; try done.
  by apply keys_round_trip.
Qed.

Lemma checked_add_usize_inv a b c : checked_add_usize a b = Some c -> c = a + b.
Proof. unfold checked_add_usize. intros E. apply fmap_Some in E as (z & E & ->). checked. lia. Qed.

Lemma checked_mul_usize_inv a b c : checked_mul_usize a b = Some c -> c = a * b.
Proof. unfold checked_mul_usize. intros E. apply fmap_Some in E as (z & E & ->). checked. nia. Qed.

(** The offsets a successful decoding found, and what it read there. *)
Lemma package_decode_reads bytes p :
  LockPackageV1_decode_wire bytes = Ok p ->
  exists a b c,
    a = 300 + Z.to_nat (le_val (slice 296 300 bytes)) /\ (le_val (slice 296 300 bytes) <= 1024)%Z /\
    b = a + 4 + Z.to_nat (le_val (slice a (a + 4) bytes)) * 689 /\ (le_val (slice a (a + 4) bytes) <= 64)%Z /\
    c = b + 4 + Z.to_nat (le_val (slice b (b + 4) bytes)) * 64 /\ (le_val (slice b (b + 4) bytes) <= 64)%Z /\
    length bytes = c + 264 /\ u8_at 0 bytes = 1%Z /\ arr_list (pk_epoch_account p) = slice 1 33 bytes /\
    EpochConfigurationV1_decode (slice 33 296 bytes) = Some (pk_configuration p) /\
    EpochPublicKeys_decode_wire (slice 300 a bytes) = Ok (pk_epoch_public_keys p) /\
    try_map (fun encoded => map_err (fun _ => LockValidationError.InvalidSubmission) (EncryptedSubmissionV1_decode_wire encoded))
      (chunks 689 (Z.to_nat (le_val (slice a (a + 4) bytes))) (slice (a + 4) b bytes)) = Ok (pk_submissions p) /\
    try_map BalanceRecordV1_decode (chunks 64 (Z.to_nat (le_val (slice b (b + 4) bytes))) (slice (b + 4) c bytes))
    = Ok (pk_balances p) /\
    SignedBalanceSnapshotV1_decode (slice c (c + 164) bytes) = Ok (pk_balance_snapshot p) /\
    arr_list (pk_pre_balance_root p) = slice (c + 164) (c + 164 + 32) bytes /\
    arr_list (pk_member_root p) = slice (c + 164 + 32) (c + 164 + 64) bytes /\
    pk_member_count p = le_val (slice (c + 164 + 64) (c + 164 + 68) bytes) /\
    arr_list (pk_lock_nonce p) = slice (c + 164 + 68) (c + 164 + 100) bytes.
Proof.
  unfold LockPackageV1_decode_wire, MAX_EPOCH_PUBLIC_KEYS_LEN, MAX_BATCH_MEMBERS. cbn zeta.
  change (WIRE_FIXED_PREFIX + WIRE_FIXED_SUFFIX) with 572. change (33 + EpochConfigurationV1_ENCODED_LEN) with 296.
  change (296 + 4) with 300. change WIRE_FIXED_SUFFIX with 268. change ENCRYPTED_SUBMISSION_V1_LEN with 689.
  intros E. apply guard_Ok in E as [G1 E]. apply bind_Ok in E as (epoch & E1 & E). apply bind_Ok in E as (cfg & E2 & E).
  apply guard_Ok in E as [G2 E]. apply bind_Ok in E as (a & A1 & E). apply bind_Ok in E as (keys & E3 & E).
  apply bind_Ok in E as (pks & E4 & E). apply bind_Ok in E as (a4 & A2 & E). apply bind_Ok in E as (cnt & E5 & E).
  apply guard_Ok in E as [G3 E]. apply bind_Ok in E as (sl & A3 & E). apply bind_Ok in E as (b & A4 & E).
  apply guard_Ok in E as [G4 E]. apply bind_Ok in E as (subs & E6 & E). apply guard_Ok in E as [G5 E].
  apply bind_Ok in E as (bl & A5 & E). apply bind_Ok in E as (c & A6 & E). apply bind_Ok in E as (len & A7 & E).
  apply guard_Ok in E as [G6 E]. apply bind_Ok in E as (bals & E7 & E). apply bind_Ok in E as (snap & E8 & E).
  apply bind_Ok in E as (root & E9 & E). apply bind_Ok in E as (mem & E10 & E). apply bind_Ok in E as (nonce & E11 & E).
  apply Ok_inj in E. subst p.
  repeat match goal with
  | T : ok_or _ _ = Ok _ |- _ => apply ok_or_Ok in T
  | T : map_err _ _ = Ok _ |- _ => apply map_err_Ok in T
  | T : checked_add_usize _ _ = Some _ |- _ => apply checked_add_usize_inv in T
  | T : checked_mul_usize _ _ = Some _ |- _ => apply checked_mul_usize_inv in T
  | T : get_range _ _ _ = Some _ |- _ => apply get_range_Some in T as [? ->]
  | T : try_into _ _ = Some _ |- _ => apply try_into_Some in T
  end.
  bguard. subst a4 sl bl len. exists a, b, c. split_and!; (assumption || reflexivity || lia).
Qed.

Lemma package_fields_decode bytes p :
  LockPackageV1_decode_wire bytes = Ok p ->
  package_wf p /\ length (pk_submissions p) <= 64 /\ length (pk_balances p) <= 64 /\
  exists keys, length keys <= 1024 /\ keys_deserialize keys = Some (ek_keys (pk_epoch_public_keys p)) /\
    bytes = concat (package_fields p keys).
Proof.
  intros (a & b & c & A1 & G1 & A2 & G2 & A3 & G3 & Hlen & Hv & E1 & E2 & E3 & E4 & E5 & E6 & E7 & E8 & E9 & E10)%package_decode_reads.
  pose proof (u32_slice_ok 296 300 bytes ltac:(lia) eq_refl) as U1.
  pose proof (u32_slice_ok a (a + 4) bytes ltac:(lia) ltac:(lia)) as U2. pose proof (u32_slice_ok b (b + 4) bytes ltac:(lia) ltac:(lia)) as U3.
  pose proof (u32_slice_ok (c + 164 + 64) (c + 164 + 68) bytes ltac:(lia) ltac:(lia)) as U4. rewrite <- E9 in U4. unfold u32_ok in U1, U2, U3.
  apply (try_map_chunks EncryptedSubmissionV1_encode_wire _ submission_wf) in E4 as (W4 & L4 & C4);
    [|intros x y Hx; apply map_err_Ok in Hx; by apply submission_encode_decode | rewrite length_slice; lia].
  apply (try_map_chunks BalanceRecordV1_encode _ balance_wf) in E5 as (W5 & L5 & C5);
    [|intros x y; apply balance_encode_decode | rewrite length_slice; lia].
  apply snapshot_encode_decode in E6 as [W6 C6]. pose proof (EpochConfigurationV1_decode_wf _ _ E2) as W2.
  apply EpochConfigurationV1_encode_decode in E2.
  unfold EpochPublicKeys_decode_wire in E3. apply bind_Ok in E3 as (k & K1 & E3). apply ok_or_Ok in K1.
  apply guard_Ok in E3 as [K2 E3]. apply neqb_false in K2. apply Ok_inj in E3.
  unfold package_wf. rewrite <- E3. cbn [ek_keys].
  split; [done|]. split; [lia|]. split; [lia|]. exists (slice 300 a bytes).
  split; [rewrite length_slice; lia|]. split; [done|].
  unfold package_fields. rewrite C4, C5, C6, E2, E1, E7, E8, E9, E10, L4, L5, length_slice, !Z2Nat.id by lia.
  replace (Z.of_nat (a - 300)) with (le_val (slice 296 300 bytes)) by lia.
  rewrite !le_bytes_slice by lia. rewrite (byte_of_version 0 1 bytes) by (lia || done).
  cbn [concat]. rewrite app_nil_r. rewrite !slice_join, slice_join_nil by lia.
  replace (c + 164 + 100) with (length bytes) by lia. by rewrite slice_all.
Qed.
End package.
