(* ===== verification/ConfirmedReads.v ===== *)
(** * Confirmed reads of the chain (crates/kageb-host/src/lock.rs, [ProgramClient])

    Each capability is built from account bytes only after the checks the program itself makes:
    owner, address, bumps, pool rules, configuration hash and phase. *)

From S2P Require Import Prelude Bytes Extern ProgramWire ProgramState ProgramInstruction.
From S2P Require Import Storage HostExtern HostCrypto Account LockJournal Lock.

Section reads.
Context `{Sha256} `{Solana} `{Dalek} `{Sysvars}.

Definition decode_program_epoch (epoch_account owner : Pubkey) (data : list byte)
  : result LockValidationError EpochStateV1 :=
  if owner != ID then Err LockValidationError.InvalidOnchainEpoch else
  state ← map_err (fun _ => LockValidationError.InvalidOnchainEpoch) (EpochStateV1_decode data);
  let '(expected, bump) := epoch_address (ep_pool state) (ep_epoch_id state) in
  if (expected != epoch_account) || (epoch_bump state != bump) then Err LockValidationError.InvalidOnchainEpoch else
  Ok state.

(** The long condition of [confirmed_open_epoch_from_accounts]. *)
Definition open_epoch_refused (state : EpochStateV1) (pool : PoolStateV1) (clock : Clock) (confirmation_slot : Z) : bool :=
  let '(expected_pool, canonical_pool_bump) := pool_address (pl_operator pool) (pl_base_mint pool) (pl_quote_mint pool) in
  let '(_, canonical_vault_bump) := vault_authority_address (ep_pool state) in
  let '(k0, k1, k2) := pl_keypers pool in
  (expected_pool != ep_pool state)
  || (pool_bump pool != canonical_pool_bump)
  || (vault_bump pool != canonical_vault_bump)
  || (pl_lock_threshold pool != 2%Z)
  || (pl_settlement_threshold pool != 2%Z)
  || (pl_base_lot_atoms pool == 0%Z)
  || (pl_base_mint pool == pl_quote_mint pool)
  || existsb (fun key => key == zero32) (keyper_list (pl_keypers pool))
  || (k0 == k1) || (k0 == k2) || (k1 == k2)
  || (terminal_state state != Open)
  || (ep_residual_side state != 0%Z)
  || (ep_configuration_hash state != EpochConfigurationV1_digest (confirmed_configuration state pool))
  || (ep_pre_balance_root state != zero32)
  || (ep_member_root state != zero32)
  || (ep_lock_digest state != zero32)
  || (ep_result_commitment state != zero32)
  || (ep_settlement_digest state != zero32)
  || (ep_lock_nonce state != zero32)
  || (ep_settlement_nonce state != zero32)
  || (ep_member_count state != 0%Z)
  || (ep_minimum_count state <? 4)%Z
  || (ep_residual_lots state != 0%Z)
  || (ep_base_lot_atoms state != pl_base_lot_atoms pool)
  || (ep_quote_atoms_per_lot state == 0%Z)
  || (ep_abort_deadline state <=? ep_lock_deadline state)%Z
  || (confirmation_slot <? clk_slot clock)%Z
  || (ep_lock_deadline state <=? clk_unix_timestamp clock)%Z.

Definition confirmed_open_epoch_from_accounts (epoch_account : Pubkey) (epoch_account_data : RpcAccount)
    (pool_address_from_initial_read : Pubkey) (pool_account_data clock_account_data : RpcAccount) (confirmation_slot : Z)
  : result LockValidationError ConfirmedOpenEpoch :=
  state ← decode_program_epoch epoch_account (ra_owner epoch_account_data) (ra_data epoch_account_data);
  if ep_pool state != pool_address_from_initial_read then Err LockValidationError.InvalidOnchainEpoch else
  if (ra_owner pool_account_data != ID) || (ra_owner clock_account_data != sysvar_owner_id)
  then Err LockValidationError.InvalidOnchainEpoch else
  pool ← map_err (fun _ => LockValidationError.InvalidOnchainEpoch) (PoolStateV1_decode (ra_data pool_account_data));
  clock ← ok_or LockValidationError.InvalidOnchainEpoch (clock_deserialize (ra_data clock_account_data));
  if open_epoch_refused state pool clock confirmation_slot then Err LockValidationError.InvalidOnchainEpoch else
  if negb (verifying_key_ok (pl_operator pool)) then Err LockValidationError.InvalidOnchainEpoch else
  policy ← map_err (fun _ => LockValidationError.InvalidOnchainEpoch)
    (AdmissionPolicyV1_new (ep_epoch_id state) (pl_operator pool) (Z.to_nat (ep_minimum_count state))
       (ep_base_lot_atoms state) (ep_quote_atoms_per_lot state) (clk_slot clock));
  Ok {| co_epoch_account := epoch_account; co_configuration := confirmed_configuration state pool;
        co_policy := policy; co_current_timestamp := clk_unix_timestamp clock;
        co_confirmation_slot := confirmation_slot |}.

Definition confirmed_terminal_epoch_from_account (epoch_account owner : Pubkey) (data : list byte) (confirmation_slot : Z)
  : result LockValidationError ConfirmedTerminalEpoch :=
  state ← decode_program_epoch epoch_account owner data;
  match terminal_state state with
  | Expired | Aborted =>
      Ok {| ct_epoch_account := epoch_account; ct_epoch_id := ep_epoch_id state;
            ct_terminal_state := terminal_state state; ct_confirmation_slot := confirmation_slot |}
  | _ => Err LockValidationError.InvalidOnchainEpoch
  end.

(** The payload a locked record stands for. *)
Definition locked_payload (epoch_account : Pubkey) (state : EpochStateV1) : LockPayloadV1 :=
  {| lp_epoch_account := epoch_account; lp_configuration_hash := ep_configuration_hash state;
     lp_pre_balance_root := ep_pre_balance_root state; lp_member_root := ep_member_root state;
     lp_member_count := ep_member_count state; lp_lock_deadline := ep_lock_deadline state;
     lp_lock_nonce := ep_lock_nonce state |}.

Definition confirmed_lock_from_account (epoch_account owner : Pubkey) (data : list byte) (confirmation_slot : Z)
  : result LockValidationError ConfirmedLock :=
  if owner != ID then Err LockValidationError.InvalidOnchainLock else
  state ← map_err (fun _ => LockValidationError.InvalidOnchainLock) (EpochStateV1_decode data);
  let '(expected, bump) := epoch_address (ep_pool state) (ep_epoch_id state) in
  let expected_lock_digest := LockPayloadV1_digest (locked_payload epoch_account state) in
  if (expected != epoch_account) || (epoch_bump state != bump) || (terminal_state state != Locked)
     || (ep_minimum_count state <? 4)%Z || (ep_member_count state <? ep_minimum_count state)%Z
     || (ep_base_lot_atoms state == 0%Z) || (ep_quote_atoms_per_lot state == 0%Z)
     || (ep_abort_deadline state <=? ep_lock_deadline state)%Z
     || (ep_configuration_hash state == zero32) || (ep_lock_nonce state == zero32)
     || (ep_pre_balance_root state == zero32) || (ep_member_root state == zero32)
     || (ep_lock_digest state != expected_lock_digest)
  then Err LockValidationError.InvalidOnchainLock else
  Ok {| cl_epoch_account := epoch_account; cl_state := state; cl_pool := None; cl_confirmation_slot := confirmation_slot |}.

Definition confirmed_lock_from_accounts (epoch_account : Pubkey)
    (epoch_account_data pool_account_data clock_account_data : RpcAccount) (confirmation_slot : Z)
  : result LockValidationError ConfirmedLock :=
  confirmed ← confirmed_lock_from_account epoch_account (ra_owner epoch_account_data) (ra_data epoch_account_data)
    confirmation_slot;
  let state := cl_state confirmed in
  if (ra_owner pool_account_data != ID) || (ra_owner clock_account_data != sysvar_owner_id)
  then Err LockValidationError.InvalidOnchainLock else
  pool ← map_err (fun _ => LockValidationError.InvalidOnchainLock) (PoolStateV1_decode (ra_data pool_account_data));
  let '(expected_pool, canonical_pool_bump) := pool_address (pl_operator pool) (pl_base_mint pool) (pl_quote_mint pool) in
  let '(_, canonical_vault_bump) := vault_authority_address (ep_pool state) in
  clock ← ok_or LockValidationError.InvalidOnchainLock (clock_deserialize (ra_data clock_account_data));
  let configuration := confirmed_configuration state pool in
  if (expected_pool != ep_pool state) || (pool_bump pool != canonical_pool_bump)
     || (vault_bump pool != canonical_vault_bump) || (pl_lock_threshold pool != 2%Z)
     || (pl_settlement_threshold pool != 2%Z) || (pl_base_lot_atoms pool == 0%Z)
     || (pl_base_mint pool == pl_quote_mint pool)
     || (EpochConfigurationV1_digest configuration != ep_configuration_hash state)
     || (confirmation_slot <? clk_slot clock)%Z || (ep_abort_deadline state <? clk_unix_timestamp clock)%Z
  then Err LockValidationError.InvalidOnchainLock else
  Ok {| cl_epoch_account := cl_epoch_account confirmed; cl_state := state; cl_pool := Some pool;
        cl_confirmation_slot := cl_confirmation_slot confirmed |}.

(** ** The client

    [accounts.next().flatten()] three times over a reply of length three. *)
Definition next_account (accounts : list (option RpcAccount)) (i : nat) : result LockValidationError RpcAccount :=
  ok_or LockValidationError.MissingAccount (mjoin (accounts !! i)).

Definition fetch_confirmed_lock (rpc : RpcReplies) (epoch_account : Pubkey) : result LockValidationError ConfirmedLock :=
  '(slot, value) ← ok_or LockValidationError.Rpc (get_account rpc epoch_account);
  account ← ok_or LockValidationError.MissingAccount value;
  initial_lock ← confirmed_lock_from_account epoch_account (ra_owner account) (ra_data account) slot;
  '(slot, accounts) ← ok_or LockValidationError.Rpc
    (get_multiple_accounts rpc [epoch_account; ep_pool (cl_state initial_lock); clock_sysvar_id]);
  if (slot <? cl_confirmation_slot initial_lock)%Z || (length accounts != 3) then Err LockValidationError.Rpc else
  epoch ← next_account accounts 0;
  pool ← next_account accounts 1;
  clock ← next_account accounts 2;
  confirmed_lock_from_accounts epoch_account epoch pool clock slot.

Definition fetch_confirmed_open_epoch (rpc : RpcReplies) (epoch_account : Pubkey)
  : result LockValidationError ConfirmedOpenEpoch :=
  '(initial_slot, value) ← ok_or LockValidationError.Rpc (get_account rpc epoch_account);
  initial_epoch ← ok_or LockValidationError.MissingAccount value;
  initial_state ← decode_program_epoch epoch_account (ra_owner initial_epoch) (ra_data initial_epoch);
  '(slot, accounts) ← ok_or LockValidationError.Rpc
    (get_multiple_accounts rpc [epoch_account; ep_pool initial_state; clock_sysvar_id]);
  if (slot <? initial_slot)%Z || (length accounts != 3) then Err LockValidationError.Rpc else
  epoch ← next_account accounts 0;
  pool ← next_account accounts 1;
  clock ← next_account accounts 2;
  confirmed_open_epoch_from_accounts epoch_account epoch (ep_pool initial_state) pool clock slot.

Definition fetch_confirmed_terminal_epoch (rpc : RpcReplies) (epoch_account : Pubkey)
  : result LockValidationError ConfirmedTerminalEpoch :=
  '(slot, value) ← ok_or LockValidationError.Rpc (get_account rpc epoch_account);
  account ← ok_or LockValidationError.MissingAccount value;
  confirmed_terminal_epoch_from_account epoch_account (ra_owner account) (ra_data account) slot.
End reads.
