(* ===== verification/LockSafety.v ===== *)
(** * Keypers over time

    Any number of keyper processes that share one lock journal, each opening it, signing locks,
    releasing shares and crashing in any order, with any outcome of the system calls.  The events
    are what leaves the keypers: lock approvals and released shares. *)

From S2P Require Import Prelude Bytes Extern ProgramWire ProgramState BTree Storage HostExtern HostCrypto HostCryptoProps.
From S2P Require Import Account LockJournal LockJournalProps Lock LockProps.

Section world.
Context `{Sha256} `{Dalek} `{Threshold}.

(** What binds an epoch: an approval carries the digest, a share names it. *)
Inductive Event : Type :=
| Approved (epoch : Pubkey) (approval : LockApprovalV1)
| Released (share : ReleasedShareV1).

Definition event_epoch (e : Event) : Pubkey :=
  match e with Approved epoch _ => epoch | Released share => rel_epoch_account share end.
Definition event_digest (e : Event) : bytes32 :=
  match e with Approved _ approval => la_digest approval | Released share => rel_lock_digest share end.

Record KeyperWorld : Type := {
  w_disk : LockDisk;
  w_keypers : gmap nat ReferenceKeyper;
  w_events : list Event;
}.

Inductive keyper_step (w : KeyperWorld) : KeyperWorld -> Prop :=
| step_open io h index signing_key disk out :
    LockJournal_open io (w_disk w) = (disk, out) ->
    keyper_step w
      {| w_disk := disk;
         w_keypers := match out with
                      | Ok j => <[h := {| rk_index := index; rk_signing_key := signing_key; rk_journal := j |}]> (w_keypers w)
                      | Err _ => w_keypers w
                      end;
         w_events := w_events w |}
| step_sign io h keyper package confirmed secret disk keyper' out :
    w_keypers w !! h = Some keyper ->
    ReferenceKeyper_sign_lock io (w_disk w) keyper package confirmed secret = (disk, keyper', out) ->
    keyper_step w
      {| w_disk := disk; w_keypers := <[h := keyper']> (w_keypers w);
         w_events := match out with
                     | Ok approval => Approved (pk_epoch_account package) approval :: w_events w
                     | Err _ => w_events w
                     end |}
| step_release h keyper package confirmed secret member_index out :
    w_keypers w !! h = Some keyper ->
    ReferenceKeyper_release_share keyper package confirmed secret member_index = out ->
    keyper_step w
      {| w_disk := w_disk w; w_keypers := w_keypers w;
         w_events := match out with Ok share => Released share :: w_events w | Err _ => w_events w end |}
| step_crash h :
    keyper_step w {| w_disk := w_disk w; w_keypers := delete h (w_keypers w); w_events := w_events w |}.

(** Every event and every handle agrees with the records on disk. *)
Definition bound (m : LockRecords) (w : KeyperWorld) : Prop :=
  map_Forall (fun _ k => lj_records (rk_journal k) ⊆ m) (w_keypers w) /\
  Forall (fun e => m !! event_epoch e = Some (event_digest e)) (w_events w).

Definition world_ok (w : KeyperWorld) : Prop :=
  (w_keypers w = ∅ /\ w_events w = []) \/ exists m, keeps (w_disk w) m /\ bound m w.

(** An approval leaves only after its digest is on disk. *)
Lemma sign_lock_cases io disk k p c s disk' k' out m :
  keeps disk m -> ReferenceKeyper_sign_lock io disk k p c s = (disk', k', out) ->
  exists m', keeps disk' m' /\ m ⊆ m' /\ (rk_journal k' = rk_journal k \/ lj_records (rk_journal k') = m') /\
    forall a, out = Ok a -> m' !! pk_epoch_account p = Some (la_digest a) /\
      la_digest a = LockPayloadV1_digest (LockPackageV1_lock_payload p) /\ package_valid p c /\
      la_keyper_key a = verifying_key (rk_signing_key k) /\ la_signature a = dalek_sign (rk_signing_key k) (la_digest a) /\
      lj_records (rk_journal k') = m'.
Proof.
  intros HK. unfold ReferenceKeyper_sign_lock. cbn zeta.
  destruct (ok_or _ _) as [configured|]; [|intros [= <- <- <-]; exists m; naive_solver].
  destruct (_ || _); [intros [= <- <- <-]; exists m; naive_solver|].
  destruct (LockPackageV1_validate p c) as [d|] eqn:EV; [|intros [= <- <- <-]; exists m; naive_solver].
  apply validate_Ok in EV as [HV ->].
  destruct (LockJournal_record _ _ _ _ _) as [[disk1 j1] r] eqn:ER.
  destruct (record_cases _ _ _ _ _ _ _ _ _ HK ER) as (m' & HK' & Hm & Hj & Hr).
  assert (m ⊆ m') as Hsub by (destruct Hm as [->|[Hn ->]]; [done | by apply insert_subseteq]).
  destruct r as [[]|e]; intros [= <- <- <-]; exists m'; split_and!; try done; try naive_solver.
Qed.

(** A share leaves only for the digest this handle has recorded. *)
Lemma release_share_Ok k p c s i share :
  ReferenceKeyper_release_share k p c s i = Ok share ->
  lj_records (rk_journal k) !! rel_epoch_account share = Some (rel_lock_digest share) /\
  rel_epoch_account share = pk_epoch_account p /\ rel_lock_digest share = ep_lock_digest (cl_state c).
Proof.
  unfold ReferenceKeyper_release_share, LockPackageV1_validate_locked, KeyperSecretShare_release. intros E. inv_ok. bguard. subst.
  done.
Qed.

Lemma repeated_ciphertext_false seen l :
  repeated_ciphertext seen l = false <->
  NoDup (map (fun s => sha256 (es_ciphertext s)) l) /\ Forall (fun s => sha256 (es_ciphertext s) ∉ seen) l.
Proof.
  revert seen. induction l as [|s l IH]; intros seen; cbn [repeated_ciphertext map].
  { split; [intros _; split; constructor | done]. }
  rewrite list.NoDup_cons, Forall_cons_iff, not_elem_of_map. case_bool_decide as Hs; [naive_solver|].
  rewrite IH. assert (Forall (fun s' => sha256 (es_ciphertext s') ∉ ({[sha256 (es_ciphertext s)]} ∪ seen)) l <->
    Forall (fun s' => sha256 (es_ciphertext s') <> sha256 (es_ciphertext s)) l /\
    Forall (fun s' => sha256 (es_ciphertext s') ∉ seen) l) as ->; [|tauto].
  rewrite <- list.Forall_and. apply list.Forall_iff. intros s'. clear. set_solver.
Qed.

(** An admitted ciphertext is answered by every share of the epoch's key set, verifiably. *)
Lemma secret_release_verifies `{!ThresholdLaws} keys s epoch digest submission policy :
  EpochPublicKeys_matches_share keys s = true -> admissible policy submission ->
  exists share, KeyperSecretShare_release s epoch digest (es_ciphertext submission) = Ok share /\
    rel_epoch_account share = epoch /\ rel_lock_digest share = digest /\ rel_index share = ks_index s /\
    ReleasedShareV1_verify share keys submission = true.
Proof.
  intros HM (_ & _ & _ & _ & _ & _ & _ & _ & _ & _ & HD & _). apply bool_decide_eq_true in HM.
  destruct (decode_ciphertext (es_ciphertext submission)) as [enc|] eqn:ED; [|done].
  assert (ciphertext_verify (ei_ciphertext enc) = true) as Hv by (unfold decode_ciphertext in ED; inv_ok; bguard; by subst).
  destruct (decrypt_share_answers (ks_secret s) _ Hv) as [d Hd].
  eexists. unfold KeyperSecretShare_release, ReleasedShareV1_verify. rewrite ED. cbn [mbind result_bind]. rewrite Hd.
  split; [reflexivity|]. cbn [rel_ciphertext_hash rel_index rel_share]. rewrite bool_decide_eq_true_2 by done.
  split_and!; try done. by apply (decrypt_share_verifies _ _ (ks_secret s)).
Qed.

(** What a signing keyper checked about itself, and what its journal then holds. *)
Lemma sign_lock_Ok io disk k p c s disk' k' a :
  ReferenceKeyper_sign_lock io disk k p c s = (disk', k', Ok a) -> (exists m, keeps disk m) ->
  keyper_list (cfg_keypers (co_configuration c)) !! Z.to_nat (rk_index k) = Some (verifying_key (rk_signing_key k)) /\
  ks_index s = rk_index k /\ ks_epoch_account s = pk_epoch_account p /\
  EpochPublicKeys_matches_share (pk_epoch_public_keys p) s = true /\ package_valid p c /\
  la_digest a = LockPayloadV1_digest (LockPackageV1_lock_payload p) /\
  rk_index k' = rk_index k /\ rk_signing_key k' = rk_signing_key k /\
  LockJournal_digest (rk_journal k') (pk_epoch_account p) = Some (la_digest a).
Proof.
  intros ES (m & HK). destruct (sign_lock_cases _ _ _ _ _ _ _ _ _ _ HK ES) as (m' & _ & _ & _ & Ha).
  destruct (Ha a eq_refl) as (Hrec & Hd & HV & _ & _ & Hj). clear Ha.
  unfold ReferenceKeyper_sign_lock in ES. cbn zeta in ES.
  destruct (keyper_list (cfg_keypers (co_configuration c)) !! Z.to_nat (rk_index k)) as [configured|] eqn:EC; [|done].
  cbn [ok_or] in ES. destruct (_ || _) eqn:EG; [done|]. bguard.
  destruct (LockPackageV1_validate p c); [|done]. destruct (LockJournal_record _ _ _ _ _) as [[disk1 j1] [[]|]]; [|done].
  injection ES as <- <- <-. cbn [rk_index rk_signing_key rk_journal] in *. unfold LockJournal_digest. rewrite Hj.
  split_and!; try done. congruence.
Qed.

(** A keyper that approved a package releases the shares of its members once the same package
    is locked, and the shares verify. *)
Lemma release_after_sign `{!ThresholdLaws} io disk k p c s disk' k' a cl ps i submission :
  ReferenceKeyper_sign_lock io disk k p c s = (disk', k', Ok a) -> (exists m, keeps disk m) ->
  LockPackageV1_validate_locked p cl = Ok (la_digest a) ->
  cl_pool cl = Some ps -> pl_keypers ps = cfg_keypers (co_configuration c) ->
  pk_submissions p !! i = Some submission -> NoDup (map (fun s => sha256 (es_ciphertext s)) (pk_submissions p)) ->
  exists share, ReferenceKeyper_release_share k' p cl s i = Ok share /\
    rel_epoch_account share = pk_epoch_account p /\ rel_lock_digest share = ConfirmedLock_lock_digest cl /\
    rel_index share = rk_index k /\ ReleasedShareV1_verify share (pk_epoch_public_keys p) submission = true.
Proof.
  intros ES HK HL Hps Hkp Hi HN.
  destruct (sign_lock_Ok _ _ _ _ _ _ _ _ _ ES HK) as (EC & Hx & He & HM & HV & _ & Hxi & Hsk & Hj).
  assert (admissible (co_policy c) submission) as HA.
  { pose proof (pv_admissible _ _ HV) as HF. rewrite list.Forall_forall in HF. apply HF. by eapply list_elem_of_lookup_2. }
  destruct (secret_release_verifies _ s (pk_epoch_account p) (ConfirmedLock_lock_digest cl) _ _ HM HA) as (share & HR & HS).
  exists share. rewrite <- Hx. split; [|done].
  unfold ReferenceKeyper_release_share. rewrite HL, Hps. cbn [mbind result_bind option_bind].
  rewrite Hxi, Hkp, EC, Hsk, Hj, He, Hx, HM. cbn [ok_or mbind result_bind].
  rewrite !bool_decide_eq_true_2 by done. cbn [negb orb]. rewrite Hi. cbn [ok_or mbind result_bind].
  rewrite (proj2 (repeated_ciphertext_false ∅ _)) by (split; [done | apply list.Forall_forall; intros; clear; set_solver]).
  by rewrite HR.
Qed.

(** With two equal ciphertexts no share of the package is ever released. *)
Lemma release_refuses_repeats k p cl s i :
  ~ NoDup (map (fun s => sha256 (es_ciphertext s)) (pk_submissions p)) ->
  is_ok (ReferenceKeyper_release_share k p cl s i) = false.
Proof.
  intros HN. unfold ReferenceKeyper_release_share.
  destruct (LockPackageV1_validate_locked p cl); [|done]. cbn [mbind result_bind].
  destruct (ok_or _ (mbind _ _)) as [configured|]; [|done]. cbn [mbind result_bind]. destruct (_ || _); [done|].
  destruct (pk_submissions p !! i); [|done]. cbn [ok_or mbind result_bind].
  destruct (repeated_ciphertext ∅ (pk_submissions p)) eqn:ER; [done|].
  apply repeated_ciphertext_false in ER as [? _]. done.
Qed.

Lemma bound_mono m m' w : m ⊆ m' -> bound m w -> bound m' w.
Proof.
  intros Hs [HK HE]. split.
  - intros h k Hk. etrans; [exact (HK h k Hk) | done].
  - revert HE. apply Forall_impl. intros e He. by eapply lookup_weaken.
Qed.

Lemma keyper_step_ok w w' : keyper_step w w' -> world_ok w -> world_ok w'.
Proof.
  intros [io h index sk disk out EO | io h k p c s disk k' out Hh ES | h k p c s i out Hh ER | h].
  - intros [[HK HE]|(m & HD & HB)].
    + destruct out as [j|e]; [|by left]. right. exists (lj_records j). split; [by eapply open_Ok|].
      unfold bound. cbn. rewrite HK, HE. split; [|constructor]. rewrite insert_empty. by apply map_Forall_singleton.
    + right. destruct (open_cases _ _ _ _ _ HD EO) as [-> Hj]. exists m. split; [done|].
      destruct HB as [HK HE], out as [j|e]; split; cbn; try done.
      apply map_Forall_insert_2; [cbn; by rewrite (Hj j)|done].
  - intros [[HK HE]|(m & HD & HB)]; [rewrite HK, lookup_empty in Hh; done|]. right.
    destruct (sign_lock_cases _ _ _ _ _ _ _ _ _ _ HD ES) as (m' & HD' & Hs & Hj & Ha). exists m'. split; [done|].
    pose proof (bound_mono _ _ _ Hs HB) as [HK' HE']. split; cbn.
    + apply map_Forall_insert_2; [|done]. destruct Hj as [->| ->]; [exact (HK' h k Hh) | done].
    + destruct out as [a|]; [|done]. constructor; [|done]. cbn. by apply Ha.
  - intros [[HK HE]|(m & HD & HB)]; [rewrite HK, lookup_empty in Hh; done|]. right. exists m. split; [done|].
    destruct HB as [HK HE]. split; cbn; [done|]. destruct out as [share|]; [|done]. constructor; [|done].
    apply release_share_Ok in ER as [ER _]. cbn. exact (lookup_weaken _ _ _ _ ER (HK h k Hh)).
  - intros [[HK HE]|(m & HD & HB)]; [left; by rewrite HK, delete_empty|]. right. exists m. split; [done|].
    destruct HB as [HK HE]. split; [|done]. by apply map_Forall_delete.
Qed.

Lemma keyper_run_ok w w' : rtc keyper_step w w' -> world_ok w -> world_ok w'.
Proof. induction 1; [done|]. intros. by eauto using keyper_step_ok. Qed.

(** Along any run, two events for one epoch carry one digest. *)
Lemma events_agree w w' e1 e2 :
  rtc keyper_step w w' -> w_keypers w = ∅ -> w_events w = [] ->
  e1 ∈ w_events w' -> e2 ∈ w_events w' -> event_epoch e1 = event_epoch e2 -> event_digest e1 = event_digest e2.
Proof.
  intros HR HK HE H1e H2e Ee. destruct (keyper_run_ok _ _ HR) as [[_ HN]|(m & _ & [_ HF])]; [by left| |].
  - rewrite HN in H1e. by apply elem_of_nil in H1e.
  - rewrite list.Forall_forall in HF. pose proof (HF _ H1e) as E1. pose proof (HF _ H2e) as E2. congruence.
Qed.
End world.
