(* ===== verification/LockChain.v ===== *)
(** * Keypers and the on-chain program together

    The host's confirmed reads accept only records the program accepts, a package a keyper
    validates passes every check of the program's [lock], and the record [lock] writes is the one
    the keyper accepts when it is asked to release shares. *)

From S2P Require Import Prelude Bytes Extern ProgramWire ProgramState ProgramInstruction Processor ProcessorProps.
From S2P Require Import Storage HostExtern HostCrypto HostCryptoProps Account.
From S2P Require Import LockJournal LockJournalProps Lock LockProps ConfirmedReads LockSafety.

(** [bincode] reads a signed 64-bit timestamp. *)
Class SysvarsLaws `{Sysvars} : Prop := {
  clock_timestamp_range bytes clock : clock_deserialize bytes = Some clock -> i64_ok (clk_unix_timestamp clock);
}.

Section chain.
Context `{Sha256} `{Solana} `{Dalek} `{Threshold} `{Sysvars}.

Lemma confirmed_configuration_eq es ps : confirmed_configuration es ps = epoch_config_of (ep_pool es) ps es.
Proof. done. Qed.

Lemma decode_program_epoch_Ok epoch owner data es :
  decode_program_epoch epoch owner data = Ok es <->
  owner = ID /\ EpochStateV1_decode data = Ok es /\
  epoch_address (ep_pool es) (ep_epoch_id es) = (epoch, epoch_bump es).
Proof.
  unfold decode_program_epoch. rewrite guard_Ok, neqb_false. split.
  - intros [-> E]. inv_ok. destruct (epoch_address _ _) as [k b] eqn:EA. inv_ok. bguard. by subst.
  - intros (-> & Hd & EA). rewrite Hd. cbn [map_err mbind result_bind]. rewrite EA, !bool_decide_eq_true_2 by done. done.
Qed.

(** The record an open capability was built from. *)
Record open_record (epoch pool : Pubkey) (es : EpochStateV1) (ps : PoolStateV1) (clock : Clock) : Prop := {
  or_pool : valid_pool pool ps;
  or_epoch : valid_epoch epoch es pool ps;
  or_phase : terminal_state es = Open;
  or_in_time : (clk_unix_timestamp clock < ep_lock_deadline es)%Z;
  or_operator : verifying_key_ok (pl_operator ps) = true;
}.

Lemma open_epoch_refused_false epoch es ps clock slot :
  epoch_address (ep_pool es) (ep_epoch_id es) = (epoch, epoch_bump es) ->
  open_epoch_refused es ps clock slot = false -> verifying_key_ok (pl_operator ps) = true ->
  open_record epoch (ep_pool es) es ps clock /\ (clk_slot clock <= slot)%Z.
Proof.
  intros HA HR HV. unfold open_epoch_refused in HR.
  pose proof (three_distinct_NoDup (pl_keypers ps)) as HD. unfold three_distinct in HD.
  pose proof (existsb_elem zero32 (keyper_list (pl_keypers ps))) as HZ.
  destruct (pool_address _ _ _) as [pk pb] eqn:EP, (vault_authority_address _) as [va vb] eqn:EV.
  destruct (pl_keypers ps) as [[k0 k1] k2] eqn:EK.
  rewrite !andb_true_iff, !neqb_true in HD. bguard. split; [|done]. match goal with T : existsb _ _ = false |- _ => apply HZ in T end. subst.
  split; try done; unfold valid_pool, valid_epoch; rewrite ?EP, ?EV, ?EK, ?HA; split_and!; try done; by apply HD.
Qed.

(** A confirmed read of an open epoch accepts only accounts the program itself would accept as an
    open epoch of a valid pool, before the lock deadline. *)
Lemma confirmed_open_Ok epoch E pool P C slot confirmed :
  confirmed_open_epoch_from_accounts epoch E pool P C slot = Ok confirmed ->
  exists es ps clock,
    ra_owner E = ID /\ ra_owner P = ID /\ ra_owner C = sysvar_owner_id /\ EpochStateV1_decode (ra_data E) = Ok es /\
    PoolStateV1_decode (ra_data P) = Ok ps /\ clock_deserialize (ra_data C) = Some clock /\
    open_record epoch pool es ps clock /\ (clk_slot clock <= slot)%Z /\
    confirmed = {| co_epoch_account := epoch; co_configuration := epoch_config_of pool ps es;
      co_policy := {| ap_epoch_id := ep_epoch_id es; ap_operator_key := pl_operator ps;
        ap_minimum := Z.to_nat (ep_minimum_count es); ap_base_atoms := pl_base_lot_atoms ps;
        ap_quote_atoms := ep_quote_atoms_per_lot es; ap_current_slot := clk_slot clock |};
      co_current_timestamp := clk_unix_timestamp clock; co_confirmation_slot := slot |}.
Proof.
  unfold confirmed_open_epoch_from_accounts, AdmissionPolicyV1_new. intros HC. inv_ok. bguard.
  match goal with T : decode_program_epoch _ _ _ = Ok ?x |- _ => apply decode_program_epoch_Ok in T as (? & ? & HA); rename x into es end.
  match goal with T : open_epoch_refused _ ?ps ?clk _ = false |- _ =>
    pose proof (open_epoch_refused_false _ _ _ _ _ HA T ltac:(assumption)) as [HO Hs]; exists es, ps, clk end.
  pose proof HO as [HP HE ? ? ?]. pose proof HE as (_ & _ & _ & Hb & _). subst. split_and!; try done; try lia.
  rewrite confirmed_configuration_eq, Hb. done.
Qed.

(** Hash values that the program reads as "unset" do not occur in this package. *)
Definition roots_set (p : LockPackageV1) : Prop :=
  pk_pre_balance_root p <> zero32 /\ pk_member_root p <> zero32 /\ EpochConfigurationV1_digest (pk_configuration p) <> zero32.

Lemma validated_payload_matches epoch pool es ps clock p c :
  open_record epoch pool es ps clock -> package_valid p c ->
  co_epoch_account c = epoch -> co_configuration c = epoch_config_of pool ps es -> roots_set p ->
  lock_payload_matches (LockPackageV1_lock_payload p) epoch es.
Proof.
  intros HO HV He Hc (Hr & Hm & _). destruct HO as [_ HE _ _ _], HE as (Hp & _ & _ & _ & _ & _ & HH).
  pose proof (pv_same_configuration _ _ HV) as Hcfg. pose proof (pv_crowd _ _ HV) as Hcr. rewrite Hc in Hcfg.
  unfold lock_payload_matches, LockPackageV1_lock_payload.
  cbn [lp_epoch_account lp_configuration_hash lp_lock_deadline lp_lock_nonce lp_pre_balance_root lp_member_root lp_member_count].
  rewrite Hcfg in *. split_and!; try done; [by rewrite (pv_epoch _ _ HV) | apply (pv_nonce _ _ HV)].
Qed.

(** The record after [lock], as the host reads it. *)
Definition locked_record (es : EpochStateV1) (p : LockPackageV1) : EpochStateV1 :=
  set_locked es (LockPackageV1_lock_payload p) (LockPayloadV1_digest (LockPackageV1_lock_payload p)).

Lemma locked_payload_eq epoch es p :
  pk_epoch_account p = epoch -> EpochConfigurationV1_digest (pk_configuration p) = ep_configuration_hash es ->
  cfg_lock_deadline (pk_configuration p) = ep_lock_deadline es ->
  locked_payload epoch (locked_record es p) = LockPackageV1_lock_payload p.
Proof. intros <- HH HD. unfold locked_payload, LockPackageV1_lock_payload. cbn. by rewrite HH, HD. Qed.

Lemma confirmed_lock_of_locked epoch pool es ps clock p c P C2 clock2 slot2 :
  open_record epoch pool es ps clock -> package_valid p c ->
  co_epoch_account c = epoch -> co_configuration c = epoch_config_of pool ps es -> roots_set p ->
  EpochStateV1_wf (locked_record es p) ->
  ra_owner P = ID -> PoolStateV1_decode (ra_data P) = Ok ps ->
  ra_owner C2 = sysvar_owner_id -> clock_deserialize (ra_data C2) = Some clock2 ->
  (clk_slot clock2 <= slot2)%Z -> (clk_unix_timestamp clock2 <= ep_abort_deadline es)%Z ->
  confirmed_lock_from_accounts epoch {| ra_owner := ID; ra_data := EpochStateV1_encode (locked_record es p) |} P C2 slot2
  = Ok {| cl_epoch_account := epoch; cl_state := locked_record es p; cl_pool := Some ps; cl_confirmation_slot := slot2 |}.
Proof.
  intros HO HV He Hc (Hr & Hm & Hh) HW HP HPd HC HCd Hs Ht. pose proof HO as [HVP HVE Hop _ _].
  destruct HVE as (Hpl & HA & Hmin & Hb & Hq & Hd & HH), HVP as (HPA & HVA & Hl & Hst & Hb0 & Hbq & _).
  assert (EpochConfigurationV1_digest (pk_configuration p) = ep_configuration_hash es) as Hcfg
    by (by rewrite (pv_same_configuration _ _ HV), Hc, HH).
  assert (cfg_lock_deadline (pk_configuration p) = ep_lock_deadline es) as Hdl
    by (by rewrite (pv_same_configuration _ _ HV), Hc).
  assert (ep_minimum_count es <= pk_member_count p)%Z as Hcrowd
    by (pose proof (pv_crowd _ _ HV) as HX; by rewrite (pv_same_configuration _ _ HV), Hc in HX).
  pose proof (pv_nonce _ _ HV) as Hn.
  assert (confirmed_lock_from_account epoch ID (EpochStateV1_encode (locked_record es p)) slot2
    = Ok {| cl_epoch_account := epoch; cl_state := locked_record es p; cl_pool := None; cl_confirmation_slot := slot2 |}) as HL.
  { unfold confirmed_lock_from_account. rewrite bool_decide_eq_true_2 by done. cbn [negb].
    rewrite (EpochStateV1_decode_encode _ HW). cbn [map_err mbind result_bind].
    change (ep_pool (locked_record es p)) with (ep_pool es). change (ep_epoch_id (locked_record es p)) with (ep_epoch_id es).
    rewrite Hpl, HA. rewrite locked_payload_eq by (try done; by rewrite (pv_epoch _ _ HV)).
    cbn [locked_record set_locked terminal_state ep_minimum_count ep_member_count ep_base_lot_atoms ep_quote_atoms_per_lot
      ep_abort_deadline ep_lock_deadline ep_configuration_hash ep_lock_nonce ep_pre_balance_root ep_member_root
      ep_lock_digest epoch_bump LockPackageV1_lock_payload lp_member_count lp_lock_nonce lp_pre_balance_root lp_member_root].
    rewrite Hb, <- Hcfg. rewrite !bool_decide_eq_true_2 by done. rewrite !bool_decide_eq_false_2 by done.
    rewrite !(proj2 (Z.ltb_ge _ _)) by lia. rewrite (proj2 (Z.leb_gt _ _)) by lia. by rewrite bool_decide_eq_true_2. }
  unfold confirmed_lock_from_accounts. cbn [ra_owner ra_data]. rewrite HL. cbn [mbind result_bind cl_state cl_epoch_account cl_confirmation_slot].
  rewrite HP, HC, !bool_decide_eq_true_2 by done. cbn [negb orb]. rewrite HPd. cbn [map_err mbind result_bind].
  change (ep_pool (locked_record es p)) with (ep_pool es). rewrite Hpl, HPA.
  destruct (vault_authority_address pool) as [va vb] eqn:EV. cbn [snd] in HVA. rewrite HCd. cbn [ok_or mbind result_bind].
  replace (confirmed_configuration (locked_record es p) ps) with (epoch_config_of pool ps es) by (by rewrite <- Hpl).
  change (ep_configuration_hash (locked_record es p)) with (ep_configuration_hash es).
  change (ep_abort_deadline (locked_record es p)) with (ep_abort_deadline es).
  subst vb. rewrite Hl, Hst, <- HH. rewrite !bool_decide_eq_true_2 by done. rewrite !bool_decide_eq_false_2 by done.
  rewrite !(proj2 (Z.ltb_ge _ _)) by lia. by rewrite bool_decide_eq_true_2.
Qed.

Lemma validate_locked_of_locked `{!SysvarsLaws} epoch E pool P C slot c es ps p slot2 :
  confirmed_open_epoch_from_accounts epoch E pool P C slot = Ok c -> package_valid p c ->
  EpochStateV1_decode (ra_data E) = Ok es -> PoolStateV1_decode (ra_data P) = Ok ps ->
  Forall (fun s => (slot2 <= fa_expiry_slot (es_authorization s))%Z) (pk_submissions p) ->
  LockPackageV1_validate_locked p
    {| cl_epoch_account := epoch; cl_state := locked_record es p; cl_pool := Some ps; cl_confirmation_slot := slot2 |}
  = Ok (LockPayloadV1_digest (LockPackageV1_lock_payload p)).
Proof.
  intros HO HV HEd HPd HX.
  destruct (confirmed_open_Ok _ _ _ _ _ _ _ HO) as (es0 & ps0 & clock & _ & _ & _ & HE & HP & HC & HR & _ & Ec).
  rewrite HEd in HE. rewrite HPd in HP. injection HE as <-. injection HP as <-.
  destruct HR as [HVP HVE _ Hin Hop], HVE as (Hpl & _ & Hmin & Hb & Hq & Hd & _), HVP as (_ & _ & _ & _ & Hb0 & _).
  unfold LockPackageV1_validate_locked. cbn [cl_pool ok_or mbind result_bind cl_state cl_epoch_account cl_confirmation_slot].
  rewrite Hop. cbn [negb].
  replace (confirmed_configuration (locked_record es p) ps) with (epoch_config_of pool ps es) by (by rewrite <- Hpl).
  unfold AdmissionPolicyV1_new. cbn [epoch_config_of epoch_configuration cfg_epoch_id cfg_minimum_count cfg_base_lot_atoms
    cfg_quote_atoms_per_lot cfg_lock_deadline].
  rewrite (bool_decide_eq_false_2 (Z.to_nat (ep_minimum_count es) = 0)) by lia.
  rewrite (bool_decide_eq_false_2 _ Hb0), (bool_decide_eq_false_2 _ Hq).
  cbn [orb map_err mbind result_bind].
  pose proof (clock_timestamp_range _ _ HC) as Hi. pose proof (EpochStateV1_decode_wf _ _ HEd) as HW.
  rewrite (proj2 (validate_Ok p _ (LockPayloadV1_digest (LockPackageV1_lock_payload p)))).
  - cbn [mbind result_bind]. cbn [locked_record set_locked ep_lock_digest ep_pre_balance_root ep_member_root ep_member_count
      LockPackageV1_lock_payload lp_pre_balance_root lp_member_root lp_member_count].
    by rewrite !bool_decide_eq_true_2.
  - split; [|done]. apply (package_valid_later p c); subst c; try done.
    cbn [co_current_timestamp co_policy ap_current_slot]. rewrite (pv_same_configuration _ _ HV).
    cbn [co_configuration epoch_config_of epoch_configuration cfg_lock_deadline]. unfold i64_ok, saturating_sub_i64 in *.
    assert (i64_ok (ep_lock_deadline es)) as Hl by apply HW. unfold i64_ok in Hl. lia.
Qed.

(** The transaction carries the two records that were read. *)
Definition carries (accounts : list AccountInfo) (epoch : Pubkey) (E : RpcAccount) (pool : Pubkey) (P : RpcAccount) : Prop :=
  NoDup (map ai_key accounts) /\
  ai_key (acct 1 accounts) = pool /\ ai_owner (acct 1 accounts) = ID /\ ai_data (acct 1 accounts) = ra_data P /\
  ai_key (acct 2 accounts) = epoch /\ ai_owner (acct 2 accounts) = ID /\ ai_data (acct 2 accounts) = ra_data E.

(** After a successful [lock] the epoch account holds the locked record, with both roots set. *)
Lemma locked_account accounts accounts' epoch E pool P p es :
  carries accounts epoch E pool P -> EpochStateV1_decode (ra_data E) = Ok es ->
  lock ID accounts (LockPackageV1_lock_payload p) = Ok accounts' ->
  ai_data (acct 2 accounts') = EpochStateV1_encode (locked_record es p) /\
  pk_pre_balance_root p <> zero32 /\ pk_member_root p <> zero32.
Proof.
  intros (_ & _ & _ & _ & _ & _ & Hd) HE (ps & es' & now & n & (Hlen & _) & Hctx & _ & _ & _ & Hm & _ & _ & ->)%lock_Ok.
  destruct Hctx as (_ & _ & _ & _ & _ & _ & HE' & _), Hm as (_ & _ & _ & _ & Hr1 & Hr2 & _).
  rewrite Hd, HE in HE'. injection HE' as <-. split_and!; [|done..]. by rewrite acct_insert_eq by lia.
Qed.

Lemma locked_record_wf data p c es :
  EpochStateV1_decode data = Ok es -> package_valid p c -> EpochStateV1_wf (locked_record es p).
Proof.
  intros HE HV. pose proof (EpochStateV1_decode_wf _ _ HE) as (? & ? & ? & ? & ? & ? & ? & ? & ?).
  pose proof (pv_limit _ _ HV). pose proof (pv_count _ _ HV) as Hc.
  unfold EpochStateV1_wf, locked_record, set_locked, LockPackageV1_lock_payload.
  cbn [epoch_bump ep_residual_side ep_member_count ep_minimum_count ep_residual_lots ep_base_lot_atoms
    ep_quote_atoms_per_lot ep_lock_deadline ep_abort_deadline lp_member_count].
  split_and!; try done; unfold u32_ok; lia.
Qed.

(** ** What the client's fetches rely on *)

(** The reply to the second read held program-owned epoch and pool records. *)
Definition served (rpc : RpcReplies) (keys : list Pubkey) (es : EpochStateV1) (ps : PoolStateV1) : Prop :=
  exists slot E P C, get_multiple_accounts rpc keys = Some (slot, [Some E; Some P; Some C]) /\
    ra_owner E = ID /\ EpochStateV1_decode (ra_data E) = Ok es /\
    ra_owner P = ID /\ PoolStateV1_decode (ra_data P) = Ok ps /\ ra_owner C = sysvar_owner_id.

Lemma next_account_Ok accounts i a : next_account accounts i = Ok a <-> accounts !! i = Some (Some a).
Proof. unfold next_account. rewrite ok_or_Ok. destruct (accounts !! i) as [[b|]|]; naive_solver. Qed.

Lemma three_accounts accounts E P C :
  length accounts = 3 -> next_account accounts 0 = Ok E -> next_account accounts 1 = Ok P ->
  next_account accounts 2 = Ok C -> accounts = [Some E; Some P; Some C].
Proof.
  rewrite !next_account_Ok. destruct accounts as [|a [|b [|c [|]]]]; try done. cbn. intros _ [= ->] [= ->] [= ->]. done.
Qed.

Lemma fetch_open_sound rpc epoch c :
  fetch_confirmed_open_epoch rpc epoch = Ok c ->
  exists es ps clock, served rpc [epoch; ep_pool es; clock_sysvar_id] es ps /\
    open_record epoch (ep_pool es) es ps clock /\ co_epoch_account c = epoch /\
    co_configuration c = epoch_config_of (ep_pool es) ps es.
Proof.
  unfold fetch_confirmed_open_epoch. intros HF.
  apply bind_Ok in HF as ([slot0 v] & _ & HF). apply bind_Ok in HF as (e0 & _ & HF). apply bind_Ok in HF as (st & _ & HF).
  apply bind_Ok in HF as ([slot accounts] & HM & HF). apply ok_or_Ok in HM. apply guard_Ok in HF as [HG HF]. bguard.
  apply bind_Ok in HF as (E & HE & HF). apply bind_Ok in HF as (P & HP & HF). apply bind_Ok in HF as (C & HC & HF).
  pose proof (three_accounts accounts E P C ltac:(assumption) HE HP HC) as ->.
  destruct (confirmed_open_Ok _ _ _ _ _ _ _ HF) as (es & ps & clock & ? & ? & ? & ? & ? & _ & HR & _ & ->).
  pose proof (or_epoch _ _ _ _ _ HR) as (Hpl & _). exists es, ps, clock. rewrite Hpl in *. split_and!; try done.
  exists slot, E, P, C. done.
Qed.

Lemma fetch_lock_sound rpc epoch c :
  fetch_confirmed_lock rpc epoch = Ok c ->
  exists pool ps, served rpc [epoch; pool; clock_sysvar_id] (cl_state c) ps /\ cl_pool c = Some ps /\
    cl_epoch_account c = epoch /\ terminal_state (cl_state c) = Locked /\
    epoch_address (ep_pool (cl_state c)) (ep_epoch_id (cl_state c)) = (epoch, epoch_bump (cl_state c)) /\
    pool_address (pl_operator ps) (pl_base_mint ps) (pl_quote_mint ps) = (ep_pool (cl_state c), pool_bump ps) /\
    ep_configuration_hash (cl_state c) = EpochConfigurationV1_digest (epoch_config_of (ep_pool (cl_state c)) ps (cl_state c)) /\
    ConfirmedLock_lock_digest c = LockPayloadV1_digest (locked_payload epoch (cl_state c)) /\
    (4 <= ep_minimum_count (cl_state c) <= ep_member_count (cl_state c))%Z.
Proof.
  unfold fetch_confirmed_lock. intros HF.
  apply bind_Ok in HF as ([slot0 v] & _ & HF). apply bind_Ok in HF as (e0 & _ & HF). apply bind_Ok in HF as (st & _ & HF).
  apply bind_Ok in HF as ([slot accounts] & HM & HF). apply ok_or_Ok in HM. apply guard_Ok in HF as [HG HF]. bguard.
  apply bind_Ok in HF as (E & HE & HF). apply bind_Ok in HF as (P & HP & HF). apply bind_Ok in HF as (C & HC & HF).
  pose proof (three_accounts accounts E P C ltac:(assumption) HE HP HC) as ->.
  exists (ep_pool (cl_state st)). unfold confirmed_lock_from_accounts, confirmed_lock_from_account in HF.
  apply bind_Ok in HF as (cl & HL & HF). apply guard_Ok in HL as [HL0 HL]. apply bind_Ok in HL as (es & Hes & HL).
  apply map_err_Ok in Hes. destruct (epoch_address _ _) as [ea eb] eqn:EA. apply guard_Ok in HL as [HL1 HL].
  apply Ok_inj in HL. subst cl. cbn [cl_state cl_epoch_account cl_confirmation_slot] in HF.
  apply guard_Ok in HF as [HG2 HF]. apply bind_Ok in HF as (ps & Hps & HF). apply map_err_Ok in Hps.
  destruct (pool_address _ _ _) as [pa pb] eqn:EP, (vault_authority_address _) as [va vb].
  apply bind_Ok in HF as (clock & Hck & HF). apply guard_Ok in HF as [HG3 HF]. apply Ok_inj in HF. subst c. bguard. subst.
  exists ps. cbn [cl_state cl_pool cl_epoch_account ConfirmedLock_lock_digest]. split_and!; try done; try lia.
  exists slot, E, P, C. done.
Qed.

Lemma fetch_terminal_sound rpc epoch t :
  fetch_confirmed_terminal_epoch rpc epoch = Ok t ->
  exists slot data es, get_account rpc epoch = Some (slot, Some {| ra_owner := ID; ra_data := data |}) /\
    EpochStateV1_decode data = Ok es /\ (terminal_state es = Expired \/ terminal_state es = Aborted) /\
    epoch_address (ep_pool es) (ct_epoch_id t) = (epoch, epoch_bump es) /\ ct_epoch_id t = ep_epoch_id es /\
    ct_epoch_account t = epoch /\ ct_terminal_state t = terminal_state es /\ ct_confirmation_slot t = slot.
Proof.
  unfold fetch_confirmed_terminal_epoch, confirmed_terminal_epoch_from_account. intros HF.
  apply bind_Ok in HF as ([slot v] & HA & HF). apply ok_or_Ok in HA. apply bind_Ok in HF as ([o data] & Hv & HF).
  apply ok_or_Ok in Hv. subst v. apply bind_Ok in HF as (es & HD & HF). cbn [ra_owner ra_data] in HD.
  apply decode_program_epoch_Ok in HD as (-> & HE & EA). exists slot, data, es.
  destruct (terminal_state es) eqn:ET; try done; injection HF as <-; cbn; naive_solver.
Qed.
End chain.
