(* ===== verification/Settlement.v ===== *)
(** * Settlement requests and approvals (crates/kageb-host/src/evidence.rs)

    The coordinator builds a request from a locked package and the released shares; every keyper
    recomputes the whole result from the same inputs before it signs.  This file holds the
    recomputation, the request and approval with their wire forms, and the signing operation. *)

From S2P Require Import Prelude Bytes Extern ProgramWire ProgramState BTree Domain Ledger Commitment.
From S2P Require Import Storage Reservation HostExtern HostCrypto Account LockJournal Lock.

Definition RESULT_COMMITMENT_DOMAIN : list byte := Eval vm_compute in bstr0 "KAGEB_RESULT_COMMITMENT_V1".
Definition RECOVERED_INTENTS_DOMAIN : list byte := Eval vm_compute in bstr0 "KAGEB_RECOVERED_INTENTS_V1".
Definition MAX_RELEASED_SHARE_WIRE_LEN : nat := 512.

Module SettlementValidationError.
Inductive t : Type :=
| InvalidLock
| InvalidBatch
| InvalidBalance
| InvalidResult
| InvalidNonce
| WrongKeyper
| MemberLimitExceeded.
End SettlementValidationError.
Abbreviation SettlementValidationError := SettlementValidationError.t.
Global Instance SettlementValidationError_eq_dec : EqDecision SettlementValidationError.
Proof. solve_decision. Defined.

Record SettlementBalanceV1 : Type := {
  sb_participant_id : bytes32;
  sb_base_atoms : Z;
  sb_quote_atoms : Z;
}.
Global Instance SettlementBalanceV1_eq_dec : EqDecision SettlementBalanceV1.
Proof. solve_decision. Defined.

Definition encode_settlement_balance (balance : SettlementBalanceV1) : list byte :=
  let bytes := zeros 48 in
  let bytes := put_at 0 (sb_participant_id balance) bytes in
  let bytes := put_at 32 (le_bytes 8 (sb_base_atoms balance)) bytes in
  let bytes := put_at 40 (le_bytes 8 (sb_quote_atoms balance)) bytes in
  bytes.

Definition residual_wire (residual : Residual) : Z * Z :=
  match residual with
  | Residual.None => (0, 0)
  | Residual.Buy lots => (1, lots)
  | Residual.Sell lots => (2, lots)
  end%Z.

(** [match (side, lots)] of the request decoder. *)
Definition residual_unwire (side lots : Z) : result SettlementValidationError Residual :=
  if (side =? 0)%Z && (lots =? 0)%Z then Ok Residual.None else
  if (side =? 1)%Z && (1 <=? lots)%Z then Ok (Residual.Buy lots) else
  if (side =? 2)%Z && (1 <=? lots)%Z then Ok (Residual.Sell lots) else
  Err SettlementValidationError.InvalidResult.

(** ** Reading a wire frame *)

Definition take_array (N : nat) (bytes : list byte) (offset : nat) : result SettlementValidationError (arr N * nat) :=
  last ← ok_or SettlementValidationError.InvalidBatch (checked_add_usize offset N);
  range ← ok_or SettlementValidationError.InvalidBatch (get_range offset last bytes);
  value ← ok_or SettlementValidationError.InvalidBatch (try_into N range);
  Ok (value, last).

Definition take_u32 (bytes : list byte) (offset : nat) : result SettlementValidationError (Z * nat) :=
  '(value, offset) ← take_array 4 bytes offset;
  Ok (le_val (arr_list value), offset).

(** ** Commitments *)

Definition result_leaf (prior : PoolBalance) (balance : SettlementBalanceV1) : list byte :=
  let leaf := zeros 64 in
  let leaf := put_at 0 (sb_participant_id balance) leaf in
  let leaf := put_at 32 (le_bytes 8 (base_atoms prior)) leaf in
  let leaf := put_at 40 (le_bytes 8 (quote_atoms prior)) leaf in
  let leaf := put_at 48 (le_bytes 8 (sb_base_atoms balance)) leaf in
  let leaf := put_at 56 (le_bytes 8 (sb_quote_atoms balance)) leaf in
  leaf.

Section settlement.
Context `{Sha256} `{Dalek} `{Threshold}.

Definition settlement_balance_root (balances : list SettlementBalanceV1) : result SettlementValidationError bytes32 :=
  map_err (fun _ => SettlementValidationError.InvalidBalance)
    (content_root BalanceSet (map encode_settlement_balance balances)).

Definition per_participant_result_root (before : Balances) (after : list SettlementBalanceV1)
  : result SettlementValidationError bytes32 :=
  leaves ← try_map (fun balance =>
    prior ← ok_or SettlementValidationError.InvalidBalance (before !! sb_participant_id balance);
    Ok (result_leaf prior balance)) after;
  map_err (fun _ => SettlementValidationError.InvalidResult) (content_root ResultSet leaves).

Definition recovered_intents_root (recovered : list SignedIntentV1) : bytes32 :=
  let leaves := sort_arr (map (fun intent => sha256 (SignedIntentV1_encode intent)) recovered) in
  sha256 (RECOVERED_INTENTS_DOMAIN ++ le_bytes 8 (Z.of_nat (length leaves)) ++ concat (map arr_list leaves)).

Definition result_commitment (confirmed : ConfirmedLock) (recovered_root pre_balance_root post_balance_root : bytes32)
    (residual : Residual) (result_root : bytes32) : bytes32 :=
  let '(side, lots) := residual_wire residual in
  sha256 (RESULT_COMMITMENT_DOMAIN ++ (cl_epoch_account confirmed : list byte)
    ++ (ConfirmedLock_lock_digest confirmed : list byte) ++ (recovered_root : list byte)
    ++ (pre_balance_root : list byte) ++ (post_balance_root : list byte) ++ [byte_of side] ++ le_bytes 4 lots
    ++ (result_root : list byte)).

(** ** Decryption evidence *)

Record DecryptionEvidenceV1 : Type := { de_first : ReleasedShareV1; de_second : ReleasedShareV1 }.

Definition DecryptionEvidenceV1_new (first second : ReleasedShareV1)
  : result SettlementValidationError DecryptionEvidenceV1 :=
  if rel_index first == rel_index second then Err SettlementValidationError.InvalidBatch else
  Ok {| de_first := first; de_second := second |}.

Definition DecryptionEvidenceV1_shares (e : DecryptionEvidenceV1) : list ReleasedShareV1 := [de_first e; de_second e].

(** ** Recomputation *)

(** One turn of the recovery loop over members and their shares. *)
Definition recover_member (package : LockPackageV1) (confirmed : ConfirmedLock)
    (member : EncryptedSubmissionV1 * DecryptionEvidenceV1) : result SettlementValidationError SignedIntentV1 :=
  let '(submission, evidence) := member in
  if existsb (fun share => (rel_epoch_account share != cl_epoch_account confirmed)
                           || (rel_lock_digest share != ConfirmedLock_lock_digest confirmed))
       (DecryptionEvidenceV1_shares evidence)
  then Err SettlementValidationError.InvalidBatch else
  map_err (fun _ => SettlementValidationError.InvalidBatch)
    (EpochPublicKeys_recover_submission (pk_epoch_public_keys package) submission (DecryptionEvidenceV1_shares evidence)).

Definition index_submission (submissions : gmap bytes32 EncryptedSubmissionV1) (submission : EncryptedSubmissionV1)
  : result SettlementValidationError (gmap bytes32 EncryptedSubmissionV1) :=
  let participant := fa_participant_id (es_authorization submission) in
  match submissions !! participant with
  | Some _ => Err SettlementValidationError.InvalidBatch
  | None => Ok (<[participant := submission]> submissions)
  end.

(** One turn of the order loop: participants seen, orders so far. *)
Definition order_of_intent (epoch_id : bytes32) (submissions : gmap bytes32 EncryptedSubmissionV1)
    (st : gset bytes32 * list FundedOrder) (intent : SignedIntentV1)
  : result SettlementValidationError (gset bytes32 * list FundedOrder) :=
  let '(seen, orders) := st in
  let participant := ib_participant_id (si_body intent) in
  submission ← ok_or SettlementValidationError.InvalidBatch (submissions !! participant);
  if bool_decide (participant ∈ seen) then Err SettlementValidationError.InvalidBatch else
  let seen := {[participant]} ∪ seen in
  let trading_key := fa_trading_key (es_authorization submission) in
  if negb (verifying_key_ok trading_key) then Err SettlementValidationError.InvalidBatch else
  map_err (fun _ => SettlementValidationError.InvalidBatch) (SignedIntentV1_verify intent trading_key epoch_id participant) ;;
  order ← map_err (fun _ => SettlementValidationError.InvalidBatch)
    (FundedOrder_new participant (ib_side (si_body intent)) (ib_limit_price (si_body intent)));
  Ok (seen, orders ++ [order]).

(** Collecting the package's balances into a [BTreeMap]. *)
Definition before_of (balances : list BalanceRecordV1) : Balances :=
  fold_left (fun table balance => <[br_participant_id balance := BalanceRecordV1_pool_balance balance]> table) balances ∅.

Definition post_balances_of (balances : Balances) : list SettlementBalanceV1 :=
  map (fun entry => {| sb_participant_id := fst entry; sb_base_atoms := base_atoms (snd entry);
                       sb_quote_atoms := quote_atoms (snd entry) |}) (btree_list balances).

Record RecomputedSettlement : Type := {
  rc_post_balances : list SettlementBalanceV1;
  rc_pre_balance_root : bytes32;
  rc_post_balance_root : bytes32;
  rc_residual : Residual;
  rc_result_root : bytes32;
  rc_result_commitment : bytes32;
  rc_payload : SettlementPayloadV1;
}.

Definition settlement_payload (confirmed : ConfirmedLock) (pool : PoolStateV1) (commitment : bytes32)
    (residual : Residual) (settlement_nonce : bytes32) : SettlementPayloadV1 :=
  let '(residual_side, residual_lots) := residual_wire residual in
  {| sp_epoch_account := cl_epoch_account confirmed; sp_lock_digest := ConfirmedLock_lock_digest confirmed;
     sp_result_commitment := commitment; sp_residual_side := residual_side; sp_residual_lots := residual_lots;
     sp_base_lot_atoms := ep_base_lot_atoms (cl_state confirmed);
     sp_quote_atoms_per_lot := ep_quote_atoms_per_lot (cl_state confirmed);
     sp_base_mint := pl_base_mint pool; sp_quote_mint := pl_quote_mint pool;
     sp_pool_base_vault := pl_pool_base_vault pool; sp_pool_quote_vault := pl_pool_quote_vault pool;
     sp_venue_base_account := pl_venue_base_account pool; sp_venue_quote_account := pl_venue_quote_account pool;
     sp_venue_authority := pl_venue_authority pool; sp_settlement_nonce := settlement_nonce |}.

Definition recompute (package : LockPackageV1) (decryption_evidence : list DecryptionEvidenceV1)
    (settlement_nonce : bytes32) (confirmed : ConfirmedLock) : result SettlementValidationError RecomputedSettlement :=
  map_err (fun _ => SettlementValidationError.InvalidLock) (LockPackageV1_validate_locked package confirmed) ;;
  if (settlement_nonce == zero32) || (settlement_nonce == ep_lock_nonce (cl_state confirmed))
  then Err SettlementValidationError.InvalidNonce else
  if (length decryption_evidence != length (pk_submissions package)) || (MAX_BATCH_MEMBERS <? length decryption_evidence)
  then Err SettlementValidationError.InvalidBatch else
  recovered ← try_map (recover_member package confirmed) (zip (pk_submissions package) decryption_evidence);
  submissions ← try_fold index_submission ∅ (pk_submissions package);
  '(_, orders) ← try_fold (order_of_intent (cfg_epoch_id (pk_configuration package)) submissions) (∅, []) recovered;
  let before := before_of (pk_balances package) in
  if size before != length (pk_balances package) then Err SettlementValidationError.InvalidBalance else
  config ← map_err (fun _ => SettlementValidationError.InvalidBatch)
    (BatchConfig_new (cfg_base_lot_atoms (pk_configuration package)) (cfg_quote_atoms_per_lot (pk_configuration package)));
  result ← map_err (fun _ => SettlementValidationError.InvalidBatch) (net_batch config before orders);
  if negb (conserves result before) then Err SettlementValidationError.InvalidBalance else
  let post_balances := post_balances_of (balances result) in
  post_balance_root ← settlement_balance_root post_balances;
  result_root ← per_participant_result_root before post_balances;
  let recovered_root := recovered_intents_root recovered in
  let pre_balance_root := pk_pre_balance_root package in
  let commitment := result_commitment confirmed recovered_root pre_balance_root post_balance_root (residual result) result_root in
  pool ← ok_or SettlementValidationError.InvalidLock (cl_pool confirmed);
  Ok {| rc_post_balances := post_balances; rc_pre_balance_root := pre_balance_root;
        rc_post_balance_root := post_balance_root; rc_residual := residual result; rc_result_root := result_root;
        rc_result_commitment := commitment;
        rc_payload := settlement_payload confirmed pool commitment (residual result) settlement_nonce |}.

(** ** Requests *)

Record SettlementRequestV1 : Type := {
  sq_package : LockPackageV1;
  sq_decryption_evidence : list DecryptionEvidenceV1;
  sq_post_balances : list SettlementBalanceV1;
  sq_pre_balance_root : bytes32;
  sq_post_balance_root : bytes32;
  sq_residual : Residual;
  sq_result_root : bytes32;
  sq_result_commitment : bytes32;
  sq_settlement_nonce : bytes32;
  sq_settlement_digest : bytes32;
}.

Definition SettlementRequestV1_build (package : LockPackageV1) (decryption_evidence : list DecryptionEvidenceV1)
    (settlement_nonce : bytes32) (confirmed : ConfirmedLock) : result SettlementValidationError SettlementRequestV1 :=
  recomputed ← recompute package decryption_evidence settlement_nonce confirmed;
  let settlement_digest := SettlementPayloadV1_digest (rc_payload recomputed) in
  Ok {| sq_package := package; sq_decryption_evidence := decryption_evidence;
        sq_post_balances := rc_post_balances recomputed; sq_pre_balance_root := rc_pre_balance_root recomputed;
        sq_post_balance_root := rc_post_balance_root recomputed; sq_residual := rc_residual recomputed;
        sq_result_root := rc_result_root recomputed; sq_result_commitment := rc_result_commitment recomputed;
        sq_settlement_nonce := settlement_nonce; sq_settlement_digest := settlement_digest |}.

(** One length-prefixed share of the wire form. *)
Definition share_frame (share : ReleasedShareV1) : result SettlementValidationError (list byte) :=
  encoded ← map_err (fun _ => SettlementValidationError.InvalidBatch) (ReleasedShareV1_encode_wire share);
  if MAX_RELEASED_SHARE_WIRE_LEN <? length encoded then Err SettlementValidationError.InvalidBatch else
  len ← ok_or SettlementValidationError.InvalidBatch (checked_u32 (Z.of_nat (length encoded)));
  Ok (le_bytes 4 len ++ encoded).

Definition SettlementRequestV1_encode_wire (r : SettlementRequestV1) : result SettlementValidationError (list byte) :=
  package ← map_err (fun _ => SettlementValidationError.InvalidBatch) (LockPackageV1_encode_wire (sq_package r));
  package_len ← ok_or SettlementValidationError.InvalidBatch (checked_u32 (Z.of_nat (length package)));
  evidence_count ← ok_or SettlementValidationError.InvalidBatch (checked_u32 (Z.of_nat (length (sq_decryption_evidence r))));
  frames ← try_map share_frame (concat (map DecryptionEvidenceV1_shares (sq_decryption_evidence r)));
  post_count ← ok_or SettlementValidationError.InvalidBalance (checked_u32 (Z.of_nat (length (sq_post_balances r))));
  let '(side, lots) := residual_wire (sq_residual r) in
  Ok ([byte_of 1] ++ le_bytes 4 package_len ++ package ++ le_bytes 4 evidence_count ++ concat frames
      ++ le_bytes 4 post_count ++ concat (map encode_settlement_balance (sq_post_balances r))
      ++ (sq_pre_balance_root r : list byte) ++ (sq_post_balance_root r : list byte)
      ++ [byte_of side] ++ le_bytes 4 lots
      ++ (sq_result_root r : list byte) ++ (sq_result_commitment r : list byte)
      ++ (sq_settlement_nonce r : list byte) ++ (sq_settlement_digest r : list byte)).

Definition take_share (bytes : list byte) (offset : nat) : result SettlementValidationError (ReleasedShareV1 * nat) :=
  '(share_len, offset) ← take_u32 bytes offset;
  if (Z.of_nat MAX_RELEASED_SHARE_WIRE_LEN <? share_len)%Z then Err SettlementValidationError.InvalidBatch else
  last ← ok_or SettlementValidationError.InvalidBatch (checked_add_usize offset (Z.to_nat share_len));
  range ← ok_or SettlementValidationError.InvalidBatch (get_range offset last bytes);
  share ← map_err (fun _ => SettlementValidationError.InvalidBatch) (ReleasedShareV1_decode_wire range);
  Ok (share, last).

Fixpoint take_evidence (n : nat) (bytes : list byte) (offset : nat)
  : result SettlementValidationError (list DecryptionEvidenceV1 * nat) :=
  match n with
  | O => Ok ([], offset)
  | S n =>
      '(first, offset) ← take_share bytes offset;
      '(second, offset) ← take_share bytes offset;
      evidence ← DecryptionEvidenceV1_new first second;
      '(rest, offset) ← take_evidence n bytes offset;
      Ok (evidence :: rest, offset)
  end.

Definition take_balance (bytes : list byte) (offset : nat) : result SettlementValidationError (SettlementBalanceV1 * nat) :=
  '(encoded, offset) ← take_array 48 bytes offset;
  participant_id ← ok_or SettlementValidationError.InvalidBalance (try_into 32 (slice 0 32 (arr_list encoded)));
  Ok ({| sb_participant_id := participant_id; sb_base_atoms := le_val (slice 32 40 (arr_list encoded));
         sb_quote_atoms := le_val (slice 40 48 (arr_list encoded)) |}, offset).

Fixpoint take_balances (n : nat) (bytes : list byte) (offset : nat)
  : result SettlementValidationError (list SettlementBalanceV1 * nat) :=
  match n with
  | O => Ok ([], offset)
  | S n =>
      '(balance, offset) ← take_balance bytes offset;
      '(rest, offset) ← take_balances n bytes offset;
      Ok (balance :: rest, offset)
  end.

(** The guard on [package_end] refuses what [bytes.get(offset..package_end)] refuses anyway; it keeps
    the conversion to an index small. *)
Definition SettlementRequestV1_decode_wire (bytes : list byte) : result SettlementValidationError SettlementRequestV1 :=
  if (length bytes <? 1 + 4) || (u8_at 0 bytes != 1%Z) then Err SettlementValidationError.InvalidBatch else
  '(package_len, offset) ← take_u32 bytes 1;
  package_end ← ok_or SettlementValidationError.InvalidBatch (checked_u64 (Z.of_nat offset + package_len));
  if (Z.of_nat (length bytes) <? package_end)%Z then Err SettlementValidationError.InvalidBatch else
  range ← ok_or SettlementValidationError.InvalidBatch (get_range offset (Z.to_nat package_end) bytes);
  package ← map_err (fun _ => SettlementValidationError.InvalidBatch) (LockPackageV1_decode_wire range);
  '(evidence_count, offset) ← take_u32 bytes (Z.to_nat package_end);
  if (Z.of_nat MAX_BATCH_MEMBERS <? evidence_count)%Z
     || (evidence_count != Z.of_nat (length (pk_submissions package)))
     || (evidence_count != pk_member_count package)
  then Err SettlementValidationError.MemberLimitExceeded else
  '(decryption_evidence, offset) ← take_evidence (Z.to_nat evidence_count) bytes offset;
  '(post_count, offset) ← take_u32 bytes offset;
  if (Z.of_nat MAX_BATCH_MEMBERS <? post_count)%Z || (post_count != Z.of_nat (length (pk_balances package)))
  then Err SettlementValidationError.MemberLimitExceeded else
  '(post_balances, offset) ← take_balances (Z.to_nat post_count) bytes offset;
  '(pre_balance_root, offset) ← take_array 32 bytes offset;
  '(post_balance_root, offset) ← take_array 32 bytes offset;
  if length bytes <=? offset then Err SettlementValidationError.InvalidResult else
  let side := u8_at offset bytes in
  '(lots, offset) ← take_u32 bytes (offset + 1);
  residual ← residual_unwire side lots;
  '(result_root, offset) ← take_array 32 bytes offset;
  '(result_commitment, offset) ← take_array 32 bytes offset;
  '(settlement_nonce, offset) ← take_array 32 bytes offset;
  '(settlement_digest, offset) ← take_array 32 bytes offset;
  if offset != length bytes then Err SettlementValidationError.InvalidBatch else
  Ok {| sq_package := package; sq_decryption_evidence := decryption_evidence; sq_post_balances := post_balances;
        sq_pre_balance_root := pre_balance_root; sq_post_balance_root := post_balance_root; sq_residual := residual;
        sq_result_root := result_root; sq_result_commitment := result_commitment;
        sq_settlement_nonce := settlement_nonce; sq_settlement_digest := settlement_digest |}.

(** ** Approvals *)

Record SettlementApprovalV1 : Type := {
  sa_keyper_key : bytes32;
  sa_payload : SettlementPayloadV1;
  sa_digest : bytes32;
  sa_signature : arr 64;
}.

Definition SettlementApprovalV1_verify (a : SettlementApprovalV1) : bool :=
  if negb (verifying_key_ok (sa_keyper_key a)) then false else
  (sa_digest a == SettlementPayloadV1_digest (sa_payload a))
  && dalek_verify (sa_keyper_key a) (sa_digest a) (sa_signature a).

Definition SettlementApprovalV1_encode_wire (a : SettlementApprovalV1) : list byte :=
  [byte_of 1] ++ (sa_keyper_key a : list byte) ++ SettlementPayloadV1_encode (sa_payload a)
  ++ (sa_digest a : list byte) ++ (sa_signature a : list byte).

Definition SettlementApprovalV1_decode_wire (bytes : list byte) : result SettlementValidationError SettlementApprovalV1 :=
  if (length bytes != 503) || (u8_at 0 bytes != 1%Z) then Err SettlementValidationError.InvalidResult else
  payload ← ok_or SettlementValidationError.InvalidResult (SettlementPayloadV1_decode (slice 33 407 bytes));
  keyper_key ← ok_or SettlementValidationError.InvalidResult (try_into 32 (slice 1 33 bytes));
  digest ← ok_or SettlementValidationError.InvalidResult (try_into 32 (slice 407 439 bytes));
  signature ← ok_or SettlementValidationError.InvalidResult (try_into 64 (slice 439 503 bytes));
  Ok {| sa_keyper_key := keyper_key; sa_payload := payload; sa_digest := digest; sa_signature := signature |}.

Definition ReferenceKeyper_sign_settlement (keyper : ReferenceKeyper) (request : SettlementRequestV1)
    (confirmed : ConfirmedLock) (secret : KeyperSecretShare) : result SettlementValidationError SettlementApprovalV1 :=
  recomputed ← recompute (sq_package request) (sq_decryption_evidence request) (sq_settlement_nonce request) confirmed;
  let digest := SettlementPayloadV1_digest (rc_payload recomputed) in
  if (sq_post_balances request != rc_post_balances recomputed)
     || (sq_pre_balance_root request != rc_pre_balance_root recomputed)
     || (sq_post_balance_root request != rc_post_balance_root recomputed)
     || (sq_residual request != rc_residual recomputed)
     || (sq_result_root request != rc_result_root recomputed)
     || (sq_result_commitment request != rc_result_commitment recomputed)
     || (sq_settlement_digest request != digest)
  then Err SettlementValidationError.InvalidResult else
  pool ← ok_or SettlementValidationError.InvalidLock (cl_pool confirmed);
  configured ← ok_or SettlementValidationError.WrongKeyper (keyper_list (pl_keypers pool) !! Z.to_nat (rk_index keyper));
  let keyper_key := verifying_key (rk_signing_key keyper) in
  if (configured != keyper_key) || (ks_index secret != rk_index keyper)
     || (ks_epoch_account secret != pk_epoch_account (sq_package request))
     || negb (EpochPublicKeys_matches_share (pk_epoch_public_keys (sq_package request)) secret)
     || (LockJournal_digest (rk_journal keyper) (cl_epoch_account confirmed) != Some (ConfirmedLock_lock_digest confirmed))
  then Err SettlementValidationError.WrongKeyper else
  Ok {| sa_keyper_key := keyper_key; sa_payload := rc_payload recomputed; sa_digest := digest;
        sa_signature := dalek_sign (rk_signing_key keyper) digest |}.
End settlement.
