(* ===== verification/SettlementWire.v ===== *)
(** * Codecs of settlement requests and approvals

    A request is read with a cursor: [unread bytes offset rest] says that [rest] is what the cursor
    has not consumed, and each reader is shown to take its field off the front of it. *)

From S2P Require Import Prelude Bytes Extern ProgramWire ProgramState BTree Domain Ledger.
From S2P Require Import Storage HostExtern HostCrypto HostCryptoProps LockJournal Lock LockWire Settlement.

(** ** The cursor *)

Definition unread (bytes : list byte) (offset : nat) (rest : list byte) : Prop :=
  offset <= length bytes /\ (Z.of_nat (length bytes) < 2 ^ 64)%Z /\ drop offset bytes = rest.

Lemma unread_length bytes offset rest : unread bytes offset rest -> length bytes = offset + length rest.
Proof. intros (? & _ & <-). rewrite length_drop. lia. Qed.

Lemma unread_app bytes offset field rest :
  unread bytes offset (field ++ rest) -> unread bytes (offset + length field) rest.
Proof.
  intros HU. pose proof (unread_length _ _ _ HU) as Hl. rewrite length_app in Hl. destruct HU as (_ & Hz & Hd).
  split_and!; [lia | done |]. by rewrite <- drop_drop, Hd, drop_app_length.
Qed.

(** The checked range [offset .. offset + len] is the next field. *)
Lemma unread_range bytes offset field rest :
  unread bytes offset (field ++ rest) ->
  checked_add_usize offset (length field) = Some (offset + length field) /\
  get_range offset (offset + length field) bytes = Some field.
Proof.
  intros HU. pose proof (unread_length _ _ _ HU) as Hl. rewrite length_app in Hl. destruct HU as (_ & Hz & Hd). split.
  - apply checked_add_usize_Some. lia.
  - apply get_range_Some. split; [lia|]. unfold slice. replace (offset + length field - offset) with (length field) by lia.
    by rewrite Hd, take_app_length.
Qed.

(** [reads f bytes offset v rest]: the reader takes [v] and leaves [rest]. *)
Definition reads {A} (f : list byte -> nat -> result SettlementValidationError (A * nat)) (bytes : list byte) (offset : nat)
    (v : A) (rest : list byte) : Prop :=
  exists offset', f bytes offset = Ok (v, offset') /\ unread bytes offset' rest.

Lemma reads_array N bytes offset (a : arr N) rest :
  unread bytes offset ((a : list byte) ++ rest) -> reads (take_array N) bytes offset a rest.
Proof.
  intros HU. destruct (unread_range _ _ _ _ HU) as [HA HG]. pose proof (unread_app _ _ _ _ HU) as HN.
  rewrite length_arr in *. exists (offset + N). split; [|done]. unfold take_array. rewrite HA. cbn [ok_or mbind result_bind].
  rewrite HG. cbn [ok_or mbind result_bind]. by rewrite try_into_arr.
Qed.

Lemma reads_len bytes offset n rest :
  u32_ok n -> unread bytes offset (le_bytes 4 n ++ rest) -> reads take_u32 bytes offset n rest.
Proof.
  intros Hn HU. destruct (try_into_is_Some 4 (le_bytes 4 n) (length_le_bytes 4 n)) as (a & _ & Ha).
  rewrite <- Ha in HU. destruct (reads_array _ _ _ _ _ HU) as (offset' & E & HU'). exists offset'. split; [|done].
  unfold take_u32. rewrite E. cbn [mbind result_bind]. by rewrite Ha, le_val_u32.
Qed.

Section wire.
Context `{Sha256} `{Dalek} `{Threshold}.

(** ** Fields *)

Lemma share_frame_Ok share frame :
  share_frame share = Ok frame -> exists encoded, ReleasedShareV1_encode_wire share = Ok encoded /\
    length encoded <= MAX_RELEASED_SHARE_WIRE_LEN /\ frame = le_bytes 4 (Z.of_nat (length encoded)) ++ encoded.
Proof.
  unfold share_frame. intros E. apply bind_Ok in E as (encoded & He & E). apply map_err_Ok in He.
  apply guard_Ok in E as [G E]. apply bind_Ok in E as (n & Hl & E). apply ok_or_Ok in Hl. apply Ok_inj in E. subst frame.
  checked. apply Nat.ltb_ge in G. by exists encoded.
Qed.

Lemma reads_share `{!ThresholdLaws} bytes offset share frame rest :
  u64_ok (rel_index share) -> share_frame share = Ok frame -> unread bytes offset (frame ++ rest) ->
  reads take_share bytes offset share rest.
Proof.
  intros Hi (encoded & He & Hl & ->)%share_frame_Ok HU. rewrite <- app_assoc in HU. unfold MAX_RELEASED_SHARE_WIRE_LEN in Hl.
  apply reads_len in HU as (o1 & E1 & HU); [|unfold u32_ok; lia].
  destruct (unread_range _ _ _ _ HU) as [HA HG]. exists (o1 + length encoded). split; [|by apply unread_app].
  unfold take_share, MAX_RELEASED_SHARE_WIRE_LEN. rewrite E1. cbn [mbind result_bind]. rewrite (proj2 (Z.ltb_ge _ _)) by lia.
  rewrite Nat2Z.id, HA. cbn [ok_or mbind result_bind]. rewrite HG. cbn [ok_or mbind result_bind].
  by rewrite (released_decode_encode share encoded).
Qed.

Definition evidence_wf (e : DecryptionEvidenceV1) : Prop :=
  u64_ok (rel_index (de_first e)) /\ u64_ok (rel_index (de_second e)) /\ rel_index (de_first e) <> rel_index (de_second e).

Lemma reads_evidence `{!ThresholdLaws} bytes l offset frames rest :
  Forall evidence_wf l -> try_map share_frame (concat (map DecryptionEvidenceV1_shares l)) = Ok frames ->
  unread bytes offset (concat frames ++ rest) -> reads (take_evidence (length l)) bytes offset l rest.
Proof.
  revert offset frames. induction l as [|e l IH]; intros offset frames HW HF HU; cbn [length map concat] in *.
  - injection HF as <-. exists offset. by split.
  - apply Forall_cons_iff in HW as [(U1 & U2 & Hne) HW]. cbn [DecryptionEvidenceV1_shares app try_map] in HF.
    apply bind_Ok in HF as (f1 & F1 & HF). apply bind_Ok in HF as (fs & HF & E). apply Ok_inj in E. subst frames.
    apply bind_Ok in HF as (f2 & F2 & HF). apply bind_Ok in HF as (frames & HF & E). apply Ok_inj in E. subst fs.
    cbn [concat] in HU. rewrite <- !app_assoc in HU.
    destruct (reads_share _ _ _ _ _ U1 F1 HU) as (o1 & E1 & HU1). destruct (reads_share _ _ _ _ _ U2 F2 HU1) as (o2 & E2 & HU2).
    destruct (IH o2 frames HW HF HU2) as (o3 & E3 & HU3). exists o3. split; [|done].
    cbn [take_evidence]. rewrite E1. cbn [mbind result_bind]. rewrite E2. cbn [mbind result_bind].
    unfold DecryptionEvidenceV1_new. rewrite bool_decide_eq_false_2 by done. cbn [mbind result_bind]. rewrite E3. cbn [mbind result_bind].
    by destruct e.
Qed.

Definition settlement_balance_wf (b : SettlementBalanceV1) : Prop := u64_ok (sb_base_atoms b) /\ u64_ok (sb_quote_atoms b).

Lemma settlement_balance_fields b :
  encode_settlement_balance b = (sb_participant_id b : list byte) ++ le_bytes 8 (sb_base_atoms b) ++ le_bytes 8 (sb_quote_atoms b).
Proof. unfold encode_settlement_balance. cbn zeta. by fill 48. Qed.

Lemma settlement_balance_length b : length (encode_settlement_balance b) = 48.
Proof. rewrite settlement_balance_fields. len. Qed.

Lemma reads_balance bytes offset b rest :
  settlement_balance_wf b -> unread bytes offset (encode_settlement_balance b ++ rest) -> reads take_balance bytes offset b rest.
Proof.
  intros [W1 W2] HU. destruct (try_into_is_Some 48 _ (settlement_balance_length b)) as (a & _ & Ha). rewrite <- Ha in HU.
  destruct (reads_array _ _ _ _ _ HU) as (o & E & HU'). exists o. split; [|done]. unfold take_balance. rewrite E.
  cbn [mbind result_bind]. rewrite Ha, settlement_balance_fields.
  rewrite slice_hit by apply length_arr. rewrite try_into_arr. cbn [ok_or mbind result_bind].
  rewrite (slice_skip 32 40), (slice_skip 40 48), !length_arr by (rewrite length_arr; lia). cbn [Nat.sub].
  rewrite slice_hit by apply length_le_bytes. rewrite (slice_skip 8 16), length_le_bytes by (rewrite length_le_bytes; lia). cbn [Nat.sub].
  rewrite slice_hit_nil by apply length_le_bytes. rewrite !le_val_u64 by done. by destruct b.
Qed.

Lemma reads_balances bytes l offset rest :
  Forall settlement_balance_wf l -> unread bytes offset (concat (map encode_settlement_balance l) ++ rest) ->
  reads (take_balances (length l)) bytes offset l rest.
Proof.
  revert offset. induction l as [|b l IH]; intros offset HW HU; cbn [length map concat] in *.
  - exists offset. by split.
  - apply Forall_cons_iff in HW as [Hb HW]. rewrite <- app_assoc in HU.
    destruct (reads_balance _ _ _ _ Hb HU) as (o1 & E1 & HU1). destruct (IH o1 HW HU1) as (o2 & E2 & HU2).
    exists o2. split; [|done]. cbn [take_balances]. rewrite E1. cbn [mbind result_bind]. by rewrite E2.
Qed.

(** ** Requests *)

Definition residual_wf (r : Residual) : Prop :=
  match r with
  | Residual.None => True
  | Residual.Buy lots | Residual.Sell lots => (1 <= lots < 2 ^ 32)%Z
  end.

Lemma residual_unwire_wire r :
  residual_wf r -> let '(side, lots) := residual_wire r in u8_ok side /\ u32_ok lots /\ residual_unwire side lots = Ok r.
Proof.
  destruct r as [|lots|lots]; cbn [residual_wf residual_wire]; intros W; unfold u8_ok, u32_ok, residual_unwire;
    (split_and!; [lia | lia | lia | lia |]); cbn [Z.eqb Pos.eqb andb]; [done|..]; by rewrite (proj2 (Z.leb_le 1 lots)) by lia.
Qed.

(** What the coordinator's requests satisfy: machine ranges, and one entry per member. *)
Record request_wf (r : SettlementRequestV1) : Prop := {
  rw_package : package_wf (sq_package r);
  rw_evidence : Forall evidence_wf (sq_decryption_evidence r);
  rw_members : length (sq_decryption_evidence r) = length (pk_submissions (sq_package r));
  rw_count : pk_member_count (sq_package r) = Z.of_nat (length (pk_submissions (sq_package r)));
  rw_post : length (sq_post_balances r) = length (pk_balances (sq_package r));
  rw_balances : Forall settlement_balance_wf (sq_post_balances r);
  rw_residual : residual_wf (sq_residual r);
}.

Lemma frames_length l frames : try_map share_frame l = Ok frames -> length (concat frames) <= 516 * length l.
Proof.
  intros E%try_map_Ok. induction E as [|share frame l frames Hf _ IH]; cbn [concat length]; [lia|].
  apply share_frame_Ok in Hf as (encoded & _ & Hl & ->). unfold MAX_RELEASED_SHARE_WIRE_LEN in Hl.
  rewrite !length_app, length_le_bytes. lia.
Qed.

Lemma evidence_shares_length l : length (concat (map DecryptionEvidenceV1_shares l)) = 2 * length l.
Proof. induction l as [|e l IH]; cbn in *; [done|]. lia. Qed.

(** The byte at the cursor. *)
Lemma unread_byte bytes offset b rest :
  unread bytes offset (b :: rest) -> offset < length bytes /\ u8_at offset bytes = byte_val b /\ unread bytes (offset + 1) rest.
Proof.
  intros HU. pose proof (unread_length _ _ _ HU) as Hl. cbn [length] in Hl. pose proof HU as (_ & _ & Hd).
  split_and!; [lia | | by apply (unread_app _ _ [b])]. unfold u8_at, byte_at. f_equal.
  rewrite <- (take_drop offset bytes), Hd, app_nth2; rewrite length_take, Nat.min_l by lia; [|lia]. by rewrite Nat.sub_diag.
Qed.

(** One reader of the decoder run on its field. *)
Ltac read_with L := let o := fresh "o" in let E := fresh "E" in
  match goal with HU : unread _ _ _ |- _ => apply L in HU as (o & E & HU); [rewrite E; cbn [mbind result_bind]; clear E | ..] end.

(** The encoding, as what a cursor at its start has to read. *)
Lemma request_bytes r bytes :
  request_wf r -> SettlementRequestV1_encode_wire r = Ok bytes ->
  exists package frames side lots,
    LockPackageV1_encode_wire (sq_package r) = Ok package /\ (Z.of_nat (length package) < 2 ^ 32)%Z /\
    length (pk_submissions (sq_package r)) <= 64 /\ length (pk_balances (sq_package r)) <= 64 /\
    try_map share_frame (concat (map DecryptionEvidenceV1_shares (sq_decryption_evidence r))) = Ok frames /\
    u8_ok side /\ u32_ok lots /\ residual_unwire side lots = Ok (sq_residual r) /\
    unread bytes 0 (byte_of 1 :: le_bytes 4 (Z.of_nat (length package)) ++ package
      ++ le_bytes 4 (Z.of_nat (length (sq_decryption_evidence r))) ++ concat frames
      ++ le_bytes 4 (Z.of_nat (length (sq_post_balances r))) ++ concat (map encode_settlement_balance (sq_post_balances r))
      ++ (sq_pre_balance_root r : list byte) ++ (sq_post_balance_root r : list byte)
      ++ byte_of side :: le_bytes 4 lots
      ++ (sq_result_root r : list byte) ++ (sq_result_commitment r : list byte)
      ++ (sq_settlement_nonce r : list byte) ++ (sq_settlement_digest r : list byte)).
Proof.
  intros [WP WE WM WC WPo WB WR] E. unfold SettlementRequestV1_encode_wire in E.
  apply bind_Ok in E as (package & HP & E). apply map_err_Ok in HP. apply bind_Ok in E as (plen & Hpl & E). apply ok_or_Ok in Hpl.
  apply bind_Ok in E as (ecount & Hec & E). apply ok_or_Ok in Hec. apply bind_Ok in E as (frames & HF & E).
  apply bind_Ok in E as (pcount & Hpc & E). apply ok_or_Ok in Hpc. pose proof (residual_unwire_wire _ WR) as HR.
  destruct (residual_wire (sq_residual r)) as [side lots]. destruct HR as (Hside & Hlots & HR). apply Ok_inj in E. checked.
  pose proof (frames_length _ _ HF) as HFl. rewrite evidence_shares_length in HFl.
  pose proof (concat_length_const encode_settlement_balance 48 (sq_post_balances r)
    ltac:(apply list.Forall_forall; intros; apply settlement_balance_length)) as HBl.
  pose proof (proj1 (package_encode_Ok _ _) HP) as (_ & Hn & Hm & _).
  exists package, frames, side, lots. cbn [app] in E. rewrite E.
  unfold u32_ok in *. split_and!; try done; try lia. split_and!; [lia | | apply drop_0].
  rewrite <- E. cbn [length]. rewrite !length_app, HBl. cbn [length]. rewrite !length_app, !length_le_bytes, !length_arr. lia.
Qed.

Lemma request_decode_encode `{!ThresholdLaws} r bytes :
  request_wf r -> SettlementRequestV1_encode_wire r = Ok bytes -> SettlementRequestV1_decode_wire bytes = Ok r.
Proof.
  intros HW HE. destruct (request_bytes _ _ HW HE) as (package & frames & side & lots & HP & Hpl & Hn & Hm & HF & Hside & Hlots & HR & HU).
  destruct HW as [WP WE WM WC WPo WB _]. clear HE. unfold SettlementRequestV1_decode_wire.
  apply unread_byte in HU as (_ & Hb & HU). change (0 + 1) with 1 in HU.
  pose proof (unread_length _ _ _ HU) as Hl. rewrite length_app, length_le_bytes in Hl.
  rewrite (proj2 (Nat.ltb_ge _ _)), Hb by lia. change (byte_val (byte_of 1) != 1%Z) with false. cbn [orb]. clear Hl Hb.
  apply reads_len in HU as (o1 & E & HU); [|unfold u32_ok; lia]. rewrite E. cbn [mbind result_bind]. clear E.
  destruct (unread_range _ _ _ _ HU) as [_ HG]. apply unread_app in HU. pose proof HU as (Hle & Hz & _).
  assert (u64_ok (Z.of_nat o1 + Z.of_nat (length package))) as Hu by (unfold u64_ok; lia).
  rewrite (proj2 (checked_u64_Some _ _) (conj eq_refl Hu)). clear Hu.
  cbn [ok_or mbind result_bind]. rewrite (proj2 (Z.ltb_ge _ _)) by lia.
  rewrite <- Nat2Z.inj_add, Nat2Z.id, HG. cbn [ok_or mbind result_bind]. rewrite (package_decode_encode _ _ WP HP). cbn [map_err mbind result_bind].
  clear Hle Hz HG. read_with reads_len; [|unfold u32_ok; lia]. rewrite Nat2Z.id. unfold MAX_BATCH_MEMBERS.
  rewrite WC, <- WM, (proj2 (Z.ltb_ge _ _)), bool_decide_eq_true_2 by lia. cbn [negb orb].
  destruct (reads_evidence _ _ _ _ _ WE HF HU) as (o2 & E & HU2). rewrite E. cbn [mbind result_bind]. clear HU E.
  read_with reads_len; [|unfold u32_ok; lia]. rewrite Nat2Z.id, <- WPo, (proj2 (Z.ltb_ge _ _)), bool_decide_eq_true_2 by lia. cbn [negb orb].
  read_with reads_balances; [|done]. do 2 read_with (reads_array 32).
  apply unread_byte in HU2 as (Hlt & Hb & HU). rewrite (proj2 (Nat.leb_gt _ _)) by done. cbn zeta. rewrite Hb, le_val_u8 by done.
  read_with reads_len; [|done]. rewrite HR. cbn [mbind result_bind]. do 3 read_with (reads_array 32).
  rewrite <- (app_nil_r (sq_settlement_digest r : list byte)) in HU. read_with (reads_array 32).
  apply unread_length in HU. rewrite Nat.add_0_r in HU. rewrite HU, bool_decide_eq_true_2 by done. cbn [negb]. by destruct r.
Qed.

(** ** Approvals *)

Definition approval_fields (a : SettlementApprovalV1) : list (list byte) :=
  [[byte_of 1]; sa_keyper_key a : list byte; SettlementPayloadV1_encode (sa_payload a); sa_digest a : list byte;
   sa_signature a : list byte].

Lemma approval_layout a : map length (approval_fields a) = [1; 32; 374; 32; 64].
Proof. unfold approval_fields. cbn [map]. by rewrite !length_arr, SettlementPayloadV1_encode_length. Qed.

Lemma approval_encode_fields a : SettlementApprovalV1_encode_wire a = concat (approval_fields a).
Proof. unfold SettlementApprovalV1_encode_wire, approval_fields. cbn [concat]. by rewrite app_nil_r. Qed.

Lemma approval_encode_length a : length (SettlementApprovalV1_encode_wire a) = 503.
Proof. unfold SettlementApprovalV1_encode_wire. rewrite !length_app, !length_arr, SettlementPayloadV1_encode_length. reflexivity. Qed.

Lemma approval_decode_encode a :
  SettlementPayloadV1_wf (sa_payload a) -> SettlementApprovalV1_decode_wire (SettlementApprovalV1_encode_wire a) = Ok a.
Proof.
  intros HW. unfold SettlementApprovalV1_decode_wire. rewrite approval_encode_length, bool_decide_eq_true_2 by done. cbn [negb orb].
  change (u8_at 0 (SettlementApprovalV1_encode_wire a)) with (byte_val (byte_of 1)). change (byte_val (byte_of 1) != 1%Z) with false. cbn [orb].
  rewrite approval_encode_fields. pose proof (approval_layout a) as HL. fields HL. cbn [nth approval_fields].
  rewrite (SettlementPayloadV1_decode_encode _ HW), !try_into_arr. cbn [ok_or mbind result_bind]. by destruct a.
Qed.

Lemma approval_encode_decode bytes a :
  SettlementApprovalV1_decode_wire bytes = Ok a ->
  SettlementPayloadV1_wf (sa_payload a) /\ SettlementApprovalV1_encode_wire a = bytes.
Proof.
  unfold SettlementApprovalV1_decode_wire. intros E. apply guard_Ok in E as [Hg E]. bguard. inv_ok. subst a.
  match goal with T : SettlementPayloadV1_decode _ = Some _ |- _ =>
    pose proof (SettlementPayloadV1_decode_wf _ _ T); apply SettlementPayloadV1_encode_decode in T end.
  split; [done|]. rewrite approval_encode_fields. unfold approval_fields. cbn -[slice concat byte_of SettlementPayloadV1_encode].
  uncut [1; 32; 374; 32; 64].
Qed.
End wire.
