(* ===== verification/SettlementProps.v ===== *)
(** * Properties of settlement recomputation

    What a successful recomputation is: one verified signed intent per member, netted at the epoch
    price against the locked balances, and a payload that carries exactly that result. *)

From S2P Require Import Prelude Bytes Extern ProgramWire ProgramState ProgramInstruction Processor ProcessorProps Chain.
From S2P Require Import BTree Domain Ledger Commitment Storage Reservation HostExtern HostCrypto HostCryptoProps Account.
From S2P Require Import LockJournal LockJournalProps Lock LockProps LockWire ConfirmedReads LockSafety LockChain Settlement.

(** ** Balances before and after *)

Lemma before_of_fmap l : before_of l = BalanceRecordV1_pool_balance <$> balances_by_participant l.
Proof.
  unfold before_of, balances_by_participant. rewrite <- (fmap_empty BalanceRecordV1_pool_balance) at 1.
  generalize (∅ : gmap bytes32 BalanceRecordV1) as m. induction l as [|b l IH]; intros m; cbn [fold_left]; [done|].
  by rewrite <- fmap_insert, IH.
Qed.

Lemma before_distinct l : size (before_of l) = length l <-> NoDup (map br_participant_id l).
Proof. rewrite before_of_fmap, map_size_fmap. apply balances_distinct. Qed.

Lemma total_insert_new f (m : Balances) i b : m !! i = None -> total f (<[i := b]> m) = (f b + total f m)%Z.
Proof. intros Hn. rewrite (total_delete f _ i b) by apply lookup_insert_eq. by rewrite delete_insert_id. Qed.

Lemma total_before f l :
  NoDup (map br_participant_id l) -> total f (before_of l) = sumZ (fun b => f (BalanceRecordV1_pool_balance b)) l.
Proof.
  intros HN. unfold before_of.
  assert (forall m : Balances, Forall (fun b => m !! br_participant_id b = None) l ->
    total f (fold_left (fun table b => <[br_participant_id b := BalanceRecordV1_pool_balance b]> table) l m)
    = (sumZ (fun b => f (BalanceRecordV1_pool_balance b)) l + total f m)%Z) as HG.
  { induction l as [|b l IH]; intros m HF; cbn [fold_left map] in *; [done|].
    apply list.NoDup_cons in HN as [Hb HN]. apply Forall_cons_iff in HF as [Hm HF].
    rewrite IH; [|done|].
    - rewrite total_insert_new by done. unfold sumZ. cbn [foldr]. lia.
    - apply not_elem_of_map in Hb. rewrite list.Forall_forall in *. intros c Hc.
      rewrite lookup_insert_ne by (by intros E; apply (Hb c Hc)). by apply HF. }
  rewrite HG by (apply list.Forall_forall; intros; apply lookup_empty). unfold total, btree_values. cbn.
  rewrite Z.add_0_r. reflexivity.
Qed.

Lemma total_post m :
  sumZ sb_base_atoms (post_balances_of m) = total base_atoms m /\ sumZ sb_quote_atoms (post_balances_of m) = total quote_atoms m.
Proof.
  unfold post_balances_of, total, btree_values, sumZ. generalize (btree_list m) as l.
  induction l as [|e l [IH1 IH2]]; cbn in *; [done|]. by rewrite IH1, IH2.
Qed.

Section recompute.
Context `{Sha256} `{Dalek} `{Threshold}.

(** ** The loops *)

Lemma index_fold l subs subs' :
  try_fold index_submission subs l = Ok subs' ->
  forall k s, subs' !! k = Some s -> subs !! k = Some s \/ (s ∈ l /\ EncryptedSubmissionV1_participant_id s = k).
Proof.
  revert subs. induction l as [|x l IH]; intros subs; cbn [try_fold]; [intros [= ->]; auto|].
  intros E k s Hk. apply bind_Ok in E as (subs1 & Hx & E). unfold index_submission in Hx.
  destruct (subs !! _) eqn:Ex; [done|]. injection Hx as <-. destruct (IH _ E k s Hk) as [Hs|[Hs Hp]].
  - apply lookup_insert_Some in Hs as [[<- <-]|[_ Hs]]; [right | by left]. split; [apply list_elem_of_here | done].
  - right. split; [by apply list_elem_of_further | done].
Qed.

(** The order a member's verified intent stands for. *)
Definition intent_order (epoch_id : bytes32) (members : list EncryptedSubmissionV1) (intent : SignedIntentV1)
    (order : FundedOrder) : Prop :=
  order = {| fo_participant_id := ib_participant_id (si_body intent); fo_side := ib_side (si_body intent);
             fo_limit_price := ib_limit_price (si_body intent) |} /\
  exists s, s ∈ members /\ EncryptedSubmissionV1_participant_id s = ib_participant_id (si_body intent) /\
    verifying_key_ok (fa_trading_key (es_authorization s)) = true /\
    SignedIntentV1_verify intent (fa_trading_key (es_authorization s)) epoch_id (ib_participant_id (si_body intent)) = Ok tt.

Lemma order_fold epoch_id members subs l seen orders seen' orders' :
  (forall k s, subs !! k = Some s -> s ∈ members /\ EncryptedSubmissionV1_participant_id s = k) ->
  try_fold (order_of_intent epoch_id subs) (seen, orders) l = Ok (seen', orders') ->
  exists new, orders' = orders ++ new /\ Forall2 (intent_order epoch_id members) l new.
Proof.
  intros HS. revert seen orders. induction l as [|x l IH]; intros seen orders E; cbn [try_fold] in E.
  - injection E as <- <-. exists []. rewrite app_nil_r. by split; [|constructor].
  - apply bind_Ok in E as ([seen1 orders1] & Hx & E). unfold order_of_intent in Hx.
    apply bind_Ok in Hx as (s & Hs & Hx). apply ok_or_Ok in Hs. apply guard_Ok in Hx as [_ Hx].
    apply guard_Ok in Hx as [Hk Hx]. apply negb_false_iff in Hk. apply bind_Ok in Hx as ([] & Hv & Hx).
    apply map_err_Ok in Hv. apply bind_Ok in Hx as (order & Ho & Hx). apply map_err_Ok in Ho.
    unfold FundedOrder_new in Ho. apply guard_Ok in Ho as [_ Ho]. apply Ok_inj in Ho. apply Ok_inj in Hx.
    injection Hx as <- <-. destruct (IH _ _ E) as (new & -> & HF). exists (order :: new).
    rewrite <- app_assoc. split; [done|]. constructor; [|done]. destruct (HS _ _ Hs) as [Hin Hp].
    split; [by rewrite <- Ho|]. by exists s.
Qed.

(** What a successful recomputation found. *)
Record recomputed (p : LockPackageV1) (evidence : list DecryptionEvidenceV1) (nonce : bytes32) (c : ConfirmedLock)
    (r : RecomputedSettlement) (pool : PoolStateV1) (intents : list SignedIntentV1) (orders : list FundedOrder)
    (result : BatchResult) : Prop := {
  rp_locked : LockPackageV1_validate_locked p c = Ok (ConfirmedLock_lock_digest c);
  rp_pool : cl_pool c = Some pool;
  rp_nonce : nonce <> zero32 /\ nonce <> ep_lock_nonce (cl_state c);
  rp_members : length evidence = length (pk_submissions p);
  rp_recovered : try_map (recover_member p c) (zip (pk_submissions p) evidence) = Ok intents;
  rp_orders : Forall2 (intent_order (cfg_epoch_id (pk_configuration p)) (pk_submissions p)) intents orders;
  rp_balances : NoDup (map br_participant_id (pk_balances p));
  rp_netted : net_batch {| bc_base_lot_atoms := cfg_base_lot_atoms (pk_configuration p);
                           bc_quote_atoms_per_lot := cfg_quote_atoms_per_lot (pk_configuration p) |}
                (before_of (pk_balances p)) orders = Ok result;
  rp_post : rc_post_balances r = post_balances_of (balances result);
  rp_pre_root : rc_pre_balance_root r = pk_pre_balance_root p;
  rp_post_root : settlement_balance_root (rc_post_balances r) = Ok (rc_post_balance_root r);
  rp_result_root : per_participant_result_root (before_of (pk_balances p)) (rc_post_balances r) = Ok (rc_result_root r);
  rp_residual : rc_residual r = residual result;
  rp_commitment : rc_result_commitment r = result_commitment c (recovered_intents_root intents) (rc_pre_balance_root r)
    (rc_post_balance_root r) (rc_residual r) (rc_result_root r);
  rp_payload : rc_payload r = settlement_payload c pool (rc_result_commitment r) (rc_residual r) nonce;
}.

Lemma validate_locked_digest p c d : LockPackageV1_validate_locked p c = Ok d -> d = ConfirmedLock_lock_digest c.
Proof. unfold LockPackageV1_validate_locked. intros E. inv_ok. bguard. by subst. Qed.

Lemma recompute_inv p evidence nonce c r :
  recompute p evidence nonce c = Ok r ->
  exists pool intents orders result, recomputed p evidence nonce c r pool intents orders result.
Proof.
  unfold recompute. intros E. apply bind_Ok in E as (d & Hd & E). apply map_err_Ok in Hd.
  pose proof (validate_locked_digest _ _ _ Hd) as ->. apply guard_Ok in E as [Gn E]. apply guard_Ok in E as [Gl E].
  apply bind_Ok in E as (intents & Hi & E). apply bind_Ok in E as (subs & Hs & E).
  apply bind_Ok in E as ([seen orders] & Ho & E). apply guard_Ok in E as [Gs E]. apply neqb_false in Gs.
  apply bind_Ok in E as (config & Hc & E). apply map_err_Ok in Hc. apply bind_Ok in E as (res & Hr & E). apply map_err_Ok in Hr.
  apply guard_Ok in E as [_ E]. apply bind_Ok in E as (pr & Hpr & E). apply bind_Ok in E as (rr & Hrr & E).
  apply bind_Ok in E as (pool & Hp & E). apply ok_or_Ok in Hp. apply Ok_inj in E. subst r.
  exists pool, intents, orders, res. bguard.
  unfold BatchConfig_new in Hc. apply guard_Ok in Hc as [_ Hc]. apply Ok_inj in Hc. subst config.
  assert (forall k s, subs !! k = Some s -> s ∈ pk_submissions p /\ EncryptedSubmissionV1_participant_id s = k) as HS.
  { intros k s Hk. destruct (index_fold _ _ _ Hs k s Hk) as [He|?]; [by rewrite lookup_empty in He | done]. }
  destruct (order_fold _ _ _ _ _ _ _ _ HS Ho) as (new & -> & HF). split; try done; by apply before_distinct.
Qed.
End recompute.
