(* ===== verification/SettlementChain.v ===== *)
(** * Approved settlements on chain

    A payload the keypers recomputed is the payload the program rebuilds from its own records, and
    its token legs are the change of the members' balances. *)

From S2P Require Import Prelude Bytes Extern ProgramWire ProgramState ProgramInstruction Processor ProcessorProps Chain.
From S2P Require Import BTree Domain Ledger Commitment Storage Reservation HostExtern HostCrypto HostCryptoProps Account.
From S2P Require Import LockJournal LockJournalProps Lock LockProps LockWire ConfirmedReads LockSafety LockChain Settlement SettlementProps.

Lemma before_ok l : Forall balance_wf l -> map_Forall (fun _ b => balance_ok b) (before_of l).
Proof.
  intros HF. unfold before_of.
  assert (forall m : Balances, map_Forall (fun _ b => balance_ok b) m -> map_Forall (fun _ b => balance_ok b)
    (fold_left (fun table b => <[br_participant_id b := BalanceRecordV1_pool_balance b]> table) l m)) as HG.
  { induction HF as [|b l HW _ IH]; intros m Hm; cbn [fold_left]; [done|]. apply IH, map_Forall_insert_2; [|done].
    destruct HW as (_ & _ & _ & _ & _ & ? & ? & _). by split. }
  apply HG, map_Forall_empty.
Qed.

(** The two token legs of a netted residual, on the pool's side. *)
Lemma residual_legs n b q h h' side lots :
  residual_wire (residual_of n) = (side, lots) -> settle_holdings side (b * lots) (q * lots) h = Some h' ->
  (pool_base h' - pool_base h = n * b /\ pool_quote h' - pool_quote h = - (n * q))%Z.
Proof.
  unfold residual_of. destruct (Z.ltb_spec 0 n), (Z.ltb_spec n 0); try lia; cbn [residual_wire];
    intros [= <- <-]; cbn [settle_holdings]; try (case_match; [done|]); intros [= <-]; cbn [pool_base pool_quote]; try (assert (n = 0%Z) as -> by lia); lia.
Qed.

(** Netting changes the totals by the signed residual. *)
Lemma batch_totals config before orders :
  NoDup (map fo_participant_id orders) -> Forall (fillable config before) orders ->
  (total base_atoms (balances (batch_of config before orders))
     = total base_atoms before + net_lots orders * bc_base_lot_atoms config /\
   total quote_atoms (balances (batch_of config before orders))
     = total quote_atoms before - net_lots orders * bc_quote_atoms_per_lot config)%Z.
Proof.
  intros HN HF. assert (Forall (fun o => is_Some (before !! fo_participant_id o)) orders) as HS
    by (eapply Forall_impl; [|exact HF]; intros o (b & -> & _); eauto).
  pose proof (total_settle base_atoms config orders before ltac:(cbn; lia) ltac:(cbn; lia) HN HS) as T1.
  pose proof (total_settle quote_atoms config orders before ltac:(cbn; lia) ltac:(cbn; lia) HN HS) as T2.
  cbn [batch_of balances fill_order base_atoms quote_atoms] in *. unfold net_lots. lia.
Qed.

Section approved.
Context `{Sha256} `{Solana} `{Dalek} `{Threshold}.

Definition batch_config_of (p : LockPackageV1) : BatchConfig :=
  {| bc_base_lot_atoms := cfg_base_lot_atoms (pk_configuration p);
     bc_quote_atoms_per_lot := cfg_quote_atoms_per_lot (pk_configuration p) |}.

(** The transaction carries the records the keyper read. *)
Definition carries_lock (accounts : list AccountInfo) (c : ConfirmedLock) (pool : PoolStateV1) : Prop :=
  ai_key (acct 2 accounts) = cl_epoch_account c /\ EpochStateV1_decode (ai_data (acct 2 accounts)) = Ok (cl_state c) /\
  cl_pool c = Some pool /\ PoolStateV1_decode (ai_data (acct 1 accounts)) = Ok pool.

Lemma validate_locked_inv p c d :
  LockPackageV1_validate_locked p c = Ok d ->
  exists pool open, cl_pool c = Some pool /\ package_valid p open /\ d = ep_lock_digest (cl_state c) /\
    d = LockPayloadV1_digest (LockPackageV1_lock_payload p) /\
    co_configuration open = confirmed_configuration (cl_state c) pool /\ co_epoch_account open = cl_epoch_account c /\
    cfg_base_lot_atoms (pk_configuration p) <> 0%Z /\ cfg_quote_atoms_per_lot (pk_configuration p) <> 0%Z /\
    ap_base_atoms (co_policy open) = cfg_base_lot_atoms (pk_configuration p) /\
    ap_quote_atoms (co_policy open) = cfg_quote_atoms_per_lot (pk_configuration p).
Proof.
  unfold LockPackageV1_validate_locked. intros E. apply bind_Ok in E as (pool & Hp & E). apply ok_or_Ok in Hp.
  cbn zeta in E. apply guard_Ok in E as [_ E]. apply bind_Ok in E as (policy & Hpo & E).
  apply bind_Ok in E as (dg & Hd & E). apply guard_Ok in E as [G E]. apply Ok_inj in E. subst dg.
  apply validate_Ok in Hd as [HV Hd]. apply map_err_Ok in Hpo. unfold AdmissionPolicyV1_new in Hpo.
  apply guard_Ok in Hpo as [_ Hpo]. apply guard_Ok in Hpo as [G2 Hpo]. apply Ok_inj in Hpo. bguard.
  pose proof (pv_same_configuration _ _ HV) as Hsame. cbn [co_configuration] in Hsame.
  eexists pool, _. split; [done|]. split; [exact HV|]. rewrite Hsame, <- Hpo. done.
Qed.

Lemma recover_member_length p c evidence intents :
  try_map (recover_member p c) (zip (pk_submissions p) evidence) = Ok intents -> length intents <= length (pk_submissions p).
Proof.
  intros E%try_map_Ok%Forall2_length. rewrite length_zip_with in E. lia.
Qed.

(** The machine ranges of a validated package's batch. *)
Lemma package_batch_wf p c d pool orders :
  LockPackageV1_validate_locked p c = Ok d -> cl_pool c = Some pool ->
  EpochStateV1_wf (cl_state c) -> PoolStateV1_wf pool -> Forall balance_wf (pk_balances p) ->
  length orders <= length (pk_submissions p) ->
  bc_base_lot_atoms (batch_config_of p) = pl_base_lot_atoms pool /\
  bc_quote_atoms_per_lot (batch_config_of p) = ep_quote_atoms_per_lot (cl_state c) /\
  batch_wf (batch_config_of p) (before_of (pk_balances p)) orders.
Proof.
  intros HL Hp HE HP HB Ho. destruct (validate_locked_inv _ _ _ HL) as (pool' & open & Hpl & HV & _ & _ & Hcfg & _).
  rewrite Hp in Hpl. injection Hpl as <-. pose proof (pv_same_configuration _ _ HV) as Hsame. rewrite Hcfg in Hsame.
  assert (bc_base_lot_atoms (batch_config_of p) = pl_base_lot_atoms pool /\
          bc_quote_atoms_per_lot (batch_config_of p) = ep_quote_atoms_per_lot (cl_state c)) as [Hb Hq]
    by (unfold batch_config_of; cbn; rewrite Hsame; done).
  split_and!; [done | done |]. unfold batch_wf. rewrite Hb, Hq. destruct HE as (_ & _ & _ & _ & _ & _ & ? & _).
  pose proof (pv_limit _ _ HV). pose proof (pv_balances _ _ HV).
  rewrite (proj2 (before_distinct _) (pv_balance_ids _ _ HV)).
  split_and!; [apply HP | done | by apply before_ok | lia | lia].
Qed.

(** A recomputed result is the netting specification on the recovered orders. *)
Lemma recomputed_batch p evidence nonce c r pool intents orders result :
  recomputed p evidence nonce c r pool intents orders result ->
  EpochStateV1_wf (cl_state c) -> PoolStateV1_wf pool -> Forall balance_wf (pk_balances p) ->
  result = batch_of (batch_config_of p) (before_of (pk_balances p)) orders /\ orders <> [] /\
  NoDup (map fo_participant_id orders) /\ Forall (fillable (batch_config_of p) (before_of (pk_balances p))) orders /\
  bc_base_lot_atoms (batch_config_of p) = pl_base_lot_atoms pool /\
  bc_quote_atoms_per_lot (batch_config_of p) = ep_quote_atoms_per_lot (cl_state c).
Proof.
  intros HR HE HP HB. pose proof (recover_member_length _ _ _ _ (rp_recovered _ _ _ _ _ _ _ _ _ HR)).
  rewrite (Forall2_length (rp_orders _ _ _ _ _ _ _ _ _ HR)) in *.
  destruct (package_batch_wf p c _ pool orders (rp_locked _ _ _ _ _ _ _ _ _ HR) (rp_pool _ _ _ _ _ _ _ _ _ HR)) as (Hb & Hq & HW); try done.
  destruct (proj1 (net_batch_Ok _ _ _ _ HW) (rp_netted _ _ _ _ _ _ _ _ _ HR)) as (? & ? & ? & ->). done.
Qed.

Lemma sign_settlement_inv keyper request c secret approval :
  ReferenceKeyper_sign_settlement keyper request c secret = Ok approval ->
  exists r, recompute (sq_package request) (sq_decryption_evidence request) (sq_settlement_nonce request) c = Ok r /\
    sa_payload approval = rc_payload r /\ sa_digest approval = SettlementPayloadV1_digest (rc_payload r) /\
    sq_post_balances request = rc_post_balances r /\ sq_settlement_digest request = sa_digest approval /\
    sa_keyper_key approval = verifying_key (rk_signing_key keyper) /\
    sa_signature approval = dalek_sign (rk_signing_key keyper) (sa_digest approval) /\
    LockJournal_digest (rk_journal keyper) (cl_epoch_account c) = Some (ConfirmedLock_lock_digest c).
Proof.
  unfold ReferenceKeyper_sign_settlement. intros E. apply bind_Ok in E as (r & Hr & E). cbn zeta in E.
  apply guard_Ok in E as [G1 E]. apply bind_Ok in E as (pool & _ & E). apply bind_Ok in E as (k & _ & E).
  apply guard_Ok in E as [G2 E]. apply Ok_inj in E. subst approval. exists r. bguard. done.
Qed.

(** The recomputed payload is the one the program rebuilds from the records it was computed from. *)
Lemma recomputed_payload_full p evidence nonce c r pool intents orders result :
  recomputed p evidence nonce c r pool intents orders result ->
  full_payload (cl_epoch_account c) pool (cl_state c) (CompactSettlementPayload_from (rc_payload r)) = rc_payload r.
Proof.
  intros HR. rewrite (rp_payload _ _ _ _ _ _ _ _ _ HR). unfold settlement_payload, full_payload, CompactSettlementPayload_from.
  destruct (residual_wire _). reflexivity.
Qed.

(** What the program does with a recomputed payload: the pool's two vaults change by exactly what the
    members' balances change by, and the recorded digest is the approved one. *)
Lemma settled_holdings `{!TokenLaws} p evidence nonce c r pool accounts accounts' :
  recompute p evidence nonce c = Ok r -> Forall balance_wf (pk_balances p) -> carries_lock accounts c pool ->
  settle_compact ID accounts (CompactSettlementPayload_from (rc_payload r)) = Ok accounts' ->
  (pool_base (holdings accounts') - pool_base (holdings accounts)
     = sumZ sb_base_atoms (rc_post_balances r) - sumZ br_base_atoms (pk_balances p) /\
   pool_quote (holdings accounts') - pool_quote (holdings accounts)
     = sumZ sb_quote_atoms (rc_post_balances r) - sumZ br_quote_atoms (pk_balances p))%Z.
Proof.
  intros HR HB (Hk & He & Hp & Hpd) HS. destruct (recompute_inv _ _ _ _ _ HR) as (pool' & intents & orders & result & HI).
  pose proof (rp_pool _ _ _ _ _ _ _ _ _ HI) as Hp'. rewrite Hp in Hp'. injection Hp' as <-.
  destruct (recomputed_batch _ _ _ _ _ _ _ _ _ HI (EpochStateV1_decode_wf _ _ He) (PoolStateV1_decode_wf _ _ Hpd) HB)
    as (-> & _ & HN & HF & Hb & Hq).
  destruct (settle_compact_moves _ _ _ HS) as (es & Hes & _ & _ & HM & _). rewrite He in Hes. injection Hes as <-.
  apply settle_compact_Ok in HS as (ps0 & es0 & _ & Hp0 & He0 & HS). apply settle_Ok in HS as (ps & es & now & n & acc1 & _ & Hctx & _).
  destruct Hctx as (_ & _ & _ & _ & Hps & _ & Hes & (_ & _ & _ & Hlot & _)).
  rewrite He in Hes. injection Hes as <-. rewrite Hpd in Hps. injection Hps as <-.
  rewrite (rp_payload _ _ _ _ _ _ _ _ _ HI), (rp_residual _ _ _ _ _ _ _ _ _ HI) in HM. unfold settlement_payload in HM.
  destruct (residual_wire (residual _)) as [side lots] eqn:Ew. cbn [CompactSettlementPayload_from cs_residual_side cs_residual_lots sp_residual_side sp_residual_lots] in HM.
  destruct (residual_legs _ _ _ _ _ _ _ Ew HM) as [L1 L2]. rewrite L1, L2, (rp_post _ _ _ _ _ _ _ _ _ HI).
  destruct (total_post (balances (batch_of (batch_config_of p) (before_of (pk_balances p)) orders))) as [-> ->].
  destruct (batch_totals _ _ _ HN HF) as [-> ->]. rewrite !total_before by apply (rp_balances _ _ _ _ _ _ _ _ _ HI).
  rewrite Hb, Hq, Hlot. cbn [BalanceRecordV1_pool_balance base_atoms quote_atoms].
  change (fun b => br_base_atoms b) with br_base_atoms. change (fun b => br_quote_atoms b) with br_quote_atoms. lia.
Qed.

(** The record the program writes. *)
Lemma settled_record p evidence nonce c r pool accounts accounts' :
  recompute p evidence nonce c = Ok r -> carries_lock accounts c pool ->
  settle_compact ID accounts (CompactSettlementPayload_from (rc_payload r)) = Ok accounts' ->
  ai_data (acct 2 accounts') =
    EpochStateV1_encode (set_settled (cl_state c) (rc_payload r) (SettlementPayloadV1_digest (rc_payload r))).
Proof.
  intros HR (Hk & He & Hp & Hpd) HS. destruct (recompute_inv _ _ _ _ _ HR) as (pool' & intents & orders & result & HI).
  pose proof (rp_pool _ _ _ _ _ _ _ _ _ HI) as Hp'. rewrite Hp in Hp'. injection Hp' as <-.
  apply settle_compact_Ok in HS as (ps & es & Hlen & Hps & Hes & HS). rewrite He in Hes. injection Hes as <-.
  rewrite Hpd in Hps. injection Hps as <-. rewrite Hk, (recomputed_payload_full _ _ _ _ _ _ _ _ _ HI) in HS.
  apply settle_Ok in HS as (ps & es & now & n & acc1 & _ & Hctx & _ & _ & _ & _ & _ & _ & _ & _ & _ & Hr & ->).
  destruct Hctx as (_ & _ & _ & _ & _ & _ & Hes & _). rewrite He in Hes. injection Hes as <-.
  destruct (settle_residual_frame _ _ _ _ _ _ Hr) as (FL & _). by rewrite acct_insert_eq by lia.
Qed.
End approved.
