(* ===== verification/SettlementLive.v ===== *)
(** * Honest batches settle

    When every member encrypted a well-signed intent and two verifying shares of each ciphertext are
    at hand, the recomputation succeeds, the built request is approved by every keyper that holds the
    locked digest in its journal, and the result is the netting specification. *)

From S2P Require Import Prelude Bytes Extern ProgramWire ProgramState ProgramInstruction Processor ProcessorProps Chain.
From S2P Require Import BTree Domain Ledger Commitment Storage Reservation HostExtern HostCrypto HostCryptoProps Account.
From S2P Require Import LockJournal LockJournalProps Lock LockProps LockWire ConfirmedReads LockSafety LockChain Settlement SettlementProps SettlementChain.

Section live.
Context `{Sha256} `{Dalek} `{Threshold}.

Definition order_from (intent : SignedIntentV1) : FundedOrder :=
  {| fo_participant_id := ib_participant_id (si_body intent); fo_side := ib_side (si_body intent);
     fo_limit_price := ib_limit_price (si_body intent) |}.

Lemma orders_from epoch_id members intents orders : Forall2 (intent_order epoch_id members) intents orders -> orders = map order_from intents.
Proof. induction 1 as [|i o intents orders [Ho _] _ IH]; cbn [map]; [done|]. by rewrite Ho, IH. Qed.

(** ** The loops succeed *)

Lemma index_fold_complete l subs :
  NoDup (map EncryptedSubmissionV1_participant_id l) ->
  Forall (fun s => subs !! EncryptedSubmissionV1_participant_id s = None) l ->
  exists subs', try_fold index_submission subs l = Ok subs' /\
    (forall s, s ∈ l -> subs' !! EncryptedSubmissionV1_participant_id s = Some s) /\
    (forall k s, subs !! k = Some s -> subs' !! k = Some s).
Proof.
  revert subs. induction l as [|x l IH]; intros subs HN HF; cbn [try_fold].
  - exists subs. split_and!; [done | set_solver | done].
  - apply list.NoDup_cons in HN as [Hx HN]. apply Forall_cons_iff in HF as [Hn HF]. 
    assert (index_submission subs x = Ok (<[EncryptedSubmissionV1_participant_id x := x]> subs)) as ->
      by (unfold index_submission; unfold EncryptedSubmissionV1_participant_id in Hn; by rewrite Hn). cbn [mbind result_bind].
    apply not_elem_of_map in Hx. destruct (IH (<[EncryptedSubmissionV1_participant_id x := x]> subs) HN) as (subs' & -> & HL & HK).
    { rewrite list.Forall_forall in *. intros s Hs. rewrite lookup_insert_ne; [by apply HF|]. intros E. by apply (Hx s Hs). }
    exists subs'. split_and!; [done| |].
    + intros s [->|Hs]%elem_of_cons; [apply HK, lookup_insert_eq | by apply HL].
    + intros k s Hk. apply HK. rewrite lookup_insert_ne; [done|]. intros <-. congruence.
Qed.

Lemma order_fold_complete epoch_id subs l seen orders :
  Forall (fun i => exists s, subs !! ib_participant_id (si_body i) = Some s /\
    verifying_key_ok (fa_trading_key (es_authorization s)) = true /\ ib_limit_price (si_body i) <> 0%Z /\
    SignedIntentV1_verify i (fa_trading_key (es_authorization s)) epoch_id (ib_participant_id (si_body i)) = Ok tt) l ->
  NoDup (map fo_participant_id (map order_from l)) ->
  Forall (fun i => ib_participant_id (si_body i) ∉ seen) l ->
  exists seen', try_fold (order_of_intent epoch_id subs) (seen, orders) l = Ok (seen', orders ++ map order_from l).
Proof.
  revert seen orders. induction l as [|x l IH]; intros seen orders HF HN HD; cbn [try_fold map].
  - exists seen. by rewrite app_nil_r.
  - apply Forall_cons_iff in HF as [(s & Hs & Hk & Hz & Hv) HF]. apply Forall_cons_iff in HD as [Hx HD].
    cbn [map] in HN. apply list.NoDup_cons in HN as [Hnx HN]. 
    assert (order_of_intent epoch_id subs (seen, orders) x
            = Ok ({[ib_participant_id (si_body x)]} ∪ seen, orders ++ [order_from x])) as ->.
    { unfold order_of_intent. cbn zeta. rewrite Hs. cbn [ok_or mbind result_bind].
      rewrite bool_decide_eq_false_2, Hk by done. cbn [negb]. rewrite Hv. cbn [map_err mbind result_bind].
      unfold FundedOrder_new. by rewrite bool_decide_eq_false_2. }
    cbn [mbind result_bind].
    destruct (IH ({[ib_participant_id (si_body x)]} ∪ seen) (orders ++ [order_from x]) HF HN) as (seen' & E).
    { rewrite map_map in Hnx. apply not_elem_of_map in Hnx. rewrite list.Forall_forall in *. intros i Hi.
      apply not_elem_of_union. split; [|by apply HD]. intros E%elem_of_singleton. by apply (Hnx i Hi). }
    exists seen'. by rewrite E, <- app_assoc.
Qed.

(** ** Roots *)

Definition result_leaves (before : Balances) (after : list SettlementBalanceV1) : list (list byte) :=
  map (fun b => result_leaf (default {| base_atoms := 0; quote_atoms := 0 |} (before !! sb_participant_id b)) b) after.

(** The leaves of the two roots hash to distinct values. *)
Definition roots_distinct (before : Balances) (after : list SettlementBalanceV1) : Prop :=
  NoDup (leaf_hashes BalanceSet (map encode_settlement_balance after)) /\ NoDup (leaf_hashes ResultSet (result_leaves before after)).

Lemma roots_complete config orders before :
  let after := post_balances_of (settle_balances config orders before) in
  roots_distinct before after ->
  exists post_root result_root, settlement_balance_root after = Ok post_root /\
    per_participant_result_root before after = Ok result_root.
Proof.
  intros after [HB HR]. unfold settlement_balance_root, per_participant_result_root.
  rewrite (proj2 (content_root_Ok BalanceSet _ _) (conj HB eq_refl)). cbn [map_err]. eexists _, _. split; [reflexivity|].
  rewrite (proj2 (try_map_Ok _ after (result_leaves before after))).
  - cbn [mbind result_bind]. by rewrite (proj2 (content_root_Ok ResultSet _ _) (conj HR eq_refl)).
  - unfold result_leaves. apply list.Forall2_fmap_r, list.Forall_Forall2_diag, list.Forall_forall.
    intros b Hb. subst after. unfold post_balances_of in Hb. apply list_elem_of_In, in_map_iff in Hb as ([k v] & <- & Hk).
    apply list_elem_of_In, btree_list_elem in Hk. unfold settle_balances in Hk. rewrite map_lookup_imap in Hk. 
    unfold compose. cbn [sb_participant_id fst]. by destruct (before !! k).
Qed.

(** ** Honest members *)

(** The member encrypted a well-formed intent under the batch's keys, signed with the trading key. *)
Definition honest_member (p : LockPackageV1) (s : EncryptedSubmissionV1) (intent : SignedIntentV1) : Prop :=
  IntentBodyV1_wf (si_body intent) /\ ib_participant_id (si_body intent) = EncryptedSubmissionV1_participant_id s /\
  SignedIntentV1_verify intent (fa_trading_key (es_authorization s)) (cfg_epoch_id (pk_configuration p))
    (ib_participant_id (si_body intent)) = Ok tt /\
  exists rnd encrypted, EpochPublicKeys_encrypt (pk_epoch_public_keys p) rnd intent = Ok encrypted /\
    es_ciphertext s = ei_encoded encrypted.

(** Two shares of the member's ciphertext that verify, bound to the lock. *)
Definition evidence_for (p : LockPackageV1) (c : ConfirmedLock) (s : EncryptedSubmissionV1) (e : DecryptionEvidenceV1) : Prop :=
  rel_index (de_first e) <> rel_index (de_second e) /\
  Forall (fun share => rel_epoch_account share = cl_epoch_account c /\ rel_lock_digest share = ConfirmedLock_lock_digest c /\
                       ReleasedShareV1_verify share (pk_epoch_public_keys p) s = true) (DecryptionEvidenceV1_shares e).

(** The intent accepts the epoch price. *)
Definition accepts_price (config : BatchConfig) (intent : SignedIntentV1) : Prop :=
  match ib_side (si_body intent) with
  | Buy => (bc_quote_atoms_per_lot config <= ib_limit_price (si_body intent))%Z
  | Sell => (ib_limit_price (si_body intent) <= bc_quote_atoms_per_lot config)%Z
  end.

Lemma recover_honest `{!ThresholdLaws} p c s e intent :
  keys_threshold (ek_keys (pk_epoch_public_keys p)) = 1 -> honest_member p s intent -> evidence_for p c s e ->
  recover_member p c (s, e) = Ok intent.
Proof.
  intros Ht (HW & _ & _ & rnd & encrypted & HE & Hc) [Hi HF]. unfold DecryptionEvidenceV1_shares in HF.
  rewrite !Forall_cons_iff in HF. destruct HF as ((E1 & D1 & V1) & (E2 & D2 & V2) & _).
  pose proof HE as HD. unfold EpochPublicKeys_encrypt in HD. apply decode_encode_ciphertext in HD. rewrite <- Hc in HD.
  unfold ReleasedShareV1_verify in V1, V2. rewrite HD in V1, V2.
  destruct (negb (bool_decide (rel_ciphertext_hash (de_first e) = _))) eqn:C1; [done|].
  destruct (negb (bool_decide (rel_ciphertext_hash (de_second e) = _))) eqn:C2; [done|]. bguard.
  unfold recover_member, DecryptionEvidenceV1_shares. cbn [existsb]. rewrite E1, E2, D1, D2, !bool_decide_eq_true_2 by done. cbn [negb orb].
  unfold EpochPublicKeys_recover_submission. cbn [existsb].
  rewrite E1, E2, D1, D2, C1, C2, !bool_decide_eq_true_2 by done. cbn [negb orb]. rewrite HD. cbn [mbind result_bind].
  rewrite (recover_opens _ rnd intent); try done.
  - cbn [map]. repeat constructor; set_solver.
  - by repeat constructor.
Qed.

(** Every honest member's order can be filled from the reserved balances. *)
Lemma honest_fillable p c d intents :
  LockPackageV1_validate_locked p c = Ok d -> Forall2 (honest_member p) (pk_submissions p) intents ->
  Forall (accepts_price (batch_config_of p)) intents ->
  Forall (fun b => br_base_atoms b + bc_base_lot_atoms (batch_config_of p) < 2 ^ 64 /\
                   br_quote_atoms b + bc_quote_atoms_per_lot (batch_config_of p) < 2 ^ 64)%Z (pk_balances p) ->
  Forall (fillable (batch_config_of p) (before_of (pk_balances p))) (map order_from intents).
Proof.
  intros HL HM HA HO. destruct (validate_locked_inv _ _ _ HL) as (pool & open & _ & HV & _ & _ & _ & _ & _ & _ & Hb & Hq).
  apply Forall_map, list.Forall_forall. intros i Hi. rewrite list.Forall_forall in HA. rewrite list.Forall_forall in HO. specialize (HA i Hi).
  apply list_elem_of_lookup in Hi as [k Hi]. destruct (Forall2_lookup_r _ _ _ _ _ HM Hi) as (s & Hs & _ & Hp & _).
  apply list_elem_of_lookup_2 in Hs. pose proof (pv_backed _ _ HV) as HB. pose proof (pv_admissible _ _ HV) as HX.
  rewrite list.Forall_forall in HB. rewrite list.Forall_forall in HX. destruct (HB s Hs) as (b & Hin & Hid & R1 & R2 & L1 & L2).
  destruct (HX s Hs) as (_ & _ & A1 & A2 & _). destruct (HO b Hin) as [O1 O2].
  exists (BalanceRecordV1_pool_balance b). split.
  - rewrite before_of_fmap, lookup_fmap. cbn [order_from fo_participant_id]. rewrite Hp, <- Hid.
    by rewrite (proj2 (balances_lookup _ _ b (pv_balance_ids _ _ HV)) (conj Hin eq_refl)).
  - cbn [batch_config_of bc_base_lot_atoms bc_quote_atoms_per_lot BalanceRecordV1_pool_balance base_atoms quote_atoms order_from fo_side fo_limit_price] in *.
    unfold accepts_price in HA. cbn [bc_quote_atoms_per_lot batch_config_of] in HA. split_and!; [lia | lia |]. destruct (ib_side _); lia.
Qed.

Lemma recover_honest_all `{!ThresholdLaws} p c l evidence intents :
  keys_threshold (ek_keys (pk_epoch_public_keys p)) = 1 ->
  Forall2 (honest_member p) l intents -> Forall2 (evidence_for p c) l evidence ->
  try_map (recover_member p c) (zip l evidence) = Ok intents.
Proof.
  intros Ht HM HE. apply try_map_Ok. revert evidence HE.
  induction HM as [|s i l intents Hs _ IH]; intros evidence HE; inversion HE; subst; cbn [zip zip_with]; constructor.
  - by apply recover_honest.
  - by apply IH.
Qed.

(** The assumptions on an honest locked batch. *)
Record honest_batch (p : LockPackageV1) (evidence : list DecryptionEvidenceV1) (nonce : bytes32) (c : ConfirmedLock)
    (pool : PoolStateV1) (intents : list SignedIntentV1) : Prop := {
  hb_locked : is_ok (LockPackageV1_validate_locked p c) = true;
  hb_pool : cl_pool c = Some pool;
  hb_ranges : EpochStateV1_wf (cl_state c) /\ PoolStateV1_wf pool /\ Forall balance_wf (pk_balances p);
  hb_threshold : keys_threshold (ek_keys (pk_epoch_public_keys p)) = 1;
  hb_nonce : nonce <> zero32 /\ nonce <> ep_lock_nonce (cl_state c);
  hb_members : Forall2 (honest_member p) (pk_submissions p) intents;
  hb_evidence : Forall2 (evidence_for p c) (pk_submissions p) evidence;
  hb_prices : Forall (accepts_price (batch_config_of p)) intents;
  hb_room : Forall (fun b => br_base_atoms b + bc_base_lot_atoms (batch_config_of p) < 2 ^ 64 /\
                             br_quote_atoms b + bc_quote_atoms_per_lot (batch_config_of p) < 2 ^ 64)%Z (pk_balances p);
  hb_roots : roots_distinct (before_of (pk_balances p))
    (post_balances_of (settle_balances (batch_config_of p) (map order_from intents) (before_of (pk_balances p))));
}.

Lemma honest_orders p evidence nonce c pool intents :
  honest_batch p evidence nonce c pool intents ->
  map fo_participant_id (map order_from intents) = map EncryptedSubmissionV1_participant_id (pk_submissions p).
Proof.
  intros HB. pose proof (hb_members _ _ _ _ _ _ HB) as HM. rewrite map_map. clear HB. symmetry.
  induction HM as [|s i l intents' Hs _ IH]; cbn [map]; [done|]. destruct Hs as (_ & Hp & _). f_equal; [by rewrite <- Hp | done].
Qed.

Lemma honest_recompute `{!ThresholdLaws} p evidence nonce c pool intents :
  honest_batch p evidence nonce c pool intents ->
  exists r, recompute p evidence nonce c = Ok r /\
    rc_post_balances r = post_balances_of (settle_balances (batch_config_of p) (map order_from intents) (before_of (pk_balances p))) /\
    rc_residual r = residual_of (net_lots (map order_from intents)).
Proof.
  intros HB. pose proof (hb_locked _ _ _ _ _ _ HB) as HL. apply is_ok_true in HL as [d HL].
  destruct (validate_locked_inv _ _ _ HL) as (_ & open & _ & HV & _ & _ & _ & _ & Zb & Zq & _).
  pose proof (honest_orders _ _ _ _ _ _ HB) as Hids. pose proof (pv_participants _ _ HV) as HN. rewrite <- Hids in HN.
  destruct HB as [_ Hp (HE & HP & HF) Ht [Hn0 Hn1] HM HX HA HO HR]. pose proof (Forall2_length HM) as Hlen. pose proof (Forall2_length HX) as Hev.
  pose proof (honest_fillable _ _ _ _ HL HM HA HO) as HFill.
  destruct (package_batch_wf p c d pool (map order_from intents) HL Hp HE HP HF) as (_ & _ & HW); [by rewrite length_map, Hlen|].
  assert (map order_from intents <> []) as Hne.
  { intros E. apply map_eq_nil in E. subst intents. pose proof (pv_crowd _ _ HV). pose proof (pv_count _ _ HV).
    destruct (pv_configuration _ _ HV) as (? & _). cbn in Hlen. lia. }
  destruct (index_fold_complete (pk_submissions p) ∅ (pv_participants _ _ HV)) as (subs & Hsubs & HS & _).
  { apply list.Forall_forall. intros. apply lookup_empty. }
  destruct (order_fold_complete (cfg_epoch_id (pk_configuration p)) subs intents ∅ []) as (seen & Hords); [|done|apply list.Forall_forall; set_solver|].
  { apply list.Forall_forall. intros i Hi. apply list_elem_of_lookup in Hi as [k Hi].
    destruct (Forall2_lookup_r _ _ _ _ _ HM Hi) as (s & Hs & (_ & _ & Hz) & Hpi & Hv & _). apply list_elem_of_lookup_2 in Hs.
    pose proof (pv_admissible _ _ HV) as HAd. rewrite list.Forall_forall in HAd. destruct (HAd s Hs) as (_ & _ & _ & _ & _ & _ & _ & Hk & _).
    exists s. rewrite Hpi at 1. split_and!; [by apply HS | done | done | done]. }
  destruct (roots_complete _ _ _ HR) as (post_root & result_root & Hpost & Hres).
  eexists. split.
  { unfold recompute. rewrite HL. cbn [map_err mbind result_bind].
  rewrite !bool_decide_eq_false_2 by done. cbn [orb]. rewrite <- Hev, bool_decide_eq_true_2 by done.
  rewrite (proj2 (Nat.ltb_ge _ _)) by (pose proof (pv_limit _ _ HV); unfold MAX_BATCH_MEMBERS; lia). cbn [negb orb].
  rewrite (recover_honest_all p c _ _ intents) by done. cbn [mbind result_bind]. rewrite Hsubs. cbn [mbind result_bind]. rewrite Hords.
  cbn [mbind result_bind app]. rewrite (proj2 (before_distinct _) (pv_balance_ids _ _ HV)), bool_decide_eq_true_2 by done. cbn [negb].
  unfold BatchConfig_new. rewrite !bool_decide_eq_false_2 by done. cbn [orb map_err mbind result_bind]. fold (batch_config_of p).
  rewrite (proj2 (net_batch_Ok _ _ _ _ HW) (conj Hne (conj HN (conj HFill eq_refl)))). cbn [map_err mbind result_bind].
  rewrite batch_conserves by done. cbn [negb batch_of balances residual].
  rewrite Hpost. cbn [mbind result_bind]. rewrite Hres. cbn [mbind result_bind]. rewrite Hp. cbn [ok_or mbind result_bind]. reflexivity. }
  split; reflexivity.
Qed.

(** ** Approvals *)

(** A committee member that recorded the lock and holds its share of the batch's keys. *)
Definition keyper_ready (p : LockPackageV1) (c : ConfirmedLock) (pool : PoolStateV1) (keyper : ReferenceKeyper)
    (secret : KeyperSecretShare) : Prop :=
  keyper_list (pl_keypers pool) !! Z.to_nat (rk_index keyper) = Some (verifying_key (rk_signing_key keyper)) /\
  ks_index secret = rk_index keyper /\ ks_epoch_account secret = pk_epoch_account p /\
  EpochPublicKeys_matches_share (pk_epoch_public_keys p) secret = true /\
  LockJournal_digest (rk_journal keyper) (cl_epoch_account c) = Some (ConfirmedLock_lock_digest c).

(** A built request is approved by every such keyper. *)
Lemma built_request_approved `{!DalekLaws} p evidence nonce c pool request keyper secret :
  SettlementRequestV1_build p evidence nonce c = Ok request -> cl_pool c = Some pool -> keyper_ready p c pool keyper secret ->
  exists approval, ReferenceKeyper_sign_settlement keyper request c secret = Ok approval /\
    SettlementApprovalV1_verify approval = true /\ sa_digest approval = sq_settlement_digest request /\
    sa_keyper_key approval = verifying_key (rk_signing_key keyper).
Proof.
  intros HB Hp (Hk & Hi & He & Hm & Hj). unfold SettlementRequestV1_build in HB. apply bind_Ok in HB as (r & Hr & HB).
  apply Ok_inj in HB. subst request. eexists. split.
  - unfold ReferenceKeyper_sign_settlement.
    cbn [sq_package sq_decryption_evidence sq_settlement_nonce sq_post_balances sq_pre_balance_root sq_post_balance_root
         sq_residual sq_result_root sq_result_commitment sq_settlement_digest].
    rewrite Hr. cbn [mbind result_bind]. rewrite !bool_decide_eq_true_2 by done. cbn [negb orb].
    rewrite Hp. cbn [ok_or mbind result_bind]. rewrite Hk. cbn [ok_or mbind result_bind].
    rewrite Hm, !bool_decide_eq_true_2 by done. cbn [negb orb]. reflexivity.
  - unfold SettlementApprovalV1_verify. cbn [sa_keyper_key sa_digest sa_payload sa_signature sq_settlement_digest].
    rewrite verifying_key_decodes, bool_decide_eq_true_2 by done. cbn [negb andb]. by rewrite sign_verifies.
Qed.

(** ** Agreement *)

Lemma recover_submission_inv k s shares intent :
  EpochPublicKeys_recover_submission k s shares = Ok intent ->
  exists encrypted plain, decode_ciphertext (es_ciphertext s) = Ok encrypted /\ ciphertext_verify (ei_ciphertext encrypted) = true /\
    2 <= length shares /\ NoDup (map rel_index shares) /\ Forall (share_verifies k (ei_ciphertext encrypted)) shares /\
    keys_decrypt (ek_keys k) (map (fun share => (rel_index share, rel_share share)) shares) (ei_ciphertext encrypted) = Some plain /\
    SignedIntentV1_decode plain = Ok intent.
Proof.
  unfold EpochPublicKeys_recover_submission. cbn zeta. destruct shares as [|first rest]; [done|].
  intros E. apply guard_Ok in E as [_ E]. apply bind_Ok in E as (encrypted & Hd & E).
  pose proof (recover_needs _ _ _ _ E) as (Hl & HN & HV & _). unfold EpochPublicKeys_recover in E.
  apply guard_Ok in E as [_ E]. apply bind_Ok in E as (? & _ & E). apply bind_Ok in E as (plain & Hp & E). apply ok_or_Ok in Hp.
  exists encrypted, plain. split_and!; try done.
  unfold decode_ciphertext in Hd. apply guard_Ok in Hd as [_ Hd]. apply bind_Ok in Hd as (ct & _ & Hd).
  apply guard_Ok in Hd as [Hv Hd]. apply Ok_inj in Hd. subst encrypted. by apply negb_false_iff.
Qed.

(** Two sets of shares of one member recover the same intent. *)
Lemma recover_member_agree `{!ThresholdLaws} p c s e1 e2 i1 i2 :
  keys_threshold (ek_keys (pk_epoch_public_keys p)) = 1 ->
  recover_member p c (s, e1) = Ok i1 -> recover_member p c (s, e2) = Ok i2 -> i1 = i2.
Proof.
  intros Ht E1 E2. unfold recover_member in E1, E2. apply guard_Ok in E1 as [_ E1]. apply guard_Ok in E2 as [_ E2].
  apply map_err_Ok in E1. apply map_err_Ok in E2.
  apply recover_submission_inv in E1 as (en & m1 & Hd & Hv & L1 & N1 & V1 & D1 & S1).
  apply recover_submission_inv in E2 as (en2 & m2 & Hd2 & _ & L2 & N2 & V2 & D2 & S2). rewrite Hd in Hd2. injection Hd2 as <-.
  rewrite (decrypt_unique _ _ _ (map (fun share => (rel_index share, rel_share share)) (DecryptionEvidenceV1_shares e2)) Hv) in D1.
  - rewrite D2 in D1. injection D1 as <-. congruence.
  - rewrite length_map. lia.
  - by rewrite map_map.
  - by apply Forall_map.
  - rewrite length_map. lia.
  - by rewrite map_map.
  - by apply Forall_map.
Qed.

Lemma recovered_agree `{!ThresholdLaws} p c l e1 e2 i1 i2 :
  keys_threshold (ek_keys (pk_epoch_public_keys p)) = 1 -> length e1 = length l -> length e2 = length l ->
  try_map (recover_member p c) (zip l e1) = Ok i1 -> try_map (recover_member p c) (zip l e2) = Ok i2 -> i1 = i2.
Proof.
  intros Ht. revert e1 e2 i1 i2. induction l as [|s l IH]; intros [|x1 e1] [|x2 e2] i1 i2; cbn [length zip zip_with try_map]; try done.
  - congruence.
  - intros [= L1] [= L2] E1 E2. apply bind_Ok in E1 as (y1 & F1 & E1). apply bind_Ok in E1 as (ys1 & R1 & E1). apply Ok_inj in E1.
    apply bind_Ok in E2 as (y2 & F2 & E2). apply bind_Ok in E2 as (ys2 & R2 & E2). apply Ok_inj in E2. subst i1 i2.
    f_equal; [by eapply recover_member_agree | by apply (IH e1 e2)].
Qed.

(** Two runs that take the same step, or pass the same guard. *)
Ltac same_step E1 E2 := let x := fresh "x" in let X := fresh "X" in
  apply bind_Ok in E1 as (x & X & E1); rewrite X in E2; cbn [mbind result_bind] in E2; clear X.
Ltac same_guard E1 E2 := apply guard_Ok in E1 as [_ E1]; apply guard_Ok in E2 as [_ E2].

Lemma recompute_agree `{!ThresholdLaws} p c e1 e2 n1 n2 r1 r2 :
  keys_threshold (ek_keys (pk_epoch_public_keys p)) = 1 ->
  recompute p e1 n1 c = Ok r1 -> recompute p e2 n2 c = Ok r2 ->
  rc_post_balances r1 = rc_post_balances r2 /\ rc_residual r1 = rc_residual r2 /\
  rc_result_commitment r1 = rc_result_commitment r2 /\
  CompactSettlementPayload_from (rc_payload r1) =
    {| cs_result_commitment := sp_result_commitment (rc_payload r2); cs_residual_side := sp_residual_side (rc_payload r2);
       cs_residual_lots := sp_residual_lots (rc_payload r2); cs_settlement_nonce := n1 |} /\
  (n1 = n2 -> rc_payload r1 = rc_payload r2).
Proof.
  intros Ht E1 E2. unfold recompute in E1, E2.
  apply bind_Ok in E1 as (d & _ & E1). apply guard_Ok in E1 as [_ E1]. apply guard_Ok in E1 as [G1 E1].
  apply bind_Ok in E2 as (d2 & _ & E2). apply guard_Ok in E2 as [_ E2]. apply guard_Ok in E2 as [G2 E2].
  apply orb_false_iff in G1 as [L1 _]. apply orb_false_iff in G2 as [L2 _]. apply neqb_false in L1. apply neqb_false in L2.
  apply bind_Ok in E1 as (i1 & R1 & E1). apply bind_Ok in E2 as (i2 & R2 & E2).
  pose proof (recovered_agree _ _ _ _ _ _ _ Ht L1 L2 R1 R2) as <-. clear R1 R2 L1 L2.
  same_step E1 E2. same_step E1 E2. destruct x0 as [seen orders]. cbn zeta in E1, E2. same_guard E1 E2.
  do 2 same_step E1 E2. same_guard E1 E2. do 3 same_step E1 E2.
  apply Ok_inj in E1. apply Ok_inj in E2. subst r1 r2. cbn [rc_post_balances rc_residual rc_result_commitment rc_payload].
  split_and!; try done; [|by intros ->]. unfold settlement_payload, CompactSettlementPayload_from. by destruct (residual_wire _).
Qed.
End live.
