(* ===== verification/Keyper.v ===== *)
(** * Keyper processes (crates/kageb-host/src/keyper.rs)

    The coordinator runs each keyper operation as a one-shot child process: it writes a framed
    request with the secret share to the child's standard input, scans everything the child left
    behind for the secret, and checks the response.  The child decodes the frame, reads its
    configuration and the chain, opens its journal and runs the reference keyper.  What the
    operating system does (files, pipes, exit status) is an argument. *)

From S2P Require Import Prelude Bytes Extern ProgramWire ProgramState BTree Domain Ledger Commitment.
From S2P Require Import Storage Reservation HostExtern HostCrypto Account LockJournal Lock ConfirmedReads Settlement.

Definition REQUEST_VERSION : Z := 1.
Definition REQUEST_LEN : nat := 73.
Definition RESPONSE_LEN : nat := 1 + 8 + 48 + 96.
Definition BOUND_SHARE_LEN : nat := 73.
Definition SIGN_LOCK_PREFIX_LEN : nat := BOUND_SHARE_LEN + 4.
Definition SIGN_LOCK_RESPONSE_LEN : nat := 129.
Definition MAX_SIGN_LOCK_REQUEST_LEN : Z := 64 * 1024.
Definition RELEASE_PREFIX_LEN : nat := BOUND_SHARE_LEN + 8.
Definition MAX_RELEASE_REQUEST_LEN : Z := 64 * 1024.
Definition MAX_SETTLEMENT_REQUEST_LEN : Z := 128 * 1024.
Definition MAX_SETTLEMENT_FRAME_LEN : Z := Z.of_nat BOUND_SHARE_LEN + MAX_SETTLEMENT_REQUEST_LEN.
Definition SETTLEMENT_STDIN_READ_LIMIT : Z := MAX_SETTLEMENT_FRAME_LEN + 1.

Module KeyperProcessError.
Inductive t : Type := InsecureDirectory | Spawn | Input | ChildFailed | InvalidRequest | InvalidResponse | SecretLeak.
End KeyperProcessError.
Abbreviation KeyperProcessError := KeyperProcessError.t.
Global Instance KeyperProcessError_eq_dec : EqDecision KeyperProcessError.
Proof. solve_decision. Defined.

Definition len_Z (bytes : list byte) : Z := Z.of_nat (length bytes).

(** ** Scanning for a secret *)

(** [haystack.windows(needle.len()).any(..)] for a nonempty needle. *)
Fixpoint window_matches (haystack needle : list byte) : bool :=
  match haystack with
  | [] => false
  | _ :: rest => (take (length needle) haystack == needle) || window_matches rest needle
  end.

Definition contains_bytes (haystack needle : list byte) : bool :=
  match needle with [] => false | _ => window_matches haystack needle end.

(** A directory as [read_dir] yields it; [None] is a call that failed. *)
Inductive DirEntry : Type :=
| FailedEntry
| SymlinkEntry
| DirectoryEntry (contents : option (list DirEntry))
| FileEntry (contents : option (list byte))
| OtherEntry.

(** One entry; a directory scans its entries in order and stops at the first hit. *)
Fixpoint entry_contains_bytes (needle : list byte) (entry : DirEntry) : result KeyperProcessError bool :=
  match entry with
  | FailedEntry | SymlinkEntry => Err KeyperProcessError.Input
  | DirectoryEntry None => Err KeyperProcessError.Input
  | DirectoryEntry (Some entries) =>
      (fix scan (entries : list DirEntry) : result KeyperProcessError bool :=
         match entries with
         | [] => Ok false
         | entry :: entries =>
             match entry_contains_bytes needle entry with
             | Err e => Err e
             | Ok true => Ok true
             | Ok false => scan entries
             end
         end) entries
  | FileEntry None => Err KeyperProcessError.Input
  | FileEntry (Some bytes) => Ok (contains_bytes bytes needle)
  | OtherEntry => Ok false
  end.

Definition directory_contains_bytes (directory : option (list DirEntry)) (needle : list byte) : result KeyperProcessError bool :=
  entry_contains_bytes needle (DirectoryEntry directory).

(** ** Private files *)

Record Metadata : Type := { md_is_dir : bool; md_is_file : bool; md_is_symlink : bool; md_len : Z; md_mode : Z }.

Definition verify_private_directory (metadata : option Metadata) : result KeyperProcessError unit :=
  metadata ← ok_or KeyperProcessError.InsecureDirectory metadata;
  if negb (md_is_dir metadata) then Err KeyperProcessError.InsecureDirectory else
  if Z.land (md_mode metadata) 63 != 0%Z then Err KeyperProcessError.InsecureDirectory else Ok tt.

(** [char::is_whitespace], by code point. *)
Definition is_whitespace (c : Z) : bool :=
  ((9 <=? c) && (c <=? 13) || (c =? 32) || (c =? 133) || (c =? 160) || (c =? 5760)
   || (8192 <=? c) && (c <=? 8202) || (c =? 8232) || (c =? 8233) || (c =? 8239) || (c =? 8287) || (c =? 12288))%Z.

(** UTF-8 bytes of a code point. *)
Definition char_len (c : Z) : Z := if (c <? 128)%Z then 1 else if (c <? 2048)%Z then 2 else if (c <? 65536)%Z then 3 else 4.
Definition str_len (s : list Z) : Z := fold_right (fun c n => char_len c + n)%Z 0%Z s.

Fixpoint trim_start (s : list Z) : list Z :=
  match s with
  | [] => []
  | c :: rest => if is_whitespace c then trim_start rest else s
  end.
Definition trim (s : list Z) : list Z := rev (trim_start (rev (trim_start s))).

(** The child's directory: the two configuration files and whether [current_dir] works. *)
Record KeyperFiles : Type := {
  kf_rpc_metadata : option Metadata;
  kf_rpc_text : option (list Z);
  kf_key_metadata : option Metadata;
  kf_key_bytes : option (list byte);
  kf_current_dir : bool;
}.

Definition read_keyper_rpc_url (files : KeyperFiles) : result KeyperProcessError (list Z) :=
  metadata ← ok_or KeyperProcessError.InvalidRequest (kf_rpc_metadata files);
  if negb (md_is_file metadata) || md_is_symlink metadata then Err KeyperProcessError.InvalidRequest else
  if Z.land (md_mode metadata) 63 != 0%Z then Err KeyperProcessError.InvalidRequest else
  url ← ok_or KeyperProcessError.InvalidRequest (kf_rpc_text files);
  let url := trim url in
  if match url with [] => true | _ => false end || (2048 <? str_len url)%Z || existsb is_whitespace url
  then Err KeyperProcessError.InvalidRequest else Ok url.

Definition read_keyper_attestation_key (files : KeyperFiles) : result KeyperProcessError bytes32 :=
  metadata ← ok_or KeyperProcessError.InvalidRequest (kf_key_metadata files);
  if negb (md_is_file metadata) || md_is_symlink metadata || (md_len metadata != 32%Z)
  then Err KeyperProcessError.InvalidRequest else
  if Z.land (md_mode metadata) 63 != 0%Z then Err KeyperProcessError.InvalidRequest else
  bytes ← ok_or KeyperProcessError.InvalidRequest (kf_key_bytes files);
  ok_or KeyperProcessError.InvalidRequest (try_into 32 bytes).

(** ** Child processes *)

Record Output : Type := { out_success : bool; out_stdout : list byte; out_stderr : list byte }.

Inductive ChildRun : Type := NotSpawned | StdinFailed | WaitFailed | Exited (output : Output).

(** What surrounds one run of a child: the paths, the directory's metadata before and its contents
    after, and the child's behaviour on a subcommand and its standard input. *)
Record ChildWorld : Type := {
  cw_executable : list byte;
  cw_directory : list byte;
  cw_metadata : option Metadata;
  cw_contents : option (list DirEntry);
  cw_run : list byte -> list byte -> ChildRun;
}.

Definition run_child (world : ChildWorld) (operation encoded : list byte) : result KeyperProcessError Output :=
  match cw_run world operation encoded with
  | NotSpawned => Err KeyperProcessError.Spawn
  | StdinFailed => Err KeyperProcessError.Input
  | WaitFailed => Err KeyperProcessError.ChildFailed
  | Exited output => Ok output
  end.

Definition run_one_shot (world : ChildWorld) (operation encoded secret_bytes : list byte) : result KeyperProcessError Output :=
  output ← run_child world operation encoded;
  if contains_bytes (cw_executable world) secret_bytes || contains_bytes (cw_directory world) secret_bytes
     || contains_bytes operation secret_bytes || contains_bytes (out_stdout output) secret_bytes
     || contains_bytes (out_stderr output) secret_bytes
  then Err KeyperProcessError.SecretLeak else
  leaked ← directory_contains_bytes (cw_contents world) secret_bytes;
  if (leaked : bool) then Err KeyperProcessError.SecretLeak else Ok output.

(** What a handler reads from standard input: at most [limit] bytes; [None] is a failed read. *)
Definition read_stdin (limit : Z) (stdin : option (list byte)) : result KeyperProcessError (list byte) :=
  bytes ← ok_or KeyperProcessError.InvalidRequest stdin;
  Ok (take (Z.to_nat limit) bytes).

(** Writing and flushing the response. *)
Definition write_stdout (stdout_ok : bool) (response : list byte) : result KeyperProcessError (list byte) :=
  if stdout_ok then Ok response else Err KeyperProcessError.InvalidResponse.

(** [iter().position(..)] *)
Fixpoint iter_position {A} (f : A -> bool) (l : list A) : option nat :=
  match l with
  | [] => None
  | x :: l => if f x then Some 0 else S <$> iter_position f l
  end.

(** ** Self test *)

Record KeyperSelfTestResponse : Type := {
  kr_index : Z;
  kr_public_key_share : arr 48;
  kr_signature : arr 96;
}.

Definition encode_response (response : KeyperSelfTestResponse) : list byte :=
  let encoded := zeros RESPONSE_LEN in
  let encoded := put_at 0 [byte_of REQUEST_VERSION] encoded in
  let encoded := put_at 1 (le_bytes 8 (kr_index response)) encoded in
  let encoded := put_at 9 (kr_public_key_share response) encoded in
  let encoded := put_at 57 (kr_signature response) encoded in
  encoded.

Section keyper.
Context `{Sha256} `{Solana} `{Dalek} `{Threshold} `{Sysvars} `{!KeyperCodec}.

Definition KeyperSelfTestResponse_verify (r : KeyperSelfTestResponse) (challenge : bytes32) : bool :=
  if negb (public_key_share_ok (kr_public_key_share r)) then false else
  if negb (signature_share_ok (kr_signature r)) then false else
  public_key_share_verify (kr_public_key_share r) (kr_signature r) challenge.

Definition decode_response (encoded : list byte) : result KeyperProcessError KeyperSelfTestResponse :=
  if (length encoded != RESPONSE_LEN) || (u8_at 0 encoded != REQUEST_VERSION)
  then Err KeyperProcessError.InvalidResponse else
  let index := le_val (slice 1 9 encoded) in
  public_key_share ← ok_or KeyperProcessError.InvalidResponse (try_into 48 (slice 9 57 encoded));
  signature ← ok_or KeyperProcessError.InvalidResponse (try_into 96 (slice_from 57 encoded));
  if negb (public_key_share_ok public_key_share) || negb (signature_share_ok signature)
  then Err KeyperProcessError.InvalidResponse else
  Ok {| kr_index := index; kr_public_key_share := public_key_share; kr_signature := signature |}.

Definition run_keyper_self_test (world : ChildWorld) (share : KeyperSecretShare) (challenge : bytes32)
  : result KeyperProcessError KeyperSelfTestResponse :=
  verify_private_directory (cw_metadata world) ;;
  let request := {| str_version := REQUEST_VERSION; str_index := ks_index share; str_challenge := challenge; str_share := ks_secret share |} in
  encoded ← ok_or KeyperProcessError.Input (self_test_serialize request);
  if length encoded != REQUEST_LEN then Err KeyperProcessError.Input else
  secret_bytes ← ok_or KeyperProcessError.Input (secret_serialize (ks_secret share));
  output ← run_child world (bstr "self-test") encoded;
  if negb (out_success output) then Err KeyperProcessError.ChildFailed else
  if contains_bytes (out_stdout output) secret_bytes || contains_bytes (out_stderr output) secret_bytes
  then Err KeyperProcessError.SecretLeak else
  if negb (match out_stderr output with [] => true | _ => false end) then Err KeyperProcessError.InvalidResponse else
  response ← decode_response (out_stdout output);
  if (kr_index response != ks_index share) || negb (KeyperSelfTestResponse_verify response challenge)
  then Err KeyperProcessError.InvalidResponse else Ok response.

Definition handle_keyper_self_test (stdin : option (list byte)) (stdout_ok : bool) : result KeyperProcessError (list byte) :=
  encoded ← read_stdin (Z.of_nat REQUEST_LEN + 1) stdin;
  if length encoded != REQUEST_LEN then Err KeyperProcessError.InvalidRequest else
  request ← ok_or KeyperProcessError.InvalidRequest (self_test_deserialize encoded);
  if str_version request != REQUEST_VERSION then Err KeyperProcessError.InvalidRequest else
  let public_key_share := secret_public_share (str_share request) in
  let signature := share_sign (str_share request) (str_challenge request) in
  write_stdout stdout_ok (encode_response
    {| kr_index := str_index request; kr_public_key_share := public_key_share; kr_signature := signature |}).

(** ** The secret share at the head of every other request *)

(** The frame's first bytes, with the serialized secret itself. *)
Definition append_bound_share (share : KeyperSecretShare) : result KeyperProcessError (list byte * list byte) :=
  secret_bytes ← ok_or KeyperProcessError.Input (secret_serialize (ks_secret share));
  let encoded := [byte_of REQUEST_VERSION] ++ (ks_epoch_account share : list byte) ++ le_bytes 8 (ks_index share) ++ secret_bytes in
  if length encoded != BOUND_SHARE_LEN then Err KeyperProcessError.Input else Ok (encoded, secret_bytes).

Definition decode_bound_share (encoded : list byte) : result KeyperProcessError KeyperSecretShare :=
  if (length encoded != BOUND_SHARE_LEN) || (u8_at 0 encoded != REQUEST_VERSION)
  then Err KeyperProcessError.InvalidRequest else
  epoch_account ← ok_or KeyperProcessError.InvalidRequest (try_into 32 (slice 1 33 encoded));
  let index := le_val (slice 33 41 encoded) in
  secret ← ok_or KeyperProcessError.InvalidRequest (secret_deserialize (slice_from 41 encoded));
  Ok {| ks_epoch_account := epoch_account; ks_index := index; ks_secret := secret |}.

(** ** Approving a lock *)

Definition validate_lock_approval (expected_keyper expected_digest : bytes32) (approval : LockApprovalV1)
  : result KeyperProcessError unit :=
  if (la_keyper_key approval != expected_keyper) || (la_digest approval != expected_digest) || negb (LockApprovalV1_verify approval)
  then Err KeyperProcessError.InvalidResponse else Ok tt.

Definition run_keyper_sign_lock (world : ChildWorld) (share : KeyperSecretShare) (expected_keyper : Pubkey)
    (package : LockPackageV1) : result KeyperProcessError LockApprovalV1 :=
  verify_private_directory (cw_metadata world) ;;
  let expected_digest := LockPayloadV1_digest (LockPackageV1_lock_payload package) in
  package ← map_err (fun _ => KeyperProcessError.Input) (LockPackageV1_encode_wire package);
  package_len ← ok_or KeyperProcessError.Input (checked_u32 (len_Z package));
  '(encoded, secret_bytes) ← append_bound_share share;
  let encoded := encoded ++ le_bytes 4 package_len ++ package in
  if (MAX_SIGN_LOCK_REQUEST_LEN <? len_Z encoded)%Z then Err KeyperProcessError.Input else
  output ← run_one_shot world (bstr "sign-lock") encoded secret_bytes;
  if negb (out_success output) then Err KeyperProcessError.ChildFailed else
  if negb (match out_stderr output with [] => true | _ => false end) || (length (out_stdout output) != SIGN_LOCK_RESPONSE_LEN)
  then Err KeyperProcessError.InvalidResponse else
  keyper_key ← ok_or KeyperProcessError.InvalidResponse (try_into 32 (slice 1 33 (out_stdout output)));
  digest ← ok_or KeyperProcessError.InvalidResponse (try_into 32 (slice 33 65 (out_stdout output)));
  signature ← ok_or KeyperProcessError.InvalidResponse (try_into 64 (slice 65 129 (out_stdout output)));
  let approval := {| la_keyper_key := keyper_key; la_digest := digest; la_signature := signature |} in
  if u8_at 0 (out_stdout output) != REQUEST_VERSION then Err KeyperProcessError.InvalidResponse else
  validate_lock_approval expected_keyper expected_digest approval ;;
  Ok approval.

Definition sign_lock_response (approval : LockApprovalV1) : list byte :=
  let response := zeros SIGN_LOCK_RESPONSE_LEN in
  let response := put_at 0 [byte_of REQUEST_VERSION] response in
  let response := put_at 1 (la_keyper_key approval) response in
  let response := put_at 33 (la_digest approval) response in
  let response := put_at 65 (la_signature approval) response in
  response.

(** The frame of a lock request: the share and the package. *)
Definition decode_sign_lock_request (encoded : list byte) : result KeyperProcessError (KeyperSecretShare * LockPackageV1) :=
  if (length encoded <? SIGN_LOCK_PREFIX_LEN) || (MAX_SIGN_LOCK_REQUEST_LEN <? len_Z encoded)%Z
  then Err KeyperProcessError.InvalidRequest else
  if u8_at 0 encoded != REQUEST_VERSION then Err KeyperProcessError.InvalidRequest else
  secret ← decode_bound_share (slice 0 BOUND_SHARE_LEN encoded);
  let package_len := le_val (slice BOUND_SHARE_LEN SIGN_LOCK_PREFIX_LEN encoded) in
  last ← ok_or KeyperProcessError.InvalidRequest (checked_u64 (Z.of_nat SIGN_LOCK_PREFIX_LEN + package_len));
  if last != len_Z encoded then Err KeyperProcessError.InvalidRequest else
  package ← map_err (fun _ => KeyperProcessError.InvalidRequest) (LockPackageV1_decode_wire (slice_from SIGN_LOCK_PREFIX_LEN encoded));
  Ok (secret, package).

(** The child's directory holds the journal; [io_open] and [io_sign] are the system calls of
    opening it and of recording the digest, [rpc] the node behind a URL. *)
Definition handle_keyper_sign_lock (files : KeyperFiles) (rpc : list Z -> RpcReplies) (io_open io_sign : LockIo)
    (stdin : option (list byte)) (stdout_ok : bool) (disk : LockDisk)
  : LockDisk * result KeyperProcessError (list byte) :=
  encoded ←[disk] read_stdin (MAX_SIGN_LOCK_REQUEST_LEN + 1) stdin;
  '(secret, package) ←[disk] decode_sign_lock_request encoded;
  signing_seed ←[disk] read_keyper_attestation_key files;
  let signing_key := signing_key_from_bytes signing_seed in
  rpc_url ←[disk] read_keyper_rpc_url files;
  confirmed ←[disk] map_err (fun _ => KeyperProcessError.InvalidRequest)
    (fetch_confirmed_open_epoch (rpc rpc_url) (pk_epoch_account package));
  if negb (kf_current_dir files) then (disk, Err KeyperProcessError.InvalidRequest) else
  let '(disk, opened) := LockJournal_open io_open disk in
  journal ←[disk] map_err (fun _ => KeyperProcessError.InvalidRequest) opened;
  let keyper := {| rk_index := ks_index secret; rk_signing_key := signing_key; rk_journal := journal |} in
  let '(disk, keyper, signed) := ReferenceKeyper_sign_lock io_sign disk keyper package confirmed secret in
  approval ←[disk] map_err (fun _ => KeyperProcessError.InvalidRequest) signed;
  (disk, write_stdout stdout_ok (sign_lock_response approval)).

(** ** Releasing a share *)

Definition run_keyper_release_share (world : ChildWorld) (share : KeyperSecretShare) (package : LockPackageV1)
    (member_index : nat) : result KeyperProcessError ReleasedShareV1 :=
  verify_private_directory (cw_metadata world) ;;
  package_bytes ← map_err (fun _ => KeyperProcessError.Input) (LockPackageV1_encode_wire package);
  '(encoded, secret_bytes) ← append_bound_share share;
  member ← ok_or KeyperProcessError.Input (checked_u32 (Z.of_nat member_index));
  package_len ← ok_or KeyperProcessError.Input (checked_u32 (len_Z package_bytes));
  let encoded := encoded ++ le_bytes 4 member ++ le_bytes 4 package_len ++ package_bytes in
  if (MAX_RELEASE_REQUEST_LEN <? len_Z encoded)%Z then Err KeyperProcessError.Input else
  output ← run_one_shot world (bstr "release-share") encoded secret_bytes;
  if negb (out_success output) then Err KeyperProcessError.ChildFailed else
  if negb (match out_stderr output with [] => true | _ => false end) then Err KeyperProcessError.InvalidResponse else
  released ← map_err (fun _ => KeyperProcessError.InvalidResponse) (ReleasedShareV1_decode_wire (out_stdout output));
  submission ← ok_or KeyperProcessError.Input (pk_submissions package !! member_index);
  if (rel_index released != ks_index share) || (rel_epoch_account released != pk_epoch_account package)
     || (rel_lock_digest released != LockPayloadV1_digest (LockPackageV1_lock_payload package))
     || negb (ReleasedShareV1_verify released (pk_epoch_public_keys package) submission)
  then Err KeyperProcessError.InvalidResponse else Ok released.

(** The frame of a release request: the share, the member and the package. *)
Definition decode_release_request (encoded : list byte) : result KeyperProcessError (KeyperSecretShare * nat * LockPackageV1) :=
  if (length encoded <? RELEASE_PREFIX_LEN) || (MAX_RELEASE_REQUEST_LEN <? len_Z encoded)%Z || (u8_at 0 encoded != REQUEST_VERSION)
  then Err KeyperProcessError.InvalidRequest else
  secret ← decode_bound_share (slice 0 BOUND_SHARE_LEN encoded);
  let index := ks_index secret in
  let member_index := le_val (slice BOUND_SHARE_LEN (BOUND_SHARE_LEN + 4) encoded) in
  let package_len := le_val (slice (BOUND_SHARE_LEN + 4) RELEASE_PREFIX_LEN encoded) in
  if checked_u64 (Z.of_nat RELEASE_PREFIX_LEN + package_len) != Some (len_Z encoded) then Err KeyperProcessError.InvalidRequest else
  package ← map_err (fun _ => KeyperProcessError.InvalidRequest) (LockPackageV1_decode_wire (slice_from RELEASE_PREFIX_LEN encoded));
  if (ks_epoch_account secret != pk_epoch_account package) || (ks_index secret != index)
  then Err KeyperProcessError.InvalidRequest else
  Ok (secret, Z.to_nat member_index, package).

Definition handle_keyper_release_share (files : KeyperFiles) (rpc : list Z -> RpcReplies) (io_open : LockIo)
    (stdin : option (list byte)) (stdout_ok : bool) (disk : LockDisk)
  : LockDisk * result KeyperProcessError (list byte) :=
  encoded ←[disk] read_stdin (MAX_RELEASE_REQUEST_LEN + 1) stdin;
  '(secret, member_index, package) ←[disk] decode_release_request encoded;
  rpc_url ←[disk] read_keyper_rpc_url files;
  confirmed ←[disk] map_err (fun _ => KeyperProcessError.InvalidRequest)
    (fetch_confirmed_lock (rpc rpc_url) (pk_epoch_account package));
  signing_seed ←[disk] read_keyper_attestation_key files;
  let signing_key := signing_key_from_bytes signing_seed in
  if negb (kf_current_dir files) then (disk, Err KeyperProcessError.InvalidRequest) else
  let '(disk, opened) := LockJournal_open io_open disk in
  journal ←[disk] map_err (fun _ => KeyperProcessError.InvalidRequest) opened;
  let keyper := {| rk_index := ks_index secret; rk_signing_key := signing_key; rk_journal := journal |} in
  released ←[disk] map_err (fun _ => KeyperProcessError.InvalidRequest)
    (ReferenceKeyper_release_share keyper package confirmed secret member_index);
  response ←[disk] map_err (fun _ => KeyperProcessError.InvalidResponse) (ReleasedShareV1_encode_wire released);
  (disk, write_stdout stdout_ok response).

(** ** Approving a settlement *)

Definition run_keyper_sign_settlement (world : ChildWorld) (share : KeyperSecretShare) (expected_keyper : Pubkey)
    (request : SettlementRequestV1) : result KeyperProcessError SettlementApprovalV1 :=
  verify_private_directory (cw_metadata world) ;;
  request_bytes ← map_err (fun _ => KeyperProcessError.Input) (SettlementRequestV1_encode_wire request);
  if (MAX_SETTLEMENT_REQUEST_LEN <? len_Z request_bytes)%Z then Err KeyperProcessError.Input else
  '(encoded, secret_bytes) ← append_bound_share share;
  let encoded := encoded ++ request_bytes in
  if (MAX_SETTLEMENT_FRAME_LEN <? len_Z encoded)%Z then Err KeyperProcessError.Input else
  output ← run_one_shot world (bstr "sign-settlement") encoded secret_bytes;
  if negb (out_success output) then Err KeyperProcessError.ChildFailed else
  if negb (match out_stderr output with [] => true | _ => false end) then Err KeyperProcessError.InvalidResponse else
  approval ← map_err (fun _ => KeyperProcessError.InvalidResponse) (SettlementApprovalV1_decode_wire (out_stdout output));
  if (sa_keyper_key approval != expected_keyper) || (sa_digest approval != sq_settlement_digest request)
     || negb (SettlementApprovalV1_verify approval) || (3 <=? ks_index share)%Z
  then Err KeyperProcessError.InvalidResponse else Ok approval.

(** The frame of a settlement request. *)
Definition decode_sign_settlement_request (encoded : list byte)
  : result KeyperProcessError (KeyperSecretShare * SettlementRequestV1) :=
  if (length encoded <=? BOUND_SHARE_LEN) || (MAX_SETTLEMENT_FRAME_LEN <? len_Z encoded)%Z
  then Err KeyperProcessError.InvalidRequest else
  secret ← decode_bound_share (slice 0 BOUND_SHARE_LEN encoded);
  request ← map_err (fun _ => KeyperProcessError.InvalidRequest) (SettlementRequestV1_decode_wire (slice_from BOUND_SHARE_LEN encoded));
  Ok (secret, request).

Definition handle_keyper_sign_settlement (files : KeyperFiles) (rpc : list Z -> RpcReplies) (io_open : LockIo)
    (stdin : option (list byte)) (stdout_ok : bool) (disk : LockDisk)
  : LockDisk * result KeyperProcessError (list byte) :=
  encoded ←[disk] read_stdin SETTLEMENT_STDIN_READ_LIMIT stdin;
  '(secret, request) ←[disk] decode_sign_settlement_request encoded;
  rpc_url ←[disk] read_keyper_rpc_url files;
  confirmed ←[disk] map_err (fun _ => KeyperProcessError.InvalidRequest)
    (fetch_confirmed_lock (rpc rpc_url) (pk_epoch_account (sq_package request)));
  signing_seed ←[disk] read_keyper_attestation_key files;
  let signing_key := signing_key_from_bytes signing_seed in
  if negb (kf_current_dir files) then (disk, Err KeyperProcessError.InvalidRequest) else
  let '(disk, opened) := LockJournal_open io_open disk in
  journal ←[disk] map_err (fun _ => KeyperProcessError.InvalidRequest) opened;
  pool ←[disk] ok_or KeyperProcessError.InvalidRequest (cl_pool confirmed);
  index ←[disk] ok_or KeyperProcessError.InvalidRequest
    (iter_position (fun key => key == verifying_key signing_key) (keyper_list (pl_keypers pool)));
  let keyper := {| rk_index := Z.of_nat index; rk_signing_key := signing_key; rk_journal := journal |} in
  approval ←[disk] map_err (fun _ => KeyperProcessError.InvalidRequest)
    (ReferenceKeyper_sign_settlement keyper request confirmed secret);
  (disk, write_stdout stdout_ok (SettlementApprovalV1_encode_wire approval)).
End keyper.
