(* ===== verification/KeyperProps.v ===== *)
(** * Properties of keyper processes

    The secret scan is exact, frames are read back by the handlers, and the coordinator accepts
    only checked responses. *)

From S2P Require Import Prelude Bytes Extern ProgramWire ProgramState BTree Domain Ledger.
From S2P Require Import Storage Reservation HostExtern HostCrypto HostCryptoProps Account LockJournal LockJournalProps Lock LockProps LockWire ConfirmedReads LockSafety.
From S2P Require Import Settlement SettlementWire SettlementProps SettlementChain Keyper.

(** ** The scan *)

(** The needle is not empty and occurs in the haystack. *)
Definition occurs_in (needle haystack : list byte) : Prop := needle <> [] /\ exists before after, haystack = before ++ needle ++ after.

Lemma window_matches_spec haystack needle :
  needle <> [] -> window_matches haystack needle = true <-> exists before after, haystack = before ++ needle ++ after.
Proof.
  intros Hn. induction haystack as [|b rest IH]; cbn [window_matches].
  - split; [done|]. intros (before & after & E). by destruct before, needle.
  - rewrite orb_true_iff, bool_decide_eq_true, IH. split.
    + intros [E|(before & after & ->)].
      * exists [], (drop (length needle) (b :: rest)). cbn [app]. by rewrite <- E at 1; rewrite take_drop.
      * by exists (b :: before), after.
    + intros ([|x before] & after & E); cbn [app] in E.
      * left. by rewrite E, take_app_length.
      * right. injection E as _ ->. by exists before, after.
Qed.

Lemma contains_bytes_spec haystack needle : contains_bytes haystack needle = true <-> occurs_in needle haystack.
Proof.
  unfold contains_bytes, occurs_in. destruct needle as [|b needle]; [naive_solver|].
  rewrite window_matches_spec by done. naive_solver.
Qed.

Lemma not_contained haystack needle : contains_bytes haystack needle = false -> ~ occurs_in needle haystack.
Proof. rewrite <- contains_bytes_spec. by intros ->. Qed.

(** The contents of the regular files below an entry. *)
Inductive holds_file : list byte -> DirEntry -> Prop :=
| holds_here bytes : holds_file bytes (FileEntry (Some bytes))
| holds_below bytes entry entries : entry ∈ entries -> holds_file bytes entry -> holds_file bytes (DirectoryEntry (Some entries)).

Lemma scan_clean needle bytes entry :
  holds_file bytes entry -> entry_contains_bytes needle entry = Ok false -> contains_bytes bytes needle = false.
Proof.
  induction 1 as [bytes|bytes entry entries Hin _ IH]; cbn [entry_contains_bytes]; [by intros [= ->]|].
  induction entries as [|e entries IHe]; [set_solver|].
  destruct (entry_contains_bytes needle e) as [[]|] eqn:E; [done| |done]. intros HS.
  apply elem_of_cons in Hin as [->|Hin]; [by apply IH | by apply IHe].
Qed.

Section processes.
Context `{Sha256} `{Solana} `{Dalek} `{Threshold} `{Sysvars} `{!KeyperCodec}.

(** Nothing the child produced or left in its directory carries the secret. *)
Definition nothing_leaked (world : ChildWorld) (output : Output) (secret_bytes : list byte) : Prop :=
  ~ occurs_in secret_bytes (out_stdout output) /\ ~ occurs_in secret_bytes (out_stderr output) /\
  (exists entries, cw_contents world = Some entries) /\
  forall bytes, holds_file bytes (DirectoryEntry (cw_contents world)) -> ~ occurs_in secret_bytes bytes.

Lemma run_one_shot_Ok world operation encoded secret_bytes output :
  run_one_shot world operation encoded secret_bytes = Ok output ->
  cw_run world operation encoded = Exited output /\ nothing_leaked world output secret_bytes.
Proof.
  unfold run_one_shot. intros E. apply bind_Ok in E as (out & Hr & E). apply guard_Ok in E as [G E].
  apply bind_Ok in E as (leaked & Hl & E). destruct leaked; [done|]. apply Ok_inj in E. subst out.
  rewrite !orb_false_iff in G. destruct G as ((((_ & _) & _) & Hout) & Herr).
  unfold run_child in Hr. destruct (cw_run world operation encoded); try done. injection Hr as ->.
  split; [done|]. split_and!; [by apply not_contained | by apply not_contained | | ].
  - unfold directory_contains_bytes in Hl. cbn [entry_contains_bytes] in Hl. destruct (cw_contents world); [by eexists | done].
  - intros bytes HF. apply not_contained. by apply (scan_clean secret_bytes bytes _ HF).
Qed.

Lemma append_bound_share_Ok share encoded secret_bytes :
  append_bound_share share = Ok (encoded, secret_bytes) ->
  secret_serialize (ks_secret share) = Some secret_bytes /\ length secret_bytes = 32 /\
  encoded = [byte_of 1] ++ (ks_epoch_account share : list byte) ++ le_bytes 8 (ks_index share) ++ secret_bytes.
Proof.
  unfold append_bound_share. intros E. apply bind_Ok in E as (sb & Hs & E). apply ok_or_Ok in Hs. cbn zeta in E.
  apply guard_Ok in E as [G E]. apply Ok_inj in E. injection E as <- <-. bguard.
  rewrite !length_app, length_arr, length_le_bytes in G. cbn [length] in G. unfold BOUND_SHARE_LEN in G. split_and!; [done | lia | done].
Qed.

Lemma bound_share_length share encoded secret_bytes : append_bound_share share = Ok (encoded, secret_bytes) -> length encoded = 73.
Proof. intros (_ & Hl & ->)%append_bound_share_Ok. rewrite !length_app, length_arr, length_le_bytes, Hl. reflexivity. Qed.

(** A share is read back from the head of a frame. *)
Lemma decode_bound_share_encode `{!KeyperCodecLaws} share encoded secret_bytes :
  u64_ok (ks_index share) -> append_bound_share share = Ok (encoded, secret_bytes) -> decode_bound_share encoded = Ok share.
Proof.
  intros Hi HA. pose proof (bound_share_length _ _ _ HA) as Hlen. apply append_bound_share_Ok in HA as (Hs & Hl & He).
  set (fs := [[byte_of 1]; ks_epoch_account share : list byte; le_bytes 8 (ks_index share); secret_bytes]).
  assert (encoded = concat fs) as -> by (subst fs; rewrite He; cbn [concat]; by rewrite app_nil_r).
  assert (map length fs = [1; 32; 8; 32]) as HL by (subst fs; cbn [map]; by rewrite length_arr, length_le_bytes, Hl).
  unfold decode_bound_share, BOUND_SHARE_LEN. rewrite Hlen, bool_decide_eq_true_2 by done. cbn [negb orb].
  change (u8_at 0 (concat fs)) with (byte_val (byte_of 1)). change (byte_val (byte_of 1) != REQUEST_VERSION) with false.
  replace (slice_from 41 (concat fs)) with (slice 41 73 (concat fs))
    by (unfold slice, slice_from; rewrite take_ge by (rewrite length_drop; lia); done).
  fields HL. cbn [nth fs]. rewrite try_into_arr. cbn [ok_or mbind result_bind]. rewrite (secret_round_trip _ _ Hs).
  cbn [ok_or mbind result_bind]. rewrite le_val_u64 by done. by destruct share.
Qed.

(** ** Frames *)

(** The first 73 bytes of a frame, and the rest. *)
Lemma frame_head share encoded secret_bytes rest :
  append_bound_share share = Ok (encoded, secret_bytes) ->
  slice 0 BOUND_SHARE_LEN (encoded ++ rest) = encoded /\ u8_at 0 (encoded ++ rest) = 1%Z /\
  forall lo hi, slice (73 + lo) (73 + hi) (encoded ++ rest) = slice lo hi rest /\ slice_from (73 + lo) (encoded ++ rest) = slice_from lo rest.
Proof.
  intros HA. pose proof (bound_share_length _ _ _ HA) as Hlen. apply append_bound_share_Ok in HA as (_ & _ & He). split_and!.
  - by apply slice_hit.
  - by rewrite He.
  - intros lo hi. split.
    + rewrite slice_skip by lia. f_equal; lia.
    + unfold slice_from. rewrite drop_app_ge by lia. f_equal. lia.
Qed.

Lemma read_stdin_all limit bytes : (len_Z bytes <= limit)%Z -> read_stdin limit (Some bytes) = Ok bytes.
Proof. intros Hl. unfold read_stdin, len_Z in *. cbn [ok_or mbind result_bind]. by rewrite take_ge by lia. Qed.

Lemma sign_lock_frame_decodes `{!ThresholdLaws} `{!KeyperCodecLaws} share package head secret_bytes bytes :
  u64_ok (ks_index share) -> package_wf package -> append_bound_share share = Ok (head, secret_bytes) ->
  LockPackageV1_encode_wire package = Ok bytes ->
  (len_Z (head ++ le_bytes 4 (len_Z bytes) ++ bytes) <= MAX_SIGN_LOCK_REQUEST_LEN)%Z ->
  decode_sign_lock_request (head ++ le_bytes 4 (len_Z bytes) ++ bytes) = Ok (share, package).
Proof.
  intros Hi HW HA HB Hmax. destruct (frame_head _ _ _ (le_bytes 4 (len_Z bytes) ++ bytes) HA) as (Hh & Hv & Hr).
  pose proof (bound_share_length _ _ _ HA) as Hlen. unfold decode_sign_lock_request.
  assert (length (head ++ le_bytes 4 (len_Z bytes) ++ bytes) = 77 + length bytes) as HL by (rewrite !length_app, length_le_bytes; lia).
  rewrite (proj2 (Nat.ltb_ge _ _)), (proj2 (Z.ltb_ge _ _)) by (unfold SIGN_LOCK_PREFIX_LEN, BOUND_SHARE_LEN in *; lia). cbn [orb].
  rewrite Hv. change (1%Z != REQUEST_VERSION) with false. cbn match. rewrite Hh, (decode_bound_share_encode _ _ _ Hi HA). cbn [mbind result_bind].
  destruct (Hr 0 4) as [E1 _]. destruct (Hr 4 0) as [_ E2].
  change (73 + 0) with BOUND_SHARE_LEN in E1. change (73 + 4) with SIGN_LOCK_PREFIX_LEN in E1, E2. rewrite E1, E2, slice_hit by apply length_le_bytes.
  unfold len_Z, MAX_SIGN_LOCK_REQUEST_LEN in *. rewrite HL in *.
  rewrite le_val_u32 by (unfold u32_ok; lia).
  rewrite (proj2 (checked_u64_Some _ (Z.of_nat SIGN_LOCK_PREFIX_LEN + Z.of_nat (length bytes))%Z)) by (split; [done | unfold u64_ok, SIGN_LOCK_PREFIX_LEN, BOUND_SHARE_LEN; lia]).
  cbn [ok_or mbind result_bind]. rewrite bool_decide_eq_true_2 by (unfold SIGN_LOCK_PREFIX_LEN, BOUND_SHARE_LEN; lia). cbn [negb].
  unfold slice_from. rewrite drop_app_ge, length_le_bytes, Nat.sub_diag, drop_0 by (rewrite length_le_bytes; lia).
  by rewrite (package_decode_encode _ _ HW HB).
Qed.

Lemma release_frame_decodes `{!ThresholdLaws} `{!KeyperCodecLaws} share member package head secret_bytes bytes :
  u64_ok (ks_index share) -> package_wf package -> append_bound_share share = Ok (head, secret_bytes) ->
  LockPackageV1_encode_wire package = Ok bytes -> (Z.of_nat member < 2 ^ 32)%Z -> ks_epoch_account share = pk_epoch_account package ->
  (len_Z (head ++ le_bytes 4 (Z.of_nat member) ++ le_bytes 4 (len_Z bytes) ++ bytes) <= MAX_RELEASE_REQUEST_LEN)%Z ->
  decode_release_request (head ++ le_bytes 4 (Z.of_nat member) ++ le_bytes 4 (len_Z bytes) ++ bytes) = Ok (share, member, package).
Proof.
  intros Hi HW HA HB Hm Hep Hmax. destruct (frame_head _ _ _ (le_bytes 4 (Z.of_nat member) ++ le_bytes 4 (len_Z bytes) ++ bytes) HA) as (Hh & Hv & Hr).
  pose proof (bound_share_length _ _ _ HA) as Hlen. unfold decode_release_request.
  assert (length (head ++ le_bytes 4 (Z.of_nat member) ++ le_bytes 4 (len_Z bytes) ++ bytes) = 81 + length bytes) as HL
    by (rewrite !length_app, !length_le_bytes; lia).
  rewrite (proj2 (Nat.ltb_ge _ _)), (proj2 (Z.ltb_ge _ _)) by (unfold RELEASE_PREFIX_LEN, BOUND_SHARE_LEN in *; lia). cbn [orb].
  rewrite Hv. change (1%Z != REQUEST_VERSION) with false. cbn match. rewrite Hh, (decode_bound_share_encode _ _ _ Hi HA). cbn [mbind result_bind].
  destruct (Hr 0 4) as [E1 _]. destruct (Hr 4 8) as [E2 _]. destruct (Hr 8 0) as [_ E3].
  change (73 + 0) with BOUND_SHARE_LEN in E1. change (73 + 4) with (BOUND_SHARE_LEN + 4) in E1, E2. change (73 + 8) with RELEASE_PREFIX_LEN in E2, E3.
  rewrite E1, E2, E3, slice_hit by apply length_le_bytes.
  unfold slice_from. rewrite slice_skip, length_le_bytes by (rewrite length_le_bytes; lia). cbn [Nat.sub].
  rewrite slice_hit by apply length_le_bytes.
  assert (drop 8 (le_bytes 4 (Z.of_nat member) ++ le_bytes 4 (len_Z bytes) ++ bytes) = bytes) as ->
    by (rewrite app_assoc; apply drop_app_length'; by rewrite length_app, !length_le_bytes).
  unfold len_Z, MAX_RELEASE_REQUEST_LEN in *. rewrite HL in *.
  rewrite !le_val_u32 by (unfold u32_ok; lia).
  rewrite (proj2 (checked_u64_Some _ (Z.of_nat RELEASE_PREFIX_LEN + Z.of_nat (length bytes))%Z)) by (split; [done | unfold u64_ok, RELEASE_PREFIX_LEN, BOUND_SHARE_LEN; lia]).
  rewrite bool_decide_eq_true_2 by (f_equal; unfold RELEASE_PREFIX_LEN, BOUND_SHARE_LEN; lia). cbn [negb].
  rewrite (package_decode_encode _ _ HW HB). cbn [map_err mbind result_bind]. rewrite Hep, !bool_decide_eq_true_2 by done.
  cbn [negb orb]. by rewrite Nat2Z.id.
Qed.

Lemma settlement_frame_decodes `{!ThresholdLaws} `{!KeyperCodecLaws} share request head secret_bytes bytes :
  u64_ok (ks_index share) -> request_wf request -> append_bound_share share = Ok (head, secret_bytes) ->
  SettlementRequestV1_encode_wire request = Ok bytes -> (len_Z bytes <= MAX_SETTLEMENT_REQUEST_LEN)%Z -> bytes <> [] ->
  decode_sign_settlement_request (head ++ bytes) = Ok (share, request).
Proof.
  intros Hi HW HA HB Hmax Hne. destruct (frame_head _ _ _ bytes HA) as (Hh & _ & Hr).
  pose proof (bound_share_length _ _ _ HA) as Hlen. unfold decode_sign_settlement_request, MAX_SETTLEMENT_FRAME_LEN, len_Z, BOUND_SHARE_LEN in *.
  assert (0 < length bytes) by (destruct bytes; cbn; [done | lia]). rewrite length_app, Hlen.
  rewrite (proj2 (Nat.leb_gt _ _)), (proj2 (Z.ltb_ge _ _)) by lia. cbn [orb].
  rewrite Hh, (decode_bound_share_encode _ _ _ Hi HA). cbn [mbind result_bind]. destruct (Hr 0 0) as [_ Hs]. change (73 + 0) with 73 in Hs.
  rewrite Hs. unfold slice_from. rewrite drop_0. by rewrite (request_decode_encode _ _ HW HB).
Qed.

(** ** Responses *)

Definition stderr_empty (output : Output) : bool := match out_stderr output with [] => true | _ => false end.

(** The child ran the operation on the frame and left no trace of the share. *)
Definition ran_clean (world : ChildWorld) (share : KeyperSecretShare) (operation : list byte) : Prop :=
  exists encoded secret_bytes output, secret_serialize (ks_secret share) = Some secret_bytes /\
    cw_run world operation encoded = Exited output /\ out_success output = true /\ nothing_leaked world output secret_bytes.

Lemma sign_lock_checked world share expected package approval :
  run_keyper_sign_lock world share expected package = Ok approval ->
  la_keyper_key approval = expected /\ la_digest approval = LockPayloadV1_digest (LockPackageV1_lock_payload package) /\
  LockApprovalV1_verify approval = true /\ ran_clean world share (bstr "sign-lock").
Proof.
  unfold run_keyper_sign_lock. intros E. apply bind_Ok in E as (? & _ & E). apply bind_Ok in E as (bytes & _ & E).
  apply bind_Ok in E as (n & _ & E). apply bind_Ok in E as ([head secret] & HA & E). apply guard_Ok in E as [_ E].
  apply bind_Ok in E as (output & HR & E). apply guard_Ok in E as [Hok E]. apply guard_Ok in E as [_ E].
  apply bind_Ok in E as (k & _ & E). apply bind_Ok in E as (d & _ & E). apply bind_Ok in E as (sg & _ & E). apply guard_Ok in E as [_ E].
  apply bind_Ok in E as (? & HV & E). apply Ok_inj in E. subst approval. unfold validate_lock_approval in HV. apply guard_Ok in HV as [HV _].
  bguard. apply run_one_shot_Ok in HR as [HR HC]. apply append_bound_share_Ok in HA as (HA & _).
  split_and!; try done. by exists (head ++ le_bytes 4 n ++ bytes), secret, output.
Qed.

Lemma release_checked world share package member released :
  run_keyper_release_share world share package member = Ok released ->
  exists s, pk_submissions package !! member = Some s /\ rel_index released = ks_index share /\
    rel_epoch_account released = pk_epoch_account package /\
    rel_lock_digest released = LockPayloadV1_digest (LockPackageV1_lock_payload package) /\
    ReleasedShareV1_verify released (pk_epoch_public_keys package) s = true /\ ran_clean world share (bstr "release-share").
Proof.
  unfold run_keyper_release_share. intros E. apply bind_Ok in E as (? & _ & E). apply bind_Ok in E as (bytes & _ & E).
  apply bind_Ok in E as ([head secret] & HA & E). apply bind_Ok in E as (m & _ & E). apply bind_Ok in E as (n & _ & E).
  apply guard_Ok in E as [_ E]. apply bind_Ok in E as (output & HR & E). apply guard_Ok in E as [Hok E]. apply guard_Ok in E as [_ E].
  apply bind_Ok in E as (rel & _ & E). apply bind_Ok in E as (s & Hs & E). apply ok_or_Ok in Hs. apply guard_Ok in E as [HV E].
  apply Ok_inj in E. subst rel. bguard. apply run_one_shot_Ok in HR as [HR HC]. apply append_bound_share_Ok in HA as (HA & _).
  exists s. split_and!; try done. by exists (head ++ le_bytes 4 m ++ le_bytes 4 n ++ bytes), secret, output.
Qed.

Lemma sign_settlement_checked world share expected request approval :
  run_keyper_sign_settlement world share expected request = Ok approval ->
  sa_keyper_key approval = expected /\ sa_digest approval = sq_settlement_digest request /\
  SettlementApprovalV1_verify approval = true /\ ran_clean world share (bstr "sign-settlement").
Proof.
  unfold run_keyper_sign_settlement. intros E. apply bind_Ok in E as (? & _ & E). apply bind_Ok in E as (bytes & _ & E).
  apply guard_Ok in E as [_ E]. apply bind_Ok in E as ([head secret] & HA & E). apply guard_Ok in E as [_ E].
  apply bind_Ok in E as (output & HR & E). apply guard_Ok in E as [Hok E]. apply guard_Ok in E as [_ E].
  apply bind_Ok in E as (a & _ & E). apply guard_Ok in E as [HV E]. apply Ok_inj in E. subst a. bguard.
  apply run_one_shot_Ok in HR as [HR HC]. apply append_bound_share_Ok in HA as (HA & _). split_and!; try done.
  by exists (head ++ bytes), secret, output.
Qed.

(** ** The child does what a direct call does *)

(** What a child that ends with this handler result shows its parent. *)
Definition exit_of (r : result KeyperProcessError (list byte)) : Output :=
  match r with
  | Ok response => {| out_success := true; out_stdout := response; out_stderr := [] |}
  | Err _ => {| out_success := false; out_stdout := []; out_stderr := [] |}
  end.

(** The child's configuration is readable and its journal opens. *)
Definition session (files : KeyperFiles) (io_open : LockIo) (disk : LockDisk) (seed : bytes32) (url : list Z) (disk1 : LockDisk)
    (journal : LockJournal) : Prop :=
  read_keyper_attestation_key files = Ok seed /\ read_keyper_rpc_url files = Ok url /\ kf_current_dir files = true /\
  LockJournal_open io_open disk = (disk1, Ok journal).

(** No path, no argument, no output and no file of the directory carries the secret. *)
Definition clean (world : ChildWorld) (operation stdout secret_bytes : list byte) : Prop :=
  contains_bytes (cw_executable world) secret_bytes = false /\ contains_bytes (cw_directory world) secret_bytes = false /\
  contains_bytes operation secret_bytes = false /\ contains_bytes stdout secret_bytes = false /\
  directory_contains_bytes (cw_contents world) secret_bytes = Ok false.

Lemma run_one_shot_clean world operation encoded secret_bytes response :
  cw_run world operation encoded = Exited (exit_of (Ok response)) -> clean world operation response secret_bytes ->
  run_one_shot world operation encoded secret_bytes = Ok (exit_of (Ok response)).
Proof.
  intros HR (C1 & C2 & C3 & C4 & C5). unfold run_one_shot, run_child. rewrite HR. cbn [mbind result_bind exit_of out_stdout out_stderr].
  rewrite C1, C2, C3, C4. assert (contains_bytes [] secret_bytes = false) as -> by (by destruct secret_bytes). cbn [orb].
  by rewrite C5.
Qed.

(** *** Lock approvals *)

Lemma sign_lock_response_fields a :
  sign_lock_response a = concat [[byte_of 1]; la_keyper_key a : list byte; la_digest a : list byte; la_signature a : list byte].
Proof. unfold sign_lock_response, SIGN_LOCK_RESPONSE_LEN. cbn zeta. cbn [concat]. by fill 129. Qed.

Lemma handle_sign_lock_runs files rpc io_open io_sign disk seed url disk1 journal frame share package confirmed disk2 keyper2 approval :
  session files io_open disk seed url disk1 journal ->
  (len_Z frame <= MAX_SIGN_LOCK_REQUEST_LEN)%Z -> decode_sign_lock_request frame = Ok (share, package) ->
  fetch_confirmed_open_epoch (rpc url) (pk_epoch_account package) = Ok confirmed ->
  ReferenceKeyper_sign_lock io_sign disk1
    {| rk_index := ks_index share; rk_signing_key := signing_key_from_bytes seed; rk_journal := journal |}
    package confirmed share = (disk2, keyper2, Ok approval) ->
  handle_keyper_sign_lock files rpc io_open io_sign (Some frame) true disk = (disk2, Ok (sign_lock_response approval)).
Proof.
  intros (Hk & Hu & Hc & HJ) Hl HD HF HS. unfold handle_keyper_sign_lock. rewrite read_stdin_all by lia.
  rewrite HD, Hk, Hu, HF, Hc. cbn [map_err negb]. rewrite HJ. cbn [map_err]. by rewrite HS.
Qed.

Lemma sign_lock_accepted `{!DalekLaws} world share package head secret_bytes bytes seed approval :
  verify_private_directory (cw_metadata world) = Ok tt -> append_bound_share share = Ok (head, secret_bytes) ->
  LockPackageV1_encode_wire package = Ok bytes ->
  let frame := head ++ le_bytes 4 (len_Z bytes) ++ bytes in
  (len_Z frame <= MAX_SIGN_LOCK_REQUEST_LEN)%Z ->
  cw_run world (bstr "sign-lock") frame = Exited (exit_of (Ok (sign_lock_response approval))) ->
  clean world (bstr "sign-lock") (sign_lock_response approval) secret_bytes ->
  la_digest approval = LockPayloadV1_digest (LockPackageV1_lock_payload package) ->
  la_keyper_key approval = verifying_key (signing_key_from_bytes seed) ->
  la_signature approval = dalek_sign (signing_key_from_bytes seed) (la_digest approval) ->
  run_keyper_sign_lock world share (verifying_key (signing_key_from_bytes seed)) package = Ok approval.
Proof.
  intros HP HA HB frame Hl HR HC Hd Hk Hs. unfold run_keyper_sign_lock. rewrite HP. cbn [mbind result_bind]. rewrite HB. cbn [map_err mbind result_bind].
  assert (u32_ok (len_Z bytes)) as Hu
    by (subst frame; unfold len_Z, u32_ok, MAX_SIGN_LOCK_REQUEST_LEN in *; rewrite !length_app in Hl; lia).
  rewrite (proj2 (checked_u32_Some _ _) (conj eq_refl Hu)). cbn [ok_or mbind result_bind]. rewrite HA. cbn [mbind result_bind].
  fold frame. rewrite (proj2 (Z.ltb_ge _ _)) by done. rewrite (run_one_shot_clean _ _ _ _ _ HR HC). cbn [mbind result_bind exit_of out_success out_stderr out_stdout negb orb].
  rewrite sign_lock_response_fields. set (fs := [_; _; _; _]).
  assert (map length fs = [1; 32; 32; 64]) as HL by (subst fs; cbn [map]; by rewrite !length_arr).
  assert (length (concat fs) = 129) as Hlen by (subst fs; cbn [concat]; len).
  rewrite Hlen, bool_decide_eq_true_2 by done. cbn [negb]. change (u8_at 0 (concat fs)) with (byte_val (byte_of 1)).
  change (byte_val (byte_of 1) != REQUEST_VERSION) with false. fields HL. cbn [nth fs]. rewrite !try_into_arr. cbn [ok_or mbind result_bind].
  unfold validate_lock_approval, LockApprovalV1_verify. cbn [la_keyper_key la_digest la_signature].
  rewrite Hs, Hk, verifying_key_decodes, sign_verifies, Hd, !bool_decide_eq_true_2 by done. cbn [negb orb mbind result_bind].
  destruct approval. cbn in *. by subst.
Qed.

Lemma sign_lock_approval io disk keyper package confirmed secret disk' keyper' a :
  ReferenceKeyper_sign_lock io disk keyper package confirmed secret = (disk', keyper', Ok a) ->
  la_keyper_key a = verifying_key (rk_signing_key keyper) /\ la_signature a = dalek_sign (rk_signing_key keyper) (la_digest a) /\
  la_digest a = LockPayloadV1_digest (LockPackageV1_lock_payload package).
Proof.
  unfold ReferenceKeyper_sign_lock. cbn zeta. intros E. destruct (ok_or _ _); [|done]. destruct (_ || _); [done|].
  destruct (LockPackageV1_validate package confirmed) as [d|] eqn:HV; [|done]. apply validate_Ok in HV as [_ ->].
  destruct (LockJournal_record _ _ _ _ _) as [[disk1 j1] [[]|]]; [|done]. by injection E as <- <- <-.
Qed.

(** *** Settlement approvals *)

Lemma handle_sign_settlement_runs files rpc io_open disk seed url disk1 journal frame share request confirmed pool index approval :
  session files io_open disk seed url disk1 journal ->
  (len_Z frame <= MAX_SETTLEMENT_FRAME_LEN)%Z -> decode_sign_settlement_request frame = Ok (share, request) ->
  fetch_confirmed_lock (rpc url) (pk_epoch_account (sq_package request)) = Ok confirmed -> cl_pool confirmed = Some pool ->
  iter_position (fun key => key == verifying_key (signing_key_from_bytes seed)) (keyper_list (pl_keypers pool)) = Some index ->
  ReferenceKeyper_sign_settlement
    {| rk_index := Z.of_nat index; rk_signing_key := signing_key_from_bytes seed; rk_journal := journal |}
    request confirmed share = Ok approval ->
  handle_keyper_sign_settlement files rpc io_open (Some frame) true disk = (disk1, Ok (SettlementApprovalV1_encode_wire approval)).
Proof.
  intros (Hk & Hu & Hc & HJ) Hl HD HF HP HI HS. unfold handle_keyper_sign_settlement.
  rewrite read_stdin_all by (unfold SETTLEMENT_STDIN_READ_LIMIT; lia).
  rewrite HD, Hu, HF, Hk, Hc. cbn [map_err negb]. rewrite HJ. cbn [map_err]. rewrite HP. cbn [ok_or]. rewrite HI. cbn [ok_or]. by rewrite HS.
Qed.

Lemma sign_settlement_accepted `{!DalekLaws} world share request head secret_bytes bytes key approval :
  verify_private_directory (cw_metadata world) = Ok tt -> append_bound_share share = Ok (head, secret_bytes) ->
  SettlementRequestV1_encode_wire request = Ok bytes -> (len_Z bytes <= MAX_SETTLEMENT_REQUEST_LEN)%Z ->
  cw_run world (bstr "sign-settlement") (head ++ bytes) = Exited (exit_of (Ok (SettlementApprovalV1_encode_wire approval))) ->
  clean world (bstr "sign-settlement") (SettlementApprovalV1_encode_wire approval) secret_bytes ->
  SettlementPayloadV1_wf (sa_payload approval) -> sa_keyper_key approval = verifying_key key ->
  sa_digest approval = SettlementPayloadV1_digest (sa_payload approval) -> sa_signature approval = dalek_sign key (sa_digest approval) ->
  sq_settlement_digest request = sa_digest approval -> (ks_index share < 3)%Z ->
  run_keyper_sign_settlement world share (verifying_key key) request = Ok approval.
Proof.
  intros HP HA HB Hl HR HC HW Hk Hd Hs Hq Hi. unfold run_keyper_sign_settlement. rewrite HP. cbn [mbind result_bind]. rewrite HB.
  cbn [map_err mbind result_bind]. rewrite (proj2 (Z.ltb_ge _ _)) by done. rewrite HA. cbn [mbind result_bind].
  pose proof (bound_share_length _ _ _ HA) as Hlen.
  assert (len_Z (head ++ bytes) <= MAX_SETTLEMENT_FRAME_LEN)%Z as Hf
    by (unfold len_Z, MAX_SETTLEMENT_FRAME_LEN, BOUND_SHARE_LEN in *; rewrite length_app; lia).
  rewrite (proj2 (Z.ltb_ge _ _)) by done. rewrite (run_one_shot_clean _ _ _ _ _ HR HC).
  cbn [mbind result_bind exit_of out_success out_stderr out_stdout negb]. rewrite (approval_decode_encode _ HW). cbn [map_err mbind result_bind].
  rewrite Hk, Hq. unfold SettlementApprovalV1_verify. rewrite <- Hd, Hk, Hs, verifying_key_decodes, sign_verifies.
  rewrite !bool_decide_eq_true_2 by done. rewrite (proj2 (Z.leb_gt _ _)) by done. reflexivity.
Qed.

(** The index the handler finds is one of the three. *)
Lemma iter_position_Some {A} (f : A -> bool) l i : iter_position f l = Some i -> i < length l.
Proof.
  revert i. induction l as [|x l IH]; intros i; cbn [iter_position]; [done|]. destruct (f x); [intros [= <-]; cbn; lia|].
  destruct (iter_position f l) as [j|]; [|done]. cbn. intros [= <-]. specialize (IH j eq_refl). lia.
Qed.

(** A recomputed payload has the ranges of its wire form. *)
Lemma recomputed_payload_wf p evidence nonce c r pool :
  recompute p evidence nonce c = Ok r -> cl_pool c = Some pool -> EpochStateV1_wf (cl_state c) -> PoolStateV1_wf pool ->
  Forall balance_wf (pk_balances p) -> SettlementPayloadV1_wf (rc_payload r).
Proof.
  intros HR Hp HE HP HB. destruct (recompute_inv _ _ _ _ _ HR) as (pool' & intents & orders & result & HI).
  pose proof (rp_pool _ _ _ _ _ _ _ _ _ HI) as Hp'. rewrite Hp in Hp'. injection Hp' as <-.
  destruct (recomputed_batch _ _ _ _ _ _ _ _ _ HI HE HP HB) as (-> & _ & _ & _ & _).
  pose proof (recover_member_length _ _ _ _ (rp_recovered _ _ _ _ _ _ _ _ _ HI)) as Hlen.
  rewrite (Forall2_length (rp_orders _ _ _ _ _ _ _ _ _ HI)) in Hlen.
  destruct (validate_locked_inv _ _ _ (rp_locked _ _ _ _ _ _ _ _ _ HI)) as (_ & open & _ & HV & _). pose proof (pv_limit _ _ HV).
  rewrite (rp_payload _ _ _ _ _ _ _ _ _ HI), (rp_residual _ _ _ _ _ _ _ _ _ HI). cbn [batch_of residual].
  pose proof (lots_of_range is_buy orders). pose proof (lots_of_range (fun o => negb (is_buy o)) orders).
  destruct HE as (_ & _ & _ & _ & _ & Hlot & Hprice & _).
  unfold settlement_payload, residual_of, net_lots, SettlementPayloadV1_wf, u8_ok, u32_ok.
  destruct (Z.ltb_spec 0 (lots_of is_buy orders - lots_of (fun o => negb (is_buy o)) orders));
    [|destruct (Z.ltb_spec (lots_of is_buy orders - lots_of (fun o => negb (is_buy o)) orders) 0)];
    cbn [residual_wire sp_residual_side sp_residual_lots sp_base_lot_atoms sp_quote_atoms_per_lot]; split_and!; (done || lia).
Qed.

(** *** Released shares *)

Lemma handle_release_runs files rpc io_open disk seed url disk1 journal frame share member package confirmed released response :
  session files io_open disk seed url disk1 journal ->
  (len_Z frame <= MAX_RELEASE_REQUEST_LEN)%Z -> decode_release_request frame = Ok (share, member, package) ->
  fetch_confirmed_lock (rpc url) (pk_epoch_account package) = Ok confirmed ->
  ReferenceKeyper_release_share
    {| rk_index := ks_index share; rk_signing_key := signing_key_from_bytes seed; rk_journal := journal |}
    package confirmed share member = Ok released ->
  ReleasedShareV1_encode_wire released = Ok response ->
  handle_keyper_release_share files rpc io_open (Some frame) true disk = (disk1, Ok response).
Proof.
  intros (Hk & Hu & Hc & HJ) Hl HD HF HS HE. unfold handle_keyper_release_share. rewrite read_stdin_all by lia.
  rewrite HD, Hu, HF, Hk, Hc. cbn [map_err negb]. rewrite HJ. cbn [map_err]. rewrite HS. cbn [map_err]. by rewrite HE.
Qed.

Lemma release_accepted `{!ThresholdLaws} world share package member head secret_bytes bytes released response s :
  verify_private_directory (cw_metadata world) = Ok tt -> append_bound_share share = Ok (head, secret_bytes) ->
  LockPackageV1_encode_wire package = Ok bytes -> (Z.of_nat member < 2 ^ 32)%Z ->
  let frame := head ++ le_bytes 4 (Z.of_nat member) ++ le_bytes 4 (len_Z bytes) ++ bytes in
  (len_Z frame <= MAX_RELEASE_REQUEST_LEN)%Z ->
  cw_run world (bstr "release-share") frame = Exited (exit_of (Ok response)) -> clean world (bstr "release-share") response secret_bytes ->
  ReleasedShareV1_encode_wire released = Ok response -> u64_ok (rel_index released) ->
  pk_submissions package !! member = Some s -> rel_index released = ks_index share ->
  rel_epoch_account released = pk_epoch_account package ->
  rel_lock_digest released = LockPayloadV1_digest (LockPackageV1_lock_payload package) ->
  ReleasedShareV1_verify released (pk_epoch_public_keys package) s = true ->
  run_keyper_release_share world share package member = Ok released.
Proof.
  intros HP HA HB Hm frame Hl HR HC HE Hu Hs Hi He Hd Hv. unfold run_keyper_release_share. rewrite HP. cbn [mbind result_bind]. rewrite HB.
  cbn [map_err mbind result_bind]. rewrite HA. cbn [mbind result_bind].
  assert (u32_ok (Z.of_nat member) /\ u32_ok (len_Z bytes)) as [U1 U2]
    by (subst frame; unfold len_Z, u32_ok, MAX_RELEASE_REQUEST_LEN in *; rewrite !length_app in Hl; lia).
  rewrite (proj2 (checked_u32_Some _ _) (conj eq_refl U1)). cbn [ok_or mbind result_bind].
  rewrite (proj2 (checked_u32_Some _ _) (conj eq_refl U2)). cbn [ok_or mbind result_bind]. fold frame.
  rewrite (proj2 (Z.ltb_ge _ _)) by done. rewrite (run_one_shot_clean _ _ _ _ _ HR HC).
  cbn [mbind result_bind exit_of out_success out_stderr out_stdout negb]. rewrite (released_decode_encode _ _ _ Hu HE).
  cbn [map_err mbind result_bind]. rewrite Hs. cbn [ok_or mbind result_bind]. by rewrite Hi, He, Hd, Hv, !bool_decide_eq_true_2.
Qed.

(** What the reference keyper releases passes the coordinator's checks. *)
Lemma released_share_facts `{!ThresholdLaws} k p c s i share :
  ReferenceKeyper_release_share k p c s i = Ok share ->
  exists sub, pk_submissions p !! i = Some sub /\ rel_index share = ks_index s /\ rel_epoch_account share = pk_epoch_account p /\
    rel_lock_digest share = LockPayloadV1_digest (LockPackageV1_lock_payload p) /\
    ReleasedShareV1_verify share (pk_epoch_public_keys p) sub = true /\ ks_epoch_account s = pk_epoch_account p.
Proof.
  unfold ReferenceKeyper_release_share. intros E. apply bind_Ok in E as (d & HL & E). apply bind_Ok in E as (key & _ & E).
  apply guard_Ok in E as [G E]. apply bind_Ok in E as (sub & Hs & E). apply ok_or_Ok in Hs. apply guard_Ok in E as [_ E].
  apply map_err_Ok in E. bguard. destruct (validate_locked_inv _ _ _ HL) as (_ & open & _ & HV & Hd & Hd' & _).
  pose proof (pv_admissible _ _ HV) as HA. rewrite list.Forall_forall in HA. specialize (HA sub (list_elem_of_lookup_2 _ _ _ Hs)).
  match goal with M : EpochPublicKeys_matches_share _ _ = true |- _ =>
    destruct (secret_release_verifies _ _ (pk_epoch_account p) (ConfirmedLock_lock_digest c) _ _ M HA) as (share' & E' & F1 & F2 & F3 & F4) end.
  rewrite E in E'. injection E' as <-. exists sub. split_and!; try done. rewrite F2, <- Hd'. by rewrite Hd.
Qed.

Lemma request_nonempty r bytes : SettlementRequestV1_encode_wire r = Ok bytes -> bytes <> [].
Proof.
  unfold SettlementRequestV1_encode_wire. intros E. do 5 apply bind_Ok in E as (? & _ & E). destruct (residual_wire _).
  apply Ok_inj in E. by subst.
Qed.

Lemma settlement_frame_fits share head secret_bytes bytes :
  append_bound_share share = Ok (head, secret_bytes) -> (len_Z bytes <= MAX_SETTLEMENT_REQUEST_LEN)%Z ->
  (len_Z (head ++ bytes) <= MAX_SETTLEMENT_FRAME_LEN)%Z.
Proof. intros HA%bound_share_length Hl. unfold len_Z, MAX_SETTLEMENT_FRAME_LEN, BOUND_SHARE_LEN in *. rewrite length_app. lia. Qed.

Lemma settlement_share_index keyper request c secret approval :
  ReferenceKeyper_sign_settlement keyper request c secret = Ok approval -> ks_index secret = rk_index keyper.
Proof.
  unfold ReferenceKeyper_sign_settlement. intros E. apply bind_Ok in E as (r & _ & E). cbn zeta in E. apply guard_Ok in E as [_ E].
  apply bind_Ok in E as (? & _ & E). apply bind_Ok in E as (? & _ & E). apply guard_Ok in E as [G _]. by bguard.
Qed.

(** *** Self test *)

Definition self_test_of (share : KeyperSecretShare) (challenge : bytes32) : KeyperSelfTestResponse :=
  {| kr_index := ks_index share; kr_public_key_share := secret_public_share (ks_secret share);
     kr_signature := share_sign (ks_secret share) challenge |}.

Lemma response_fields r :
  encode_response r = concat [[byte_of 1]; le_bytes 8 (kr_index r); kr_public_key_share r : list byte; kr_signature r : list byte].
Proof. unfold encode_response, RESPONSE_LEN. cbn zeta. cbn [concat]. change (1 + 8 + 48 + 96) with 153. by fill 153. Qed.

Lemma decode_encode_response r :
  u64_ok (kr_index r) -> public_key_share_ok (kr_public_key_share r) = true -> signature_share_ok (kr_signature r) = true ->
  decode_response (encode_response r) = Ok r.
Proof.
  intros Hi Hp Hs. rewrite response_fields. set (fs := [_; _; _; _]).
  assert (map length fs = [1; 8; 48; 96]) as HL by (subst fs; cbn [map]; by rewrite !length_arr, length_le_bytes).
  assert (length (concat fs) = 153) as Hlen by (subst fs; cbn [concat]; len).
  unfold decode_response, RESPONSE_LEN. rewrite Hlen, bool_decide_eq_true_2 by done. cbn [negb orb].
  change (u8_at 0 (concat fs)) with (byte_val (byte_of 1)). change (byte_val (byte_of 1) != REQUEST_VERSION) with false. cbn [orb].
  replace (slice_from 57 (concat fs)) with (slice 57 153 (concat fs))
    by (unfold slice, slice_from; rewrite take_ge by (rewrite length_drop; lia); done).
  fields HL. cbn [nth fs]. rewrite !try_into_arr. cbn [ok_or mbind result_bind]. rewrite Hp, Hs, le_val_u64 by done. by destruct r.
Qed.

Lemma self_test_accepted `{!KeyperCodecLaws} world share challenge encoded secret_bytes :
  verify_private_directory (cw_metadata world) = Ok tt -> u64_ok (ks_index share) ->
  secret_serialize (ks_secret share) = Some secret_bytes ->
  self_test_serialize {| str_version := REQUEST_VERSION; str_index := ks_index share; str_challenge := challenge; str_share := ks_secret share |} = Some encoded ->
  length encoded = REQUEST_LEN ->
  cw_run world (bstr "self-test") encoded = Exited (exit_of (handle_keyper_self_test (Some encoded) true)) ->
  contains_bytes (encode_response (self_test_of share challenge)) secret_bytes = false ->
  run_keyper_self_test world share challenge = Ok (self_test_of share challenge).
Proof.
  intros HP Hi HS HE Hl HR HC.
  assert (handle_keyper_self_test (Some encoded) true = Ok (encode_response (self_test_of share challenge))) as HH.
  { unfold handle_keyper_self_test. rewrite read_stdin_all by (unfold len_Z; lia). cbn [mbind result_bind].
    rewrite Hl, bool_decide_eq_true_2 by done. cbn [negb]. rewrite (self_test_round_trip _ _ HE). cbn [ok_or mbind result_bind str_version].
    rewrite bool_decide_eq_true_2 by done. reflexivity. }
  rewrite HH in HR. unfold run_keyper_self_test. rewrite HP. cbn [mbind result_bind]. rewrite HE. cbn [ok_or mbind result_bind].
  rewrite Hl, bool_decide_eq_true_2 by done. cbn [negb]. rewrite HS. cbn [ok_or mbind result_bind]. unfold run_child. rewrite HR.
  cbn [mbind result_bind exit_of out_success out_stdout out_stderr negb]. rewrite HC.
  assert (contains_bytes [] secret_bytes = false) as -> by (by destruct secret_bytes). cbn [orb].
  rewrite decode_encode_response by (done || apply public_share_decodes || apply share_signature_decodes). cbn [mbind result_bind].
  unfold KeyperSelfTestResponse_verify. cbn [self_test_of kr_index kr_public_key_share kr_signature].
  by rewrite public_share_decodes, share_signature_decodes, share_signature_verifies, bool_decide_eq_true_2.
Qed.
End processes.
