(* ===== verification/Client.v ===== *)
(** * Client commands (crates/kageb-host/src/client.rs)

    Preparing an encrypted order, registering an account, reading a result and checking an epoch
    view.  JSON and the two text encodings are library code, and stand as a class; files, the
    clock and the system's randomness are arguments. *)

From S2P Require Import Prelude Bytes Extern ProgramWire ProgramState BTree Domain Ledger Commitment.
From S2P Require Import Storage Reservation HostExtern HostCrypto Account LockJournal Lock ConfirmedReads Settlement Keyper.

Definition CLIENT_SCHEMA_VERSION : Z := 1.
Definition MAX_CLIENT_REQUEST_LEN : Z := 16 * 1024.
Definition MAX_KEYPAIR_FILE_LEN : Z := 1024.
Definition SOLANA_KEYPAIR_LEN : nat := 64.

Module ClientPrepareError.
Inductive t : Type := Input | KeyFile | Request | Entropy | Output.
End ClientPrepareError.
Abbreviation ClientPrepareError := ClientPrepareError.t.
Global Instance ClientPrepareError_eq_dec : EqDecision ClientPrepareError.
Proof. solve_decision. Defined.

(** ** Requests and responses

    Text fields are strings as the JSON holds them. *)

Record ClientPrepareRequest : Type := {
  cp_schema_version : Z;
  cp_side : Side;
  cp_limit_price : Z;
  cp_epoch_id : list Z;
  cp_participant_id : list Z;
  cp_funded_authorization_base64 : list Z;
  cp_epoch_public_keys_base64 : list Z;
}.

Record ClientAccountRequest : Type := {
  cq_schema_version : Z;
  cq_participant_id : list Z;
  cq_base_atoms : Z;
  cq_quote_atoms : Z;
}.

Record ClientResultRequest : Type := { cr_schema_version : Z; cr_participant_id : list Z }.

Record ClientEpochView : Type := {
  ce_schema_version : Z;
  ce_epoch_id : list Z;
  ce_base_mint : list Z;
  ce_quote_mint : list Z;
  ce_base_lot_atoms : Z;
  ce_quote_atoms_per_lot : Z;
  ce_minimum_count : Z;
  ce_keyper_threshold : Z;
  ce_lock_deadline : Z;
  ce_abort_deadline : Z;
  ce_epoch_public_keys_base64 : list Z;
}.

Record ClientPrepareResponse : Type := {
  pr_schema_version : Z;
  pr_epoch_id : list Z;
  pr_participant_id : list Z;
  pr_trading_key : list Z;
  pr_ciphertext_sha256_base64 : list Z;
  pr_submission_sha256_base64 : list Z;
  pr_encrypted_submission_base64 : list Z;
}.

Record ClientAccountResponse : Type := {
  ac_schema_version : Z;
  ac_participant_id : list Z;
  ac_trading_key : list Z;
  ac_base_atoms : Z;
  ac_quote_atoms : Z;
}.

Record ClientResultResponse : Type := {
  re_schema_version : Z;
  re_participant_id : list Z;
  re_epoch_id : list Z;
  re_base_atoms : Z;
  re_quote_atoms : Z;
}.

(** [serde_json::from_slice] and [to_vec] at each type, [bs58] and the standard [base64] engine. *)
Class ClientCodec : Type := {
  json_prepare_request : list byte -> option ClientPrepareRequest;
  json_account_request : list byte -> option ClientAccountRequest;
  json_result_request : list byte -> option ClientResultRequest;
  json_epoch_view : list byte -> option ClientEpochView;
  json_byte_list : list byte -> option (list byte);
  json_prepare_response : ClientPrepareResponse -> option (list byte);
  json_account_response : ClientAccountResponse -> option (list byte);
  json_result_response : ClientResultResponse -> option (list byte);
  json_epoch_response : ClientEpochView -> option (list byte);
  bs58_decode : list Z -> option (list byte);
  bs58_encode : list byte -> list Z;
  base64_decode : list Z -> option (list byte);
  base64_encode : list byte -> list Z;
}.

(** What was encoded is decoded, and a [u64] field holds a [u64]. *)
Class ClientCodecLaws `{ClientCodec} : Prop := {
  bs58_round_trip b : bs58_decode (bs58_encode b) = Some b;
  base64_round_trip b : base64_decode (base64_encode b) = Some b;
  prepare_request_ranges b r : json_prepare_request b = Some r -> u64_ok (cp_limit_price r);
}.

(** The key file, as its descriptor shows it. *)
Record KeypairFile : Type := { kp_metadata : option Metadata; kp_bytes : option (list byte) }.

Section client.
Context `{Sha256} `{Dalek} `{Threshold} `{!KeyperCodec} `{ClientCodec}.

(** ** Orders *)

Record PrepareOrderV1 : Type := {
  po_side : Side;
  po_limit_price : Z;
  po_epoch_id : bytes32;
  po_participant_id : bytes32;
  po_authorization : FundedAuthorizationV1;
  po_public_keys : EpochPublicKeys;
}.

Definition PrepareOrderV1_new (side : Side) (limit_price : Z) (epoch_id participant_id : bytes32)
    (authorization : FundedAuthorizationV1) (public_keys : EpochPublicKeys) : result ClientPrepareError PrepareOrderV1 :=
  if (limit_price == 0%Z) || (fa_epoch_id authorization != epoch_id) || (fa_participant_id authorization != participant_id)
  then Err ClientPrepareError.Request else
  Ok {| po_side := side; po_limit_price := limit_price; po_epoch_id := epoch_id; po_participant_id := participant_id;
        po_authorization := authorization; po_public_keys := public_keys |}.

Record PreparedOrderV1 : Type := { pd_signed_intent : SignedIntentV1; pd_submission : EncryptedSubmissionV1 }.

(** [rnd] is the randomness the encryption draws. *)
Definition prepare_order (rnd : Randomness) (request : PrepareOrderV1) (trading_key : SigningKey) (intent_nonce : arr 16)
    (receipt : bytes32) : result ClientPrepareError PreparedOrderV1 :=
  if (receipt == zero32) || (fa_trading_key (po_authorization request) != verifying_key trading_key)
  then Err ClientPrepareError.Request else
  body ← map_err (fun _ => ClientPrepareError.Request)
    (IntentBodyV1_new (po_side request) 1 (po_limit_price request) (po_epoch_id request) (po_participant_id request) intent_nonce);
  let signed_intent := SignedIntentV1_sign body trading_key in
  encrypted ← map_err (fun _ => ClientPrepareError.Request) (EpochPublicKeys_encrypt (po_public_keys request) rnd signed_intent);
  submission ← map_err (fun _ => ClientPrepareError.Request)
    (EncryptedSubmissionV1_sign (po_authorization request) encrypted receipt trading_key);
  Ok {| pd_signed_intent := signed_intent; pd_submission := submission |}.

(** ** Text *)

Definition decode_base58_32 (encoded : list Z) : result ClientPrepareError bytes32 :=
  decoded ← ok_or ClientPrepareError.Request (bs58_decode encoded);
  bytes ← ok_or ClientPrepareError.Request (try_into 32 decoded);
  if bs58_encode (arr_list bytes) != encoded then Err ClientPrepareError.Request else Ok bytes.

Definition decode_canonical_base64 (encoded : list Z) : result ClientPrepareError (list byte) :=
  decoded ← ok_or ClientPrepareError.Request (base64_decode encoded);
  if base64_encode decoded != encoded then Err ClientPrepareError.Request else Ok decoded.

(** ** Files and streams *)

Definition read_request (stdin : option (list byte)) : result ClientPrepareError (list byte) :=
  bytes ← ok_or ClientPrepareError.Input stdin;
  let encoded := take (Z.to_nat (MAX_CLIENT_REQUEST_LEN + 1)) bytes in
  if match encoded with [] => true | _ => false end || (MAX_CLIENT_REQUEST_LEN <? len_Z encoded)%Z
  then Err ClientPrepareError.Input else Ok encoded.

Definition write_response {A} (json : A -> option (list byte)) (stdout_ok : bool) (response : A)
  : result ClientPrepareError (list byte) :=
  encoded ← ok_or ClientPrepareError.Output (json response);
  if stdout_ok then Ok (encoded ++ [x0a]) else Err ClientPrepareError.Output.

Definition read_trading_key (file : KeypairFile) : result ClientPrepareError SigningKey :=
  metadata ← ok_or ClientPrepareError.KeyFile (kp_metadata file);
  if negb (md_is_file metadata) || (MAX_KEYPAIR_FILE_LEN <? md_len metadata)%Z then Err ClientPrepareError.KeyFile else
  if Z.land (md_mode metadata) 511 != 384%Z then Err ClientPrepareError.KeyFile else
  bytes ← ok_or ClientPrepareError.KeyFile (kp_bytes file);
  let encoded := take (Z.to_nat (MAX_KEYPAIR_FILE_LEN + 1)) bytes in
  if match encoded with [] => true | _ => false end || (MAX_KEYPAIR_FILE_LEN <? len_Z encoded)%Z
  then Err ClientPrepareError.KeyFile else
  keypair_bytes ← ok_or ClientPrepareError.KeyFile (json_byte_list encoded);
  if length keypair_bytes != SOLANA_KEYPAIR_LEN then Err ClientPrepareError.KeyFile else
  seed ← ok_or ClientPrepareError.KeyFile (try_into 32 (slice 0 32 keypair_bytes));
  let signing_key := signing_key_from_bytes seed in
  if (verifying_key signing_key : list byte) != slice_from 32 keypair_bytes then Err ClientPrepareError.KeyFile else
  Ok signing_key.

(** [receipt[0] = 1] on the zero draw. *)
Definition nonzero_receipt (receipt : bytes32) : bytes32 :=
  if receipt == zero32 then default receipt (try_into 32 (put_at 0 [x01] (receipt : list byte))) else receipt.

(** ** Commands

    [entropy_receipt] and [entropy_nonce] are the two draws of [getrandom]. *)

Definition prepare_submission (rnd : Randomness) (entropy_receipt : option bytes32) (entropy_nonce : option (arr 16))
    (encoded_request : list byte) (keypair : KeypairFile) : result ClientPrepareError ClientPrepareResponse :=
  request ← ok_or ClientPrepareError.Request (json_prepare_request encoded_request);
  if (cp_schema_version request != CLIENT_SCHEMA_VERSION) || (cp_limit_price request == 0%Z)
  then Err ClientPrepareError.Request else
  epoch_id ← decode_base58_32 (cp_epoch_id request);
  participant_id ← decode_base58_32 (cp_participant_id request);
  authorization_wire ← decode_canonical_base64 (cp_funded_authorization_base64 request);
  authorization ← map_err (fun _ => ClientPrepareError.Request) (FundedAuthorizationV1_decode authorization_wire);
  public_keys_wire ← decode_canonical_base64 (cp_epoch_public_keys_base64 request);
  public_keys ← map_err (fun _ => ClientPrepareError.Request) (EpochPublicKeys_decode_wire public_keys_wire);
  trading_key ← read_trading_key keypair;
  let trading_public_key := verifying_key trading_key in
  receipt ← ok_or ClientPrepareError.Entropy entropy_receipt;
  let receipt := nonzero_receipt receipt in
  order ← PrepareOrderV1_new (cp_side request) (cp_limit_price request) epoch_id participant_id authorization public_keys;
  nonce ← ok_or ClientPrepareError.Entropy entropy_nonce;
  prepared ← prepare_order rnd order trading_key nonce receipt;
  let submission_wire := EncryptedSubmissionV1_encode_wire (pd_submission prepared) in
  let ciphertext := es_ciphertext (pd_submission prepared) in
  Ok {| pr_schema_version := CLIENT_SCHEMA_VERSION; pr_epoch_id := bs58_encode (arr_list epoch_id);
        pr_participant_id := bs58_encode (arr_list participant_id); pr_trading_key := bs58_encode (arr_list trading_public_key);
        pr_ciphertext_sha256_base64 := base64_encode (arr_list (sha256 ciphertext));
        pr_submission_sha256_base64 := base64_encode (arr_list (sha256 submission_wire));
        pr_encrypted_submission_base64 := base64_encode submission_wire |}.

Definition handle_client_prepare (rnd : Randomness) (entropy_receipt : option bytes32) (entropy_nonce : option (arr 16))
    (stdin : option (list byte)) (stdout_ok : bool) (keypair : KeypairFile) : result ClientPrepareError (list byte) :=
  encoded_request ← read_request stdin;
  response ← prepare_submission rnd entropy_receipt entropy_nonce encoded_request keypair;
  write_response json_prepare_response stdout_ok response.

(** The account journal's file is the state; [io_open] and [io_mutate] are the system calls of
    opening it and of the operation on it. *)
Definition handle_client_account (io_open io_mutate : Io) (file : option (list byte)) (stdin : option (list byte))
    (stdout_ok : bool) (keypair : KeypairFile) : option (list byte) * result ClientPrepareError (list byte) :=
  encoded ←[file] read_request stdin;
  request ←[file] ok_or ClientPrepareError.Request (json_account_request encoded);
  if (cq_schema_version request != CLIENT_SCHEMA_VERSION) || (cq_base_atoms request == 0%Z) || (cq_quote_atoms request == 0%Z)
  then (file, Err ClientPrepareError.Request) else
  participant_id ←[file] decode_base58_32 (cq_participant_id request);
  trading_key ←[file] read_trading_key keypair;
  let '(file, opened) := AccountJournal_open io_open file in
  journal ←[file] map_err (fun _ => ClientPrepareError.Request) opened;
  let '(journal, registered) := AccountJournal_register io_mutate journal participant_id (verifying_key trading_key)
    {| base_atoms := cq_base_atoms request; quote_atoms := cq_quote_atoms request |} in
  _ ←[aj_file journal] map_err (fun _ => ClientPrepareError.Request) registered;
  (aj_file journal, write_response json_account_response stdout_ok
    {| ac_schema_version := CLIENT_SCHEMA_VERSION; ac_participant_id := bs58_encode (arr_list participant_id);
       ac_trading_key := bs58_encode (arr_list (verifying_key trading_key));
       ac_base_atoms := cq_base_atoms request; ac_quote_atoms := cq_quote_atoms request |}).

Definition handle_client_result (io_open io_query : Io) (file : option (list byte)) (stdin : option (list byte))
    (stdout_ok : bool) (keypair : KeypairFile) : option (list byte) * result ClientPrepareError (list byte) :=
  encoded ←[file] read_request stdin;
  request ←[file] ok_or ClientPrepareError.Request (json_result_request encoded);
  if cr_schema_version request != CLIENT_SCHEMA_VERSION then (file, Err ClientPrepareError.Request) else
  participant_id ←[file] decode_base58_32 (cr_participant_id request);
  trading_key ←[file] read_trading_key keypair;
  let '(file, opened) := AccountJournal_open io_open file in
  journal ←[file] map_err (fun _ => ClientPrepareError.Request) opened;
  let '(journal, queried) := AccountJournal_query_result io_query journal participant_id (verifying_key trading_key) in
  answer ←[aj_file journal] map_err (fun _ => ClientPrepareError.Request) queried;
  let balance := rs_balance answer in
  (aj_file journal, write_response json_result_response stdout_ok
    {| re_schema_version := CLIENT_SCHEMA_VERSION; re_participant_id := bs58_encode (arr_list participant_id);
       re_epoch_id := bs58_encode (arr_list (rs_epoch_id answer));
       re_base_atoms := base_atoms balance; re_quote_atoms := quote_atoms balance |}).

(** [now] is the clock in seconds; [None] a time before 1970. *)
Definition handle_client_epoch (now : option Z) (stdin : option (list byte)) (stdout_ok : bool)
  : result ClientPrepareError (list byte) :=
  encoded ← read_request stdin;
  request ← ok_or ClientPrepareError.Request (json_epoch_view encoded);
  epoch_id ← decode_base58_32 (ce_epoch_id request);
  base_mint ← decode_base58_32 (ce_base_mint request);
  quote_mint ← decode_base58_32 (ce_quote_mint request);
  public_keys ← decode_canonical_base64 (ce_epoch_public_keys_base64 request);
  seconds ← ok_or ClientPrepareError.Request now;
  if (2 ^ 63 <=? seconds)%Z then Err ClientPrepareError.Request else
  if (ce_schema_version request != CLIENT_SCHEMA_VERSION) || (epoch_id == zero32) || (base_mint == zero32) || (quote_mint == zero32)
     || (base_mint == quote_mint) || (ce_base_lot_atoms request == 0%Z) || (ce_quote_atoms_per_lot request == 0%Z)
     || (ce_minimum_count request <? 4)%Z || (ce_keyper_threshold request != 2%Z)
     || (ce_lock_deadline request <=? seconds)%Z || (ce_abort_deadline request <=? ce_lock_deadline request)%Z
     || negb (is_ok (EpochPublicKeys_decode_wire public_keys))
  then Err ClientPrepareError.Request else
  write_response json_epoch_response stdout_ok request.
End client.
