(* ===== verification/ClientProps.v ===== *)
(** * Properties of client commands *)

From S2P Require Import Prelude Bytes Extern ProgramWire ProgramState BTree Domain Ledger Commitment.
From S2P Require Import Storage Reservation HostExtern HostCrypto HostCryptoProps Account LockJournal Lock LockProps ConfirmedReads.
From S2P Require Import Settlement SettlementProps SettlementLive Keyper Client.

Section client.
Context `{Sha256} `{Dalek} `{Threshold}.

(** What preparing an order does. *)
Lemma prepare_order_Ok rnd order trader nonce receipt prepared :
  prepare_order rnd order trader nonce receipt = Ok prepared <->
  receipt <> zero32 /\ fa_trading_key (po_authorization order) = verifying_key trader /\ po_limit_price order <> 0%Z /\
  exists encrypted,
    let intent := SignedIntentV1_sign {| ib_side := po_side order; ib_lots := 1; ib_limit_price := po_limit_price order;
      ib_epoch_id := po_epoch_id order; ib_participant_id := po_participant_id order; ib_client_nonce := nonce |} trader in
    EpochPublicKeys_encrypt (po_public_keys order) rnd intent = Ok encrypted /\
    prepared = {| pd_signed_intent := intent;
      pd_submission := {| es_authorization := po_authorization order; es_ciphertext := ei_encoded encrypted; es_receipt := receipt;
        es_outer_signature := dalek_sign trader (submission_message (fa_epoch_id (po_authorization order))
          (FundedAuthorizationV1_hash (po_authorization order)) (sha256 (ei_encoded encrypted)) receipt) |} |}.
Proof.
  unfold prepare_order. rewrite guard_Ok. split.
  - intros [G E]. bguard. apply bind_Ok in E as (body & Hb & E). apply map_err_Ok in Hb. unfold IntentBodyV1_new in Hb.
    apply guard_Ok in Hb as [_ Hb]. apply guard_Ok in Hb as [Hz Hb]. apply Ok_inj in Hb. subst body. cbn zeta in E.
    apply bind_Ok in E as (enc & He & E). apply map_err_Ok in He. apply bind_Ok in E as (s & Hs & E). apply map_err_Ok in Hs.
    apply Ok_inj in E. subst prepared. unfold EncryptedSubmissionV1_sign in Hs. apply guard_Ok in Hs as [_ Hs]. apply guard_Ok in Hs as [_ Hs].
    apply Ok_inj in Hs. subst s. bguard. split_and!; try done. by exists enc.
  - intros (Hr & Hk & Hz & enc & He & ->). rewrite Hk, (bool_decide_eq_false_2 (receipt = zero32)), bool_decide_eq_true_2 by done.
    split; [done|]. unfold IntentBodyV1_new. rewrite bool_decide_eq_true_2, bool_decide_eq_false_2 by done. cbn [negb map_err mbind result_bind].
    cbn zeta. rewrite He. cbn [map_err mbind result_bind]. unfold EncryptedSubmissionV1_sign.
    rewrite bool_decide_eq_false_2, Hk, bool_decide_eq_true_2 by done. reflexivity.
Qed.

Lemma prepare_order_new side price epoch participant authorization keys order :
  PrepareOrderV1_new side price epoch participant authorization keys = Ok order ->
  price <> 0%Z /\ fa_epoch_id authorization = epoch /\ fa_participant_id authorization = participant /\
  order = {| po_side := side; po_limit_price := price; po_epoch_id := epoch; po_participant_id := participant;
             po_authorization := authorization; po_public_keys := keys |}.
Proof. unfold PrepareOrderV1_new. intros E. apply guard_Ok in E as [G E]. apply Ok_inj in E. by bguard. Qed.

(** A prepared order is what the batch expects of an honest member. *)
Lemma prepared_honest rnd order trader nonce receipt prepared p `{!DalekLaws} :
  prepare_order rnd order trader nonce receipt = Ok prepared -> u64_ok (po_limit_price order) ->
  fa_participant_id (po_authorization order) = po_participant_id order ->
  pk_epoch_public_keys p = po_public_keys order -> cfg_epoch_id (pk_configuration p) = po_epoch_id order ->
  honest_member p (pd_submission prepared) (pd_signed_intent prepared).
Proof.
  intros (Hr & Hk & Hz & enc & He & ->)%prepare_order_Ok Hu Hp HK HE. cbn [pd_submission pd_signed_intent].
  unfold honest_member, SignedIntentV1_sign, EncryptedSubmissionV1_participant_id.
  cbn [si_body ib_participant_id es_authorization es_ciphertext]. split_and!; try done.
  - unfold SignedIntentV1_verify. cbn [si_body ib_epoch_id ib_participant_id si_signature]. rewrite HE, !bool_decide_eq_true_2 by done.
    cbn [negb]. by rewrite Hk, sign_verifies.
  - rewrite HK. by exists rnd, enc.
Qed.

Lemma prepared_admissible rnd order trader nonce receipt prepared policy `{!DalekLaws} `{!ThresholdLaws} :
  prepare_order rnd order trader nonce receipt = Ok prepared ->
  FundedAuthorizationV1_verify (po_authorization order) policy = Ok tt -> admissible policy (pd_submission prepared).
Proof.
  intros (Hr & Hk & Hz & enc & He & ->)%prepare_order_Ok HV. cbn [pd_submission]. unfold EpochPublicKeys_encrypt in He.
  apply decode_encode_ciphertext in He. apply authorization_verify_Ok in HV as ((V1 & V2 & V3 & V4 & V5) & V6 & V7 & V8).
  unfold admissible. cbn [es_authorization es_receipt es_ciphertext es_outer_signature]. rewrite He.
  split_and!; try done; rewrite Hk; [apply verifying_key_decodes | apply sign_verifies].
Qed.

Lemma prepared_submission_wf rnd order trader nonce receipt prepared :
  prepare_order rnd order trader nonce receipt = Ok prepared -> authorization_wf (po_authorization order) ->
  submission_wf (pd_submission prepared).
Proof.
  intros (Hr & Hk & Hz & enc & He & ->)%prepare_order_Ok HW. cbn [pd_submission]. split; [done|]. cbn [es_ciphertext].
  unfold EpochPublicKeys_encrypt in He. apply encode_ciphertext_Ok in He as (_ & _ & _ & ->). reflexivity.
Qed.
End client.

Section text.
Context `{!ClientCodec} `{!ClientCodecLaws}.

(** The decoders accept exactly the canonical texts. *)
Lemma decode_base58_32_Ok text bytes : decode_base58_32 text = Ok bytes <-> text = bs58_encode (arr_list bytes).
Proof.
  unfold decode_base58_32. split.
  - intros E. apply bind_Ok in E as (d & _ & E). apply bind_Ok in E as (b & _ & E). apply guard_Ok in E as [G E].
    apply Ok_inj in E. subst b. by bguard.
  - intros ->. rewrite bs58_round_trip. cbn [ok_or mbind result_bind]. rewrite try_into_arr. cbn [ok_or mbind result_bind].
    by rewrite bool_decide_eq_true_2.
Qed.

Lemma decode_canonical_base64_Ok text bytes : decode_canonical_base64 text = Ok bytes <-> text = base64_encode bytes.
Proof.
  unfold decode_canonical_base64. split.
  - intros E. apply bind_Ok in E as (d & _ & E). apply guard_Ok in E as [G E]. apply Ok_inj in E. subst d. by bguard.
  - intros ->. rewrite base64_round_trip. cbn [ok_or mbind result_bind]. by rewrite bool_decide_eq_true_2.
Qed.
End text.
