(* ===== verification/Observer.v ===== *)
(** * The public observer (crates/kageb-host/src/observer.rs)

    What anyone can decode from confirmed transactions: a pooled epoch shows one aggregate action,
    direct trading one action per wallet.  A transaction is the part of the RPC reply the source
    reads; the token program's instruction codec and base58 are library code. *)

From S2P Require Import Prelude Bytes Extern ProgramWire ProgramState ProgramInstruction Ed25519 Domain Ledger.

Module ObserverError.
Inductive t : Type := FailedTransaction | InvalidEncoding | UnexpectedInstruction | UnexpectedAccount | UnexpectedTokenEffect | InvalidResidual.
End ObserverError.
Abbreviation ObserverError := ObserverError.t.
Global Instance ObserverError_eq_dec : EqDecision ObserverError.
Proof. solve_decision. Defined.

Record KagebObserverAccounts : Type := {
  ko_fee_payer : Pubkey;
  ko_payer : Pubkey;
  ko_pool : Pubkey;
  ko_epoch : Pubkey;
  ko_vault_authority : Pubkey;
  ko_pool_base_vault : Pubkey;
  ko_pool_quote_vault : Pubkey;
  ko_venue_authority : Pubkey;
  ko_venue_base_account : Pubkey;
  ko_venue_quote_account : Pubkey;
  ko_base_mint : Pubkey;
  ko_quote_mint : Pubkey;
  ko_base_lot_atoms : Z;
  ko_quote_atoms_per_lot : Z;
}.

Record DirectMarketAccounts : Type := {
  dm_fee_payer : Pubkey;
  dm_base_mint : Pubkey;
  dm_quote_mint : Pubkey;
  dm_venue_base_account : Pubkey;
  dm_venue_quote_account : Pubkey;
  dm_base_lot_atoms : Z;
  dm_quote_atoms_per_lot : Z;
}.

Record DirectOrder : Type := { do_wallet : bytes32; do_side : Side }.

Inductive PublicAction : Type :=
| Individual (wallet : bytes32) (side : Side) (lots : Z)
| Aggregate (pool venue : bytes32) (residual : Residual) (member_root result_commitment : bytes32) (keyper_approvals : Z).

Record PublicTrace : Type := { pt_actions : list PublicAction }.

(** ** Confirmed transactions *)

Record CompiledInstruction : Type := { ci_program_id_index : Z; ci_accounts : list Z; ci_data : list byte }.

(** An inner instruction: compiled with base58 data, or parsed by the node. *)
Inductive UiInstruction : Type := Compiled (program_id_index : Z) (accounts : list Z) (data : list Z) | Parsed.
Record UiInnerInstructions : Type := { ui_index : Z; ui_instructions : list UiInstruction }.

(** [meta] is absent, or has an error, a status and the inner instructions when the node sent them;
    [message] is the decoded transaction: static keys and instructions. *)
Record TransactionMeta : Type := { tm_err : bool; tm_status_err : bool; tm_inner : option (list UiInnerInstructions) }.
Record ConfirmedTransaction : Type := {
  ct_meta : option TransactionMeta;
  ct_message : option (list Pubkey * list CompiledInstruction);
}.

Inductive TokenInstruction : Type := TransferChecked (amount decimals : Z) | OtherToken.

Class ObserverCodec : Type := {
  (** [spl_token_interface::instruction::TokenInstruction::unpack(..).ok()] *)
  token_unpack : list byte -> option TokenInstruction;
  (** [bs58::decode(..).into_vec().ok()] *)
  data_decode : list Z -> option (list byte);
}.

Record DecodedConfirmed : Type := {
  dc_keys : list Pubkey;
  dc_instructions : list CompiledInstruction;
  dc_inner : list UiInnerInstructions;
}.

Definition decode_confirmed (confirmed : ConfirmedTransaction) : result ObserverError DecodedConfirmed :=
  meta ← ok_or ObserverError.FailedTransaction (ct_meta confirmed);
  if tm_err meta || tm_status_err meta then Err ObserverError.FailedTransaction else
  '(keys, instructions) ← ok_or ObserverError.InvalidEncoding (ct_message confirmed);
  Ok {| dc_keys := keys; dc_instructions := instructions; dc_inner := default [] (tm_inner meta) |}.

(** ** Accounts *)

Definition key_at (keys : list Pubkey) (index : Z) : option Pubkey := keys !! Z.to_nat index.

Definition account_at (keys : list Pubkey) (index : Z) : result ObserverError Pubkey :=
  ok_or ObserverError.UnexpectedAccount (key_at keys index).

Definition require_fee_payer (keys : list Pubkey) (expected : Pubkey) : result ObserverError unit :=
  if head keys != Some expected then Err ObserverError.UnexpectedAccount else Ok tt.

Definition require_accounts (keys : list Pubkey) (indexes : list Z) (expected : list Pubkey) : result ObserverError unit :=
  if (length indexes != length expected) || existsb (fun e => key_at keys (fst e) != Some (snd e)) (zip indexes expected)
  then Err ObserverError.UnexpectedAccount else Ok tt.

Definition contains (k : Pubkey) (l : list Pubkey) : bool := existsb (fun x => x == k) l.

(** The entries that do not occur before themselves. *)
Fixpoint unique_count (before expected : list Pubkey) : nat :=
  match expected with
  | [] => 0
  | key :: expected => (if contains key before then 0 else 1) + unique_count (before ++ [key]) expected
  end.

Definition require_exact_keys (keys expected : list Pubkey) : result ObserverError unit :=
  let unique_expected := unique_count [] expected in
  if (length keys != unique_expected) || existsb (fun key => negb (contains key expected)) keys
     || existsb (fun key => negb (contains key keys)) expected
  then Err ObserverError.UnexpectedAccount else Ok tt.

(** ** Traces *)

Definition PublicTrace_direct (orders : list DirectOrder) : PublicTrace :=
  {| pt_actions := map (fun order => Individual (do_wallet order) (do_side order) 1) orders |}.

Definition PublicTrace_pooled (pool venue : bytes32) (residual : Residual) (member_root result_root : bytes32) : PublicTrace :=
  {| pt_actions := [Aggregate pool venue residual member_root result_root 0] |}.

Definition PublicTrace_visible_participant_wallets (t : PublicTrace) : list bytes32 :=
  omap (fun action => match action with Individual wallet _ _ => Some wallet | Aggregate _ _ _ _ _ _ => None end) (pt_actions t).

Definition is_individual (action : PublicAction) : bool := match action with Individual _ _ _ => true | _ => false end.
Definition PublicTrace_individual_order_count (t : PublicTrace) : nat := length (List.filter is_individual (pt_actions t)).
Definition PublicTrace_aggregate_count (t : PublicTrace) : nat := length (List.filter (fun a => negb (is_individual a)) (pt_actions t)).

Section observer.
Context `{Sha256} `{Solana} `{ObserverCodec}.

(** One turn of the loop of [exact_kageb_instruction]: what was found, and the approvals before it. *)
Definition scan_instruction (keys : list Pubkey) (discriminator : Z) (st : option CompiledInstruction * Z)
    (entry : nat * CompiledInstruction) : result ObserverError (option CompiledInstruction * Z) :=
  let '(found, approvals) := st in
  let '(index, instruction) := entry in
  program ← ok_or ObserverError.UnexpectedInstruction (key_at keys (ci_program_id_index instruction));
  if program == ed25519_program_id then
    if (match found with Some _ => true | None => false end) || negb (match ci_accounts instruction with [] => true | _ => false end)
    then Err ObserverError.UnexpectedInstruction else
    let verifier := {| ix_program_id := program; ix_accounts := []; ix_data := ci_data instruction |} in
    map_err (fun _ => ObserverError.UnexpectedInstruction) (parse_strict_ed25519 verifier) ;;
    approvals ← ok_or ObserverError.UnexpectedInstruction (if (approvals + 1 <? 256)%Z then Some (approvals + 1)%Z else None);
    Ok (found, approvals)
  else if program == ID then
    if (match found with Some _ => true | None => false end)
       || (byte_val <$> head (ci_data instruction) != Some discriminator)
       || (Z.of_nat index != approvals)
    then Err ObserverError.UnexpectedInstruction else
    Ok (Some instruction, approvals)
  else Err ObserverError.UnexpectedInstruction.

Definition exact_kageb_instruction (transaction : DecodedConfirmed) (discriminator : Z)
  : result ObserverError (CompiledInstruction * Z) :=
  '(found, approvals) ← try_fold (scan_instruction (dc_keys transaction) discriminator) (None, 0%Z)
    (zip (seq 0 (length (dc_instructions transaction))) (dc_instructions transaction));
  instruction ← ok_or ObserverError.UnexpectedInstruction found;
  Ok (instruction, approvals).

(** [match (side, lots)] *)
Definition observed_residual (side lots : Z) : result ObserverError Residual :=
  if (side =? 0)%Z && (lots =? 0)%Z then Ok Residual.None else
  if (side =? 1)%Z && (1 <=? lots)%Z then Ok (Residual.Buy lots) else
  if (side =? 2)%Z && (1 <=? lots)%Z then Ok (Residual.Sell lots) else
  Err ObserverError.InvalidResidual.

(** The token legs a residual must show. *)
Definition expected_effects (accounts : KagebObserverAccounts) (residual : Residual) (base_amount quote_amount : Z)
  : list (list Pubkey * Z) :=
  match residual with
  | Residual.None => []
  | Residual.Buy _ =>
      [([ko_pool_quote_vault accounts; ko_quote_mint accounts; ko_venue_quote_account accounts; ko_vault_authority accounts], quote_amount);
       ([ko_venue_base_account accounts; ko_base_mint accounts; ko_pool_base_vault accounts; ko_venue_authority accounts], base_amount)]
  | Residual.Sell _ =>
      [([ko_pool_base_vault accounts; ko_base_mint accounts; ko_venue_base_account accounts; ko_vault_authority accounts], base_amount);
       ([ko_venue_quote_account accounts; ko_quote_mint accounts; ko_pool_quote_vault accounts; ko_venue_authority accounts], quote_amount)]
  end.

(** One inner instruction against one expected leg. *)
Definition check_effect (keys : list Pubkey) (pair : UiInstruction * (list Pubkey * Z)) : result ObserverError unit :=
  let '(instruction, (expected_accounts, expected_amount)) := pair in
  match instruction with
  | Parsed => Err ObserverError.UnexpectedTokenEffect
  | Compiled program_id_index accounts data =>
      if key_at keys program_id_index != Some TOKEN_PROGRAM_ID then Err ObserverError.UnexpectedTokenEffect else
      require_accounts keys accounts expected_accounts ;;
      data ← ok_or ObserverError.UnexpectedTokenEffect (data_decode data);
      token ← ok_or ObserverError.UnexpectedTokenEffect (token_unpack data);
      match token with
      | TransferChecked amount decimals =>
          if (decimals =? 0)%Z && (amount =? expected_amount)%Z then Ok tt else Err ObserverError.UnexpectedTokenEffect
      | OtherToken => Err ObserverError.UnexpectedTokenEffect
      end
  end.

Definition validate_settlement_token_effects (inner : list UiInnerInstructions) (keys : list Pubkey) (settlement_index : Z)
    (accounts : KagebObserverAccounts) (residual : Residual) : result ObserverError unit :=
  let lots := match residual with Residual.None => 0 | Residual.Buy lots | Residual.Sell lots => lots end%Z in
  base_amount ← ok_or ObserverError.UnexpectedTokenEffect (checked_mul_u64 (ko_base_lot_atoms accounts) lots);
  quote_amount ← ok_or ObserverError.UnexpectedTokenEffect (checked_mul_u64 (ko_quote_atoms_per_lot accounts) lots);
  let expected := expected_effects accounts residual base_amount quote_amount in
  let compare (instructions : list UiInstruction) :=
    if length instructions != length expected then Err ObserverError.UnexpectedTokenEffect else
    try_each (check_effect keys) (zip instructions expected) in
  match inner with
  | [] => match expected with [] => Ok tt | _ => Err ObserverError.UnexpectedTokenEffect end
  | [group] => if ui_index group == settlement_index then compare (ui_instructions group) else Err ObserverError.UnexpectedTokenEffect
  | _ => Err ObserverError.UnexpectedTokenEffect
  end.

(** The keys and the account order the two transactions must have. *)
Definition lock_keys (accounts : KagebObserverAccounts) : list Pubkey :=
  [ko_fee_payer accounts; ko_payer accounts; ko_pool accounts; ko_epoch accounts; instructions_sysvar_id; clock_sysvar_id;
   ed25519_program_id; ID].
Definition lock_account_order (accounts : KagebObserverAccounts) : list Pubkey :=
  [ko_payer accounts; ko_pool accounts; ko_epoch accounts; instructions_sysvar_id; clock_sysvar_id].
Definition settlement_keys (accounts : KagebObserverAccounts) : list Pubkey :=
  [ko_fee_payer accounts; ko_payer accounts; ko_pool accounts; ko_epoch accounts; ko_vault_authority accounts;
   ko_pool_base_vault accounts; ko_pool_quote_vault accounts; ko_venue_authority accounts; ko_venue_base_account accounts;
   ko_venue_quote_account accounts; ko_base_mint accounts; ko_quote_mint accounts; TOKEN_PROGRAM_ID; instructions_sysvar_id;
   clock_sysvar_id; ed25519_program_id; ID].
Definition settlement_account_order (accounts : KagebObserverAccounts) : list Pubkey :=
  [ko_payer accounts; ko_pool accounts; ko_epoch accounts; ko_vault_authority accounts; ko_pool_base_vault accounts;
   ko_pool_quote_vault accounts; ko_venue_authority accounts; ko_venue_base_account accounts; ko_venue_quote_account accounts;
   ko_base_mint accounts; ko_quote_mint accounts; TOKEN_PROGRAM_ID; instructions_sysvar_id; clock_sysvar_id].

Definition PublicTrace_from_confirmed_kageb (lock settlement : ConfirmedTransaction) (accounts : KagebObserverAccounts)
  : result ObserverError PublicTrace :=
  lock ← decode_confirmed lock;
  settlement ← decode_confirmed settlement;
  require_fee_payer (dc_keys lock) (ko_fee_payer accounts) ;;
  require_fee_payer (dc_keys settlement) (ko_fee_payer accounts) ;;
  '(lock_instruction, lock_approvals) ← exact_kageb_instruction lock 2;
  '(settlement_instruction, settlement_approvals) ← exact_kageb_instruction settlement 3;
  if (lock_approvals != 2%Z) || (settlement_approvals != 2%Z) then Err ObserverError.UnexpectedInstruction else
  require_exact_keys (dc_keys lock) (lock_keys accounts) ;;
  require_accounts (dc_keys lock) (ci_accounts lock_instruction) (lock_account_order accounts) ;;
  lock_decoded ← map_err (fun _ => ObserverError.UnexpectedInstruction) (KagebInstruction_decode (ci_data lock_instruction));
  lock_payload ← match lock_decoded with
    | Lock payload =>
        if (lp_epoch_account payload == ko_epoch accounts) && (4 <=? lp_member_count payload)%Z
        then Ok payload else Err ObserverError.UnexpectedInstruction
    | _ => Err ObserverError.UnexpectedInstruction
    end;
  require_exact_keys (dc_keys settlement) (settlement_keys accounts) ;;
  require_accounts (dc_keys settlement) (ci_accounts settlement_instruction) (settlement_account_order accounts) ;;
  settle_decoded ← map_err (fun _ => ObserverError.UnexpectedInstruction) (KagebInstruction_decode (ci_data settlement_instruction));
  compact ← match settle_decoded with Settle payload => Ok payload | _ => Err ObserverError.UnexpectedInstruction end;
  residual ← observed_residual (cs_residual_side compact) (cs_residual_lots compact);
  validate_settlement_token_effects (dc_inner settlement) (dc_keys settlement) 2 accounts residual ;;
  Ok {| pt_actions := [Aggregate (ko_pool accounts) (ko_venue_authority accounts) residual (lp_member_root lock_payload)
                         (cs_result_commitment compact) settlement_approvals] |}.

(** One turn of the loop over direct transactions. *)
Definition direct_action (market : DirectMarketAccounts) (transaction : ConfirmedTransaction) : result ObserverError PublicAction :=
  transaction ← decode_confirmed transaction;
  require_fee_payer (dc_keys transaction) (dm_fee_payer market) ;;
  match dc_inner transaction, dc_instructions transaction with
  | [], [instruction] =>
      if key_at (dc_keys transaction) (ci_program_id_index instruction) != Some TOKEN_PROGRAM_ID
      then Err ObserverError.UnexpectedInstruction else
      match ci_accounts instruction with
      | [a0; a1; a2; a3] =>
          source ← account_at (dc_keys transaction) a0;
          mint ← account_at (dc_keys transaction) a1;
          destination ← account_at (dc_keys transaction) a2;
          wallet ← account_at (dc_keys transaction) a3;
          if (source == destination) || (wallet == destination) then Err ObserverError.UnexpectedAccount else
          require_exact_keys (dc_keys transaction) [dm_fee_payer market; source; mint; destination; wallet; TOKEN_PROGRAM_ID] ;;
          token ← ok_or ObserverError.UnexpectedTokenEffect (token_unpack (ci_data instruction));
          '(side, amount) ←
            if (mint == dm_base_mint market) && (destination == dm_venue_base_account market)
            then Ok (Sell, dm_base_lot_atoms market) else
            if (mint == dm_quote_mint market) && (destination == dm_venue_quote_account market)
            then Ok (Buy, dm_quote_atoms_per_lot market) else
            Err ObserverError.UnexpectedAccount;
          match token with
          | TransferChecked actual decimals =>
              if (decimals =? 0)%Z && (actual =? amount)%Z then Ok (Individual wallet side 1) else Err ObserverError.UnexpectedTokenEffect
          | OtherToken => Err ObserverError.UnexpectedTokenEffect
          end
      | _ => Err ObserverError.UnexpectedInstruction
      end
  | _, _ => Err ObserverError.UnexpectedInstruction
  end.

Definition PublicTrace_from_confirmed_direct (transactions : list ConfirmedTransaction) (market : DirectMarketAccounts)
  : result ObserverError PublicTrace :=
  actions ← try_map (direct_action market) transactions;
  Ok {| pt_actions := actions |}.
End observer.
