(* ===== verification/ObserverProps.v ===== *)
(** * What the public observer accepts

    The shape of a transaction as the instructions its builders make, resolved against the key table
    of the message, and the equivalences between the observer's loops and that shape. *)

From S2P Require Import Prelude Bytes Extern ProgramWire ProgramState ProgramInstruction Ed25519 Processor ProcessorProps Chain.
From S2P Require Import Domain Ledger Settlement Observer.

(** The [?] of a computation that returns [x]. *)
Ltac step_with x := apply bind_Ok; exists x; split.

(** ** Key tables *)

(** The indexes of a compiled instruction name these accounts. *)
Definition names (keys : list Pubkey) (indexes : list Z) (expected : list Pubkey) : Prop :=
  Forall2 (fun index k => key_at keys index = Some k) indexes expected.

Lemma contains_true k l : contains k l = true <-> k ∈ l.
Proof.
  unfold contains. rewrite existsb_exists. split.
  - intros (x & Hx & E). bguard. subst. by apply list_elem_of_In.
  - intros Hk%list_elem_of_In. exists k. split; [done|]. by apply bool_decide_eq_true.
Qed.

Lemma existsb_missing (l expected : list Pubkey) :
  existsb (fun k => negb (contains k expected)) l = false <-> l ⊆ expected.
Proof.
  split.
  - intros E k Hk. destruct (contains k expected) eqn:C; [by apply contains_true|].
    exfalso. apply not_true_iff_false in E. apply E, existsb_exists. exists k. rewrite C.
    split; [by apply list_elem_of_In | done].
  - intros Hs. apply not_true_is_false. intros (k & Hk & C)%existsb_exists. apply negb_true_iff in C.
    apply list_elem_of_In, Hs, contains_true in Hk. congruence.
Qed.

Lemma require_fee_payer_Ok keys k u : require_fee_payer keys k = Ok u <-> head keys = Some k.
Proof. destruct u. unfold require_fee_payer. rewrite guard_Ok, neqb_false. naive_solver. Qed.

Lemma require_accounts_Ok keys indexes expected u :
  require_accounts keys indexes expected = Ok u <-> names keys indexes expected.
Proof.
  destruct u. unfold require_accounts, names. rewrite guard_Ok, orb_false_iff, neqb_false.
  revert expected. induction indexes as [|i indexes IH]; intros [|k expected]; cbn [zip zip_with existsb length fst snd].
  1: split; [by constructor | done].
  1,2: split; [intros [[? _] _]; done | inversion 1].
  rewrite orb_false_iff, neqb_false, list.Forall2_cons, <- IH. split.
  - intros [(Hl & Hk & Hr) _]. split_and!; [done | congruence | done | done].
  - intros [Hk [[Hl Hr] _]]. split_and!; [congruence | done | done | done].
Qed.

(** [unique_count] counts the distinct keys. *)
Lemma unique_count_card before expected :
  unique_count before expected + size (list_to_set before : gset Pubkey) = size (list_to_set (before ++ expected) : gset Pubkey).
Proof.
  revert before. induction expected as [|k expected IH]; intros before; cbn [unique_count]; [by rewrite app_nil_r|].
  specialize (IH (before ++ [k])). rewrite <- app_assoc in IH. cbn [app] in IH. rewrite <- IH.
  rewrite list_to_set_app_L. cbn [list_to_set]. rewrite union_empty_r_L. destruct (contains k before) eqn:C.
  - apply contains_true in C. replace (list_to_set before ∪ {[k]} : gset Pubkey) with (list_to_set before : gset Pubkey) by set_solver. lia.
  - assert (k ∉ before) by (intros HI%contains_true; congruence).
    rewrite size_union by set_solver. rewrite size_singleton. lia.
Qed.

Lemma list_to_set_size (l : list Pubkey) : size (list_to_set l : gset Pubkey) <= length l.
Proof.
  induction l as [|k l IH]; cbn; [by rewrite size_empty|]. rewrite size_union_alt, size_singleton.
  assert (size (list_to_set l ∖ {[k]} : gset Pubkey) <= size (list_to_set l : gset Pubkey)) by (apply subseteq_size; set_solver).
  lia.
Qed.

Lemma NoDup_of_size (l : list Pubkey) : length l = size (list_to_set l : gset Pubkey) -> NoDup l.
Proof.
  induction l as [|k l IH]; [constructor|]. cbn [length list_to_set]. intros E. pose proof (list_to_set_size l).
  destruct (decide (k ∈ l)) as [Hk|Hk].
  - replace ({[k]} ∪ list_to_set l : gset Pubkey) with (list_to_set l : gset Pubkey) in E by set_solver. lia.
  - rewrite size_union, size_singleton in E by set_solver. constructor; [done|]. apply IH. lia.
Qed.

(** The key check accepts exactly the tables that list each expected key once and nothing else. *)
Lemma require_exact_keys_Ok keys expected u :
  require_exact_keys keys expected = Ok u <-> NoDup keys /\ forall k, k ∈ keys <-> k ∈ expected.
Proof.
  destruct u. unfold require_exact_keys. cbv zeta.
  rewrite guard_Ok, !orb_false_iff, neqb_false, !existsb_missing.
  pose proof (unique_count_card [] expected) as Hc. cbn [list_to_set app] in Hc. rewrite size_empty in Hc.
  split.
  - intros [[[Hl Hs] Hs'] _]. assert (forall k, k ∈ keys <-> k ∈ expected) as HE by (intros k; split; [apply Hs | apply Hs']).
    split; [|done]. apply NoDup_of_size.
    replace (list_to_set keys : gset Pubkey) with (list_to_set expected : gset Pubkey) by set_solver. lia.
  - intros [HN HE]. split_and!; [|set_solver|set_solver|done].
    rewrite <- (size_list_to_set (C := gset Pubkey) keys) by done.
    replace (list_to_set keys : gset Pubkey) with (list_to_set expected : gset Pubkey) by set_solver. lia.
Qed.

(** ** Instructions *)

(** A residual as it is written in a settlement: no side without lots, a side with at least one. *)
Definition residual_shown (residual : Residual) : Prop :=
  match residual with Residual.None => True | Residual.Buy lots | Residual.Sell lots => (1 <= lots)%Z end.

Lemma observed_residual_Ok side lots residual :
  observed_residual side lots = Ok residual <-> residual_wire residual = (side, lots) /\ residual_shown residual.
Proof.
  unfold observed_residual. split.
  - repeat case_match; bguard; subst; intros [= <-]; done.
  - intros [E HR]. destruct residual as [|l|l]; cbn in *; injection E as <- <-; cbn; try done;
      by rewrite (proj2 (Z.leb_le 1 l)).
Qed.

Definition residual_lots (residual : Residual) : Z :=
  match residual with Residual.None => 0 | Residual.Buy lots | Residual.Sell lots => lots end.

Section shapes.
Context `{Sha256} `{Solana} `{ObserverCodec}.

(** A compiled instruction of a message is the compilation of [ix]. *)
Definition resolves (keys : list Pubkey) (ci : CompiledInstruction) (ix : Instruction) : Prop :=
  key_at keys (ci_program_id_index ci) = Some (ix_program_id ix) /\
  names keys (ci_accounts ci) (map am_pubkey (ix_accounts ix)) /\
  ci_data ci = ix_data ix.

(** A native verifier of some signature over some digest, in the strict layout. *)
Definition verifies (keys : list Pubkey) (ci : CompiledInstruction) : Prop :=
  exists signer signature digest, resolves keys ci (strict_ed25519_instruction signer signature digest).

(** The message is two verifiers and [ix], over exactly [all] with the fee payer first. *)
Definition shows (m : DecodedConfirmed) (fee_payer : Pubkey) (all : list Pubkey) (ix : Instruction) : Prop :=
  head (dc_keys m) = Some fee_payer /\ NoDup (dc_keys m) /\ (forall k, k ∈ dc_keys m <-> k ∈ all) /\
  exists v1 v2 ci, dc_instructions m = [v1; v2; ci] /\
    verifies (dc_keys m) v1 /\ verifies (dc_keys m) v2 /\ resolves (dc_keys m) ci ix.

(** One inner instruction is a checked transfer of [amount] over these four accounts. *)
Definition shows_leg (keys : list Pubkey) (ui : UiInstruction) (leg : list Pubkey * Z) : Prop :=
  exists program indexes text data, ui = Compiled program indexes text /\
    key_at keys program = Some TOKEN_PROGRAM_ID /\ names keys indexes (fst leg) /\
    data_decode text = Some data /\ token_unpack data = Some (TransferChecked (snd leg) 0).

(** The inner instructions of instruction 2 are exactly these legs, and there are no others. *)
Definition shows_legs (m : DecodedConfirmed) (legs : list (list Pubkey * Z)) : Prop :=
  (dc_inner m = [] /\ legs = []) \/
  exists group, dc_inner m = [group] /\ ui_index group = 2%Z /\ Forall2 (shows_leg (dc_keys m)) (ui_instructions group) legs.

Lemma verifies_scan keys ci :
  verifies keys ci <->
  key_at keys (ci_program_id_index ci) = Some ed25519_program_id /\ ci_accounts ci = [] /\
  exists p, parse_strict_ed25519 {| ix_program_id := ed25519_program_id; ix_accounts := []; ix_data := ci_data ci |} = Ok p.
Proof.
  split.
  - intros (k & s & d & Hp & Hn & Hd). unfold names in Hn. cbn in Hn. apply Forall2_nil_inv_r in Hn.
    split_and!; [done | done |]. eexists. rewrite Hd. apply (parse_strict_accepts k s d).
  - intros (Hp & Ha & p & E). apply parse_strict_inv in E as [s E]. exists (ed_signer p), s, (ed_digest p).
    rewrite <- E. split_and!; [done | rewrite Ha; constructor | done].
Qed.

Lemma scan_verifier keys d a index ci :
  verifies keys ci -> (0 <= a < 255)%Z -> scan_instruction keys d (None, a) (index, ci) = Ok (None, a + 1)%Z.
Proof.
  intros (Hp & Ha & p & E)%verifies_scan HA. unfold scan_instruction. rewrite Hp, Ha. cbn -[parse_strict_ed25519].
  rewrite bool_decide_eq_true_2 by done. cbn -[parse_strict_ed25519]. rewrite E. cbn. rewrite (proj2 (Z.ltb_lt _ _)) by lia. done.
Qed.

(** What the loop has seen: verifiers only, or verifiers and then the program's instruction. *)
Definition scanned (keys : list Pubkey) (d : Z) (seen : list CompiledInstruction) (found : option CompiledInstruction) (a : Z) : Prop :=
  match found with
  | None => Forall (verifies keys) seen /\ Z.of_nat (length seen) = a
  | Some ci => exists vs, seen = vs ++ [ci] /\ Forall (verifies keys) vs /\ Z.of_nat (length vs) = a /\
      key_at keys (ci_program_id_index ci) = Some ID /\ byte_val <$> head (ci_data ci) = Some d
  end.

Lemma scan_step keys d seen found a index ci found' a' :
  scanned keys d seen found a -> scan_instruction keys d (found, a) (index, ci) = Ok (found', a') ->
  scanned keys d (seen ++ [ci]) found' a'.
Proof.
  intros HS E. unfold scan_instruction in E. apply bind_Ok in E as (program & Hp & E). apply ok_or_Ok in Hp.
  destruct (decide (program = ed25519_program_id)) as [->|Hne].
  - rewrite bool_decide_eq_true_2 in E by done. apply guard_Ok in E as [Hg E].
    destruct found; [done|]. destruct (ci_accounts ci) eqn:Ha; [|done].
    apply bind_Ok in E as (p & E1%map_err_Ok & E). apply bind_Ok in E as (b & Hb%ok_or_Ok & E).
    destruct (_ <? _)%Z; [|done]. apply (inj Some) in Hb as <-. apply Ok_inj in E. injection E as <- <-.
    destruct HS as [HF <-]. split; [|rewrite length_app; cbn; lia].
    apply Forall_app. split; [done|]. apply Forall_singleton. apply verifies_scan. eauto.
  - rewrite bool_decide_eq_false_2 in E by done. destruct (decide (program = ID)) as [->|]; [|by rewrite bool_decide_eq_false_2 in E].
    rewrite bool_decide_eq_true_2 in E by done. apply guard_Ok in E as [Hg E]. bguard.
    apply Ok_inj in E. injection E as <- <-. destruct found; [done|]. destruct HS as [HF HL].
    exists seen. by split_and!.
Qed.

Lemma scan_sound keys d instructions found a :
  try_fold (scan_instruction keys d) (None, 0%Z) (zip (seq 0 (length instructions)) instructions) = Ok (found, a) ->
  scanned keys d instructions found a.
Proof.
  intros E.
  apply (try_fold_inv (fun pre st => scanned keys d (map snd pre) (fst st) (snd st))) in E.
  - cbn in E. change (map snd) with (fmap (M := list) (snd (A := nat) (B := CompiledInstruction))) in E.
    rewrite snd_zip in E by (rewrite length_seq; lia). done.
  - by split; [constructor|].
  - intros pre [i ci] post [f1 a1] [f2 a2] _ HS Hs. rewrite map_app. by eapply scan_step.
Qed.

(** Two approvals and the instruction: the loop accepts exactly that. *)
Lemma exact_kageb_instruction_Ok m d ci :
  ed25519_program_id <> ID ->
  exact_kageb_instruction m d = Ok (ci, 2%Z) <->
  exists v1 v2, dc_instructions m = [v1; v2; ci] /\ verifies (dc_keys m) v1 /\ verifies (dc_keys m) v2 /\
    key_at (dc_keys m) (ci_program_id_index ci) = Some ID /\ byte_val <$> head (ci_data ci) = Some d.
Proof.
  intros Hne. unfold exact_kageb_instruction. split.
  - intros E. apply bind_Ok in E as ([found a] & E & E2). apply bind_Ok in E2 as (c & Hc%ok_or_Ok & E2).
    apply Ok_inj in E2. injection E2 as -> ->. subst found. apply scan_sound in E as (vs & Hi & HF & HL & Hp & Hd).
    destruct vs as [|v1 [|v2 [|]]]; cbn in HL; try lia. apply Forall_cons_iff in HF as [? HF]. apply Forall_cons_iff in HF as [? _].
    by exists v1, v2.
  - intros (v1 & v2 & -> & Hv1 & Hv2 & Hp & Hd). cbn -[scan_instruction].
    rewrite (scan_verifier _ _ 0 0) by (done || lia). cbn -[scan_instruction].
    rewrite (scan_verifier _ _ 1 1) by (done || lia). cbn -[scan_instruction].
    unfold scan_instruction. rewrite Hp. cbn. rewrite bool_decide_eq_false_2 by done. cbn.
    rewrite !bool_decide_eq_true_2 by done. done.
Qed.

(** ** Token legs *)

Lemma check_effect_Ok keys ui leg u : check_effect keys (ui, leg) = Ok u <-> shows_leg keys ui leg.
Proof.
  destruct u, leg as [accts amount]. unfold check_effect, shows_leg. cbn [fst snd]. split.
  - destruct ui as [program indexes text|]; [|done]. intros E. apply guard_Ok in E as [Hp%neqb_false E].
    apply bind_Ok in E as ([] & Hn%require_accounts_Ok & E). apply bind_Ok in E as (data & Hd%ok_or_Ok & E).
    apply bind_Ok in E as (token & Ht%ok_or_Ok & E). destruct token as [x d|]; [|done].
    destruct (_ && _) eqn:Hg; [|done]. bguard. subst. eexists _, _, _, _. done.
  - intros (program & indexes & text & data & -> & Hp & Hn & Hd & Ht).
    apply guard_Ok. split; [by apply neqb_false|]. apply bind_Ok. exists tt. split; [by apply require_accounts_Ok|].
    rewrite Hd. cbn. rewrite Ht. cbn. by rewrite Z.eqb_refl.
Qed.

Lemma effects_Ok keys instructions legs u :
  (if length instructions != length legs then Err ObserverError.UnexpectedTokenEffect
   else try_each (check_effect keys) (zip instructions legs)) = Ok u <->
  Forall2 (shows_leg keys) instructions legs.
Proof.
  rewrite guard_Ok, neqb_false, try_each_Ok. revert legs.
  induction instructions as [|i instrs IH]; intros [|l ls]; cbn [zip zip_with length].
  1: split; constructor; done || constructor.
  1,2: split; [intros [? _]; done | inversion 1].
  rewrite Forall_cons_iff, list.Forall2_cons, <- IH. rewrite check_effect_Ok. split.
  - intros (Hl & ? & ?). split_and!; [done | congruence | done].
  - intros (? & Hl & ?). split_and!; [congruence | done | done].
Qed.

(** The token effects of a settlement are exactly the legs of its residual, at amounts that fit. *)
Lemma validate_effects_Ok m accounts residual u :
  validate_settlement_token_effects (dc_inner m) (dc_keys m) 2 accounts residual = Ok u <->
  exists base quote, checked_mul_u64 (ko_base_lot_atoms accounts) (residual_lots residual) = Some base /\
    checked_mul_u64 (ko_quote_atoms_per_lot accounts) (residual_lots residual) = Some quote /\
    shows_legs m (expected_effects accounts residual base quote).
Proof.
  destruct u. unfold validate_settlement_token_effects, shows_legs. fold (residual_lots residual). split.
  - intros E. apply bind_Ok in E as (base & Hb%ok_or_Ok & E). apply bind_Ok in E as (quote & Hq%ok_or_Ok & E).
    exists base, quote. split_and!; [done | done |]. cbv zeta in E.
    destruct (dc_inner m) as [|g [|]]; [| |done].
    + left. split; [done|]. by destruct (expected_effects _ _ _ _).
    + right. exists g. destruct (bool_decide _) eqn:Hg; [|done]. bguard. split_and!; [done | done |]. by apply effects_Ok in E.
  - intros (base & quote & -> & -> & HL). cbn -[expected_effects check_effect].
    destruct HL as [[-> ->]|(g & -> & Hi & HF)]; [done|].
    rewrite bool_decide_eq_true_2 by done. by apply effects_Ok.
Qed.

(** ** The pooled trace *)

Definition observed_settle_accounts (accounts : KagebObserverAccounts) : SettleAccounts :=
  {| sa_payer := ko_payer accounts; sa_pool := ko_pool accounts; sa_epoch := ko_epoch accounts;
     sa_vault_authority := ko_vault_authority accounts; sa_pool_base_vault := ko_pool_base_vault accounts;
     sa_pool_quote_vault := ko_pool_quote_vault accounts; sa_venue_authority := ko_venue_authority accounts;
     sa_venue_base_account := ko_venue_base_account accounts; sa_venue_quote_account := ko_venue_quote_account accounts;
     sa_base_mint := ko_base_mint accounts; sa_quote_mint := ko_quote_mint accounts |}.

(** A pooled epoch on chain: a lock of at least four members and a settlement, each the builder's
    instruction after two verifiers, and the token legs of the residual. *)
Definition pooled_epoch (lock settlement : DecodedConfirmed) (accounts : KagebObserverAccounts) (payload : LockPayloadV1)
    (settled : SettlementPayloadV1) (residual : Residual) : Prop :=
  shows lock (ko_fee_payer accounts) (lock_keys accounts)
    (lock_instruction (ko_payer accounts) (ko_pool accounts) (ko_epoch accounts) payload) /\
  LockPayloadV1_wf payload /\ lp_epoch_account payload = ko_epoch accounts /\ (4 <= lp_member_count payload)%Z /\
  shows settlement (ko_fee_payer accounts) (settlement_keys accounts) (settle_instruction (observed_settle_accounts accounts) settled) /\
  u32_ok (sp_residual_lots settled) /\
  residual_wire residual = (sp_residual_side settled, sp_residual_lots settled) /\ residual_shown residual /\
  exists base quote, checked_mul_u64 (ko_base_lot_atoms accounts) (residual_lots residual) = Some base /\
    checked_mul_u64 (ko_quote_atoms_per_lot accounts) (residual_lots residual) = Some quote /\
    shows_legs settlement (expected_effects accounts residual base quote).

Definition aggregate_of (accounts : KagebObserverAccounts) (payload : LockPayloadV1) (settled : SettlementPayloadV1)
    (residual : Residual) : PublicAction :=
  Aggregate (ko_pool accounts) (ko_venue_authority accounts) residual (lp_member_root payload) (sp_result_commitment settled) 2.

(** A settlement payload with these compact fields. *)
Definition settlement_with (accounts : KagebObserverAccounts) (c : CompactSettlementPayload) : SettlementPayloadV1 :=
  {| sp_epoch_account := ko_epoch accounts; sp_lock_digest := zero32; sp_result_commitment := cs_result_commitment c;
     sp_residual_side := cs_residual_side c; sp_residual_lots := cs_residual_lots c;
     sp_base_lot_atoms := ko_base_lot_atoms accounts; sp_quote_atoms_per_lot := ko_quote_atoms_per_lot accounts;
     sp_base_mint := ko_base_mint accounts; sp_quote_mint := ko_quote_mint accounts;
     sp_pool_base_vault := ko_pool_base_vault accounts; sp_pool_quote_vault := ko_pool_quote_vault accounts;
     sp_venue_base_account := ko_venue_base_account accounts; sp_venue_quote_account := ko_venue_quote_account accounts;
     sp_venue_authority := ko_venue_authority accounts; sp_settlement_nonce := cs_settlement_nonce c |}.

Lemma pooled_trace_sound lock settlement accounts t :
  ed25519_program_id <> ID ->
  PublicTrace_from_confirmed_kageb lock settlement accounts = Ok t ->
  exists L S payload settled residual, decode_confirmed lock = Ok L /\ decode_confirmed settlement = Ok S /\
    pooled_epoch L S accounts payload settled residual /\ t = {| pt_actions := [aggregate_of accounts payload settled residual] |}.
Proof.
  intros Hne E. unfold PublicTrace_from_confirmed_kageb in E.
  apply bind_Ok in E as (L & HL & E). apply bind_Ok in E as (S & HS & E).
  apply bind_Ok in E as ([] & HfL%require_fee_payer_Ok & E). apply bind_Ok in E as ([] & HfS%require_fee_payer_Ok & E).
  apply bind_Ok in E as ([li la] & HiL & E). apply bind_Ok in E as ([si sa] & HiS & E).
  apply guard_Ok in E as [Hg E]. bguard. subst la sa.
  apply bind_Ok in E as ([] & [HnL HkL]%require_exact_keys_Ok & E). apply bind_Ok in E as ([] & HaL%require_accounts_Ok & E).
  apply bind_Ok in E as (ld & HdL%map_err_Ok & E). apply bind_Ok in E as (payload & Hp & E).
  destruct ld as [| |p| | |]; try done. destruct (_ && _) eqn:Hc in Hp; [|done]. apply Ok_inj in Hp as ->. bguard.
  apply bind_Ok in E as ([] & [HnS HkS]%require_exact_keys_Ok & E). apply bind_Ok in E as ([] & HaS%require_accounts_Ok & E).
  apply bind_Ok in E as (sd & HdS%map_err_Ok & E). apply bind_Ok in E as (c & Hc2 & E).
  destruct sd as [| | |c'| |]; try done. apply Ok_inj in Hc2 as ->.
  apply bind_Ok in E as (residual & [Hw Hr]%observed_residual_Ok & E). apply bind_Ok in E as ([] & HE%validate_effects_Ok & E).
  apply Ok_inj in E as <-.
  apply exact_kageb_instruction_Ok in HiL as (v1 & v2 & HIL & V1 & V2 & HpL & _); [|done].
  apply exact_kageb_instruction_Ok in HiS as (w1 & w2 & HIS & W1 & W2 & HpS & _); [|done].
  pose proof (KagebInstruction_decode_wf _ _ HdL) as WL. pose proof (KagebInstruction_decode_wf _ _ HdS) as [_ WS].
  apply KagebInstruction_encode_decode in HdL, HdS.
  exists L, S, payload, (settlement_with accounts c), residual.
  split_and!; [done | done | | done]. split_and!; try done.
  - split_and!; [done | done | done |]. by exists v1, v2, li.
  - split_and!; [done | done | done |]. exists w1, w2, si. split_and!; done.
Qed.

Lemma encode_tag i d :
  match i with InitializePool _ => 0 | CreateEpoch _ => 1 | Lock _ => 2 | Settle _ => 3 | Expire => 4 | Abort => 5 end%Z = d ->
  byte_val <$> head (KagebInstruction_encode i) = Some d.
Proof. intros <-. destruct (KagebInstruction_encode_head i) as [rest ->]. by destruct i. Qed.

Lemma shows_exact m fee all accounts i d :
  ed25519_program_id <> ID ->
  shows m fee all {| ix_program_id := ID; ix_accounts := accounts; ix_data := KagebInstruction_encode i |} ->
  byte_val <$> head (KagebInstruction_encode i) = Some d -> KagebInstruction_wf i ->
  require_fee_payer (dc_keys m) fee = Ok tt /\ require_exact_keys (dc_keys m) all = Ok tt /\
  exists ci, exact_kageb_instruction m d = Ok (ci, 2%Z) /\ KagebInstruction_decode (ci_data ci) = Ok i /\
    require_accounts (dc_keys m) (ci_accounts ci) (map am_pubkey accounts) = Ok tt.
Proof.
  intros Hne (Hf & Hn & Hk & v1 & v2 & ci & HI & V1 & V2 & Hp & Ha & Hd) Hh HW.
  split_and!; [by apply require_fee_payer_Ok | by apply require_exact_keys_Ok |].
  exists ci. cbn [ix_data] in Hd. split_and!.
  - apply exact_kageb_instruction_Ok; [done|]. exists v1, v2. split_and!; try done. by rewrite Hd.
  - rewrite Hd. by apply KagebInstruction_decode_encode.
  - by apply require_accounts_Ok.
Qed.

Lemma pooled_trace_complete lock settlement L S accounts payload settled residual :
  ed25519_program_id <> ID ->
  decode_confirmed lock = Ok L -> decode_confirmed settlement = Ok S ->
  pooled_epoch L S accounts payload settled residual ->
  PublicTrace_from_confirmed_kageb lock settlement accounts = Ok {| pt_actions := [aggregate_of accounts payload settled residual] |}.
Proof.
  intros Hne HL HS (SL & WL & He & Hm & SS & WS & Hw & Hr & HE). unfold PublicTrace_from_confirmed_kageb.
  assert (u8_ok (sp_residual_side settled)) as W8 by (destruct residual; injection Hw as <- _; unfold u8_ok; lia).
  apply (shows_exact _ _ _ _ (Lock payload) 2) in SL as (F1 & K1 & li & I1 & D1 & A1); [|done|by apply encode_tag|done].
  apply (shows_exact _ _ _ _ (Settle (CompactSettlementPayload_from settled)) 3) in SS as (F2 & K2 & si & I2 & D2 & A2); [|done|by apply encode_tag|by split].
  step_with L; [done|]. step_with S; [done|]. step_with tt; [done|]. step_with tt; [done|].
  step_with (li, 2%Z); [done|]. step_with (si, 2%Z); [done|]. apply guard_Ok. split; [done|].
  step_with tt; [done|]. step_with tt; [exact A1|].
  step_with (Lock payload); [by apply map_err_Ok|]. step_with payload; [by rewrite bool_decide_eq_true_2, (proj2 (Z.leb_le _ _))|].
  step_with tt; [done|]. step_with tt; [exact A2|].
  step_with (Settle (CompactSettlementPayload_from settled)); [by apply map_err_Ok|].
  step_with (CompactSettlementPayload_from settled); [done|].
  step_with residual; [by apply observed_residual_Ok|]. step_with tt; [by apply validate_effects_Ok|]. done.
Qed.

(** ** The direct trace *)

(** The mint, the venue account and the atoms of one lot sold or bought directly. *)
Definition direct_leg (market : DirectMarketAccounts) (side : Side) : Pubkey * Pubkey * Z :=
  match side with
  | Sell => (dm_base_mint market, dm_venue_base_account market, dm_base_lot_atoms market)
  | Buy => (dm_quote_mint market, dm_venue_quote_account market, dm_quote_atoms_per_lot market)
  end.

(** The message is one checked transfer of a lot from the wallet's account to the venue. *)
Definition direct_transfer (market : DirectMarketAccounts) (m : DecodedConfirmed) (order : DirectOrder) : Prop :=
  let '(mint, destination, amount) := direct_leg market (do_side order) in
  exists source ci, dc_inner m = [] /\ dc_instructions m = [ci] /\ head (dc_keys m) = Some (dm_fee_payer market) /\
    key_at (dc_keys m) (ci_program_id_index ci) = Some TOKEN_PROGRAM_ID /\
    names (dc_keys m) (ci_accounts ci) [source; mint; destination; do_wallet order] /\
    source <> destination /\ do_wallet order <> destination /\ NoDup (dc_keys m) /\
    (forall k, k ∈ dc_keys m <-> k ∈ [dm_fee_payer market; source; mint; destination; do_wallet order; TOKEN_PROGRAM_ID]) /\
    token_unpack (ci_data ci) = Some (TransferChecked amount 0).

Lemma direct_action_sound market tx a :
  direct_action market tx = Ok a ->
  exists m order, decode_confirmed tx = Ok m /\ direct_transfer market m order /\ a = Individual (do_wallet order) (do_side order) 1.
Proof.
  unfold direct_action. intros E. apply bind_Ok in E as (m & Hm & E).
  apply bind_Ok in E as ([] & Hf%require_fee_payer_Ok & E).
  destruct (dc_inner m) eqn:Hi; [|done]. destruct (dc_instructions m) as [|ci [|]] eqn:HI; [done| |done].
  apply guard_Ok in E as [Hp%neqb_false E]. destruct (ci_accounts ci) as [|a0 [|a1 [|a2 [|a3 [|]]]]] eqn:Ha; try done.
  apply bind_Ok in E as (source & Hs%ok_or_Ok & E). apply bind_Ok in E as (mint & Hmi%ok_or_Ok & E).
  apply bind_Ok in E as (dest & Hd%ok_or_Ok & E). apply bind_Ok in E as (wallet & Hw%ok_or_Ok & E).
  apply guard_Ok in E as [Hg E]. bguard. apply bind_Ok in E as ([] & [HN HK]%require_exact_keys_Ok & E).
  apply bind_Ok in E as (token & Ht%ok_or_Ok & E). apply bind_Ok in E as ([side amount] & Hc & E).
  destruct token as [x d|]; [|done]. destruct (_ && _) eqn:Hx in E; [|done]. apply Ok_inj in E as <-. bguard. subst x d.
  exists m, {| do_wallet := wallet; do_side := side |}. split_and!; [done | | done].
  assert (direct_leg market side = (mint, dest, amount)) as HL.
  { repeat case_match; bguard; try done; by injection Hc as <- <-; subst. }
  unfold direct_transfer. cbn [do_wallet do_side]. rewrite HL. exists source, ci.
  split_and!; try done. rewrite Ha. by repeat constructor.
Qed.

Lemma direct_action_complete market tx m order :
  dm_base_mint market <> dm_quote_mint market ->
  decode_confirmed tx = Ok m -> direct_transfer market m order ->
  direct_action market tx = Ok (Individual (do_wallet order) (do_side order) 1).
Proof.
  intros Hne Hm. unfold direct_transfer. destruct (direct_leg _ _) as [[mint dest] amount] eqn:HL.
  intros (source & ci & Hi & HI & Hf & Hp & Ha & Hsd & Hwd & HN & HK & Ht). unfold direct_action.
  step_with m; [done|]. step_with tt; [by apply require_fee_payer_Ok|]. rewrite Hi, HI.
  apply guard_Ok. split; [by apply neqb_false|]. unfold names in Ha.
  destruct (ci_accounts ci) as [|a0 [|a1 [|a2 [|a3 [|]]]]]; try by (apply Forall2_length in Ha).
  rewrite !list.Forall2_cons in Ha. destruct Ha as (E0 & E1 & E2 & E3 & _).
  step_with source; [by apply ok_or_Ok|]. step_with mint; [by apply ok_or_Ok|].
  step_with dest; [by apply ok_or_Ok|]. step_with (do_wallet order); [by apply ok_or_Ok|].
  apply guard_Ok. split; [by rewrite !bool_decide_eq_false_2|]. step_with tt; [by apply require_exact_keys_Ok|].
  step_with (TransferChecked amount 0); [by apply ok_or_Ok|]. step_with (do_side order, amount).
  - destruct (do_side order); injection HL as <- <- <-; [rewrite (bool_decide_eq_false_2 (_ = dm_base_mint _)) by done; cbn [andb]|];
      by do 2 (rewrite bool_decide_eq_true_2 by done).
  - cbn. by rewrite Z.eqb_refl.
Qed.

(** What a trace shows of the wallets. *)
Lemma direct_shows orders :
  PublicTrace_visible_participant_wallets (PublicTrace_direct orders) = map do_wallet orders /\
  PublicTrace_individual_order_count (PublicTrace_direct orders) = length orders /\
  PublicTrace_aggregate_count (PublicTrace_direct orders) = 0.
Proof.
  unfold PublicTrace_visible_participant_wallets, PublicTrace_individual_order_count, PublicTrace_aggregate_count. cbn [PublicTrace_direct pt_actions].
  induction orders as [|o orders (IHw & IHi & IHa)]; [done|]. cbn. split_and!; [by f_equal | by f_equal | done].
Qed.

Lemma direct_trace_forall market txs t :
  dm_base_mint market <> dm_quote_mint market ->
  PublicTrace_from_confirmed_direct txs market = Ok t <->
  exists orders, t = PublicTrace_direct orders /\
    Forall2 (fun tx order => exists m, decode_confirmed tx = Ok m /\ direct_transfer market m order) txs orders.
Proof.
  intros Hne. unfold PublicTrace_from_confirmed_direct, PublicTrace_direct. split.
  - intros E. apply bind_Ok in E as (actions & HF%try_map_Ok & E). apply Ok_inj in E as <-.
    induction HF as [|tx a txs actions Ha HF (orders & Ho & IH)]; [by exists []; split; [|constructor]|].
    apply direct_action_sound in Ha as (m & order & Hm & Hd & ->). exists (order :: orders).
    injection Ho as ->. split; [done|]. constructor; eauto.
  - intros (orders & -> & HF). apply bind_Ok. eexists. split; [|done]. apply try_map_Ok.
    induction HF as [|tx o txs orders (m & Hm & Hd) HF IH]; cbn; constructor; [|done]. by eapply direct_action_complete.
Qed.
End shapes.
