(* ===== verification/Evidence.v ===== *)
(** * Public evidence of a settled epoch (crates/kageb-host/src/evidence.rs, lines 30 to 879)

    The bundle that a demonstration on devnet publishes, and its verification against a snapshot of
    the public chain.  Strings are their UTF-8 bytes.  JSON, base58, bincode's loader state and the
    token program's account layouts are library code. *)

From S2P Require Import Prelude Bytes Extern ProgramWire ProgramState ProgramInstruction Ed25519 HostExtern.

Definition EVIDENCE_BUNDLE_DOMAIN : list byte := bstr0 "KAGEB_EVIDENCE_BUNDLE_V1".

(** [pubkey!("BPFLoaderUpgradeab1e11111111111111111111111")] *)
Definition UPGRADEABLE_LOADER_ID : Pubkey :=
  default zero32 (key_of [2; 168; 246; 145; 78; 136; 161; 176; 226; 16; 21; 62; 247; 99; 174; 43; 0; 194; 185; 61; 22; 193; 36;
    210; 192; 83; 122; 16; 4; 128; 0; 0]%Z).

Example UPGRADEABLE_LOADER_ID_base58 :
  le_val (rev UPGRADEABLE_LOADER_ID) = base58_val 0 "BPFLoaderUpgradeab1e11111111111111111111111"%string.
Proof. vm_compute. reflexivity. Qed.

Module DevnetEvidenceError.
Inductive t : Type :=
| InvalidSchema | ContentHashMismatch | WrongLoader | WrongProgramDataOwner | WrongProgramDataAddress | MalformedLoaderMetadata
| TruncatedExecutable | InvalidElf | NonZeroProgramDataTail | InvalidPublicField | WrongCluster | WrongProgram | DeploymentMismatch
| MissingTransaction | UnfinalizedTransaction | FailedTransaction | TransactionSlotMismatch | RepeatedFundingAuthority
| WrongAccountOwner | WrongState | WrongMemberCount | WrongKeyper | ChangedCommitment | WrongTokenDelta | UnexpectedInstruction
| SecondSettlement | WrongGenesis | RpcUnavailable | InvalidTransaction | InvalidTokenAccount | InvalidChronology
| RepeatedFundingSource.
End DevnetEvidenceError.
Abbreviation DevnetEvidenceError := DevnetEvidenceError.t.
Global Instance DevnetEvidenceError_eq_dec : EqDecision DevnetEvidenceError.
Proof. solve_decision. Defined.

(** ** The bundle *)

Abbreviation text := (list byte).

Record EvidenceBuildToolchainV1 : Type := { bt_solana_verify : text; bt_build_image : text }.

Record EvidenceDeploymentV1 : Type := {
  de_program : text;
  de_loader : text;
  de_programdata : text;
  de_deployment_slot : Z;
  de_upgrade_authority : option text;
  de_deployed_executable_sha256 : text;
}.

Record EvidenceTransactionV1 : Type := { et_signature : text; et_slot : Z }.

Record FundingTransactionEvidenceV1 : Type := {
  fu_authority : text;
  fu_base_source : text;
  fu_quote_source : text;
  fu_transaction : EvidenceTransactionV1;
}.

(** [\[_; 4\]] *)
Definition four (A : Type) : Type := (A * A * A * A)%type.
Definition four_list {A} (l : four A) : list A := let '(a, b, c, d) := l in [a; b; c; d].

Definition three_list {A} (l : A * A * A) : list A := let '(a, b, c) := l in [a; b; c].

Record EvidenceTransactionsV1 : Type := {
  tr_funding : four FundingTransactionEvidenceV1;
  tr_lock : EvidenceTransactionV1;
  tr_settlement : EvidenceTransactionV1;
}.

Record EvidenceAccountsV1 : Type := {
  ea_fee_payer : text;
  ea_operator : text;
  ea_pool : text;
  ea_epoch : text;
  ea_vault_authority : text;
  ea_base_mint : text;
  ea_quote_mint : text;
  ea_pool_base_vault : text;
  ea_pool_quote_vault : text;
  ea_venue_authority : text;
  ea_venue_base_account : text;
  ea_venue_quote_account : text;
  ea_token_program : text;
}.

Record EvidenceConfigurationV1 : Type := {
  ec_epoch_id : text;
  ec_minimum_count : Z;
  ec_member_count : Z;
  ec_lock_threshold : Z;
  ec_settlement_threshold : Z;
  ec_keypers : text * text * text;
  ec_base_lot_atoms : Z;
  ec_quote_atoms_per_lot : Z;
}.

Record EvidenceCommitmentsV1 : Type := {
  co_configuration_hash : text;
  co_pre_balance_root : text;
  co_member_set : text;
  co_lock_digest : text;
  co_result : text;
  co_settlement_digest : text;
  co_unverified_local_transcript_sha256 : text;
}.

Record EvidenceTokenBalancesV1 : Type := {
  tb_pool_base_before : Z;
  tb_pool_base_after : Z;
  tb_pool_quote_before : Z;
  tb_pool_quote_after : Z;
  tb_venue_base_before : Z;
  tb_venue_base_after : Z;
  tb_venue_quote_before : Z;
  tb_venue_quote_after : Z;
}.
Global Instance EvidenceTokenBalancesV1_eq_dec : EqDecision EvidenceTokenBalancesV1.
Proof. solve_decision. Defined.

Record DecodedInstructionEvidenceV1 : Type := {
  di_transaction : text;
  di_position : Z;
  di_program : text;
  di_kind : text;
  di_digest : option text;
}.
Global Instance DecodedInstructionEvidenceV1_eq_dec : EqDecision DecodedInstructionEvidenceV1.
Proof. solve_decision. Defined.

Record DevnetEvidenceContentV1 : Type := {
  dv_cluster : text;
  dv_public_commit : text;
  dv_build_toolchain : EvidenceBuildToolchainV1;
  dv_checkpoint_artifact_len : Z;
  dv_checkpoint_artifact_sha256 : text;
  dv_deployment : EvidenceDeploymentV1;
  dv_transactions : EvidenceTransactionsV1;
  dv_accounts : EvidenceAccountsV1;
  dv_configuration : EvidenceConfigurationV1;
  dv_commitments : EvidenceCommitmentsV1;
  dv_token_balances : EvidenceTokenBalancesV1;
  dv_decoded_allowlist : list DecodedInstructionEvidenceV1;
  dv_explorer_links : list text;
}.

Record DevnetEvidenceBundleV1 : Type := {
  db_schema_version : Z;
  db_content : DevnetEvidenceContentV1;
  db_evidence_sha256 : text;
}.

(** ** The snapshot *)

Record PublicAccountSnapshotV1 : Type := { pa_owner : Pubkey; pa_executable : bool; pa_data : list byte }.

Record ExtractedUpgradeableProgramV1 : Type := {
  ex_deployment_slot : Z;
  ex_upgrade_authority : option Pubkey;
  ex_executable : list byte;
  ex_executable_sha256 : text;
}.

Record FinalizedTransactionSnapshotV1 : Type := {
  ft_signature : text;
  ft_slot : Z;
  ft_status_slot : Z;
  ft_finalized : bool;
  ft_succeeded : bool;
}.

Record DevnetPublicSnapshotV1 : Type := {
  sn_program : PublicAccountSnapshotV1;
  sn_programdata_address : Pubkey;
  sn_programdata : PublicAccountSnapshotV1;
  sn_pool : PublicAccountSnapshotV1;
  sn_epoch : PublicAccountSnapshotV1;
  sn_base_mint : PublicAccountSnapshotV1;
  sn_quote_mint : PublicAccountSnapshotV1;
  sn_current_token_accounts : four PublicAccountSnapshotV1;
  sn_transactions : list FinalizedTransactionSnapshotV1;
  sn_token_balances : EvidenceTokenBalancesV1;
  sn_decoded_allowlist : list DecodedInstructionEvidenceV1;
}.

(** ** Library code *)

Inductive UpgradeableLoaderState : Type :=
| LoaderProgram (programdata_address : Pubkey)
| LoaderProgramData (slot : Z) (upgrade_authority_address : option Pubkey)
| LoaderOther.

Record TokenMint : Type := { mi_decimals : Z; mi_mint_authority : option Pubkey; mi_freeze_authority : option Pubkey }.
Record TokenAccount : Type := { ta_mint : Pubkey; ta_owner : Pubkey; ta_initialized : bool }.

Class EvidenceCodec : Type := {
  (** [serde_json::to_vec(content).ok()], [serde_json::from_str(..).ok()] and [to_string_pretty(..).ok()] *)
  content_json : DevnetEvidenceContentV1 -> option (list byte);
  bundle_parse : text -> option DevnetEvidenceBundleV1;
  bundle_print : DevnetEvidenceBundleV1 -> option text;
  (** [Pubkey::from_str(..).ok()] and [Pubkey::to_string] *)
  pubkey_from_str : text -> option Pubkey;
  pubkey_to_string : Pubkey -> text;
  (** [solana_signature::Signature::from_str(..).ok()] *)
  signature_from_str : text -> option bytes64;
  (** [bincode::deserialize] of the loader state and [size_of_programdata_metadata()] *)
  loader_deserialize : list byte -> option UpgradeableLoaderState;
  programdata_metadata_len : nat;
  (** [Mint::unpack(..).ok()] and [Account::unpack(..).ok()] *)
  mint_unpack : list byte -> option TokenMint;
  account_unpack : list byte -> option TokenAccount;
  (** [VerifyingKey::verify_strict(..).is_ok()] *)
  dalek_verify_strict : bytes32 -> list byte -> arr 64 -> bool;
}.

(** ** Texts *)

(** A chain of [||] whose operands may return early with an error. *)
Fixpoint or_else {E} (l : list (result E bool)) : result E bool :=
  match l with
  | [] => Ok false
  | r :: l => b ← r; if (b : bool) then Ok true else or_else l
  end.

Definition between (a b : Z) (c : byte) : bool := ((a <=? byte_val c) && (byte_val c <=? b))%Z.
Definition is_ascii_hexdigit (c : byte) : bool := between 48 57 c || between 97 102 c || between 65 70 c.
Definition is_ascii_graphic (c : byte) : bool := between 33 126 c.

Definition hex_nibble (c : byte) : result DevnetEvidenceError Z :=
  if between 48 57 c then Ok (byte_val c - 48)%Z else
  if between 97 102 c then Ok (byte_val c - 97 + 10)%Z else
  if between 65 70 c then Ok (byte_val c - 65 + 10)%Z else
  Err DevnetEvidenceError.InvalidPublicField.

(** The pairs of [chunks_exact(2)]. *)
Fixpoint hex_pairs (encoded : text) : result DevnetEvidenceError (list byte) :=
  match encoded with
  | a :: b :: rest =>
      high ← hex_nibble a;
      low ← hex_nibble b;
      bytes ← hex_pairs rest;
      Ok (byte_of (Z.lor (Z.shiftl high 4) low) :: bytes)
  | _ => Ok []
  end.

Definition parse_digest (encoded : text) : result DevnetEvidenceError bytes32 :=
  if (length encoded != 64) || negb (forallb is_ascii_hexdigit encoded) then Err DevnetEvidenceError.InvalidPublicField else
  decoded ← hex_pairs encoded;
  ok_or DevnetEvidenceError.InvalidPublicField (try_into 32 decoded).

(** [{byte:02x}] *)
Definition hex_char (n : Z) : byte := byte_of (if (n <? 10)%Z then 48 + n else 87 + n).
Definition hex_digest (bytes : list byte) : text :=
  concat (map (fun b => [hex_char (Z.shiftr (byte_val b) 4); hex_char (Z.land (byte_val b) 15)]) bytes).

Definition validate_rpc_response_len (actual expected : nat) : result DevnetEvidenceError unit :=
  if actual != expected then Err DevnetEvidenceError.RpcUnavailable else Ok tt.

(** [slice.starts_with(prefix)] *)
Definition starts_with (prefix l : list byte) : bool := take (length prefix) l == prefix.
Definition elf_magic : list byte := x7f :: bstr "ELF".

Section evidence.
Context `{Sha256} `{Solana} `{Dalek} `{!EvidenceCodec}.

Definition parse_pubkey (encoded : text) : result DevnetEvidenceError Pubkey :=
  ok_or DevnetEvidenceError.InvalidPublicField (pubkey_from_str encoded).

(** [parse(..)? != x], as an operand of [||]. *)
Definition pubkey_differs (encoded : text) (k : Pubkey) : result DevnetEvidenceError bool :=
  parsed ← parse_pubkey encoded; Ok (parsed != k).
Definition digest_differs (encoded : text) (d : bytes32) : result DevnetEvidenceError bool :=
  parsed ← parse_digest encoded; Ok (parsed != d).

(** ** Content addresses *)

Definition evidence_content_hash (content : DevnetEvidenceContentV1) : result DevnetEvidenceError text :=
  encoded ← ok_or DevnetEvidenceError.InvalidSchema (content_json content);
  Ok (hex_digest (sha256 (EVIDENCE_BUNDLE_DOMAIN ++ encoded))).

Definition DevnetEvidenceBundleV1_seal (content : DevnetEvidenceContentV1) : result DevnetEvidenceError DevnetEvidenceBundleV1 :=
  evidence_sha256 ← evidence_content_hash content;
  Ok {| db_schema_version := 1; db_content := content; db_evidence_sha256 := evidence_sha256 |}.

Definition DevnetEvidenceBundleV1_from_json (json : text) : result DevnetEvidenceError DevnetEvidenceBundleV1 :=
  ok_or DevnetEvidenceError.InvalidSchema (bundle_parse json).

Definition DevnetEvidenceBundleV1_to_json_pretty (b : DevnetEvidenceBundleV1) : result DevnetEvidenceError text :=
  ok_or DevnetEvidenceError.InvalidSchema (bundle_print b).

Definition DevnetEvidenceBundleV1_verify_content_hash (b : DevnetEvidenceBundleV1) : result DevnetEvidenceError unit :=
  mismatch ← or_else [Ok (db_schema_version b != 1%Z);
                      hash ← evidence_content_hash (db_content b); Ok (hash != db_evidence_sha256 b)];
  if (mismatch : bool) then Err DevnetEvidenceError.ContentHashMismatch else Ok tt.

(** ** The deployed program *)

Definition extract_upgradeable_program (program : PublicAccountSnapshotV1) (expected_programdata : Pubkey)
    (programdata : PublicAccountSnapshotV1) (checkpoint_artifact_len : Z)
  : result DevnetEvidenceError ExtractedUpgradeableProgramV1 :=
  if (pa_owner program != UPGRADEABLE_LOADER_ID) || negb (pa_executable program) then Err DevnetEvidenceError.WrongLoader else
  program_state ← ok_or DevnetEvidenceError.MalformedLoaderMetadata (loader_deserialize (pa_data program));
  programdata_address ← match program_state with
    | LoaderProgram programdata_address => Ok programdata_address
    | _ => Err DevnetEvidenceError.MalformedLoaderMetadata
    end;
  if programdata_address != expected_programdata then Err DevnetEvidenceError.WrongProgramDataAddress else
  if (pa_owner programdata != UPGRADEABLE_LOADER_ID) || pa_executable programdata then Err DevnetEvidenceError.WrongProgramDataOwner else
  let metadata_len := programdata_metadata_len in
  metadata ← ok_or DevnetEvidenceError.MalformedLoaderMetadata (get_range 0 metadata_len (pa_data programdata));
  programdata_state ← ok_or DevnetEvidenceError.MalformedLoaderMetadata (loader_deserialize metadata);
  '(slot, upgrade_authority) ← match programdata_state with
    | LoaderProgramData slot upgrade_authority => Ok (slot, upgrade_authority)
    | _ => Err DevnetEvidenceError.MalformedLoaderMetadata
    end;
  executable_end ← ok_or DevnetEvidenceError.TruncatedExecutable (checked_add_u64 (Z.of_nat metadata_len) checkpoint_artifact_len);
  executable ← ok_or DevnetEvidenceError.TruncatedExecutable
    (get_range metadata_len (Z.to_nat executable_end) (pa_data programdata));
  if negb (starts_with elf_magic executable) then Err DevnetEvidenceError.InvalidElf else
  if existsb (fun b => b != x00) (slice_from (Z.to_nat executable_end) (pa_data programdata))
  then Err DevnetEvidenceError.NonZeroProgramDataTail else
  Ok {| ex_deployment_slot := slot; ex_upgrade_authority := upgrade_authority; ex_executable := executable;
        ex_executable_sha256 := hex_digest (sha256 executable) |}.

(** ** The checks *)

Definition evidence_transactions (evidence : DevnetEvidenceContentV1) : list EvidenceTransactionV1 :=
  map fu_transaction (four_list (tr_funding (dv_transactions evidence)))
  ++ [tr_lock (dv_transactions evidence); tr_settlement (dv_transactions evidence)].

Definition explorer_link (signature : text) : text :=
  bstr "https://explorer.solana.com/tx/" ++ signature ++ bstr "?cluster=devnet".

(** The body of the loop over the two toolchain identities. *)
Definition check_identity (identity : text) : result DevnetEvidenceError unit :=
  if match identity with [] => true | _ => false end || (128 <? length identity)
     || negb (forallb (fun c => is_ascii_graphic c || (c == x20)) identity)
  then Err DevnetEvidenceError.InvalidPublicField else Ok tt.

Definition validate_public_fields (evidence : DevnetEvidenceContentV1) (checkpoint_artifact : list byte)
  : result DevnetEvidenceError unit :=
  if dv_cluster evidence != bstr "devnet" then Err DevnetEvidenceError.WrongCluster else
  bad ← or_else [Ok (length (dv_public_commit evidence) != 40); Ok (negb (forallb is_ascii_hexdigit (dv_public_commit evidence)));
                 Ok (dv_checkpoint_artifact_len evidence != Z.of_nat (length checkpoint_artifact));
                 digest_differs (dv_checkpoint_artifact_sha256 evidence) (sha256 checkpoint_artifact)];
  if (bad : bool) then Err DevnetEvidenceError.InvalidPublicField else
  try_each check_identity [bt_solana_verify (dv_build_toolchain evidence); bt_build_image (dv_build_toolchain evidence)] ;;
  wrong ← or_else [pubkey_differs (de_program (dv_deployment evidence)) ID;
                   pubkey_differs (ea_token_program (dv_accounts evidence)) TOKEN_PROGRAM_ID];
  if (wrong : bool) then Err DevnetEvidenceError.WrongProgram else
  wrong ← pubkey_differs (de_loader (dv_deployment evidence)) UPGRADEABLE_LOADER_ID;
  if (wrong : bool) then Err DevnetEvidenceError.WrongLoader else
  let canonical_programdata := fst (find_program_address [ID : list byte] UPGRADEABLE_LOADER_ID) in
  wrong ← pubkey_differs (de_programdata (dv_deployment evidence)) canonical_programdata;
  if (wrong : bool) then Err DevnetEvidenceError.WrongProgramDataAddress else
  if (length (dv_explorer_links evidence) != 6)
     || negb (forallb (fun e => fst e == explorer_link (et_signature (snd e)))
                (zip (dv_explorer_links evidence) (evidence_transactions evidence)))
  then Err DevnetEvidenceError.InvalidPublicField else Ok tt.

Definition validate_deployment (evidence : DevnetEvidenceContentV1) (snapshot : DevnetPublicSnapshotV1)
    (checkpoint_artifact : list byte) : result DevnetEvidenceError unit :=
  let deployment := dv_deployment evidence in
  programdata ← parse_pubkey (de_programdata deployment);
  if programdata != sn_programdata_address snapshot then Err DevnetEvidenceError.WrongProgramDataAddress else
  extracted ← extract_upgradeable_program (sn_program snapshot) programdata (sn_programdata snapshot) (dv_checkpoint_artifact_len evidence);
  upgrade_authority ← match de_upgrade_authority deployment with
    | Some encoded => k ← parse_pubkey encoded; Ok (Some k)
    | None => Ok None
    end;
  if (ex_deployment_slot extracted != de_deployment_slot deployment)
     || (ex_upgrade_authority extracted != upgrade_authority)
     || (ex_executable extracted != checkpoint_artifact)
     || (ex_executable_sha256 extracted != de_deployed_executable_sha256 deployment)
     || (ex_executable_sha256 extracted != dv_checkpoint_artifact_sha256 evidence)
  then Err DevnetEvidenceError.DeploymentMismatch else Ok tt.

(** One turn of the loop over the expected transactions; the set holds the signatures seen. *)
Definition check_transaction (snapshots : list FinalizedTransactionSnapshotV1) (signatures : gset text)
    (transaction : EvidenceTransactionV1) : result DevnetEvidenceError (gset text) :=
  ok_or DevnetEvidenceError.InvalidPublicField (signature_from_str (et_signature transaction)) ;;
  if bool_decide (et_signature transaction ∈ signatures) then Err DevnetEvidenceError.UnexpectedInstruction else
  let signatures := {[et_signature transaction]} ∪ signatures in
  fetched ← ok_or DevnetEvidenceError.MissingTransaction
    (List.find (fun snapshot => ft_signature snapshot == et_signature transaction) snapshots);
  if negb (ft_finalized fetched) then Err DevnetEvidenceError.UnfinalizedTransaction else
  if negb (ft_succeeded fetched) then Err DevnetEvidenceError.FailedTransaction else
  if ft_slot fetched != et_slot transaction then Err DevnetEvidenceError.TransactionSlotMismatch else
  if ft_status_slot fetched != et_slot transaction then Err DevnetEvidenceError.TransactionSlotMismatch else
  Ok signatures.

Definition validate_transactions (evidence : DevnetEvidenceContentV1) (snapshots : list FinalizedTransactionSnapshotV1)
  : result DevnetEvidenceError unit :=
  signatures ← try_fold (check_transaction snapshots) ∅ (evidence_transactions evidence);
  if length snapshots != size signatures then Err DevnetEvidenceError.UnexpectedInstruction else
  let deployment_slot := de_deployment_slot (dv_deployment evidence) in
  let lock_slot := et_slot (tr_lock (dv_transactions evidence)) in
  let settlement_slot := et_slot (tr_settlement (dv_transactions evidence)) in
  if ((lock_slot <=? deployment_slot) || (settlement_slot <=? lock_slot)
      || existsb (fun funding => (et_slot (fu_transaction funding) <=? deployment_slot) || (lock_slot <=? et_slot (fu_transaction funding)))
           (four_list (tr_funding (dv_transactions evidence))))%Z
  then Err DevnetEvidenceError.InvalidChronology else Ok tt.

(** One turn of the loop over the funding transactions. *)
Definition check_source (sources : gset Pubkey) (source : text) : result DevnetEvidenceError (gset Pubkey) :=
  source ← parse_pubkey source;
  if bool_decide (source ∈ sources) then Err DevnetEvidenceError.RepeatedFundingSource else Ok ({[source]} ∪ sources).

Definition check_authority (st : gset Pubkey * gset Pubkey) (funding : FundingTransactionEvidenceV1)
  : result DevnetEvidenceError (gset Pubkey * gset Pubkey) :=
  let '(authorities, sources) := st in
  authority ← parse_pubkey (fu_authority funding);
  if (authority == zero32) || bool_decide (authority ∈ authorities) then Err DevnetEvidenceError.RepeatedFundingAuthority else
  sources ← try_fold check_source sources [fu_base_source funding; fu_quote_source funding];
  Ok ({[authority]} ∪ authorities, sources).

Definition validate_distinct_funding_authorities (evidence : DevnetEvidenceContentV1) : result DevnetEvidenceError unit :=
  try_fold check_authority (∅, ∅) (four_list (tr_funding (dv_transactions evidence))) ;;
  Ok tt.

Definition validate_program_state (evidence : DevnetEvidenceContentV1) (snapshot : DevnetPublicSnapshotV1)
  : result DevnetEvidenceError (PoolStateV1 * EpochStateV1) :=
  let accounts := dv_accounts evidence in
  let configuration := dv_configuration evidence in
  let commitments := dv_commitments evidence in
  if (pa_owner (sn_pool snapshot) != ID) || pa_executable (sn_pool snapshot)
     || (pa_owner (sn_epoch snapshot) != ID) || pa_executable (sn_epoch snapshot)
  then Err DevnetEvidenceError.WrongAccountOwner else
  pool ← map_err (fun _ => DevnetEvidenceError.WrongState) (PoolStateV1_decode (pa_data (sn_pool snapshot)));
  epoch ← map_err (fun _ => DevnetEvidenceError.WrongState) (EpochStateV1_decode (pa_data (sn_epoch snapshot)));
  operator ← parse_pubkey (ea_operator accounts);
  base_mint ← parse_pubkey (ea_base_mint accounts);
  quote_mint ← parse_pubkey (ea_quote_mint accounts);
  expected_pool ← parse_pubkey (ea_pool accounts);
  expected_epoch ← parse_pubkey (ea_epoch accounts);
  expected_vault_authority ← parse_pubkey (ea_vault_authority accounts);
  let '(derived_pool, derived_pool_bump) := pool_address operator base_mint quote_mint in
  let '(derived_vault_authority, derived_vault_bump) := vault_authority_address derived_pool in
  epoch_id ← parse_digest (ec_epoch_id configuration);
  let '(derived_epoch, derived_epoch_bump) := epoch_address derived_pool epoch_id in
  wrong ← or_else
    [Ok (expected_pool != derived_pool); Ok (expected_epoch != derived_epoch);
     Ok (expected_vault_authority != derived_vault_authority); Ok (pool_bump pool != derived_pool_bump);
     Ok (vault_bump pool != derived_vault_bump); Ok (epoch_bump epoch != derived_epoch_bump);
     Ok (pl_operator pool != operator); Ok (pl_base_mint pool != base_mint); Ok (pl_quote_mint pool != quote_mint);
     pubkey_differs (ea_pool_base_vault accounts) (pl_pool_base_vault pool);
     pubkey_differs (ea_pool_quote_vault accounts) (pl_pool_quote_vault pool);
     pubkey_differs (ea_venue_authority accounts) (pl_venue_authority pool);
     pubkey_differs (ea_venue_base_account accounts) (pl_venue_base_account pool);
     pubkey_differs (ea_venue_quote_account accounts) (pl_venue_quote_account pool);
     Ok (ep_pool epoch != expected_pool); Ok (ep_epoch_id epoch != epoch_id); Ok (terminal_state epoch != Settled);
     Ok (ep_settlement_nonce epoch == zero32); Ok (ep_lock_nonce epoch == zero32)];
  if (wrong : bool) then Err DevnetEvidenceError.WrongState else
  if (ec_member_count configuration != 4%Z) || (ec_minimum_count configuration != 4%Z)
     || (ep_member_count epoch != ec_member_count configuration) || (ep_minimum_count epoch != ec_minimum_count configuration)
     || (ep_member_count epoch <? ep_minimum_count epoch)%Z
  then Err DevnetEvidenceError.WrongMemberCount else
  let '(k0, k1, k2) := ec_keypers configuration in
  keyper0 ← parse_pubkey k0;
  keyper1 ← parse_pubkey k1;
  keyper2 ← parse_pubkey k2;
  if ((keyper0, keyper1, keyper2) != pl_keypers pool)
     || (size (list_to_set [keyper0; keyper1; keyper2] : gset Pubkey) != 3)
     || (ec_lock_threshold configuration != pl_lock_threshold pool)
     || (ec_settlement_threshold configuration != pl_settlement_threshold pool)
     || (pl_lock_threshold pool != 2%Z) || (pl_settlement_threshold pool != 2%Z)
  then Err DevnetEvidenceError.WrongKeyper else
  if (ec_base_lot_atoms configuration != pl_base_lot_atoms pool) || (ec_base_lot_atoms configuration != ep_base_lot_atoms epoch)
     || (ec_quote_atoms_per_lot configuration != ep_quote_atoms_per_lot epoch)
  then Err DevnetEvidenceError.WrongState else
  changed ← or_else
    [digest_differs (co_configuration_hash commitments) (ep_configuration_hash epoch);
     digest_differs (co_pre_balance_root commitments) (ep_pre_balance_root epoch);
     digest_differs (co_member_set commitments) (ep_member_root epoch);
     digest_differs (co_lock_digest commitments) (ep_lock_digest epoch);
     digest_differs (co_result commitments) (ep_result_commitment epoch);
     digest_differs (co_settlement_digest commitments) (ep_settlement_digest epoch)];
  if (changed : bool) then Err DevnetEvidenceError.ChangedCommitment else
  parse_digest (co_unverified_local_transcript_sha256 commitments) ;;
  Ok (pool, epoch).

Definition validate_public_mint (mint : PublicAccountSnapshotV1) : result DevnetEvidenceError unit :=
  if (pa_owner mint != TOKEN_PROGRAM_ID) || pa_executable mint then Err DevnetEvidenceError.InvalidTokenAccount else
  mint ← ok_or DevnetEvidenceError.InvalidTokenAccount (mint_unpack (pa_data mint));
  if (mi_decimals mint != 0%Z) || (match mi_mint_authority mint with Some _ => true | None => false end)
     || (match mi_freeze_authority mint with Some _ => true | None => false end)
  then Err DevnetEvidenceError.InvalidTokenAccount else Ok tt.

(** One turn of the loop over the four token accounts. *)
Definition check_token_account (entry : PublicAccountSnapshotV1 * (text * text)) : result DevnetEvidenceError unit :=
  let '(account, (mint, authority)) := entry in
  if (pa_owner account != TOKEN_PROGRAM_ID) || pa_executable account then Err DevnetEvidenceError.InvalidTokenAccount else
  token ← ok_or DevnetEvidenceError.InvalidTokenAccount (account_unpack (pa_data account));
  wrong ← or_else [pubkey_differs mint (ta_mint token); pubkey_differs authority (ta_owner token); Ok (negb (ta_initialized token))];
  if (wrong : bool) then Err DevnetEvidenceError.InvalidTokenAccount else Ok tt.

Definition validate_current_token_accounts (evidence : DevnetEvidenceContentV1) (accounts : four PublicAccountSnapshotV1)
  : result DevnetEvidenceError unit :=
  let e := dv_accounts evidence in
  try_each check_token_account (zip (four_list accounts)
    [(ea_base_mint e, ea_vault_authority e); (ea_quote_mint e, ea_vault_authority e);
     (ea_base_mint e, ea_venue_authority e); (ea_quote_mint e, ea_venue_authority e)]).

(** [match (epoch.residual_side, epoch.residual_lots)]; the tuple is pool base, pool quote, venue base, venue quote. *)
Definition residual_deltas (side lots base quote : Z) : result DevnetEvidenceError (Z * Z * Z * Z) :=
  if ((side =? 0) && (lots =? 0))%Z then Ok (0, 0, 0, 0)%Z else
  if ((side =? 1) && (1 <=? lots))%Z then Ok (base, - quote, - base, quote)%Z else
  if ((side =? 2) && (1 <=? lots))%Z then Ok (- base, quote, base, - quote)%Z else
  Err DevnetEvidenceError.WrongTokenDelta.

(** The [i128] differences of [u64] amounts stay within [i128]. *)
Definition validate_token_deltas (evidence : DevnetEvidenceContentV1) (snapshot : DevnetPublicSnapshotV1) (epoch : EpochStateV1)
  : result DevnetEvidenceError unit :=
  validate_public_mint (sn_base_mint snapshot) ;;
  validate_public_mint (sn_quote_mint snapshot) ;;
  validate_current_token_accounts evidence (sn_current_token_accounts snapshot) ;;
  let balances := dv_token_balances evidence in
  base_before ← ok_or DevnetEvidenceError.WrongTokenDelta (checked_add_u64 (tb_pool_base_before balances) (tb_venue_base_before balances));
  base_after ← ok_or DevnetEvidenceError.WrongTokenDelta (checked_add_u64 (tb_pool_base_after balances) (tb_venue_base_after balances));
  quote_before ← ok_or DevnetEvidenceError.WrongTokenDelta (checked_add_u64 (tb_pool_quote_before balances) (tb_venue_quote_before balances));
  quote_after ← ok_or DevnetEvidenceError.WrongTokenDelta (checked_add_u64 (tb_pool_quote_after balances) (tb_venue_quote_after balances));
  if (balances != sn_token_balances snapshot) || (base_before != base_after) || (quote_before != quote_after)
  then Err DevnetEvidenceError.WrongTokenDelta else
  let lots := ep_residual_lots epoch in
  base ← ok_or DevnetEvidenceError.WrongTokenDelta (checked_mul_u64 (ep_base_lot_atoms epoch) lots);
  quote ← ok_or DevnetEvidenceError.WrongTokenDelta (checked_mul_u64 (ep_quote_atoms_per_lot epoch) lots);
  let deltas := (tb_pool_base_after balances - tb_pool_base_before balances, tb_pool_quote_after balances - tb_pool_quote_before balances,
                 tb_venue_base_after balances - tb_venue_base_before balances, tb_venue_quote_after balances - tb_venue_quote_before balances)%Z in
  expected ← residual_deltas (ep_residual_side epoch) (ep_residual_lots epoch) base quote;
  if deltas != expected then Err DevnetEvidenceError.WrongTokenDelta else Ok tt.

Definition count_kind (kind : text) (l : list DecodedInstructionEvidenceV1) : nat :=
  length (List.filter (fun instruction => di_kind instruction == kind) l).

(** [match instruction.kind.as_str()]: the digest an instruction of this kind must carry. *)
Definition expected_digest (commitments : EvidenceCommitmentsV1) (kind : text) : result DevnetEvidenceError (option text) :=
  if (kind == bstr "keyper-lock-approval") || (kind == bstr "epoch-lock") then Ok (Some (co_lock_digest commitments)) else
  if (kind == bstr "keyper-settlement-approval") || (kind == bstr "aggregate-settlement") then Ok (Some (co_settlement_digest commitments)) else
  if (kind == bstr "pool-funding-base") || (kind == bstr "pool-funding-quote") || (kind == bstr "aggregate-base-leg")
     || (kind == bstr "aggregate-quote-leg") then Ok None else
  Err DevnetEvidenceError.UnexpectedInstruction.

Definition check_decoded (commitments : EvidenceCommitmentsV1) (instruction : DecodedInstructionEvidenceV1) : result DevnetEvidenceError unit :=
  expected ← expected_digest commitments (di_kind instruction);
  if di_digest instruction != expected then Err DevnetEvidenceError.UnexpectedInstruction else
  match di_digest instruction with
  | Some digest => parse_digest digest ;; Ok tt
  | None => Ok tt
  end.

Definition validate_allowlist (evidence : DevnetEvidenceContentV1) (snapshot : DevnetPublicSnapshotV1) (settlement_threshold : Z)
  : result DevnetEvidenceError unit :=
  let allowlist := sn_decoded_allowlist snapshot in
  let aggregate_count := count_kind (bstr "aggregate-settlement") allowlist in
  if 1 <? aggregate_count then Err DevnetEvidenceError.SecondSettlement else
  if aggregate_count != 1 then Err DevnetEvidenceError.UnexpectedInstruction else
  let lock_approvals := count_kind (bstr "keyper-lock-approval") allowlist in
  let settlement_approvals := count_kind (bstr "keyper-settlement-approval") allowlist in
  if (Z.of_nat lock_approvals != ec_lock_threshold (dv_configuration evidence))
     || (Z.of_nat settlement_approvals != settlement_threshold) || (allowlist != dv_decoded_allowlist evidence)
  then Err DevnetEvidenceError.UnexpectedInstruction else
  try_each (check_decoded (dv_commitments evidence)) allowlist.

Definition verify_devnet_evidence (bundle : DevnetEvidenceBundleV1) (snapshot : DevnetPublicSnapshotV1) (checkpoint_artifact : list byte)
  : result DevnetEvidenceError unit :=
  DevnetEvidenceBundleV1_verify_content_hash bundle ;;
  let evidence := db_content bundle in
  validate_public_fields evidence checkpoint_artifact ;;
  validate_deployment evidence snapshot checkpoint_artifact ;;
  validate_transactions evidence (sn_transactions snapshot) ;;
  validate_distinct_funding_authorities evidence ;;
  '(pool, epoch) ← validate_program_state evidence snapshot;
  validate_token_deltas evidence snapshot epoch ;;
  validate_allowlist evidence snapshot (pl_settlement_threshold pool) ;;
  Ok tt.

(** ** Signatures *)

Definition verify_ed25519_instruction (instruction : Instruction) : result DevnetEvidenceError StrictEd25519 :=
  parsed ← map_err (fun _ => DevnetEvidenceError.InvalidTransaction) (parse_strict_ed25519 instruction);
  bytes ← ok_or DevnetEvidenceError.InvalidTransaction (get_range 48 112 (ix_data instruction));
  signature ← ok_or DevnetEvidenceError.InvalidTransaction (try_into 64 bytes);
  if negb (verifying_key_ok (ed_signer parsed)) then Err DevnetEvidenceError.InvalidTransaction else
  if negb (dalek_verify_strict (ed_signer parsed) (ed_digest parsed) signature) then Err DevnetEvidenceError.InvalidTransaction else
  Ok parsed.
End evidence.
