(* ===== verification/EvidenceRpc.v ===== *)
(** * Evidence read from the chain (crates/kageb-host/src/evidence.rs, lines 849 to 1790)

    The snapshot that verification needs, fetched from an RPC node and decoded from the confirmed
    transactions, and the commands that verify an evidence file.  The replies of the node, the files
    and the build of the checkpoint are arguments. *)

From S2P Require Import Prelude Bytes Extern ProgramWire ProgramState ProgramInstruction Ed25519 HostExtern Observer Evidence.
From Stdlib Require DecimalString.

Definition DEVNET_GENESIS_HASH : text := bstr "EtWTRABZaYq6iMfeYKouRu166VU2xqa1wcaWoxPkrZBG".

(** ** Replies of the node *)

(** An entry of the pre or post token balances. *)
Record TokenBalance : Type := {
  ub_account_index : Z;
  ub_mint : text;
  ub_decimals : Z;
  ub_amount : text;
  ub_owner : option text;
  ub_program_id : option text;
}.

(** A transaction with its status: what the observer reads of it and what is read here besides.
    [fx_signatures] and [fx_required] are the signatures and the header of the decoded transaction,
    [fx_verified] says that [verify_and_hash_message] succeeds. *)
Record FetchedTransaction : Type := {
  fx_slot : Z;
  fx_confirmed : ConfirmedTransaction;
  fx_signatures : list bytes64;
  fx_verified : bool;
  fx_required : Z;
  fx_pre : option (list TokenBalance);
  fx_post : option (list TokenBalance);
}.

(** [st_finalized] is [satisfies_commitment(finalized)]. *)
Record SignatureStatus : Type := { st_slot : Z; st_finalized : bool; st_err : bool; st_status_err : bool }.

(** The replies, by the number of the call where one call is repeated; [None] is a failed request. *)
Record EvidenceReplies : Type := {
  er_genesis_hash : option text;
  er_account : nat -> Pubkey -> option (option PublicAccountSnapshotV1);
  er_statuses : list bytes64 -> option (list (option SignatureStatus));
  er_transaction : nat -> bytes64 -> option FetchedTransaction;
}.

(** ** Numbers in texts *)

(** [str::parse::<u64>]: an optional sign, then digits, within range. *)
Fixpoint parse_digits (acc : Z) (l : text) : option Z :=
  match l with
  | [] => Some acc
  | c :: l => if between 48 57 c then acc ← checked_u64 (acc * 10 + (byte_val c - 48)); parse_digits acc l else None
  end.
Definition parse_u64 (l : text) : option Z :=
  match l with
  | [] => None
  | c :: rest => if c == byte_of 43 then match rest with [] => None | _ => parse_digits 0 rest end else parse_digits 0 l
  end.

(** [{n}] *)
Definition display_nat (n : nat) : text := bstr (DecimalString.NilZero.string_of_uint (Nat.to_uint n)).

Section rpc.
Context `{Sha256} `{Solana} `{Dalek} `{!EvidenceCodec} `{ObserverCodec}.

Definition verify_queried_transaction (transaction : FetchedTransaction) (expected : bytes64) : result DevnetEvidenceError unit :=
  if head (fx_signatures transaction) != Some expected then Err DevnetEvidenceError.InvalidTransaction else
  if fx_verified transaction then Ok tt else Err DevnetEvidenceError.InvalidTransaction.

Definition fetch_finalized_account (rpc : EvidenceReplies) (call : nat) (address : Pubkey)
  : result DevnetEvidenceError PublicAccountSnapshotV1 :=
  reply ← ok_or DevnetEvidenceError.RpcUnavailable (er_account rpc call address);
  ok_or DevnetEvidenceError.RpcUnavailable reply.

Definition observer_accounts (evidence : DevnetEvidenceContentV1) : result DevnetEvidenceError KagebObserverAccounts :=
  let accounts := dv_accounts evidence in
  fee_payer ← parse_pubkey (ea_fee_payer accounts);
  payer ← parse_pubkey (ea_operator accounts);
  pool ← parse_pubkey (ea_pool accounts);
  epoch ← parse_pubkey (ea_epoch accounts);
  vault_authority ← parse_pubkey (ea_vault_authority accounts);
  pool_base_vault ← parse_pubkey (ea_pool_base_vault accounts);
  pool_quote_vault ← parse_pubkey (ea_pool_quote_vault accounts);
  venue_authority ← parse_pubkey (ea_venue_authority accounts);
  venue_base_account ← parse_pubkey (ea_venue_base_account accounts);
  venue_quote_account ← parse_pubkey (ea_venue_quote_account accounts);
  base_mint ← parse_pubkey (ea_base_mint accounts);
  quote_mint ← parse_pubkey (ea_quote_mint accounts);
  Ok {| ko_fee_payer := fee_payer; ko_payer := payer; ko_pool := pool; ko_epoch := epoch; ko_vault_authority := vault_authority;
        ko_pool_base_vault := pool_base_vault; ko_pool_quote_vault := pool_quote_vault; ko_venue_authority := venue_authority;
        ko_venue_base_account := venue_base_account; ko_venue_quote_account := venue_quote_account; ko_base_mint := base_mint;
        ko_quote_mint := quote_mint; ko_base_lot_atoms := ec_base_lot_atoms (dv_configuration evidence);
        ko_quote_atoms_per_lot := ec_quote_atoms_per_lot (dv_configuration evidence) |}.

(** ** Token balances *)

Definition token_balance_list (balances : option (list TokenBalance)) : result DevnetEvidenceError (list TokenBalance) :=
  ok_or DevnetEvidenceError.InvalidTransaction balances.

Definition token_balance_at (balances : list TokenBalance) (keys : list Pubkey) (address mint owner : text) : result DevnetEvidenceError Z :=
  address ← parse_pubkey address;
  balance ← ok_or DevnetEvidenceError.InvalidTransaction
    (List.find (fun balance => key_at keys (ub_account_index balance) == Some address) balances);
  if (ub_mint balance != mint) || (ub_decimals balance != 0%Z) || (ub_owner balance != Some owner)
     || (ub_program_id balance != Some (pubkey_to_string TOKEN_PROGRAM_ID))
  then Err DevnetEvidenceError.InvalidTransaction else
  ok_or DevnetEvidenceError.InvalidTransaction (parse_u64 (ub_amount balance)).

Definition transaction_token_balances (settlement : FetchedTransaction) (evidence : DevnetEvidenceContentV1)
  : result DevnetEvidenceError EvidenceTokenBalancesV1 :=
  let accounts := dv_accounts evidence in
  ok_or DevnetEvidenceError.InvalidTransaction (ct_meta (fx_confirmed settlement)) ;;
  '(keys, _) ← ok_or DevnetEvidenceError.InvalidTransaction (ct_message (fx_confirmed settlement));
  pre ← token_balance_list (fx_pre settlement);
  post ← token_balance_list (fx_post settlement);
  let amount l := token_balance_at l keys in
  pool_base_before ← amount pre (ea_pool_base_vault accounts) (ea_base_mint accounts) (ea_vault_authority accounts);
  pool_base_after ← amount post (ea_pool_base_vault accounts) (ea_base_mint accounts) (ea_vault_authority accounts);
  pool_quote_before ← amount pre (ea_pool_quote_vault accounts) (ea_quote_mint accounts) (ea_vault_authority accounts);
  pool_quote_after ← amount post (ea_pool_quote_vault accounts) (ea_quote_mint accounts) (ea_vault_authority accounts);
  venue_base_before ← amount pre (ea_venue_base_account accounts) (ea_base_mint accounts) (ea_venue_authority accounts);
  venue_base_after ← amount post (ea_venue_base_account accounts) (ea_base_mint accounts) (ea_venue_authority accounts);
  venue_quote_before ← amount pre (ea_venue_quote_account accounts) (ea_quote_mint accounts) (ea_venue_authority accounts);
  venue_quote_after ← amount post (ea_venue_quote_account accounts) (ea_quote_mint accounts) (ea_venue_authority accounts);
  Ok {| tb_pool_base_before := pool_base_before; tb_pool_base_after := pool_base_after; tb_pool_quote_before := pool_quote_before;
        tb_pool_quote_after := pool_quote_after; tb_venue_base_before := venue_base_before; tb_venue_base_after := venue_base_after;
        tb_venue_quote_before := venue_quote_before; tb_venue_quote_after := venue_quote_after |}.

(** ** Funding transactions *)

Record FundingLeg : Type := { fl_mint : Pubkey; fl_destination : Pubkey; fl_amount : Z; fl_source : Pubkey; fl_kind : text }.

(** One turn of the loop over the two transfers; the set holds the sources of all funding so far. *)
Definition decode_funding_leg (keys : list Pubkey) (pre post : list TokenBalance) (authority : Pubkey) (vault_authority : text)
    (funding_index : nat) (st : gset Pubkey * list DecodedInstructionEvidenceV1) (entry : nat * (CompiledInstruction * FundingLeg))
  : result DevnetEvidenceError (gset Pubkey * list DecodedInstructionEvidenceV1) :=
  let '(global_sources, decoded) := st in
  let '(position, (instruction, leg)) := entry in
  if (key_at keys (ci_program_id_index instruction) != Some TOKEN_PROGRAM_ID) || (length (ci_accounts instruction) != 4)
  then Err DevnetEvidenceError.InvalidTransaction else
  accounts ← try_map (fun index => ok_or DevnetEvidenceError.InvalidTransaction (key_at keys index)) (ci_accounts instruction);
  token ← ok_or DevnetEvidenceError.InvalidTransaction (token_unpack (ci_data instruction));
  let account i := nth i accounts zero32 in
  if (account 1 != fl_mint leg) || (account 2 != fl_destination leg) || (account 3 != authority) || (account 0 != fl_source leg)
     || (account 0 == fl_destination leg) || bool_decide (account 0 ∈ global_sources)
     || negb (match token with TransferChecked actual decimals => (decimals =? 0)%Z && (actual =? fl_amount leg)%Z | OtherToken => false end)
  then Err DevnetEvidenceError.InvalidTransaction else
  let mint := pubkey_to_string (fl_mint leg) in
  source_pre ← token_balance_at pre keys (pubkey_to_string (fl_source leg)) mint (pubkey_to_string authority);
  source_post ← token_balance_at post keys (pubkey_to_string (fl_source leg)) mint (pubkey_to_string authority);
  destination_owner ← parse_pubkey vault_authority;
  destination_pre ← token_balance_at pre keys (pubkey_to_string (fl_destination leg)) mint (pubkey_to_string destination_owner);
  destination_post ← token_balance_at post keys (pubkey_to_string (fl_destination leg)) mint (pubkey_to_string destination_owner);
  if (checked_sub_u64 source_pre (fl_amount leg) != Some source_post)
     || (checked_add_u64 destination_pre (fl_amount leg) != Some destination_post)
  then Err DevnetEvidenceError.InvalidTransaction else
  if negb (Z.of_nat position <=? u16_MAX)%Z then Err DevnetEvidenceError.InvalidTransaction else
  Ok ({[account 0]} ∪ global_sources,
      (decoded ++ [{| di_transaction := bstr "funding-" ++ display_nat funding_index; di_position := Z.of_nat position;
                      di_program := pubkey_to_string TOKEN_PROGRAM_ID; di_kind := fl_kind leg; di_digest := None |}])%list).

Definition decode_funding_transaction (confirmed : FetchedTransaction) (funding_index : nat) (funding : FundingTransactionEvidenceV1)
    (evidence : DevnetEvidenceContentV1) (global_sources : gset Pubkey)
  : result DevnetEvidenceError (gset Pubkey * list DecodedInstructionEvidenceV1) :=
  let e := dv_accounts evidence in
  meta ← ok_or DevnetEvidenceError.InvalidTransaction (ct_meta (fx_confirmed confirmed));
  if tm_err meta || tm_status_err meta then Err DevnetEvidenceError.FailedTransaction else
  if match tm_inner meta with None | Some [] => false | _ => true end then Err DevnetEvidenceError.InvalidTransaction else
  '(keys, instructions) ← ok_or DevnetEvidenceError.InvalidTransaction (ct_message (fx_confirmed confirmed));
  pre ← token_balance_list (fx_pre confirmed);
  post ← token_balance_list (fx_post confirmed);
  authority ← parse_pubkey (fu_authority funding);
  wrong ← or_else [(fee_payer ← parse_pubkey (ea_fee_payer e); Ok (head keys != Some fee_payer)); Ok (length instructions != 2);
                   Ok (negb (existsb (fun k => k == authority) (take (Z.to_nat (fx_required confirmed)) keys)))];
  if (wrong : bool) then Err DevnetEvidenceError.InvalidTransaction else
  base_mint ← parse_pubkey (ea_base_mint e);
  pool_base_vault ← parse_pubkey (ea_pool_base_vault e);
  base_source ← parse_pubkey (fu_base_source funding);
  quote_mint ← parse_pubkey (ea_quote_mint e);
  pool_quote_vault ← parse_pubkey (ea_pool_quote_vault e);
  quote_source ← parse_pubkey (fu_quote_source funding);
  let expected :=
    [{| fl_mint := base_mint; fl_destination := pool_base_vault; fl_amount := ec_base_lot_atoms (dv_configuration evidence);
        fl_source := base_source; fl_kind := bstr "pool-funding-base" |};
     {| fl_mint := quote_mint; fl_destination := pool_quote_vault; fl_amount := ec_quote_atoms_per_lot (dv_configuration evidence);
        fl_source := quote_source; fl_kind := bstr "pool-funding-quote" |}] in
  try_fold (decode_funding_leg keys pre post authority (ea_vault_authority e) funding_index) (global_sources, [])
    (zip (seq 0 (length instructions)) (zip instructions expected)).

(** ** Lock and settlement transactions *)

(** [SettlementPayloadV1 { .. }] from the published accounts and the compact payload. *)
Definition published_settlement (evidence : DevnetEvidenceContentV1) (payload : CompactSettlementPayload)
  : result DevnetEvidenceError SettlementPayloadV1 :=
  let e := dv_accounts evidence in
  epoch_account ← parse_pubkey (ea_epoch e);
  lock_digest ← parse_digest (co_lock_digest (dv_commitments evidence));
  base_mint ← parse_pubkey (ea_base_mint e);
  quote_mint ← parse_pubkey (ea_quote_mint e);
  pool_base_vault ← parse_pubkey (ea_pool_base_vault e);
  pool_quote_vault ← parse_pubkey (ea_pool_quote_vault e);
  venue_base_account ← parse_pubkey (ea_venue_base_account e);
  venue_quote_account ← parse_pubkey (ea_venue_quote_account e);
  venue_authority ← parse_pubkey (ea_venue_authority e);
  Ok {| sp_epoch_account := epoch_account; sp_lock_digest := lock_digest; sp_result_commitment := cs_result_commitment payload;
        sp_residual_side := cs_residual_side payload; sp_residual_lots := cs_residual_lots payload;
        sp_base_lot_atoms := ec_base_lot_atoms (dv_configuration evidence);
        sp_quote_atoms_per_lot := ec_quote_atoms_per_lot (dv_configuration evidence);
        sp_base_mint := base_mint; sp_quote_mint := quote_mint; sp_pool_base_vault := pool_base_vault;
        sp_pool_quote_vault := pool_quote_vault; sp_venue_base_account := venue_base_account;
        sp_venue_quote_account := venue_quote_account; sp_venue_authority := venue_authority;
        sp_settlement_nonce := cs_settlement_nonce payload |}.

(** What the loop over the instructions has gathered. *)
Record KagebDecoding : Type := {
  kd_decoded : list DecodedInstructionEvidenceV1;
  kd_program_digest : option bytes32;
  kd_signers : gset Pubkey;
}.

(** The kind and the digest of a native verifier, and of the program's own instruction. *)
Definition approval_kind (transaction_name : text) : text :=
  if transaction_name == bstr "lock" then bstr "keyper-lock-approval" else bstr "keyper-settlement-approval".

Definition program_kind (transaction_name : text) (evidence : DevnetEvidenceContentV1) (instruction : KagebInstruction)
  : result DevnetEvidenceError (text * bytes32) :=
  match instruction with
  | Lock payload =>
      if transaction_name == bstr "lock" then Ok (bstr "epoch-lock", LockPayloadV1_digest payload)
      else Err DevnetEvidenceError.InvalidTransaction
  | Settle payload =>
      if transaction_name == bstr "settlement"
      then full ← published_settlement evidence payload; Ok (bstr "aggregate-settlement", SettlementPayloadV1_digest full)
      else Err DevnetEvidenceError.InvalidTransaction
  | _ => Err DevnetEvidenceError.InvalidTransaction
  end.

(** [actual_signers.insert(..)] refuses a signer that is there already. *)
Definition insert_signer (signers : gset Pubkey) (signer : Pubkey) : result DevnetEvidenceError (gset Pubkey) :=
  if bool_decide (signer ∈ signers) then Err DevnetEvidenceError.WrongKeyper else Ok ({[signer]} ∪ signers).

(** One turn of that loop. *)
Definition decode_kageb_instruction (keys : list Pubkey) (transaction_name : text) (evidence : DevnetEvidenceContentV1)
    (st : KagebDecoding) (entry : nat * CompiledInstruction) : result DevnetEvidenceError KagebDecoding :=
  let '(position, instruction) := entry in
  program ← ok_or DevnetEvidenceError.InvalidTransaction (key_at keys (ci_program_id_index instruction));
  let push (kind : text) (digest : bytes32) := (kd_decoded st ++ [{| di_transaction := transaction_name; di_position := Z.of_nat position;
    di_program := pubkey_to_string program; di_kind := kind; di_digest := Some (hex_digest digest) |}])%list in
  let fits := (Z.of_nat position <=? u16_MAX)%Z in
  if program == ed25519_program_id then
    parsed ← verify_ed25519_instruction {| ix_program_id := program; ix_accounts := []; ix_data := ci_data instruction |};
    signers ← insert_signer (kd_signers st) (ed_signer parsed);
    if negb fits then Err DevnetEvidenceError.InvalidTransaction else
    Ok {| kd_decoded := push (approval_kind transaction_name) (ed_digest parsed); kd_program_digest := kd_program_digest st;
          kd_signers := signers |}
  else if program == ID then
    decoded ← map_err (fun _ => DevnetEvidenceError.InvalidTransaction) (KagebInstruction_decode (ci_data instruction));
    '(kind, digest) ← program_kind transaction_name evidence decoded;
    if negb fits then Err DevnetEvidenceError.InvalidTransaction else
    Ok {| kd_decoded := push kind digest; kd_program_digest := Some digest; kd_signers := kd_signers st |}
  else Err DevnetEvidenceError.InvalidTransaction.

(** One turn of the loop over the inner instructions. *)
Definition decode_inner_leg (keys : list Pubkey) (transaction_name : text) (evidence : DevnetEvidenceContentV1) (outer : nat)
    (entry : nat * UiInstruction) : result DevnetEvidenceError DecodedInstructionEvidenceV1 :=
  let '(inner_index, instruction) := entry in
  match instruction with
  | Parsed => Err DevnetEvidenceError.InvalidTransaction
  | Compiled program_id_index accounts _ =>
      if (key_at keys program_id_index != Some TOKEN_PROGRAM_ID) || (length accounts != 4) then Err DevnetEvidenceError.InvalidTransaction else
      mint ← ok_or DevnetEvidenceError.InvalidTransaction (key_at keys (nth 1 accounts 0%Z));
      base_mint ← parse_pubkey (ea_base_mint (dv_accounts evidence));
      kind ← if mint == base_mint then Ok (bstr "aggregate-base-leg") else
        quote_mint ← parse_pubkey (ea_quote_mint (dv_accounts evidence));
        if mint == quote_mint then Ok (bstr "aggregate-quote-leg") else Err DevnetEvidenceError.InvalidTransaction;
      if negb (Z.of_nat (outer + inner_index) <=? u16_MAX)%Z then Err DevnetEvidenceError.InvalidTransaction else
      Ok {| di_transaction := transaction_name; di_position := Z.of_nat (outer + inner_index);
            di_program := pubkey_to_string TOKEN_PROGRAM_ID; di_kind := kind; di_digest := None |}
  end.

Definition decode_inner_legs (confirmed : FetchedTransaction) (keys : list Pubkey) (transaction_name : text)
    (evidence : DevnetEvidenceContentV1) (outer : nat) : result DevnetEvidenceError (list DecodedInstructionEvidenceV1) :=
  meta ← ok_or DevnetEvidenceError.InvalidTransaction (ct_meta (fx_confirmed confirmed));
  inner ← ok_or DevnetEvidenceError.InvalidTransaction (tm_inner meta);
  group ← ok_or DevnetEvidenceError.InvalidTransaction (List.find (fun group => ui_index group == 2%Z) inner);
  try_map (decode_inner_leg keys transaction_name evidence outer) (zip (seq 0 (length (ui_instructions group))) (ui_instructions group)).

(** The decoded message, once its keys and instructions are known. *)
Definition decode_kageb_message (confirmed : FetchedTransaction) (transaction_name : text) (evidence : DevnetEvidenceContentV1)
    (keys : list Pubkey) (instructions : list CompiledInstruction) : result DevnetEvidenceError (list DecodedInstructionEvidenceV1) :=
  st ← try_fold (decode_kageb_instruction keys transaction_name evidence)
    {| kd_decoded := []; kd_program_digest := None; kd_signers := ∅ |} (zip (seq 0 (length instructions)) instructions);
  actual_program_digest ← ok_or DevnetEvidenceError.InvalidTransaction (kd_program_digest st);
  if existsb (fun instruction => di_digest instruction != Some (hex_digest (actual_program_digest : bytes32))) (kd_decoded st)
  then Err DevnetEvidenceError.InvalidTransaction else
  expected_keypers ← try_map parse_pubkey (three_list (ec_keypers (dv_configuration evidence)));
  if negb (bool_decide (kd_signers st ⊆ list_to_set expected_keypers)) then Err DevnetEvidenceError.WrongKeyper else
  if transaction_name == bstr "settlement" then
    legs ← decode_inner_legs confirmed keys transaction_name evidence (length instructions);
    Ok (kd_decoded st ++ legs)%list
  else Ok (kd_decoded st).

Definition decode_kageb_transaction (confirmed : FetchedTransaction) (transaction_name : text) (evidence : DevnetEvidenceContentV1)
  : result DevnetEvidenceError (list DecodedInstructionEvidenceV1) :=
  '(keys, instructions) ← ok_or DevnetEvidenceError.InvalidTransaction (ct_message (fx_confirmed confirmed));
  decode_kageb_message confirmed transaction_name evidence keys instructions.

(** ** The snapshot *)

(** One turn of the loop over the signatures. *)
Definition fetch_transaction (rpc : EvidenceReplies) (entry : nat * (EvidenceTransactionV1 * (bytes64 * option SignatureStatus)))
  : result DevnetEvidenceError (FinalizedTransactionSnapshotV1 * FetchedTransaction) :=
  let '(index, (expected, (signature, status))) := entry in
  status ← ok_or DevnetEvidenceError.MissingTransaction status;
  let finalized := st_finalized status in
  let succeeded := negb (st_err status) && negb (st_status_err status) in
  fetched ← ok_or DevnetEvidenceError.MissingTransaction (er_transaction rpc index signature);
  ok_or DevnetEvidenceError.InvalidTransaction (ct_message (fx_confirmed fetched)) ;;
  verify_queried_transaction fetched signature ;;
  Ok ({| ft_signature := et_signature expected; ft_slot := fx_slot fetched; ft_status_slot := st_slot status;
         ft_finalized := finalized; ft_succeeded := succeeded |}, fetched).

(** One turn of the loop over the funding transactions. *)
Definition fetch_funding (evidence : DevnetEvidenceContentV1) (st : gset Pubkey * list DecodedInstructionEvidenceV1)
    (entry : nat * (FundingTransactionEvidenceV1 * FetchedTransaction))
  : result DevnetEvidenceError (gset Pubkey * list DecodedInstructionEvidenceV1) :=
  let '(funding_sources, decoded_allowlist) := st in
  let '(index, (funding, transaction)) := entry in
  '(funding_sources, decoded) ← decode_funding_transaction transaction index funding evidence funding_sources;
  Ok (funding_sources, (decoded_allowlist ++ decoded)%list).

Definition fetch_live_token_accounts (rpc : EvidenceReplies) (evidence : DevnetEvidenceContentV1)
  : result DevnetEvidenceError (four PublicAccountSnapshotV1) :=
  let e := dv_accounts evidence in
  let fetch call address := k ← parse_pubkey address; fetch_finalized_account rpc call k in
  a ← fetch 6 (ea_pool_base_vault e);
  b ← fetch 7 (ea_pool_quote_vault e);
  c ← fetch 8 (ea_venue_base_account e);
  d ← fetch 9 (ea_venue_quote_account e);
  Ok (a, b, c, d).

Definition fetch_devnet_public_snapshot (rpc : EvidenceReplies) (bundle : DevnetEvidenceBundleV1)
  : result DevnetEvidenceError DevnetPublicSnapshotV1 :=
  DevnetEvidenceBundleV1_verify_content_hash bundle ;;
  genesis ← ok_or DevnetEvidenceError.RpcUnavailable (er_genesis_hash rpc);
  if genesis != DEVNET_GENESIS_HASH then Err DevnetEvidenceError.WrongGenesis else
  let evidence := db_content bundle in
  let e := dv_accounts evidence in
  program_address ← parse_pubkey (de_program (dv_deployment evidence));
  programdata_address ← parse_pubkey (de_programdata (dv_deployment evidence));
  pool_address ← parse_pubkey (ea_pool e);
  epoch_address ← parse_pubkey (ea_epoch e);
  base_mint_address ← parse_pubkey (ea_base_mint e);
  quote_mint_address ← parse_pubkey (ea_quote_mint e);
  program ← fetch_finalized_account rpc 0 program_address;
  programdata ← fetch_finalized_account rpc 1 programdata_address;
  pool ← fetch_finalized_account rpc 2 pool_address;
  epoch ← fetch_finalized_account rpc 3 epoch_address;
  base_mint ← fetch_finalized_account rpc 4 base_mint_address;
  quote_mint ← fetch_finalized_account rpc 5 quote_mint_address;
  let expected_transactions := evidence_transactions evidence in
  signatures ← try_map (fun t => ok_or DevnetEvidenceError.InvalidPublicField (signature_from_str (et_signature t))) expected_transactions;
  statuses ← ok_or DevnetEvidenceError.RpcUnavailable (er_statuses rpc signatures);
  validate_rpc_response_len (length statuses) (length signatures) ;;
  fetched ← try_map (fetch_transaction rpc)
    (zip (seq 0 (length signatures)) (zip expected_transactions (zip signatures statuses)));
  let transaction_snapshots := map fst fetched in
  let fetched_transactions := map snd fetched in
  '(_, funding_decoded) ← try_fold (fetch_funding evidence) (∅, [])
    (zip (seq 0 4) (zip (four_list (tr_funding (dv_transactions evidence))) fetched_transactions));
  lock ← ok_or DevnetEvidenceError.InvalidTransaction (fetched_transactions !! 4);
  settlement ← ok_or DevnetEvidenceError.InvalidTransaction (fetched_transactions !! 5);
  accounts ← observer_accounts evidence;
  map_err (fun _ => DevnetEvidenceError.InvalidTransaction)
    (PublicTrace_from_confirmed_kageb (fx_confirmed lock) (fx_confirmed settlement) accounts) ;;
  lock_decoded ← decode_kageb_transaction lock (bstr "lock") evidence;
  settlement_decoded ← decode_kageb_transaction settlement (bstr "settlement") evidence;
  token_balances ← transaction_token_balances settlement evidence;
  current_token_accounts ← fetch_live_token_accounts rpc evidence;
  Ok {| sn_program := program; sn_programdata_address := programdata_address; sn_programdata := programdata; sn_pool := pool;
        sn_epoch := epoch; sn_base_mint := base_mint; sn_quote_mint := quote_mint;
        sn_current_token_accounts := current_token_accounts; sn_transactions := transaction_snapshots;
        sn_token_balances := token_balances; sn_decoded_allowlist := (funding_decoded ++ lock_decoded ++ settlement_decoded)%list |}.

Definition verify_devnet_evidence_at_rpc (rpc : EvidenceReplies) (bundle : DevnetEvidenceBundleV1) (checkpoint_artifact : list byte)
  : result DevnetEvidenceError unit :=
  snapshot ← fetch_devnet_public_snapshot rpc bundle;
  verify_devnet_evidence bundle snapshot checkpoint_artifact.
End rpc.
