(* ===== verification/EvidenceFile.v ===== *)
(** * Verifying an evidence file (crates/kageb-host/src/evidence.rs, lines 1036 to 1317)

    The checkpoint artifact, built from the canonical repository or read from a file, and the two
    commands that compare an evidence file with it and with the chain.  The outcomes of commands and
    of file operations are arguments; an error is the message it prints, by its case. *)

From S2P Require Import Prelude Bytes Extern ProgramWire ProgramState ProgramInstruction Ed25519 HostExtern Observer Keyper Evidence EvidenceRpc.

Record CanonicalCheckpointV1 : Type := { cc_artifact : list byte; cc_build_toolchain : EvidenceBuildToolchainV1 }.

Record VerifiableBuildConfigV1 : Type := { vb_schema_version : Z; vb_solana_verify : text; vb_build_image : text }.

(** [serde_json::from_slice(..).ok()] *)
Class BuildCodec : Type := build_config_parse : list byte -> option VerifiableBuildConfigV1.

Inductive FileError : Type :=
| BadCommit | WorkspaceFailed | CommandLaunch (label : text) | CommandFailed (label : text) | CommandNotUtf8 (label : text)
| NotReachable | NotClean | ResolveFailed | VerifyIdentityDiffers | ReadArtifactFailed | ArtifactNotElf
| ReadCheckpointFailed | CheckpointMetadataFailed | CheckpointNotRegular | CheckpointNotElf
| ReadConfigFailed | ParseConfigFailed | InvalidConfig
| ReadStdinFailed | EvidenceNotRegular | EvidenceMetadataFailed | ReadEvidenceFailed | EvidenceTooLong | EvidenceNotUtf8
| ParseEvidence (error : DevnetEvidenceError) | ContentAddress (error : DevnetEvidenceError)
| ToolchainDiffers (field : text) | ArtifactDiffers | VerifyEvidence (error : DevnetEvidenceError).
Global Instance FileError_eq_dec : EqDecision FileError.
Proof. solve_decision. Defined.

(** ** Commands and files *)

(** [Command::output]; standard output is a string of code points, [None] when it is not UTF-8. *)
Inductive CommandRun : Type := NotLaunched | Finished (success : bool) (stdout : option (list Z)).

Definition command_output (command : CommandRun) (label : text) : result FileError (list Z) :=
  match command with
  | NotLaunched => Err (CommandLaunch label)
  | Finished success stdout => if negb success then Err (CommandFailed label) else ok_or (CommandNotUtf8 label) stdout
  end.

(** [str::rsplit_once(':')], the part after the last colon. *)
Fixpoint after_colon (l : text) : option text :=
  match l with
  | [] => None
  | c :: rest => match after_colon rest with Some tail => Some tail | None => if c == byte_of 58 then Some rest else None end
  end.

Definition build_image_prefix : text := bstr "solanafoundation/solana-verifiable-build@sha256:".
Definition MAX_CHECKPOINT_BYTES : Z := 2 * 1024 * 1024.
Definition MAX_EVIDENCE_BYTES : nat := 256 * 256.

(** Everything [build_canonical_checkpoint] runs and reads. *)
Record CheckpointBuild : Type := {
  cb_tempdir : bool;
  cb_clone : CommandRun;
  cb_resolve : CommandRun;
  cb_reachable : CommandRun;
  cb_checkout : CommandRun;
  cb_status : CommandRun;
  cb_config : option (list byte);
  cb_solana_verify : bool;
  cb_version : CommandRun;
  cb_build : CommandRun;
  cb_artifact : option (list byte);
}.

(** An opened file: its metadata and its bytes; [None] is a call that failed. *)
Record OpenedFile : Type := { of_metadata : option Metadata; of_bytes : option (list byte) }.

(** Where the evidence comes from: standard input for the path [-], or a file. *)
Inductive EvidenceInput : Type := FromStdin (bytes : option (list byte)) | FromFile (file : option OpenedFile).

(** [String::from_utf8(..).is_ok()] *)
Fixpoint utf8_ok (fuel : nat) (l : list byte) : bool :=
  match fuel with
  | O => false
  | S fuel =>
      let cont := between 128 191 in
      match l with
      | [] => true
      | a :: rest =>
          if between 0 127 a then utf8_ok fuel rest else
          match rest with
          | b :: rest =>
              if between 194 223 a then cont b && utf8_ok fuel rest else
              match rest with
              | c :: rest =>
                  if between 224 239 a then
                    (if byte_val a =? 224 then between 160 191 b else if byte_val a =? 237 then between 128 159 b else cont b)%Z
                    && cont c && utf8_ok fuel rest
                  else
                  match rest with
                  | d :: rest =>
                      between 240 244 a
                      && (if byte_val a =? 240 then between 144 191 b else if byte_val a =? 244 then between 128 143 b else cont b)%Z
                      && cont c && cont d && utf8_ok fuel rest
                  | [] => false
                  end
              | [] => false
              end
          | [] => false
          end
      end
  end.

Definition read_evidence_input (input : EvidenceInput) : result FileError text :=
  bytes ← match input with
    | FromStdin bytes => bytes ← ok_or ReadStdinFailed bytes; Ok (take (MAX_EVIDENCE_BYTES + 1) bytes)
    | FromFile file =>
        file ← ok_or EvidenceNotRegular file;
        metadata ← ok_or EvidenceMetadataFailed (of_metadata file);
        if negb (md_is_file metadata) then Err EvidenceNotRegular else
        bytes ← ok_or ReadEvidenceFailed (of_bytes file);
        Ok (take (MAX_EVIDENCE_BYTES + 1) bytes)
    end;
  if MAX_EVIDENCE_BYTES <? length bytes then Err EvidenceTooLong else
  if utf8_ok (S (length bytes)) bytes then Ok bytes else Err EvidenceNotUtf8.

(** [find] over the two fields of [build_toolchain_mismatch]. *)
Definition build_toolchain_mismatch (expected observed : EvidenceBuildToolchainV1) : option FileError :=
  if bt_solana_verify expected != bt_solana_verify observed then Some (ToolchainDiffers (bstr "solana_verify")) else
  if bt_build_image expected != bt_build_image observed then Some (ToolchainDiffers (bstr "build_image")) else None.

Section file.
Context `{Sha256} `{Solana} `{Dalek} `{!EvidenceCodec} `{ObserverCodec} `{BuildCodec}.

Definition read_verifiable_build_config (file : option (list byte)) : result FileError EvidenceBuildToolchainV1 :=
  encoded ← ok_or ReadConfigFailed file;
  config ← ok_or ParseConfigFailed (build_config_parse encoded);
  let image := vb_build_image config in
  if (vb_schema_version config != 1%Z) || (vb_solana_verify config != bstr "solana-verify 0.5.1")
     || negb (starts_with build_image_prefix image) || (length image != length build_image_prefix + 64)
     || negb (default false (forallb is_ascii_hexdigit <$> after_colon image))
  then Err InvalidConfig else
  Ok {| bt_solana_verify := vb_solana_verify config; bt_build_image := image |}.

Definition build_canonical_checkpoint (build : CheckpointBuild) (commit : text) : result FileError CanonicalCheckpointV1 :=
  if (length commit != 40) || negb (forallb is_ascii_hexdigit commit) then Err BadCommit else
  if negb (cb_tempdir build) then Err WorkspaceFailed else
  command_output (cb_clone build) (bstr "clone canonical checkpoint") ;;
  command_output (cb_resolve build) (bstr "resolve canonical checkpoint") ;;
  reachable ← command_output (cb_reachable build) (bstr "check canonical checkpoint reachability");
  if match trim reachable with [] => true | _ => false end then Err NotReachable else
  command_output (cb_checkout build) (bstr "checkout canonical checkpoint") ;;
  status ← command_output (cb_status build) (bstr "inspect canonical checkpoint");
  if negb (match trim status with [] => true | _ => false end) then Err NotClean else
  build_toolchain ← read_verifiable_build_config (cb_config build);
  if negb (cb_solana_verify build) then Err ResolveFailed else
  observed_version ← command_output (cb_version build) (bstr "read solana-verify identity");
  if trim observed_version != map byte_val (bt_solana_verify build_toolchain) then Err VerifyIdentityDiffers else
  command_output (cb_build build) (bstr "build canonical checkpoint") ;;
  artifact ← ok_or ReadArtifactFailed (cb_artifact build);
  if negb (starts_with elf_magic artifact) then Err ArtifactNotElf else
  Ok {| cc_artifact := artifact; cc_build_toolchain := build_toolchain |}.

Definition read_verified_checkpoint (config : option (list byte)) (file : option OpenedFile) : result FileError CanonicalCheckpointV1 :=
  file ← ok_or ReadCheckpointFailed file;
  metadata ← ok_or CheckpointMetadataFailed (of_metadata file);
  if negb (md_is_file metadata) || (MAX_CHECKPOINT_BYTES <? md_len metadata)%Z then Err CheckpointNotRegular else
  artifact ← ok_or ReadCheckpointFailed (of_bytes file);
  if negb (starts_with elf_magic artifact) then Err CheckpointNotElf else
  build_toolchain ← read_verifiable_build_config config;
  Ok {| cc_artifact := artifact; cc_build_toolchain := build_toolchain |}.

(** What both commands do once they have a checkpoint; the report names the evidence and the settlement. *)
Definition verify_bundle (rpc : EvidenceReplies) (bundle : DevnetEvidenceBundleV1) (checkpoint : CanonicalCheckpointV1) : result FileError text :=
  match build_toolchain_mismatch (dv_build_toolchain (db_content bundle)) (cc_build_toolchain checkpoint) with
  | Some mismatch => Err mismatch
  | None =>
      let checkpoint_sha256 := hex_digest (sha256 (cc_artifact checkpoint)) in
      if (Z.of_nat (length (cc_artifact checkpoint)) != dv_checkpoint_artifact_len (db_content bundle))
         || (checkpoint_sha256 != dv_checkpoint_artifact_sha256 (db_content bundle))
      then Err ArtifactDiffers else
      map_err VerifyEvidence (verify_devnet_evidence_at_rpc rpc bundle (cc_artifact checkpoint)) ;;
      Ok (bstr "VERIFIED: evidence " ++ db_evidence_sha256 bundle ++ bstr " settlement "
          ++ et_signature (tr_settlement (dv_transactions (db_content bundle))) ++ [byte_of 10])%list
  end.

Definition verify_evidence_file (rpc : EvidenceReplies) (build : CheckpointBuild) (input : EvidenceInput) : result FileError text :=
  json ← read_evidence_input input;
  bundle ← map_err ParseEvidence (DevnetEvidenceBundleV1_from_json json);
  map_err ContentAddress (DevnetEvidenceBundleV1_verify_content_hash bundle) ;;
  checkpoint ← build_canonical_checkpoint build (dv_public_commit (db_content bundle));
  verify_bundle rpc bundle checkpoint.

Definition verify_evidence_file_with_checkpoint (rpc : EvidenceReplies) (config : option (list byte)) (checkpoint : option OpenedFile)
    (input : EvidenceInput) : result FileError text :=
  json ← read_evidence_input input;
  bundle ← map_err ParseEvidence (DevnetEvidenceBundleV1_from_json json);
  map_err ContentAddress (DevnetEvidenceBundleV1_verify_content_hash bundle) ;;
  checkpoint ← read_verified_checkpoint config checkpoint;
  verify_bundle rpc bundle checkpoint.
End file.
