(* ===== verification/EvidenceProps.v ===== *)
(** * What verified evidence establishes

    Inversions of the checks of [Evidence] and [EvidenceRpc]: the deployed bytes, the transactions,
    the program state, the token movements and the signatures behind the published digests. *)

From S2P Require Import Prelude Bytes Extern ProgramWire ProgramState ProgramInstruction Ed25519 Processor ProcessorProps Chain.
From S2P Require Import Domain Ledger HostExtern Observer ObserverProps Evidence EvidenceRpc.

(** ** Chains of conditions and texts *)

Lemma or_else_false {E} (l : list (result E bool)) : or_else l = Ok false <-> Forall (fun r => r = Ok false) l.
Proof.
  induction l as [|r l IH]; cbn [or_else]; [split; constructor|]. rewrite Forall_cons_iff. split.
  - intros Ho. apply bind_Ok in Ho as ([] & Hr & Ho); [done|]. split; [done|]. by apply IH.
  - intros [-> HF]. cbn. by apply IH.
Qed.

Lemma or_else_guard {E A} (l : list (result E bool)) (e : E) (k : result E A) a :
  (or_else l ≫= fun b : bool => if b then Err e else k) = Ok a <-> Forall (fun r => r = Ok false) l /\ k = Ok a.
Proof.
  rewrite <- or_else_false. split.
  - intros Ho. apply bind_Ok in Ho as ([] & Hr & Ho); done.
  - intros [-> Hk]. done.
Qed.

Lemma Ok_false_neq {E} P {D : Decision P} : Ok (E := E) (negb (bool_decide P)) = Ok false <-> P.
Proof.
  split.
  - intros HE%Ok_inj. by apply neqb_false in HE.
  - intros HP. f_equal. by apply neqb_false.
Qed.

Lemma hex_pair b :
  hex_nibble (hex_char (Z.shiftr (byte_val b) 4)) = Ok (Z.shiftr (byte_val b) 4) /\
  hex_nibble (hex_char (Z.land (byte_val b) 15)) = Ok (Z.land (byte_val b) 15) /\
  byte_of (Z.lor (Z.shiftl (Z.shiftr (byte_val b) 4) 4) (Z.land (byte_val b) 15)) = b /\
  is_ascii_hexdigit (hex_char (Z.shiftr (byte_val b) 4)) = true /\ is_ascii_hexdigit (hex_char (Z.land (byte_val b) 15)) = true.
Proof. destruct b; vm_compute; auto. Qed.

Lemma hex_digest_cons b l :
  hex_digest (b :: l) = hex_char (Z.shiftr (byte_val b) 4) :: hex_char (Z.land (byte_val b) 15) :: hex_digest l.
Proof. reflexivity. Qed.

Lemma hex_digest_length l : length (hex_digest l) = 2 * length l.
Proof. induction l as [|b l IH]; [done|]. rewrite hex_digest_cons. cbn [length]. lia. Qed.

Lemma hex_pairs_digest l : hex_pairs (hex_digest l) = Ok l /\ forallb is_ascii_hexdigit (hex_digest l) = true.
Proof.
  induction l as [|b l [IH IHf]]; [done|]. rewrite hex_digest_cons. cbn [hex_pairs forallb].
  destruct (hex_pair b) as (Hh & Hl & Hb & Ah & Al). rewrite Hh, Hl, IH, IHf, Ah, Al. cbn. by rewrite Hb.
Qed.

(** A digest is its hexadecimal text. *)
Lemma parse_hex_digest (d : bytes32) : parse_digest (hex_digest d) = Ok d.
Proof.
  destruct (hex_pairs_digest (arr_list d)) as [HP HF]. unfold parse_digest. rewrite hex_digest_length, HF, length_arr.
  cbn -[hex_pairs hex_digest try_into]. rewrite HP. cbn -[try_into]. by rewrite try_into_arr.
Qed.

Section evidence.
Context `{Sha256} `{Solana} `{Dalek} `{!EvidenceCodec}.

Lemma parse_pubkey_Ok e k : parse_pubkey e = Ok k <-> pubkey_from_str e = Some k.
Proof. apply ok_or_Ok. Qed.

Lemma pubkey_differs_false e k : pubkey_differs e k = Ok false <-> parse_pubkey e = Ok k.
Proof.
  unfold pubkey_differs. split.
  - intros Hd. apply bind_Ok in Hd as (p & Hp & Hd). apply Ok_false_neq in Hd. by subst.
  - intros ->. cbn. by apply Ok_false_neq.
Qed.

Lemma digest_differs_false e d : digest_differs e d = Ok false <-> parse_digest e = Ok d.
Proof.
  unfold digest_differs. split.
  - intros Hd. apply bind_Ok in Hd as (p & Hp & Hd). apply Ok_false_neq in Hd. by subst.
  - intros ->. cbn. by apply Ok_false_neq.
Qed.

(** ** Content addresses *)

Lemma content_hash_exact b u :
  DevnetEvidenceBundleV1_verify_content_hash b = Ok u <->
  db_schema_version b = 1%Z /\ evidence_content_hash (db_content b) = Ok (db_evidence_sha256 b).
Proof.
  destruct u. unfold DevnetEvidenceBundleV1_verify_content_hash. rewrite or_else_guard, !Forall_cons_iff, Ok_false_neq. split.
  - intros [[Hv [Hh _]] _]. apply bind_Ok in Hh as (h & Hh & E). apply Ok_false_neq in E. by subst.
  - intros [Hv Hh]. split; [|done]. split; [done|]. split; [|constructor]. rewrite Hh. cbn. by apply Ok_false_neq.
Qed.

(** ** The deployed program *)

Lemma get_range_split lo hi l x : get_range lo hi l = Some x -> l = take lo l ++ x ++ drop hi l.
Proof.
  intros Hr. apply get_range_Some in Hr as [Hb ->]. unfold slice.
  rewrite <- (take_drop lo l) at 1. f_equal. rewrite <- (take_drop (hi - lo) (drop lo l)) at 1. f_equal.
  rewrite drop_drop. f_equal. lia.
Qed.

Lemma existsb_nonzero l : existsb (fun b => b != x00) l = false -> l = zeros (length l).
Proof. by apply existsb_zeros. Qed.

(** The account is the loader's metadata, the artifact and zeros. *)
Lemma extract_sound program k programdata n x :
  extract_upgradeable_program program k programdata n = Ok x ->
  pa_owner program = UPGRADEABLE_LOADER_ID /\ pa_executable program = true /\
  loader_deserialize (pa_data program) = Some (LoaderProgram k) /\ pa_owner programdata = UPGRADEABLE_LOADER_ID /\
  ex_executable_sha256 x = hex_digest (sha256 (ex_executable x)) /\ starts_with elf_magic (ex_executable x) = true /\
  exists metadata tail, length metadata = programdata_metadata_len /\
    loader_deserialize metadata = Some (LoaderProgramData (ex_deployment_slot x) (ex_upgrade_authority x)) /\
    pa_data programdata = metadata ++ ex_executable x ++ zeros tail.
Proof.
  unfold extract_upgradeable_program. intros E. apply guard_Ok in E as [G1 E]. apply bind_Ok in E as (ps & Hps%ok_or_Ok & E).
  apply bind_Ok in E as (pda & Hpda & E). apply guard_Ok in E as [G2 E]. apply guard_Ok in E as [G3 E]. cbv zeta in E.
  apply bind_Ok in E as (metadata & Hm%ok_or_Ok & E). apply bind_Ok in E as (pds & Hpds%ok_or_Ok & E).
  apply bind_Ok in E as ([slot ua] & Hs & E). apply bind_Ok in E as (fin & Hfin%ok_or_Ok & E).
  apply bind_Ok in E as (exe & Hexe%ok_or_Ok & E). apply guard_Ok in E as [G4 E]. apply guard_Ok in E as [G5 E].
  apply Ok_inj in E as <-. bguard. destruct ps; try done. apply Ok_inj in Hpda as ->. subst pda.
  destruct pds; try done. apply Ok_inj in Hs. injection Hs as -> ->. cbn [ex_executable ex_executable_sha256 ex_deployment_slot ex_upgrade_authority].
  split_and!; try done. apply existsb_nonzero in G5. pose proof (get_range_split _ _ _ _ Hexe) as HS.
  pose proof Hm as Hm'. apply get_range_Some in Hm' as [Hb Hm']. exists metadata, (length (slice_from (Z.to_nat fin) (pa_data programdata))).
  split_and!; [| done |].
  - rewrite Hm'. unfold slice. rewrite length_take, length_drop. lia.
  - rewrite <- G5. rewrite HS at 1. f_equal. rewrite Hm'. unfold slice. by rewrite drop_0, Nat.sub_0_r.
Qed.

(** ** Transactions *)

(** The snapshot shows this transaction finalized, successful and in its slot. *)
Definition finalized_in (snapshots : list FinalizedTransactionSnapshotV1) (t : EvidenceTransactionV1) : Prop :=
  exists f, f ∈ snapshots /\ ft_signature f = et_signature t /\ ft_finalized f = true /\ ft_succeeded f = true /\
    ft_slot f = et_slot t /\ ft_status_slot f = et_slot t.

Definition in_order (evidence : DevnetEvidenceContentV1) : Prop :=
  let deployed := de_deployment_slot (dv_deployment evidence) in
  let locked := et_slot (tr_lock (dv_transactions evidence)) in
  (deployed < locked < et_slot (tr_settlement (dv_transactions evidence)))%Z /\
  Forall (fun f => (deployed < et_slot (fu_transaction f) < locked)%Z) (four_list (tr_funding (dv_transactions evidence))).

Lemma check_transaction_Ok snapshots signatures t signatures' :
  check_transaction snapshots signatures t = Ok signatures' ->
  (et_signature t ∉ signatures) /\ signatures' = {[et_signature t]} ∪ signatures /\ finalized_in snapshots t.
Proof.
  unfold check_transaction. intros E. apply bind_Ok in E as (x & _ & E). apply guard_Ok in E as [Hn E]. cbv zeta in E.
  apply bind_Ok in E as (f & Hf%ok_or_Ok & E). do 4 (apply guard_Ok in E as [? E]). apply Ok_inj in E as <-.
  apply find_some in Hf as [Hin Hf]. bguard. split_and!; [done | done |]. exists f. split_and!; try done. by apply list_elem_of_In.
Qed.

Lemma transactions_fold snapshots l signatures :
  try_fold (check_transaction snapshots) ∅ l = Ok signatures ->
  signatures = list_to_set (map et_signature l) /\ NoDup (map et_signature l) /\ Forall (finalized_in snapshots) l.
Proof.
  intros E. apply (try_fold_inv (fun pre st =>
    st = list_to_set (map et_signature pre) /\ NoDup (map et_signature pre) /\ Forall (finalized_in snapshots) pre)) in E; [done| |].
  - split_and!; [done | constructor | constructor].
  - intros pre t post s1 s2 _ (-> & HN & HF) (Hn & -> & Ht)%check_transaction_Ok. rewrite map_app. cbn [map]. split_and!.
    + rewrite list_to_set_app_L. cbn [list_to_set]. set_solver.
    + apply list.NoDup_app. split_and!; [done | set_solver | apply NoDup_singleton].
    + apply Forall_app. split; [done|]. by apply Forall_singleton.
Qed.

Lemma validate_transactions_sound evidence snapshots u :
  validate_transactions evidence snapshots = Ok u ->
  NoDup (map et_signature (evidence_transactions evidence)) /\ length snapshots = 6 /\
  Forall (finalized_in snapshots) (evidence_transactions evidence) /\ in_order evidence.
Proof.
  unfold validate_transactions. intros E. apply bind_Ok in E as (sigs & (-> & HN & HF)%transactions_fold & E).
  apply guard_Ok in E as [Hl E]. apply guard_Ok in E as [Hc _]. bguard. rewrite size_list_to_set in Hl by done.
  rewrite length_map in Hl. assert (length (evidence_transactions evidence) = 6) as H6.
  { unfold evidence_transactions. by destruct (tr_funding _) as [[[a b] c] d]. }
  split_and!; [done | congruence | done |]. split; [lia|].
  apply list.Forall_forall. intros f Hf. match goal with T : existsb _ _ = false |- _ => rename T into Hx end.
  apply not_true_iff_false in Hx. destruct (Z.lt_ge_cases (de_deployment_slot (dv_deployment evidence)) (et_slot (fu_transaction f))),
    (Z.lt_ge_cases (et_slot (fu_transaction f)) (et_slot (tr_lock (dv_transactions evidence)))); [done|..];
    exfalso; apply Hx, existsb_exists; exists f; (split; [by apply list_elem_of_In|]); apply orb_true_iff; rewrite !Z.leb_le; lia.
Qed.

(** ** Funding *)

(** Four nonzero authorities and eight sources, all different. *)
Definition funded_apart (l : list FundingTransactionEvidenceV1) : Prop :=
  exists authorities sources,
    Forall2 (fun f k => parse_pubkey (fu_authority f) = Ok k) l authorities /\ NoDup authorities /\ (zero32 ∉ authorities) /\
    Forall2 (fun e k => parse_pubkey e = Ok k) (concat (map (fun f => [fu_base_source f; fu_quote_source f]) l)) sources /\ NoDup sources.

Lemma check_source_Ok S e S' : check_source S e = Ok S' -> exists k, parse_pubkey e = Ok k /\ (k ∉ S) /\ S' = {[k]} ∪ S.
Proof.
  unfold check_source. intros E. apply bind_Ok in E as (k & Hk & E). apply guard_Ok in E as [Hn E]. apply Ok_inj in E as <-.
  bguard. by exists k.
Qed.

Lemma funding_fold l A S :
  try_fold check_authority (∅, ∅) l = Ok (A, S) -> funded_apart l.
Proof.
  intros E. apply (try_fold_inv (fun pre st => exists authorities sources,
    Forall2 (fun f k => parse_pubkey (fu_authority f) = Ok k) pre authorities /\ NoDup authorities /\ (zero32 ∉ authorities) /\
    Forall2 (fun e k => parse_pubkey e = Ok k) (concat (map (fun f => [fu_base_source f; fu_quote_source f]) pre)) sources /\ NoDup sources /\
    st.1 = list_to_set authorities /\ st.2 = list_to_set sources)) in E.
  - destruct E as (a & s & ? & ? & ? & ? & ? & _). by exists a, s.
  - exists [], []. split_and!; try done; try constructor. apply not_elem_of_nil.
  - intros pre f post [A1 S1] [A2 S2] _ (as1 & ss1 & HA & HN & HZ & HS & HSN & HA1 & HS1) Hc. cbn [fst snd] in HA1, HS1. subst A1 S1.
    unfold check_authority in Hc. apply bind_Ok in Hc as (k & Hk & Hc). apply guard_Ok in Hc as [Hg Hc].
    apply bind_Ok in Hc as (S' & Hs & Hc). apply Ok_inj in Hc. injection Hc as <- <-. bguard. cbn [try_fold] in Hs.
    apply bind_Ok in Hs as (T1 & (k1 & Hk1 & Hn1 & ->)%check_source_Ok & Hs).
    apply bind_Ok in Hs as (T2 & (k2 & Hk2 & Hn2 & ->)%check_source_Ok & Hs). apply Ok_inj in Hs as <-.
    exists (as1 ++ [k]), (ss1 ++ [k1; k2]). rewrite map_app, concat_app. cbn [map concat app fst snd]. split_and!.
    + apply Forall2_app; [done|]. by repeat constructor.
    + apply list.NoDup_app. split_and!; [done | set_solver | apply NoDup_singleton].
    + set_solver.
    + apply Forall2_app; [done|]. by repeat constructor.
    + apply list.NoDup_app. split_and!; [done | set_solver |]. repeat constructor; set_solver.
    + rewrite list_to_set_app_L. set_solver.
    + rewrite list_to_set_app_L. set_solver.
Qed.

Lemma funding_sound evidence u :
  validate_distinct_funding_authorities evidence = Ok u -> funded_apart (four_list (tr_funding (dv_transactions evidence))).
Proof.
  unfold validate_distinct_funding_authorities. intros E. apply bind_Ok in E as ([A S] & E & _). by eapply funding_fold.
Qed.

(** ** The program's records *)

(** The published accounts, configuration and digests are those of a pool and a settled epoch of the
    program, at their derived addresses. *)
Record published_state (evidence : DevnetEvidenceContentV1) (snapshot : DevnetPublicSnapshotV1)
    (pool : PoolStateV1) (epoch : EpochStateV1) : Prop := {
  ps_pool_owner : pa_owner (sn_pool snapshot) = ID;
  ps_epoch_owner : pa_owner (sn_epoch snapshot) = ID;
  ps_pool : PoolStateV1_decode (pa_data (sn_pool snapshot)) = Ok pool;
  ps_epoch : EpochStateV1_decode (pa_data (sn_epoch snapshot)) = Ok epoch;
  ps_settled : terminal_state epoch = Settled;
  ps_pool_address : pool_address (pl_operator pool) (pl_base_mint pool) (pl_quote_mint pool) = (ep_pool epoch, pool_bump pool);
  ps_epoch_address : parse_pubkey (ea_epoch (dv_accounts evidence)) = Ok (fst (epoch_address (ep_pool epoch) (ep_epoch_id epoch)));
  ps_vault : parse_pubkey (ea_vault_authority (dv_accounts evidence)) = Ok (fst (vault_authority_address (ep_pool epoch)));
  ps_accounts :
    parse_pubkey (ea_operator (dv_accounts evidence)) = Ok (pl_operator pool) /\
    parse_pubkey (ea_pool (dv_accounts evidence)) = Ok (ep_pool epoch) /\
    parse_pubkey (ea_base_mint (dv_accounts evidence)) = Ok (pl_base_mint pool) /\
    parse_pubkey (ea_quote_mint (dv_accounts evidence)) = Ok (pl_quote_mint pool) /\
    parse_pubkey (ea_pool_base_vault (dv_accounts evidence)) = Ok (pl_pool_base_vault pool) /\
    parse_pubkey (ea_pool_quote_vault (dv_accounts evidence)) = Ok (pl_pool_quote_vault pool) /\
    parse_pubkey (ea_venue_authority (dv_accounts evidence)) = Ok (pl_venue_authority pool) /\
    parse_pubkey (ea_venue_base_account (dv_accounts evidence)) = Ok (pl_venue_base_account pool) /\
    parse_pubkey (ea_venue_quote_account (dv_accounts evidence)) = Ok (pl_venue_quote_account pool);
  ps_members : ep_member_count epoch = 4%Z /\ ep_minimum_count epoch = 4%Z;
  ps_keypers : try_map parse_pubkey (three_list (ec_keypers (dv_configuration evidence))) = Ok (keyper_list (pl_keypers pool));
  ps_distinct : NoDup (keyper_list (pl_keypers pool));
  ps_thresholds : pl_lock_threshold pool = 2%Z /\ pl_settlement_threshold pool = 2%Z /\ ec_lock_threshold (dv_configuration evidence) = 2%Z;
  ps_lots : ec_base_lot_atoms (dv_configuration evidence) = ep_base_lot_atoms epoch /\
    pl_base_lot_atoms pool = ep_base_lot_atoms epoch /\
    ec_quote_atoms_per_lot (dv_configuration evidence) = ep_quote_atoms_per_lot epoch;
  ps_lock_digest : parse_digest (co_lock_digest (dv_commitments evidence)) = Ok (ep_lock_digest epoch);
  ps_settlement_digest : parse_digest (co_settlement_digest (dv_commitments evidence)) = Ok (ep_settlement_digest epoch);
  ps_commitments :
    parse_digest (co_configuration_hash (dv_commitments evidence)) = Ok (ep_configuration_hash epoch) /\
    parse_digest (co_pre_balance_root (dv_commitments evidence)) = Ok (ep_pre_balance_root epoch) /\
    parse_digest (co_member_set (dv_commitments evidence)) = Ok (ep_member_root epoch) /\
    parse_digest (co_result (dv_commitments evidence)) = Ok (ep_result_commitment epoch);
}.

Lemma program_state_sound evidence snapshot pool epoch :
  validate_program_state evidence snapshot = Ok (pool, epoch) -> published_state evidence snapshot pool epoch.
Proof.
  unfold validate_program_state. intros E. cbv zeta in E. apply guard_Ok in E as [G1 E].
  apply bind_Ok in E as (p & Hp%map_err_Ok & E). apply bind_Ok in E as (e & He%map_err_Ok & E).
  apply bind_Ok in E as (op & Hop & E). apply bind_Ok in E as (bm & Hbm & E). apply bind_Ok in E as (qm & Hqm & E).
  apply bind_Ok in E as (ep & Hep & E). apply bind_Ok in E as (ee & Hee & E). apply bind_Ok in E as (ev & Hev & E).
  destruct (pool_address op bm qm) as [dp pb] eqn:HPA. destruct (vault_authority_address dp) as [dv vb] eqn:HVA.
  apply bind_Ok in E as (eid & Heid & E). destruct (epoch_address dp eid) as [de eb] eqn:HEA.
  apply or_else_guard in E as [HF E]. rewrite !Forall_cons_iff, !Ok_false_neq, !pubkey_differs_false in HF.
  destruct HF as (-> & -> & -> & Epb & _ & _ & Eop & Ebm & Eqm & V1 & V2 & V3 & V4 & V5 & Epo & Eei & Est & _).
  apply guard_Ok in E as [G2 E]. destruct (ec_keypers (dv_configuration evidence)) as [[k0 k1] k2] eqn:HK.
  apply bind_Ok in E as (y0 & Hy0 & E). apply bind_Ok in E as (y1 & Hy1 & E). apply bind_Ok in E as (y2 & Hy2 & E).
  apply guard_Ok in E as [G3 E]. apply guard_Ok in E as [G4 E]. apply or_else_guard in E as [HD E].
  rewrite !Forall_cons_iff, !digest_differs_false in HD. destruct HD as (D1 & D2 & D3 & D4 & D5 & D6 & _).
  apply bind_Ok in E as (x & _ & E). apply Ok_inj in E. injection E as -> ->. bguard.
  match goal with T : (y0, y1, y2) = _ |- _ => rename T into Hks end.
  match goal with T : size _ = 3 |- _ => rename T into Hsz end.
  split; try done; try (subst; done); try (split_and!; congruence).
  - rewrite Epo, Eei, HEA. done.
  - rewrite Epo, HVA. done.
  - rewrite HK, <- Hks. cbn [three_list try_map keyper_list fst snd]. rewrite Hy0, Hy1, Hy2. done.
  - rewrite <- Hks. apply NoDup_of_size. symmetry. exact Hsz.
Qed.

(** ** Token movements *)

(** The net lots the pool bought from the venue. *)
Definition residual_net (epoch : EpochStateV1) : Z :=
  if (ep_residual_side epoch =? 1)%Z then ep_residual_lots epoch else
  if (ep_residual_side epoch =? 2)%Z then - ep_residual_lots epoch else 0.

(** The settlement moved exactly the residual: base one way and quote the other, between pool and venue. *)
Definition residual_moved (balances : EvidenceTokenBalancesV1) (epoch : EpochStateV1) : Prop :=
  let base := (ep_base_lot_atoms epoch * residual_net epoch)%Z in
  let quote := (ep_quote_atoms_per_lot epoch * residual_net epoch)%Z in
  (tb_pool_base_after balances = tb_pool_base_before balances + base /\
   tb_pool_quote_after balances = tb_pool_quote_before balances - quote /\
   tb_venue_base_after balances = tb_venue_base_before balances - base /\
   tb_venue_quote_after balances = tb_venue_quote_before balances + quote)%Z.

Lemma token_deltas_sound evidence snapshot epoch u :
  validate_token_deltas evidence snapshot epoch = Ok u ->
  sn_token_balances snapshot = dv_token_balances evidence /\ residual_moved (dv_token_balances evidence) epoch.
Proof.
  unfold validate_token_deltas. intros E. do 3 (apply bind_Ok in E as ([] & _ & E)). cbv zeta in E.
  do 4 (apply bind_Ok in E as (? & _ & E)). apply guard_Ok in E as [G E].
  apply bind_Ok in E as (base & [Hb _]%ok_or_Ok%checked_mul_u64_Some & E). apply bind_Ok in E as (quote & [Hq _]%ok_or_Ok%checked_mul_u64_Some & E).
  apply bind_Ok in E as ([[[d1 d2] d3] d4] & Hd & E). apply guard_Ok in E as [Hx _]. bguard. split; [done|].
  injection Hx as X1 X2 X3 X4. unfold residual_moved, residual_net, residual_deltas in *.
  repeat case_match; bguard; try done; apply Ok_inj in Hd; injection Hd as <- <- <- <-; split_and!; try lia; nia.
Qed.

(** ** Decoded instructions *)

Definition carries_digests (commitments : EvidenceCommitmentsV1) (l : list DecodedInstructionEvidenceV1) : Prop :=
  Forall (fun i => expected_digest commitments (di_kind i) = Ok (di_digest i)) l.

Lemma allowlist_sound evidence snapshot threshold u :
  validate_allowlist evidence snapshot threshold = Ok u ->
  sn_decoded_allowlist snapshot = dv_decoded_allowlist evidence /\
  count_kind (bstr "aggregate-settlement") (sn_decoded_allowlist snapshot) = 1 /\
  Z.of_nat (count_kind (bstr "keyper-lock-approval") (sn_decoded_allowlist snapshot)) = ec_lock_threshold (dv_configuration evidence) /\
  Z.of_nat (count_kind (bstr "keyper-settlement-approval") (sn_decoded_allowlist snapshot)) = threshold /\
  carries_digests (dv_commitments evidence) (sn_decoded_allowlist snapshot).
Proof.
  unfold validate_allowlist. intros E. cbv zeta in E. do 3 (apply guard_Ok in E as [? E]). bguard. split_and!; try done.
  apply try_each_Ok in E. revert E. apply Forall_impl. intros i Hi. unfold check_decoded in Hi.
  apply bind_Ok in Hi as (d & Hd & Hi). apply guard_Ok in Hi as [Hg _]. bguard. by rewrite Hg.
Qed.
End evidence.
