(* ===== verification/EvidenceQuorum.v ===== *)
(** * The signatures behind evidence read from the chain

    What [fetch_devnet_public_snapshot] has seen when it returns: the lock and the settlement as the
    observer accepts them, each after two verifiers of different keypers over its own digest. *)

From S2P Require Import Prelude Bytes Extern ProgramWire ProgramState ProgramInstruction Ed25519 Processor ProcessorProps Chain.
From S2P Require Import Domain Ledger HostExtern Settlement Observer ObserverProps Keyper Evidence EvidenceRpc EvidenceFile EvidenceProps.

Lemma hex_digest_inj (a b : bytes32) : hex_digest a = hex_digest b -> a = b.
Proof. intros E. apply (f_equal parse_digest) in E. rewrite !parse_hex_digest in E. by apply Ok_inj in E. Qed.

Section quorum.
Context `{Sha256} `{Solana} `{Dalek} `{!EvidenceCodec} `{ObserverCodec}.

(** Two different keypers signed the digest. *)
Definition signed_by_two (keypers : list Pubkey) (digest : bytes32) : Prop :=
  exists a b signature_a signature_b, a <> b /\ a ∈ keypers /\ b ∈ keypers /\
    dalek_verify_strict a digest signature_a = true /\ dalek_verify_strict b digest signature_b = true.

Lemma verify_ed25519_signed ix p :
  verify_ed25519_instruction ix = Ok p -> exists signature, dalek_verify_strict (ed_signer p) (ed_digest p) signature = true.
Proof.
  unfold verify_ed25519_instruction. intros E. apply bind_Ok in E as (q & _ & E). apply bind_Ok in E as (bytes & _ & E).
  apply bind_Ok in E as (s & _ & E). apply guard_Ok in E as [_ E]. apply guard_Ok in E as [Hv E]. apply Ok_inj in E as ->.
  exists s. by apply negb_false_iff in Hv.
Qed.

(** ** One instruction *)

Lemma decode_approval keys name evidence st position v st' :
  verifies keys v -> decode_kageb_instruction keys name evidence st (position, v) = Ok st' ->
  exists signer digest signature entry, (signer ∉ kd_signers st) /\ kd_signers st' = {[signer]} ∪ kd_signers st /\
    kd_program_digest st' = kd_program_digest st /\ kd_decoded st' = kd_decoded st ++ [entry] /\
    di_digest entry = Some (hex_digest (digest : bytes32)) /\ di_kind entry = approval_kind name /\
    dalek_verify_strict signer digest signature = true.
Proof.
  intros (Hp & _)%verifies_scan E. unfold decode_kageb_instruction in E. rewrite Hp in E. cbn [ok_or mbind result_bind] in E.
  rewrite bool_decide_eq_true_2 in E by done. apply bind_Ok in E as (p & Hv & E). apply verify_ed25519_signed in Hv as [s Hs].
  apply bind_Ok in E as (signers & Hi & E). unfold insert_signer in Hi. apply guard_Ok in Hi as [Hn Hi]. apply Ok_inj in Hi as <-.
  apply guard_Ok in E as [_ E]. apply Ok_inj in E as <-. bguard. eexists _, (ed_digest p), s, _. by split_and!.
Qed.

Lemma decode_program keys name evidence st position ci i st' :
  ed25519_program_id <> ID -> key_at keys (ci_program_id_index ci) = Some ID ->
  ci_data ci = KagebInstruction_encode i -> KagebInstruction_wf i ->
  decode_kageb_instruction keys name evidence st (position, ci) = Ok st' ->
  exists kind digest entry, program_kind name evidence i = Ok (kind, digest) /\ kd_signers st' = kd_signers st /\
    kd_program_digest st' = Some digest /\ kd_decoded st' = kd_decoded st ++ [entry] /\
    di_digest entry = Some (hex_digest digest) /\ di_kind entry = kind.
Proof.
  intros Hne Hp Hd HW E. unfold decode_kageb_instruction in E. rewrite Hp in E. cbn [ok_or mbind result_bind] in E.
  rewrite (bool_decide_eq_false_2 (ID = _)) in E by done. rewrite (bool_decide_eq_true_2 (ID = ID)) in E by done.
  rewrite Hd, KagebInstruction_decode_encode in E by done. cbn [map_err] in E.
  apply bind_Ok in E as (j & Hj%Ok_inj & E). subst j. apply bind_Ok in E as ([kind digest] & Hk & E).
  apply guard_Ok in E as [_ E]. apply Ok_inj in E as <-. eexists kind, digest, _. by split_and!.
Qed.

(** ** One message *)

Lemma decode_message confirmed name evidence keys v1 v2 ci i decoded :
  ed25519_program_id <> ID -> verifies keys v1 -> verifies keys v2 ->
  key_at keys (ci_program_id_index ci) = Some ID -> ci_data ci = KagebInstruction_encode i -> KagebInstruction_wf i ->
  decode_kageb_message confirmed name evidence keys [v1; v2; ci] = Ok decoded ->
  exists keypers kind digest entry, try_map parse_pubkey (three_list (ec_keypers (dv_configuration evidence))) = Ok keypers /\
    program_kind name evidence i = Ok (kind, digest) /\ signed_by_two keypers digest /\
    entry ∈ decoded /\ di_kind entry = kind /\ di_digest entry = Some (hex_digest digest).
Proof.
  intros Hne V1 V2 Hp Hd HW E. unfold decode_kageb_message in E. apply bind_Ok in E as (st & Hf & E).
  cbn [length seq zip zip_with try_fold] in Hf.
  apply bind_Ok in Hf as (st1 & (a & da & sa & e1 & Na & Sa & P1 & D1 & X1 & _ & Va)%decode_approval & Hf); [|done].
  apply bind_Ok in Hf as (st2 & (b & db & sb & e2 & Nb & Sb & P2 & D2 & X2 & _ & Vb)%decode_approval & Hf); [|done].
  apply bind_Ok in Hf as (st3 & HI & Hf). apply Ok_inj in Hf as ->.
  eapply decode_program in HI as (kind & digest & e3 & Hk & S3 & P3 & D3 & X3 & K3); [|done..].
  rewrite P3 in E. cbn [ok_or] in E. apply bind_Ok in E as (actual & Ha%Ok_inj & E). subst actual.
  apply guard_Ok in E as [Hx E]. apply bind_Ok in E as (keypers & HK & E). apply guard_Ok in E as [HS E].
  cbn [kd_decoded] in D1. rewrite D3, D2, D1 in Hx. cbn [app existsb] in Hx. rewrite X1, X2, X3 in Hx. bguard.
  assert (da = digest) as -> by (apply hex_digest_inj; congruence). assert (db = digest) as -> by (apply hex_digest_inj; congruence).
  rewrite S3, Sb, Sa in *. cbn [kd_signers] in *.
  exists keypers, kind, digest, e3. split_and!; try done.
  - exists a, b, sa, sb. split_and!; try done; set_solver.
  - case_match; inv_ok; subst; rewrite ?D3; set_solver.
Qed.

(** ** The published settlement *)

(** The digest is taken over the very payload the program rebuilds from its records. *)
Lemma published_settlement_full evidence snapshot pool epoch c full :
  published_state evidence snapshot pool epoch -> published_settlement evidence c = Ok full ->
  full = full_payload (fst (epoch_address (ep_pool epoch) (ep_epoch_id epoch))) pool epoch c.
Proof.
  intros PS E. destruct (ps_accounts _ _ _ _ PS) as (_ & _ & A1 & A2 & A3 & A4 & A5 & A6 & A7). destruct (ps_lots _ _ _ _ PS) as (L1 & _ & L2).
  unfold published_settlement in E. cbv zeta in E.
  rewrite (ps_epoch_address _ _ _ _ PS), (ps_lock_digest _ _ _ _ PS), A1, A2, A3, A4, A6, A7, A5, L1, L2 in E. cbn in E.
  by apply Ok_inj in E as <-.
Qed.

Lemma observer_accounts_published evidence snapshot pool epoch accounts :
  published_state evidence snapshot pool epoch -> observer_accounts evidence = Ok accounts ->
  ko_epoch accounts = fst (epoch_address (ep_pool epoch) (ep_epoch_id epoch)) /\ ko_pool accounts = ep_pool epoch.
Proof.
  intros PS E. destruct (ps_accounts _ _ _ _ PS) as (_ & Ap & _). unfold observer_accounts in E. cbv zeta in E.
  do 12 (apply bind_Ok in E as (? & ? & E)). apply Ok_inj in E as <-. cbn [ko_epoch ko_pool].
  pose proof (ps_epoch_address _ _ _ _ PS). split; congruence.
Qed.

(** ** The snapshot *)

(** What the snapshot was made of. *)
Record fetched_from (rpc : EvidenceReplies) (evidence : DevnetEvidenceContentV1) (snapshot : DevnetPublicSnapshotV1)
    (lock settlement : FetchedTransaction) (accounts : KagebObserverAccounts)
    (funding_decoded lock_decoded settlement_decoded : list DecodedInstructionEvidenceV1) : Prop := {
  fr_genesis : er_genesis_hash rpc = Some DEVNET_GENESIS_HASH;
  fr_programdata : er_account rpc 1 (sn_programdata_address snapshot) = Some (Some (sn_programdata snapshot));
  fr_pool : exists k, parse_pubkey (ea_pool (dv_accounts evidence)) = Ok k /\ er_account rpc 2 k = Some (Some (sn_pool snapshot));
  fr_epoch : exists k, parse_pubkey (ea_epoch (dv_accounts evidence)) = Ok k /\ er_account rpc 3 k = Some (Some (sn_epoch snapshot));
  fr_accounts : observer_accounts evidence = Ok accounts;
  fr_trace : exists t, PublicTrace_from_confirmed_kageb (fx_confirmed lock) (fx_confirmed settlement) accounts = Ok t;
  fr_lock : decode_kageb_transaction lock (bstr "lock") evidence = Ok lock_decoded;
  fr_settlement : decode_kageb_transaction settlement (bstr "settlement") evidence = Ok settlement_decoded;
  fr_balances : transaction_token_balances settlement evidence = Ok (sn_token_balances snapshot);
  fr_allowlist : sn_decoded_allowlist snapshot = funding_decoded ++ lock_decoded ++ settlement_decoded;
}.

Lemma fetch_account_Ok rpc call k a : fetch_finalized_account rpc call k = Ok a <-> er_account rpc call k = Some (Some a).
Proof.
  unfold fetch_finalized_account. rewrite bind_Ok. setoid_rewrite ok_or_Ok. split.
  - intros (r & Hr & ->). done.
  - intros E. by exists (Some a).
Qed.

Lemma fetch_snapshot_sound rpc bundle snapshot :
  fetch_devnet_public_snapshot rpc bundle = Ok snapshot ->
  exists lock settlement accounts fd ld sd, fetched_from rpc (db_content bundle) snapshot lock settlement accounts fd ld sd.
Proof.
  unfold fetch_devnet_public_snapshot. intros E. apply bind_Ok in E as ([] & _ & E).
  apply bind_Ok in E as (genesis & Hg%ok_or_Ok & E). apply guard_Ok in E as [Hge%neqb_false E]. cbv zeta in E.
  apply bind_Ok in E as (k0 & _ & E). apply bind_Ok in E as (k1 & HK1 & E). apply bind_Ok in E as (k2 & HK2 & E).
  apply bind_Ok in E as (k3 & HK3 & E). apply bind_Ok in E as (k4 & _ & E). apply bind_Ok in E as (k5 & _ & E).
  apply bind_Ok in E as (program & _ & E). apply bind_Ok in E as (programdata & A1%fetch_account_Ok & E).
  apply bind_Ok in E as (pool & A2%fetch_account_Ok & E). apply bind_Ok in E as (epoch & A3%fetch_account_Ok & E).
  apply bind_Ok in E as (bm & _ & E). apply bind_Ok in E as (qm & _ & E).
  apply bind_Ok in E as (sigs & _ & E). apply bind_Ok in E as (statuses & _ & E). apply bind_Ok in E as ([] & _ & E).
  apply bind_Ok in E as (fetched & _ & E). apply bind_Ok in E as ([sources fd] & _ & E).
  apply bind_Ok in E as (lock & _ & E). apply bind_Ok in E as (settlement & _ & E).
  apply bind_Ok in E as (accounts & HA & E). apply bind_Ok in E as (t & Ht%map_err_Ok & E).
  apply bind_Ok in E as (ld & Hld & E). apply bind_Ok in E as (sd & Hsd & E). apply bind_Ok in E as (tb & Htb & E).
  apply bind_Ok in E as (live & _ & E). apply Ok_inj in E as <-.
  exists lock, settlement, accounts, fd, ld, sd. split; cbn; try done; try (by eexists). by rewrite Hg, Hge.
Qed.

(** One of the two transactions: two keypers signed the digest of its payload, and the published
    digest of its kind is that digest. *)
Lemma message_signed tx evidence snapshot pool epoch name L fee all accts i decoded commitments :
  ed25519_program_id <> ID -> published_state evidence snapshot pool epoch ->
  decode_confirmed (fx_confirmed tx) = Ok L ->
  shows L fee all {| ix_program_id := ID; ix_accounts := accts; ix_data := KagebInstruction_encode i |} -> KagebInstruction_wf i ->
  decode_kageb_transaction tx name evidence = Ok decoded -> carries_digests commitments decoded ->
  exists kind digest, program_kind name evidence i = Ok (kind, digest) /\ signed_by_two (keyper_list (pl_keypers pool)) digest /\
    expected_digest commitments kind = Ok (Some (hex_digest digest)).
Proof.
  intros Hne PS HL (_ & _ & _ & v1 & v2 & ci & HI & V1 & V2 & Hp & _ & Hd) HW E HC.
  unfold decode_kageb_transaction in E. apply bind_Ok in E as ([keys instrs] & Hm%ok_or_Ok & E).
  unfold decode_confirmed in HL. apply bind_Ok in HL as (meta & _ & HL). apply guard_Ok in HL as [_ HL].
  rewrite Hm in HL. cbn [ok_or mbind result_bind] in HL. apply Ok_inj in HL as <-. cbn [dc_instructions dc_keys] in *. subst instrs.
  apply (decode_message tx name evidence keys v1 v2 ci i) in E as (ks & kind & digest & e & HK & Hk & Hs & He & Hke & Hde); try done.
  rewrite (ps_keypers _ _ _ _ PS) in HK. apply Ok_inj in HK as <-. exists kind, digest. split_and!; [done | done |].
  unfold carries_digests in HC. rewrite list.Forall_forall in HC. specialize (HC _ He). by rewrite Hke, Hde in HC.
Qed.

Lemma carries_app commitments a b : carries_digests commitments (a ++ b) -> carries_digests commitments a /\ carries_digests commitments b.
Proof. unfold carries_digests. by rewrite Forall_app. Qed.

Lemma verify_evidence_sound bundle snapshot artifact :
  verify_devnet_evidence bundle snapshot artifact = Ok tt ->
  exists pool epoch, let evidence := db_content bundle in
    DevnetEvidenceBundleV1_verify_content_hash bundle = Ok tt /\ published_state evidence snapshot pool epoch /\
    (exists x, validate_deployment evidence snapshot artifact = Ok x) /\ validate_transactions evidence (sn_transactions snapshot) = Ok tt /\
    funded_apart (four_list (tr_funding (dv_transactions evidence))) /\
    sn_token_balances snapshot = dv_token_balances evidence /\ residual_moved (dv_token_balances evidence) epoch /\
    validate_allowlist evidence snapshot 2 = Ok tt.
Proof.
  unfold verify_devnet_evidence. intros E. apply bind_Ok in E as ([] & HH & E). cbv zeta in E. apply bind_Ok in E as ([] & _ & E).
  apply bind_Ok in E as ([] & HD & E). apply bind_Ok in E as ([] & HT & E). apply bind_Ok in E as ([] & HF%funding_sound & E).
  apply bind_Ok in E as ([pool epoch] & PS%program_state_sound & E). apply bind_Ok in E as ([] & [HB HR]%token_deltas_sound & E).
  apply bind_Ok in E as ([] & HA & _). destruct (ps_thresholds _ _ _ _ PS) as (_ & Ht & _). rewrite Ht in HA.
  exists pool, epoch. cbv zeta. split_and!; try done. by exists tt.
Qed.

(** The deployed account is metadata, the artifact and zeros. *)
Lemma deployment_sound evidence snapshot artifact u :
  validate_deployment evidence snapshot artifact = Ok u ->
  exists metadata tail, pa_data (sn_programdata snapshot) = metadata ++ artifact ++ zeros tail /\
    length metadata = programdata_metadata_len /\ dv_checkpoint_artifact_sha256 evidence = hex_digest (sha256 artifact).
Proof.
  unfold validate_deployment. intros E. cbv zeta in E. apply bind_Ok in E as (k & _ & E). apply guard_Ok in E as [_ E].
  apply bind_Ok in E as (x & Hx & E). apply bind_Ok in E as (ua & _ & E). apply guard_Ok in E as [G _]. bguard.
  apply extract_sound in Hx as (_ & _ & _ & _ & Hs & _ & metadata & tail & Hl & _ & Hd). exists metadata, tail. split_and!; congruence.
Qed.
End quorum.

(** ** What verification at a node establishes *)

Section facts.
Context `{Sha256} `{Solana} `{Dalek} `{!EvidenceCodec} `{ObserverCodec}.

(** The pool and the settled epoch the node holds under the program, and the payloads that two keypers
    each signed: the lock, and the settlement exactly as the program rebuilds it from its records. *)
Definition quorum_shown (rpc : EvidenceReplies) (pool : PoolStateV1) (epoch : EpochStateV1) : Prop :=
  exists pool_account epoch_account payload compact,
    let epoch_key := fst (epoch_address (ep_pool epoch) (ep_epoch_id epoch)) in
    er_account rpc 2 (ep_pool epoch) = Some (Some pool_account) /\ pa_owner pool_account = ID /\
    PoolStateV1_decode (pa_data pool_account) = Ok pool /\
    er_account rpc 3 epoch_key = Some (Some epoch_account) /\ pa_owner epoch_account = ID /\
    EpochStateV1_decode (pa_data epoch_account) = Ok epoch /\ terminal_state epoch = Settled /\
    lp_epoch_account payload = epoch_key /\ (4 <= lp_member_count payload)%Z /\
    LockPayloadV1_digest payload = ep_lock_digest epoch /\
    signed_by_two (keyper_list (pl_keypers pool)) (ep_lock_digest epoch) /\
    SettlementPayloadV1_digest (full_payload epoch_key pool epoch compact) = ep_settlement_digest epoch /\
    signed_by_two (keyper_list (pl_keypers pool)) (ep_settlement_digest epoch).

Lemma expected_lock c d : expected_digest c (bstr "epoch-lock") = Ok (Some d) -> co_lock_digest c = d.
Proof. cbn. by intros [= ->]. Qed.

Lemma expected_settlement c d : expected_digest c (bstr "aggregate-settlement") = Ok (Some d) -> co_settlement_digest c = d.
Proof. cbn. by intros [= ->]. Qed.

Lemma settlement_wf s residual :
  residual_wire residual = (sp_residual_side s, sp_residual_lots s) -> u32_ok (sp_residual_lots s) ->
  KagebInstruction_wf (Settle (CompactSettlementPayload_from s)).
Proof. intros Hw HU. split; [|done]. cbn. destruct residual; injection Hw as <- _; unfold u8_ok; lia. Qed.

Lemma quorum_of_fetch rpc bundle snapshot pool epoch :
  ed25519_program_id <> ID -> fetch_devnet_public_snapshot rpc bundle = Ok snapshot ->
  published_state (db_content bundle) snapshot pool epoch ->
  carries_digests (dv_commitments (db_content bundle)) (sn_decoded_allowlist snapshot) ->
  quorum_shown rpc pool epoch.
Proof.
  intros Hne HF PS HC. apply fetch_snapshot_sound in HF as (lock & settlement & accounts & fd & ld & sd & FR).
  destruct (observer_accounts_published _ _ _ _ _ PS (fr_accounts _ _ _ _ _ _ _ _ _ FR)) as [Ke _].
  destruct (fr_trace _ _ _ _ _ _ _ _ _ FR) as [t Ht].
  apply pooled_trace_sound in Ht as (L & S & payload & s & residual & HL & HS & (SL & WL & HE & HM & SS & WS & HW & _) & _); [|done].
  rewrite (fr_allowlist _ _ _ _ _ _ _ _ _ FR) in HC. apply carries_app in HC as [_ HC]. apply carries_app in HC as [HCl HCs].
  destruct (message_signed _ _ _ _ _ _ _ _ _ _ (Lock payload) _ _ Hne PS HL SL WL (fr_lock _ _ _ _ _ _ _ _ _ FR) HCl) as (kl & dl & Pl & Ql & El).
  apply settlement_wf in HW; [|done].
  destruct (message_signed _ _ _ _ _ _ _ _ _ _ _ _ _ Hne PS HS SS HW (fr_settlement _ _ _ _ _ _ _ _ _ FR) HCs) as (ks & ds & Ps & Qs & Es).
  cbn [program_kind] in Pl, Ps. rewrite bool_decide_eq_true_2 in Pl, Ps by done. apply Ok_inj in Pl. injection Pl as <- <-.
  apply bind_Ok in Ps as (full & Hfull & Ps). apply Ok_inj in Ps. injection Ps as <- <-.
  apply (published_settlement_full _ _ _ _ _ _ PS) in Hfull as ->. apply expected_lock in El. apply expected_settlement in Es.
  pose proof (ps_lock_digest _ _ _ _ PS) as Dl. pose proof (ps_settlement_digest _ _ _ _ PS) as Ds.
  rewrite El, parse_hex_digest in Dl. rewrite Es, parse_hex_digest in Ds. apply Ok_inj in Dl, Ds.
  destruct (fr_pool _ _ _ _ _ _ _ _ _ FR) as (k2 & P2 & A2). destruct (fr_epoch _ _ _ _ _ _ _ _ _ FR) as (k3 & P3 & A3).
  destruct (ps_accounts _ _ _ _ PS) as (_ & Ap & _). rewrite Ap in P2. apply Ok_inj in P2 as <-.
  rewrite (ps_epoch_address _ _ _ _ PS) in P3. apply Ok_inj in P3 as <-.
  exists (sn_pool snapshot), (sn_epoch snapshot), payload, (CompactSettlementPayload_from s).
  pose proof (ps_pool_owner _ _ _ _ PS). pose proof (ps_epoch_owner _ _ _ _ PS). pose proof (ps_pool _ _ _ _ PS).
  pose proof (ps_epoch _ _ _ _ PS). pose proof (ps_settled _ _ _ _ PS). rewrite Dl in Ql. rewrite Ds in Qs. rewrite Ke in HE. by split_and!.
Qed.

(** The line that reports it. *)
Definition verified_line (bundle : DevnetEvidenceBundleV1) : text :=
  (bstr "VERIFIED: evidence " ++ db_evidence_sha256 bundle ++ bstr " settlement "
   ++ et_signature (tr_settlement (dv_transactions (db_content bundle))) ++ [x0a])%list.

(** What is left of a verification once the checkpoint is there. *)
Lemma verify_bundle_sound rpc bundle checkpoint report :
  ed25519_program_id <> ID -> verify_bundle rpc bundle checkpoint = Ok report ->
  report = verified_line bundle /\
  exists pool epoch programdata metadata tail,
    (exists k, parse_pubkey (de_programdata (dv_deployment (db_content bundle))) = Ok k /\ er_account rpc 1 k = Some (Some programdata)) /\
    pa_data programdata = metadata ++ cc_artifact checkpoint ++ zeros tail /\ length metadata = programdata_metadata_len /\
    quorum_shown rpc pool epoch /\ residual_moved (dv_token_balances (db_content bundle)) epoch.
Proof.
  intros Hne E. unfold verify_bundle in E. case_match; [done|]. cbv zeta in E. apply guard_Ok in E as [_ E].
  apply bind_Ok in E as ([] & HV%map_err_Ok & E). apply Ok_inj in E. split; [done|].
  unfold verify_devnet_evidence_at_rpc in HV. apply bind_Ok in HV as (snapshot & HF & HV).
  apply verify_evidence_sound in HV as (pool & epoch & _ & PS & (x & HD) & _ & _ & _ & HR & HA%allowlist_sound).
  destruct HA as (_ & _ & _ & _ & HC). pose proof (quorum_of_fetch _ _ _ _ _ Hne HF PS HC) as HQ.
  pose proof HD as HD'. unfold validate_deployment in HD'. cbv zeta in HD'. apply bind_Ok in HD' as (k & HK & HD').
  apply guard_Ok in HD' as [Hpk%neqb_false _]. apply deployment_sound in HD as (metadata & tail & Hd & Hl & _).
  apply fetch_snapshot_sound in HF as (? & ? & ? & ? & ? & ? & FR). pose proof (fr_programdata _ _ _ _ _ _ _ _ _ FR) as HP.
  exists pool, epoch, (sn_programdata snapshot), metadata, tail. split_and!; try done. exists k. by rewrite Hpk in *.
Qed.
End facts.
