(* ===== verification/Deploy.v ===== *)
(** * Deploying the published checkpoint (crates/kageb-host/src/demo.rs, lines 73 to 149 and 1595 to 2132)

    How the demonstration finds out what runs under the fixed program address, decides whether to
    deploy, what the payer must hold, and how one attempt to deploy goes and cleans up.  Replies of
    the node, files, keys and the command's outcome are arguments; an error is the message it
    prints, by its case. *)

From S2P Require Import Prelude Bytes Extern ProgramWire ProgramState ProgramInstruction HostExtern Observer Keyper Evidence EvidenceRpc EvidenceFile.

Inductive DemoError : Type :=
| InitialKeyRequired | NotUpgradeAuthority | PeakBalanceOverflow | LockDeadlineOverflow | AbortDeadlineOverflow | AuthorizationSlotOverflow
| RepositoryRoot | RepositoryLaunch | RepositoryCommand | RepositoryNotUtf8 | RepositoryDirty | Checkpoint (error : FileError)
| NotLoaderProgram | ProgramMetadataMalformed | UnexpectedProgramData | ProgramDataInvalid | ProgramDataMalformed | ExecutableNotElf
| ReadProgram | ReadProgramData | DeploymentIncomplete | ExtractDeployment (error : DevnetEvidenceError)
| ProgramKeyMissing | ResolveProgramKey | ProgramKeyInRepository | ReadProgramKey | ProgramKeyDiffers
| ReadMintRent | ReadTokenRent | ReadStateRent | SetupOverflow | ReadProgramRent | ReadProgramDataRent | ReadBufferRent
| ReadBalance | PayerNeeds (required available : Z)
| EncodePrivateKey | CreatePrivateFile | WritePrivateFile | CreateSignerDirectory | SecureSignerDirectory | InitialKeyMissing
| NotOnPath (executable : text) | NotExecutable (source path : text) | CargoNotFound | BufferAndSignerCleanupFailed (buffer : Pubkey) | SignerCleanupFailed | BufferCleanupFailed (buffer : Pubkey)
| DeployFailed | DeployNotLaunched
| StatusUnavailable | TransactionFailed | TransactionUnavailable | NotFinalized
| InvalidProgramId | FixedProgramRequired | WouldOverwrite | ReadGenesis | NotDevnet | ReadPayer | LocateExecutable
| CreateKeyperRuntime | SecureKeyperRuntime | CreatePrivateRuntime | SecurePrivateRuntime | ResolvePrivateRuntime | CreatePrivateRun | DeploymentMissing | DeployedDiffers | NotProvisionalAuthority.
Global Instance DemoError_eq_dec : EqDecision DemoError.
Proof. solve_decision. Defined.

(** ** Texts and paths *)

(** UTF-8 bytes of a string of code points. *)
Definition utf8_char (c : Z) : text :=
  let cont shift := byte_of (128 + Z.land (Z.shiftr c shift) 63) in
  if (c <? 128)%Z then [byte_of c] else
  if (c <? 2048)%Z then [byte_of (192 + Z.shiftr c 6); cont 0%Z] else
  if (c <? 65536)%Z then [byte_of (224 + Z.shiftr c 12); cont 6%Z; cont 0%Z] else
  [byte_of (240 + Z.shiftr c 18); cont 12%Z; cont 6%Z; cont 0%Z].
Definition utf8_bytes (s : list Z) : text := concat (map utf8_char s).

(** [Path::join] with a relative name. *)
Definition path_join (directory name : text) : text :=
  match list.last directory with
  | None => name
  | Some c => if c == byte_of 47 then directory ++ name else directory ++ byte_of 47 :: name
  end.

(** [Path::starts_with] of canonical paths, by components. *)
Definition path_starts_with (root path : text) : bool :=
  (path == root) || starts_with (path_join root []) path.

(** [str::to_ascii_lowercase] *)
Definition ascii_lower (c : byte) : byte := if between 65 90 c then byte_of (byte_val c + 32) else c.

(** ** Tools (lines 2948 to 3011) *)

(** The environment and the file system as the lookups see them; [PATH] split into its directories. *)
Record Environment : Type := {
  en_cargo : option text;
  en_path : option (list text);
  en_cargo_home : option text;
  en_home : option text;
  en_metadata : text -> option Metadata;
}.

Definition is_executable (env : Environment) (candidate : text) : bool :=
  match en_metadata env candidate with
  | Some metadata => md_is_file metadata && (Z.land (md_mode metadata) 73 != 0%Z)
  | None => false
  end.

(** [EXE_SUFFIX] is empty on Unix. *)
Definition executable_file_name (executable : text) : text := executable.

Definition executable_on_path (env : Environment) (executable : text) : option text :=
  path ← en_path env;
  List.find (is_executable env) (map (fun directory => path_join directory (executable_file_name executable)) path).

Definition resolve_on_path (env : Environment) (executable : text) : result DemoError text :=
  ok_or (NotOnPath executable) (executable_on_path env executable).

Definition verified_executable (env : Environment) (candidate source : text) : result DemoError text :=
  if is_executable env candidate then Ok candidate else Err (NotExecutable source candidate).

(** [Path::exists] *)
Definition candidate_exists (env : Environment) (path : text) : bool := match en_metadata env path with Some _ => true | None => false end.

Definition resolve_cargo (env : Environment) : result DemoError text :=
  let in_home (_ : unit) :=
    match en_home env with
    | Some home =>
        let cargo := path_join (path_join home (bstr ".cargo/bin")) (executable_file_name (bstr "cargo")) in
        if candidate_exists env cargo then verified_executable env cargo (bstr "HOME/.cargo/bin/cargo") else Err CargoNotFound
    | None => Err CargoNotFound
    end in
  match en_cargo env with
  | Some cargo => verified_executable env cargo (bstr "CARGO")
  | None =>
      match executable_on_path env (bstr "cargo") with
      | Some cargo => Ok cargo
      | None =>
          match en_cargo_home env with
          | Some cargo_home =>
              let cargo := path_join (path_join cargo_home (bstr "bin")) (executable_file_name (bstr "cargo")) in
              if candidate_exists env cargo then verified_executable env cargo (bstr "CARGO_HOME/bin/cargo") else in_home tt
          | None => in_home tt
          end
      end
  end.

(** ** What to deploy *)

Inductive DevnetDeploymentAction : Type := Noop | Initial | Upgrade.
Global Instance DevnetDeploymentAction_eq_dec : EqDecision DevnetDeploymentAction.
Proof. solve_decision. Defined.

Record DeployedCheckpointDiscovery : Type := { dc_upgrade_authority : option Pubkey; dc_artifact_matches : bool }.

Record DevnetPeakRents : Type := { rn_setup : Z; rn_program : Z; rn_programdata : Z; rn_buffer : Z; rn_fees : Z }.

Definition select_deployment_action (deployed : option DeployedCheckpointDiscovery) (payer : Pubkey) (initial_program_key : option Pubkey)
  : result DemoError DevnetDeploymentAction :=
  match deployed with
  | None => if initial_program_key != Some ID then Err InitialKeyRequired else Ok Initial
  | Some deployed =>
      if dc_artifact_matches deployed then Ok Noop else
      if dc_upgrade_authority deployed != Some payer then Err NotUpgradeAuthority else Ok Upgrade
  end.

Definition required_peak_balance (action : DevnetDeploymentAction) (rents : DevnetPeakRents) : result DemoError Z :=
  required ← ok_or PeakBalanceOverflow (checked_add_u64 (rn_setup rents) (rn_fees rents));
  match action with
  | Noop => Ok required
  | Upgrade => ok_or PeakBalanceOverflow (checked_add_u64 required (rn_buffer rents))
  | Initial =>
      ok_or PeakBalanceOverflow
        (value ← checked_add_u64 required (rn_program rents);
         value ← checked_add_u64 value (rn_programdata rents);
         checked_add_u64 value (rn_buffer rents))
  end.

(** [i64::checked_add] *)
Definition checked_add_i64 (a b : Z) : option Z := if ((- 2 ^ 63 <=? a + b) && (a + b <? 2 ^ 63))%Z then Some (a + b)%Z else None.

Definition checked_devnet_deadlines (now current_slot : Z) : result DemoError (Z * Z * Z) :=
  lock ← ok_or LockDeadlineOverflow (checked_add_i64 now 300);
  abort ← ok_or AbortDeadlineOverflow (checked_add_i64 now 900);
  slot ← ok_or AuthorizationSlotOverflow (checked_add_u64 current_slot 2000);
  Ok (lock, abort, slot).

(** The loader's account sizes and the token program's; [serde_json::to_vec] of a key's bytes. *)
Class DeployCodec : Type := {
  loader_program_len : nat;
  loader_programdata_len : nat -> nat;
  loader_buffer_len : nat -> nat;
  mint_len : nat;
  token_account_len : nat;
  json_key_bytes : list byte -> option (list byte);
  (** [UpgradeableLoaderInstruction::Close] in bincode *)
  loader_close_data : list byte;
}.

(** [solana_keypair::Keypair]: its public key and its 64 bytes. *)
Record Keypair : Type := { ky_pubkey : Pubkey; ky_bytes : list byte }.

(** ** The repository *)

Definition command_stdout (command : CommandRun) : result DemoError (list Z) :=
  match command with
  | NotLaunched => Err RepositoryLaunch
  | Finished success stdout => if negb success then Err RepositoryCommand else ok_or RepositoryNotUtf8 stdout
  end.

(** What [clean_public_checkpoint_artifact] runs and reads; [rp_given] is the file named on the
    command line, when one was named. *)
Record Repository : Type := {
  rp_root : bool;
  rp_status : CommandRun;
  rp_head : CommandRun;
  rp_given : option (option OpenedFile);
  rp_config : option (list byte);
  rp_build : text -> CheckpointBuild;
}.

(** ** The node and the keys *)

(** The replies, accounts by the number of the call; [None] is a failed request. *)
Record DeployReplies : Type := {
  dr_genesis_hash : option text;
  dr_account : nat -> Pubkey -> option (option PublicAccountSnapshotV1);
  dr_minimum_balance : nat -> option Z;
  dr_balance : Pubkey -> option Z;
}.

(** The file system as [resolve_external_program_keypair] sees it. *)
Record KeyFiles : Type := {
  kf_root : option text;
  kf_configured : option text;
  kf_is_symlink : text -> bool;
  kf_canonicalize : text -> option text;
  kf_read_keypair : text -> option Keypair;
}.

Definition resolve_external_program_keypair (files : KeyFiles) : result DemoError Keypair :=
  root ← ok_or RepositoryRoot (kf_root files);
  let path := default (path_join root (bstr "target/deploy/kageb_program-keypair.json")) (kf_configured files) in
  if match kf_configured files with None => true | Some _ => false end && negb (kf_is_symlink files path) then Err ProgramKeyMissing else
  canonical ← ok_or ResolveProgramKey (kf_canonicalize files path);
  if path_starts_with root canonical then Err ProgramKeyInRepository else
  keypair ← ok_or ReadProgramKey (kf_read_keypair files canonical);
  if ky_pubkey keypair != ID then Err ProgramKeyDiffers else Ok keypair.

Section deploy.
Context `{Sha256} `{Solana} `{!EvidenceCodec} `{BuildCodec} `{!DeployCodec}.

Definition clean_public_checkpoint_artifact (repository : Repository) : result DemoError (text * CanonicalCheckpointV1) :=
  if negb (rp_root repository) then Err RepositoryRoot else
  status ← command_stdout (rp_status repository);
  if negb (match trim status with [] => true | _ => false end) then Err RepositoryDirty else
  head ← command_stdout (rp_head repository);
  let commit := utf8_bytes (trim head) in
  checkpoint ← map_err Checkpoint
    match rp_given repository with
    | Some file => read_verified_checkpoint (rp_config repository) file
    | None => build_canonical_checkpoint (rp_build repository commit) commit
    end;
  Ok (commit, checkpoint).

(** ** What is deployed *)

Definition discover_deployed_checkpoint (program : PublicAccountSnapshotV1) (expected_programdata : Pubkey)
    (programdata : PublicAccountSnapshotV1) (artifact : list byte) : result DemoError DeployedCheckpointDiscovery :=
  if (pa_owner program != UPGRADEABLE_LOADER_ID) || negb (pa_executable program) then Err NotLoaderProgram else
  program_state ← ok_or ProgramMetadataMalformed (loader_deserialize (pa_data program));
  programdata_address ← match program_state with
    | LoaderProgram programdata_address => Ok programdata_address
    | _ => Err ProgramMetadataMalformed
    end;
  if programdata_address != expected_programdata then Err UnexpectedProgramData else
  if (pa_owner programdata != UPGRADEABLE_LOADER_ID) || pa_executable programdata then Err ProgramDataInvalid else
  let metadata_len := programdata_metadata_len in
  metadata ← ok_or ProgramDataMalformed (get_range 0 metadata_len (pa_data programdata));
  programdata_state ← ok_or ProgramDataMalformed (loader_deserialize metadata);
  upgrade_authority ← match programdata_state with
    | LoaderProgramData _ upgrade_authority => Ok upgrade_authority
    | _ => Err ProgramDataMalformed
    end;
  let executable_region := slice_from metadata_len (pa_data programdata) in
  if negb (starts_with elf_magic executable_region) then Err ExecutableNotElf else
  Ok {| dc_upgrade_authority := upgrade_authority;
        dc_artifact_matches := starts_with artifact executable_region
          && forallb (fun b => b == x00) (slice_from (length artifact) executable_region) |}.

Definition programdata_address : Pubkey := fst (find_program_address [ID : list byte] UPGRADEABLE_LOADER_ID).

(** [call] numbers the request for the program account; the one for its data follows. *)
Definition fetch_deployment_accounts (rpc : DeployReplies) (call : nat)
  : result DemoError (option (PublicAccountSnapshotV1 * PublicAccountSnapshotV1)) :=
  program ← ok_or ReadProgram (dr_account rpc call ID);
  programdata ← ok_or ReadProgramData (dr_account rpc (S call) programdata_address);
  match program, programdata with
  | None, None => Ok None
  | Some program, Some programdata => Ok (Some (program, programdata))
  | _, _ => Err DeploymentIncomplete
  end.

Definition fetch_deployed_checkpoint (rpc : DeployReplies) (call : nat) (artifact_len : Z)
  : result DemoError (option ExtractedUpgradeableProgramV1) :=
  accounts ← fetch_deployment_accounts rpc call;
  match accounts with
  | None => Ok None
  | Some (program, programdata) =>
      Some <$> map_err ExtractDeployment (extract_upgradeable_program program programdata_address programdata artifact_len)
  end.

Definition fetch_deployed_checkpoint_discovery (rpc : DeployReplies) (call : nat) (artifact : list byte)
  : result DemoError (option DeployedCheckpointDiscovery) :=
  accounts ← fetch_deployment_accounts rpc call;
  match accounts with
  | None => Ok None
  | Some (program, programdata) => Some <$> discover_deployed_checkpoint program programdata_address programdata artifact
  end.

(** ** What the payer must hold *)

Definition devnet_peak_rents (rpc : DeployReplies) (artifact_len : nat) : result DemoError DevnetPeakRents :=
  mint_rent ← ok_or ReadMintRent (dr_minimum_balance rpc mint_len);
  token_rent ← ok_or ReadTokenRent (dr_minimum_balance rpc token_account_len);
  state_rent ← ok_or ReadStateRent (dr_minimum_balance rpc STATE_LEN);
  setup ← ok_or SetupOverflow
    (value ← checked_mul_u64 mint_rent 2;
     tokens ← checked_mul_u64 token_rent 12;
     value ← checked_add_u64 value tokens;
     states ← checked_mul_u64 state_rent 2;
     checked_add_u64 value states);
  program ← ok_or ReadProgramRent (dr_minimum_balance rpc loader_program_len);
  programdata ← ok_or ReadProgramDataRent (dr_minimum_balance rpc (loader_programdata_len artifact_len));
  buffer ← ok_or ReadBufferRent (dr_minimum_balance rpc (loader_buffer_len artifact_len));
  Ok {| rn_setup := setup; rn_program := program; rn_programdata := programdata; rn_buffer := buffer; rn_fees := 20000000 |}.

Definition require_devnet_peak_balance (rpc : DeployReplies) (payer : Pubkey) (action : DevnetDeploymentAction) (artifact_len : nat)
  : result DemoError unit :=
  rents ← devnet_peak_rents rpc artifact_len;
  required ← required_peak_balance action rents;
  available ← ok_or ReadBalance (dr_balance rpc payer);
  if (available <? required)%Z then Err (PayerNeeds required available) else Ok tt.

(** ** One attempt to deploy *)

Definition close_deploy_buffer_instruction (buffer recipient authority : Pubkey) : Instruction :=
  {| ix_program_id := UPGRADEABLE_LOADER_ID;
     ix_accounts := [AccountMeta_new buffer false; AccountMeta_new recipient false; AccountMeta_new_readonly authority true];
     ix_data := loader_close_data |}.

(** The lossy decoding keeps every ASCII byte, and only those occur in the patterns. *)
Definition classify_deploy_failure (stdout stderr : list byte) : text :=
  let stdout := map ascii_lower stdout in
  let stderr := map ascii_lower stderr in
  let contains needle := contains_bytes stdout needle || contains_bytes stderr needle in
  if contains (bstr "insufficient funds") then bstr "insufficient payer funds" else
  if contains (bstr "max retries") || contains (bstr "timed out") || contains (bstr "blockhash not found")
     || contains (bstr "node is behind") || contains (bstr "429")
  then bstr "devnet transport retries exhausted" else
  if contains (bstr "elf error") || contains (bstr "verification failed") || contains (bstr "program failed to complete")
  then bstr "program rejected by the cluster" else
  bstr "unclassified CLI failure".

(** What an attempt does to the world, in order.  [RemoveDirectory] is the call that removes the directory,
    whether or not it manages to. *)
Inductive DeployEvent : Type :=
| WriteFile (path : text) (bytes : list byte)
| CreateDirectory (path : text)
| RunCommand (arguments : list text)
| RefundBuffer (buffer : Pubkey)
| RemoveDirectory (path : text).
Global Instance DeployEvent_eq_dec : EqDecision DeployEvent.
Proof. solve_decision. Defined.

(** [create_new] with mode 0600, then the write. *)
Inductive PrivateWrite : Type := NotCreated | NotWritten | PrivateWritten.

(** The outcomes of the calls: files by path, the temporary directory, its permissions and its removal. *)
Record DeployIo : Type := {
  dp_write : text -> PrivateWrite;
  dp_tempdir : option text;
  dp_permissions : bool;
  dp_close : bool;
}.

Definition write_private_file (io : DeployIo) (path : text) (bytes : list byte) : list DeployEvent * result DemoError unit :=
  match dp_write io path with
  | NotCreated => ([], Err CreatePrivateFile)
  | NotWritten => ([WriteFile path bytes], Err WritePrivateFile)
  | PrivateWritten => ([WriteFile path bytes], Ok tt)
  end.

Definition write_private_keypair (io : DeployIo) (path : text) (keypair : Keypair) : list DeployEvent * result DemoError unit :=
  match json_key_bytes (ky_bytes keypair) with
  | None => ([], Err EncodePrivateKey)
  | Some encoded => write_private_file io path encoded
  end.

(** The signers' files, inside their directory, and what names the program. *)
Definition write_signers (io : DeployIo) (directory : text) (payer buffer : Keypair) (initial_program_key : option Keypair)
    (action : DevnetDeploymentAction) : list DeployEvent * result DemoError text :=
  if negb (dp_permissions io) then ([], Err SecureSignerDirectory) else
  let '(events, written) := write_private_keypair io (path_join directory (bstr "payer.json")) payer in
  _ ←[events] written;
  let '(more, written) := write_private_keypair io (path_join directory (bstr "buffer.json")) buffer in
  let events := (events ++ more)%list in
  _ ←[events] written;
  if action == Initial then
    match initial_program_key with
    | None => (events, Err InitialKeyMissing)
    | Some keypair =>
        let program_path := path_join directory (bstr "program.json") in
        let '(more, written) := write_private_keypair io program_path keypair in
        let events := (events ++ more)%list in
        _ ←[events] written;
        (events, Ok program_path)
    end
  else (events, Ok (pubkey_to_string ID)).

Definition deploy_arguments (solana rpc_url artifact_path payer_path buffer_path program_id : text) (artifact_len : nat) : list text :=
  [solana; bstr "program"; bstr "deploy"; artifact_path; bstr "--url"; rpc_url; bstr "--commitment"; bstr "finalized";
   bstr "--use-tpu-client"; bstr "--fee-payer"; payer_path; bstr "--keypair"; payer_path; bstr "--upgrade-authority"; payer_path;
   bstr "--program-id"; program_id; bstr "--buffer"; buffer_path; bstr "--max-len"; display_nat artifact_len;
   bstr "--max-sign-attempts"; bstr "20"; bstr "--output"; bstr "json"].

Definition finish_deploy_attempt (deploy_status : result unit bool) (buffer_cleanup_failed signer_cleanup_failed : bool)
    (buffer_pubkey : Pubkey) : result DemoError unit :=
  if signer_cleanup_failed then
    if buffer_cleanup_failed then Err (BufferAndSignerCleanupFailed buffer_pubkey) else Err SignerCleanupFailed
  else
  if buffer_cleanup_failed then Err (BufferCleanupFailed buffer_pubkey) else
  match deploy_status with
  | Ok true => Ok tt
  | Ok false => Err DeployFailed
  | Err _ => Err DeployNotLaunched
  end.

(** [buffer] is the fresh key pair.  A [TempDir] that goes out of scope removes its directory. *)
Definition deploy_checkpoint_with_runner_and_refunder (io : DeployIo) (solana rpc_url : text) (payer buffer : Keypair)
    (initial_program_key : option Keypair) (action : DevnetDeploymentAction) (private_directory : text) (artifact : list byte)
    (runner : list text -> result unit bool) (refunder : Pubkey -> bool) : list DeployEvent * result DemoError unit :=
  let artifact_path := path_join private_directory (bstr "checkpoint.so") in
  let '(events, written) := write_private_file io artifact_path artifact in
  _ ←[events] written;
  directory ←[events] ok_or CreateSignerDirectory (dp_tempdir io);
  let '(signing, program_id) := write_signers io directory payer buffer initial_program_key action in
  let events := (events ++ CreateDirectory directory :: signing)%list in
  program_id ←[(events ++ [RemoveDirectory directory])%list] program_id;
  let arguments := deploy_arguments solana rpc_url artifact_path (path_join directory (bstr "payer.json"))
    (path_join directory (bstr "buffer.json")) program_id (length artifact) in
  let deploy_status := runner arguments in
  let refund := deploy_status != Ok true in
  let buffer_cleanup_failed := refund && negb (refunder (ky_pubkey buffer)) in
  let events := (events ++ RunCommand arguments :: (if refund then [RefundBuffer (ky_pubkey buffer)] else [])
                 ++ [RemoveDirectory directory])%list in
  (events, finish_deploy_attempt deploy_status buffer_cleanup_failed (negb (dp_close io)) (ky_pubkey buffer)).

(** What runs the command and closes a buffer: the process, whether a blockhash can be read, and
    whether a transaction of these instructions, signed and paid by the payer, is confirmed. *)
Record DeployCalls : Type := {
  dl_command : list text -> option Output;
  dl_blockhash : bool;
  dl_send : list Instruction -> bool;
}.

Definition deploy_runner (calls : DeployCalls) (arguments : list text) : result unit bool :=
  match dl_command calls arguments with
  | Some output => Ok (out_success output)
  | None => Err tt
  end.

(** The line a failed command leaves on standard error. *)
Definition deploy_diagnostic (output : Output) : option text :=
  if out_success output then None
  else Some (bstr "Solana program deploy failed: " ++ classify_deploy_failure (out_stdout output) (out_stderr output))%list.

Definition close_deploy_buffer (calls : DeployCalls) (payer buffer : Pubkey) : bool :=
  dl_blockhash calls && dl_send calls [close_deploy_buffer_instruction buffer payer payer].

Definition deploy_checkpoint (io : DeployIo) (calls : DeployCalls) (env : Environment) (rpc_url : text) (payer buffer : Keypair)
    (initial_program_key : option Keypair) (action : DevnetDeploymentAction) (private_directory : text) (artifact : list byte)
  : list DeployEvent * result DemoError unit :=
  solana ←[[]] resolve_on_path env (bstr "solana");
  deploy_checkpoint_with_runner_and_refunder io solana rpc_url payer buffer initial_program_key action private_directory artifact
    (deploy_runner calls) (close_deploy_buffer calls (ky_pubkey payer)).

(** ** Finality *)

(** The replies to one turn of the loop: the statuses and the transaction. *)
Record PollReplies : Type := { pl_statuses : option (list (option SignatureStatus)); pl_transaction : option FetchedTransaction }.

Fixpoint poll_finalized (replies : nat -> PollReplies) (turn turns : nat) : result DemoError FetchedTransaction :=
  match turns with
  | O => Err NotFinalized
  | S turns =>
      statuses ← ok_or StatusUnavailable (pl_statuses (replies turn));
      match statuses with
      | Some status :: _ =>
          if st_err status then Err TransactionFailed else
          if st_finalized status then ok_or TransactionUnavailable (pl_transaction (replies turn)) else
          poll_finalized replies (S turn) turns
      | _ => poll_finalized replies (S turn) turns
      end
  end.
Definition wait_for_finalized_transaction (replies : nat -> PollReplies) : result DemoError FetchedTransaction :=
  poll_finalized replies 0 240.

(** ** The deployment phase of a run: [devnet_proof] up to its first transaction of its own *)

(** The calls that make the private directory: creation, permissions, and its canonical path. *)
Record RuntimeIo : Type := { ri_create : bool; ri_permissions : bool; ri_canonical : option text }.

Definition private_runtime_root (io : RuntimeIo) : result DemoError text :=
  if negb (ri_create io) then Err CreatePrivateRuntime else
  if negb (ri_permissions io) then Err SecurePrivateRuntime else
  ok_or ResolvePrivateRuntime (ri_canonical io).

Record DeployWorld : Type := {
  dw_out_exists : bool;
  dw_repository : Repository;
  dw_rpc : DeployReplies;
  dw_payer : option Keypair;
  dw_key_files : KeyFiles;
  dw_executable : option text;
  dw_private_root : RuntimeIo;
  dw_run_directory : option text;
  dw_io : DeployIo;
  dw_calls : DeployCalls;
  dw_environment : Environment;
  dw_buffer : Keypair;
}.

(** What the rest of the run knows of this phase. *)
Record Deployment : Type := {
  dn_public_commit : text;
  dn_checkpoint : CanonicalCheckpointV1;
  dn_payer : Keypair;
  dn_deployed : ExtractedUpgradeableProgramV1;
  dn_program_key : option Keypair;
  dn_executable : text;
  dn_private_root : text;
  dn_run_directory : text;
}.

Definition devnet_deployment (world : DeployWorld) (program rpc_url : text) : list DeployEvent * result DemoError Deployment :=
  program ←[[]] ok_or InvalidProgramId (pubkey_from_str program);
  if program != ID then ([], Err FixedProgramRequired) else
  if dw_out_exists world then ([], Err WouldOverwrite) else
  '(public_commit, checkpoint) ←[[]] clean_public_checkpoint_artifact (dw_repository world);
  let artifact := cc_artifact checkpoint in
  genesis ←[[]] ok_or ReadGenesis (dr_genesis_hash (dw_rpc world));
  if genesis != DEVNET_GENESIS_HASH then ([], Err NotDevnet) else
  deployed_before ←[[]] fetch_deployed_checkpoint_discovery (dw_rpc world) 0 artifact;
  payer ←[[]] ok_or ReadPayer (dw_payer world);
  initial_program_key ←[[]]
    match deployed_before with
    | None => Some <$> resolve_external_program_keypair (dw_key_files world)
    | Some _ => Ok None
    end;
  deployment_action ←[[]] select_deployment_action deployed_before (ky_pubkey payer) (ky_pubkey <$> initial_program_key);
  _ ←[[]] require_devnet_peak_balance (dw_rpc world) (ky_pubkey payer) deployment_action (length artifact);
  executable ←[[]] ok_or LocateExecutable (dw_executable world);
  private_root ←[[]] private_runtime_root (dw_private_root world);
  run_directory ←[[]] ok_or CreatePrivateRun (dw_run_directory world);
  let '(events, attempt) :=
    if deployment_action != Noop then
      deploy_checkpoint (dw_io world) (dw_calls world) (dw_environment world) rpc_url payer (dw_buffer world) initial_program_key deployment_action
        run_directory artifact
    else ([], Ok tt) in
  _ ←[events] attempt;
  deployed ←[events] fetch_deployed_checkpoint (dw_rpc world) 2 (Z.of_nat (length artifact));
  deployed ←[events] ok_or DeploymentMissing deployed;
  if ex_executable deployed != artifact then (events, Err DeployedDiffers) else
  if (deployment_action != Noop) && (ex_upgrade_authority deployed != Some (ky_pubkey payer))
  then (events, Err NotProvisionalAuthority) else
  (events, Ok {| dn_public_commit := public_commit; dn_checkpoint := checkpoint; dn_payer := payer; dn_deployed := deployed;
                 dn_program_key := initial_program_key; dn_executable := executable; dn_private_root := private_root;
                 dn_run_directory := run_directory |}).
End deploy.
