(* ===== verification/Devnet.v ===== *)
(** * Publishing the evidence of a run (crates/kageb-host/src/demo.rs, lines 151 to 237, 1395 to 1593 and 2134 to 2259)

    What a demonstration on devnet puts into its evidence, how it keeps private material out of
    the bytes, has a fresh process verify them, and writes them to a path that did not exist. *)

From S2P Require Import Prelude Bytes Extern ProgramWire ProgramState ProgramInstruction Ed25519 HostExtern BTree Domain Ledger HostCrypto.
From S2P Require Import LockJournal Lock ConfirmedReads Settlement Observer Keyper Client Evidence EvidenceRpc EvidenceFile Deploy.

Inductive PublishError : Type :=
| CreateEvidenceDirectory | LocateEvidenceDirectory | InspectAncestry | AncestryNotDirectories | AncestryWritable
| CreatePending | WritePending | OutputExists | SyncEvidence | SyncDirectory
| PrivateMaterial | EncodeEvidence | LocateVerifier | LaunchVerifier | VerifierInput | VerifierWait | VerifierFailed
| ReadTokenAccount | ShortTokenAccount | UnexpectedBalances | ReadEpoch | DecodeEpoch | NotSettled
| Finality (error : DemoError) | SealEvidence (error : DevnetEvidenceError) | VerifyBeforeWrite (error : DevnetEvidenceError)
| VerificationArtifact (error : DemoError).
Global Instance PublishError_eq_dec : EqDecision PublishError.
Proof. solve_decision. Defined.

(** ** Writing to a path that does not exist *)

(** The outcomes of the calls: [pb_parent_absolute] whether the output's directory is given from the
    root, [pb_ancestors] what [symlink_metadata] says of it and of every directory above it, and
    [pb_persist] that nothing but an existing file prevents the link. *)
Record PublishIo : Type := {
  pb_create_dir_all : bool;
  pb_parent_absolute : bool;
  pb_current_dir : bool;
  pb_ancestors : list (option Metadata);
  pb_tempfile : bool;
  pb_write : bool;
  pb_persist : bool;
  pb_sync : bool;
  pb_sync_directory : bool;
}.

(** One turn of the loop over the ancestors. *)
Definition check_ancestor (metadata : option Metadata) : result PublishError unit :=
  metadata ← ok_or InspectAncestry metadata;
  if md_is_symlink metadata || negb (md_is_dir metadata) then Err AncestryNotDirectories else
  if Z.land (md_mode metadata) 18 != 0%Z then Err AncestryWritable else Ok tt.

(** [files] is what the output paths hold; the pending file is not one of them. *)
Definition publish_bytes_noclobber (io : PublishIo) (files : gmap text (list byte)) (out : text) (bytes : list byte)
  : gmap text (list byte) * result PublishError unit :=
  if negb (pb_create_dir_all io) then (files, Err CreateEvidenceDirectory) else
  if negb (pb_parent_absolute io) && negb (pb_current_dir io) then (files, Err LocateEvidenceDirectory) else
  _ ←[files] try_each check_ancestor (pb_ancestors io);
  if negb (pb_tempfile io) then (files, Err CreatePending) else
  if negb (pb_write io) then (files, Err WritePending) else
  if match files !! out with Some _ => true | None => false end || negb (pb_persist io) then (files, Err OutputExists) else
  let files := <[out := bytes]> files in
  if negb (pb_sync io) then (files, Err SyncEvidence) else
  if negb (pb_sync_directory io) then (files, Err SyncDirectory) else
  (files, Ok tt).

(** ** Private material *)

Definition FORBIDDEN : list text :=
  [bstr "plaintext"; bstr "signed_intent"; bstr "ciphertext"; bstr "decryption"; bstr "reservation"; bstr ".kageb-private";
   bstr "keyper-attestation-key"].

Definition scan_public_evidence_bytes (bytes : list byte) (secret_encodings : list (list byte)) : result PublishError unit :=
  if existsb (contains_bytes bytes) FORBIDDEN || existsb (contains_bytes bytes) secret_encodings then Err PrivateMaterial else Ok tt.

(** [str::to_ascii_uppercase] *)
Definition ascii_upper (c : byte) : byte := if between 97 122 c then byte_of (byte_val c - 32) else c.

Definition hex_bytes (bytes : list byte) : text := hex_digest bytes.

(** The engine without padding and [serde_json::to_vec] of a byte vector; [Signature::to_string]. *)
Class DevnetCodec : Type := {
  base64_no_pad : list byte -> list Z;
  json_secret : list byte -> option (list byte);
  signature_to_string : bytes64 -> text;
}.

(** Setting [content.decoded_allowlist]. *)
Definition with_allowlist (content : DevnetEvidenceContentV1) (allowlist : list DecodedInstructionEvidenceV1) : DevnetEvidenceContentV1 := {|
  dv_cluster := dv_cluster content;
  dv_public_commit := dv_public_commit content;
  dv_build_toolchain := dv_build_toolchain content;
  dv_checkpoint_artifact_len := dv_checkpoint_artifact_len content;
  dv_checkpoint_artifact_sha256 := dv_checkpoint_artifact_sha256 content;
  dv_deployment := dv_deployment content;
  dv_transactions := dv_transactions content;
  dv_accounts := dv_accounts content;
  dv_configuration := dv_configuration content;
  dv_commitments := dv_commitments content;
  dv_token_balances := dv_token_balances content;
  dv_decoded_allowlist := allowlist;
  dv_explorer_links := dv_explorer_links content;
|}.

(** ** The checks after the settlement *)

Record RunBalances : Type := { rb_pool_base : Z; rb_pool_quote : Z; rb_venue_base : Z; rb_venue_quote : Z }.
Global Instance RunBalances_eq_dec : EqDecision RunBalances.
Proof. solve_decision. Defined.

(** The amount of a token account, as [get_account] yields the account. *)
Definition token_amount (account : option RpcAccount) : result PublishError Z :=
  account ← ok_or ReadTokenAccount account;
  bytes ← ok_or ShortTokenAccount (get_range 64 72 (ra_data account));
  Ok (le_val bytes).

(** The four amounts read before and after the settlement. *)
Definition read_balances (accounts : Pubkey -> option RpcAccount) (pool_base_vault pool_quote_vault venue_base_account venue_quote_account : Pubkey)
  : result PublishError RunBalances :=
  pool_base ← token_amount (accounts pool_base_vault);
  pool_quote ← token_amount (accounts pool_quote_vault);
  venue_base ← token_amount (accounts venue_base_account);
  venue_quote ← token_amount (accounts venue_quote_account);
  Ok {| rb_pool_base := pool_base; rb_pool_quote := pool_quote; rb_venue_base := venue_base; rb_venue_quote := venue_quote |}.

(** [account] is the epoch account as [get_account] yields it. *)
Definition check_settled (before after : RunBalances) (account : option RpcAccount) (settlement : bytes32) : result PublishError unit :=
  if (before != {| rb_pool_base := 4; rb_pool_quote := 400; rb_venue_base := 10; rb_venue_quote := 0 |})
     || (after != {| rb_pool_base := 6; rb_pool_quote := 200; rb_venue_base := 8; rb_venue_quote := 200 |})
  then Err UnexpectedBalances else
  account ← ok_or ReadEpoch account;
  epoch_state ← map_err (fun _ => DecodeEpoch) (EpochStateV1_decode (ra_data account));
  if (terminal_state epoch_state != Settled) || (ep_member_count epoch_state != 4%Z)
     || (ep_result_commitment epoch_state != settlement)
  then Err NotSettled else Ok tt.

Section devnet.
Context `{Sha256} `{Solana} `{Dalek} `{Threshold} `{!EvidenceCodec} `{ObserverCodec} `{ClientCodec} `{!DevnetCodec} `{!DeployCodec}.

Definition encodings_of (secret : list byte) : list (list byte) :=
  let hex := hex_bytes secret in
  [secret; hex; map ascii_upper hex; utf8_bytes (bs58_encode secret); utf8_bytes (base64_encode secret); utf8_bytes (base64_no_pad secret)]
  ++ match json_secret secret with Some json => [json] | None => [] end.

Definition private_material_encodings (material : list (list byte)) : list (list byte) :=
  concat (map encodings_of (List.filter (fun secret => match secret with [] => false | _ => true end) material)).

(** ** The instructions a verifier will find *)

Definition decoded_row (transaction : text) (position : Z) (program : Pubkey) (kind : text) (digest : option text)
  : DecodedInstructionEvidenceV1 :=
  {| di_transaction := transaction; di_position := position; di_program := pubkey_to_string program; di_kind := kind; di_digest := digest |}.

Definition canonical_devnet_allowlist (content : DevnetEvidenceContentV1) : list DecodedInstructionEvidenceV1 :=
  let lock_digest := Some (co_lock_digest (dv_commitments content)) in
  let settlement_digest := Some (co_settlement_digest (dv_commitments content)) in
  concat (map (fun index =>
    [decoded_row (bstr "funding-" ++ display_nat index) 0 TOKEN_PROGRAM_ID (bstr "pool-funding-base") None;
     decoded_row (bstr "funding-" ++ display_nat index) 1 TOKEN_PROGRAM_ID (bstr "pool-funding-quote") None]) [0; 1; 2; 3])
  ++ map (fun position => decoded_row (bstr "lock") position ed25519_program_id (bstr "keyper-lock-approval") lock_digest) [0; 1]%Z
  ++ [decoded_row (bstr "lock") 2 ID (bstr "epoch-lock") lock_digest]
  ++ map (fun position => decoded_row (bstr "settlement") position ed25519_program_id (bstr "keyper-settlement-approval") settlement_digest)
       [0; 1]%Z
  ++ [decoded_row (bstr "settlement") 2 ID (bstr "aggregate-settlement") settlement_digest;
      decoded_row (bstr "settlement") 3 TOKEN_PROGRAM_ID (bstr "aggregate-quote-leg") None;
      decoded_row (bstr "settlement") 4 TOKEN_PROGRAM_ID (bstr "aggregate-base-leg") None].

(** ** The content *)

(** What the run knows when it has settled. *)
Record SettledRun : Type := {
  sr_public_commit : text;
  sr_checkpoint : CanonicalCheckpointV1;
  sr_deployed : ExtractedUpgradeableProgramV1;
  sr_payer : Pubkey;
  sr_operator : Pubkey;
  sr_pool : Pubkey;
  sr_epoch : Pubkey;
  sr_vault_authority : Pubkey;
  sr_base_mint : Pubkey;
  sr_quote_mint : Pubkey;
  sr_pool_base_vault : Pubkey;
  sr_pool_quote_vault : Pubkey;
  sr_venue_authority : Pubkey;
  sr_venue_base_account : Pubkey;
  sr_venue_quote_account : Pubkey;
  sr_epoch_id : bytes32;
  (** the four wallets with their base and quote accounts and their funding transactions *)
  sr_funding : four (Pubkey * Pubkey * Pubkey * bytes64);
  sr_lock_signature : bytes64;
  sr_settlement_signature : bytes64;
  sr_package : LockPackageV1;
  sr_settlement : SettlementRequestV1;
  sr_settlement_digest : bytes32;
  sr_transcript_hash : text;
  sr_before : RunBalances;
  sr_after : RunBalances;
}.

Definition four_zip {A B C} (f : A -> B -> C) (l : four A) (k : four B) : four C :=
  let '(a, b, c, d) := l in let '(w, x, y, z) := k in (f a w, f b x, f c y, f d z).
Definition three_map {A B} (f : A -> B) (l : A * A * A) : B * B * B := let '(a, b, c) := l in (f a, f b, f c).

(** The six signatures in the order they are waited for. *)
Definition run_signatures (run : SettledRun) : list bytes64 :=
  map snd (four_list (sr_funding run)) ++ [sr_lock_signature run; sr_settlement_signature run].

Definition funding_evidence (entry : Pubkey * Pubkey * Pubkey * bytes64) (slot : Z) : FundingTransactionEvidenceV1 :=
  let '(wallet, base_source, quote_source, signature) := entry in
  {| fu_authority := pubkey_to_string wallet; fu_base_source := pubkey_to_string base_source;
     fu_quote_source := pubkey_to_string quote_source;
     fu_transaction := {| et_signature := signature_to_string signature; et_slot := slot |} |}.

(** [slots] are those of the finalized transactions: the funding ones, the lock and the settlement. *)
Definition devnet_content (run : SettledRun) (funding_slots : four Z) (lock_slot settlement_slot : Z) : DevnetEvidenceContentV1 :=
  let artifact := cc_artifact (sr_checkpoint run) in
  let content := {|
    dv_cluster := bstr "devnet";
    dv_public_commit := sr_public_commit run;
    dv_build_toolchain := cc_build_toolchain (sr_checkpoint run);
    dv_checkpoint_artifact_len := Z.of_nat (length artifact);
    dv_checkpoint_artifact_sha256 := hex_bytes (sha256 artifact);
    dv_deployment := {|
      de_program := pubkey_to_string ID; de_loader := pubkey_to_string UPGRADEABLE_LOADER_ID;
      de_programdata := pubkey_to_string programdata_address; de_deployment_slot := ex_deployment_slot (sr_deployed run);
      de_upgrade_authority := pubkey_to_string <$> ex_upgrade_authority (sr_deployed run);
      de_deployed_executable_sha256 := ex_executable_sha256 (sr_deployed run) |};
    dv_transactions := {|
      tr_funding := four_zip funding_evidence (sr_funding run) funding_slots;
      tr_lock := {| et_signature := signature_to_string (sr_lock_signature run); et_slot := lock_slot |};
      tr_settlement := {| et_signature := signature_to_string (sr_settlement_signature run); et_slot := settlement_slot |} |};
    dv_accounts := {|
      ea_fee_payer := pubkey_to_string (sr_payer run); ea_operator := pubkey_to_string (sr_operator run);
      ea_pool := pubkey_to_string (sr_pool run); ea_epoch := pubkey_to_string (sr_epoch run);
      ea_vault_authority := pubkey_to_string (sr_vault_authority run); ea_base_mint := pubkey_to_string (sr_base_mint run);
      ea_quote_mint := pubkey_to_string (sr_quote_mint run); ea_pool_base_vault := pubkey_to_string (sr_pool_base_vault run);
      ea_pool_quote_vault := pubkey_to_string (sr_pool_quote_vault run); ea_venue_authority := pubkey_to_string (sr_venue_authority run);
      ea_venue_base_account := pubkey_to_string (sr_venue_base_account run);
      ea_venue_quote_account := pubkey_to_string (sr_venue_quote_account run); ea_token_program := pubkey_to_string TOKEN_PROGRAM_ID |};
    dv_configuration := {|
      ec_epoch_id := hex_bytes (sr_epoch_id run); ec_minimum_count := 4; ec_member_count := 4; ec_lock_threshold := 2;
      ec_settlement_threshold := 2; ec_keypers := three_map pubkey_to_string (cfg_keypers (pk_configuration (sr_package run)));
      ec_base_lot_atoms := 1; ec_quote_atoms_per_lot := 100 |};
    dv_commitments := {|
      co_configuration_hash := hex_bytes (EpochConfigurationV1_digest (pk_configuration (sr_package run)));
      co_pre_balance_root := hex_bytes (sq_pre_balance_root (sr_settlement run));
      co_member_set := hex_bytes (pk_member_root (sr_package run));
      co_lock_digest := hex_bytes (LockPayloadV1_digest (LockPackageV1_lock_payload (sr_package run)));
      co_result := hex_bytes (sq_result_commitment (sr_settlement run));
      co_settlement_digest := hex_bytes (sr_settlement_digest run);
      co_unverified_local_transcript_sha256 := sr_transcript_hash run |};
    dv_token_balances := {|
      tb_pool_base_before := rb_pool_base (sr_before run); tb_pool_base_after := rb_pool_base (sr_after run);
      tb_pool_quote_before := rb_pool_quote (sr_before run); tb_pool_quote_after := rb_pool_quote (sr_after run);
      tb_venue_base_before := rb_venue_base (sr_before run); tb_venue_base_after := rb_venue_base (sr_after run);
      tb_venue_quote_before := rb_venue_quote (sr_before run); tb_venue_quote_after := rb_venue_quote (sr_after run) |};
    dv_decoded_allowlist := [];
    dv_explorer_links := map (fun signature => explorer_link (signature_to_string signature)) (run_signatures run);
  |} in
  with_allowlist content (canonical_devnet_allowlist content).

(** ** A fresh verifier *)

(** The executable, and what a process of it does with its arguments and its standard input. *)
Record FreshVerifier : Type := { fv_executable : option text; fv_run : list text -> list byte -> ChildRun }.

Definition verifier_arguments (checkpoint_artifact rpc_url : text) : list text :=
  [bstr "verify"; bstr "evidence"; bstr "-"; bstr "--checkpoint-artifact"; checkpoint_artifact; bstr "--rpc"; rpc_url].

Definition verified_report (bundle : DevnetEvidenceBundleV1) : text :=
  (bstr "VERIFIED: evidence " ++ db_evidence_sha256 bundle ++ bstr " settlement "
   ++ et_signature (tr_settlement (dv_transactions (db_content bundle))) ++ [x0a])%list.

Definition persist_verified_evidence (io : PublishIo) (verifier : FreshVerifier) (files : gmap text (list byte)) (out rpc_url : text)
    (bundle : DevnetEvidenceBundleV1) (private_material : list (list byte)) (checkpoint_artifact : text)
  : gmap text (list byte) * result PublishError unit :=
  json ←[files] map_err (fun _ => EncodeEvidence) (DevnetEvidenceBundleV1_to_json_pretty bundle);
  let bytes := (json ++ [x0a])%list in
  _ ←[files] scan_public_evidence_bytes bytes (private_material_encodings private_material);
  _ ←[files] ok_or LocateVerifier (fv_executable verifier);
  match fv_run verifier (verifier_arguments checkpoint_artifact rpc_url) bytes with
  | NotSpawned => (files, Err LaunchVerifier)
  | StdinFailed => (files, Err VerifierInput)
  | WaitFailed => (files, Err VerifierWait)
  | Exited output =>
      if negb (out_success output) || (out_stdout output != verified_report bundle) then (files, Err VerifierFailed) else
      publish_bytes_noclobber io files out bytes
  end.

(** ** The last phase of a run *)

Definition NON_CLAIM : text :=
  bstr "It does not prove unique humans, production anonymity, private funding or withdrawal, a trustless exchange, protection from the KageB operator, or safe use with real funds.".

Definition wait_four (replies : bytes64 -> nat -> PollReplies) (l : four bytes64) : result DemoError (four FetchedTransaction) :=
  let '(a, b, c, d) := l in
  a ← wait_for_finalized_transaction (replies a);
  b ← wait_for_finalized_transaction (replies b);
  c ← wait_for_finalized_transaction (replies c);
  d ← wait_for_finalized_transaction (replies d);
  Ok (a, b, c, d).

Definition four_map {A B} (f : A -> B) (l : four A) : four B := let '(a, b, c, d) := l in (f a, f b, f c, f d).

(** [polls] are the replies while it waits, [rpc] those of its own verification, [artifact_write] the
    outcome of writing the artifact to [checkpoint_artifact] for the fresh verifier. *)
Definition publish_run (io : PublishIo) (verifier : FreshVerifier) (polls : bytes64 -> nat -> PollReplies) (rpc : EvidenceReplies)
    (artifact_write : PrivateWrite) (files : gmap text (list byte)) (out rpc_url : text) (run : SettledRun)
    (private_material : list (list byte)) (checkpoint_artifact : text) : gmap text (list byte) * result PublishError text :=
  funding ←[files] map_err Finality (wait_four polls (four_map snd (sr_funding run)));
  lock ←[files] map_err Finality (wait_for_finalized_transaction (polls (sr_lock_signature run)));
  settlement ←[files] map_err Finality (wait_for_finalized_transaction (polls (sr_settlement_signature run)));
  let content := devnet_content run (four_map fx_slot funding) (fx_slot lock) (fx_slot settlement) in
  bundle ←[files] map_err SealEvidence (DevnetEvidenceBundleV1_seal content);
  _ ←[files] map_err VerifyBeforeWrite (verify_devnet_evidence_at_rpc rpc bundle (cc_artifact (sr_checkpoint run)));
  _ ←[files] match artifact_write with
    | NotCreated => Err (VerificationArtifact CreatePrivateFile)
    | NotWritten => Err (VerificationArtifact WritePrivateFile)
    | PrivateWritten => Ok tt
    end;
  let '(files, persisted) := persist_verified_evidence io verifier files out rpc_url bundle private_material checkpoint_artifact in
  _ ←[files] persisted;
  (files, Ok (bstr "LOCKED: crowd 4/4" ++ x0a :: bstr "SETTLED: one aggregate BUY 2 lots" ++ x0a :: bstr "VERIFIED: evidence "
    ++ db_evidence_sha256 bundle ++ bstr " settlement " ++ signature_to_string (sr_settlement_signature run) ++ x0a :: NON_CLAIM ++ [x0a]))%list.
End devnet.
