(* ===== verification/CommandLine.v ===== *)
(** * The command line (crates/kageb-host/src/bin/kageb.rs) and its trace

    One run of the program: its arguments choose a handler, the handler's outcome gives the exit
    code and what is printed.  The [trace] command prints a fixed batch as an outside observer
    sees it (demo.rs, lines 249 to 291; observer.rs, lines 342 to 368 and 592 to 609). *)

From S2P Require Import Prelude Bytes Extern ProgramWire ProgramState ProgramInstruction Ed25519 BTree Domain Ledger Commitment.
From S2P Require Import Storage Reservation HostExtern HostCrypto Account LockJournal Lock ConfirmedReads Settlement.
From S2P Require Import Observer Keyper Client Evidence EvidenceRpc EvidenceFile.

(** ** Rendering a trace *)

(** [{lots}] of a [u32]. *)
Definition display_u32 (z : Z) : text := display_nat (Z.to_nat z).
Definition short_key (key : bytes32) : text := hex_digest (slice 0 4 key).
Definition side_name (side : Side) : text := match side with Buy => bstr "BUY" | Sell => bstr "SELL" end.
Definition residual_name (residual : Residual) : text :=
  match residual with
  | Residual.None => bstr "NO VENUE LEG"
  | Residual.Buy lots => bstr "BUY " ++ display_u32 lots ++ bstr " lots"
  | Residual.Sell lots => bstr "SELL " ++ display_u32 lots ++ bstr " lots"
  end.

Definition render_action (action : PublicAction) : text :=
  match action with
  | Individual wallet side lots =>
      bstr "wallet " ++ short_key wallet ++ bstr ": " ++ side_name side ++ bstr " " ++ display_u32 lots ++ bstr " lots"
  | Aggregate pool venue residual member_root result_commitment keyper_approvals =>
      bstr "pool aggregate: " ++ residual_name residual ++ bstr " | pool " ++ short_key pool ++ bstr " | venue " ++ short_key venue
      ++ bstr " | member root " ++ short_key member_root ++ bstr " | result commitment " ++ short_key result_commitment
      ++ bstr " | keyper approvals " ++ display_u32 keyper_approvals
  end.

(** [join] with a newline *)
Fixpoint join_lines (lines : list text) : text :=
  match lines with
  | [] => []
  | [line] => line
  | line :: lines => line ++ x0a :: join_lines lines
  end.

Definition PublicTrace_render (t : PublicTrace) : text := join_lines (map render_action (pt_actions t)).

(** ** The fixture *)

(** An error of the ledger, or the panic of [expect]. *)
Inductive TraceError : Type := TraceLedger (error : LedgerError) | TracePanic.

Definition filled32 (n : Z) : bytes32 := default zero32 (key_of (replicate 32 n)).

Section fixture.
Context `{Sha256}.

Definition fixture_participants : list bytes32 := map filled32 [1; 2; 3; 4]%Z.
Definition fixture_balances : Balances :=
  list_to_map (map (fun participant => (participant, {| base_atoms := 10; quote_atoms := 1000 |})) fixture_participants).
Definition fixture_sides : list Side := [Buy; Sell; Buy; Buy].
Definition fixture_wallets : list DirectOrder :=
  map (fun '(wallet, side) => {| do_wallet := filled32 wallet; do_side := side |}) (zip [11; 12; 13; 14]%Z fixture_sides).

Definition trace_fixture : result TraceError text :=
  orders ← map_err TraceLedger
    (try_map (fun '(participant, side) => FundedOrder_new participant side 100) (zip fixture_participants fixture_sides));
  config ← map_err TraceLedger (BatchConfig_new 2 100);
  batch ← map_err TraceLedger (net_batch config fixture_balances orders);
  member_root ← map_err (fun _ => TracePanic) (content_root MemberSet (map arr_list fixture_participants));
  result_root ← map_err (fun _ => TracePanic) (content_root ResultSet [bstr "fixture-result"]);
  let direct := PublicTrace_direct fixture_wallets in
  let pooled := PublicTrace_pooled (filled32 9) (filled32 8) (residual batch) member_root result_root in
  Ok (bstr "DIRECT: " ++ display_nat (PublicTrace_individual_order_count direct) ++ bstr " wallet-linked orders visible" ++ [x0a]
      ++ PublicTrace_render direct ++ [x0a; x0a]
      ++ bstr "KAGEB: " ++ display_nat (PublicTrace_individual_order_count pooled) ++ bstr " individual orders visible" ++ [x0a]
      ++ PublicTrace_render pooled ++ [x0a; x0a]
      ++ bstr "4 real orders, one pooled result, no decoy trades." ++ [x0a])%list.
End fixture.

(** ** One run of the program *)

Definition DEFAULT_DEVNET_RPC : text := bstr "https://api.devnet.solana.com".

Inductive HelpPage : Type := CLIENT_ACCOUNT_HELP | CLIENT_EPOCH_HELP | CLIENT_PREPARE_HELP | CLIENT_RESULT_HELP.

(** Standard output: bytes, or one of the help texts. *)
Inductive Printed : Type := PrintedBytes (bytes : list byte) | PrintedHelp (page : HelpPage).

(** What goes to standard error, by its case. *)
Inductive Complaint : Type :=
| PrepareRejected (error : ClientPrepareError)
| EpochRejected (error : ClientPrepareError)
| AccountRejected (error : ClientPrepareError)
| ResultRejected (error : ClientPrepareError)
| SignLockRejected (error : KeyperProcessError)
| ReleaseShareRejected (error : KeyperProcessError)
| SignSettlementRejected (error : KeyperProcessError)
| TraceFailed (error : LedgerError)
| LocalDemoFailed (message : text)
| VerifyFailed (error : FileError)
| SyntheticAssetsWarning
| DevnetDemoFailed (message : text)
| Panic
| USAGE.

Record Exit : Type := { ex_code : Z; ex_stdout : Printed; ex_stderr : list Complaint }.

Definition SUCCESS (stdout : Printed) : Exit := {| ex_code := 0; ex_stdout := stdout; ex_stderr := [] |}.
Definition FAILURE (complaints : list Complaint) : Exit := {| ex_code := 1; ex_stdout := PrintedBytes []; ex_stderr := complaints |}.

(** [print!] panics when standard output is gone. *)
Definition print (stdout_ok : bool) (stdout : Printed) : Exit :=
  if stdout_ok then SUCCESS stdout else {| ex_code := 101; ex_stdout := PrintedBytes []; ex_stderr := [Panic] |}.

(** The [match] that ends every arm of a handler that writes its own response. *)
Definition finish {E} (complain : E -> list Complaint) (outcome : result E (list byte)) : Exit :=
  match outcome with
  | Ok response => SUCCESS (PrintedBytes response)
  | Err error => FAILURE (complain error)
  end.

(** The files a run may change: account journals by path, and the keyper's directory. *)
Record Machine : Type := { mc_accounts : gmap text (list byte); mc_lock : LockDisk }.

Definition set_accounts (machine : Machine) (path : text) (file : option (list byte)) : Machine :=
  {| mc_accounts := match file with Some bytes => <[path := bytes]> (mc_accounts machine) | None => delete path (mc_accounts machine) end;
     mc_lock := mc_lock machine |}.
Definition set_lock (machine : Machine) (disk : LockDisk) : Machine := {| mc_accounts := mc_accounts machine; mc_lock := disk |}.

Section main.
Context `{Sha256} `{Solana} `{Dalek} `{Threshold} `{Sysvars} `{!KeyperCodec} `{ClientCodec} `{!EvidenceCodec} `{ObserverCodec} `{BuildCodec}.

(** What a run finds around it.  The two demonstrations are the outcomes of their runs. *)
Record Surroundings : Type := {
  su_stdin : option (list byte);
  su_stdout_ok : bool;
  su_keypair : text -> KeypairFile;
  su_randomness : Randomness;
  su_receipt : option bytes32;
  su_nonce : option (arr 16);
  su_now : option Z;
  su_account_open : Io;
  su_account_io : Io;
  su_keyper_files : KeyperFiles;
  su_keyper_rpc : list Z -> RpcReplies;
  su_lock_open : LockIo;
  su_lock_sign : LockIo;
  su_open : text -> option OpenedFile;
  su_build : CheckpointBuild;
  su_build_config : option (list byte);
  su_rpc : text -> EvidenceReplies;
  su_local_proof : result text text;
  su_devnet_proof : text -> text -> text -> text -> option text -> result text text;
}.

(** The path [-] is standard input. *)
Definition evidence_input (s : Surroundings) (path : text) : EvidenceInput :=
  if path == bstr "-" then FromStdin (su_stdin s) else FromFile (su_open s path).

Definition verify_evidence (s : Surroundings) (path rpc : text) : Exit :=
  match verify_evidence_file (su_rpc s rpc) (su_build s) (evidence_input s path) with
  | Ok output => print (su_stdout_ok s) (PrintedBytes output)
  | Err error => FAILURE [VerifyFailed error]
  end.

Definition verify_evidence_with_checkpoint (s : Surroundings) (path checkpoint rpc : text) : Exit :=
  match verify_evidence_file_with_checkpoint (su_rpc s rpc) (su_build_config s) (su_open s checkpoint) (evidence_input s path) with
  | Ok output => print (su_stdout_ok s) (PrintedBytes output)
  | Err error => FAILURE [VerifyFailed error]
  end.

Definition demo_devnet (s : Surroundings) (payer program out rpc : text) (checkpoint : option text) : Exit :=
  let e := match su_devnet_proof s payer program out rpc checkpoint with
    | Ok output => print (su_stdout_ok s) (PrintedBytes output)
    | Err error => FAILURE [DevnetDemoFailed error]
    end in
  {| ex_code := ex_code e; ex_stdout := ex_stdout e; ex_stderr := SyntheticAssetsWarning :: ex_stderr e |}.

(** The arms of [main], by the number of arguments. *)
Definition usage (machine : Machine) : Machine * Exit :=
  (machine, {| ex_code := 2; ex_stdout := PrintedBytes []; ex_stderr := [USAGE] |}).

Definition main_two (s : Surroundings) (machine : Machine) (group command : text) : Machine * Exit :=
  let keyper handler complain :=
    let '(disk, outcome) := handler (mc_lock machine) in (set_lock machine disk, finish complain outcome) in
  if (group == bstr "client") && (command == bstr "epoch") then
    (machine, finish (fun e => [EpochRejected e]) (handle_client_epoch (su_now s) (su_stdin s) (su_stdout_ok s))) else
  if (group == bstr "keyper") && (command == bstr "self-test") then
    (machine, finish (fun _ => []) (handle_keyper_self_test (su_stdin s) (su_stdout_ok s))) else
  if (group == bstr "keyper") && (command == bstr "sign-lock") then
    keyper (handle_keyper_sign_lock (su_keyper_files s) (su_keyper_rpc s) (su_lock_open s) (su_lock_sign s) (su_stdin s) (su_stdout_ok s))
      (fun e => [SignLockRejected e]) else
  if (group == bstr "keyper") && (command == bstr "release-share") then
    keyper (handle_keyper_release_share (su_keyper_files s) (su_keyper_rpc s) (su_lock_open s) (su_stdin s) (su_stdout_ok s))
      (fun e => [ReleaseShareRejected e]) else
  if (group == bstr "keyper") && (command == bstr "sign-settlement") then
    keyper (handle_keyper_sign_settlement (su_keyper_files s) (su_keyper_rpc s) (su_lock_open s) (su_stdin s) (su_stdout_ok s))
      (fun e => [SignSettlementRejected e]) else
  if (group == bstr "demo") && (command == bstr "local") then
    (machine, match su_local_proof s with
      | Ok output => print (su_stdout_ok s) (PrintedBytes output)
      | Err error => FAILURE [LocalDemoFailed error]
      end) else
  usage machine.

Definition main_three (s : Surroundings) (machine : Machine) (group command last : text) : Machine * Exit :=
  let help page := (machine, print (su_stdout_ok s) (PrintedHelp page)) in
  let client name := (group == bstr "client") && (command == name) && (last == bstr "--help") in
  if client (bstr "account") then help CLIENT_ACCOUNT_HELP else
  if client (bstr "epoch") then help CLIENT_EPOCH_HELP else
  if client (bstr "prepare") then help CLIENT_PREPARE_HELP else
  if client (bstr "result") then help CLIENT_RESULT_HELP else
  if (group == bstr "verify") && (command == bstr "evidence") then (machine, verify_evidence s last DEFAULT_DEVNET_RPC) else
  usage machine.

Definition main_six (s : Surroundings) (machine : Machine) (group command state_flag state keypair_flag keypair : text) : Machine * Exit :=
  let flags := (state_flag == bstr "--state") && (keypair_flag == bstr "--keypair") in
  let journal handler complain :=
    let '(file, outcome) := handler (mc_accounts machine !! state) in (set_accounts machine state file, finish complain outcome) in
  if (group == bstr "client") && (command == bstr "account") && flags then
    journal (fun file => handle_client_account (su_account_open s) (su_account_io s) file (su_stdin s) (su_stdout_ok s) (su_keypair s keypair))
      (fun e => [AccountRejected e]) else
  if (group == bstr "client") && (command == bstr "result") && flags then
    journal (fun file => handle_client_result (su_account_open s) (su_account_io s) file (su_stdin s) (su_stdout_ok s) (su_keypair s keypair))
      (fun e => [ResultRejected e]) else
  usage machine.

Definition is_demo_devnet (group command payer_flag program_flag out_flag : text) : bool :=
  (group == bstr "demo") && (command == bstr "devnet") && (payer_flag == bstr "--payer") && (program_flag == bstr "--program")
  && (out_flag == bstr "--out").

Definition main (s : Surroundings) (machine : Machine) (arguments : list text) : Machine * Exit :=
  match arguments with
  | [command] =>
      if command == bstr "trace" then
        (machine, match trace_fixture with
          | Ok output => print (su_stdout_ok s) (PrintedBytes output)
          | Err (TraceLedger error) => FAILURE [TraceFailed error]
          | Err TracePanic => {| ex_code := 101; ex_stdout := PrintedBytes []; ex_stderr := [Panic] |}
          end)
      else usage machine
  | [group; command] => main_two s machine group command
  | [group; command; last] => main_three s machine group command last
  | [group; command; keypair_flag; keypair] =>
      if (group == bstr "client") && (command == bstr "prepare") && (keypair_flag == bstr "--keypair") then
        (machine, finish (fun e => [PrepareRejected e])
           (handle_client_prepare (su_randomness s) (su_receipt s) (su_nonce s) (su_stdin s) (su_stdout_ok s) (su_keypair s keypair)))
      else usage machine
  | [group; command; path; flag; value] =>
      if (group == bstr "verify") && (command == bstr "evidence") && (flag == bstr "--rpc") then (machine, verify_evidence s path value) else
      if (group == bstr "verify") && (command == bstr "evidence") && (flag == bstr "--checkpoint-artifact") then
        (machine, verify_evidence_with_checkpoint s path value DEFAULT_DEVNET_RPC) else
      usage machine
  | [group; command; state_flag; state; keypair_flag; keypair] => main_six s machine group command state_flag state keypair_flag keypair
  | [group; command; path; checkpoint_flag; checkpoint; rpc_flag; rpc] =>
      if (group == bstr "verify") && (command == bstr "evidence") && (checkpoint_flag == bstr "--checkpoint-artifact")
         && (rpc_flag == bstr "--rpc")
      then (machine, verify_evidence_with_checkpoint s path checkpoint rpc) else usage machine
  | [group; command; payer_flag; payer; program_flag; program; out_flag; out] =>
      if is_demo_devnet group command payer_flag program_flag out_flag
      then (machine, demo_devnet s payer program out DEFAULT_DEVNET_RPC None) else usage machine
  | [group; command; payer_flag; payer; program_flag; program; out_flag; out; flag; value] =>
      if is_demo_devnet group command payer_flag program_flag out_flag && (flag == bstr "--rpc")
      then (machine, demo_devnet s payer program out value None) else
      if is_demo_devnet group command payer_flag program_flag out_flag && (flag == bstr "--checkpoint-artifact")
      then (machine, demo_devnet s payer program out DEFAULT_DEVNET_RPC (Some value)) else usage machine
  | [group; command; payer_flag; payer; program_flag; program; out_flag; out; checkpoint_flag; checkpoint; rpc_flag; rpc] =>
      if is_demo_devnet group command payer_flag program_flag out_flag && (checkpoint_flag == bstr "--checkpoint-artifact")
         && (rpc_flag == bstr "--rpc")
      then (machine, demo_devnet s payer program out rpc (Some checkpoint)) else usage machine
  | _ => usage machine
  end.
End main.
