(* ===== verification/Transactions.v ===== *)
(** * Signed transactions (crates/kageb-host/src/demo.rs, lines 3161 to 3189)

    [Transaction::new_signed_with_payer] panics unless the key pairs it is given are exactly those of the
    payer and of the accounts its instructions want signed.  The demonstrations send every transaction
    through it, and the builders of the program are matched here with the signers that are enough. *)

From S2P Require Import Prelude Bytes Extern ProgramWire ProgramInstruction.

Definition ix_signers (ix : Instruction) : list Pubkey := map am_pubkey (List.filter am_is_signer (ix_accounts ix)).
Definition signer_keys (l : list Instruction) : list Pubkey := concat (map ix_signers l).

(** No panic for a missing signer or for a key pair that has nothing to sign. *)
Definition fully_signed (payer : Pubkey) (extra_signers : list Pubkey) (l : list Instruction) : bool :=
  forallb (fun k => bool_decide (k ∈ payer :: extra_signers)) (signer_keys l)
  && forallb (fun k => bool_decide (k ∈ payer :: signer_keys l)) extra_signers.

Lemma fully_signed_iff payer extra l :
  fully_signed payer extra l = true <->
  (forall k, k ∈ signer_keys l -> k ∈ payer :: extra) /\ (forall k, k ∈ extra -> k ∈ payer :: signer_keys l).
Proof.
  unfold fully_signed. rewrite andb_true_iff, !forallb_forall. split; intros [H1 H2]; split; intros k Hk%list_elem_of_In.
  - specialize (H1 k Hk). by bguard.
  - specialize (H2 k Hk). by bguard.
  - by apply bool_decide_eq_true, H1.
  - by apply bool_decide_eq_true, H2.
Qed.

(** The signers listed, in any order and with the payer among them or not. *)
Lemma fully_signed_same payer extra l :
  (forall k, k = payer \/ k ∈ signer_keys l <-> k = payer \/ k ∈ extra) -> fully_signed payer extra l = true.
Proof. intros HK. apply fully_signed_iff. split; intros k Hk; apply elem_of_cons, HK; by right. Qed.

Create HintDb signed.
Ltac signed := apply fully_signed_same; intros k; cbn; rewrite ?app_nil_r; rewrite ?elem_of_cons; naive_solver.

Section builders.
Context `{Sha256} `{Solana}.

Lemma signed_initialize_pool payer accounts args :
  ipa_payer accounts = payer -> fully_signed payer [ipa_operator accounts] [initialize_pool_instruction accounts args] = true.
Proof. intros <-. signed. Qed.

Lemma signed_create_epoch payer operator pool epoch args :
  fully_signed payer [operator] [create_epoch_instruction payer operator pool epoch args] = true.
Proof. signed. Qed.

Lemma signed_expire payer operator pool epoch : fully_signed payer [operator] [expire_instruction operator pool epoch] = true.
Proof. signed. Qed.

Lemma signed_abort payer operator pool epoch : fully_signed payer [operator] [abort_instruction operator pool epoch] = true.
Proof. signed. Qed.

(** Behind two instructions that want no signature. *)
Lemma signed_lock payer operator pool epoch payload first second :
  ix_signers first = [] -> ix_signers second = [] ->
  fully_signed payer [operator] [first; second; lock_instruction operator pool epoch payload] = true.
Proof. intros H1 H2. apply fully_signed_same. intros k. unfold signer_keys. cbn [map concat]. rewrite H1, H2. cbn. rewrite ?elem_of_cons. naive_solver. Qed.

Lemma signed_settle payer accounts payload first second :
  ix_signers first = [] -> ix_signers second = [] ->
  fully_signed payer [sa_payer accounts; sa_venue_authority accounts] [first; second; settle_instruction accounts payload] = true.
Proof. intros H1 H2. apply fully_signed_same. intros k. unfold signer_keys. cbn [map concat]. rewrite H1, H2. cbn. rewrite ?elem_of_cons. naive_solver. Qed.
End builders.
#[export] Hint Resolve signed_initialize_pool signed_create_epoch signed_expire signed_abort signed_lock signed_settle : signed.
