(* ===== verification/LocalDemo.v ===== *)
(** * The local rehearsals (crates/kageb-host/src/demo.rs, lines 2261 to 2872 and 3326 to 3383)

    Three scenarios that the demonstration plays against a local validator after its main run: a
    balanced batch that settles without a venue leg, an epoch that stays underfilled, expires and
    frees its reservations, and a batch with an intent that does not decode, which is aborted and
    whose trader is suspended.  What the node answers, which transactions it confirms, the draws of
    randomness, the files and the keypers' processes are arguments. *)

From S2P Require Import Prelude Bytes Extern ProgramWire ProgramState ProgramInstruction Transactions HostExtern BTree Domain Ledger Commitment.
From S2P Require Import Storage Reservation Account HostCrypto Suspension Dealer LockJournal Lock ConfirmedReads Settlement Keyper Client Evidence Deploy Devnet.
From S2P Require Import HostCryptoProps.

Inductive LocalError : Type :=
| ReadClock | DecodeClock | ClockOverflow | NoRandomness | NotSent | Unsigned | NoTempdir | OpenAccounts | OpenReservations | OpenSuspensions | Dealing | ReadSlot
| MakeReservation | MakeAuthorization | MakeIntent | MakeEncryption | MakeSubmission | MakeBalance | MakeSnapshot | MakePackage
| KeyperDirectories | SigningLock (index : nat) | Releasing (index : nat) | MakeEvidence | ConfirmLock | MakeSettlement | SigningSettlement (index : nat)
| BalancedVenueLeg | ReadTokens | ReadEpochState | DecodeEpochState | BalancedMoved
| ExpiryMoved | ConfirmTerminal | ReleaseFailed | ReservationActive | ClockStopped
| MalformedMissing | InvalidDecoded | AbortMoved | PersistSuspension | ReopenSuspensions | NotDurablySuspended | LaterReservation | LaterAuthorization.
Global Instance LocalError_eq_dec : EqDecision LocalError.
Proof. solve_decision. Defined.

(** [new_ed25519_instruction_with_signature] *)
Class LocalCodec : Type := ed25519_instruction : list byte -> arr 64 -> bytes32 -> Instruction.

(** The verifier's instruction names no account. *)
Class LocalCodecLaws `{LocalCodec} : Prop := verifier_unsigned message signature key : ix_signers (ed25519_instruction message signature key) = [].

Section local.
Context `{Sha256} `{Solana} `{Dalek} `{Threshold} `{Sysvars} `{!KeyperCodec} `{!SecretSets} `{!LocalCodec}.

(** What one member draws: its trading key's seed, its id, its reservation, its intent's nonce, the
    randomness of its encryption and its receipt; and the system calls of its reservation and authorization. *)
Record MemberDraws : Type := {
  mw_trading : option bytes32;
  mw_participant : option bytes32;
  mw_reservation : option bytes32;
  mw_intent_nonce : option (arr 16);
  mw_encryption : Randomness;
  mw_receipt : option bytes32;
  mw_reserve : Io;
  mw_issue : Io;
}.

(** What a scenario meets: the draws of its epoch, its members and its package, the node's answers, the
    transactions the node confirms, by their number, and the system calls on its private files. *)
Record LocalWorld : Type := {
  lw_clock : option RpcAccount;
  lw_epoch_id : option bytes32;
  lw_blockhash : nat -> bool;
  lw_sends : nat -> list Instruction -> bool;
  lw_tempdir : bool;
  lw_accounts_open : Io;
  lw_reservations_open : Io;
  lw_suspensions_open : Io;
  lw_dealer : option bytes32;
  lw_slot : option Z;
  lw_members : nat -> MemberDraws;
  lw_package_nonce : option bytes32;
  lw_directories : bool;
  lw_sign_lock : nat -> ChildWorld;
  lw_release_share : nat -> nat -> ChildWorld;
  lw_sign_settlement : nat -> ChildWorld;
  lw_confirmed : RpcReplies;
  lw_settlement_nonce : option bytes32;
  lw_tokens_before : Pubkey -> option RpcAccount;
  lw_tokens_after : Pubkey -> option RpcAccount;
  lw_epoch_after : option RpcAccount;
  lw_clock_polls : nat -> option RpcAccount;
  lw_release : SettleIo;
  lw_suspend : Io;
  lw_suspensions_reopen : Io;
  lw_later : MemberDraws;
  lw_later_epoch : option bytes32;
}.

(** The market of the scenario and who runs it. *)
Record LocalMarket : Type := {
  lm_payer : Pubkey;
  lm_operator : Pubkey;
  lm_attestation : SigningKey;
  lm_pool : Pubkey;
  lm_vault_authority : Pubkey;
  lm_base_mint : Pubkey;
  lm_quote_mint : Pubkey;
  lm_venue_authority : Pubkey;
  lm_attesters : SigningKey * SigningKey * SigningKey;
  lm_backed : four Pubkey;
}.

Definition lock_verifier (approval : LockApprovalV1) (digest : bytes32) : Instruction :=
  ed25519_instruction digest (la_signature approval) (la_keyper_key approval).
Definition settlement_verifier (approval : SettlementApprovalV1) (digest : bytes32) : Instruction :=
  ed25519_instruction digest (sa_signature approval) (sa_keyper_key approval).

(** ** Steps the scenarios share *)

Definition read_clock (account : option RpcAccount) : result LocalError Z :=
  account ← ok_or ReadClock account;
  clock ← ok_or DecodeClock (clock_deserialize (ra_data account));
  Ok (clk_unix_timestamp clock).

(** [i64] and [u64] additions that panic on overflow. *)
Definition add_i64 (a b : Z) : result LocalError Z := ok_or ClockOverflow (checked_add_i64 a b).
Definition add_u64 (a b : Z) : result LocalError Z := ok_or ClockOverflow (checked_add_u64 a b).

(** A panic of the signing is an error of its own. *)
Definition send (w : LocalWorld) (payer : Pubkey) (number : nat) (instructions : list Instruction) (extra_signers : list Pubkey) : result LocalError unit :=
  if negb (lw_blockhash w number) then Err NotSent else
  if negb (fully_signed payer extra_signers instructions) then Err Unsigned else
  if lw_sends w number instructions then Ok tt else Err NotSent.

Definition create_epoch_step (w : LocalWorld) (m : LocalMarket) (epoch_id : bytes32) (lock_deadline abort_deadline : Z) : result LocalError Pubkey :=
  let epoch := fst (epoch_address (lm_pool m) epoch_id) in
  send w (lm_payer m) 0 [create_epoch_instruction (lm_payer m) (lm_operator m) (lm_pool m) epoch
    {| ca_epoch_id := epoch_id; ca_minimum_count := 4; ca_quote_atoms_per_lot := 100; ca_lock_deadline := lock_deadline;
       ca_abort_deadline := abort_deadline |}] [lm_operator m] ;;
  Ok epoch.

(** The new files of a fresh private directory. *)
Definition open_accounts (w : LocalWorld) : result LocalError AccountJournal :=
  map_err (fun _ => OpenAccounts) (snd (AccountJournal_open (lw_accounts_open w) None)).
Definition open_reservations (w : LocalWorld) : result LocalError ReservationJournal :=
  map_err (fun _ => OpenReservations) (snd (ReservationJournal_open (lw_reservations_open w) None)).
Definition open_suspensions (w : LocalWorld) : result LocalError SuspensionRegistry :=
  map_err (fun _ => OpenSuspensions) (snd (SuspensionRegistry_open (lw_suspensions_open w) None)).

Definition one_lot : PoolBalance := {| base_atoms := 1; quote_atoms := 100 |}.

Definition reserve_step (io : Io) (journal : ReservationJournal) (nonce epoch_id participant : bytes32)
  : result LocalError (ReservationJournal * UnsignedFundedAuthorizationV1) :=
  record ← map_err (fun _ => MakeReservation) (ReservationRecord_new nonce epoch_id participant 1 100);
  let '(journal, reserved) := ReservationJournal_reserve io journal record one_lot in
  reserved ← map_err (fun _ => MakeReservation) reserved;
  Ok (journal, reserved).

Definition token_amounts (accounts : Pubkey -> option RpcAccount) (m : LocalMarket) : result LocalError (list Z) :=
  map_err (fun _ => ReadTokens) (try_map (fun account => token_amount (accounts account)) (four_list (lm_backed m))).

Definition read_epoch_state (account : option RpcAccount) : result LocalError EpochStateV1 :=
  account ← ok_or ReadEpochState account;
  map_err (fun _ => DecodeEpochState) (EpochStateV1_decode (ra_data account)).

(** The loop that waits for a deadline; [polls] bounds its turns, and running out of them is [ClockStopped]. *)
Fixpoint wait_past (clock : nat -> option RpcAccount) (deadline : Z) (turn polls : nat) : result LocalError unit :=
  match polls with
  | O => Err ClockStopped
  | S polls =>
      now ← read_clock (clock turn);
      if (deadline <? now)%Z then Ok tt else wait_past clock deadline (S turn) polls
  end.

Definition attester_keys (m : LocalMarket) : Pubkey * Pubkey * Pubkey := three_map (fun key => verifying_key key : Pubkey) (lm_attesters m).

Definition local_configuration (m : LocalMarket) (epoch_id : bytes32) (lock_deadline abort_deadline : Z) : EpochConfigurationV1 :=
  {| cfg_pool := lm_pool m; cfg_epoch_id := epoch_id; cfg_base_mint := lm_base_mint m; cfg_quote_mint := lm_quote_mint m;
     cfg_base_lot_atoms := 1; cfg_quote_atoms_per_lot := 100; cfg_minimum_count := 4; cfg_lock_threshold := 2;
     cfg_settlement_threshold := 2; cfg_keypers := attester_keys m; cfg_lock_deadline := lock_deadline; cfg_abort_deadline := abort_deadline |}.

Definition keyper_key (m : LocalMarket) (index : nat) : Pubkey := nth index (keyper_list (attester_keys m)) zero32.

(** What a member brings into the package. *)
Record LocalMember : Type := {
  me_trading : SigningKey;
  me_participant : bytes32;
  me_nonce : bytes32;
  me_submission : EncryptedSubmissionV1;
  me_balance : BalanceRecordV1;
}.

(** One turn of the loop over the members; [encrypt] is what the turn encrypts of the signed intent. *)
Definition prepare_member (d : MemberDraws) (m : LocalMarket) (suspensions : SuspensionRegistry) (epoch_id : bytes32) (current_slot : Z) (side : Side)
    (encrypt : SignedIntentV1 -> result CryptoError EncryptedIntentV1) (journal : ReservationJournal)
  : result LocalError (ReservationJournal * LocalMember) :=
  seed ← ok_or NoRandomness (mw_trading d);
  let trading := signing_key_from_bytes seed in
  participant_id ← ok_or NoRandomness (mw_participant d);
  nonce ← ok_or NoRandomness (mw_reservation d);
  '(journal, reserved) ← reserve_step (mw_reserve d) journal nonce epoch_id participant_id;
  expiry_slot ← add_u64 current_slot 1000;
  authorization ← map_err (fun _ => MakeAuthorization)
    (SuspensionRegistry_issue_authorization (mw_issue d) suspensions reserved (verifying_key trading) (lm_attestation m) expiry_slot);
  intent_nonce ← ok_or NoRandomness (mw_intent_nonce d);
  body ← map_err (fun _ => MakeIntent) (IntentBodyV1_new side 1 100 epoch_id participant_id intent_nonce);
  encrypted ← map_err (fun _ => MakeEncryption) (encrypt (SignedIntentV1_sign body trading));
  receipt ← ok_or NoRandomness (mw_receipt d);
  submission ← map_err (fun _ => MakeSubmission) (EncryptedSubmissionV1_sign authorization encrypted receipt trading);
  balance ← map_err (fun _ => MakeBalance) (BalanceRecordV1_new participant_id 1 100 1 100);
  Ok (journal, {| me_trading := trading; me_participant := participant_id; me_nonce := nonce; me_submission := submission; me_balance := balance |}).

Definition local_package (w : LocalWorld) (m : LocalMarket) (epoch : Pubkey) (configuration : EpochConfigurationV1) (keys : EpochPublicKeys)
    (members : list LocalMember) : result LocalError LockPackageV1 :=
  let balances := map me_balance members in
  snapshot ← map_err (fun _ => MakeSnapshot) (SignedBalanceSnapshotV1_sign (cfg_epoch_id configuration) balances (lm_attestation m));
  nonce ← ok_or NoRandomness (lw_package_nonce w);
  map_err (fun _ => MakePackage) (LockPackageV1_new epoch configuration keys (map me_submission members) balances snapshot nonce).

(** The three approvals, of which the first two go with the lock. *)
Definition sign_and_lock (w : LocalWorld) (m : LocalMarket) (dealer : EpochDealer) (epoch : Pubkey) (package : LockPackageV1) : result LocalError unit :=
  let sign index := map_err (fun _ => SigningLock index)
    (run_keyper_sign_lock (lw_sign_lock w index) (EpochDealer_share dealer epoch (Z.of_nat index)) (keyper_key m index) package) in
  first ← sign 0;
  second ← sign 1;
  sign 2 ;;
  let digest := LockPayloadV1_digest (LockPackageV1_lock_payload package) in
  send w (lm_payer m) 1 [lock_verifier first digest; lock_verifier second digest;
            lock_instruction (lm_operator m) (lm_pool m) epoch (LockPackageV1_lock_payload package)] [lm_operator m].

Definition lock_step (w : LocalWorld) (m : LocalMarket) (dealer : EpochDealer) (epoch : Pubkey) (package : LockPackageV1) : result LocalError unit :=
  if negb (lw_directories w) then Err KeyperDirectories else sign_and_lock w m dealer epoch package.

Definition release_step (w : LocalWorld) (dealer : EpochDealer) (epoch : Pubkey) (package : LockPackageV1) (member : nat)
  : result LocalError (ReleasedShareV1 * ReleasedShareV1) :=
  let release index := map_err (fun _ => Releasing index)
    (run_keyper_release_share (lw_release_share w index member) (EpochDealer_share dealer epoch (Z.of_nat index)) package member) in
  first ← release 0;
  second ← release 1;
  Ok (first, second).

(** ** A balanced batch *)

(** The loop over the members, in order. *)
Fixpoint prepare_members (prepare : nat -> ReservationJournal -> result LocalError (ReservationJournal * LocalMember))
    (indices : list nat) (journal : ReservationJournal) : result LocalError (ReservationJournal * list LocalMember) :=
  match indices with
  | [] => Ok (journal, [])
  | index :: indices =>
      '(journal, member) ← prepare index journal;
      '(journal, members) ← prepare_members prepare indices journal;
      Ok (journal, member :: members)
  end.

Definition balanced_sides : list Side := [Buy; Sell; Buy; Sell].

Definition balanced_evidence (w : LocalWorld) (dealer : EpochDealer) (epoch : Pubkey) (package : LockPackageV1) (member : nat)
  : result LocalError DecryptionEvidenceV1 :=
  '(first, second) ← release_step w dealer epoch package member;
  map_err (fun _ => MakeEvidence) (DecryptionEvidenceV1_new first second).

Definition local_settle_accounts (m : LocalMarket) (epoch : Pubkey) : SettleAccounts :=
  let '(pool_base, pool_quote, venue_base, venue_quote) := lm_backed m in
  {| sa_payer := lm_operator m; sa_pool := lm_pool m; sa_epoch := epoch; sa_vault_authority := lm_vault_authority m;
     sa_pool_base_vault := pool_base; sa_pool_quote_vault := pool_quote; sa_venue_authority := lm_venue_authority m;
     sa_venue_base_account := venue_base; sa_venue_quote_account := venue_quote; sa_base_mint := lm_base_mint m; sa_quote_mint := lm_quote_mint m |}.

(** The request, its two approvals and the settlement, with the tokens read around it. *)
Definition settle_balanced (w : LocalWorld) (m : LocalMarket) (dealer : EpochDealer) (epoch : Pubkey) (package : LockPackageV1)
    (evidence : list DecryptionEvidenceV1) (confirmed : ConfirmedLock) : result LocalError unit :=
  nonce ← ok_or NoRandomness (lw_settlement_nonce w);
  settlement ← map_err (fun _ => MakeSettlement) (SettlementRequestV1_build package evidence nonce confirmed);
  let sign index := map_err (fun _ => SigningSettlement index)
    (run_keyper_sign_settlement (lw_sign_settlement w index) (EpochDealer_share dealer epoch (Z.of_nat index)) (keyper_key m index) settlement) in
  first ← sign 0;
  second ← sign 1;
  let payload := sa_payload first in
  if (sp_residual_side payload != 0%Z) || (sp_residual_lots payload != 0%Z) then Err BalancedVenueLeg else
  before ← token_amounts (lw_tokens_before w) m;
  let digest := SettlementPayloadV1_digest payload in
  send w (lm_payer m) 2 [settlement_verifier first digest; settlement_verifier second digest;
            settle_instruction (local_settle_accounts m epoch) payload] [lm_operator m; lm_venue_authority m] ;;
  after ← token_amounts (lw_tokens_after w) m;
  state ← read_epoch_state (lw_epoch_after w);
  if (before != after) || (terminal_state state != Settled) || (ep_residual_side state != 0%Z) || (ep_residual_lots state != 0%Z)
  then Err BalancedMoved else Ok tt.

Definition balanced_zero_residual_settlement (w : LocalWorld) (m : LocalMarket) : result LocalError unit :=
  now ← read_clock (lw_clock w);
  epoch_id ← ok_or NoRandomness (lw_epoch_id w);
  lock_deadline ← add_i64 now 300;
  abort_deadline ← add_i64 now 600;
  epoch ← create_epoch_step w m epoch_id lock_deadline abort_deadline;
  if negb (lw_tempdir w) then Err NoTempdir else
  reservations ← open_reservations w;
  suspensions ← open_suspensions w;
  dealer ← map_err (fun _ => Dealing) (EpochDealer_random (lw_dealer w));
  current_slot ← ok_or ReadSlot (lw_slot w);
  '(_, members) ← prepare_members
    (fun index => prepare_member (lw_members w index) m suspensions epoch_id current_slot (nth index balanced_sides Buy)
       (EpochPublicKeys_encrypt (EpochDealer_public_keys dealer) (mw_encryption (lw_members w index)))) [0; 1; 2; 3] reservations;
  package ← local_package w m epoch (local_configuration m epoch_id lock_deadline abort_deadline) (EpochDealer_public_keys dealer) members;
  lock_step w m dealer epoch package ;;
  confirmed ← map_err (fun _ => ConfirmLock) (fetch_confirmed_lock (lw_confirmed w) epoch);
  evidence ← try_map (balanced_evidence w dealer epoch package) [0; 1; 2; 3];
  settle_balanced w m dealer epoch package evidence confirmed.

(** ** An underfilled epoch *)

(** One turn of the loop that reserves; the second draw is the participant. *)
Fixpoint reserve_all (w : LocalWorld) (epoch_id : bytes32) (indices : list nat) (journal : ReservationJournal)
  : result LocalError (ReservationJournal * list bytes32) :=
  match indices with
  | [] => Ok (journal, [])
  | index :: indices =>
      nonce ← ok_or NoRandomness (mw_reservation (lw_members w index));
      participant ← ok_or NoRandomness (mw_participant (lw_members w index));
      '(journal, _) ← reserve_step (mw_reserve (lw_members w index)) journal nonce epoch_id participant;
      '(journal, nonces) ← reserve_all w epoch_id indices journal;
      Ok (journal, nonce :: nonces)
  end.

(** Freeing the reservations of a terminal epoch, and looking at each of them. *)
Definition release_all (w : LocalWorld) (epoch : Pubkey) (accounts : AccountJournal) (reservations : ReservationJournal) (nonces : list bytes32)
  : result LocalError ReservationJournal :=
  terminal_epoch ← map_err (fun _ => ConfirmTerminal) (fetch_confirmed_terminal_epoch (lw_confirmed w) epoch);
  let '(accounts, reservations, released) := release_reservations (lw_release w) accounts reservations terminal_epoch nonces in
  map_err (fun _ => ReleaseFailed) released ;;
  if existsb (fun nonce => ReservationJournal_state reservations nonce != Some ReservationState.Released) nonces then Err ReservationActive
  else Ok reservations.

Definition underfilled_epoch_expires_and_releases (w : LocalWorld) (m : LocalMarket) (polls : nat) : result LocalError unit :=
  now ← read_clock (lw_clock w);
  epoch_id ← ok_or NoRandomness (lw_epoch_id w);
  lock_deadline ← add_i64 now 2;
  abort_deadline ← add_i64 lock_deadline 30;
  epoch ← create_epoch_step w m epoch_id lock_deadline abort_deadline;
  if negb (lw_tempdir w) then Err NoTempdir else
  accounts ← open_accounts w;
  reservations ← open_reservations w;
  '(reservations, nonces) ← reserve_all w epoch_id [0; 1; 2] reservations;
  before ← token_amounts (lw_tokens_before w) m;
  wait_past (lw_clock_polls w) lock_deadline 0 polls ;;
  send w (lm_payer m) 1 [expire_instruction (lm_operator m) (lm_pool m) epoch] [lm_operator m] ;;
  state ← read_epoch_state (lw_epoch_after w);
  after ← token_amounts (lw_tokens_after w) m;
  if (terminal_state state != Expired) || (before != after) then Err ExpiryMoved else
  release_all w epoch accounts reservations nonces ;;
  Ok tt.

(** ** An intent that does not decode *)

(** [encoded[2..6].copy_from_slice(&2_u32.to_le_bytes())]: two lots in an intent of one. *)
Definition malform (signed : SignedIntentV1) : list byte := put_at 2 (le_bytes 4 2) (SignedIntentV1_encode signed).

(** What the member at [index] encrypts: the last one a malformed intent. *)
Definition encrypt_revealed (w : LocalWorld) (keys : EpochPublicKeys) (index : nat) (signed : SignedIntentV1)
  : result CryptoError EncryptedIntentV1 :=
  let rnd := mw_encryption (lw_members w index) in
  if index =? 3 then EpochPublicKeys_encrypt_encoded_intent keys rnd (malform signed) else EpochPublicKeys_encrypt keys rnd signed.

(** Waiting for the deadline, aborting, and freeing the reservations. *)
Definition abort_step (w : LocalWorld) (m : LocalMarket) (polls : nat) (epoch : Pubkey) (abort_deadline : Z) (accounts : AccountJournal)
    (reservations : ReservationJournal) (nonces : list bytes32) : result LocalError ReservationJournal :=
  before ← token_amounts (lw_tokens_before w) m;
  wait_past (lw_clock_polls w) abort_deadline 0 polls ;;
  send w (lm_payer m) 2 [abort_instruction (lm_operator m) (lm_pool m) epoch] [lm_operator m] ;;
  state ← read_epoch_state (lw_epoch_after w);
  after ← token_amounts (lw_tokens_after w) m;
  if (terminal_state state != Aborted) || (before != after) then Err AbortMoved else
  release_all w epoch accounts reservations nonces.

(** The suspension, reopened, and the authorization that must not follow. *)
Definition suspend_step (w : LocalWorld) (m : LocalMarket) (suspensions : SuspensionRegistry) (reservations : ReservationJournal)
    (trading : bytes32) (current_slot : Z) : result LocalError unit :=
  let '(suspensions, suspended) := SuspensionRegistry_suspend (lw_suspend w) suspensions trading in
  map_err (fun _ => PersistSuspension) suspended ;;
  reopened ← map_err (fun _ => ReopenSuspensions) (snd (SuspensionRegistry_open (lw_suspensions_reopen w) (sr_file suspensions)));
  if negb (SuspensionRegistry_is_suspended reopened trading) then Err NotDurablySuspended else
  later_epoch ← ok_or NoRandomness (lw_later_epoch w);
  nonce ← ok_or NoRandomness (mw_reservation (lw_later w));
  participant ← ok_or NoRandomness (mw_participant (lw_later w));
  '(_, later) ← map_err (fun _ => LaterReservation) (reserve_step (mw_reserve (lw_later w)) reservations nonce later_epoch participant);
  expiry_slot ← add_u64 current_slot 2000;
  match SuspensionRegistry_issue_authorization (mw_issue (lw_later w)) reopened later trading (lm_attestation m) expiry_slot with
  | Err SuspensionError.Suspended => Ok tt
  | _ => Err LaterAuthorization
  end.

Definition invalid_reveal_aborts_and_suspends (w : LocalWorld) (m : LocalMarket) (polls : nat) : result LocalError unit :=
  now ← read_clock (lw_clock w);
  epoch_id ← ok_or NoRandomness (lw_epoch_id w);
  lock_deadline ← add_i64 now 30;
  abort_deadline ← add_i64 now 32;
  epoch ← create_epoch_step w m epoch_id lock_deadline abort_deadline;
  dealer ← map_err (fun _ => Dealing) (EpochDealer_random (lw_dealer w));
  if negb (lw_tempdir w) then Err NoTempdir else
  accounts ← open_accounts w;
  reservations ← open_reservations w;
  suspensions ← open_suspensions w;
  current_slot ← ok_or ReadSlot (lw_slot w);
  '(reservations, members) ← prepare_members
    (fun index => prepare_member (lw_members w index) m suspensions epoch_id current_slot Buy
       (encrypt_revealed w (EpochDealer_public_keys dealer) index)) [0; 1; 2; 3] reservations;
  package ← local_package w m epoch (local_configuration m epoch_id lock_deadline abort_deadline) (EpochDealer_public_keys dealer) members;
  lock_step w m dealer epoch package ;;
  malformed ← ok_or MalformedMissing (members !! 3);
  malformed_index ← ok_or MalformedMissing
    (iter_position (fun s => EncryptedSubmissionV1_participant_id s == me_participant malformed) (pk_submissions package));
  '(first, second) ← release_step w dealer epoch package malformed_index;
  submission ← ok_or MalformedMissing (pk_submissions package !! malformed_index);
  if is_ok (EpochPublicKeys_recover_submission (EpochDealer_public_keys dealer) submission [first; second]) then Err InvalidDecoded else
  reservations ← abort_step w m polls epoch abort_deadline accounts reservations (map me_nonce members);
  suspend_step w m suspensions reservations (verifying_key (me_trading malformed)) current_slot.
End local.
