(* ===== verification/Validator.v ===== *)
(** * The local validator (crates/kageb-host/src/demo.rs, lines 3013 to 3143)

    [LocalValidator::start]: a range of ports for gossip and the dynamic services, a port for RPC and one for
    the faucet, and the command that is launched with them.  The sockets, the ledger's directory and the
    process are arguments.  The two loops that draw a port until one fits have no bound in the source and
    take a number of turns here. *)

From S2P Require Import Prelude Bytes Extern ProgramInstruction HostExtern Evidence EvidenceRpc EvidenceFile Deploy.

Inductive ValidatorError : Type := NoPort | NoPortRange | StillChoosing | NoLedger | NoLog | NotUtf8 | ValidatorNotLaunched.

(** The operating system's answers: the port of the n-th listener on port 0, and whether both sockets of a
    port can be bound in an attempt. *)
Record PortWorld : Type := { pw_draws : nat -> option Z; pw_bindable : nat -> Z -> bool }.

Definition RANGE_LEN : Z := 32.
Definition PORT_RANGE_ATTEMPTS : nat := 200.

(** Each call draws once; the calls are numbered. *)
Definition available_port (w : PortWorld) (n : nat) : result ValidatorError (nat * Z) :=
  port ← ok_or NoPort (pw_draws w n);
  Ok (S n, port).

(** [u16::checked_add] *)
Definition checked_add_u16 (a b : Z) : option Z := if (a + b <? 2 ^ 16)%Z then Some (a + b)%Z else None.

Definition port_span (first last : Z) : list Z := map (fun i => first + Z.of_nat i)%Z (seq 0 (Z.to_nat (last - first + 1))).

Fixpoint reserve_range (w : PortWorld) (attempt attempts n : nat) : result ValidatorError (nat * (Z * Z)) :=
  match attempts with
  | O => Err NoPortRange
  | S attempts =>
      '(n, start) ← available_port w n;
      match checked_add_u16 start (RANGE_LEN - 1) with
      | None => reserve_range w (S attempt) attempts n
      | Some last =>
          if forallb (pw_bindable w attempt) (port_span start last) then Ok (n, (start, last))
          else reserve_range w (S attempt) attempts n
      end
  end.

Definition available_port_range (w : PortWorld) : result ValidatorError (nat * (Z * Z)) := reserve_range w 0 PORT_RANGE_ATTEMPTS 0.

(** [loop { let candidate = available_port()?; if fits(candidate) { break candidate; } }] *)
Fixpoint choose_port (w : PortWorld) (fits : Z -> bool) (turns n : nat) : result ValidatorError (nat * Z) :=
  match turns with
  | O => Err StillChoosing
  | S turns =>
      '(n, candidate) ← available_port w n;
      if fits candidate then Ok (n, candidate) else choose_port w fits turns n
  end.

Record ValidatorPorts : Type := { vp_gossip : Z; vp_dynamic_end : Z; vp_rpc : Z; vp_faucet : Z }.

Definition outside (first last port : Z) : bool := (port <? first)%Z || (last <? port)%Z.

Definition choose_ports (w : PortWorld) (turns : nat) : result ValidatorError ValidatorPorts :=
  '(n, (gossip_port, dynamic_port_end)) ← available_port_range w;
  '(n, port) ← choose_port w (outside gossip_port dynamic_port_end) turns n;
  '(_, faucet_port) ← choose_port w
    (fun candidate => (candidate != port) && (Some candidate != checked_add_u16 port 1) && outside gossip_port dynamic_port_end candidate) turns n;
  Ok {| vp_gossip := gossip_port; vp_dynamic_end := dynamic_port_end; vp_rpc := port; vp_faucet := faucet_port |}.

(** [ID.to_string()] and [TOKEN_PROGRAM_ID.to_string()]. *)
Definition ID_TEXT : string := "HbMyCP5GxicksRpSVrchRTJTznP3zTrzCMb7FmZNRa77".
Definition TOKEN_PROGRAM_ID_TEXT : string := "TokenkegQfeZyiNwAJbNbGKPFXCWuBvf9Ss623VQ5DA".

Example texts_name_keys : le_val (rev ID) = base58_val 0 ID_TEXT /\ le_val (rev TOKEN_PROGRAM_ID) = base58_val 0 TOKEN_PROGRAM_ID_TEXT.
Proof. vm_compute. split; reflexivity. Qed.

Record ValidatorWorld : Type := {
  vw_ports : PortWorld;
  vw_ledger : option text;
  vw_log : bool;
  vw_log_clone : bool;
  vw_spawn : text -> list text -> bool;
}.

(** [Path::to_str] *)
Definition to_str (path : text) : result ValidatorError text := if utf8_ok (S (length path)) path then Ok path else Err NotUtf8.
Definition display_port (port : Z) : text := display_nat (Z.to_nat port).

Definition validator_arguments (p : ValidatorPorts) (ledger artifact token_artifact : text) : list text :=
  [bstr "--reset"; bstr "--quiet"; bstr "--ledger"; ledger; bstr "--rpc-port"; display_port (vp_rpc p);
   bstr "--gossip-port"; display_port (vp_gossip p);
   bstr "--dynamic-port-range"; display_port (vp_gossip p) ++ bstr "-" ++ display_port (vp_dynamic_end p);
   bstr "--faucet-port"; display_port (vp_faucet p);
   bstr "--bpf-program"; bstr ID_TEXT; artifact; bstr "--bpf-program"; bstr TOKEN_PROGRAM_ID_TEXT; token_artifact]%list.

(** The URL of the started validator. *)
Definition LocalValidator_start (w : ValidatorWorld) (turns : nat) (validator_executable artifact token_artifact : text)
  : result ValidatorError text :=
  p ← choose_ports (vw_ports w) turns;
  ledger ← ok_or NoLedger (vw_ledger w);
  if negb (vw_log w) then Err NoLog else
  if negb (vw_log_clone w) then Err NoLog else
  ledger ← to_str ledger;
  artifact ← to_str artifact;
  token_artifact ← to_str token_artifact;
  if negb (vw_spawn w validator_executable (validator_arguments p ledger artifact token_artifact)) then Err ValidatorNotLaunched else
  Ok (bstr "http://127.0.0.1:" ++ display_port (vp_rpc p))%list.

(** ** The ports *)

Lemma elem_of_port_span first last port : (first <= last)%Z -> port ∈ port_span first last <-> (first <= port <= last)%Z.
Proof.
  intros Hle. unfold port_span. rewrite list_elem_of_In, in_map_iff. split.
  - intros (i & <- & Hi%in_seq). lia.
  - intros HP. exists (Z.to_nat (port - first)). split; [lia|]. apply in_seq. lia.
Qed.

Lemma outside_iff first last port : outside first last port = true <-> (port < first \/ last < port)%Z.
Proof. unfold outside. rewrite orb_true_iff, !Z.ltb_lt. done. Qed.

Lemma reserve_range_Ok w attempt attempts n k first last :
  reserve_range w attempt attempts n = Ok (k, (first, last)) ->
  exists i m, attempt <= i < attempt + attempts /\ pw_draws w m = Some first /\ last = (first + 31)%Z /\ (last < 2 ^ 16)%Z /\
    forall port, (first <= port <= last)%Z -> pw_bindable w i port = true.
Proof.
  revert attempt n. induction attempts as [|attempts IH]; intros attempt n E; cbn [reserve_range] in E; [done|].
  apply bind_Ok in E as ([m start] & HD & E). unfold available_port in HD. apply bind_Ok in HD as (p & HD%ok_or_Ok & HP).
  apply Ok_inj in HP. injection HP as <- <-. unfold checked_add_u16, RANGE_LEN in E. destruct (Z.ltb_spec (p + (32 - 1)) (2 ^ 16)) as [Hlt|Hge].
  - destruct (forallb _ _) eqn:HB.
    + apply Ok_inj in E. simplify_eq. exists attempt, n. rewrite forallb_forall in HB. split_and!; [lia | lia | done | lia | lia |].
      intros port HP. apply HB, list_elem_of_In, elem_of_port_span; lia.
    + apply IH in E as (i & m & HI & HE). exists i, m. split; [lia | done].
  - apply IH in E as (i & m & HI & HE). exists i, m. split; [lia | done].
Qed.

Lemma choose_port_Ok w fits turns n k port : choose_port w fits turns n = Ok (k, port) -> fits port = true /\ exists m, pw_draws w m = Some port.
Proof.
  revert n. induction turns as [|turns IH]; intros n E; cbn [choose_port] in E; [done|].
  apply bind_Ok in E as ([m candidate] & HD & E). unfold available_port in HD. apply bind_Ok in HD as (p & HD%ok_or_Ok & HP).
  apply Ok_inj in HP. injection HP as <- <-. destruct (fits p) eqn:HF; [|by apply IH in E]. apply Ok_inj in E. simplify_eq. by split; [|exists n].
Qed.

(** A loop ends with the first candidate that fits, given that many turns. *)
Lemma choose_port_ends w fits turns n k port :
  (forall i, n <= i < k -> exists p, pw_draws w i = Some p /\ fits p = false) -> n <= k -> pw_draws w k = Some port -> fits port = true -> k < n + turns ->
  choose_port w fits turns n = Ok (S k, port).
Proof.
  revert n. induction turns as [|turns IH]; intros n HN Hle HD HF Hk; [lia|]. cbn [choose_port]. unfold available_port.
  destruct (decide (n = k)) as [->|Hne].
  - by rewrite HD, <- (Nat.add_0_r k); cbn; rewrite HF, Nat.add_0_r.
  - destruct (HN n) as (p & HP & Hf); [lia|]. rewrite HP. cbn. rewrite Hf. apply IH; [|lia|done|done|lia]. intros i Hi. apply HN. lia.
Qed.

(** The ports of the services are disjoint, and every port of the range could be bound in one attempt. *)
Lemma chosen_ports_disjoint w turns p :
  choose_ports w turns = Ok p ->
  (vp_dynamic_end p = vp_gossip p + 31)%Z /\ (vp_dynamic_end p < 2 ^ 16)%Z /\
  (exists attempt, attempt < PORT_RANGE_ATTEMPTS /\ forall port, (vp_gossip p <= port <= vp_dynamic_end p)%Z -> pw_bindable w attempt port = true) /\
  (vp_rpc p < vp_gossip p \/ vp_dynamic_end p < vp_rpc p)%Z /\ (vp_faucet p < vp_gossip p \/ vp_dynamic_end p < vp_faucet p)%Z /\
  vp_faucet p <> vp_rpc p /\ ((vp_rpc p + 1 < 2 ^ 16)%Z -> vp_faucet p <> (vp_rpc p + 1)%Z).
Proof.
  unfold choose_ports, available_port_range. intros E. apply bind_Ok in E as ([n [first last]] & HR & E).
  apply reserve_range_Ok in HR as (i & m & HI & _ & HL & HU & HB). apply bind_Ok in E as ([n1 port] & (HP%outside_iff & _)%choose_port_Ok & E).
  apply bind_Ok in E as ([n2 faucet] & (HF & _)%choose_port_Ok & E). apply Ok_inj in E as <-. cbn [vp_gossip vp_dynamic_end vp_rpc vp_faucet].
  apply andb_true_iff in HF as [[H1 H2]%andb_true_iff HO%outside_iff]. bguard. split_and!; try done; [exists i; split; [lia | done]|].
  intros Hu ->. apply H2. unfold checked_add_u16. by rewrite (proj2 (Z.ltb_lt _ _) Hu).
Qed.

(** The faucet keeps clear of the port after the RPC port, where the validator serves subscriptions; the range
    does not: here that port is the gossip port. *)
Definition next_door : PortWorld := {| pw_draws := fun n => nth_error [8000; 7999; 9000]%Z n; pw_bindable := fun _ _ => true |}.
Example subscription_port_in_range : exists p, choose_ports next_door 1 = Ok p /\ (vp_rpc p + 1 = vp_gossip p)%Z.
Proof. eexists. split; [vm_compute; reflexivity | reflexivity]. Qed.
