(* ===== verification/LocalRun.v ===== *)
(** * The local demonstration (crates/kageb-host/src/demo.rs, lines 293 to 945, 2874 to 2946 and 3145 to 3324)

    [local_proof]: a validator is started, a market of synthetic tokens is created, four members trade
    directly and then through one batch, and what an observer can tell of both is compared.  The
    rehearsals of [LocalDemo] follow the settlement.  What a start of the validator meets, the node's answers, the
    draws, the disk and the keypers' processes are arguments. *)

From S2P Require Import Prelude Bytes Extern ProgramWire ProgramState ProgramInstruction Transactions HostExtern BTree Domain Ledger Commitment.
From S2P Require Import Storage Reservation Account HostCrypto Suspension Dealer LockJournal Lock ConfirmedReads Settlement Keyper Client.
From S2P Require Import Observer Evidence EvidenceRpc Deploy Devnet CommandLine LocalDemo Validator.

Inductive ArtifactError : Type := ReadSources | ReadTimes | BuildNotLaunched | BuildFailed | NotCreated.

Inductive RunError : Type :=
| NoExecutable | Tools (error : DemoError) | Artifacts (error : ArtifactError) | StartingValidator (error : ValidatorError) | ValidatorUnhealthy
| TokenProgramMissing | TokenProgramNotExecutable | NoPayer | ReadRent | BuildToken | Unsent
| Step (error : LocalError) | Registration | Ordering | RunPolicy | PartialPackage
| IndexPanic | CrowdRaised | CrowdNotRefused | RunReleasing (index member : nat)
| OneShareDecrypted | Recovering (member : nat) | RecoveryDisagreed (member : nat) | RunEvidence (member : nat) | BatchDiffers
| ReadPool | DecodePool | BaseLotDiffers | UnexpectedSettlement | RunNetting | RunFinalize | QueryResult | ResultDiffers
| TransactionMissing | DirectTrace | PooledTrace | ObserverDiffers.

#[global] Instance IntentBodyV1_eq_dec : EqDecision IntentBodyV1.
Proof. solve_decision. Defined.
#[global] Instance SignedIntentV1_eq_dec : EqDecision SignedIntentV1.
Proof. solve_decision. Defined.

(** ** Artifacts *)

(** A snapshot of a directory tree, with what the calls on it yield: [None] is a directory that cannot be read
    or an entry that cannot. *)
Inductive Node : Type := FileNode | OtherNode | DirectoryNode (entries : option (list (option (text * Node)))).

(** The turn of the loop for one path, which enters directories. *)
Fixpoint files_below (path : text) (node : Node) : result ArtifactError (list text) :=
  match node with
  | FileNode => Ok [path]
  | OtherNode => Ok []
  | DirectoryNode None => Err ReadSources
  | DirectoryNode (Some entries) =>
      (fix each (l : list (option (text * Node))) : result ArtifactError (list text) :=
         match l with
         | [] => Ok []
         | None :: _ => Err ReadSources
         | Some (name, node) :: l =>
             files ← files_below (path_join path name) node;
             rest ← each l;
             Ok (files ++ rest)
         end) entries
  end.

Definition recursive_files (directory : text) (node : Node) : result ArtifactError (list text) :=
  match node with DirectoryNode _ => files_below directory node | _ => Err ReadSources end.

(** The files a package is built from, their modification times, and what [cargo build-sbf] does. *)
Inductive ModifiedTime : Type := ModifiedAt (time : Z) | NoFile | Unreadable.
Record ArtifactWorld : Type := {
  aw_sources : Node;
  aw_modified : text -> option Z;
  aw_artifact : ModifiedTime;
  aw_build : option bool;
  aw_created : bool;
}.

(** One turn of the fold over the inputs: a file that cannot be read stops it. *)
Definition newer (w : ArtifactWorld) (artifact_time : Z) (stale : bool) (input : text) : result ArtifactError bool :=
  modified ← ok_or ReadTimes (aw_modified w input);
  Ok (stale || (artifact_time <? modified)%Z).

Definition fresh_sbf_artifact (w : ArtifactWorld) (host_manifest package artifact_name : text) : result ArtifactError text :=
  let package_manifest := path_join host_manifest (bstr "../" ++ package) in
  let artifact := path_join host_manifest (bstr "../../target/deploy/" ++ artifact_name) in
  let inputs := [path_join package_manifest (bstr "Cargo.toml"); path_join host_manifest (bstr "../../Cargo.toml");
                 path_join host_manifest (bstr "../../Cargo.lock"); path_join host_manifest (bstr "../../rust-toolchain.toml")] in
  sources ← recursive_files (path_join package_manifest (bstr "src")) (aw_sources w);
  stale ← match aw_artifact w with
    | ModifiedAt time => try_fold (newer w time) false (inputs ++ sources)
    | NoFile => Ok true
    | Unreadable => Err ReadTimes
    end;
  if negb (stale : bool) then Ok artifact else
  success ← ok_or BuildNotLaunched (aw_build w);
  if negb (success : bool) then Err BuildFailed else
  if negb (aw_created w) then Err NotCreated else Ok artifact.

Definition fresh_sbf_artifacts (program token : ArtifactWorld) (manifest : text) : result ArtifactError (text * text) :=
  a ← fresh_sbf_artifact program manifest (bstr "kageb-program") (bstr "kageb_program.so");
  b ← fresh_sbf_artifact token manifest (bstr "kageb-token-fixture") (bstr "kageb_token_fixture.so");
  Ok (a, b).

(** [spl_token_interface] and [solana_system_interface] builders; [None] is their error. *)
Inductive AuthorityType : Type := MintTokens | FreezeAccount | AccountOwner | CloseAccount.
Class SetupCodec : Type := {
  system_create_account : Pubkey -> Pubkey -> Z -> Z -> Pubkey -> Instruction;
  spl_initialize_mint2 : Pubkey -> Pubkey -> Pubkey -> Z -> option Instruction;
  spl_initialize_account3 : Pubkey -> Pubkey -> Pubkey -> Pubkey -> option Instruction;
  spl_mint_to_checked : Pubkey -> Pubkey -> Pubkey -> Pubkey -> Z -> Z -> option Instruction;
  spl_set_authority : Pubkey -> Pubkey -> option Pubkey -> AuthorityType -> Pubkey -> option Instruction;
}.
(** Who signs: both sides of a creation, the authority of a mint or of an account, and nobody to initialize. *)
Class SetupCodecLaws `{Solana} `{SetupCodec} : Prop := {
  create_account_signers payer account rent size owner : ix_signers (system_create_account payer account rent size owner) = [payer; account];
  initialize_mint_signers program mint authority decimals ix : spl_initialize_mint2 program mint authority decimals = Some ix -> ix_signers ix = [];
  initialize_account_signers program account mint owner ix : spl_initialize_account3 program account mint owner = Some ix -> ix_signers ix = [];
  mint_to_signers program mint account owner amount decimals ix :
    spl_mint_to_checked program mint account owner amount decimals = Some ix -> ix_signers ix = [owner];
  set_authority_signers program owned new kind owner ix : spl_set_authority program owned new kind owner = Some ix -> ix_signers ix = [owner];
  transfer_signers program source mint destination authority amount decimals ix :
    spl_transfer_checked program source mint destination authority amount decimals = Ok ix -> ix_signers ix = [authority];
}.
Definition MINT_LEN : Z := 82.
Definition TOKEN_ACCOUNT_LEN : Z := 165.

(** ** Transactions of the setup

    Each call draws at most one key and sends one transaction; the calls are numbered. *)
Definition numbered (A : Type) : Type := nat -> result RunError (nat * A).
Global Instance numbered_ret : MRet numbered := fun A a n => Ok (n, a).
Global Instance numbered_bind : MBind numbered := fun A B f m n => '(n, a) ← m n; f a n.

(** What the setup meets, by the number of the call. *)
Record SetupWorld : Type := {
  su_keys : nat -> Pubkey;
  su_rent : nat -> Z -> option Z;
  su_blockhash : nat -> bool;
  su_sends : nat -> list Instruction -> option bytes64;
}.

Section setup.
Context `{Sha256} `{Solana} `{!SetupCodec}.

Definition send_numbered (w : SetupWorld) (payer : Pubkey) (instructions : list Instruction) (extra_signers : list Pubkey) : numbered bytes64 := fun n =>
  if negb (su_blockhash w n) then Err Unsent else
  if negb (fully_signed payer extra_signers instructions) then Err (Step Unsigned) else
  signature ← ok_or Unsent (su_sends w n instructions); Ok (S n, signature).

Definition create_mint (w : SetupWorld) (payer : Pubkey) : numbered Pubkey := fun n =>
  let mint := su_keys w n in
  rent ← ok_or ReadRent (su_rent w n MINT_LEN);
  initialize ← ok_or BuildToken (spl_initialize_mint2 TOKEN_PROGRAM_ID mint payer 0);
  '(n, _) ← send_numbered w payer [system_create_account payer mint rent MINT_LEN TOKEN_PROGRAM_ID; initialize] [mint] n;
  Ok (n, mint).

Definition create_token_account (w : SetupWorld) (payer mint owner : Pubkey) : numbered Pubkey := fun n =>
  let account := su_keys w n in
  rent ← ok_or ReadRent (su_rent w n TOKEN_ACCOUNT_LEN);
  initialize ← ok_or BuildToken (spl_initialize_account3 TOKEN_PROGRAM_ID account mint owner);
  '(n, _) ← send_numbered w payer [system_create_account payer account rent TOKEN_ACCOUNT_LEN TOKEN_PROGRAM_ID; initialize] [account] n;
  Ok (n, account).

Definition mint_to (w : SetupWorld) (payer mint destination : Pubkey) (amount : Z) : numbered unit := fun n =>
  instruction ← ok_or BuildToken (spl_mint_to_checked TOKEN_PROGRAM_ID mint destination payer amount 0);
  '(n, _) ← send_numbered w payer [instruction] [] n;
  Ok (n, tt).

Definition transfer_tokens_with_signature (w : SetupWorld) (payer authority source mint destination : Pubkey) (amount : Z) : numbered bytes64 := fun n =>
  instruction ← map_err (fun _ => BuildToken) (spl_transfer_checked TOKEN_PROGRAM_ID source mint destination authority amount 0);
  send_numbered w payer [instruction] [authority] n.

Definition transfer_tokens (w : SetupWorld) (payer authority source mint destination : Pubkey) (amount : Z) : numbered unit :=
  _ ← transfer_tokens_with_signature w payer authority source mint destination amount; mret tt.

(** The accounts of the market, with those of the direct venue. *)
Record LocalTokens : Type := {
  lt_base_mint : Pubkey;
  lt_quote_mint : Pubkey;
  lt_pool : Pubkey;
  lt_vault_authority : Pubkey;
  lt_pool_base_vault : Pubkey;
  lt_pool_quote_vault : Pubkey;
  lt_venue_base : Pubkey;
  lt_venue_quote : Pubkey;
  lt_direct_base : Pubkey;
  lt_direct_quote : Pubkey;
}.

Definition create_tokens (w : SetupWorld) (payer operator venue_authority : Pubkey) : numbered LocalTokens :=
  base_mint ← create_mint w payer;
  quote_mint ← create_mint w payer;
  let pool := fst (pool_address operator base_mint quote_mint) in
  let vault_authority := fst (vault_authority_address pool) in
  pool_base_vault ← create_token_account w payer base_mint vault_authority;
  pool_quote_vault ← create_token_account w payer quote_mint vault_authority;
  venue_base ← create_token_account w payer base_mint venue_authority;
  venue_quote ← create_token_account w payer quote_mint venue_authority;
  direct_base ← create_token_account w payer base_mint payer;
  direct_quote ← create_token_account w payer quote_mint payer;
  _ ← mint_to w payer base_mint venue_base 10;
  mret {| lt_base_mint := base_mint; lt_quote_mint := quote_mint; lt_pool := pool; lt_vault_authority := vault_authority;
          lt_pool_base_vault := pool_base_vault; lt_pool_quote_vault := pool_quote_vault; lt_venue_base := venue_base;
          lt_venue_quote := venue_quote; lt_direct_base := direct_base; lt_direct_quote := direct_quote |}.

(** One turn of the loop over the wallets: a direct trade, then what it pays into the pool. *)
Definition trade_directly (w : SetupWorld) (payer : Pubkey) (t : LocalTokens) (wallet : Pubkey) (side : Side) : numbered bytes64 :=
  base ← create_token_account w payer (lt_base_mint t) wallet;
  quote ← create_token_account w payer (lt_quote_mint t) wallet;
  _ ← mint_to w payer (lt_base_mint t) base (if side == Sell then 2 else 1)%Z;
  _ ← mint_to w payer (lt_quote_mint t) quote (if side == Buy then 200 else 100)%Z;
  signature ← match side with
    | Buy => transfer_tokens_with_signature w payer wallet quote (lt_quote_mint t) (lt_direct_quote t) 100
    | Sell => transfer_tokens_with_signature w payer wallet base (lt_base_mint t) (lt_direct_base t) 1
    end;
  _ ← transfer_tokens w payer wallet base (lt_base_mint t) (lt_pool_base_vault t) 1;
  _ ← transfer_tokens w payer wallet quote (lt_quote_mint t) (lt_pool_quote_vault t) 100;
  mret signature.

Fixpoint trade_all (w : SetupWorld) (payer : Pubkey) (t : LocalTokens) (l : list (Pubkey * Side)) : numbered (list bytes64) :=
  match l with
  | [] => mret []
  | (wallet, side) :: l =>
      signature ← trade_directly w payer t wallet side;
      signatures ← trade_all w payer t l;
      mret (signature :: signatures)
  end.
End setup.

Section run.
Context `{Sha256} `{Solana} `{Dalek} `{Threshold} `{Sysvars} `{!KeyperCodec} `{!SecretSets} `{!LocalCodec} `{!SetupCodec} `{ObserverCodec}.

(** What the demonstration meets.  [rw_main] holds what its own epoch meets; the transactions 0, 1 and 2 of
    [rw_main] create the epoch, lock it and settle it. *)
Record RunWorld : Type := {
  rw_executable : bool;
  rw_environment : Environment;
  rw_program : ArtifactWorld;
  rw_token : ArtifactWorld;
  rw_manifest : text;
  rw_start : ValidatorWorld;
  rw_health : nat -> bool * option Z;
  rw_token_program : option bool;
  rw_payer : option Pubkey;
  rw_operator : option bytes32;
  rw_venue_authority : Pubkey;
  rw_attesters : option bytes32 * option bytes32 * option bytes32;
  rw_wallets : four Pubkey;
  rw_setup : SetupWorld;
  rw_main : LocalWorld;
  rw_register : nat -> Io;
  rw_partial_nonce : option bytes32;
  rw_partial_sign : ChildWorld;
  rw_partial_release : ChildWorld;
  rw_lock_signature : bytes64;
  rw_settlement_signature : bytes64;
  rw_pool_after : option RpcAccount;
  rw_finalize : SettleIo;
  rw_query : nat -> Io;
  rw_balanced : LocalWorld;
  rw_underfilled : LocalWorld;
  rw_invalid : LocalWorld;
  rw_transactions : bytes64 -> nat -> option ConfirmedTransaction;
}.

(** ** Waiting for the node *)

Fixpoint wait_for_validator (health : nat -> bool * option Z) (turn attempts : nat) : result RunError unit :=
  match attempts with
  | O => Err ValidatorUnhealthy
  | S attempts =>
      let '(healthy, slot) := health turn in
      if healthy && match slot with Some slot => (0 <? slot)%Z | None => false end then Ok tt
      else wait_for_validator health (S turn) attempts
  end.

Fixpoint fetch_confirmed_transaction (replies : nat -> option ConfirmedTransaction) (turn attempts : nat) : result RunError ConfirmedTransaction :=
  match attempts with
  | O => Err TransactionMissing
  | S attempts =>
      match replies turn with
      | Some transaction => Ok transaction
      | None => fetch_confirmed_transaction replies (S turn) attempts
      end
  end.

(** The phases up to the first transaction, and the payer read from the validator's ledger. *)
Definition start_validator (w : RunWorld) (turns : nat) : result RunError Pubkey :=
  if negb (rw_executable w) then Err NoExecutable else
  _ ← map_err Tools (resolve_cargo (rw_environment w));
  validator ← map_err Tools (resolve_on_path (rw_environment w) (bstr "solana-test-validator"));
  '(artifact, token_artifact) ← map_err Artifacts (fresh_sbf_artifacts (rw_program w) (rw_token w) (rw_manifest w));
  _ ← map_err StartingValidator (LocalValidator_start (rw_start w) turns validator artifact token_artifact);
  wait_for_validator (rw_health w) 0 600 ;;
  executable ← ok_or TokenProgramMissing (rw_token_program w);
  if negb (executable : bool) then Err TokenProgramNotExecutable else
  ok_or NoPayer (rw_payer w).

(** ** The members *)

Definition direct_sides : list Side := [Buy; Sell; Buy; Buy].

Record RunMember : Type := {
  rm_trading : SigningKey;
  rm_participant : bytes32;
  rm_nonce : bytes32;
  rm_intent : SignedIntentV1;
  rm_submission : EncryptedSubmissionV1;
}.

(** One turn of the loop over the members. *)
Definition enrol_member (io : Io) (d : MemberDraws) (m : LocalMarket) (keys : EpochPublicKeys) (suspensions : SuspensionRegistry) (epoch_id : bytes32)
    (current_slot : Z) (side : Side) (accounts : AccountJournal) (journal : ReservationJournal)
  : result RunError (AccountJournal * ReservationJournal * RunMember) :=
  seed ← ok_or (Step NoRandomness) (mw_trading d);
  let trading := signing_key_from_bytes seed in
  participant_id ← ok_or (Step NoRandomness) (mw_participant d);
  nonce ← ok_or (Step NoRandomness) (mw_reservation d);
  let '(accounts, registered) := AccountJournal_register io accounts participant_id (verifying_key trading) one_lot in
  map_err (fun _ => Registration) registered ;;
  '(journal, reserved) ← map_err Step (reserve_step (mw_reserve d) journal nonce epoch_id participant_id);
  expiry_slot ← map_err Step (add_u64 current_slot 1000);
  authorization ← map_err (fun _ => Step MakeAuthorization)
    (SuspensionRegistry_issue_authorization (mw_issue d) suspensions reserved (verifying_key trading) (lm_attestation m) expiry_slot);
  order ← map_err (fun _ => Ordering) (PrepareOrderV1_new side 100 epoch_id participant_id authorization keys);
  intent_nonce ← ok_or (Step NoRandomness) (mw_intent_nonce d);
  receipt ← ok_or (Step NoRandomness) (mw_receipt d);
  prepared ← map_err (fun _ => Ordering) (prepare_order (mw_encryption d) order trading intent_nonce receipt);
  Ok (accounts, journal, {| rm_trading := trading; rm_participant := participant_id; rm_nonce := nonce;
                            rm_intent := pd_signed_intent prepared; rm_submission := pd_submission prepared |}).

Fixpoint enrol_members (w : RunWorld) (m : LocalMarket) (keys : EpochPublicKeys) (suspensions : SuspensionRegistry) (epoch_id : bytes32)
    (current_slot : Z) (sides : list (nat * Side)) (accounts : AccountJournal) (journal : ReservationJournal)
  : result RunError (AccountJournal * ReservationJournal * list RunMember) :=
  match sides with
  | [] => Ok (accounts, journal, [])
  | (index, side) :: sides =>
      '(accounts, journal, member) ← enrol_member (rw_register w index) (lw_members (rw_main w) index) m keys suspensions epoch_id
        current_slot side accounts journal;
      '(accounts, journal, members) ← enrol_members w m keys suspensions epoch_id current_slot sides accounts journal;
      Ok (accounts, journal, member :: members)
  end.

Definition run_package (m : LocalMarket) (epoch : Pubkey) (configuration : EpochConfigurationV1) (keys : EpochPublicKeys)
    (submissions : list EncryptedSubmissionV1) (balances : list BalanceRecordV1) (nonce : option bytes32) : result RunError LockPackageV1 :=
  snapshot ← map_err (fun _ => Step MakeSnapshot) (SignedBalanceSnapshotV1_sign (cfg_epoch_id configuration) balances (lm_attestation m));
  nonce ← ok_or (Step NoRandomness) nonce;
  map_err (fun _ => Step MakePackage) (LockPackageV1_new epoch configuration keys submissions balances snapshot nonce).

(** ** The crowd that must be refused *)

(** [signature[0] ^= 1] between [into_wire_parts] and [from_wire_parts]. *)
Definition flip_first (signature : arr 64) : arr 64 :=
  default signature (try_into 64 (set_at 0 (byte_of (Z.lxor (u8_at 0 signature) 1)) signature)).
Definition tamper (s : EncryptedSubmissionV1) : EncryptedSubmissionV1 :=
  {| es_authorization := es_authorization s; es_ciphertext := es_ciphertext s; es_receipt := es_receipt s;
     es_outer_signature := flip_first (es_outer_signature s) |}.

(** A repeated and an invalid submission do not count. *)
Definition check_admission (m : LocalMarket) (epoch_id : bytes32) (current_slot : Z) (submissions : list EncryptedSubmissionV1) : result RunError unit :=
  admission ← map_err (fun _ => RunPolicy) (AdmissionPolicyV1_new epoch_id (verifying_key (lm_attestation m)) 4 1 100 current_slot);
  match submissions with
  | a :: b :: c :: d :: _ =>
      match admit_batch [a; b; c; a; tamper d] admission with
      | Err (CryptoError.InsufficientCrowd 3 4) => Ok tt
      | _ => Err CrowdRaised
      end
  | _ => Err IndexPanic
  end.

(** Three members are neither locked nor released. *)
Definition check_partial (w : RunWorld) (m : LocalMarket) (dealer : EpochDealer) (epoch : Pubkey) (package : LockPackageV1) : result RunError unit :=
  partial ← map_err (fun _ => PartialPackage)
    (run_package m epoch (pk_configuration package) (EpochDealer_public_keys dealer) (take 3 (pk_submissions package))
       (take 3 (pk_balances package)) (rw_partial_nonce w));
  let share := EpochDealer_share dealer epoch 0 in
  match run_keyper_sign_lock (rw_partial_sign w) share (keyper_key m 0) partial,
        run_keyper_release_share (rw_partial_release w) share partial 0 with
  | Err KeyperProcessError.ChildFailed, Err KeyperProcessError.ChildFailed => Ok tt
  | _, _ => Err CrowdNotRefused
  end.

(** ** Recovery by every pair of keypers *)

Definition recover_by_all (w : LocalWorld) (dealer : EpochDealer) (epoch : Pubkey) (package : LockPackageV1) (entry : nat * SignedIntentV1)
  : result RunError (SignedIntentV1 * DecryptionEvidenceV1) :=
  let '(member, expected) := entry in
  let release index := map_err (fun _ => RunReleasing index member)
    (run_keyper_release_share (lw_release_share w index member) (EpochDealer_share dealer epoch (Z.of_nat index)) package member) in
  first ← release 0;
  second ← release 1;
  third ← release 2;
  submission ← ok_or IndexPanic (pk_submissions package !! member);
  let keys := EpochDealer_public_keys dealer in
  if (member =? 0) && is_ok (EpochPublicKeys_recover_submission keys submission [first]) then Err OneShareDecrypted else
  let recover a b := map_err (fun _ => Recovering member) (EpochPublicKeys_recover_submission keys submission [a; b]) in
  with_first_two ← recover first second;
  with_outer_two ← recover first third;
  with_last_two ← recover second third;
  if existsb (fun intent => intent != expected) [with_first_two; with_outer_two; with_last_two] then Err (RecoveryDisagreed member) else
  evidence ← map_err (fun _ => RunEvidence member) (DecryptionEvidenceV1_new first second);
  Ok (with_first_two, evidence).

(** ** Settlement *)

Definition settle_run (w : LocalWorld) (m : LocalMarket) (dealer : EpochDealer) (epoch : Pubkey) (package : LockPackageV1)
    (evidence : list DecryptionEvidenceV1) : result LocalError unit :=
  confirmed ← map_err (fun _ => ConfirmLock) (fetch_confirmed_lock (lw_confirmed w) epoch);
  nonce ← ok_or NoRandomness (lw_settlement_nonce w);
  settlement ← map_err (fun _ => MakeSettlement) (SettlementRequestV1_build package evidence nonce confirmed);
  let sign index := map_err (fun _ => SigningSettlement index)
    (run_keyper_sign_settlement (lw_sign_settlement w index) (EpochDealer_share dealer epoch (Z.of_nat index)) (keyper_key m index) settlement) in
  first ← sign 0;
  second ← sign 1;
  sign 2 ;;
  let payload := sa_payload first in
  let digest := SettlementPayloadV1_digest payload in
  send w (lm_payer m) 2 [settlement_verifier first digest; settlement_verifier second digest; settle_instruction (local_settle_accounts m epoch) payload]
    [lm_operator m; lm_venue_authority m].

(** What the node shows afterwards: the lot, the price and the four balances. *)
Definition check_run_settled (w : RunWorld) (m : LocalMarket) : result RunError (Z * Z) :=
  state ← map_err Step (read_epoch_state (lw_epoch_after (rw_main w)));
  pool_account ← ok_or ReadPool (rw_pool_after w);
  pool_state ← map_err (fun _ => DecodePool) (PoolStateV1_decode (ra_data pool_account));
  if ep_base_lot_atoms state != pl_base_lot_atoms pool_state then Err BaseLotDiffers else
  balances ← map_err Step (token_amounts (lw_tokens_after (rw_main w)) m);
  if (terminal_state state != Settled) || (balances != [6; 200; 8; 200]%Z) then Err UnexpectedSettlement else
  Ok (pl_base_lot_atoms pool_state, ep_quote_atoms_per_lot state).

(** ** Private results *)

Definition private_before (members : list RunMember) : Balances :=
  fold_left (fun table member => <[rm_participant member := one_lot]> table) members ∅.

Definition private_order (intent : SignedIntentV1) : result LedgerError FundedOrder :=
  FundedOrder_new (ib_participant_id (si_body intent)) (ib_side (si_body intent)) (ib_limit_price (si_body intent)).

(** The loop that asks for each member's result; [query] is the disk at each turn. *)
Fixpoint check_results (query : nat -> Io) (epoch_id : bytes32) (r : BatchResult) (members : list (nat * RunMember)) (accounts : AccountJournal)
  : result RunError unit :=
  match members with
  | [] => Ok tt
  | (index, member) :: members =>
      let '(accounts, queried) := AccountJournal_query_result (query index) accounts (rm_participant member) (verifying_key (rm_trading member)) in
      stored ← map_err (fun _ => QueryResult) queried;
      if (Some (rs_balance stored) != balances r !! rm_participant member) || (rs_epoch_id stored != epoch_id) then Err ResultDiffers else
      check_results query epoch_id r members accounts
  end.

Definition persist_results (finalize : SettleIo) (query : nat -> Io) (epoch_id : bytes32) (members : list RunMember) (accounts : AccountJournal)
    (reservations : ReservationJournal) : result RunError unit :=
  orders ← map_err (fun _ => RunNetting) (try_map (fun member => private_order (rm_intent member)) members);
  config ← map_err (fun _ => RunNetting) (BatchConfig_new 1 100);
  r ← map_err (fun _ => RunNetting) (net_batch config (private_before members) orders);
  let '(accounts, _, finalized) := finalize_settlement finalize accounts reservations epoch_id r (map rm_nonce members) in
  map_err (fun _ => RunFinalize) finalized ;;
  check_results query epoch_id r (zip (seq 0 (length members)) members) accounts.

(** ** The two traces *)

Definition observe (w : RunWorld) (payer : Pubkey) (t : LocalTokens) (m : LocalMarket) (epoch : Pubkey) (lots : Z * Z) (direct : list bytes64)
  : result RunError (PublicTrace * PublicTrace) :=
  let fetch signature := fetch_confirmed_transaction (rw_transactions w signature) 0 100 in
  direct_confirmed ← try_map fetch direct;
  lock_confirmed ← fetch (rw_lock_signature w);
  settlement_confirmed ← fetch (rw_settlement_signature w);
  direct_trace ← map_err (fun _ => DirectTrace) (PublicTrace_from_confirmed_direct direct_confirmed
    {| dm_fee_payer := payer; dm_base_mint := lt_base_mint t; dm_quote_mint := lt_quote_mint t; dm_venue_base_account := lt_direct_base t;
       dm_venue_quote_account := lt_direct_quote t; dm_base_lot_atoms := 1; dm_quote_atoms_per_lot := 100 |});
  pooled_trace ← map_err (fun _ => PooledTrace) (PublicTrace_from_confirmed_kageb lock_confirmed settlement_confirmed
    {| ko_fee_payer := payer; ko_payer := lm_operator m; ko_pool := lt_pool t; ko_epoch := epoch; ko_vault_authority := lt_vault_authority t;
       ko_pool_base_vault := lt_pool_base_vault t; ko_pool_quote_vault := lt_pool_quote_vault t; ko_venue_authority := lm_venue_authority m;
       ko_venue_base_account := lt_venue_base t; ko_venue_quote_account := lt_venue_quote t; ko_base_mint := lt_base_mint t;
       ko_quote_mint := lt_quote_mint t; ko_base_lot_atoms := fst lots; ko_quote_atoms_per_lot := snd lots |});
  if (PublicTrace_individual_order_count direct_trace != 4) || (PublicTrace_aggregate_count direct_trace != 0)
     || (PublicTrace_individual_order_count pooled_trace != 0) || (PublicTrace_aggregate_count pooled_trace != 1)
     || (PublicTrace_visible_participant_wallets pooled_trace != [])
  then Err ObserverDiffers else Ok (direct_trace, pooled_trace).

(** ** The demonstration *)

Definition initialize_market (m : LocalMarket) : Instruction :=
  let '(pool_base, pool_quote, venue_base, venue_quote) := lm_backed m in
  initialize_pool_instruction
    {| ipa_payer := lm_payer m; ipa_operator := lm_operator m; ipa_pool := lm_pool m; ipa_vault_authority := lm_vault_authority m;
       ipa_base_mint := lm_base_mint m; ipa_quote_mint := lm_quote_mint m; ipa_pool_base_vault := pool_base;
       ipa_pool_quote_vault := pool_quote; ipa_venue_authority := lm_venue_authority m; ipa_venue_base_account := venue_base;
       ipa_venue_quote_account := venue_quote |}
    {| ia_lock_threshold := 2; ia_settlement_threshold := 2; ia_base_lot_atoms := 1; ia_keypers := attester_keys m |}.

Definition run_market (payer : Pubkey) (operator : SigningKey) (venue_authority : Pubkey) (attesters : SigningKey * SigningKey * SigningKey)
    (t : LocalTokens) : LocalMarket :=
  {| lm_payer := payer; lm_operator := verifying_key operator; lm_attestation := operator; lm_pool := lt_pool t;
     lm_vault_authority := lt_vault_authority t; lm_base_mint := lt_base_mint t; lm_quote_mint := lt_quote_mint t;
     lm_venue_authority := venue_authority; lm_attesters := attesters;
     lm_backed := (lt_pool_base_vault t, lt_pool_quote_vault t, lt_venue_base t, lt_venue_quote t) |}.

(** The batch of the demonstration, from its epoch to the persisted results: the epoch and its lot and price. *)
Definition run_batch (w : RunWorld) (m : LocalMarket) (dealer : EpochDealer) : result RunError (Pubkey * (Z * Z)) :=
  let main := rw_main w in
  let keys := EpochDealer_public_keys dealer in
  now ← map_err Step (read_clock (lw_clock main));
  epoch_id ← ok_or (Step NoRandomness) (lw_epoch_id main);
  lock_deadline ← map_err Step (add_i64 now 300);
  abort_deadline ← map_err Step (add_i64 now 600);
  epoch ← map_err Step (create_epoch_step main m epoch_id lock_deadline abort_deadline);
  if negb (lw_tempdir main) then Err (Step NoTempdir) else
  accounts ← map_err Step (open_accounts main);
  reservations ← map_err Step (open_reservations main);
  suspensions ← map_err Step (open_suspensions main);
  current_slot ← ok_or (Step ReadSlot) (lw_slot main);
  '(accounts, reservations, members) ← enrol_members w m keys suspensions epoch_id current_slot (zip (seq 0 4) direct_sides) accounts reservations;
  balances ← map_err (fun _ => Step MakeBalance) (try_map (fun member => BalanceRecordV1_new (rm_participant member) 1 100 1 100) members);
  package ← run_package m epoch (local_configuration m epoch_id lock_deadline abort_deadline) keys (map rm_submission members) balances
    (lw_package_nonce main);
  if negb (lw_directories main) then Err (Step KeyperDirectories) else
  check_admission m epoch_id current_slot (pk_submissions package) ;;
  check_partial w m dealer epoch package ;;
  map_err Step (sign_and_lock main m dealer epoch package) ;;
  let intents := map rm_intent members in
  recovered ← try_map (recover_by_all main dealer epoch package) (zip (seq 0 (length intents)) intents);
  if map fst recovered != intents then Err BatchDiffers else
  map_err Step (settle_run main m dealer epoch package (map snd recovered)) ;;
  lots ← check_run_settled w m;
  persist_results (rw_finalize w) (rw_query w) epoch_id members accounts reservations ;;
  Ok (epoch, lots).

(** [polls] bounds the loops that draw ports and that wait for a deadline. *)
Definition local_proof (w : RunWorld) (polls : nat) : result RunError text :=
  payer ← start_validator w polls;
  operator_seed ← ok_or (Step NoRandomness) (rw_operator w);
  let operator := signing_key_from_bytes operator_seed in
  let '(first, second, third) := rw_attesters w in
  first ← ok_or (Step NoRandomness) first;
  second ← ok_or (Step NoRandomness) second;
  third ← ok_or (Step NoRandomness) third;
  let attesters := (signing_key_from_bytes first, signing_key_from_bytes second, signing_key_from_bytes third) in
  '(calls, t) ← create_tokens (rw_setup w) payer (verifying_key operator) (rw_venue_authority w) 0;
  '(calls, direct_signatures) ← trade_all (rw_setup w) payer t (zip (four_list (rw_wallets w)) direct_sides) calls;
  dealer ← map_err (fun _ => Step Dealing) (EpochDealer_random (lw_dealer (rw_main w)));
  let m := run_market payer operator (rw_venue_authority w) attesters t in
  '(_, _) ← send_numbered (rw_setup w) payer [initialize_market m] [lm_operator m] calls;
  '(epoch, lots) ← run_batch w m dealer;
  map_err Step (balanced_zero_residual_settlement (rw_balanced w) m) ;;
  map_err Step (underfilled_epoch_expires_and_releases (rw_underfilled w) m polls) ;;
  map_err Step (invalid_reveal_aborts_and_suspends (rw_invalid w) m polls) ;;
  '(direct_trace, pooled_trace) ← observe w payer t m epoch lots direct_signatures;
  Ok (bstr "WARNING: synthetic assets only; this prototype is not safe for real funds." ++ [x0a]
      ++ bstr "WAIT: crowd 3/4" ++ [x0a]
      ++ bstr "LOCKED: crowd 4/4" ++ [x0a]
      ++ bstr "REFUSED: one share" ++ [x0a]
      ++ bstr "QUORUM: all 3 two-share paths agree" ++ [x0a]
      ++ bstr "SETTLED: one aggregate" ++ [x0a]
      ++ bstr "RESULTS: authenticated balances persisted" ++ [x0a]
      ++ bstr "BALANCED: zero residual; no venue leg" ++ [x0a]
      ++ bstr "EXPIRED: underfilled; reservations released" ++ [x0a]
      ++ bstr "ABORTED: invalid reveal; trading key suspended" ++ [x0a]
      ++ bstr "OBSERVER: direct " ++ display_nat (PublicTrace_individual_order_count direct_trace) ++ bstr " orders; KageB "
      ++ display_nat (PublicTrace_aggregate_count pooled_trace) ++ bstr " aggregate" ++ [x0a]
      ++ NON_CLAIM ++ [x0a])%list.
End run.
