(* ===== verification/DevnetRun.v ===== *)
(** * The demonstration on devnet (crates/kageb-host/src/demo.rs, lines 947 to 1593 and 2041 to 2104)

    [devnet_proof]: after its deployment phase ([Deploy]) the run draws its keys, creates and funds a market,
    revokes its mints, locks and settles one batch with two of three keypers, checks and persists the results,
    and publishes its evidence ([Devnet]).  Everything it draws that must stay private is collected on the way.
    The node's answers, the draws, the disk and the processes are arguments; transactions are numbered. *)

From S2P Require Import Prelude Bytes Extern ProgramWire ProgramState ProgramInstruction Transactions Ed25519 HostExtern BTree Domain Ledger Commitment.
From S2P Require Import Storage Reservation Account HostCrypto Suspension Dealer LockJournal Lock ConfirmedReads Settlement Keyper Client.
From S2P Require Import Observer Evidence EvidenceRpc EvidenceFile Deploy Devnet CommandLine LocalDemo LocalRun.

(** A step of the deployment, of the private files or of the clock; of the batch; of the publication. *)
Inductive DevnetError : Type :=
| Demo (error : DemoError) | Running (error : RunError) | Publishing (error : PublishError) | EncodeShare | SettlementTranscript.

(** ** The market *)

Section market.
Context `{Sha256} `{Solana} `{Dalek} `{!SetupCodec}.

Definition fund_pool_accounts (w : SetupWorld) (payer authority base_source quote_source base_mint quote_mint pool_base_vault pool_quote_vault : Pubkey)
  : numbered bytes64 := fun n =>
  base ← map_err (fun _ => BuildToken) (spl_transfer_checked TOKEN_PROGRAM_ID base_source base_mint pool_base_vault authority 1 0);
  quote ← map_err (fun _ => BuildToken) (spl_transfer_checked TOKEN_PROGRAM_ID quote_source quote_mint pool_quote_vault authority 100 0);
  send_numbered w payer [base; quote] [authority] n.

(** The mints and the accounts of the pool and the venue. *)
Definition create_devnet_market (w : SetupWorld) (payer : Pubkey) (operator : SigningKey) (venue_authority : Pubkey)
    (attesters : SigningKey * SigningKey * SigningKey) : numbered LocalMarket :=
  base_mint ← create_mint w payer;
  quote_mint ← create_mint w payer;
  let pool := fst (pool_address (verifying_key operator) base_mint quote_mint) in
  let vault_authority := fst (vault_authority_address pool) in
  pool_base_vault ← create_token_account w payer base_mint vault_authority;
  pool_quote_vault ← create_token_account w payer quote_mint vault_authority;
  venue_base_account ← create_token_account w payer base_mint venue_authority;
  venue_quote_account ← create_token_account w payer quote_mint venue_authority;
  _ ← mint_to w payer base_mint venue_base_account 10;
  mret {| lm_payer := payer; lm_operator := verifying_key operator; lm_attestation := operator; lm_pool := pool;
          lm_vault_authority := vault_authority; lm_base_mint := base_mint; lm_quote_mint := quote_mint; lm_venue_authority := venue_authority;
          lm_attesters := attesters; lm_backed := (pool_base_vault, pool_quote_vault, venue_base_account, venue_quote_account) |}.

(** One turn of the loop over the wallets: the wallet, its two accounts and the signature. *)
Definition fund_wallet (w : SetupWorld) (m : LocalMarket) (wallet : Pubkey) : numbered (Pubkey * Pubkey * Pubkey * bytes64) :=
  let '(pool_base_vault, pool_quote_vault, _, _) := lm_backed m in
  base ← create_token_account w (lm_payer m) (lm_base_mint m) wallet;
  quote ← create_token_account w (lm_payer m) (lm_quote_mint m) wallet;
  _ ← mint_to w (lm_payer m) (lm_base_mint m) base 1;
  _ ← mint_to w (lm_payer m) (lm_quote_mint m) quote 100;
  signature ← fund_pool_accounts w (lm_payer m) wallet base quote (lm_base_mint m) (lm_quote_mint m) pool_base_vault pool_quote_vault;
  mret (wallet, base, quote, signature).

Definition fund_wallets (w : SetupWorld) (m : LocalMarket) (wallets : four Pubkey) : numbered (four (Pubkey * Pubkey * Pubkey * bytes64)) :=
  let '(a, b, c, d) := wallets in
  a ← fund_wallet w m a;
  b ← fund_wallet w m b;
  c ← fund_wallet w m c;
  d ← fund_wallet w m d;
  mret (a, b, c, d).

Definition revoke_mints (w : SetupWorld) (m : LocalMarket) : numbered unit := fun n =>
  let revoke mint := ok_or BuildToken (spl_set_authority TOKEN_PROGRAM_ID mint None MintTokens (lm_payer m)) in
  revoke_base_mint ← revoke (lm_base_mint m);
  revoke_quote_mint ← revoke (lm_quote_mint m);
  '(n, _) ← send_numbered w (lm_payer m) [revoke_base_mint; revoke_quote_mint] [] n;
  Ok (n, tt).
End market.

Section run.
Context `{Sha256} `{Solana} `{Dalek} `{Threshold} `{Sysvars} `{!KeyperCodec} `{!SecretSets} `{!LocalCodec} `{!SetupCodec} `{!EvidenceCodec} `{ObserverCodec}
  `{ClientCodec} `{BuildCodec} `{!DevnetCodec} `{!DeployCodec}.

(** What the run meets after its deployment phase. *)
Record DevnetWorld : Type := {
  nw_deploy : DeployWorld;
  nw_operator : option bytes32;
  nw_venue_authority : Keypair;
  nw_attesters : option bytes32 * option bytes32 * option bytes32;
  nw_wallets : four Keypair;
  nw_calls : SetupWorld;
  nw_dealer : option bytes32;
  nw_clock : option RpcAccount;
  nw_epoch_id : option bytes32;
  nw_slot : option Z;
  nw_accounts_open : Io;
  nw_reservations_open : Io;
  nw_suspensions_open : Io;
  nw_register : nat -> Io;
  nw_members : nat -> MemberDraws;
  nw_package_nonce : option bytes32;
  nw_keyper_directory : nat -> option text;
  nw_keyper_permissions : nat -> bool;
  nw_sign_lock : nat -> ChildWorld;
  nw_release_share : nat -> nat -> ChildWorld;
  nw_sign_settlement : nat -> ChildWorld;
  nw_confirmed : RpcReplies;
  nw_settlement_nonce : option bytes32;
  nw_tokens_before : Pubkey -> option RpcAccount;
  nw_tokens_after : Pubkey -> option RpcAccount;
  nw_epoch_after : option RpcAccount;
  nw_finalize : SettleIo;
  nw_query : nat -> Io;
  nw_publish : PublishIo;
  nw_verifier : FreshVerifier;
  nw_polls : bytes64 -> nat -> PollReplies;
  nw_evidence : EvidenceReplies;
}.

(** ** The members *)

(** One turn of the loop over the sides, with the material it adds; the bytes of a signing key are its seed. *)
Definition devnet_member (io : Io) (d : MemberDraws) (m : LocalMarket) (keys : EpochPublicKeys) (suspensions : SuspensionRegistry) (epoch_id : bytes32)
    (expiry_slot : Z) (side : Side) (accounts : AccountJournal) (journal : ReservationJournal)
  : result RunError (AccountJournal * ReservationJournal * RunMember * list (list byte)) :=
  seed ← ok_or (Step NoRandomness) (mw_trading d);
  let trading := signing_key_from_bytes seed in
  participant_id ← ok_or (Step NoRandomness) (mw_participant d);
  reservation_id ← ok_or (Step NoRandomness) (mw_reservation d);
  intent_nonce ← ok_or (Step NoRandomness) (mw_intent_nonce d);
  receipt ← ok_or (Step NoRandomness) (mw_receipt d);
  let material := [arr_list seed; arr_list participant_id; arr_list reservation_id; arr_list intent_nonce; arr_list receipt] in
  let '(accounts, registered) := AccountJournal_register io accounts participant_id (verifying_key trading) one_lot in
  map_err (fun _ => Registration) registered ;;
  '(journal, reserved) ← map_err Step (reserve_step (mw_reserve d) journal reservation_id epoch_id participant_id);
  authorization ← map_err (fun _ => Step MakeAuthorization)
    (SuspensionRegistry_issue_authorization (mw_issue d) suspensions reserved (verifying_key trading) (lm_attestation m) expiry_slot);
  order ← map_err (fun _ => Ordering) (PrepareOrderV1_new side 100 epoch_id participant_id authorization keys);
  prepared ← map_err (fun _ => Ordering) (prepare_order (mw_encryption d) order trading intent_nonce receipt);
  Ok (accounts, journal, {| rm_trading := trading; rm_participant := participant_id; rm_nonce := reservation_id;
                            rm_intent := pd_signed_intent prepared; rm_submission := pd_submission prepared |}, material).

Fixpoint devnet_members (w : DevnetWorld) (m : LocalMarket) (keys : EpochPublicKeys) (suspensions : SuspensionRegistry) (epoch_id : bytes32)
    (expiry_slot : Z) (sides : list (nat * Side)) (accounts : AccountJournal) (journal : ReservationJournal)
  : result RunError (AccountJournal * ReservationJournal * list RunMember * list (list byte)) :=
  match sides with
  | [] => Ok (accounts, journal, [], [])
  | (index, side) :: sides =>
      '(accounts, journal, member, material) ← devnet_member (nw_register w index) (nw_members w index) m keys suspensions epoch_id
        expiry_slot side accounts journal;
      '(accounts, journal, members, more) ← devnet_members w m keys suspensions epoch_id expiry_slot sides accounts journal;
      Ok (accounts, journal, member :: members, material ++ more)
  end.

(** ** Up to the lock package *)

(** What the run has prepared, with the number of its next transaction and the private material so far. *)
Record Prepared : Type := {
  pr_calls : nat;
  pr_attesters : bytes32 * bytes32 * bytes32;
  pr_market : LocalMarket;
  pr_funding : four (Pubkey * Pubkey * Pubkey * bytes64);
  pr_dealer : EpochDealer;
  pr_epoch : Pubkey;
  pr_epoch_id : bytes32;
  pr_members : list RunMember;
  pr_accounts : AccountJournal;
  pr_reservations : ReservationJournal;
  pr_package : LockPackageV1;
  pr_material : list (list byte);
}.

(** The first entries of the material. *)
Definition first_material (w : DevnetWorld) (d : Deployment) (payer_path : text) (operator_seed : bytes32) (attesters : bytes32 * bytes32 * bytes32)
  : list (list byte) :=
  let '(first, second, third) := attesters in
  [ky_bytes (dn_payer d); arr_list operator_seed; ky_bytes (nw_venue_authority w); payer_path; dn_private_root d; dn_run_directory d; dn_executable d]
  ++ match dn_program_key d with Some keypair => [ky_bytes keypair] | None => [] end
  ++ [arr_list first; arr_list second; arr_list third]
  ++ map ky_bytes (four_list (nw_wallets w)).

(** The keys, the market and its initialized pool. *)
Definition devnet_market (w : DevnetWorld) (payer : Pubkey) (operator_seed : bytes32) (seeds : bytes32 * bytes32 * bytes32)
  : result RunError (nat * LocalMarket * four (Pubkey * Pubkey * Pubkey * bytes64) * EpochDealer) :=
  '(n, m) ← create_devnet_market (nw_calls w) payer (signing_key_from_bytes operator_seed) (ky_pubkey (nw_venue_authority w))
    (three_map signing_key_from_bytes seeds) 0;
  '(n, funding) ← fund_wallets (nw_calls w) m (four_map ky_pubkey (nw_wallets w)) n;
  '(n, _) ← revoke_mints (nw_calls w) m n;
  dealer ← map_err (fun _ => Step Dealing) (EpochDealer_random (nw_dealer w));
  '(n, _) ← send_numbered (nw_calls w) (lm_payer m) [initialize_market m] [lm_operator m] n;
  Ok (n, m, funding, dealer).

(** The epoch on chain, its members and their package. *)
Definition devnet_epoch (w : DevnetWorld) (n : nat) (m : LocalMarket) (dealer : EpochDealer)
  : result DevnetError (nat * Pubkey * bytes32 * list RunMember * AccountJournal * ReservationJournal * LockPackageV1 * list (list byte)) :=
  let keys := EpochDealer_public_keys dealer in
  now ← map_err (fun e => Running (Step e)) (read_clock (nw_clock w));
  epoch_id ← ok_or (Running (Step NoRandomness)) (nw_epoch_id w);
  let epoch := fst (epoch_address (lm_pool m) epoch_id) in
  current_slot ← ok_or (Running (Step ReadSlot)) (nw_slot w);
  '(lock_deadline, abort_deadline, expiry_slot) ← map_err Demo (checked_devnet_deadlines now current_slot);
  '(n, _) ← map_err Running (send_numbered (nw_calls w) (lm_payer m) [create_epoch_instruction (lm_payer m) (lm_operator m) (lm_pool m) epoch
    {| ca_epoch_id := epoch_id; ca_minimum_count := 4; ca_quote_atoms_per_lot := 100; ca_lock_deadline := lock_deadline;
       ca_abort_deadline := abort_deadline |}] [lm_operator m] n);
  accounts ← map_err (fun _ => Running (Step OpenAccounts)) (snd (AccountJournal_open (nw_accounts_open w) None));
  reservations ← map_err (fun _ => Running (Step OpenReservations)) (snd (ReservationJournal_open (nw_reservations_open w) None));
  suspensions ← map_err (fun _ => Running (Step OpenSuspensions)) (snd (SuspensionRegistry_open (nw_suspensions_open w) None));
  '(accounts, reservations, members, material) ← map_err Running
    (devnet_members w m keys suspensions epoch_id expiry_slot (zip (seq 0 4) direct_sides) accounts reservations);
  balances ← map_err (fun _ => Running (Step MakeBalance))
    (try_map (fun member => BalanceRecordV1_new (rm_participant member) 1 100 1 100) members);
  package ← map_err Running (run_package m epoch (local_configuration m epoch_id lock_deadline abort_deadline) keys (map rm_submission members)
    balances (nw_package_nonce w));
  Ok (n, epoch, epoch_id, members, accounts, reservations, package, material ++ map arr_list (option_list (nw_package_nonce w))).

Definition devnet_prepare (w : DevnetWorld) (d : Deployment) (payer_path : text) : result DevnetError Prepared :=
  operator_seed ← ok_or (Running (Step NoRandomness)) (nw_operator w);
  let '(first, second, third) := nw_attesters w in
  first ← ok_or (Running (Step NoRandomness)) first;
  second ← ok_or (Running (Step NoRandomness)) second;
  third ← ok_or (Running (Step NoRandomness)) third;
  let seeds := (first, second, third) in
  '(n, m, funding, dealer) ← map_err Running (devnet_market w (ky_pubkey (dn_payer d)) operator_seed seeds);
  '(n, epoch, epoch_id, members, accounts, reservations, package, material) ← devnet_epoch w n m dealer;
  Ok {| pr_calls := n; pr_attesters := seeds; pr_market := m; pr_funding := funding; pr_dealer := dealer; pr_epoch := epoch;
        pr_epoch_id := epoch_id; pr_members := members; pr_accounts := accounts; pr_reservations := reservations; pr_package := package;
        pr_material := first_material w d payer_path operator_seed seeds ++ material |}.

(** ** The keypers' directories *)

(** One turn of the loop over the directories. *)
Definition write_keyper_directory (io : DeployIo) (permitted : bool) (rpc_url directory : text) (attester : bytes32)
  : list DeployEvent * result DemoError unit :=
  if negb permitted then ([], Err SecureKeyperRuntime) else
  let '(events, written) := write_private_file io (path_join directory (bstr "keyper-rpc-url")) rpc_url in
  _ ←[events] written;
  let '(more, written) := write_private_file io (path_join directory (bstr "keyper-attestation-key")) attester in
  (events ++ more, written).

Fixpoint write_keyper_directories (io : DeployIo) (permissions : nat -> bool) (rpc_url : text) (l : list (nat * (text * bytes32)))
  : list DeployEvent * result DemoError unit :=
  match l with
  | [] => ([], Ok tt)
  | (index, (directory, attester)) :: l =>
      let '(events, written) := write_keyper_directory io (permissions index) rpc_url directory attester in
      _ ←[events] written;
      let '(more, written) := write_keyper_directories io permissions rpc_url l in
      (events ++ more, written)
  end.

(** The files it writes, in order, and the three directories. *)
Definition create_devnet_keyper_directories (io : DeployIo) (tempdir : nat -> option text) (permissions : nat -> bool) (rpc_url : text)
    (attesters : bytes32 * bytes32 * bytes32) : list DeployEvent * result DemoError (text * text * text) :=
  first ←[[]] ok_or CreateKeyperRuntime (tempdir 0);
  second ←[[]] ok_or CreateKeyperRuntime (tempdir 1);
  third ←[[]] ok_or CreateKeyperRuntime (tempdir 2);
  let '(a, b, c) := attesters in
  let '(events, written) := write_keyper_directories io permissions rpc_url [(0, (first, a)); (1, (second, b)); (2, (third, c))] in
  _ ←[events] written;
  (events, Ok (first, second, third)).

(** ** Lock and settlement *)

(** The process started with this executable in this directory. *)
Definition child_in (executable directory : text) (world : ChildWorld) : ChildWorld :=
  {| cw_executable := executable; cw_directory := directory; cw_metadata := cw_metadata world; cw_contents := cw_contents world; cw_run := cw_run world |}.

(** [package.configuration.keypers[index]] *)
Definition configured_keyper (package : LockPackageV1) (index : nat) : Pubkey := nth index (keyper_list (cfg_keypers (pk_configuration package))) zero32.

(** The shares the run hands out, whose secrets are private material. *)
Definition share_material (dealer : EpochDealer) (epoch : Pubkey) : result DevnetError (list (list byte)) :=
  try_map (fun index => ok_or EncodeShare (secret_serialize (ks_secret (EpochDealer_share dealer epoch index)))) [0; 1; 2]%Z.

(** Two approvals and the lock. *)
Definition devnet_lock (w : DevnetWorld) (executable : text) (directories : text * text) (p : Prepared) : result RunError (nat * bytes64) :=
  let package := pr_package p in
  let sign index directory := map_err (fun _ => Step (SigningLock index))
    (run_keyper_sign_lock (child_in executable directory (nw_sign_lock w index)) (EpochDealer_share (pr_dealer p) (pr_epoch p) (Z.of_nat index))
       (configured_keyper package index) package) in
  first ← sign 0 (fst directories);
  second ← sign 1 (snd directories);
  let digest := LockPayloadV1_digest (LockPackageV1_lock_payload package) in
  send_numbered (nw_calls w) (lm_payer (pr_market p)) [lock_verifier first digest; lock_verifier second digest;
    lock_instruction (lm_operator (pr_market p)) (lm_pool (pr_market p)) (pr_epoch p) (LockPackageV1_lock_payload package)]
    [lm_operator (pr_market p)] (pr_calls p).

(** One turn of the loop over the members. *)
Definition devnet_release (w : DevnetWorld) (executable : text) (directories : text * text) (p : Prepared) (member : nat)
  : result RunError DecryptionEvidenceV1 :=
  let release index directory := map_err (fun _ => RunReleasing index member)
    (run_keyper_release_share (child_in executable directory (nw_release_share w index member))
       (EpochDealer_share (pr_dealer p) (pr_epoch p) (Z.of_nat index)) (pr_package p) member) in
  first ← release 0 (fst directories);
  second ← release 1 (snd directories);
  map_err (fun _ => RunEvidence member) (DecryptionEvidenceV1_new first second).

(** The request over the confirmed lock and the hash of its transcript. *)
Definition devnet_request (w : DevnetWorld) (p : Prepared) (evidence : list DecryptionEvidenceV1) : result DevnetError (SettlementRequestV1 * text) :=
  confirmed ← map_err (fun _ => Running (Step ConfirmLock)) (fetch_confirmed_lock (nw_confirmed w) (pr_epoch p));
  nonce ← ok_or (Running (Step NoRandomness)) (nw_settlement_nonce w);
  settlement ← map_err (fun _ => Running (Step MakeSettlement)) (SettlementRequestV1_build (pr_package p) evidence nonce confirmed);
  wire ← map_err (fun _ => SettlementTranscript) (SettlementRequestV1_encode_wire settlement);
  Ok (settlement, hex_bytes (sha256 wire)).

(** Two approvals, the settlement between two readings of the tokens, and the epoch it left. *)
Definition devnet_settle (w : DevnetWorld) (executable : text) (directories : text * text) (p : Prepared) (settlement : SettlementRequestV1) (n : nat)
  : result DevnetError (bytes32 * RunBalances * RunBalances * bytes64) :=
  let sign index directory := map_err (fun _ => Running (Step (SigningSettlement index)))
    (run_keyper_sign_settlement (child_in executable directory (nw_sign_settlement w index))
       (EpochDealer_share (pr_dealer p) (pr_epoch p) (Z.of_nat index)) (configured_keyper (pr_package p) index) settlement) in
  first ← sign 0 (fst directories);
  second ← sign 1 (snd directories);
  let payload := sa_payload first in
  let digest := SettlementPayloadV1_digest payload in
  let '(pool_base, pool_quote, venue_base, venue_quote) := lm_backed (pr_market p) in
  before ← map_err Publishing (read_balances (nw_tokens_before w) pool_base pool_quote venue_base venue_quote);
  '(_, signature) ← map_err Running (send_numbered (nw_calls w) (lm_payer (pr_market p)) [settlement_verifier first digest; settlement_verifier second digest;
    settle_instruction (local_settle_accounts (pr_market p) (pr_epoch p)) payload] [lm_operator (pr_market p); lm_venue_authority (pr_market p)] n);
  after ← map_err Publishing (read_balances (nw_tokens_after w) pool_base pool_quote venue_base venue_quote);
  map_err Publishing (check_settled before after (nw_epoch_after w) (sq_result_commitment settlement)) ;;
  Ok (digest, before, after, signature).

(** From the keypers' directories to the persisted results, with all the private material. *)
Definition devnet_batch (w : DevnetWorld) (d : Deployment) (p : Prepared) (directories : text * text * text)
  : result DevnetError (SettledRun * list (list byte)) :=
  let '(first, second, third) := directories in
  let two := (first, second) in
  shares ← share_material (pr_dealer p) (pr_epoch p);
  '(n, lock_signature) ← map_err Running (devnet_lock w (dn_executable d) two p);
  evidence ← map_err Running (try_map (devnet_release w (dn_executable d) two p) [0; 1; 2; 3]);
  '(settlement, transcript_hash) ← devnet_request w p evidence;
  '(digest, before, after, signature) ← devnet_settle w (dn_executable d) two p settlement n;
  map_err Running (persist_results (nw_finalize w) (nw_query w) (pr_epoch_id p) (pr_members p) (pr_accounts p) (pr_reservations p)) ;;
  let m := pr_market p in
  let '(pool_base, pool_quote, venue_base, venue_quote) := lm_backed m in
  Ok ({| sr_public_commit := dn_public_commit d; sr_checkpoint := dn_checkpoint d; sr_deployed := dn_deployed d; sr_payer := lm_payer m;
         sr_operator := lm_operator m; sr_pool := lm_pool m; sr_epoch := pr_epoch p; sr_vault_authority := lm_vault_authority m;
         sr_base_mint := lm_base_mint m; sr_quote_mint := lm_quote_mint m; sr_pool_base_vault := pool_base; sr_pool_quote_vault := pool_quote;
         sr_venue_authority := lm_venue_authority m; sr_venue_base_account := venue_base; sr_venue_quote_account := venue_quote;
         sr_epoch_id := pr_epoch_id p; sr_funding := pr_funding p; sr_lock_signature := lock_signature; sr_settlement_signature := signature;
         sr_package := pr_package p; sr_settlement := settlement; sr_settlement_digest := digest; sr_transcript_hash := transcript_hash;
         sr_before := before; sr_after := after |},
      pr_material p ++ [first; second; third] ++ shares ++ map arr_list (option_list (nw_settlement_nonce w))).

(** ** The demonstration *)

(** What it did to the private files, in order, and the published ones. *)
Definition devnet_proof (w : DevnetWorld) (files : gmap text (list byte)) (payer_path program out rpc_url : text)
  : list DeployEvent * gmap text (list byte) * result DevnetError text :=
  let '(events, deployment) := devnet_deployment (nw_deploy w) program rpc_url in
  d ←[(events, files)] map_err Demo deployment;
  p ←[(events, files)] devnet_prepare w d payer_path;
  let '(written, directories) := create_devnet_keyper_directories (dw_io (nw_deploy w)) (nw_keyper_directory w) (nw_keyper_permissions w) rpc_url
    (pr_attesters p) in
  let events := events ++ written in
  directories ←[(events, files)] map_err Demo directories;
  '(run, material) ←[(events, files)] devnet_batch w d p directories;
  let verification_artifact := path_join (dn_run_directory d) (bstr "verification-checkpoint.so") in
  let '(files, published) := publish_run (nw_publish w) (nw_verifier w) (nw_polls w) (nw_evidence w)
    (dp_write (dw_io (nw_deploy w)) verification_artifact) files out rpc_url run material verification_artifact in
  ((events, files), map_err Publishing published).
End run.
