(* ===== verification/Alarms.v ===== *)
(** * Runs that raise no alarm

    The demonstration's scripts end in errors of two kinds: a step that did not work, and an alarm, by which
    the script says that the protocol it drives misbehaved.  A computation is [calm] if it raises no alarm.
    This file has the rules by which calm steps compose, for any type of errors. *)

From S2P Require Import Prelude Bytes.

(** Which errors are alarms. *)
Class Alarm (E : Type) : Type := alarm : E -> bool.

Section alarms.
Context {E : Type} `{!Alarm E}.

Definition calm {A} (r : result E A) : Prop := forall e, r = Err e -> alarm e = false.

Lemma calm_Ok {A} (a : A) : calm (Ok a).
Proof. by intros e [=]. Qed.

Lemma calm_Err {A} (e : E) : alarm e = false -> calm (A := A) (Err e).
Proof. by intros He e' [= <-]. Qed.

Lemma calm_bind {A B} (r : result E A) (f : A -> result E B) :
  calm r -> (forall a, r = Ok a -> calm (f a)) -> calm (r ≫= f).
Proof. intros Hr Hf e [He|(a & Ha & He)]%bind_Err; [by apply Hr | by apply (Hf a)]. Qed.

Lemma calm_ok_or {A} e (o : option A) : alarm e = false -> calm (ok_or e o).
Proof. intros He. destruct o; [apply calm_Ok | by apply calm_Err]. Qed.

Lemma calm_map_err {F A} e (r : result F A) : alarm e = false -> calm (map_err (fun _ => e) r).
Proof. intros He. destruct r; [apply calm_Ok | by apply calm_Err]. Qed.

Lemma calm_guard {A} (b : bool) e (r : result E A) :
  alarm e = false -> (b = false -> calm r) -> calm (if b then Err e else r).
Proof. intros He Hr. destruct b; [by apply calm_Err | by apply Hr]. Qed.

Lemma calm_try_map_in {A B} (f : A -> result E B) l : Forall (fun a => calm (f a)) l -> calm (try_map f l).
Proof.
  induction 1 as [|a l Ha _ IH]; cbn [try_map]; [apply calm_Ok|]. apply calm_bind; [done|]. intros b _.
  apply calm_bind; [done|]. intros bs _. apply calm_Ok.
Qed.

Lemma calm_try_map {A B} (f : A -> result E B) l : (forall a, calm (f a)) -> calm (try_map f l).
Proof. intros Hf. apply calm_try_map_in, list.Forall_forall. auto. Qed.

(** A run that raises an alarm only for its cause. *)
Definition calm_unless (cause : E -> Prop) {A} (r : result E A) : Prop := forall e, r = Err e -> alarm e = true -> cause e.

Lemma calm_unless_weaken (cause cause' : E -> Prop) {A} (r : result E A) :
  (forall e, cause e -> cause' e) -> calm_unless cause r -> calm_unless cause' r.
Proof. intros Hc Hr e He Ha. by apply Hc, Hr. Qed.

Lemma calm_unless_calm cause {A} (r : result E A) : calm r -> calm_unless cause r.
Proof. intros Hr e He Ha. by rewrite (Hr _ He) in Ha. Qed.

Lemma calm_unless_bind (cause : E -> Prop) {A B} (r : result E A) (f : A -> result E B) :
  calm_unless cause r -> (forall a, r = Ok a -> calm_unless cause (f a)) -> calm_unless cause (r ≫= f).
Proof. intros Hr Hf e [He|(a & Ha & He)]%bind_Err; [by apply (Hr e) | by apply (Hf a)]. Qed.

Lemma calm_unless_guard (cause : E -> Prop) {A} (b : bool) e (r : result E A) :
  (b = true -> alarm e = true -> cause e) -> (b = false -> calm_unless cause r) -> calm_unless cause (if b then Err e else r).
Proof. intros He Hr. destruct b; [intros e' [= <-]; by apply He | by apply Hr]. Qed.
End alarms.

(** Errors passed on under another name. *)
Lemma calm_unless_wrap {E F A} `{!Alarm E} `{!Alarm F} (cause : E -> Prop) (cause' : F -> Prop) (wrap : E -> F) (r : result E A) :
  (forall e, alarm (wrap e) = alarm e) -> (forall e, cause e -> cause' (wrap e)) -> calm_unless cause r -> calm_unless cause' (map_err wrap r).
Proof. intros Hw Hc Hr e He Ha. destruct r as [a|e']; [done|]. injection He as <-. rewrite Hw in Ha. by apply Hc, Hr. Qed.

Create HintDb calm.
#[export] Hint Resolve calm_Ok calm_Err calm_ok_or calm_map_err calm_try_map : calm.
#[export] Hint Resolve calm_unless_calm | 5 : calm.
#[export] Hint Extern 1 (alarm _ = false) => reflexivity : calm.

(** Through the early returns of a script, naming what each step returned. *)
Ltac calm_step :=
  match goal with
  | |- calm (_ ≫= _) => apply calm_bind; [solve [eauto with calm] | intros ? ?]
  | |- calm_unless _ (_ ≫= _) => apply calm_unless_bind; [solve [eauto with calm] | intros ? ?]
  | |- calm (if _ then Err _ else _) => apply calm_guard; [reflexivity | intros ?]
  | |- calm_unless _ (if _ then Err _ else _) => apply calm_unless_guard; [discriminate | intros ?]
  | |- calm (let '(_, _) := ?p in _) => destruct p
  | |- calm (match ?p with (_, _) => _ end) => destruct p
  | |- calm_unless _ (match ?p with (_, _) => _ end) => destruct p
  | |- calm _ => solve [eauto with calm]
  | |- calm_unless _ _ => solve [eauto with calm]
  end.

Ltac calm := cbv zeta; repeat calm_step.
