(* ===== verification/LocalProps.v ===== *)
(** * Properties of the local rehearsals

    Which of their own alarms the rehearsals can raise.  The steps that look at the protocol's outcome
    are calm because of what the protocol's components guarantee. *)

From S2P Require Import Prelude Bytes Extern ProgramWire ProgramState ProgramInstruction Transactions HostExtern BTree Domain Ledger Commitment.
From S2P Require Import Storage Reservation ReservationProps Account HostCrypto HostCryptoProps Suspension Dealer LockJournal Lock LockWire ConfirmedReads.
From S2P Require Import Settlement SettlementProps SettlementChain SettlementLive Keyper KeyperProps Client Evidence Deploy Devnet LocalDemo Alarms.

(** The errors by which a rehearsal says that what it did came out wrong: every one that is not the failure
    of a step to be carried out. *)
#[global] Instance local_alarm : Alarm LocalError := fun error =>
  match error with
  | BalancedVenueLeg | BalancedMoved | ExpiryMoved | AbortMoved | ReservationActive | MalformedMissing | InvalidDecoded | NotDurablySuspended | LaterAuthorization
  | Unsigned => true
  | _ => false
  end.

Section local.
Context `{Sha256} `{Solana} `{Dalek} `{Threshold} `{Sysvars} `{!KeyperCodec} `{!SecretSets} `{!LocalCodec}.
Context `{!LocalCodecLaws}.

(** ** Steps that look at nothing of the protocol *)

Lemma calm_read_clock a : calm (read_clock a).
Proof. unfold read_clock. calm. Qed.

Lemma calm_send w payer n l extra : fully_signed payer extra l = true -> calm (send w payer n l extra).
Proof. intros HS. unfold send. calm_step. rewrite HS. cbn [negb]. destruct (lw_sends w n l); auto with calm. Qed.

Lemma signed_local_lock payer m epoch payload first second digest :
  fully_signed payer [lm_operator m] [lock_verifier first digest; lock_verifier second digest; lock_instruction (lm_operator m) (lm_pool m) epoch payload] = true.
Proof. apply signed_lock; apply verifier_unsigned. Qed.

Lemma signed_local_settle payer m epoch payload first second digest :
  fully_signed payer [lm_operator m; lm_venue_authority m]
    [settlement_verifier first digest; settlement_verifier second digest; settle_instruction (local_settle_accounts m epoch) payload] = true.
Proof.
  pose proof (signed_settle payer (local_settle_accounts m epoch) payload (settlement_verifier first digest) (settlement_verifier second digest)
    (verifier_unsigned _ _ _) (verifier_unsigned _ _ _)) as HS.
  unfold local_settle_accounts in HS |- *. by destruct (lm_backed m) as [[[? ?] ?] ?].
Qed.
Hint Resolve signed_local_lock signed_local_settle : signed.
Hint Extern 2 (fully_signed _ _ _ = true) => eauto with signed : calm.

Lemma calm_add_i64 a b : calm (add_i64 a b).
Proof. unfold add_i64. calm. Qed.
Lemma calm_add_u64 a b : calm (add_u64 a b).
Proof. unfold add_u64. calm. Qed.
Hint Resolve calm_read_clock calm_send calm_add_i64 calm_add_u64 : calm.

Lemma calm_create_epoch w m id l a : calm (create_epoch_step w m id l a).
Proof. unfold create_epoch_step. calm. Qed.

Lemma calm_opens w : calm (open_accounts w) /\ calm (open_reservations w) /\ calm (open_suspensions w).
Proof. unfold open_accounts, open_reservations, open_suspensions. split_and!; calm. Qed.
Definition calm_open_accounts w := proj1 (calm_opens w).
Definition calm_open_reservations w := proj1 (proj2 (calm_opens w)).
Definition calm_open_suspensions w := proj2 (proj2 (calm_opens w)).

Lemma calm_reserve io j n e p : calm (reserve_step io j n e p).
Proof. unfold reserve_step. calm. Qed.

Lemma calm_token_amounts a m : calm (token_amounts a m).
Proof. unfold token_amounts. calm. Qed.

Lemma calm_read_epoch_state a : calm (read_epoch_state a).
Proof. unfold read_epoch_state. calm. Qed.

Lemma calm_wait_past clock d turn polls : calm (wait_past clock d turn polls).
Proof. revert turn. induction polls as [|polls IH]; intros turn; cbn [wait_past]; [calm|]. calm. destruct (_ <? _)%Z; auto with calm. Qed.

(** The wait ends once the clock is past the deadline, whatever it showed before. *)
Lemma wait_past_ends clock deadline turns now polls :
  (forall t, t < turns -> exists v, read_clock (clock t) = Ok v) -> read_clock (clock turns) = Ok now -> (deadline < now)%Z ->
  turns < polls -> wait_past clock deadline 0 polls = Ok tt.
Proof.
  intros Hr Hn Hd Hp.
  assert (forall k turn polls, turn + k = turns -> k < polls -> wait_past clock deadline turn polls = Ok tt) as HG.
  { induction k as [|k IH]; intros turn [|fuel] Ht Hf; try lia; cbn [wait_past].
    - rewrite Nat.add_0_r in Ht. rewrite Ht, Hn. cbn [mbind result_bind]. by rewrite (proj2 (Z.ltb_lt _ _)).
    - destruct (Hr turn) as [v ->]; [lia|]. cbn [mbind result_bind]. destruct (_ <? _)%Z; [done|]. apply IH; lia. }
  by apply (HG turns).
Qed.
Hint Resolve calm_create_epoch calm_open_accounts calm_open_reservations calm_open_suspensions calm_reserve calm_token_amounts calm_read_epoch_state
  calm_wait_past : calm.

Lemma calm_reserve_all w id l j : calm (reserve_all w id l j).
Proof. revert j. induction l as [|i l IH]; intros j; cbn [reserve_all]; calm. Qed.

Lemma calm_prepare_member d m s id slot side enc j : calm (prepare_member d m s id slot side enc j).
Proof. unfold prepare_member. calm. Qed.

Lemma calm_prepare_members prepare l j : (forall i j, calm (prepare i j)) -> calm (prepare_members prepare l j).
Proof. intros Hp. revert j. induction l as [|i l IH]; intros j; cbn [prepare_members]; calm. Qed.

Lemma calm_local_package w m epoch c k ms : calm (local_package w m epoch c k ms).
Proof. unfold local_package. calm. Qed.

Lemma calm_lock_step w m d epoch p : calm (lock_step w m d epoch p).
Proof. unfold lock_step, sign_and_lock. calm. Qed.

Lemma calm_release_step w d epoch p i : calm (release_step w d epoch p i).
Proof. unfold release_step. calm. Qed.
Hint Resolve calm_reserve_all calm_prepare_member calm_prepare_members calm_local_package calm_lock_step calm_release_step : calm.

Lemma calm_balanced_evidence w d epoch p i : calm (balanced_evidence w d epoch p i).
Proof. unfold balanced_evidence. calm. Qed.
Hint Resolve calm_balanced_evidence : calm.

(** ** Freed reservations *)

(** After a successful release every nonce asked for reads [Released] in the handle. *)
Lemma release_reservations_released io accounts journal terminal nonces accounts' journal' :
  release_reservations io accounts journal terminal nonces = (accounts', journal', Ok tt) ->
  Forall (fun nonce => ReservationJournal_state journal' nonce = Some ReservationState.Released) nonces.
Proof.
  unfold release_reservations. cbv zeta. destruct (release_epoch_checked _ _ _ _ _ _) as [[j s] r] eqn:E. intros [= -> -> HR].
  apply release_epoch_cases in E as [(_ & _ & e & ->)|(m & verdict & _ & [_ HB] & _ & HO)]; [done|].
  destruct verdict as [u|e]; cbn in HO; [|by destruct HO as [_ ->]].
  destruct HO as [(_ & _ & HJ)|[(e & ->) _]]; [|done].
  apply list.Forall_forall. intros n Hn. rewrite list.Forall_forall in HB. destruct (HB n Hn) as (r0 & Hr0 & _ & Hu).
  unfold ReservationJournal_state. rewrite HJ, lookup_advance_all, Hr0, bool_decide_eq_true_2 by done. cbn.
  unfold advance_record. destruct (rr_state r0) eqn:Es; [done | done|].
  rewrite (bool_decide_eq_false_2 (ReservationState.Released = _)) by done. by rewrite Es.
Qed.

Lemma calm_release_all w epoch accounts journal nonces : calm (release_all w epoch accounts journal nonces).
Proof.
  unfold release_all. calm_step. destruct (release_reservations _ _ _ _ _) as [[accounts' journal'] [[]|e]] eqn:E; [|by apply calm_Err].
  apply release_reservations_released in E. cbn [map_err mbind result_bind].
  destruct (existsb _ nonces) eqn:Ex; [|calm]. apply existsb_exists in Ex as (n & Hn%list_elem_of_In & Ex).
  rewrite list.Forall_forall in E. rewrite (E n Hn) in Ex. by bguard.
Qed.
Hint Resolve calm_release_all : calm.

(** After its last transaction the node shows the epoch in another phase than that transaction leaves, or
    other amounts in the pool's or the venue's token accounts than before. *)
Definition node_moved (w : LocalWorld) (m : LocalMarket) (left_in : EpochTerminalState) : Prop :=
  exists before after state, token_amounts (lw_tokens_before w) m = Ok before /\ token_amounts (lw_tokens_after w) m = Ok after /\
    read_epoch_state (lw_epoch_after w) = Ok state /\ (before <> after \/ terminal_state state <> left_in).

Lemma calm_abort_step w m polls epoch deadline accounts journal nonces :
  calm_unless (fun e => e = AbortMoved /\ node_moved w m Aborted) (abort_step w m polls epoch deadline accounts journal nonces).
Proof.
  unfold abort_step. apply calm_unless_bind; [auto with calm|]. intros before Hb. do 2 calm_step.
  apply calm_unless_bind; [auto with calm|]. intros state Hs. apply calm_unless_bind; [auto with calm|]. intros after Ha.
  apply calm_unless_guard; [|auto with calm]. intros E _. split; [done|]. exists before, after, state. split_and!; try done.
  apply orb_true_iff in E as [E|E]; [right | left]; by bguard.
Qed.

Lemma calm_underfilled w m polls :
  calm_unless (fun e => e = ExpiryMoved /\ node_moved w m Expired) (underfilled_epoch_expires_and_releases w m polls).
Proof.
  unfold underfilled_epoch_expires_and_releases. do 10 calm_step. apply calm_unless_bind; [auto with calm|]. intros before Hb. do 2 calm_step.
  apply calm_unless_bind; [auto with calm|]. intros state Hs. apply calm_unless_bind; [auto with calm|]. intros after Ha.
  apply calm_unless_guard; [|intros _; calm]. intros E _. split; [done|]. exists before, after, state. split_and!; try done.
  apply orb_true_iff in E as [E|E]; [right | left]; by bguard.
Qed.

(** ** A lasting suspension *)

Definition listed (file : option (list byte)) (trading : bytes32) : Prop := exists m, lists file m /\ m !! trading = Some tt.

Lemma suspend_lists io registry trading registry' :
  SuspensionRegistry_suspend io registry trading = (registry', Ok tt) -> listed (sr_file registry') trading.
Proof.
  intros E. assert (exists m, lists (sr_file registry) m) as (m & HL).
  { unfold SuspensionRegistry_suspend in E. destruct (acquire_suspension_lock io); [|done].
    destruct (load_suspensions io (sr_file registry)) as [m|] eqn:EL; [|done]. apply load_suspensions_Ok in EL as [_ EL]. by exists m. }
  destruct (suspend_cases _ _ _ _ _ _ HL E) as [[_ ?]|HL']; [done|]. eexists. split; [done|]. apply lookup_insert_eq.
Qed.

(** Opening an existing registry reads the keys it lists. *)
Lemma reopen_lists io file trading registry :
  io_metadata io = None -> listed file trading -> snd (SuspensionRegistry_open io file) = Ok registry ->
  listed (sr_file registry) trading /\ SuspensionRegistry_is_suspended registry trading = true.
Proof.
  intros HM (m & HL & Hk). pose proof HL as (bytes & -> & _). unfold SuspensionRegistry_open, path_exists. rewrite HM.
  destruct (acquire_suspension_lock io); [|done]. destruct (load_suspensions io (Some bytes)) as [keys|] eqn:EL; [|done].
  apply load_suspensions_Ok in EL as [_ EL]. rewrite (lists_fun _ _ _ EL HL). intros [= <-]. split; [by exists m|].
  unfold SuspensionRegistry_is_suspended. cbn. by rewrite Hk.
Qed.

Lemma listed_refused io registry reserved trading operator expiry :
  AdvisoryLock_acquire io = Ok tt -> io_read io = None -> listed (sr_file registry) trading ->
  SuspensionRegistry_issue_authorization io registry reserved trading operator expiry = Err SuspensionError.Suspended.
Proof.
  intros HA HR (m & HL & Hk). unfold SuspensionRegistry_issue_authorization, acquire_suspension_lock. rewrite HA.
  cbn [map_err mbind result_bind]. rewrite (proj2 (load_suspensions_Ok io _ m)) by done. cbn [mbind result_bind]. by rewrite Hk.
Qed.

(** The registry's file stays readable between the suspension and the later request. *)
Definition registry_readable (w : LocalWorld) : Prop :=
  io_metadata (lw_suspensions_reopen w) = None /\
  AdvisoryLock_acquire (mw_issue (lw_later w)) = Ok tt /\ io_read (mw_issue (lw_later w)) = None.

Lemma calm_suspend_step w m registry journal trading slot :
  registry_readable w -> calm (suspend_step w m registry journal trading slot).
Proof.
  intros (HM & HA & HR). unfold suspend_step. destruct (SuspensionRegistry_suspend _ _ _) as [registry' [[]|e]] eqn:E; [|by apply calm_Err].
  apply suspend_lists in E. cbn [map_err mbind result_bind]. calm_step. match goal with T : map_err _ _ = Ok ?r |- _ => apply map_err_Ok in T; rename T into HO; rename r into reopened end.
  destruct (reopen_lists _ _ _ _ HM E HO) as [HL ->]. cbn [negb]. calm. by rewrite listed_refused.
Qed.

(** ** Distinct members *)

(** A participant with a live lot; one lot is all a member of a rehearsal has. *)
Definition occupied (journal : ReservationJournal) (participant : bytes32) : Prop :=
  exists m, represents (rj_file journal) m /\ (1 <= live_total rr_base_atoms participant m)%Z.

Definition admits (journal journal' : ReservationJournal) (participant : bytes32) : Prop :=
  ~ occupied journal participant /\ occupied journal' participant /\ forall q, occupied journal q -> occupied journal' q.

Lemma live_total_nonneg p m : records_ok m -> (0 <= live_total rr_base_atoms p m)%Z.
Proof. intros HM%(live_totals_nonneg p). apply sumZ_nonneg. revert HM. apply Forall_impl. tauto. Qed.

(** What a granted reservation of a rehearsal did. *)
Lemma reserve_step_inv io journal nonce epoch participant journal' reserved :
  reserve_step io journal nonce epoch participant = Ok (journal', reserved) ->
  reserved = {| ua_nonce := nonce; ua_epoch_id := epoch; ua_participant_id := participant; ua_base_atoms := 1; ua_quote_atoms := 100 |} /\
  exists m, let record := {| rr_nonce := nonce; rr_epoch_id := epoch; rr_participant_id := participant; rr_base_atoms := 1;
                             rr_quote_atoms := 100; rr_state := ReservationState.Reserved |} in
    represents (rj_file journal) m /\ m !! nonce = None /\ (live_total rr_base_atoms participant m <= 0)%Z /\
    represents (rj_file journal') (<[nonce := record]> m).
Proof.
  unfold reserve_step. intros E. apply bind_Ok in E as (record & Hr%map_err_Ok & E).
  apply record_new_Ok in Hr as ((Hz1 & Hz2 & Hz3 & _) & Er).
  assert (record_wf record) as HW by (rewrite Er; unfold record_wf, u64_ok; cbn; split_and!; done || lia).
  unfold ReservationJournal_reserve in E. destruct (ReservationJournal_mutate _ _ _) as [j [[]|e]] eqn:EM; [|done].
  cbn in E. apply Ok_inj in E. injection E as <- <-. subst record. split; [done|].
  apply mutate_cases in EM as [(_ & _ & ?)|(m & m' & HR & HO & Hs & HF & _)]; [done|]. exists m. cbv zeta.
  pose proof (represents_ok _ _ HR) as [HM _].
  apply reserve_operation_Ok in HO as (Hn & Hb & _ & ->); [|done | done | unfold balance_ok, u64_ok; cbn; lia].
  change (base_atoms one_lot) with 1%Z in Hb. cbn [rr_participant_id rr_base_atoms rr_nonce] in *. split_and!; [done | done | lia|].
  rewrite HF. apply represents_encode. split; [|done]. by apply map_Forall_insert_2.
Qed.

Lemma reserve_step_admits io journal nonce epoch participant journal' reserved :
  reserve_step io journal nonce epoch participant = Ok (journal', reserved) -> admits journal journal' participant.
Proof.
  intros (_ & m & HR & Hn & Hb & HR')%reserve_step_inv. pose proof (represents_ok _ _ HR) as [HM _]. split_and!.
  - intros (m0 & HR0 & Hl). rewrite (represents_fun _ _ _ HR0 HR) in Hl. lia.
  - eexists. split; [exact HR'|]. rewrite live_total_insert by done. unfold live_of. cbn. rewrite !bool_decide_eq_true_2 by done. cbn.
    pose proof (live_total_nonneg participant m HM). lia.
  - intros q (m0 & HR0 & Hl). rewrite (represents_fun _ _ _ HR0 HR) in Hl. eexists. split; [exact HR'|].
    rewrite live_total_insert by done. destruct (live_of q _); cbn; lia.
Qed.

(** What a turn of the members' loop leaves. *)
Record prepared (side : Side) (encrypt : SignedIntentV1 -> result CryptoError EncryptedIntentV1) (member : LocalMember) : Prop := {
  mp_intent : exists body encrypted, IntentBodyV1_wf body /\ ib_side body = side /\
    encrypt (SignedIntentV1_sign body (me_trading member)) = Ok encrypted /\
    es_ciphertext (me_submission member) = ei_encoded encrypted;
  mp_participant : EncryptedSubmissionV1_participant_id (me_submission member) = me_participant member;
  mp_balance : balance_wf (me_balance member);
}.

Lemma prepare_member_Ok d m registry epoch slot side encrypt journal journal' member :
  prepare_member d m registry epoch slot side encrypt journal = Ok (journal', member) ->
  prepared side encrypt member /\ admits journal journal' (me_participant member).
Proof.
  unfold prepare_member. intros E. apply bind_Ok in E as (seed & _ & E). cbv zeta in E. apply bind_Ok in E as (p & _ & E).
  apply bind_Ok in E as (n & _ & E). apply bind_Ok in E as ([j reserved] & HR & E).
  pose proof (reserve_step_admits _ _ _ _ _ _ _ HR) as HA. apply reserve_step_inv in HR as [-> _].
  apply bind_Ok in E as (x & _ & E). apply bind_Ok in E as (auth & Hauth%map_err_Ok & E). apply bind_Ok in E as (i & _ & E).
  apply bind_Ok in E as (body & Hbody%map_err_Ok & E). apply bind_Ok in E as (encrypted & Henc%map_err_Ok & E).
  apply bind_Ok in E as (r & _ & E). apply bind_Ok in E as (submission & Hsub%map_err_Ok & E).
  apply bind_Ok in E as (balance & Hbal%map_err_Ok & E). apply Ok_inj in E. injection E as <- <-.
  assert (fa_participant_id auth = p) as Hap.
  { unfold SuspensionRegistry_issue_authorization in Hauth. apply bind_Ok in Hauth as (? & _ & Hauth). apply bind_Ok in Hauth as (? & _ & Hauth).
    apply guard_Ok in Hauth as [_ Hauth]. apply Ok_inj in Hauth as <-. done. }
  unfold IntentBodyV1_new in Hbody. apply guard_Ok in Hbody as [_ Hbody]. apply guard_Ok in Hbody as [_ Hbody]. apply Ok_inj in Hbody as <-.
  unfold EncryptedSubmissionV1_sign in Hsub. apply guard_Ok in Hsub as [_ Hsub]. apply guard_Ok in Hsub as [_ Hsub]. apply Ok_inj in Hsub as <-.
  unfold BalanceRecordV1_new in Hbal. apply guard_Ok in Hbal as [Gz Hbal]. apply Ok_inj in Hbal as <-.
  split; [|done]. split; [|done | bguard; unfold balance_wf, u64_ok; cbn; split_and!; done || lia]. eexists _, encrypted. split; [|split; [|split; [exact Henc | done]]]; [|done].
  unfold IntentBodyV1_wf, u64_ok. cbn. lia.
Qed.

Lemma prepare_members_Ok prepare (P : nat -> LocalMember -> Prop) indices journal journal' members :
  (forall i j j' member, prepare i j = Ok (j', member) -> P i member /\ admits j j' (me_participant member)) ->
  prepare_members prepare indices journal = Ok (journal', members) ->
  Forall2 P indices members /\ NoDup (map me_participant members) /\ Forall (fun member => ~ occupied journal (me_participant member)) members.
Proof.
  intros HP. revert journal members. induction indices as [|i indices IH]; intros journal members E; cbn [prepare_members] in E.
  - apply Ok_inj in E. injection E as _ <-. split_and!; constructor.
  - apply bind_Ok in E as ([j member] & Hm & E). apply bind_Ok in E as ([j1 rest] & Hr & E). apply Ok_inj in E. injection E as -> <-.
    destruct (HP _ _ _ _ Hm) as [Hi (Hf & Ho & Hk)]. destruct (IH _ _ Hr) as (HF & HN & HO). rewrite list.Forall_forall in HO.
    cbn [map]. rewrite list.NoDup_cons. split_and!; [by constructor | | done |].
    + intros (x & Ex & Hx)%list_elem_of_fmap. apply (HO x Hx). by rewrite <- Ex.
    + constructor; [done|]. apply list.Forall_forall. intros x Hx Hc. by apply (HO x Hx), Hk.
Qed.

(** ** The intent that must not decode *)

Lemma malform_rejected signed : is_ok (SignedIntentV1_decode (malform signed)) = false.
Proof.
  destruct (SignedIntentV1_decode _) as [intent|e] eqn:E; [|done]. exfalso.
  apply signed_intent_encode_decode in E as [(Hl & _) E]. apply (f_equal (slice 2 6)) in E. unfold malform in E.
  rewrite slice_put_at in E by (rewrite ?signed_intent_encode_length; cbn; lia).
  rewrite signed_intent_encode, IntentBodyV1_encode_fields in E. unfold IntentBodyV1_fields in E. rewrite Hl in E. by cbn in E.
Qed.

(** Two shares that pass the checks open what was encrypted, so a recovered intent is the one encrypted. *)
Lemma recovered_plain `{!ThresholdLaws} keys rnd plain encrypted submission shares intent :
  keys_threshold (ek_keys keys) = 1 -> encode_ciphertext (keys_encrypt (ek_keys keys) rnd plain) = Ok encrypted ->
  es_ciphertext submission = ei_encoded encrypted ->
  EpochPublicKeys_recover_submission keys submission shares = Ok intent -> SignedIntentV1_decode plain = Ok intent.
Proof.
  intros Ht HE Hc HR. apply recover_submission_inv in HR as (encrypted' & plain' & Hd & _ & Hl & HN & HV & Hp & Hdec).
  rewrite Hc, (decode_encode_ciphertext _ _ HE) in Hd. apply Ok_inj in Hd as <-.
  apply encode_ciphertext_Ok in HE as (Hct & _). rewrite Hct in HV, Hp. rewrite decrypt_opens in Hp; [by injection Hp as ->|..].
  - rewrite length_map. lia.
  - by rewrite map_map.
  - by apply Forall_map.
Qed.

Lemma local_package_Ok w m epoch configuration keys members package :
  local_package w m epoch configuration keys members = Ok package ->
  pk_configuration package = configuration /\ pk_epoch_public_keys package = keys /\
  pk_submissions package = map me_submission members /\ pk_balances package = map me_balance members.
Proof.
  unfold local_package. intros E. apply bind_Ok in E as (snapshot & _ & E). apply bind_Ok in E as (nonce & _ & E). apply map_err_Ok in E.
  unfold LockPackageV1_new in E. apply guard_Ok in E as [_ E]. apply bind_Ok in E as (? & _ & E). apply bind_Ok in E as (? & _ & E).
  apply bind_Ok in E as (? & _ & E). apply Ok_inj in E as <-. done.
Qed.

Lemma four_members {A} (P : nat -> A -> Prop) members :
  Forall2 P [0; 1; 2; 3] members -> exists a b c d, members = [a; b; c; d] /\ P 0 a /\ P 1 b /\ P 2 c /\ P 3 d.
Proof.
  intros (a & ? & ? & HF & ->)%Forall2_cons_inv_l. apply Forall2_cons_inv_l in HF as (b & ? & ? & HF & ->).
  apply Forall2_cons_inv_l in HF as (c & ? & ? & HF & ->). apply Forall2_cons_inv_l in HF as (d & ? & ? & HF & ->).
  apply Forall2_nil_inv_l in HF as ->. by exists a, b, c, d.
Qed.

(** In a list without repetitions the first match is the only one. *)
Lemma iter_position_distinct {A B} `{EqDecision B} (f : A -> B) l i x :
  NoDup (map f l) -> l !! i = Some x -> iter_position (fun y => f y == f x) l = Some i.
Proof.
  revert i. induction l as [|y l IH]; intros i HN Hi; [done|]. cbn [map] in HN. apply list.NoDup_cons in HN as [Hy HN].
  cbn [iter_position]. destruct i as [|i]; cbn in Hi; [injection Hi as ->; by rewrite bool_decide_eq_true_2|].
  rewrite bool_decide_eq_false_2, (IH i) by (done || (intros E; apply Hy; rewrite E; apply list_elem_of_fmap_2; by eapply list_elem_of_lookup_2)).
  done.
Qed.

Lemma calm_invalid `{!ThresholdLaws} `{!SecretSetsLaws} w m polls :
  registry_readable w ->
  calm_unless (fun e => e = AbortMoved /\ node_moved w m Aborted) (invalid_reveal_aborts_and_suspends w m polls).
Proof.
  intros HW. unfold invalid_reveal_aborts_and_suspends. do 5 calm_step. apply calm_unless_bind; [auto with calm|].
  intros dealer [_ Ht]%map_err_Ok%dealt_threshold. do 5 calm_step. apply calm_unless_bind; [auto with calm|]. intros [journal members] HM.
  apply (prepare_members_Ok _ (fun i member => prepared Buy (encrypt_revealed w (EpochDealer_public_keys dealer) i) member)) in HM as (HF & HN & _);
    [|intros i j j' member; apply prepare_member_Ok].
  apply four_members in HF as (x & y & z & d & -> & Px & Py & Pz & Pd). apply calm_unless_bind; [auto with calm|].
  intros package (_ & _ & HS & _)%local_package_Ok. calm_step. rewrite HS. cbn [lookup list_lookup ok_or mbind result_bind].
  replace (iter_position _ _) with (Some 3).
  2: { symmetry. rewrite <- (mp_participant _ _ _ Pd). apply iter_position_distinct; [|done].
       cbn [map] in HN |- *. by rewrite (mp_participant _ _ _ Px), (mp_participant _ _ _ Py), (mp_participant _ _ _ Pz), (mp_participant _ _ _ Pd). }
  cbn [ok_or mbind result_bind]. calm_step. calm_step. cbn [map lookup list_lookup ok_or mbind result_bind].
  destruct (EpochPublicKeys_recover_submission _ _ _) as [intent|e] eqn:ER; cbn [is_ok].
  - exfalso. destruct (mp_intent _ _ _ Pd) as (body & encrypted & _ & _ & He & Hc). unfold encrypt_revealed in He. cbn [Nat.eqb] in He. cbv zeta in He.
    unfold EpochPublicKeys_encrypt_encoded_intent in He. apply guard_Ok in He as [_ He].
    apply (recovered_plain _ _ _ _ _ _ _ Ht He Hc) in ER. pose proof (malform_rejected (SignedIntentV1_sign body (me_trading d))) as HR.
    by rewrite ER in HR.
  - apply calm_unless_bind; [apply calm_abort_step|]. intros ? _. by apply calm_unless_calm, calm_suspend_step.
Qed.

(** ** The balanced batch *)

(** The submission encrypts a well-formed intent on this side. *)
Definition conceals (keys : EpochPublicKeys) (side : Side) (submission : EncryptedSubmissionV1) : Prop :=
  exists rnd signed encrypted, IntentBodyV1_wf (si_body signed) /\ ib_side (si_body signed) = side /\
    EpochPublicKeys_encrypt keys rnd signed = Ok encrypted /\ es_ciphertext submission = ei_encoded encrypted.

(** What the members' submissions recover to: the sides they were prepared with, in order. *)
Lemma recovered_sides `{!ThresholdLaws} keys package confirmed sides submissions evidence intents :
  keys_threshold (ek_keys keys) = 1 -> pk_epoch_public_keys package = keys -> Forall2 (conceals keys) sides submissions ->
  length evidence = length submissions ->
  try_map (recover_member package confirmed) (zip submissions evidence) = Ok intents ->
  map (fun intent => ib_side (si_body intent)) intents = sides.
Proof.
  intros Ht Hk HF. revert evidence intents. induction HF as [|side s sides submissions HP HF IH]; intros evidence intents Hl HT;
    apply try_map_Ok in HT; (destruct evidence as [|e evidence]; [done || by apply Forall2_nil_inv_l in HT as ->|]); [done|].
  cbn [zip zip_with] in HT. apply Forall2_cons_inv_l in HT as (intent & rest & Hi & HT & ->). cbn [map].
  injection Hl as Hl. f_equal; [|apply (IH evidence rest Hl); by apply try_map_Ok].
  unfold recover_member in Hi. apply guard_Ok in Hi as [_ Hi]. apply map_err_Ok in Hi. rewrite Hk in Hi.
  destruct HP as (rnd & signed & encrypted & HW & <- & He & Hc). unfold EpochPublicKeys_encrypt in He.
  apply (recovered_plain _ _ _ _ _ _ _ Ht He Hc) in Hi. rewrite signed_intent_decode_encode in Hi by done. by apply Ok_inj in Hi as <-.
Qed.

(** Buys less sells. *)
Definition net_sides (sides : list Side) : Z := fold_right (fun side n => if side == Buy then n + 1 else n - 1)%Z 0%Z sides.

Lemma net_lots_sides orders : net_lots orders = net_sides (map fo_side orders).
Proof.
  unfold net_lots, lots_of. induction orders as [|o orders IH]; [done|]. cbn [map net_sides fold_right List.filter].
  change (fold_right _ _ _) with (net_sides (map fo_side orders)). rewrite <- IH. change (bool_decide (fo_side o = Buy)) with (is_buy o).
  destruct (is_buy o); cbn [negb length]; lia.
Qed.

(** A payload recomputed over members of these sides carries their net. *)
Lemma sided_payload sides package evidence nonce confirmed r :
  recompute package evidence nonce confirmed = Ok r ->
  cfg_base_lot_atoms (pk_configuration package) = 1%Z -> cfg_quote_atoms_per_lot (pk_configuration package) = 100%Z ->
  Forall balance_wf (pk_balances package) -> length (pk_balances package) = 4 -> length sides = 4 ->
  (forall intents, try_map (recover_member package confirmed) (zip (pk_submissions package) evidence) = Ok intents ->
     length evidence = length (pk_submissions package) -> map (fun intent => ib_side (si_body intent)) intents = sides) ->
  rc_residual r = residual_of (net_sides sides) /\
  (sp_residual_side (rc_payload r), sp_residual_lots (rc_payload r)) = residual_wire (residual_of (net_sides sides)).
Proof.
  intros HR Hb Hq HB Hl Hl4 HS. apply recompute_inv in HR as (pool & intents & orders & result & HR).
  pose proof (HS _ (rp_recovered _ _ _ _ _ _ _ _ _ HR) (rp_members _ _ _ _ _ _ _ _ _ HR)) as Hsides.
  assert (map fo_side orders = sides) as Ho.
  { rewrite <- Hsides. pose proof (rp_orders _ _ _ _ _ _ _ _ _ HR) as HF. clear -HF.
    induction HF as [|i o l k [-> _] _ IH]; [done|]. cbn. by f_equal. }
  assert (length orders = 4) as Hlen by (by rewrite <- (length_map fo_side), Ho).
  pose proof (rp_netted _ _ _ _ _ _ _ _ _ HR) as Hnet. rewrite Hb, Hq in Hnet. apply net_batch_Ok in Hnet as (_ & _ & _ & Hres).
  - assert (rc_residual r = residual_of (net_sides sides)) as Hr
      by (rewrite (rp_residual _ _ _ _ _ _ _ _ _ HR), Hres; cbn [batch_of residual]; by rewrite net_lots_sides, Ho).
    split; [done|]. rewrite (rp_payload _ _ _ _ _ _ _ _ _ HR), Hr. unfold settlement_payload. by destruct (residual_wire _).
  - unfold batch_wf, u64_ok. cbn [bc_base_lot_atoms bc_quote_atoms_per_lot].
    rewrite (proj2 (before_distinct _) (rp_balances _ _ _ _ _ _ _ _ _ HR)), Hl, Hlen. split_and!; try lia. by apply before_ok.
Qed.

(** The first keyper's process answered a request with another payload of the same digest. *)
Definition second_payload (w : LocalWorld) (m : LocalMarket) : Prop :=
  exists share package evidence nonce confirmed r request approval,
    recompute package evidence nonce confirmed = Ok r /\ SettlementRequestV1_build package evidence nonce confirmed = Ok request /\
    run_keyper_sign_settlement (lw_sign_settlement w 0) share (keyper_key m 0) request = Ok approval /\
    sa_payload approval <> rc_payload r /\ SettlementPayloadV1_digest (sa_payload approval) = SettlementPayloadV1_digest (rc_payload r).

(** The node shows the balanced epoch with a residual. *)
Definition residual_shown (w : LocalWorld) : Prop :=
  exists state, read_epoch_state (lw_epoch_after w) = Ok state /\ (ep_residual_side state <> 0 \/ ep_residual_lots state <> 0)%Z.

(** What each alarm of the balanced batch comes from. *)
Definition balanced_cause (w : LocalWorld) (m : LocalMarket) (error : LocalError) : Prop :=
  match error with
  | BalancedVenueLeg => second_payload w m
  | BalancedMoved => node_moved w m Settled \/ residual_shown w
  | _ => False
  end.

Lemma calm_balanced `{!ThresholdLaws} `{!SecretSetsLaws} w m :
  calm_unless (balanced_cause w m) (balanced_zero_residual_settlement w m).
Proof.
  unfold balanced_zero_residual_settlement. do 8 calm_step. apply calm_unless_bind; [auto with calm|].
  intros dealer [_ Ht]%map_err_Ok%dealt_threshold. calm_step. apply calm_unless_bind; [auto with calm|]. intros [journal members] HM.
  apply (prepare_members_Ok _ (fun i member => prepared (nth i balanced_sides Buy)
    (EpochPublicKeys_encrypt (EpochDealer_public_keys dealer) (mw_encryption (lw_members w i))) member)) in HM as (HF & _ & _);
    [|intros i j j' member; apply prepare_member_Ok].
  apply calm_unless_bind; [auto with calm|]. intros package (Hcfg & Hkeys & HS & HB)%local_package_Ok.
  calm_step. calm_step. calm_step. unfold settle_balanced. calm_step. apply calm_unless_bind; [auto with calm|]. intros request Hreq%map_err_Ok. cbv zeta.
  apply calm_unless_bind; [auto with calm|]. intros first Hfirst%map_err_Ok. calm_step.
  apply calm_unless_guard; intros Eleg.
  2: { apply calm_unless_bind; [auto with calm|]. intros before Hbefore. calm_step. apply calm_unless_bind; [auto with calm|]. intros after Hafter.
       apply calm_unless_bind; [auto with calm|]. intros state Hs. apply calm_unless_guard; [|auto with calm]. intros E _. cbn [balanced_cause].
       apply orb_true_iff in E as [E|E]; [|right; exists state; split; [done | right; by bguard]].
       apply orb_true_iff in E as [E|E]; [|right; exists state; split; [done | left; by bguard]].
       left. exists before, after, state. split_and!; try done. apply orb_true_iff in E as [E|E]; [left | right]; by bguard. }
  intros _. cbn [balanced_cause].
  pose proof Hreq as Hb. unfold SettlementRequestV1_build in Hb. apply bind_Ok in Hb as (r & Hr & Hb). apply Ok_inj in Hb.
  pose proof (sign_settlement_checked _ _ _ _ _ Hfirst) as (_ & Hd & Hv & _). unfold SettlementApprovalV1_verify in Hv.
  destruct (verifying_key_ok _); [|done]. cbn [negb] in Hv. apply andb_true_iff in Hv as [Hv _]. bguard. rewrite Hv in Hd. rewrite <- Hb in Hd.
  destruct (sided_payload balanced_sides _ _ _ _ _ Hr) as [_ [= Hs Hl]].
  1, 2: by rewrite Hcfg.
  - rewrite HB. apply Forall_map. clear -HF. induction HF as [|i x l k HP _ IH]; constructor; [apply (mp_balance _ _ _ HP) | done].
  - by rewrite HB, length_map, <- (Forall2_length HF).
  - done.
  - intros intents Hi Hlen. rewrite HS in Hi, Hlen. apply (recovered_sides _ _ _ balanced_sides _ _ _ Ht Hkeys) in Hi; [done | | done].
    change balanced_sides with (map (fun i => nth i balanced_sides Buy) [0; 1; 2; 3]). apply Forall2_fmap_2. revert HF. apply Forall2_impl.
    intros i member HP. destruct (mp_intent _ _ _ HP) as (body & encrypted & HW & Hside & He & Hc).
    by exists (mw_encryption (lw_members w i)), (SignedIntentV1_sign body (me_trading member)), encrypted.
  - do 8 eexists. split_and!; [exact Hr | exact Hreq | exact Hfirst | | exact Hd].
    intros E. rewrite E, Hs, Hl in Eleg. done.
Qed.
End local.

#[export] Hint Resolve signed_local_lock signed_local_settle : signed.
#[export] Hint Extern 2 (fully_signed _ _ _ = true) => eauto with signed : calm.
#[export] Hint Resolve calm_read_clock calm_send calm_add_i64 calm_add_u64 calm_create_epoch calm_open_accounts calm_open_reservations
  calm_open_suspensions calm_reserve calm_token_amounts calm_read_epoch_state calm_underfilled : calm.
