(* ===== verification/LocalRunProps.v ===== *)
(** * Properties of the local demonstration

    The alarms of [local_proof]: what it checks of its own results after the crowd, the recovery, the
    persisted results and the observer's traces holds whatever the node and the processes answer. *)

From S2P Require Import Prelude Bytes Extern ProgramWire ProgramState ProgramInstruction Transactions HostExtern BTree Domain Ledger Commitment.
From S2P Require Import Storage Reservation ReservationProps Account AccountProps HostCrypto HostCryptoProps Suspension Dealer LockJournal Lock LockWire ConfirmedReads.
From S2P Require Import Settlement SettlementProps SettlementChain SettlementLive Keyper KeyperProps Client ClientProps Observer ObserverProps Evidence Deploy Devnet.
From S2P Require Import LocalDemo Validator LocalRun Alarms LocalProps.

(** The errors by which the demonstration says that what it did came out wrong, those of its rehearsals included:
    every one that is not the failure of a step to be carried out. *)
#[global] Instance run_alarm : Alarm RunError := fun error =>
  match error with
  | IndexPanic | CrowdRaised | CrowdNotRefused | OneShareDecrypted | RecoveryDisagreed _ | BatchDiffers | BaseLotDiffers
  | UnexpectedSettlement | ResultDiffers | ObserverDiffers => true
  | Step error => alarm error
  | _ => false
  end.

Lemma calm_Step {A} (r : result LocalError A) : calm r -> calm (map_err Step r).
Proof. intros Hr e He. destruct r as [a|e']; [done|]. injection He as <-. by apply (Hr e'). Qed.
#[export] Hint Resolve calm_Step : calm.

Lemma calm_Tools {A} (r : result DemoError A) : calm (map_err Tools r).
Proof. intros e He. destruct r as [a|e']; [done|]. by injection He as <-. Qed.
Lemma calm_Artifacts {A} (r : result ArtifactError A) : calm (map_err Artifacts r).
Proof. intros e He. destruct r as [a|e']; [done|]. by injection He as <-. Qed.
Lemma calm_Starting {A} (r : result ValidatorError A) : calm (map_err StartingValidator r).
Proof. intros e He. destruct r as [a|e']; [done|]. by injection He as <-. Qed.
#[export] Hint Resolve calm_Tools calm_Artifacts calm_Starting : calm.

(** ** The setup raises no alarm *)

Definition quiet_call {A} (x : numbered A) : Prop := forall n, calm (x n).

Lemma quiet_ret {A} (a : A) : quiet_call (mret a).
Proof. intros n. apply calm_Ok. Qed.

Lemma quiet_bind {A B} (x : numbered A) (f : A -> numbered B) : quiet_call x -> (forall a, quiet_call (f a)) -> quiet_call (x ≫= f).
Proof. intros Hx Hf n. unfold mbind, numbered_bind. apply calm_bind; [apply Hx|]. intros [k a] _. apply Hf. Qed.

Section setup.
Context `{Sha256} `{Solana} `{!SetupCodec}.

Lemma quiet_send w payer l extra : fully_signed payer extra l = true -> quiet_call (send_numbered w payer l extra).
Proof. intros HS n. unfold send_numbered. calm_step. rewrite HS. cbn [negb]. calm. Qed.

Lemma calm_sent {A} w payer l extra n (f : nat * bytes64 -> result RunError A) :
  fully_signed payer extra l = true -> (forall a, calm (f a)) -> calm (send_numbered w payer l extra n ≫= f).
Proof. intros HS Hf. apply calm_bind; [by apply quiet_send|]. intros a _. apply Hf. Qed.

Context `{!SetupCodecLaws}.

Lemma signed_creation payer account rent size owner initialize :
  ix_signers initialize = [] -> fully_signed payer [account] [system_create_account payer account rent size owner; initialize] = true.
Proof.
  intros HI. apply fully_signed_same. intros k. unfold signer_keys. cbn [map concat]. rewrite create_account_signers, HI. cbn.
  rewrite !elem_of_cons. naive_solver.
Qed.

Lemma signed_alone payer authority l : Forall (fun ix => ix_signers ix = [authority]) l -> l <> [] -> fully_signed payer [authority] l = true.
Proof.
  intros HF Hl. apply fully_signed_same. intros k. assert (k ∈ signer_keys l <-> k = authority) as ->; [|by rewrite list_elem_of_singleton].
  unfold signer_keys. destruct HF as [|ix l Hix HF]; [done|]. cbn [map concat]. rewrite Hix. cbn [app]. rewrite elem_of_cons. clear Hl Hix ix.
  induction HF as [|ix l Hix _ IH]; cbn [map concat]; [rewrite elem_of_nil; tauto|]. rewrite Hix. cbn [app]. rewrite elem_of_cons. tauto.
Qed.

Lemma signed_by_payer payer l : Forall (fun ix => ix_signers ix = [payer]) l -> fully_signed payer [] l = true.
Proof.
  intros HF. apply fully_signed_same. intros k. unfold signer_keys. rewrite elem_of_nil.
  induction HF as [|ix l Hix _ IH]; cbn [map concat]; [rewrite elem_of_nil; tauto|]. rewrite Hix. cbn [app]. rewrite elem_of_cons. tauto.
Qed.

Lemma quiet_create_mint w payer : quiet_call (create_mint w payer).
Proof.
  intros n. unfold create_mint. cbv zeta. calm_step. apply calm_bind; [auto with calm|]. intros ix HI%ok_or_Ok%initialize_mint_signers.
  apply calm_sent; [by apply signed_creation|]. intros [? ?]. apply calm_Ok.
Qed.
Lemma quiet_create_token_account w payer mint owner : quiet_call (create_token_account w payer mint owner).
Proof.
  intros n. unfold create_token_account. cbv zeta. calm_step. apply calm_bind; [auto with calm|]. intros ix HI%ok_or_Ok%initialize_account_signers.
  apply calm_sent; [by apply signed_creation|]. intros [? ?]. apply calm_Ok.
Qed.
Lemma quiet_mint_to w payer mint destination amount : quiet_call (mint_to w payer mint destination amount).
Proof.
  intros n. unfold mint_to. apply calm_bind; [auto with calm|]. intros ix HI%ok_or_Ok%mint_to_signers.
  apply calm_sent; [apply signed_by_payer; by constructor|]. intros [? ?]. apply calm_Ok.
Qed.
Lemma quiet_transfer w payer authority source mint destination amount :
  quiet_call (transfer_tokens_with_signature w payer authority source mint destination amount).
Proof.
  intros n. unfold transfer_tokens_with_signature. apply calm_bind; [auto with calm|]. intros ix HI%map_err_Ok%transfer_signers.
  apply quiet_send, signed_alone; [by constructor | done].
Qed.
Lemma quiet_transfer_tokens w payer authority source mint destination amount : quiet_call (transfer_tokens w payer authority source mint destination amount).
Proof. apply quiet_bind; [apply quiet_transfer|]. intros s. apply quiet_ret. Qed.
Hint Resolve quiet_ret quiet_create_mint quiet_create_token_account quiet_mint_to quiet_transfer quiet_transfer_tokens : calm.

Lemma quiet_create_tokens w payer operator venue : quiet_call (create_tokens w payer operator venue).
Proof. unfold create_tokens. repeat (apply quiet_bind; [auto with calm | intros ?; cbv zeta]). auto with calm. Qed.

Lemma quiet_trade_directly w payer t wallet side : quiet_call (trade_directly w payer t wallet side).
Proof. unfold trade_directly. destruct side; repeat (apply quiet_bind; [auto with calm | intros ?]); auto with calm. Qed.

Lemma quiet_trade_all w payer t l : quiet_call (trade_all w payer t l).
Proof.
  induction l as [|[wallet side] l IH]; cbn [trade_all]; [apply quiet_ret|].
  apply quiet_bind; [apply quiet_trade_directly|]. intros s. apply quiet_bind; [done|]. intros ss. apply quiet_ret.
Qed.
End setup.

(** ** What an accepted trace shows *)

Section observer.
Context `{Sha256} `{Solana} `{ObserverCodec}.

Lemma direct_action_individual market tx a : direct_action market tx = Ok a -> is_individual a = true.
Proof.
  unfold direct_action. intros E. apply bind_Ok in E as (t & _ & E). apply bind_Ok in E as (? & _ & E).
  destruct (dc_inner t); [|done]. destruct (dc_instructions t) as [|i [|? ?]]; [done| |done]. apply guard_Ok in E as [_ E].
  destruct (ci_accounts i) as [|a0 [|a1 [|a2 [|a3 [|? ?]]]]]; try done. do 4 apply bind_Ok in E as (? & _ & E). apply guard_Ok in E as [_ E].
  apply bind_Ok in E as (? & _ & E). apply bind_Ok in E as (token & _ & E). apply bind_Ok in E as ([side amount] & _ & E).
  destruct token; [|done]. destruct (_ && _); [|done]. by apply Ok_inj in E as <-.
Qed.

Lemma direct_counts txs market t :
  PublicTrace_from_confirmed_direct txs market = Ok t ->
  PublicTrace_individual_order_count t = length txs /\ PublicTrace_aggregate_count t = 0.
Proof.
  unfold PublicTrace_from_confirmed_direct, PublicTrace_individual_order_count, PublicTrace_aggregate_count. intros E.
  apply bind_Ok in E as (actions & HF%try_map_Ok & E). apply Ok_inj in E as <-. cbn [pt_actions].
  induction HF as [|tx a txs actions Ha _ [IH1 IH2]]; [done|]. apply direct_action_individual in Ha. cbn. rewrite Ha. cbn. by rewrite IH1.
Qed.

Lemma pooled_counts lock settlement accounts t :
  PublicTrace_from_confirmed_kageb lock settlement accounts = Ok t ->
  PublicTrace_individual_order_count t = 0 /\ PublicTrace_aggregate_count t = 1 /\ PublicTrace_visible_participant_wallets t = [].
Proof.
  unfold PublicTrace_from_confirmed_kageb. intros E. do 4 apply bind_Ok in E as (? & _ & E).
  apply bind_Ok in E as ([li la] & _ & E). apply bind_Ok in E as ([si sa] & _ & E). apply guard_Ok in E as [_ E].
  do 10 apply bind_Ok in E as (? & _ & E). by apply Ok_inj in E as <-.
Qed.
End observer.

(** ** Persisted results *)

Section results.
Context `{Sha256} `{Solana} `{Dalek} `{Threshold} `{Sysvars} `{!KeyperCodec} `{!SecretSets} `{!LocalCodec} `{!SetupCodec} `{ObserverCodec}.

(** A query of a file that holds the settlement answers with it. *)
Lemma query_settled io accounts participant trading j stored m a e new b :
  aj_file accounts = Some (encode_accounts m a) -> accounts_ok m -> (Z.of_nat (size m) < 2 ^ 32)%Z -> (Z.of_nat (size a) < 2 ^ 32)%Z ->
  at_settlement e new m -> new !! participant = Some b ->
  AccountJournal_query_result io accounts participant trading = (j, Ok stored) -> rs_balance stored = b /\ rs_epoch_id stored = e.
Proof.
  intros Hf HM Hm Ha HS Hb. unfold AccountJournal_query_result. destruct (AccountJournal_reload io accounts) as [j1 [[]|err]] eqn:ER; [|done].
  apply reload_cases in ER as [_ HH]. destruct (HH eq_refl) as (bytes & Hbytes & HD). rewrite Hf in Hbytes. injection Hbytes as <-.
  destruct (decode_encoded_records m a HM Hm Ha) as (epochs & Hdec & _). rewrite Hdec in HD. apply bind_Ok in HD as (x & _ & HD).
  apply Ok_inj in HD. injection HD as HD _. intros [= _ E]. rewrite <- HD in E.
  destruct (HS _ _ Hb) as (record & Hr & He & Hbal). apply bind_Ok in E as (record' & Hr' & E). apply ok_or_Ok in Hr'. rewrite Hr in Hr'. injection Hr' as <-.
  apply guard_Ok in E as [_ E]. apply guard_Ok in E as [_ E]. by apply Ok_inj in E as <-.
Qed.

Lemma query_keeps_file io accounts participant trading j r :
  AccountJournal_query_result io accounts participant trading = (j, r) -> aj_file j = aj_file accounts.
Proof.
  unfold AccountJournal_query_result. destruct (AccountJournal_reload io accounts) as [j1 [[]|err]] eqn:ER; apply reload_cases in ER as [Hf _];
    by intros [= <- _].
Qed.

Lemma calm_check_results query e r members accounts m a :
  aj_file accounts = Some (encode_accounts m a) -> accounts_ok m -> (Z.of_nat (size m) < 2 ^ 32)%Z -> (Z.of_nat (size a) < 2 ^ 32)%Z ->
  at_settlement e (balances r) m -> Forall (fun entry : nat * RunMember => is_Some (balances r !! rm_participant (snd entry))) members ->
  calm (check_results query e r members accounts).
Proof.
  intros Hf HM Hm Ha HS HF. revert accounts Hf. induction HF as [|[index member] members [b Hb] _ IH]; intros accounts Hf; cbn [check_results]; [apply calm_Ok|].
  destruct (AccountJournal_query_result _ _ _ _) as [j q] eqn:EQ. destruct q as [stored|err]; [|by apply calm_Err].
  cbn [map_err mbind result_bind]. cbn [snd] in Hb.
  destruct (query_settled _ _ _ _ _ _ _ _ _ _ _ Hf HM Hm Ha HS Hb EQ) as [Hbal He]. rewrite Hbal, He, Hb, !bool_decide_eq_true_2 by done.
  cbn [negb orb]. apply IH. by rewrite (query_keeps_file _ _ _ _ _ _ EQ).
Qed.

Lemma private_before_spec members :
  map_Forall (fun _ b => b = one_lot) (private_before members) /\ size (private_before members) <= length members /\
  Forall (fun member => is_Some (private_before members !! rm_participant member)) members.
Proof.
  unfold private_before.
  assert (forall table : Balances, map_Forall (fun _ b => b = one_lot) table ->
    let t := fold_left (fun table member => <[rm_participant member := one_lot]> table) members table in
    map_Forall (fun _ b => b = one_lot) t /\ size t <= size table + length members /\ (forall k, is_Some (table !! k) -> is_Some (t !! k)) /\
    Forall (fun member => is_Some (t !! rm_participant member)) members) as HG.
  { induction members as [|x members IH]; intros table HT; cbn [fold_left length]; [split_and!; [done | lia | done | constructor]|].
    destruct (IH (<[rm_participant x := one_lot]> table)) as (T1 & T2 & T3 & T4); [by apply map_Forall_insert_2|].
    split_and!; [done | | |].
    - rewrite map_size_insert in T2. destruct (table !! rm_participant x); cbn in T2; lia.
    - intros k Hk. apply T3. apply lookup_insert_is_Some'. by right.
    - constructor; [apply T3; rewrite lookup_insert_eq; eauto | done]. }
  destruct (HG ∅ ltac:(apply map_Forall_empty)) as (T1 & T2 & _ & T4). rewrite map_size_empty in T2. done.
Qed.

(** The netted batch keeps every participant it started from. *)
Lemma netted_members members orders r :
  (Z.of_nat (length members) < 2 ^ 31)%Z -> length orders = length members ->
  net_batch {| bc_base_lot_atoms := 1; bc_quote_atoms_per_lot := 100 |} (private_before members) orders = Ok r ->
  map_Forall (fun _ b => balance_ok b /\ nonempty_balance b) (balances r) /\
  Forall (fun member => is_Some (balances r !! rm_participant member)) members.
Proof.
  intros Hl Ho HN. destruct (private_before_spec members) as (HB & Hs & HI).
  assert (batch_wf {| bc_base_lot_atoms := 1; bc_quote_atoms_per_lot := 100 |} (private_before members) orders) as HW.
  { unfold batch_wf, u64_ok. cbn [bc_base_lot_atoms bc_quote_atoms_per_lot]. split_and!; try lia. intros k b Hk. rewrite (HB k b Hk).
    unfold balance_ok, u64_ok. cbn. lia. }
  split.
  - apply (net_batch_nonempty _ _ _ _ HW); [cbn; lia | cbn; lia | | done]. intros k b Hk. rewrite (HB k b Hk). unfold nonempty_balance. cbn. lia.
  - apply (net_batch_Ok _ _ _ _ HW) in HN as (_ & _ & _ & ->). revert HI. apply Forall_impl. intros member [b Hb].
    cbn [balances batch_of]. unfold settle_balances. rewrite map_lookup_imap, Hb. cbn. eauto.
Qed.

Lemma calm_persist_results finalize query e members accounts reservations :
  (Z.of_nat (length members) < 2 ^ 31)%Z -> calm (persist_results finalize query e members accounts reservations).
Proof.
  intros Hl. unfold persist_results. apply calm_bind; [auto with calm|]. intros orders HO%map_err_Ok%try_map_Ok.
  apply calm_bind; [auto with calm|]. intros config HC%map_err_Ok. apply calm_bind; [auto with calm|]. intros r HN%map_err_Ok.
  unfold BatchConfig_new in HC. apply guard_Ok in HC as [_ HC]. apply Ok_inj in HC as <-.
  apply netted_members in HN as [HB HI]; [|done | by rewrite (Forall2_length HO)].
  destruct (finalize_settlement _ _ _ _ _ _) as [[accounts' reservations'] [[]|err]] eqn:EF; [|by apply calm_Err]. cbn [map_err mbind result_bind].
  apply (finalize_settlement_stored _ _ _ _ _ _ _ _ HB) in EF as (m & a & Hf & HM & Hm & Ha & HS).
  apply (calm_check_results _ _ _ _ _ _ _ Hf HM Hm Ha HS). apply list.Forall_forall. intros [i member] Hin. cbn [snd].
  rewrite list.Forall_forall in HI. apply HI. by eapply elem_of_zip_r.
Qed.
End results.

(** ** The members *)

Section members.
Context `{Sha256} `{Solana} `{Dalek} `{Threshold} `{Sysvars} `{!KeyperCodec} `{!SecretSets} `{!LocalCodec} `{!SetupCodec} `{ObserverCodec}.
Context `{!DalekLaws} `{!ThresholdLaws}.

Definition booked (journal : ReservationJournal) (nonce : bytes32) : Prop := exists m, represents (rj_file journal) m /\ is_Some (m !! nonce).

(** A member's turn takes a free participant and a free nonce. *)
Definition seats (journal journal' : ReservationJournal) (participant nonce : bytes32) : Prop :=
  admits journal journal' participant /\ ~ booked journal nonce /\ booked journal' nonce /\ forall n, booked journal n -> booked journal' n.

Lemma reserve_step_seats io journal nonce epoch participant journal' reserved :
  reserve_step io journal nonce epoch participant = Ok (journal', reserved) -> seats journal journal' participant nonce.
Proof.
  intros E. split; [by eapply reserve_step_admits|]. apply reserve_step_inv in E as (_ & m & HR & Hn & _ & HR'). split_and!.
  - intros (m0 & HR0 & [r Hr]). rewrite (represents_fun _ _ _ HR0 HR), Hn in Hr. done.
  - eexists. split; [exact HR'|]. rewrite lookup_insert_eq. eauto.
  - intros n (m0 & HR0 & Hr). rewrite (represents_fun _ _ _ HR0 HR) in Hr. eexists. split; [exact HR'|]. apply lookup_insert_is_Some'. by right.
Qed.

(** What a turn of the demonstration's loop leaves. *)
Record enrolled (d : MemberDraws) (m : LocalMarket) (keys : EpochPublicKeys) (epoch_id : bytes32) (slot : Z) (member : RunMember) : Prop := {
  en_intent : exists encrypted, IntentBodyV1_wf (si_body (rm_intent member)) /\
    EpochPublicKeys_encrypt keys (mw_encryption d) (rm_intent member) = Ok encrypted /\ es_ciphertext (rm_submission member) = ei_encoded encrypted;
  en_participant : fa_participant_id (es_authorization (rm_submission member)) = rm_participant member;
  en_nonce : fa_nonce (es_authorization (rm_submission member)) = rm_nonce member;
  en_receipt : mw_receipt d = Some (es_receipt (rm_submission member));
  en_trading : fa_trading_key (es_authorization (rm_submission member)) = verifying_key (rm_trading member);
  en_signature : let s := rm_submission member in let a := es_authorization s in
    es_outer_signature s = dalek_sign (rm_trading member)
      (submission_message (fa_epoch_id a) (FundedAuthorizationV1_hash a) (sha256 (es_ciphertext s)) (es_receipt s));
  en_seed : exists seed, mw_trading d = Some seed /\ rm_trading member = signing_key_from_bytes seed;
  en_admissible : admissible {| ap_epoch_id := epoch_id; ap_operator_key := verifying_key (lm_attestation m); ap_minimum := 4; ap_base_atoms := 1;
                                ap_quote_atoms := 100; ap_current_slot := slot |} (rm_submission member);
}.

Lemma signed_authorization_verifies reserved trading operator expiry policy :
  ap_operator_key policy = verifying_key operator -> ap_epoch_id policy = ua_epoch_id reserved -> ap_base_atoms policy = ua_base_atoms reserved ->
  ap_quote_atoms policy = ua_quote_atoms reserved -> (ap_current_slot policy <= expiry)%Z ->
  FundedAuthorizationV1_verify (FundedAuthorizationV1_sign reserved trading operator expiry) policy = Ok tt.
Proof.
  intros Ho He Hb Hq Hx. apply authorization_verify_Ok. cbn -[authorization_bytes]. rewrite Ho, He, Hb, Hq.
  split_and!; try done; [apply verifying_key_decodes | apply sign_verifies].
Qed.

Lemma enrol_member_Ok io d m keys registry epoch_id slot side accounts journal accounts' journal' member :
  enrol_member io d m keys registry epoch_id slot side accounts journal = Ok (accounts', journal', member) ->
  enrolled d m keys epoch_id slot member /\ seats journal journal' (rm_participant member) (rm_nonce member).
Proof.
  unfold enrol_member. intros E. apply bind_Ok in E as (seed & Hseed%ok_or_Ok & E). cbv zeta in E. apply bind_Ok in E as (p & _ & E).
  apply bind_Ok in E as (n & _ & E). destruct (AccountJournal_register _ _ _ _ _) as [acc registered]. apply bind_Ok in E as (? & _ & E).
  apply bind_Ok in E as ([j reserved] & HR%map_err_Ok & E). pose proof (reserve_step_seats _ _ _ _ _ _ _ HR) as HS. apply reserve_step_inv in HR as [-> _].
  apply bind_Ok in E as (expiry & Hx%map_err_Ok & E). apply bind_Ok in E as (auth & Hauth%map_err_Ok & E).
  apply bind_Ok in E as (order & Hord%map_err_Ok & E). apply bind_Ok in E as (i & _ & E). apply bind_Ok in E as (receipt & Hrec%ok_or_Ok & E).
  apply bind_Ok in E as (prep & Hprep%map_err_Ok & E). apply Ok_inj in E. injection E as _ <- <-. split; [|done].
  unfold SuspensionRegistry_issue_authorization in Hauth. apply bind_Ok in Hauth as (? & _ & Hauth). apply bind_Ok in Hauth as (? & _ & Hauth).
  apply guard_Ok in Hauth as [_ Hauth]. apply Ok_inj in Hauth. apply prepare_order_new in Hord as (_ & _ & _ & ->).
  assert (slot <= expiry)%Z as Hle by (unfold add_u64 in Hx; apply ok_or_Ok in Hx; unfold checked_add_u64 in Hx; apply checked_u64_Some in Hx as [-> _]; lia).
  pose proof (fun policy => prepared_admissible _ _ _ _ _ _ policy Hprep) as HA. cbn [po_authorization] in HA.
  apply prepare_order_Ok in Hprep as (_ & Hk & _ & encrypted & Henc & Hprep). cbn [po_side po_limit_price po_epoch_id po_participant_id po_authorization po_public_keys] in *.
  split; cbn [rm_intent rm_submission rm_participant rm_nonce rm_trading].
  - exists encrypted. rewrite Hprep. cbn [pd_signed_intent pd_submission es_ciphertext]. split_and!; [|done | done].
    unfold IntentBodyV1_wf, SignedIntentV1_sign, u64_ok. cbn. lia.
  - rewrite Hprep, <- Hauth. done.
  - rewrite Hprep, <- Hauth. done.
  - by rewrite Hprep.
  - rewrite Hprep. exact Hk.
  - by rewrite Hprep.
  - by exists seed.
  - apply HA. rewrite <- Hauth. by apply signed_authorization_verifies.
Qed.

Lemma enrol_members_Ok w m keys registry epoch_id slot sides accounts journal accounts' journal' members :
  enrol_members w m keys registry epoch_id slot sides accounts journal = Ok (accounts', journal', members) ->
  Forall2 (fun entry member => enrolled (lw_members (rw_main w) (fst entry)) m keys epoch_id slot member) sides members /\
  NoDup (map rm_participant members) /\ NoDup (map rm_nonce members) /\
  Forall (fun member => ~ occupied journal (rm_participant member) /\ ~ booked journal (rm_nonce member)) members.
Proof.
  revert accounts journal members. induction sides as [|[index side] sides IH]; intros accounts journal members E; cbn [enrol_members] in E.
  - apply Ok_inj in E. injection E as _ _ <-. split_and!; constructor.
  - apply bind_Ok in E as ([[acc j] member] & Hm & E). apply bind_Ok in E as ([[acc1 j1] rest] & Hr & E). apply Ok_inj in E. injection E as -> -> <-.
    apply enrol_member_Ok in Hm as [Hi ((Hf & Ho & Hk) & Hnf & Hno & Hnk)]. destruct (IH _ _ _ Hr) as (HF & HN & HN' & HO). rewrite list.Forall_forall in HO.
    cbn [map]. rewrite !list.NoDup_cons. split_and!; [by constructor | | done | | done |].
    + intros (x & Ex & Hx)%list_elem_of_fmap. apply (proj1 (HO x Hx)). by rewrite <- Ex.
    + intros (x & Ex & Hx)%list_elem_of_fmap. apply (proj2 (HO x Hx)). by rewrite <- Ex.
    + constructor; [done|]. apply list.Forall_forall. intros x Hx. destruct (HO x Hx) as [Hx1 Hx2].
      split; intros Hc; [by apply Hx1, Hk | by apply Hx2, Hnk].
Qed.

(** ** The refused crowd *)

(** The altered signature of a member still verifies under the member's key. *)
Definition flip_accepted (d : MemberDraws) : Prop :=
  exists seed message, mw_trading d = Some seed /\
    dalek_verify (verifying_key (signing_key_from_bytes seed)) message (flip_first (dalek_sign (signing_key_from_bytes seed) message)) = true.

Lemma admit_new policy valid nonces receipts s :
  admissible policy s -> valid !! fa_participant_id (es_authorization s) = None -> fa_nonce (es_authorization s) ∉ nonces -> es_receipt s ∉ receipts ->
  admit_step policy (valid, nonces, receipts) s =
  (<[fa_participant_id (es_authorization s) := s]> valid, {[fa_nonce (es_authorization s)]} ∪ nonces, {[es_receipt s]} ∪ receipts).
Proof.
  intros HA Hp Hn Hr. rewrite admit_step_eq, (proj2 (verify_admission_Ok s policy tt) HA). cbn [is_ok negb].
  by rewrite Hp, !bool_decide_eq_false_2 by (done || by intros [? ?]).
Qed.

Lemma admit_known policy valid nonces receipts s :
  is_Some (valid !! fa_participant_id (es_authorization s)) -> admit_step policy (valid, nonces, receipts) s = (valid, nonces, receipts).
Proof. intros Hp. rewrite admit_step_eq, (bool_decide_eq_true_2 (is_Some _)) by done. by destruct (negb _). Qed.

Lemma admit_refused policy valid nonces receipts s :
  ~ admissible policy s -> admit_step policy (valid, nonces, receipts) s = (valid, nonces, receipts).
Proof.
  intros Hs. rewrite admit_step_eq. destruct (EncryptedSubmissionV1_verify_admission s policy) as [u|] eqn:E; [|done].
  by apply verify_admission_Ok in E.
Qed.

Lemma NoDup_three {A} (x y z : A) : NoDup [x; y; z] -> x <> y /\ x <> z /\ y <> z.
Proof. rewrite !list.NoDup_cons, !elem_of_cons. naive_solver. Qed.

Lemma NoDup_first_three {A} (x y z t : A) : NoDup [x; y; z; t] -> NoDup [x; y; z].
Proof. change [x; y; z; t] with ([x; y; z] ++ [t])%list. by intros [? _]%list.NoDup_app. Qed.

Lemma not_in_two (x y z : bytes32) : x <> y -> x <> z -> x ∉ ({[y]} ∪ ({[z]} ∪ ∅) : gset bytes32).
Proof. set_solver. Qed.

Lemma not_in_one (x y : bytes32) : x <> y -> x ∉ ({[y]} ∪ ∅ : gset bytes32).
Proof. set_solver. Qed.

Lemma admit_three policy a b c d :
  ap_minimum policy = 4 -> Forall (admissible policy) [a; b; c] -> ~ admissible policy d ->
  NoDup (map (fun s => fa_participant_id (es_authorization s)) [a; b; c]) -> NoDup (map (fun s => fa_nonce (es_authorization s)) [a; b; c]) ->
  NoDup (map es_receipt [a; b; c]) ->
  admit_batch [a; b; c; a; d] policy = Err (CryptoError.InsufficientCrowd 3 4).
Proof.
  intros Hm HA Hd (P1 & P2 & P3)%NoDup_three (N1 & N2 & N3)%NoDup_three (R1 & R2 & R3)%NoDup_three. apply Forall_cons_iff in HA as [Ha HA].
  apply Forall_cons_iff in HA as [Hb HA]. apply Forall_cons_iff in HA as [Hc _]. unfold admit_batch. cbn [fold_left].
  rewrite (admit_new policy ∅ ∅ ∅ a) by (apply not_elem_of_empty || done).
  rewrite (admit_new policy _ _ _ b); [|done | by rewrite lookup_insert_ne, lookup_empty | by apply not_in_one | by apply not_in_one].
  rewrite (admit_new policy _ _ _ c); [|done | by rewrite !lookup_insert_ne, lookup_empty | by apply not_in_two | by apply not_in_two].
  rewrite (admit_known policy _ _ _ a) by (rewrite lookup_insert_ne, lookup_insert_ne, lookup_insert_eq by done; eauto).
  rewrite (admit_refused policy _ _ _ d) by done.
  rewrite !map_size_insert, !lookup_insert_ne, !lookup_empty, map_size_empty by done. by rewrite Hm.
Qed.

Lemma calm_check_admission (D : nat -> MemberDraws) m keys epoch_id slot a b c d :
  Forall2 (fun i member => enrolled (D i) m keys epoch_id slot member) [0; 1; 2; 3] [a; b; c; d] ->
  NoDup (map rm_participant [a; b; c; d]) -> NoDup (map rm_nonce [a; b; c; d]) -> NoDup (map (fun i => mw_receipt (D i)) [0; 1; 2]) ->
  calm_unless (fun e => e = CrowdRaised /\ flip_accepted (D 3)) (check_admission m epoch_id slot (map rm_submission [a; b; c; d])).
Proof.
  intros HF HP HN HR. apply Forall2_cons_1 in HF as [Ea HF]. apply Forall2_cons_1 in HF as [Eb HF]. apply Forall2_cons_1 in HF as [Ec HF].
  apply Forall2_cons_1 in HF as [Ed _]. unfold check_admission.
  set (policy := {| ap_epoch_id := epoch_id; ap_operator_key := verifying_key (lm_attestation m); ap_minimum := 4; ap_base_atoms := 1;
                    ap_quote_atoms := 100; ap_current_slot := slot |}).
  change (AdmissionPolicyV1_new epoch_id (verifying_key (lm_attestation m)) 4 1 100 slot) with (Ok (E := CryptoError) policy).
  cbn [map_err mbind result_bind map].
  destruct (EncryptedSubmissionV1_verify_admission (tamper (rm_submission d)) policy) as [u|err] eqn:EV.
  - intros e He _. split; [by destruct (admit_batch _ _) as [?|[]]; repeat case_match; simplify_eq|]. apply verify_admission_Ok in EV as (_ & _ & _ & _ & _ & _ & _ & _ & _ & _ & _ & HV).
    destruct (en_seed _ _ _ _ _ _ Ed) as (seed & Hseed & Htr). cbn [tamper es_authorization es_outer_signature es_ciphertext es_receipt] in HV.
    rewrite (en_trading _ _ _ _ _ _ Ed), (en_signature _ _ _ _ _ _ Ed), Htr in HV. eexists seed, _. split; [done | exact HV].
  - apply calm_unless_calm. rewrite admit_three; [apply calm_Ok | done | | | | |].
    + repeat apply Forall_cons; [apply (en_admissible _ _ _ _ _ _ Ea) | apply (en_admissible _ _ _ _ _ _ Eb) | apply (en_admissible _ _ _ _ _ _ Ec) | constructor].
    + intros HA%(verify_admission_Ok _ _ tt). by rewrite EV in HA.
    + cbn [map] in HP |- *. rewrite (en_participant _ _ _ _ _ _ Ea), (en_participant _ _ _ _ _ _ Eb), (en_participant _ _ _ _ _ _ Ec).
      by apply NoDup_first_three in HP.
    + cbn [map] in HN |- *. rewrite (en_nonce _ _ _ _ _ _ Ea), (en_nonce _ _ _ _ _ _ Eb), (en_nonce _ _ _ _ _ _ Ec).
      by apply NoDup_first_three in HN.
    + cbn [map] in HR. rewrite (en_receipt _ _ _ _ _ _ Ea), (en_receipt _ _ _ _ _ _ Eb), (en_receipt _ _ _ _ _ _ Ec) in HR.
      by apply (NoDup_fmap_1 Some [es_receipt (rm_submission a); es_receipt (rm_submission b); es_receipt (rm_submission c)]).
Qed.

(** ** Recovery *)

Lemma recover_by_all_agrees w dealer epoch package i d m epoch_id slot member :
  keys_threshold (ek_keys (EpochDealer_public_keys dealer)) = 1 -> pk_submissions package !! i = Some (rm_submission member) ->
  enrolled d m (EpochDealer_public_keys dealer) epoch_id slot member ->
  calm (recover_by_all w dealer epoch package (i, rm_intent member)) /\
  forall x, recover_by_all w dealer epoch package (i, rm_intent member) = Ok x -> fst x = rm_intent member.
Proof.
  intros Ht Hs HE. destruct (en_intent _ _ _ _ _ _ HE) as (encrypted & HW & Henc & Hc). unfold EpochPublicKeys_encrypt in Henc.
  assert (forall shares intent, EpochPublicKeys_recover_submission (EpochDealer_public_keys dealer) (rm_submission member) shares = Ok intent ->
    intent = rm_intent member /\ 2 <= length shares) as HR.
  { intros shares intent E. pose proof (recover_submission_inv _ _ _ _ E) as (_ & _ & _ & _ & Hl & _). split; [|done].
    apply (recovered_plain _ _ _ _ _ _ _ Ht Henc Hc) in E. rewrite signed_intent_decode_encode in E by done. by apply Ok_inj in E. }
  unfold recover_by_all. cbv zeta. rewrite Hs. cbn [ok_or].
  assert (forall share, is_ok (EpochPublicKeys_recover_submission (EpochDealer_public_keys dealer) (rm_submission member) [share]) = false) as H1s.
  { intros share. destruct (EpochPublicKeys_recover_submission _ _ [share]) as [intent|] eqn:E; [|done]. destruct (HR _ _ E) as [_ Hl]. cbn in Hl. lia. }
  split.
  - do 3 calm_step. apply calm_bind; [apply calm_Ok|]. intros s <-%Ok_inj. rewrite H1s, andb_false_r.
    apply calm_bind; [auto with calm|]. intros y1 [-> _]%map_err_Ok%HR. apply calm_bind; [auto with calm|]. intros y2 [-> _]%map_err_Ok%HR.
    apply calm_bind; [auto with calm|]. intros y3 [-> _]%map_err_Ok%HR. cbn [existsb]. rewrite bool_decide_eq_true_2 by done. cbn [negb orb]. calm.
  - intros x E. do 3 apply bind_Ok in E as (? & _ & E). apply bind_Ok in E as (s & <-%Ok_inj & E). apply guard_Ok in E as [_ E].
    apply bind_Ok in E as (y1 & [-> _]%map_err_Ok%HR & E). do 2 apply bind_Ok in E as (? & _ & E). apply guard_Ok in E as [_ E].
    apply bind_Ok in E as (ev & _ & E). by apply Ok_inj in E as <-.
Qed.

(** Over all members: no alarm, and what is recovered are the intents. *)
Lemma recover_all_agrees w dealer epoch package (D : nat -> MemberDraws) m epoch_id slot indices members :
  keys_threshold (ek_keys (EpochDealer_public_keys dealer)) = 1 ->
  Forall2 (fun i member => enrolled (D i) m (EpochDealer_public_keys dealer) epoch_id slot member /\
                           pk_submissions package !! i = Some (rm_submission member)) indices members ->
  calm (try_map (recover_by_all w dealer epoch package) (zip indices (map rm_intent members))) /\
  forall recovered, try_map (recover_by_all w dealer epoch package) (zip indices (map rm_intent members)) = Ok recovered ->
    map fst recovered = map rm_intent members.
Proof.
  intros Ht HF. split.
  - apply calm_try_map_in. induction HF as [|i member indices members [HE Hs] _ IH]; [constructor|]. cbn [map zip zip_with]. constructor; [|done].
    exact (proj1 (recover_by_all_agrees w dealer epoch package i (D i) m epoch_id slot member Ht Hs HE)).
  - intros recovered HT%try_map_Ok. revert recovered HT. induction HF as [|i member indices members [HE Hs] _ IH]; intros recovered HT.
    + by apply Forall2_nil_inv_l in HT as ->.
    + cbn [map zip zip_with] in HT. apply Forall2_cons_inv_l in HT as (x & rest & Hx & HT & ->). cbn [map]. f_equal; [|by apply IH].
      exact (proj2 (recover_by_all_agrees w dealer epoch package i (D i) m epoch_id slot member Ht Hs HE) x Hx).
Qed.
End members.

(** ** The demonstration *)

Section run.
Context `{Sha256} `{Solana} `{Dalek} `{Threshold} `{Sysvars} `{!KeyperCodec} `{!SecretSets} `{!LocalCodec} `{!SetupCodec} `{ObserverCodec}.
Context `{!LocalCodecLaws} `{!SetupCodecLaws}.

Lemma calm_wait_for_validator health turn attempts : calm (wait_for_validator health turn attempts).
Proof.
  revert turn. induction attempts as [|attempts IH]; intros turn; cbn [wait_for_validator]; [calm|].
  destruct (health turn) as [healthy slot]. destruct (_ && _); auto with calm.
Qed.

Lemma calm_fetch replies turn attempts : calm (fetch_confirmed_transaction replies turn attempts).
Proof.
  revert turn. induction attempts as [|attempts IH]; intros turn; cbn [fetch_confirmed_transaction]; [calm|].
  destruct (replies turn); auto with calm.
Qed.
Hint Resolve calm_wait_for_validator calm_fetch : calm.

Lemma calm_start_validator w turns : calm (start_validator w turns).
Proof. unfold start_validator. calm. Qed.

Lemma calm_enrol_member io d m keys registry e slot side accounts journal : calm (enrol_member io d m keys registry e slot side accounts journal).
Proof. unfold enrol_member. calm. Qed.
Hint Resolve calm_enrol_member : calm.

Lemma calm_enrol_members w m keys registry e slot sides accounts journal : calm (enrol_members w m keys registry e slot sides accounts journal).
Proof. revert accounts journal. induction sides as [|[index side] sides IH]; intros accounts journal; cbn [enrol_members]; calm. Qed.

Lemma calm_run_package m epoch c keys submissions balances nonce : calm (run_package m epoch c keys submissions balances nonce).
Proof. unfold run_package. calm. Qed.


Lemma signed_initialize_market m : fully_signed (lm_payer m) [lm_operator m] [initialize_market m] = true.
Proof.
  unfold initialize_market. destruct (lm_backed m) as [[[pool_base pool_quote] venue_base] venue_quote].
  match goal with |- context [initialize_pool_instruction ?accounts ?args] => exact (signed_initialize_pool (lm_payer m) accounts args eq_refl) end.
Qed.

Lemma calm_sign_and_lock w m dealer epoch package : calm (sign_and_lock w m dealer epoch package).
Proof. unfold sign_and_lock. calm. Qed.

Lemma calm_settle_run w m dealer epoch package evidence : calm (settle_run w m dealer epoch package evidence).
Proof. unfold settle_run. calm. Qed.

Hint Resolve calm_start_validator calm_enrol_members calm_run_package calm_sign_and_lock calm_settle_run : calm.

Lemma run_package_Ok m epoch c keys submissions balances nonce package :
  run_package m epoch c keys submissions balances nonce = Ok package ->
  pk_configuration package = c /\ pk_epoch_public_keys package = keys /\ pk_submissions package = submissions /\ pk_balances package = balances /\
  is_Some nonce.
Proof.
  unfold run_package. intros E. apply bind_Ok in E as (snapshot & _ & E). apply bind_Ok in E as (n & Hn%ok_or_Ok & E). apply map_err_Ok in E.
  unfold LockPackageV1_new in E. apply guard_Ok in E as [_ E]. do 3 apply bind_Ok in E as (? & _ & E). by apply Ok_inj in E as <-.
Qed.

(** A keyper of this program does not serve a package with fewer members than its minimum. *)
Lemma short_crowd_refused io disk keyper package confirmed lock secret member :
  (Z.of_nat (length (pk_submissions package)) < cfg_minimum_count (pk_configuration package))%Z ->
  is_ok (snd (ReferenceKeyper_sign_lock io disk keyper package confirmed secret)) = false /\
  is_ok (ReferenceKeyper_release_share keyper package lock secret member) = false.
Proof.
  intros Hl. assert (forall c digest, LockPackageV1_validate package c <> Ok digest) as HV.
  { intros c digest E. unfold LockPackageV1_validate in E. do 5 apply guard_Ok in E as [? E]. bguard. lia. }
  split.
  - unfold ReferenceKeyper_sign_lock. destruct (ok_or _ _) as [configured|?]; [|done]. cbv zeta. destruct (_ || _); [done|].
    destruct (LockPackageV1_validate package confirmed) as [digest|?] eqn:E; [by apply HV in E | done].
  - destruct (ReferenceKeyper_release_share keyper package lock secret member) as [share|?] eqn:E; [|done]. exfalso.
    unfold ReferenceKeyper_release_share in E. apply bind_Ok in E as (digest & E & _). unfold LockPackageV1_validate_locked in E.
    apply bind_Ok in E as (pool & _ & E). cbv zeta in E. apply guard_Ok in E as [_ E]. apply bind_Ok in E as (policy & _ & E).
    apply bind_Ok in E as (digest' & E & _). by apply HV in E.
Qed.

(** The first keyper's process did something else than fail on a package of three members that needs four. *)
Definition crowd_served (w : RunWorld) (m : LocalMarket) : Prop :=
  exists dealer epoch partial, EpochDealer_random (lw_dealer (rw_main w)) = Ok dealer /\
    length (pk_submissions partial) = 3 /\ cfg_minimum_count (pk_configuration partial) = 4%Z /\
    (run_keyper_sign_lock (rw_partial_sign w) (EpochDealer_share dealer epoch 0) (keyper_key m 0) partial <> Err KeyperProcessError.ChildFailed \/
     run_keyper_release_share (rw_partial_release w) (EpochDealer_share dealer epoch 0) partial 0 <> Err KeyperProcessError.ChildFailed).

Lemma calm_check_partial w m dealer epoch package :
  EpochDealer_random (lw_dealer (rw_main w)) = Ok dealer ->
  length (pk_submissions package) = 4 -> cfg_minimum_count (pk_configuration package) = 4%Z ->
  calm_unless (fun e => e = CrowdNotRefused /\ crowd_served w m) (check_partial w m dealer epoch package).
Proof.
  intros HD Hl Hm. unfold check_partial. apply calm_unless_bind; [auto with calm|]. intros partial (Hc & _ & Hs & _)%map_err_Ok%run_package_Ok. cbv zeta.
  assert (length (pk_submissions partial) = 3 /\ cfg_minimum_count (pk_configuration partial) = 4%Z) as [Hl3 Hm4]
    by (rewrite Hs, Hc, length_take, Hl; done).
  destruct (run_keyper_sign_lock _ _ _ _) as [x|e1] eqn:E1.
  { intros e [= <-] _. split; [done|]. exists dealer, epoch, partial. split_and!; [done..|]. left. rewrite E1. discriminate. }
  destruct (decide (e1 = KeyperProcessError.ChildFailed)) as [->|Hne1].
  2: { intros e He _. assert (e = CrowdNotRefused) as -> by (by destruct e1; simplify_eq). split; [done|]. exists dealer, epoch, partial.
       split_and!; [done..|]. left. rewrite E1. congruence. }
  destruct (run_keyper_release_share _ _ _ _) as [x|e2] eqn:E2.
  { intros e [= <-] _. split; [done|]. exists dealer, epoch, partial. split_and!; [done..|]. right. rewrite E2. discriminate. }
  destruct (decide (e2 = KeyperProcessError.ChildFailed)) as [->|Hne2]; [by apply calm_unless_calm, calm_Ok|].
  intros e He _. assert (e = CrowdNotRefused) as -> by (by destruct e2; simplify_eq). split; [done|]. exists dealer, epoch, partial.
  split_and!; [done..|]. right. rewrite E2. congruence.
Qed.

(** After the settlement the node shows another lot than the pool's. *)
Definition lot_differs (w : RunWorld) : Prop :=
  exists state account pool, read_epoch_state (lw_epoch_after (rw_main w)) = Ok state /\ rw_pool_after w = Some account /\
    PoolStateV1_decode (ra_data account) = Ok pool /\ ep_base_lot_atoms state <> pl_base_lot_atoms pool.

(** After the settlement the node shows the epoch in another phase, or other amounts than two lots bought leave. *)
Definition settlement_differs (w : RunWorld) (m : LocalMarket) : Prop :=
  exists state tokens, read_epoch_state (lw_epoch_after (rw_main w)) = Ok state /\ token_amounts (lw_tokens_after (rw_main w)) m = Ok tokens /\
    (terminal_state state <> Settled \/ tokens <> [6; 200; 8; 200]%Z).

(** What each alarm of a demonstration in this market comes from. *)
Definition run_cause (w : RunWorld) (m : LocalMarket) (error : RunError) : Prop :=
  match error with
  | CrowdRaised => flip_accepted (lw_members (rw_main w) 3)
  | CrowdNotRefused => crowd_served w m
  | BaseLotDiffers => lot_differs w
  | UnexpectedSettlement => settlement_differs w m
  | Step BalancedVenueLeg => second_payload (rw_balanced w) m
  | Step BalancedMoved => node_moved (rw_balanced w) m Settled \/ residual_shown (rw_balanced w)
  | Step ExpiryMoved => node_moved (rw_underfilled w) m Expired
  | Step AbortMoved => node_moved (rw_invalid w) m Aborted
  | _ => False
  end.

Lemma calm_check_run_settled w m : calm_unless (run_cause w m) (check_run_settled w m).
Proof.
  unfold check_run_settled. apply calm_unless_bind; [auto with calm|]. intros state Hs%map_err_Ok.
  apply calm_unless_bind; [auto with calm|]. intros account Ha%ok_or_Ok. apply calm_unless_bind; [auto with calm|]. intros pool Hp%map_err_Ok.
  apply calm_unless_guard; intros EG; [intros _; cbn [run_cause]; exists state, account, pool; bguard; done|].
  apply calm_unless_bind; [auto with calm|]. intros tokens Ht%map_err_Ok. apply calm_unless_guard; [|auto with calm]. intros E _. cbn [run_cause].
  exists state, tokens. split_and!; [done | done|]. apply orb_true_iff in E as [E|E]; [left | right]; by bguard.
Qed.

Lemma calm_run_batch `{!DalekLaws} `{!ThresholdLaws} `{!SecretSetsLaws} w m dealer :
  EpochDealer_random (lw_dealer (rw_main w)) = Ok dealer ->
  NoDup (map (fun i => mw_receipt (lw_members (rw_main w) i)) [0; 1; 2]) ->
  calm_unless (run_cause w m) (run_batch w m dealer).
Proof.
  intros HD HR. pose proof (dealt_threshold _ _ HD) as [_ Ht]. unfold run_batch. cbv zeta. calm_step. apply calm_unless_bind; [auto with calm|]. intros epoch_id _.
  do 2 calm_step. apply calm_unless_bind; [auto with calm|]. intros epoch _. do 4 calm_step. apply calm_unless_bind; [auto with calm|].
  intros slot _. apply calm_unless_bind; [auto with calm|]. intros [[accounts reservations] members] HM.
  apply enrol_members_Ok in HM as (HF & HP & HN & _).
  apply (Forall2_fmap_l fst (fun i member => enrolled (lw_members (rw_main w) i) _ _ _ _ member)) in HF. change (fst <$> _) with [0; 1; 2; 3] in HF.
  pose proof HF as HF'. apply four_members in HF' as (ma & mb & mc & md & -> & Ea & Eb & Ec & Ed).
  calm_step. apply calm_unless_bind; [auto with calm|]. intros package (Hcfg & _ & HS & _)%run_package_Ok. calm_step.
  apply calm_unless_bind.
  { rewrite HS. eapply calm_unless_weaken; [|by apply (calm_check_admission (lw_members (rw_main w)) m _ _ _ ma mb mc md HF)]. by intros e [-> ?]. }
  intros ? _. apply calm_unless_bind.
  { eapply calm_unless_weaken; [|apply calm_check_partial; [done | by rewrite HS | by rewrite Hcfg]]. by intros e [-> ?]. }
  intros ? _. calm_step.
  destruct (recover_all_agrees (rw_main w) dealer epoch package (lw_members (rw_main w)) m epoch_id slot [0; 1; 2; 3] [ma; mb; mc; md] Ht) as [HC HE];
    [rewrite HS; do 4 (constructor; [by split|]); constructor|].
  apply calm_unless_bind; [by apply calm_unless_calm|]. intros recovered Hrec. rewrite (HE recovered Hrec), bool_decide_eq_true_2 by done.
  cbn [negb]. calm_step. apply calm_unless_bind; [apply calm_check_run_settled|]. intros lots _.
  apply calm_unless_calm, calm_bind; [by apply calm_persist_results|]. intros ? _. apply calm_Ok.
Qed.

Lemma calm_observe w payer t m epoch lots direct : length direct = 4 -> calm (observe w payer t m epoch lots direct).
Proof.
  intros Hl. unfold observe. cbv zeta. apply calm_bind; [auto with calm|]. intros confirmed HC%try_map_Ok. do 2 calm_step.
  apply calm_bind; [auto with calm|]. intros direct_trace HD%map_err_Ok. apply calm_bind; [auto with calm|]. intros pooled_trace HP%map_err_Ok.
  apply direct_counts in HD as [-> ->]. apply pooled_counts in HP as (-> & -> & ->). rewrite <- (Forall2_length HC), Hl.
  rewrite !bool_decide_eq_true_2 by done. apply calm_Ok.
Qed.

Lemma trade_all_length w payer t l n k signatures : trade_all w payer t l n = Ok (k, signatures) -> length signatures = length l.
Proof.
  revert n k signatures. induction l as [|[wallet side] l IH]; intros n k signatures; cbn [trade_all].
  - by intros [= _ <-].
  - unfold mbind at 1, numbered_bind at 1. intros E. apply bind_Ok in E as ([n1 s] & _ & E). unfold mbind at 1, numbered_bind at 1 in E.
    apply bind_Ok in E as ([n2 ss] & HT & E). injection E as _ <-. cbn [length]. f_equal. by eapply IH.
Qed.

(** The market a run has set up. *)
Definition market_of (w : RunWorld) (polls : nat) (m : LocalMarket) : Prop :=
  exists payer seed a b c calls t, start_validator w polls = Ok payer /\ rw_operator w = Some seed /\ rw_attesters w = (Some a, Some b, Some c) /\
    create_tokens (rw_setup w) payer (verifying_key (signing_key_from_bytes seed)) (rw_venue_authority w) 0 = Ok (calls, t) /\
    m = run_market payer (signing_key_from_bytes seed) (rw_venue_authority w)
          (signing_key_from_bytes a, signing_key_from_bytes b, signing_key_from_bytes c) t.

Lemma calm_local_proof `{!DalekLaws} `{!ThresholdLaws} `{!SecretSetsLaws} w polls :
  NoDup (map (fun i => mw_receipt (lw_members (rw_main w) i)) [0; 1; 2]) -> registry_readable (rw_invalid w) ->
  calm_unless (fun e => exists m, market_of w polls m /\ run_cause w m e) (local_proof w polls).
Proof.
  intros HR HI. unfold local_proof. cbv zeta. apply calm_unless_bind; [auto with calm|]. intros payer Hpayer.
  apply calm_unless_bind; [auto with calm|]. intros seed Hseed%ok_or_Ok. destruct (rw_attesters w) as [[s1 s2] s3] eqn:Hat.
  apply calm_unless_bind; [auto with calm|]. intros a ->%ok_or_Ok. apply calm_unless_bind; [auto with calm|]. intros b ->%ok_or_Ok.
  apply calm_unless_bind; [auto with calm|]. intros c ->%ok_or_Ok.
  apply calm_unless_bind; [apply calm_unless_calm, quiet_create_tokens|]. intros [calls t] Htokens.
  apply calm_unless_bind; [apply calm_unless_calm, quiet_trade_all|]. intros [calls' direct] Hdirect%trade_all_length.
  apply calm_unless_bind; [auto with calm|]. intros dealer HD%map_err_Ok.
  apply calm_unless_bind; [apply calm_unless_calm, quiet_send, (signed_initialize_market (run_market _ _ _ _ _))|]. intros [? ?] _.
  match goal with |- context [run_batch w ?m dealer] => set (market := m) end.
  apply (calm_unless_weaken (run_cause w market)).
  { intros e Hc. exists market. split; [|done]. by exists payer, seed, a, b, c, calls, t. }
  apply calm_unless_bind; [by apply calm_run_batch|]. intros [epoch lots] _.
  apply calm_unless_bind; [eapply calm_unless_wrap; [done | | apply calm_balanced]; by intros []|]. intros ? _.
  apply calm_unless_bind; [eapply calm_unless_wrap; [done | | apply calm_underfilled]; by intros ? [-> ?]|]. intros ? _.
  apply calm_unless_bind; [eapply calm_unless_wrap; [done | | by apply calm_invalid]; by intros ? [-> ?]|]. intros ? _.
  apply calm_unless_bind; [apply calm_unless_calm, calm_observe; rewrite Hdirect; by destruct (rw_wallets w) as [[[? ?] ?] ?]|].
  intros [direct_trace pooled_trace] _. apply calm_unless_calm, calm_Ok.
Qed.

(** A run that succeeds prints these lines and no others. *)
Definition transcript : text := (
  bstr "WARNING: synthetic assets only; this prototype is not safe for real funds." ++ [x0a]
  ++ bstr "WAIT: crowd 3/4" ++ [x0a] ++ bstr "LOCKED: crowd 4/4" ++ [x0a] ++ bstr "REFUSED: one share" ++ [x0a]
  ++ bstr "QUORUM: all 3 two-share paths agree" ++ [x0a] ++ bstr "SETTLED: one aggregate" ++ [x0a]
  ++ bstr "RESULTS: authenticated balances persisted" ++ [x0a] ++ bstr "BALANCED: zero residual; no venue leg" ++ [x0a]
  ++ bstr "EXPIRED: underfilled; reservations released" ++ [x0a] ++ bstr "ABORTED: invalid reveal; trading key suspended" ++ [x0a]
  ++ bstr "OBSERVER: direct 4 orders; KageB 1 aggregate" ++ [x0a] ++ NON_CLAIM ++ [x0a])%list.

Lemma local_proof_prints w polls out : local_proof w polls = Ok out -> out = transcript.
Proof.
  unfold local_proof. cbv zeta. intros E. do 2 apply bind_Ok in E as (? & _ & E). destruct (rw_attesters w) as [[s1 s2] s3].
  do 3 apply bind_Ok in E as (? & _ & E). apply bind_Ok in E as ([calls t] & _ & E). apply bind_Ok in E as ([calls' direct] & _ & E).
  apply bind_Ok in E as (dealer & _ & E). apply bind_Ok in E as ([? ?] & _ & E). apply bind_Ok in E as ([epoch lots] & _ & E).
  do 3 apply bind_Ok in E as (? & _ & E). apply bind_Ok in E as ([direct_trace pooled_trace] & HO & E). apply Ok_inj in E as <-.
  unfold observe in HO. cbv zeta in HO. do 5 apply bind_Ok in HO as (? & _ & HO). apply guard_Ok in HO as [HG HO].
  apply Ok_inj in HO. injection HO as -> ->. bguard. unfold transcript.
  match goal with T : PublicTrace_individual_order_count direct_trace = 4 |- _ => rewrite T end.
  match goal with T : PublicTrace_aggregate_count pooled_trace = 1 |- _ => rewrite T end. reflexivity.
Qed.
End run.
