(* ===== verification/DevnetProps.v ===== *)
(** * Lemmas about deployment, publication and the command line *)

From S2P Require Import Prelude Bytes Extern ProgramWire ProgramState ProgramInstruction Ed25519 HostExtern BTree Domain Ledger HostCrypto.
From S2P Require Import LockJournal Lock ConfirmedReads Settlement Observer Keyper KeyperProps Client Evidence EvidenceRpc EvidenceFile.
From S2P Require Import EvidenceProps EvidenceQuorum Deploy Devnet CommandLine.

(** ** State passing *)

(** An early return keeps the state. *)
Lemma st_bind_Ok {S E A B} (s : S) (m : result E A) (k : A -> S * result E B) s' b :
  (x ←[s] m; k x) = (s', Ok b) -> exists a, m = Ok a /\ k a = (s', Ok b).
Proof. destruct m as [a|e]; [by exists a | done]. Qed.

Lemma st_guard_Ok {S E A} (c : bool) (s : S) (e : E) (k : S * result E A) s' a :
  (if c then (s, Err e) else k) = (s', Ok a) -> c = false /\ k = (s', Ok a).
Proof. by destruct c. Qed.

(** ** Tools *)

Lemma on_path_executable env name p : executable_on_path env name = Some p -> is_executable env p = true.
Proof. unfold executable_on_path. intros E. apply bind_Some in E as (path & _ & E). by apply find_some in E as [_ E]. Qed.

(** What is run as cargo can be run. *)
Lemma cargo_executable env p : resolve_cargo env = Ok p -> is_executable env p = true.
Proof.
  assert (forall c source, verified_executable env c source = Ok p -> is_executable env p = true) as Hv.
  { unfold verified_executable. intros c source. destruct (is_executable env c) eqn:E; [by intros [= <-] | done]. }
  unfold resolve_cargo. cbv zeta. intros E. destruct (en_cargo env); [exact (Hv _ _ E)|].
  destruct (executable_on_path env (bstr "cargo")) eqn:Ep; [apply Ok_inj in E as <-; by eapply on_path_executable|].
  repeat case_match; solve [done | exact (Hv _ _ E)].
Qed.

(** ** Publication *)

Definition safe_ancestor (metadata : option Metadata) : Prop :=
  exists m, metadata = Some m /\ md_is_symlink m = false /\ md_is_dir m = true /\ Z.land (md_mode m) 18 = 0%Z.

Lemma check_ancestor_Ok metadata u : check_ancestor metadata = Ok u -> safe_ancestor metadata.
Proof.
  unfold check_ancestor. intros E. apply bind_Ok in E as (m & Hm%ok_or_Ok & E). apply guard_Ok in E as [G E].
  apply guard_Ok in E as [G' _]. bguard. by exists m.
Qed.

Lemma publish_Ok io files out bytes files' :
  publish_bytes_noclobber io files out bytes = (files', Ok tt) ->
  files !! out = None /\ files' = <[out := bytes]> files /\ Forall safe_ancestor (pb_ancestors io).
Proof.
  unfold publish_bytes_noclobber. intros E. do 2 apply st_guard_Ok in E as [_ E]. apply st_bind_Ok in E as (u & Ha & E).
  do 2 apply st_guard_Ok in E as [_ E]. apply st_guard_Ok in E as [Hn E]. cbv zeta in E. do 2 apply st_guard_Ok in E as [_ E].
  injection E as <-. apply orb_false_iff in Hn as [Hn _]. split_and!; [by destruct (files !! out)|done|].
  apply try_each_Ok in Ha. revert Ha. apply Forall_impl. intros m. apply check_ancestor_Ok.
Qed.

(** Whatever happens, nothing that was there changes. *)
Lemma publish_keeps io files out bytes : files ⊆ fst (publish_bytes_noclobber io files out bytes).
Proof.
  unfold publish_bytes_noclobber. repeat case_match; cbn [fst]; try done; simplify_eq; by apply insert_subseteq.
Qed.

(** Whatever happens, only the output changes, and only if it was not there. *)
Lemma publish_cases io files out bytes :
  let files' := fst (publish_bytes_noclobber io files out bytes) in
  files' = files \/ files !! out = None /\ files' = <[out := bytes]> files.
Proof. unfold publish_bytes_noclobber. repeat case_match; cbn [fst]; try (by left); right; by split. Qed.

Lemma scan_Ok bytes encodings u e :
  scan_public_evidence_bytes bytes encodings = Ok u -> e ∈ FORBIDDEN ++ encodings -> ~ occurs_in e bytes.
Proof.
  unfold scan_public_evidence_bytes. intros E He. apply guard_Ok in E as [G _]. rewrite <- existsb_app in G.
  apply not_contained, not_true_iff_false. intros Hc. apply not_true_iff_false in G. apply G, existsb_exists.
  exists e. split; [by apply list_elem_of_In | done].
Qed.

Section devnet.
Context `{Sha256} `{Solana} `{Dalek} `{Threshold} `{!EvidenceCodec} `{ObserverCodec} `{ClientCodec} `{!DevnetCodec} `{!DeployCodec}.

Lemma encodings_listed secret material e :
  secret ∈ material -> secret <> [] -> e ∈ encodings_of secret -> e ∈ private_material_encodings material.
Proof.
  intros Hs Hn He. unfold private_material_encodings. apply list_elem_of_In, in_concat. exists (encodings_of secret).
  split; [|by apply list_elem_of_In]. apply in_map, filter_In. split; [by apply list_elem_of_In | by destruct secret].
Qed.

Lemma persist_Ok io verifier files out rpc_url bundle material artifact files' :
  persist_verified_evidence io verifier files out rpc_url bundle material artifact = (files', Ok tt) ->
  exists json output, bundle_print bundle = Some json /\
    fv_run verifier (verifier_arguments artifact rpc_url) (json ++ [x0a]) = Exited output /\
    out_success output = true /\ out_stdout output = verified_report bundle /\
    files !! out = None /\ files' = <[out := json ++ [x0a]]> files /\ Forall safe_ancestor (pb_ancestors io) /\
    forall e, e ∈ FORBIDDEN ++ private_material_encodings material -> ~ occurs_in e (json ++ [x0a]).
Proof.
  unfold persist_verified_evidence. intros E. apply st_bind_Ok in E as (json & Hj%map_err_Ok%ok_or_Ok & E). cbv zeta in E.
  apply st_bind_Ok in E as (u & Hs & E). apply st_bind_Ok in E as (x & _ & E).
  destruct (fv_run _ _ _) as [| | |output] eqn:Hr; try done. apply st_guard_Ok in E as [G E]. apply publish_Ok in E as (? & ? & ?).
  bguard. exists json, output. split_and!; try done. intros e. by apply scan_Ok with (u := u).
Qed.

Lemma persist_evidence_cases io verifier files out rpc_url bundle material artifact :
  let files' := fst (persist_verified_evidence io verifier files out rpc_url bundle material artifact) in
  files' = files \/ exists bytes, files !! out = None /\ files' = <[out := bytes]> files /\
    forall e, e ∈ FORBIDDEN ++ private_material_encodings material -> ~ occurs_in e bytes.
Proof.
  unfold persist_verified_evidence. destruct (map_err _ _) as [json|e]; [|by left]. cbv zeta.
  destruct (scan_public_evidence_bytes _ _) as [u|e] eqn:Hs; [|by left]. destruct (ok_or _ _) as [x|e]; [|by left].
  destruct (fv_run _ _ _) as [| | |output]; [by left..|]. destruct (_ || _); [by left|].
  destruct (publish_cases io files out (json ++ [x0a])) as [->|[Hn ->]]; [by left|]. right. eexists. split_and!; [done | done|].
  intros e. by apply scan_Ok with (u := u).
Qed.

Lemma publish_run_cases io verifier polls rpc artifact_write files out rpc_url run material artifact :
  let files' := fst (publish_run io verifier polls rpc artifact_write files out rpc_url run material artifact) in
  files' = files \/ exists bytes, files !! out = None /\ files' = <[out := bytes]> files /\
    forall e, e ∈ FORBIDDEN ++ private_material_encodings material -> ~ occurs_in e bytes.
Proof.
  unfold publish_run. do 3 (destruct (map_err Finality _); [|by left]). cbv zeta. destruct (map_err SealEvidence _) as [bundle|e]; [|by left].
  destruct (map_err VerifyBeforeWrite _); [|by left]. destruct artifact_write; [by left..|].
  pose proof (persist_evidence_cases io verifier files out rpc_url bundle material artifact) as HC. cbv zeta in HC.
  destruct (persist_verified_evidence _ _ _ _ _ _ _ _) as [files' [u|e]]; exact HC.
Qed.

(** ** The instructions *)

Lemma canonical_counts content :
  let allowlist := canonical_devnet_allowlist content in
  count_kind (bstr "aggregate-settlement") allowlist = 1 /\ count_kind (bstr "keyper-lock-approval") allowlist = 2 /\
  count_kind (bstr "keyper-settlement-approval") allowlist = 2.
Proof. split_and!; vm_compute; reflexivity. Qed.

Lemma row_passes commitments transaction position program kind (digest : option bytes32) :
  let shown := option_map (fun d : bytes32 => hex_digest d) digest in
  expected_digest commitments kind = Ok shown -> check_decoded commitments (decoded_row transaction position program kind shown) = Ok tt.
Proof.
  cbv zeta. intros E. unfold check_decoded. cbn [di_kind di_digest decoded_row]. rewrite E. cbn [mbind result_bind].
  rewrite bool_decide_eq_true_2 by done. cbn [negb]. destruct digest as [d|]; cbn; [by rewrite parse_hex_digest | done].
Qed.

(** The evidence of a run passes the check of its instructions exactly when the chain shows them. *)
Lemma own_allowlist_accepted run funding_slots lock_slot settlement_slot snapshot :
  let content := devnet_content run funding_slots lock_slot settlement_slot in
  validate_allowlist content snapshot 2 = Ok tt <-> sn_decoded_allowlist snapshot = dv_decoded_allowlist content.
Proof.
  cbv zeta. split.
  - intros E. by apply allowlist_sound in E as (? & _).
  - intros E. unfold validate_allowlist. rewrite E. cbv zeta.
    pose proof (canonical_counts (devnet_content run funding_slots lock_slot settlement_slot)) as (C1 & C2 & C3).
    change (canonical_devnet_allowlist _) with (dv_decoded_allowlist (devnet_content run funding_slots lock_slot settlement_slot)) in C1, C2, C3.
    rewrite C1, C2, C3, !bool_decide_eq_true_2 by done. cbn [negb orb Nat.ltb Nat.leb].
    apply try_each_Ok. repeat (constructor; [by apply (row_passes _ _ _ _ _ None) || by apply (row_passes _ _ _ _ _ (Some _))|]). constructor.
Qed.
End devnet.

(** ** Deployment *)

Section deploy.
Context `{Sha256} `{Solana} `{!EvidenceCodec} `{BuildCodec} `{!DeployCodec}.

(** What an attempt may do, with its outcome: nothing but write the artifact; fail on the way to the
    command and remove the signers; or run the command, refund the buffer unless it succeeded, and
    remove the signers. *)
Inductive attempted (io : DeployIo) (runner : list text -> result unit bool) (refunder : Pubkey -> bool) (artifact_path : text) (artifact : list byte) (buffer : Pubkey)
  : list DeployEvent -> result DemoError unit -> Prop :=
| attempt_not_begun events e :
    events ⊆ [WriteFile artifact_path artifact] -> attempted io runner refunder artifact_path artifact buffer events (Err e)
| attempt_not_run directory signing e :
    dp_tempdir io = Some directory -> Forall (fun v => exists name bytes, v = WriteFile (path_join directory name) bytes) signing ->
    attempted io runner refunder artifact_path artifact buffer
      (WriteFile artifact_path artifact :: CreateDirectory directory :: signing ++ [RemoveDirectory directory]) (Err e)
| attempt_run directory signing arguments :
    dp_tempdir io = Some directory -> Forall (fun v => exists name bytes, v = WriteFile (path_join directory name) bytes) signing ->
    attempted io runner refunder artifact_path artifact buffer
      (WriteFile artifact_path artifact :: CreateDirectory directory :: signing ++ RunCommand arguments
       :: (if runner arguments != Ok true then [RefundBuffer buffer] else []) ++ [RemoveDirectory directory])
      (finish_deploy_attempt (runner arguments)
         ((runner arguments != Ok true) && negb (refunder buffer)) (negb (dp_close io)) buffer).

Lemma write_file_events io path bytes events r :
  write_private_file io path bytes = (events, r) -> events ⊆ [WriteFile path bytes] /\ (r = Ok tt -> events = [WriteFile path bytes]).
Proof. unfold write_private_file. intros E. case_match; simplify_eq; split; done || set_solver. Qed.

Lemma write_keypair_events io directory name keypair events r :
  write_private_keypair io (path_join directory name) keypair = (events, r) ->
  Forall (fun v => exists name bytes, v = WriteFile (path_join directory name) bytes) events.
Proof.
  unfold write_private_keypair. intros E. case_match; simplify_eq; [|constructor]. apply write_file_events in E as [E _].
  apply list.Forall_forall. intros v Hv. apply E in Hv. apply list_elem_of_singleton in Hv. eauto.
Qed.

Lemma write_signers_events io directory payer buffer key action events r :
  write_signers io directory payer buffer key action = (events, r) ->
  Forall (fun v => exists name bytes, v = WriteFile (path_join directory name) bytes) events.
Proof.
  unfold write_signers. intros E. case_match; [simplify_eq; constructor|].
  destruct (write_private_keypair io _ payer) as [e1 r1] eqn:E1. apply write_keypair_events in E1. destruct r1; [|by simplify_eq].
  destruct (write_private_keypair io _ buffer) as [e2 r2] eqn:E2. apply write_keypair_events in E2. cbv zeta in E.
  destruct r2; [|simplify_eq; by apply Forall_app]. case_match; [|simplify_eq; by apply Forall_app].
  destruct key as [k|]; [|simplify_eq; by apply Forall_app].
  destruct (write_private_keypair io _ k) as [e3 r3] eqn:E3. apply write_keypair_events in E3.
  destruct r3; simplify_eq; rewrite !Forall_app; by split_and!.
Qed.

Lemma deploy_attempts io solana rpc_url payer buffer key action directory artifact runner refunder events r :
  deploy_checkpoint_with_runner_and_refunder io solana rpc_url payer buffer key action directory artifact runner refunder = (events, r) ->
  attempted io runner refunder (path_join directory (bstr "checkpoint.so")) artifact (ky_pubkey buffer) events r.
Proof.
  unfold deploy_checkpoint_with_runner_and_refunder. cbv zeta. intros E.
  destruct (write_private_file _ _ _) as [e1 r1] eqn:E1. apply write_file_events in E1 as [S1 O1].
  destruct r1 as [[]|e]; [|simplify_eq; by constructor]. specialize (O1 eq_refl). destruct (dp_tempdir io) as [d|] eqn:Ed; cbn [ok_or] in E; [|simplify_eq; by constructor].
  destruct (write_signers _ _ _ _ _ _) as [e2 r2] eqn:E2. apply write_signers_events in E2. subst e1.
  destruct r2 as [program_id|e]; simplify_eq; cbn [app]; rewrite <- ?app_assoc; cbn [app].
  - by apply attempt_run.
  - by apply attempt_not_run.
Qed.

(** ** What is deployed *)

Lemma starts_with_spec prefix l : starts_with prefix l = true <-> exists rest, l = prefix ++ rest.
Proof.
  unfold starts_with. rewrite bool_decide_eq_true. split.
  - intros E. exists (drop (length prefix) l). rewrite <- E at 1. by rewrite take_drop.
  - intros [rest ->]. apply take_app_length.
Qed.

Lemma forallb_zero l : forallb (fun b => b == x00) l = true <-> l = zeros (length l).
Proof.
  rewrite forallb_forall. unfold zeros. split.
  - intros Hz. symmetry. apply replicate_as_elem_of. split; [done|]. intros b Hb. apply list_elem_of_In, Hz in Hb. by apply bool_decide_eq_true in Hb.
  - intros E b Hb. apply list_elem_of_In in Hb. rewrite E in Hb. apply elem_of_replicate in Hb as [-> _]. by apply bool_decide_eq_true.
Qed.

(** The data of a program account whose executable region is exactly an artifact. *)
Definition holds_artifact (program programdata : PublicAccountSnapshotV1) (k : Pubkey) (authority : option Pubkey) (artifact : list byte) : Prop :=
  pa_owner program = UPGRADEABLE_LOADER_ID /\ pa_executable program = true /\ loader_deserialize (pa_data program) = Some (LoaderProgram k) /\
  pa_owner programdata = UPGRADEABLE_LOADER_ID /\ pa_executable programdata = false /\ starts_with elf_magic artifact = true /\
  exists metadata slot tail, length metadata = programdata_metadata_len /\
    loader_deserialize metadata = Some (LoaderProgramData slot authority) /\ pa_data programdata = metadata ++ artifact ++ zeros tail.

(** Zeros cannot complete the magic number. *)
Lemma elf_inside artifact n : starts_with elf_magic (artifact ++ zeros n) = true -> starts_with elf_magic artifact = true.
Proof.
  unfold zeros. rewrite !starts_with_spec. unfold elf_magic. cbn [bstr app]. intros [rest E].
  destruct artifact as [|a [|b [|c [|d artifact]]]]; cbn [app] in E; try (by destruct n as [|[|[|[|n]]]]).
  change (bstr "ELF") with [x45; x4c; x46] in *. cbn [app] in *. simplify_eq. by exists artifact.
Qed.

Lemma discover_spec program k programdata artifact d :
  discover_deployed_checkpoint program k programdata artifact = Ok d -> dc_artifact_matches d = true ->
  holds_artifact program programdata k (dc_upgrade_authority d) artifact.
Proof.
  unfold discover_deployed_checkpoint. intros E Hm. apply guard_Ok in E as [G1 E]. apply bind_Ok in E as (ps & Hps%ok_or_Ok & E).
  apply bind_Ok in E as (pda & Hpda & E). apply guard_Ok in E as [G2 E]. apply guard_Ok in E as [G3 E]. cbv zeta in E.
  apply bind_Ok in E as (metadata & Hmd%ok_or_Ok & E). apply bind_Ok in E as (pds & Hpds%ok_or_Ok & E).
  apply bind_Ok in E as (authority & Ha & E). apply guard_Ok in E as [G4 E]. apply Ok_inj in E as <-.
  cbn [dc_artifact_matches dc_upgrade_authority] in *. apply andb_true_iff in Hm as [[rest Hr]%starts_with_spec Hz].
  rewrite Hr in Hz, G4. unfold slice_from in Hr, Hz. rewrite drop_app_length in Hz. apply forallb_zero in Hz. rewrite Hz in Hr, G4.
  bguard. destruct ps; try done. apply Ok_inj in Hpda as ->. destruct pds as [|slot ua|]; try done. apply Ok_inj in Ha as ->.
  apply get_range_Some in Hmd as [Hb Hmd]. unfold slice in Hmd. rewrite drop_0, Nat.sub_0_r in Hmd.
  subst pda; apply elf_inside in G4. split_and!; try done. exists metadata, slot, (length rest).
  split_and!; [rewrite Hmd, length_take; lia | done | by rewrite <- Hr, Hmd, take_drop].
Qed.

Lemma extract_spec program k programdata artifact x :
  extract_upgradeable_program program k programdata (Z.of_nat (length artifact)) = Ok x -> ex_executable x = artifact ->
  holds_artifact program programdata k (ex_upgrade_authority x) artifact.
Proof.
  intros E <-. pose proof E as E'. apply extract_sound in E as (? & ? & ? & ? & _ & ? & metadata & tail & ? & ? & ?).
  unfold extract_upgradeable_program in E'. apply guard_Ok in E' as [_ E]. apply bind_Ok in E as (? & _ & E).
  apply bind_Ok in E as (? & _ & E). apply guard_Ok in E as [_ E]. apply guard_Ok in E as [G _]. apply orb_false_iff in G as [_ G].
  split_and!; try done. by exists metadata, (ex_deployment_slot x), tail.
Qed.

Lemma discover_complete program programdata k authority artifact :
  holds_artifact program programdata k authority artifact ->
  discover_deployed_checkpoint program k programdata artifact = Ok {| dc_upgrade_authority := authority; dc_artifact_matches := true |}.
Proof.
  intros (Ho & He & Hp & Hpo & Hpe & [rest Hs]%starts_with_spec & metadata & slot & tail & Hl & Hm & Hd).
  assert (get_range 0 programdata_metadata_len (pa_data programdata) = Some metadata) as Hg.
  { apply get_range_Some. rewrite Hd, length_app. split; [lia|]. unfold slice. by rewrite drop_0, Nat.sub_0_r, <- Hl, take_app_length. }
  assert (slice_from programdata_metadata_len (pa_data programdata) = artifact ++ zeros tail) as Hf.
  { unfold slice_from. rewrite Hd, <- Hl. apply drop_app_length. }
  unfold discover_deployed_checkpoint. rewrite Ho, He, Hp, Hpo, Hpe, Hg. cbn [ok_or mbind result_bind]. rewrite !bool_decide_eq_true_2 by done.
  cbn [negb orb ok_or mbind result_bind]. rewrite Hm. cbn [ok_or mbind result_bind]. rewrite Hf.
  assert (starts_with elf_magic (artifact ++ zeros tail) = true) as -> by (apply starts_with_spec; exists (rest ++ zeros tail); by rewrite Hs, app_assoc).
  cbn [negb]. do 2 f_equal. apply andb_true_iff. split; [apply starts_with_spec; by exists (zeros tail)|].
  unfold slice_from. rewrite drop_app_length. apply forallb_zero. unfold zeros. by rewrite length_replicate.
Qed.

Lemma finish_Ok status buffer_failed signer_failed buffer :
  finish_deploy_attempt status buffer_failed signer_failed buffer = Ok tt -> status = Ok true /\ buffer_failed = false /\ signer_failed = false.
Proof. unfold finish_deploy_attempt. by destruct signer_failed, buffer_failed, status as [[]|]. Qed.

(** A successful attempt ran the command last and left neither a buffer nor a key behind. *)
Definition deployed_clean (io : DeployIo) (runner : list text -> result unit bool) (events : list DeployEvent) : Prop :=
  exists before arguments directory, events = before ++ [RunCommand arguments; RemoveDirectory directory] /\
    runner arguments = Ok true /\ dp_close io = true.

Lemma attempt_Ok io runner refunder path artifact buffer events : attempted io runner refunder path artifact buffer events (Ok tt) -> deployed_clean io runner events.
Proof.
  intros A. inversion A as [| |d signing arguments Hd Hs HE HR]; subst. apply finish_Ok in HR as (Hr & _ & Hc). rewrite Hr in *.
  exists (WriteFile path artifact :: CreateDirectory d :: signing), arguments, d. by apply negb_false_iff in Hc.
Qed.

(** Writes to the signers' directory are all that precedes the command. *)
Definition quiet_event (v : DeployEvent) : Prop := match v with RunCommand _ | RefundBuffer _ => False | _ => True end.

Lemma signing_quiet directory signing :
  Forall (fun v => exists name bytes, v = WriteFile (path_join directory name) bytes) signing -> Forall quiet_event signing.
Proof. apply Forall_impl. by intros v (name & bytes & ->). Qed.

Lemma quiet_not_run events arguments : Forall quiet_event events -> RunCommand arguments ∉ events.
Proof. rewrite list.Forall_forall. intros Q Hin. by apply Q in Hin. Qed.

Lemma quiet_not_refund events b : Forall quiet_event events -> RefundBuffer b ∉ events.
Proof. rewrite list.Forall_forall. intros Q Hin. by apply Q in Hin. Qed.

Lemma signing_no_directory directory signing d :
  Forall (fun v => exists name bytes, v = WriteFile (path_join directory name) bytes) signing -> CreateDirectory d ∉ signing.
Proof. rewrite list.Forall_forall. intros Q Hin. by apply Q in Hin as (? & ? & ?). Qed.

Lemma attempt_removes io runner refunder path artifact buffer events outcome d :
  attempted io runner refunder path artifact buffer events outcome -> CreateDirectory d ∈ events -> list.last events = Some (RemoveDirectory d).
Proof.
  intros [ev e Hs|dir signing e Hd Hw|dir signing arguments Hd Hw] Hin.
  - apply Hs in Hin. set_solver.
  - apply (signing_no_directory _ _ d) in Hw. assert (d = dir) as -> by set_solver. by rewrite !app_comm_cons, last_snoc.
  - apply (signing_no_directory _ _ d) in Hw. assert (d = dir) as -> by (case_match; set_solver).
    rewrite (app_comm_cons _ _ (RunCommand arguments)), (app_assoc signing), !app_comm_cons. by rewrite last_snoc.
Qed.

Lemma attempt_writes io runner refunder path artifact buffer events outcome p bytes :
  attempted io runner refunder path artifact buffer events outcome -> WriteFile p bytes ∈ events ->
  (p = path /\ bytes = artifact) \/ exists d name, CreateDirectory d ∈ events /\ p = path_join d name.
Proof.
  assert (forall dir signing rest,
    Forall (fun v => exists name bytes, v = WriteFile (path_join dir name) bytes) signing -> WriteFile p bytes ∉ rest ->
    WriteFile p bytes ∈ WriteFile path artifact :: CreateDirectory dir :: signing ++ rest ->
    (p = path /\ bytes = artifact) \/
    exists d name, CreateDirectory d ∈ WriteFile path artifact :: CreateDirectory dir :: signing ++ rest /\ p = path_join d name) as Hall.
  { intros dir signing rest Hw Hr Hin. rewrite !elem_of_cons, elem_of_app in Hin. destruct Hin as [[= -> ->]|[?|[Hin|?]]]; [by left|done| |done].
    rewrite list.Forall_forall in Hw. apply Hw in Hin as (name & b & [= -> ->]). right. exists dir, name. split; [set_solver|done]. }
  intros [ev e Hs|dir signing e Hd Hw|dir signing arguments Hd Hw] Hin.
  - apply Hs in Hin. apply list_elem_of_singleton in Hin as [= -> ->]. by left.
  - apply (Hall dir signing); [done|set_solver|done].
  - apply (Hall dir signing); [done|case_match; set_solver|done].
Qed.

Lemma attempt_runs_once io runner refunder path artifact buffer events outcome arguments :
  attempted io runner refunder path artifact buffer events outcome -> RunCommand arguments ∈ events ->
  exists before d, events = before ++ RunCommand arguments
    :: (if runner arguments != Ok true then [RefundBuffer buffer] else []) ++ [RemoveDirectory d] /\ Forall quiet_event before.
Proof.
  intros [ev e Hs|dir signing e Hd Hw|dir signing arguments' Hd Hw] Hin.
  - apply Hs in Hin. set_solver.
  - pose proof (quiet_not_run _ arguments (signing_quiet _ _ Hw)). set_solver.
  - pose proof (quiet_not_run _ arguments (signing_quiet _ _ Hw)). assert (arguments' = arguments) as -> by (case_match; set_solver).
    exists (WriteFile path artifact :: CreateDirectory dir :: signing), dir. split; [done|]. do 2 (constructor; [done|]). by eapply signing_quiet.
Qed.

Lemma attempt_clean_Ok io runner refunder path artifact buffer events outcome :
  attempted io runner refunder path artifact buffer events outcome -> deployed_clean io runner events -> outcome = Ok tt.
Proof.
  intros A (before & arguments & d & -> & Hr & Hc).
  destruct (attempt_runs_once _ _ _ _ _ _ _ _ arguments A) as (? & ? & HE & _); [set_solver|].
  inversion A as [ev e Hs|dir signing e Hd Hw HE' |dir signing arguments' Hd Hw HE']; subst.
  - specialize (Hs (RunCommand arguments)). set_solver.
  - pose proof (quiet_not_run _ arguments (signing_quiet _ _ Hw)). assert (RunCommand arguments ∈ before ++ [RunCommand arguments; RemoveDirectory d]) as Hin by set_solver.
    rewrite <- HE' in Hin. set_solver.
  - pose proof (quiet_not_run _ arguments (signing_quiet _ _ Hw)). assert (RunCommand arguments ∈ before ++ [RunCommand arguments; RemoveDirectory d]) as Hin by set_solver.
    rewrite <- HE' in Hin. assert (arguments' = arguments) as -> by (case_match; set_solver). by rewrite Hr, Hc.
Qed.

Lemma attempt_reports io runner refunder path artifact buffer events outcome b :
  attempted io runner refunder path artifact buffer events outcome -> RefundBuffer b ∈ events -> refunder b = false ->
  outcome = Err (BufferCleanupFailed b) \/ outcome = Err (BufferAndSignerCleanupFailed b).
Proof.
  intros [ev e Hs|dir signing e Hd Hw|dir signing arguments Hd Hw] Hin Hf.
  - apply Hs in Hin. set_solver.
  - pose proof (quiet_not_refund _ b (signing_quiet _ _ Hw)). set_solver.
  - pose proof (quiet_not_refund _ b (signing_quiet _ _ Hw)). destruct (runner arguments != Ok true) eqn:Hr; [|set_solver].
    assert (b = buffer) as -> by set_solver. rewrite Hf. unfold finish_deploy_attempt. cbn [andb negb]. destruct (negb (dp_close io)); auto.
Qed.

(** Only a command that ran and did not succeed is followed by a refund, and of this very buffer. *)
Lemma attempt_refunds io runner refunder path artifact buffer events outcome b :
  attempted io runner refunder path artifact buffer events outcome -> RefundBuffer b ∈ events ->
  b = buffer /\ exists arguments, RunCommand arguments ∈ events /\ runner arguments <> Ok true.
Proof.
  intros [ev e Hs|dir signing e Hd Hw|dir signing arguments Hd Hw] Hin.
  - apply Hs in Hin. set_solver.
  - pose proof (quiet_not_refund _ b (signing_quiet _ _ Hw)). set_solver.
  - pose proof (quiet_not_refund _ b (signing_quiet _ _ Hw)). destruct (runner arguments != Ok true) eqn:Hr; [|set_solver].
    apply negb_true_iff, bool_decide_eq_false in Hr. split; [set_solver|]. exists arguments. split; [set_solver|done].
Qed.

(** Signers that could not be removed after the command are an error. *)
Lemma attempt_leaves_signers io runner refunder path artifact buffer events outcome arguments :
  attempted io runner refunder path artifact buffer events outcome -> RunCommand arguments ∈ events -> dp_close io = false ->
  outcome = Err SignerCleanupFailed \/ outcome = Err (BufferAndSignerCleanupFailed buffer).
Proof.
  intros [ev e Hs|dir signing e Hd Hw|dir signing arguments' Hd Hw] Hin Hc.
  - apply Hs in Hin. set_solver.
  - pose proof (quiet_not_run _ arguments (signing_quiet _ _ Hw)). set_solver.
  - rewrite Hc. unfold finish_deploy_attempt. cbn [negb]. destruct (andb _ _); auto.
Qed.

(** The node shows exactly the artifact under the fixed address. *)
Definition deployed_at (rpc : DeployReplies) (call : nat) (authority : option Pubkey) (artifact : list byte) : Prop :=
  exists program programdata, dr_account rpc call ID = Some (Some program) /\
    dr_account rpc (S call) programdata_address = Some (Some programdata) /\
    holds_artifact program programdata programdata_address authority artifact.

Lemma fetch_accounts_Ok rpc call accounts :
  fetch_deployment_accounts rpc call = Ok accounts ->
  dr_account rpc call ID = Some (fst <$> accounts) /\ dr_account rpc (S call) programdata_address = Some (snd <$> accounts).
Proof.
  unfold fetch_deployment_accounts. intros E. apply bind_Ok in E as (p & Hp%ok_or_Ok & E). apply bind_Ok in E as (d & Hd%ok_or_Ok & E).
  rewrite Hp, Hd. destruct p, d; try done; by apply Ok_inj in E as <-.
Qed.

Lemma discovery_exact rpc call artifact found :
  fetch_deployed_checkpoint_discovery rpc call artifact = Ok found ->
  (exists authority, deployed_at rpc call authority artifact) <-> (exists d, found = Some d /\ dc_artifact_matches d = true).
Proof.
  unfold fetch_deployed_checkpoint_discovery. intros E. apply bind_Ok in E as (accounts & [Ha Hd]%fetch_accounts_Ok & E). split.
  - intros (authority & p & d & Hp & Hpd & HA). rewrite Ha in Hp. rewrite Hd in Hpd. destruct accounts as [[p' d']|]; [|done]. cbn in Hp, Hpd. simplify_eq.
    rewrite (discover_complete _ _ _ _ _ HA) in E. apply Ok_inj in E as <-. eauto.
  - intros (d & -> & Hm). destruct accounts as [[p pd]|]; [|by apply Ok_inj in E].
    destruct (discover_deployed_checkpoint p programdata_address pd artifact) as [d'|] eqn:Ed; [|done]. apply Ok_inj in E. simplify_eq.
    eexists. exists p, pd. split_and!; [done|done|]. by apply discover_spec.
Qed.

(** What the node shows before the run calls for the action. *)
Definition calls_for (rpc : DeployReplies) (payer : Pubkey) (artifact : list byte) (action : DevnetDeploymentAction) : Prop :=
  match action with
  | Noop => exists authority, deployed_at rpc 0 authority artifact
  | Initial => dr_account rpc 0 ID = Some None /\ dr_account rpc 1 programdata_address = Some None
  | Upgrade =>
      (exists program programdata metadata slot, dr_account rpc 0 ID = Some (Some program) /\
         dr_account rpc 1 programdata_address = Some (Some programdata) /\
         loader_deserialize (pa_data program) = Some (LoaderProgram programdata_address) /\
         get_range 0 programdata_metadata_len (pa_data programdata) = Some metadata /\
         loader_deserialize metadata = Some (LoaderProgramData slot (Some payer))) /\
      ~ exists authority, deployed_at rpc 0 authority artifact
  end.

Lemma discover_authority program k programdata artifact d :
  discover_deployed_checkpoint program k programdata artifact = Ok d ->
  exists metadata slot, loader_deserialize (pa_data program) = Some (LoaderProgram k) /\
    get_range 0 programdata_metadata_len (pa_data programdata) = Some metadata /\
    loader_deserialize metadata = Some (LoaderProgramData slot (dc_upgrade_authority d)).
Proof.
  unfold discover_deployed_checkpoint. intros E. apply guard_Ok in E as [_ E]. apply bind_Ok in E as (ps & Hps%ok_or_Ok & E).
  apply bind_Ok in E as (pda & Hpda & E). apply guard_Ok in E as [G2 E]. apply guard_Ok in E as [_ E]. cbv zeta in E.
  apply bind_Ok in E as (metadata & Hmd%ok_or_Ok & E). apply bind_Ok in E as (pds & Hpds%ok_or_Ok & E).
  apply bind_Ok in E as (authority & Ha & E). apply guard_Ok in E as [_ E]. apply Ok_inj in E as <-. apply neqb_false in G2 as ->.
  destruct ps; try done. apply Ok_inj in Hpda as ->. destruct pds as [|slot ua|]; try done. apply Ok_inj in Ha as ->. by exists metadata, slot.
Qed.

Lemma selected_called_for rpc payer artifact key found action :
  fetch_deployed_checkpoint_discovery rpc 0 artifact = Ok found -> select_deployment_action found payer key = Ok action ->
  calls_for rpc payer artifact action.
Proof.
  intros Hf Hs. pose proof (discovery_exact _ _ _ _ Hf) as HD. unfold fetch_deployed_checkpoint_discovery in Hf.
  apply bind_Ok in Hf as (accounts & [Hp Hd]%fetch_accounts_Ok & Hf). unfold select_deployment_action in Hs. destruct found as [d|].
  - destruct (dc_artifact_matches d) eqn:Hm; [apply Ok_inj in Hs as <-; apply HD; by exists d|].
    apply guard_Ok in Hs as [G Hs]. apply Ok_inj in Hs as <-. apply neqb_false in G. split; [|rewrite HD; intros (d' & [= <-] & ?); congruence].
    destruct accounts as [[program programdata]|]; [|done]. destruct (discover_deployed_checkpoint _ _ _ _) as [d'|] eqn:Ed; [|done].
    apply Ok_inj in Hf as [= ->]. apply discover_authority in Ed as (metadata & slot & ? & ? & HL). rewrite G in HL.
    by exists program, programdata, metadata, slot.
  - apply guard_Ok in Hs as [_ Hs]. apply Ok_inj in Hs as <-. destruct accounts as [[p pd]|]; [|done].
    by destruct (discover_deployed_checkpoint _ _ _ _).
Qed.

Lemma extraction_exact rpc call artifact x :
  fetch_deployed_checkpoint rpc call (Z.of_nat (length artifact)) = Ok (Some x) -> ex_executable x = artifact ->
  deployed_at rpc call (ex_upgrade_authority x) artifact.
Proof.
  unfold fetch_deployed_checkpoint. intros E Hx. apply bind_Ok in E as (accounts & [Ha Hd]%fetch_accounts_Ok & E).
  destruct accounts as [[p pd]|]; [|by apply Ok_inj in E].
  destruct (extract_upgradeable_program p programdata_address pd (Z.of_nat (length artifact))) as [x'|] eqn:Ee; [|done]. apply Ok_inj in E as [= ->].
  exists p, pd. split_and!; [done|done|]. by apply extract_spec.
Qed.

(** ** Balances *)

(** What the payer must hold, by what the node asks for an account of each size: two mints, twelve token
    accounts and two records of the program, the fees, and the accounts the deployment itself makes. *)
Definition peak (rent : nat -> Z) (action : DevnetDeploymentAction) (n : nat) : Z :=
  (2 * rent mint_len + 12 * rent token_account_len + 2 * rent STATE_LEN + 20000000 +
   match action with
   | Noop => 0
   | Upgrade => rent (loader_buffer_len n)
   | Initial => rent loader_program_len + rent (loader_programdata_len n) + rent (loader_buffer_len n)
   end)%Z.

(** The node answered for every size the sum is about. *)
Definition rents_shown (rpc : DeployReplies) (rent : nat -> Z) (n : nat) : Prop :=
  Forall (fun size => dr_minimum_balance rpc size = Some (rent size))
    [mint_len; token_account_len; STATE_LEN; loader_program_len; loader_programdata_len n; loader_buffer_len n].

Lemma peak_rents_shown rpc n rents :
  devnet_peak_rents rpc n = Ok rents -> exists rent, rents_shown rpc rent n /\
    rents = {| rn_setup := 2 * rent mint_len + 12 * rent token_account_len + 2 * rent STATE_LEN; rn_program := rent loader_program_len;
               rn_programdata := rent (loader_programdata_len n); rn_buffer := rent (loader_buffer_len n); rn_fees := 20000000 |}.
Proof.
  unfold devnet_peak_rents. intros E. apply bind_Ok in E as (m & Hm%ok_or_Ok & E). apply bind_Ok in E as (t & Ht%ok_or_Ok & E).
  apply bind_Ok in E as (st & Hst%ok_or_Ok & E). apply bind_Ok in E as (setup & Hsetup%ok_or_Ok & E).
  apply bind_Ok in E as (p & Hp%ok_or_Ok & E). apply bind_Ok in E as (pd & Hpd%ok_or_Ok & E). apply bind_Ok in E as (b & Hb%ok_or_Ok & E).
  apply Ok_inj in E as <-. exists (fun size => default 0%Z (dr_minimum_balance rpc size)). split.
  - repeat constructor; by rewrite ?Hm, ?Ht, ?Hst, ?Hp, ?Hpd, ?Hb.
  - rewrite Hm, Ht, Hst, Hp, Hpd, Hb. cbn [from_option id]. f_equal. apply bind_Some in Hsetup as (v & Hv & E).
    apply bind_Some in E as (w & Hw & E). apply bind_Some in E as (x & Hx & E). apply bind_Some in E as (y & Hy & E). checked. lia.
Qed.

Lemma required_peak_exact rent n action required :
  required_peak_balance action
    {| rn_setup := 2 * rent mint_len + 12 * rent token_account_len + 2 * rent STATE_LEN; rn_program := rent loader_program_len;
       rn_programdata := rent (loader_programdata_len n); rn_buffer := rent (loader_buffer_len n); rn_fees := 20000000 |} = Ok required ->
  required = peak rent action n.
Proof.
  unfold required_peak_balance, peak. cbn [rn_setup rn_program rn_programdata rn_buffer rn_fees]. intros E.
  apply bind_Ok in E as (base & Hb%ok_or_Ok & E). destruct action.
  - apply Ok_inj in E as <-. checked. lia.
  - apply ok_or_Ok in E. apply bind_Some in E as (v & Hv & E). apply bind_Some in E as (w & Hw & E). checked. lia.
  - apply ok_or_Ok in E. checked. lia.
Qed.

Lemma peak_balance_held rpc payer action n u :
  require_devnet_peak_balance rpc payer action n = Ok u ->
  exists rent available, rents_shown rpc rent n /\ dr_balance rpc payer = Some available /\ (peak rent action n <= available)%Z.
Proof.
  unfold require_devnet_peak_balance. intros E. apply bind_Ok in E as (rents & (rent & Hr & ->)%peak_rents_shown & E).
  apply bind_Ok in E as (required & ->%required_peak_exact & E).
  apply bind_Ok in E as (available & Ha%ok_or_Ok & E). apply guard_Ok in E as [G _]. exists rent, available. split_and!; [done|done|]. lia.
Qed.

(** ** Finality *)

(** A turn that shows neither an error nor finality. *)
Definition pending (replies : PollReplies) : Prop :=
  exists statuses, pl_statuses replies = Some statuses /\
    match statuses with Some status :: _ => st_err status = false /\ st_finalized status = false | _ => True end.

(** A turn that shows the transaction finalized, successful and readable. *)
Definition final (replies : PollReplies) (transaction : FetchedTransaction) : Prop :=
  exists status rest, pl_statuses replies = Some (Some status :: rest) /\ st_err status = false /\ st_finalized status = true /\
    pl_transaction replies = Some transaction.

Lemma poll_exact replies turn turns transaction :
  poll_finalized replies turn turns = Ok transaction <->
  exists n, n < turns /\ (forall i, i < n -> pending (replies (turn + i))) /\ final (replies (turn + n)) transaction.
Proof.
  revert turn. induction turns as [|turns IH]; intros turn; cbn [poll_finalized]; [split; [done | intros (n & Hn & _); lia]|]. split.
  - intros E. apply bind_Ok in E as (statuses & Hs%ok_or_Ok & E).
    assert (pending (replies turn) /\ poll_finalized replies (S turn) turns = Ok transaction \/ final (replies turn) transaction) as [[Hp E']|Hf].
    { destruct statuses as [|[status|] rest]; [left; split; [by exists []|done]| |left; split; [by eexists|done]]. apply guard_Ok in E as [Ge E].
      destruct (st_finalized status) eqn:Gf; [right; apply ok_or_Ok in E; by exists status, rest | left; split; [by eexists|done]]. }
    + apply IH in E' as (n & Hn & Hb & Hf). exists (S n). rewrite Nat.add_succ_r. split_and!; [lia| |done]. intros [|i] Hi; [by rewrite Nat.add_0_r|].
      rewrite Nat.add_succ_r. apply (Hb i). lia.
    + exists 0. rewrite Nat.add_0_r. split_and!; [lia| |done]. intros i Hi. lia.
  - intros ([|n] & Hn & Hb & Hf).
    + rewrite Nat.add_0_r in Hf. destruct Hf as (status & rest & -> & He & Hfin & Ht). cbn [ok_or mbind result_bind]. by rewrite He, Hfin, Ht.
    + destruct (Hb 0) as (statuses & Hs & Hp); [lia|]. rewrite Nat.add_0_r in Hs. rewrite Hs. cbn [ok_or mbind result_bind].
      assert (poll_finalized replies (S turn) turns = Ok transaction) as HP.
      { apply IH. exists n. rewrite Nat.add_succ_r in Hf. split_and!; [lia| |done]. intros i Hi. specialize (Hb (S i)). rewrite Nat.add_succ_r in Hb. apply Hb. lia. }
      destruct statuses as [|[status|] rest]; [done| |done]. by destruct Hp as [-> ->].
Qed.
End deploy.

(** ** The program as its own verifier *)

Section self.
Context `{Sha256} `{Solana} `{Dalek} `{Threshold} `{Sysvars} `{!KeyperCodec} `{ClientCodec} `{!EvidenceCodec} `{ObserverCodec} `{BuildCodec}.

(** The same surroundings with other bytes on standard input and standard output a pipe. *)
Definition with_stdin (s : Surroundings) (stdin : list byte) : Surroundings :=
  {| su_stdin := Some stdin; su_stdout_ok := true; su_keypair := su_keypair s; su_randomness := su_randomness s; su_receipt := su_receipt s;
     su_nonce := su_nonce s; su_now := su_now s; su_account_open := su_account_open s; su_account_io := su_account_io s;
     su_keyper_files := su_keyper_files s; su_keyper_rpc := su_keyper_rpc s; su_lock_open := su_lock_open s; su_lock_sign := su_lock_sign s;
     su_open := su_open s; su_build := su_build s; su_build_config := su_build_config s; su_rpc := su_rpc s;
     su_local_proof := su_local_proof s; su_devnet_proof := su_devnet_proof s |}.

(** A process of the program, as the parent sees it end; [help] holds the help texts. *)
Definition own_process (help : HelpPage -> list byte) (s : Surroundings) (machine : Machine) (arguments : list text) (stdin : list byte) : ChildRun :=
  let e := snd (main (with_stdin s stdin) machine arguments) in
  Exited {| out_success := (ex_code e =? 0)%Z; out_stdout := match ex_stdout e with PrintedBytes b => b | PrintedHelp page => help page end;
            out_stderr := [] |}.

Lemma verifier_command s machine artifact rpc :
  main s machine (verifier_arguments artifact rpc) = (machine, verify_evidence_with_checkpoint s (bstr "-") artifact rpc).
Proof. reflexivity. Qed.

Lemma own_verifier_Ok help s machine artifact rpc stdin output :
  own_process help s machine (verifier_arguments artifact rpc) stdin = Exited output -> out_success output = true ->
  verify_evidence_file_with_checkpoint (su_rpc s rpc) (su_build_config s) (su_open s artifact) (FromStdin (Some stdin)) = Ok (out_stdout output).
Proof.
  unfold own_process. cbv zeta. rewrite verifier_command. cbn [snd]. unfold verify_evidence_with_checkpoint, evidence_input.
  rewrite bool_decide_eq_true_2 by done. cbn [with_stdin su_rpc su_build_config su_open su_stdin su_stdout_ok].
  destruct (verify_evidence_file_with_checkpoint _ _ _ _); intros [= <-]; done.
Qed.

(** Standard input within the limit is read whole. *)
Lemma stdin_read stdin json : read_evidence_input (FromStdin (Some stdin)) = Ok json -> json = stdin.
Proof.
  unfold read_evidence_input. cbn [ok_or mbind result_bind]. intros E. apply guard_Ok in E as [G E]. case_match; [|done].
  apply Ok_inj in E as <-. apply Nat.ltb_ge in G. rewrite length_take in G. apply take_ge. lia.
Qed.

Lemma checkpoint_verified rpc config file input report :
  ed25519_program_id <> ID -> verify_evidence_file_with_checkpoint rpc config file input = Ok report ->
  exists json bundle checkpoint f pool epoch programdata metadata tail,
    read_evidence_input input = Ok json /\ bundle_parse json = Some bundle /\ db_schema_version bundle = 1%Z /\
    evidence_content_hash (db_content bundle) = Ok (db_evidence_sha256 bundle) /\ report = verified_report bundle /\
    file = Some f /\ of_bytes f = Some checkpoint /\
    (exists k, parse_pubkey (de_programdata (dv_deployment (db_content bundle))) = Ok k /\ er_account rpc 1 k = Some (Some programdata)) /\
    pa_data programdata = metadata ++ checkpoint ++ zeros tail /\ length metadata = programdata_metadata_len /\
    quorum_shown rpc pool epoch /\ residual_moved (dv_token_balances (db_content bundle)) epoch.
Proof.
  intros Hne E. unfold verify_evidence_file_with_checkpoint in E. apply bind_Ok in E as (json & Hj & E).
  apply bind_Ok in E as (bundle & Hb%map_err_Ok%ok_or_Ok & E). apply bind_Ok in E as ([] & [Hs Hc]%map_err_Ok%content_hash_exact & E).
  apply bind_Ok in E as (checkpoint & Hk & E). apply verify_bundle_sound in E as (-> & pool & epoch & pd & md & tail & HP & Hd & Hl & HQ & HR); [|done].
  unfold read_verified_checkpoint in Hk. apply bind_Ok in Hk as (f & Hf%ok_or_Ok & Hk). apply bind_Ok in Hk as (m & _ & Hk).
  apply guard_Ok in Hk as [_ Hk]. apply bind_Ok in Hk as (bytes & Hbytes%ok_or_Ok & Hk). apply guard_Ok in Hk as [_ Hk].
  apply bind_Ok in Hk as (tc & _ & Hk). apply Ok_inj in Hk as <-. cbn [cc_artifact] in Hd.
  exists json, bundle, bytes, f, pool, epoch, pd, md, tail. by split_and!.
Qed.

(** ** Exit codes *)

(** A run ends with 0, 1, 2 or a panic's 101; only a success prints; and 2 says that the command line was
    not understood, and nothing was touched. *)
Definition orderly (before : Machine) (run : Machine * Exit) : Prop :=
  let e := snd run in
  (ex_code e = 0 \/ ex_code e = 1 \/ ex_code e = 2 \/ ex_code e = 101)%Z /\
  (ex_code e <> 0%Z -> ex_stdout e = PrintedBytes []) /\
  (ex_code e = 2%Z <-> ex_stderr e = [USAGE]) /\ (ex_code e = 2%Z -> fst run = before).

Lemma orderly_usage m : orderly m (usage m).
Proof. by split_and!; cbn; auto. Qed.

Lemma orderly_finish {E} m m' (complain : E -> list Complaint) outcome :
  (forall e, complain e <> [USAGE]) -> orderly m (m', finish complain outcome).
Proof. intros Hc. destruct outcome as [b|e]; split_and!; cbn; auto; try done. split; [done | by intros ?%Hc]. Qed.

Lemma orderly_printed {E} m m' ok (complain : E -> Complaint) outcome :
  (forall e, complain e <> USAGE) ->
  orderly m (m', match outcome with Ok output => print ok (PrintedBytes output) | Err e => FAILURE [complain e] end).
Proof.
  intros Hc. destruct outcome as [b|e]; [destruct ok|]; split_and!; cbn; auto; try done. split; [done|]. intros [= F]. by apply Hc in F.
Qed.

Lemma orderly_devnet s m payer program out rpc checkpoint : orderly m (m, demo_devnet s payer program out rpc checkpoint).
Proof.
  unfold demo_devnet. destruct (su_devnet_proof s _ _ _ _ _) as [b|e]; [destruct (su_stdout_ok s) eqn:Ho|]; unfold print; rewrite ?Ho;
    split_and!; cbn; auto; done.
Qed.

Hint Resolve orderly_usage orderly_devnet : core.
Hint Extern 4 (orderly _ (_, finish _ _)) => by apply orderly_finish : core.
Hint Extern 4 (orderly _ (_, match _ with Ok _ => _ | Err _ => _ end)) => by apply orderly_printed : core.
Hint Extern 4 (orderly _ (_, verify_evidence _ _ _)) => by apply (orderly_printed _ _ _ VerifyFailed) : core.
Hint Extern 4 (orderly _ (_, verify_evidence_with_checkpoint _ _ _ _)) => by apply (orderly_printed _ _ _ VerifyFailed) : core.

Lemma main_two_orderly s m group command : orderly m (main_two s m group command).
Proof.
  unfold main_two. cbv zeta. case_match; [auto|]. case_match; [auto|]. do 3 (case_match; [case_match; auto|]). case_match; [|auto].
  by apply (orderly_printed _ _ _ LocalDemoFailed).
Qed.

Lemma orderly_help s m page : orderly m (m, print (su_stdout_ok s) (PrintedHelp page)).
Proof. unfold print. destruct (su_stdout_ok s); split_and!; cbn; auto; done. Qed.
Hint Resolve orderly_help main_two_orderly : core.

Lemma main_six_orderly s m a b c d e f : orderly m (main_six s m a b c d e f).
Proof. unfold main_six. cbv zeta. do 2 (case_match; [case_match; auto|]). auto. Qed.

Lemma main_three_orderly s m a b c : orderly m (main_three s m a b c).
Proof. unfold main_three. cbv zeta. repeat (case_match; [auto|]). auto. Qed.
Hint Resolve main_six_orderly main_three_orderly : core.

Lemma orderly_trace s m :
  orderly m (m, match trace_fixture with
    | Ok output => print (su_stdout_ok s) (PrintedBytes output)
    | Err (TraceLedger error) => FAILURE [TraceFailed error]
    | Err TracePanic => {| ex_code := 101; ex_stdout := PrintedBytes []; ex_stderr := [Panic] |}
    end).
Proof.
  unfold print. destruct trace_fixture as [t|[e|]]; [destruct (su_stdout_ok s)| |]; split_and!; cbn; auto; done.
Qed.
Hint Resolve orderly_trace : core.

Lemma main_orderly s m arguments : orderly m (main s m arguments).
Proof.
  unfold main. do 13 (destruct arguments as [|? arguments]; [solve [auto | case_match; auto; case_match; auto]|]). auto.
Qed.
End self.
