(* ===== verification/DevnetRunProps.v ===== *)
(** * Properties of the demonstration on devnet

    What a member's turn and the prepared batch have established, that the private material the run scans its
    evidence for holds all of [run_secret], and that it raises none of the alarms it shares with the local
    demonstration.  Whether the node shows the settlement afterwards ([NotSettled], [UnexpectedBalances]) is up to
    the node and is not an alarm here. *)

From S2P Require Import Prelude Bytes Extern ProgramWire ProgramState ProgramInstruction Transactions Ed25519 HostExtern BTree Domain Ledger Commitment.
From S2P Require Import Storage Reservation ReservationProps Account AccountProps HostCrypto HostCryptoProps Suspension Dealer LockJournal Lock LockWire ConfirmedReads.
From S2P Require Import Settlement SettlementProps SettlementChain Keyper KeyperProps Client ClientProps Observer Evidence EvidenceRpc EvidenceFile Deploy Devnet CommandLine.
From S2P Require Import LocalDemo LocalRun DevnetRun Alarms LocalProps LocalRunProps DevnetProps.

Section run.
Context `{Sha256} `{Solana} `{Dalek} `{Threshold} `{Sysvars} `{!KeyperCodec} `{!SecretSets} `{!LocalCodec} `{!SetupCodec} `{!EvidenceCodec} `{ObserverCodec}
  `{ClientCodec} `{BuildCodec} `{!DevnetCodec} `{!DeployCodec}.

(** ** The members *)

(** What one member draws. *)
Inductive member_secret (d : MemberDraws) : list byte -> Prop :=
| secret_trading seed : mw_trading d = Some seed -> member_secret d (arr_list seed)
| secret_participant id : mw_participant d = Some id -> member_secret d (arr_list id)
| secret_reservation id : mw_reservation d = Some id -> member_secret d (arr_list id)
| secret_intent_nonce nonce : mw_intent_nonce d = Some nonce -> member_secret d (arr_list nonce)
| secret_receipt receipt : mw_receipt d = Some receipt -> member_secret d (arr_list receipt).

Lemma devnet_member_Ok io d m keys registry epoch_id expiry side accounts journal accounts' journal' member material :
  devnet_member io d m keys registry epoch_id expiry side accounts journal = Ok (accounts', journal', member, material) ->
  conceals keys side (rm_submission member) /\ forall secret, member_secret d secret -> secret ∈ material.
Proof.
  unfold devnet_member. intros E. apply bind_Ok in E as (seed & Hseed%ok_or_Ok & E). cbv zeta in E. apply bind_Ok in E as (p & Hp%ok_or_Ok & E).
  apply bind_Ok in E as (n & Hn%ok_or_Ok & E). apply bind_Ok in E as (i & Hi%ok_or_Ok & E). apply bind_Ok in E as (receipt & Hrec%ok_or_Ok & E).
  destruct (AccountJournal_register _ _ _ _ _) as [acc registered]. apply bind_Ok in E as (? & _ & E). apply bind_Ok in E as ([j reserved] & _ & E).
  apply bind_Ok in E as (auth & _ & E). apply bind_Ok in E as (order & Hord%map_err_Ok & E). apply bind_Ok in E as (prep & Hprep%map_err_Ok & E).
  apply Ok_inj in E. injection E as _ _ <- <-. apply prepare_order_new in Hord as (_ & _ & _ & ->).
  apply prepare_order_Ok in Hprep as (_ & _ & _ & encrypted & Henc & ->). cbn [po_side po_limit_price po_epoch_id po_participant_id po_public_keys] in *.
  split; cbn [rm_submission pd_submission].
  - eexists _, _, encrypted. split_and!; [| |exact Henc|done]; [|done]. unfold IntentBodyV1_wf, SignedIntentV1_sign, u64_ok. cbn. lia.
  - intros secret HS. rewrite !elem_of_cons. destruct HS as [s Hs|s Hs|s Hs|s Hs|s Hs]; simplify_eq; tauto.
Qed.

Lemma devnet_members_Ok w m keys registry epoch_id expiry sides accounts journal accounts' journal' members material :
  devnet_members w m keys registry epoch_id expiry sides accounts journal = Ok (accounts', journal', members, material) ->
  Forall2 (conceals keys) (map snd sides) (map rm_submission members) /\
  forall index secret, index ∈ map fst sides -> member_secret (nw_members w index) secret -> secret ∈ material.
Proof.
  revert accounts journal members material. induction sides as [|[index side] sides IH]; intros accounts journal members material E; cbn [devnet_members] in E.
  - apply Ok_inj in E. injection E as _ _ <- <-. split; [constructor|]. intros index secret HI. by apply not_elem_of_nil in HI.
  - apply bind_Ok in E as ([[[acc j] member] mat] & Hm & E). apply bind_Ok in E as ([[[acc1 j1] rest] more] & Hr & E). apply Ok_inj in E.
    injection E as -> -> <- <-. apply devnet_member_Ok in Hm as [Hc Hs]. destruct (IH _ _ _ _ Hr) as [HF HM]. split; [by constructor|].
    intros i secret [->|HI]%elem_of_cons HS; apply elem_of_app; [left; by apply Hs | right; by apply (HM i)].
Qed.

Lemma one_lot_balances members balances :
  try_map (fun member => BalanceRecordV1_new (rm_participant member) 1 100 1 100) members = Ok balances ->
  Forall balance_wf balances /\ length balances = length members.
Proof.
  intros HT%try_map_Ok. split; [|by rewrite (Forall2_length HT)]. induction HT as [|member b members balances Hb _ IH]; constructor; [|done].
  unfold BalanceRecordV1_new in Hb. apply guard_Ok in Hb as [G Hb]. apply Ok_inj in Hb as <-. bguard.
  unfold balance_wf, u64_ok. cbn. split_and!; done || lia.
Qed.

(** ** The prepared batch *)

Record ready (w : DevnetWorld) (d : Deployment) (payer_path : text) (p : Prepared) : Prop := {
  rd_dealer : EpochDealer_random (nw_dealer w) = Ok (pr_dealer p);
  rd_lot : cfg_base_lot_atoms (pk_configuration (pr_package p)) = 1%Z;
  rd_price : cfg_quote_atoms_per_lot (pk_configuration (pr_package p)) = 100%Z;
  rd_keys : pk_epoch_public_keys (pr_package p) = EpochDealer_public_keys (pr_dealer p);
  rd_sides : Forall2 (conceals (EpochDealer_public_keys (pr_dealer p))) direct_sides (pk_submissions (pr_package p));
  rd_balances : Forall balance_wf (pk_balances (pr_package p));
  rd_count : length (pk_balances (pr_package p)) = 4;
  rd_members : length (pr_members p) = 4;
  rd_attesters : nw_attesters w = three_map Some (pr_attesters p);
  rd_material : exists operator nonce material, nw_operator w = Some operator /\ nw_package_nonce w = Some nonce /\
    pr_material p = first_material w d payer_path operator (pr_attesters p) ++ material ++ [arr_list nonce] /\
    forall index secret, index ∈ [0; 1; 2; 3] -> member_secret (nw_members w index) secret -> secret ∈ material;
}.

Lemma devnet_prepare_ready w d payer_path p : devnet_prepare w d payer_path = Ok p -> ready w d payer_path p.
Proof.
  unfold devnet_prepare. intros E. apply bind_Ok in E as (operator & Hop%ok_or_Ok & E). destruct (nw_attesters w) as [[a b] c] eqn:Hat.
  apply bind_Ok in E as (a' & ->%ok_or_Ok & E). apply bind_Ok in E as (b' & ->%ok_or_Ok & E). apply bind_Ok in E as (c' & ->%ok_or_Ok & E).
  cbv zeta in E. apply bind_Ok in E as ([[[n m] funding] dealer] & HM%map_err_Ok & E).
  unfold devnet_market in HM. do 3 apply bind_Ok in HM as ([? ?] & _ & HM). apply bind_Ok in HM as (dl & Hdl%map_err_Ok & HM).
  apply bind_Ok in HM as ([? ?] & _ & HM). apply Ok_inj in HM. simplify_eq.
  apply bind_Ok in E as ([[[[[[[calls epoch] epoch_id] members] accounts] reservations] package] material] & HE & E). apply Ok_inj in E as <-.
  unfold devnet_epoch in HE. cbv zeta in HE. do 3 apply bind_Ok in HE as (? & _ & HE). apply bind_Ok in HE as ([[lock abort] expiry] & _ & HE).
  apply bind_Ok in HE as ([? ?] & _ & HE). do 3 apply bind_Ok in HE as (? & _ & HE).
  apply bind_Ok in HE as ([[[acc res] mem] mat] & Hmem%map_err_Ok & HE). apply bind_Ok in HE as (balances & Hbal%map_err_Ok & HE).
  apply bind_Ok in HE as (pk & Hpk%map_err_Ok & HE). apply Ok_inj in HE. simplify_eq.
  apply devnet_members_Ok in Hmem as [HF HS]. apply one_lot_balances in Hbal as [HB HL].
  apply run_package_Ok in Hpk as (Hc & Hk & Hs & Hb & [nonce Hn]).
  assert (length members = 4) as Hlen by (rewrite <- (length_map rm_submission), <- (Forall2_length HF); done).
  split; cbn [pr_dealer pr_package pr_members pr_attesters pr_material]; rewrite ?Hc, ?Hb, ?Hs; try done; try congruence.
  exists operator, nonce, mat. rewrite Hn. by split_and!.
Qed.

(** ** The settled batch *)

(** Keyper [index] approved the digest of this request with its own key, in its own directory. *)
Definition approves (p : Prepared) (settlement : SettlementRequestV1) (index : nat) (approval : SettlementApprovalV1) : Prop :=
  sa_keyper_key approval = configured_keyper (pr_package p) index /\ sa_digest approval = sq_settlement_digest settlement /\
  SettlementApprovalV1_verify approval = true.

Record settles (w : DevnetWorld) (p : Prepared) (run : SettledRun) : Prop := {
  sd_package : sr_package run = pr_package p;
  sd_digest : sr_settlement_digest run = sq_settlement_digest (sr_settlement run);
  sd_request : exists evidence nonce confirmed, fetch_confirmed_lock (nw_confirmed w) (pr_epoch p) = Ok confirmed /\
    SettlementRequestV1_build (pr_package p) evidence nonce confirmed = Ok (sr_settlement run);
  sd_approvals : exists first second, approves p (sr_settlement run) 0 first /\ approves p (sr_settlement run) 1 second /\
    SettlementPayloadV1_digest (sa_payload first) = SettlementPayloadV1_digest (sa_payload second);
  sd_before : sr_before run = {| rb_pool_base := 4; rb_pool_quote := 400; rb_venue_base := 10; rb_venue_quote := 0 |};
  sd_after : sr_after run = {| rb_pool_base := 6; rb_pool_quote := 200; rb_venue_base := 8; rb_venue_quote := 200 |};
  sd_epoch : exists account state, nw_epoch_after w = Some account /\ EpochStateV1_decode (ra_data account) = Ok state /\
    terminal_state state = Settled /\ ep_member_count state = 4%Z /\ ep_result_commitment state = sq_result_commitment (sr_settlement run);
}.

Lemma approval_digest a : SettlementApprovalV1_verify a = true -> SettlementPayloadV1_digest (sa_payload a) = sa_digest a.
Proof.
  unfold SettlementApprovalV1_verify. intros Hv. destruct (verifying_key_ok _); [|done]. cbn [negb] in Hv. apply andb_true_iff in Hv as [Hv _]. by bguard.
Qed.

Lemma check_settled_Ok before after account commitment u :
  check_settled before after account commitment = Ok u ->
  before = {| rb_pool_base := 4; rb_pool_quote := 400; rb_venue_base := 10; rb_venue_quote := 0 |} /\
  after = {| rb_pool_base := 6; rb_pool_quote := 200; rb_venue_base := 8; rb_venue_quote := 200 |} /\
  exists a state, account = Some a /\ EpochStateV1_decode (ra_data a) = Ok state /\
    terminal_state state = Settled /\ ep_member_count state = 4%Z /\ ep_result_commitment state = commitment.
Proof.
  unfold check_settled. intros E. apply guard_Ok in E as [G E]. apply bind_Ok in E as (a & Ha%ok_or_Ok & E).
  apply bind_Ok in E as (state & Hs%map_err_Ok & E). apply guard_Ok in E as [G' _]. bguard. split_and!; try done. by exists a, state.
Qed.

(** The material a batch adds. *)
Definition later_material (w : DevnetWorld) (p : Prepared) (directories : text * text * text) (material : list (list byte)) : Prop :=
  exists shares nonce, share_material (pr_dealer p) (pr_epoch p) = Ok shares /\ nw_settlement_nonce w = Some nonce /\
    material = pr_material p ++ (let '(first, second, third) := directories in [first; second; third]) ++ shares ++ [arr_list nonce].

Lemma devnet_batch_Ok w d p directories run material :
  devnet_batch w d p directories = Ok (run, material) -> settles w p run /\ later_material w p directories material.
Proof.
  unfold devnet_batch. destruct directories as [[a b] c]. cbv zeta. intros E. apply bind_Ok in E as (shares & Hsh & E).
  apply bind_Ok in E as ([n lock] & _ & E). apply bind_Ok in E as (evidence & _ & E). apply bind_Ok in E as ([settlement hash] & HR & E).
  apply bind_Ok in E as ([[[digest before] after] signature] & HS & E). apply bind_Ok in E as (u & _ & E).
  destruct (lm_backed (pr_market p)) as [[[pb pq] vb] vq]. apply Ok_inj in E. injection E as <- <-.
  unfold devnet_request in HR. apply bind_Ok in HR as (confirmed & Hc%map_err_Ok & HR). apply bind_Ok in HR as (nonce & Hn%ok_or_Ok & HR).
  apply bind_Ok in HR as (request & Hb%map_err_Ok & HR). apply bind_Ok in HR as (wire & _ & HR). apply Ok_inj in HR. injection HR as -> _.
  unfold devnet_settle in HS. cbv zeta in HS. apply bind_Ok in HS as (first & (K1 & D1 & V1 & _)%map_err_Ok%sign_settlement_checked & HS).
  apply bind_Ok in HS as (second & (K2 & D2 & V2 & _)%map_err_Ok%sign_settlement_checked & HS). destruct (lm_backed (pr_market p)) as [[[? ?] ?] ?].
  apply bind_Ok in HS as (before' & _ & HS). apply bind_Ok in HS as ([? signature'] & _ & HS). apply bind_Ok in HS as (after' & _ & HS).
  apply bind_Ok in HS as (? & (HB & HA & HE)%map_err_Ok%check_settled_Ok & HS). apply Ok_inj in HS. injection HS as <- <- <- _.
  pose proof (approval_digest _ V1) as P1. pose proof (approval_digest _ V2) as P2. split.
  - split; cbn [sr_package sr_settlement sr_settlement_digest sr_before sr_after]; try done; [congruence | by eexists _, _, _ |].
    exists first, second. unfold approves. split_and!; congruence.
  - exists shares, nonce. rewrite Hn. by split_and!.
Qed.

(** The request nets the four sides the run placed. *)
Lemma settles_residual `{!ThresholdLaws} `{!SecretSetsLaws} w d payer_path p run :
  ready w d payer_path p -> settles w p run -> sq_residual (sr_settlement run) = Residual.Buy 2.
Proof.
  intros HR HS. destruct (sd_request _ _ _ HS) as (evidence & nonce & confirmed & _ & HB). unfold SettlementRequestV1_build in HB.
  apply bind_Ok in HB as (r & Hr & HB). apply Ok_inj in HB as <-. cbn [sq_residual].
  destruct (dealt_threshold _ _ (rd_dealer _ _ _ _ HR)) as [_ Ht].
  apply (sided_payload direct_sides) in Hr as [-> _]; [done | apply HR | apply HR | apply HR | apply HR | done |].
  intros intents Hi Hl. apply (recovered_sides _ _ _ _ _ _ _ Ht (rd_keys _ _ _ _ HR) (rd_sides _ _ _ _ HR) Hl Hi).
Qed.

(** ** Private material *)

(** The private material of a run: the signing keys it reads or draws for the payer, the program, the operator,
    the venue, the attesters and the wallets, what each member draws, the two nonces, the dealt shares and the
    private paths.  The epoch's id is published.  The one-off keys of the mints, of the token accounts and of the
    deployment's buffer, the dealer's seed and the randomness of the encryptions are not kept by the run and are
    not part of it. *)
Inductive run_secret (w : DevnetWorld) (d : Deployment) (payer_path : text) : list byte -> Prop :=
| secret_payer : run_secret w d payer_path (ky_bytes (dn_payer d))
| secret_program_key k : dn_program_key d = Some k -> run_secret w d payer_path (ky_bytes k)
| secret_operator seed : nw_operator w = Some seed -> run_secret w d payer_path (arr_list seed)
| secret_venue : run_secret w d payer_path (ky_bytes (nw_venue_authority w))
| secret_attester seed a b c : nw_attesters w = (a, b, c) -> Some seed ∈ [a; b; c] -> run_secret w d payer_path (arr_list seed)
| secret_wallet wallet : wallet ∈ four_list (nw_wallets w) -> run_secret w d payer_path (ky_bytes wallet)
| secret_member index secret : index < 4 -> member_secret (nw_members w index) secret -> run_secret w d payer_path secret
| secret_package nonce : nw_package_nonce w = Some nonce -> run_secret w d payer_path (arr_list nonce)
| secret_settlement nonce : nw_settlement_nonce w = Some nonce -> run_secret w d payer_path (arr_list nonce)
| secret_share dealer index bytes : EpochDealer_random (nw_dealer w) = Ok dealer -> (0 <= index < 3)%Z ->
    secret_serialize (secrets_share (ed_secrets dealer) index) = Some bytes -> run_secret w d payer_path bytes
| secret_path path : path ∈ [payer_path; dn_private_root d; dn_run_directory d; dn_executable d] -> run_secret w d payer_path path
| secret_directory index path : index < 3 -> nw_keyper_directory w index = Some path -> run_secret w d payer_path path.

Lemma directories_Ok io tempdir permissions rpc_url attesters events a b c :
  create_devnet_keyper_directories io tempdir permissions rpc_url attesters = (events, Ok (a, b, c)) ->
  tempdir 0 = Some a /\ tempdir 1 = Some b /\ tempdir 2 = Some c.
Proof.
  unfold create_devnet_keyper_directories. intros E. do 3 apply st_bind_Ok in E as (? & ?%ok_or_Ok & E). destruct attesters as [[? ?] ?].
  destruct (write_keyper_directories _ _ _ _) as [ev written]. apply st_bind_Ok in E as (? & _ & E). simplify_eq. done.
Qed.

Lemma first_material_complete w d payer_path operator attesters secret :
  secret ∈ [ky_bytes (dn_payer d); arr_list operator; ky_bytes (nw_venue_authority w); payer_path; dn_private_root d; dn_run_directory d; dn_executable d] \/
  (exists k, dn_program_key d = Some k /\ secret = ky_bytes k) \/
  secret ∈ (let '(a, b, c) := attesters in [arr_list a; arr_list b; arr_list c]) \/
  secret ∈ map ky_bytes (four_list (nw_wallets w)) ->
  secret ∈ first_material w d payer_path operator attesters.
Proof.
  unfold first_material. destruct attesters as [[a b] c]. rewrite !elem_of_app. intros [HS|[(k & -> & ->)|[HS|HS]]]; [by left | | by right; right; left | by do 3 right].
  right. left. by apply list_elem_of_singleton.
Qed.

Lemma share_material_complete dealer epoch shares index bytes :
  share_material dealer epoch = Ok shares -> (0 <= index < 3)%Z -> secret_serialize (secrets_share (ed_secrets dealer) index) = Some bytes ->
  bytes ∈ shares.
Proof.
  intros HT%try_map_Ok HI HS. assert (index ∈ [0; 1; 2]%Z) as Hin by (rewrite !elem_of_cons; lia).
  apply list_elem_of_lookup_1 in Hin as [k Hk]. destruct (Forall2_lookup_l _ _ _ _ _ HT Hk) as (x & Hx & Hs%ok_or_Ok).
  cbn [EpochDealer_share ks_secret] in Hs. rewrite HS in Hs. injection Hs as ->. by eapply list_elem_of_lookup_2.
Qed.

(** The evidence is scanned for all of it. *)
Lemma material_complete w d payer_path p io permissions rpc_url events directories material secret :
  ready w d payer_path p ->
  create_devnet_keyper_directories io (nw_keyper_directory w) permissions rpc_url (pr_attesters p) = (events, Ok directories) ->
  later_material w p directories material -> run_secret w d payer_path secret -> secret ∈ material.
Proof.
  intros HR HD (shares & nonce & Hsh & Hn & ->) HS. destruct directories as [[a b] c]. apply directories_Ok in HD as (Ha & Hb & Hc).
  destruct (rd_material _ _ _ _ HR) as (operator & package & mat & Hop & Hp & -> & Hmat). pose proof (rd_attesters _ _ _ _ HR) as Hat.
  pose proof (first_material_complete w d payer_path operator (pr_attesters p) secret) as HF. rewrite !elem_of_cons in HF. rewrite !elem_of_app, !elem_of_cons.
  destruct HS as [|k Hk|seed Hs| |seed x y z Hxyz Hs|wallet Hw|index secret Hi Hs|x Hx|x Hx|dealer index bytes Hd Hi Hs|path Hs|index path Hi Hs].
  - tauto.
  - left. left. apply HF. right. left. by exists k.
  - simplify_eq. tauto.
  - tauto.
  - left. left. apply HF. do 2 right. left. rewrite Hat in Hxyz. destruct (pr_attesters p) as [[u v] t]. injection Hxyz as <- <- <-.
    rewrite !elem_of_cons. rewrite !elem_of_cons in Hs. destruct Hs as [E|[E|[E|E]]]; [injection E as ->; tauto.. | by apply not_elem_of_nil in E].
  - left. left. apply HF. do 3 right. by apply list_elem_of_fmap_2.
  - left. right. left. apply (Hmat index); [|done]. rewrite !elem_of_cons. lia.
  - simplify_eq. tauto.
  - simplify_eq. tauto.
  - rewrite (rd_dealer _ _ _ _ HR) in Hd. apply Ok_inj in Hd as <-. right. right. left. by eapply share_material_complete.
  - left. left. apply HF. rewrite !elem_of_cons in Hs. tauto.
  - right. left. destruct index as [|[|[|index]]]; [..|lia]; simplify_eq; tauto.
Qed.

(** ** Alarms shared with the local demonstration *)

#[global] Instance devnet_alarm : Alarm DevnetError := fun error => match error with Running error => alarm error | _ => false end.

Lemma calm_Running {A} (r : result RunError A) : calm r -> calm (map_err Running r).
Proof. intros Hr e He. destruct r as [a|e']; [done|]. injection He as <-. by apply (Hr e'). Qed.
Lemma calm_Running_Step {A} (r : result LocalError A) : calm r -> calm (map_err (fun e => Running (Step e)) r).
Proof. intros Hr e He. destruct r as [a|e']; [done|]. injection He as <-. by apply (Hr e'). Qed.
Lemma calm_Demo {A} (r : result DemoError A) : calm (map_err Demo r).
Proof. intros e He. destruct r as [a|e']; [done|]. by injection He as <-. Qed.
Lemma calm_Publishing {A} (r : result PublishError A) : calm (map_err Publishing r).
Proof. intros e He. destruct r as [a|e']; [done|]. by injection He as <-. Qed.
Hint Resolve calm_Running calm_Running_Step calm_Demo calm_Publishing : calm.

Context `{!LocalCodecLaws} `{!SetupCodecLaws}.

Lemma quiet_fund_pool w p a b c x y z t : quiet_call (fund_pool_accounts w p a b c x y z t).
Proof.
  intros n. unfold fund_pool_accounts. apply calm_bind; [auto with calm|]. intros base HB%map_err_Ok%transfer_signers.
  apply calm_bind; [auto with calm|]. intros quote HQ%map_err_Ok%transfer_signers. apply quiet_send, signed_alone; [by repeat constructor | done].
Qed.
Hint Extern 1 (quiet_call _) =>
  first [apply quiet_ret | apply quiet_create_mint | apply quiet_create_token_account | apply quiet_mint_to | apply quiet_fund_pool] : calm.

Lemma quiet_devnet_market w payer operator venue attesters : quiet_call (create_devnet_market w payer operator venue attesters).
Proof. unfold create_devnet_market. repeat (apply quiet_bind; [auto with calm | intros ?; cbv zeta]). auto with calm. Qed.
Lemma quiet_fund_wallet w m wallet : quiet_call (fund_wallet w m wallet).
Proof.
  unfold fund_wallet. destruct (lm_backed m) as [[[? ?] ?] ?]. repeat (apply quiet_bind; [auto with calm | intros ?; cbv zeta]). auto with calm.
Qed.
Hint Resolve quiet_fund_wallet : calm.
Lemma quiet_fund_wallets w m wallets : quiet_call (fund_wallets w m wallets).
Proof.
  unfold fund_wallets. destruct wallets as [[[? ?] ?] ?]. repeat (apply quiet_bind; [auto with calm | intros ?]). auto with calm.
Qed.
Lemma quiet_revoke w m : quiet_call (revoke_mints w m).
Proof.
  intros n. unfold revoke_mints. cbv zeta. apply calm_bind; [auto with calm|]. intros base HB%ok_or_Ok%set_authority_signers.
  apply calm_bind; [auto with calm|]. intros quote HQ%ok_or_Ok%set_authority_signers.
  apply calm_sent; [apply signed_by_payer; by repeat constructor|]. intros [? ?]. apply calm_Ok.
Qed.
Hint Resolve signed_initialize_market : signed.
Hint Extern 1 (calm (send_numbered _ _ _ _ _)) => apply quiet_send; solve [eauto with signed] : calm.
Hint Extern 1 (calm (create_devnet_market _ _ _ _ _ _)) => apply quiet_devnet_market : calm.
Hint Extern 1 (calm (fund_wallets _ _ _ _)) => apply quiet_fund_wallets : calm.
Hint Extern 1 (calm (revoke_mints _ _ _)) => apply quiet_revoke : calm.

Lemma calm_devnet_market w payer operator seeds : calm (devnet_market w payer operator seeds).
Proof. unfold devnet_market. calm. Qed.

Lemma calm_devnet_member io d m keys registry e expiry side accounts journal : calm (devnet_member io d m keys registry e expiry side accounts journal).
Proof. unfold devnet_member. calm. Qed.
Hint Resolve calm_devnet_member calm_run_package : calm.
Lemma calm_devnet_members w m keys registry e expiry sides accounts journal : calm (devnet_members w m keys registry e expiry sides accounts journal).
Proof. revert accounts journal. induction sides as [|[index side] sides IH]; intros accounts journal; cbn [devnet_members]; calm. Qed.
Hint Resolve calm_devnet_market calm_devnet_members : calm.

Lemma calm_devnet_epoch w n m dealer : calm (devnet_epoch w n m dealer).
Proof. unfold devnet_epoch. calm. Qed.
Hint Resolve calm_devnet_epoch : calm.
Lemma calm_devnet_prepare w d payer_path : calm (devnet_prepare w d payer_path).
Proof. unfold devnet_prepare. calm. Qed.

Lemma calm_devnet_lock w executable directories p : calm (devnet_lock w executable directories p).
Proof. unfold devnet_lock. calm. Qed.
Lemma calm_devnet_release w executable directories p member : calm (devnet_release w executable directories p member).
Proof. unfold devnet_release. calm. Qed.
Lemma calm_devnet_request w p evidence : calm (devnet_request w p evidence).
Proof. unfold devnet_request. calm. Qed.
Lemma calm_devnet_settle w executable directories p settlement n : calm (devnet_settle w executable directories p settlement n).
Proof. unfold devnet_settle. calm. Qed.
Hint Resolve calm_devnet_lock calm_devnet_release calm_devnet_request calm_devnet_settle : calm.

Lemma calm_devnet_batch w d p directories : length (pr_members p) = 4 -> calm (devnet_batch w d p directories).
Proof.
  intros Hl. unfold devnet_batch. destruct directories as [[a b] c]. cbv zeta. apply calm_bind; [apply calm_try_map; auto with calm|]. intros ? _.
  calm_step. calm_step. calm_step. calm_step. calm_step. calm_step. calm_step. calm_step. calm_step. apply calm_bind.
  - apply calm_Running, calm_persist_results. lia.
  - intros ? _. calm.
Qed.

(** ** The whole run *)

(** Before its publication a run changes no published file; what it publishes is scanned for all it drew. *)
Lemma devnet_proof_cases w files payer_path program out rpc_url :
  let files' := snd (fst (devnet_proof w files payer_path program out rpc_url)) in
  files' = files \/ exists d bytes, snd (devnet_deployment (nw_deploy w) program rpc_url) = Ok d /\
    files !! out = None /\ files' = <[out := bytes]> files /\
    (forall word, word ∈ FORBIDDEN -> ~ occurs_in word bytes) /\
    (forall secret form, run_secret w d payer_path secret -> secret <> [] -> form ∈ encodings_of secret -> ~ occurs_in form bytes).
Proof.
  unfold devnet_proof. destruct (devnet_deployment _ _ _) as [events [d|e]]; [|by left]. cbn [map_err]. cbv zeta.
  destruct (devnet_prepare _ _ _) as [p|e] eqn:HP; [|by left]. apply devnet_prepare_ready in HP.
  destruct (create_devnet_keyper_directories _ _ _ _ _) as [written [directories|e]] eqn:HD; [|by left]. cbn [map_err].
  destruct (devnet_batch _ _ _ _) as [[run material]|e] eqn:HB; [|by left]. apply devnet_batch_Ok in HB as [_ HM]. cbv zeta.
  match goal with |- context [publish_run ?a ?b ?c ?e ?f ?g ?h ?i ?j ?k ?l] => pose proof (publish_run_cases a b c e f g h i j k l) as HC end.
  cbv zeta in HC. destruct (publish_run _ _ _ _ _ _ _ _ _ _ _) as [files' published]. cbn [fst snd] in HC |- *.
  destruct HC as [->|(bytes & Hn & -> & HC)]; [by left|]. right. exists d, bytes. split_and!; try done.
  - intros word Hw. apply HC, elem_of_app. by left.
  - intros secret form HS Hne Hf. apply HC, elem_of_app. right. apply (encodings_listed secret); [|done|done].
    by apply (material_complete _ _ _ _ _ _ _ _ _ _ _ HP HD HM).
Qed.

Lemma calm_devnet_proof w files payer_path program out rpc_url : calm (snd (devnet_proof w files payer_path program out rpc_url)).
Proof.
  unfold devnet_proof. destruct (devnet_deployment _ _ _) as [events [d|e]]; [|by apply calm_Err]. cbn [map_err]. cbv zeta.
  destruct (devnet_prepare _ _ _) as [p|e] eqn:HP; [|apply calm_Err; by eapply calm_devnet_prepare].
  destruct (create_devnet_keyper_directories _ _ _ _ _) as [written [directories|e]]; [|by apply calm_Err]. cbn [map_err].
  destruct (devnet_batch _ _ _ _) as [[run material]|e] eqn:HB.
  - cbv zeta. destruct (publish_run _ _ _ _ _ _ _ _ _ _ _) as [files' published]. apply calm_Publishing.
  - apply calm_Err. eapply calm_devnet_batch; [|exact HB]. apply devnet_prepare_ready in HP. apply HP.
Qed.

Definition devnet_report (address : text) (signature : bytes64) : text :=
  (bstr "LOCKED: crowd 4/4" ++ x0a :: bstr "SETTLED: one aggregate BUY 2 lots" ++ x0a :: bstr "VERIFIED: evidence "
   ++ address ++ bstr " settlement " ++ signature_to_string signature ++ x0a :: NON_CLAIM ++ [x0a])%list.

Lemma publish_run_report io verifier polls rpc artifact_write files out rpc_url run material artifact files' report :
  publish_run io verifier polls rpc artifact_write files out rpc_url run material artifact = (files', Ok report) ->
  exists bundle json, (exists funding_slots lock_slot settlement_slot, db_content bundle = devnet_content run funding_slots lock_slot settlement_slot) /\
  verify_devnet_evidence_at_rpc rpc bundle (cc_artifact (sr_checkpoint run)) = Ok tt /\ bundle_print bundle = Some json /\
  files' !! out = Some (json ++ [x0a]) /\ report = devnet_report (db_evidence_sha256 bundle) (sr_settlement_signature run).
Proof.
  unfold publish_run. intros E. apply st_bind_Ok in E as (funding & _ & E). apply st_bind_Ok in E as (lock & _ & E).
  apply st_bind_Ok in E as (settlement & _ & E). cbv zeta in E. apply st_bind_Ok in E as (b & Hb%map_err_Ok & E).
  apply st_bind_Ok in E as ([] & Hv%map_err_Ok & E). apply st_bind_Ok in E as (u & _ & E).
  destruct (persist_verified_evidence _ _ _ _ _ _ _ _) as [fs r] eqn:Ep. apply st_bind_Ok in E as ([] & -> & E). injection E as -> <-.
  apply persist_Ok in Ep as (json & output & Hj & _ & _ & _ & _ & -> & _). exists b, json. rewrite lookup_insert_eq.
  split_and!; [|done..]. unfold DevnetEvidenceBundleV1_seal in Hb. apply bind_Ok in Hb as (h & _ & Hb). apply Ok_inj in Hb as <-. by eexists _, _, _.
Qed.

Lemma devnet_proof_Ok w files payer_path program out rpc_url events files' report :
  devnet_proof w files payer_path program out rpc_url = (events, files', Ok report) ->
  exists d p run bundle json funding_slots lock_slot settlement_slot,
    snd (devnet_deployment (nw_deploy w) program rpc_url) = Ok d /\ ready w d payer_path p /\ settles w p run /\
    db_content bundle = devnet_content run funding_slots lock_slot settlement_slot /\
    verify_devnet_evidence_at_rpc (nw_evidence w) bundle (cc_artifact (sr_checkpoint run)) = Ok tt /\ bundle_print bundle = Some json /\
    files' !! out = Some (json ++ [x0a]) /\ report = devnet_report (db_evidence_sha256 bundle) (sr_settlement_signature run).
Proof.
  unfold devnet_proof. destruct (devnet_deployment _ _ _) as [ev [d|e]]; [|done]. cbn [map_err]. cbv zeta.
  destruct (devnet_prepare _ _ _) as [p|e] eqn:HP; [|done]. apply devnet_prepare_ready in HP.
  destruct (create_devnet_keyper_directories _ _ _ _ _) as [written [directories|e]]; [|done]. cbn [map_err].
  destruct (devnet_batch _ _ _ _) as [[run material]|e] eqn:HB; [|done]. apply devnet_batch_Ok in HB as [HS _]. cbv zeta.
  destruct (publish_run _ _ _ _ _ _ _ _ _ _ _) as [fs published] eqn:HU. intros E. injection E as _ -> E%map_err_Ok. subst published.
  apply publish_run_report in HU as (bundle & json & (x & y & z & HC) & HV & HJ & HO & HR).
  by exists d, p, run, bundle, json, x, y, z.
Qed.
End run.
