(* ===== verification/HostRuntime.v ===== *)
(** * A concrete host

    Stand-in signatures and threshold encryption that satisfy the laws of [HostExtern], and a
    small pair of journals with one participant and one settlement, on which the theorems about
    the host are instantiated. *)

From S2P Require Import Prelude Bytes Extern BTree Domain Ledger Storage.
From S2P Require Import Reservation ReservationProps HostExtern Account AccountProps HostCrypto.
From S2P Require Import Runtime.

(** A signature is its key twice; every 32 bytes are a key. *)
Definition twice (k : bytes32) : arr 64 := default (filled 64 x00) (try_into 64 ((k : list byte) ++ (k : list byte))).

Definition toy_dalek : Dalek :=
  {| SigningKey := bytes32; verifying_key := fun k => k; verifying_key_ok := fun _ => true;
     dalek_sign := fun k _ => twice k; dalek_verify := fun k _ s => s == twice k |}.

Lemma toy_dalek_laws : @DalekLaws toy_dalek.
Proof. split; [done|]. intros k m. cbn. by apply bool_decide_eq_true. Qed.

(** Ciphertexts are plaintexts of 192 bytes, padded to the wire width. *)
Definition toy_threshold : Threshold :=
  {| Ciphertext := list byte; DecryptionShare := unit; PublicKeySet := unit; SecretKeyShare := unit; Randomness := unit;
     ciphertext_verify := fun _ => true;
     ciphertext_serialize := fun c => if length c =? 192 then Some (c ++ zeros 152) else None;
     ciphertext_deserialize := fun b => Some (take 192 b);
     keys_serialize := fun _ => Some []; keys_deserialize := fun _ => Some tt; keys_threshold := fun _ => 1;
     share_serialize := fun _ => Some []; share_deserialize := fun _ => Some tt;
     keys_encrypt := fun _ _ m => m; verify_decryption_share := fun _ _ _ _ => true;
     keys_decrypt := fun _ _ c => Some c; decrypt_share := fun _ _ => Some tt;
     keys_public_share := fun _ _ => filled 48 x00; secret_public_share := fun _ => filled 48 x00 |}.

Lemma toy_threshold_laws : @ThresholdLaws toy_threshold.
Proof.
  split; cbn; try done.
  - intros c bytes. destruct (Nat.eqb_spec (length c) 192) as [E|]; [|done]. intros [= <-]. f_equal.
    rewrite <- E. apply take_app_length.
  - by intros [].
  - by intros [].
Qed.

(** ** One participant, one settlement *)

Definition participant0 : bytes32 := key x31.
Definition epoch0 : bytes32 := key x32.
Definition nonce0 : bytes32 := key x33.
Definition config0 : BatchConfig := {| bc_base_lot_atoms := 1; bc_quote_atoms_per_lot := 2 |}.
Definition before0 : Balances := {[ participant0 := {| base_atoms := 10; quote_atoms := 10 |} ]}.
Definition order0 : FundedOrder := {| fo_participant_id := participant0; fo_side := Buy; fo_limit_price := 5 |}.
Definition result0 : BatchResult := batch_of config0 before0 [order0].

Definition record0 : ReservationRecord :=
  {| rr_nonce := nonce0; rr_epoch_id := epoch0; rr_participant_id := participant0; rr_base_atoms := 1;
     rr_quote_atoms := 2; rr_state := ReservationState.Reserved |}.
Definition reservations0 : Reservations := {[ nonce0 := record0 ]}.
Definition account0 : AccountRecord :=
  {| ar_participant_id := participant0; ar_trading_key := key x34;
     ar_balance := {| base_atoms := 10; quote_atoms := 10 |}; ar_last_epoch := zero32 |}.
Definition accounts0 : Accounts := {[ participant0 := account0 ]}.

Lemma key_nonzero b : b <> x00 -> key b <> zero32.
Proof. intros Hb E. apply Hb. by injection E. Qed.

Lemma record0_wf : record_wf record0.
Proof. split_and!; try (by apply key_nonzero); cbn; unfold u64_ok; lia. Qed.

Lemma reservations0_ok : table_ok reservations0.
Proof.
  unfold reservations0. split; [|by rewrite map_size_singleton]. apply map_Forall_singleton.
  split; [done | apply record0_wf].
Qed.

Lemma batch0_wf : batch_wf config0 before0 [order0].
Proof.
  assert (size before0 = 1) as Hs by apply map_size_singleton. unfold batch_wf. rewrite Hs.
  split_and!; try (cbn; unfold u64_ok; lia). apply map_Forall_singleton. split; cbn; unfold u64_ok; lia.
Qed.

Lemma order0_fillable : Forall (fillable config0 before0) [order0].
Proof.
  constructor; [|constructor]. exists {| base_atoms := 10; quote_atoms := 10 |}. split; [apply lookup_singleton_eq|].
  cbn. lia.
Qed.

Lemma net_batch0 : net_batch config0 before0 [order0] = Ok result0.
Proof. apply net_batch_Ok; [apply batch0_wf|]. split_and!; [done | apply NoDup_singleton | apply order0_fillable | done]. Qed.

Section concrete.
Local Existing Instances toy_sha toy_dalek.

Lemma ledger0_ok : ledger_ok accounts0 ∅.
Proof.
  unfold accounts0. split_and!; [|apply map_Forall_empty | by rewrite map_size_singleton | done].
  apply map_Forall_singleton. split; [done|]. split_and!; [by apply key_nonzero | done | split; cbn; unfold u64_ok; lia | by intros [? _]].
Qed.

Lemma result0_balances : balances result0 = {[ participant0 := {| base_atoms := 11; quote_atoms := 8 |} ]}.
Proof.
  cbn [balances result0 batch_of]. unfold before0, settle_balances.
  apply map_eq. intros i. rewrite map_lookup_imap. destruct (decide (participant0 = i)) as [<-|Hne].
  - rewrite !lookup_singleton_eq. done.
  - by rewrite !lookup_singleton_ne by done.
Qed.

Lemma result0_ok : result_ok result0.
Proof.
  split; [|by vm_compute]. rewrite result0_balances. apply map_Forall_singleton.
  split; [split; cbn; unfold u64_ok; lia | by intros [? _]].
Qed.

Lemma finalizable0 : finalizable epoch0 (dom (balances result0)) [nonce0] reservations0.
Proof.
  rewrite result0_balances, dom_singleton_L. split_and!.
  - split; [apply NoDup_singleton|]. constructor; [|constructor]. exists record0. split; [apply lookup_singleton_eq | done].
  - by rewrite size_singleton.
  - unfold members_of, reservations0. cbn [omap list_omap]. rewrite lookup_singleton_eq. cbn. apply (right_id_L ∅ (∪)).
Qed.

Lemma ready0 : ready epoch0 result0 [nonce0] accounts0 ∅ reservations0.
Proof.
  split; [by apply key_nonzero|]. split; [apply result0_ok|]. split; [apply finalizable0|].
  split; [|split; [|split; [|split; [apply lookup_empty | by rewrite map_size_empty]]]].
  - unfold any_used, reservations0. cbn [existsb]. rewrite lookup_singleton_eq. done.
  - intros id. rewrite result0_balances. unfold accounts0. intros [b Hb].
    apply lookup_singleton_Some in Hb as [<- _]. rewrite lookup_singleton_eq. eauto.
  - intros id b. cbn [before_balances result0 batch_of]. unfold before0, accounts0. intros [<- <-]%lookup_singleton_Some.
    exists account0. split; [apply lookup_singleton_eq | done].
Qed.

(** The two files, with empty handles. *)
Definition account_journal0 : AccountJournal :=
  {| aj_file := Some (encode_accounts accounts0 ∅); aj_records := ∅; aj_applied_epochs := ∅ |}.
Definition reservation_journal0 : ReservationJournal :=
  {| rj_file := Some (encode_records reservations0); rj_records := ∅ |}.

Lemma holds0 : holds (aj_file account_journal0) accounts0 ∅.
Proof. apply holds_encode, ledger0_ok. Qed.

Lemma represents0 : represents (rj_file reservation_journal0) reservations0.
Proof. apply represents_encode, reservations0_ok. Qed.

Lemma fresh0 : at_stage epoch0 result0 [nonce0] accounts0 ∅ reservations0 Fresh (account_journal0, reservation_journal0).
Proof. split; [apply holds0 | apply represents0]. Qed.

(** The same participant settled again by a later epoch. *)
Definition account1 : AccountRecord :=
  {| ar_participant_id := participant0; ar_trading_key := key x34;
     ar_balance := {| base_atoms := 12; quote_atoms := 6 |}; ar_last_epoch := key x39 |}.
Definition accounts1 : Accounts := {[ participant0 := account1 ]}.
Definition epochs1 : AppliedEpochs := {[ epoch0 := key x3a ]}.

Lemma ledger1_ok : ledger_ok accounts1 epochs1.
Proof.
  unfold accounts1, epochs1. split_and!; [| |by rewrite map_size_singleton..].
  - apply map_Forall_singleton. split; [done|].
    split_and!; [by apply key_nonzero | done | split; cbn; unfold u64_ok; lia | by intros [? _]].
  - apply map_Forall_singleton. split; by apply key_nonzero.
Qed.

Lemma overtaken1 : ~ at_settlement epoch0 (balances result0) accounts1.
Proof.
  rewrite result0_balances. intros HA. destruct (HA participant0 _ (lookup_singleton_eq _ _)) as (r & Hr & He & _).
  unfold accounts1 in Hr. rewrite lookup_singleton_eq in Hr. injection Hr as <-. discriminate He.
Qed.
End concrete.

(** Every call succeeds; or the account file is replaced and the process dies before it learns. *)
Definition settle_io_fine : SettleIo := {| sio_reservations := io_fine; sio_query := io_fine; sio_apply := io_fine |}.
Definition io_dies_after_rename : Io :=
  {| io_open_lock := None; io_try_lock := fun _ => None; io_metadata := None; io_read := None;
     io_write := FailedAfter (OtherKind 5) |}.
Definition settle_io_crash : SettleIo :=
  {| sio_reservations := io_fine; sio_query := io_fine; sio_apply := io_dies_after_rename |}.

(** ** One honest submission *)

Section submission.
Local Existing Instances toy_sha toy_dalek toy_threshold.

Definition trader0 : bytes32 := key x34.
Definition operator0 : bytes32 := key x35.
Definition intent0 : SignedIntentV1 :=
  SignedIntentV1_sign {| ib_side := Buy; ib_lots := 1; ib_limit_price := 5; ib_epoch_id := epoch0;
                         ib_participant_id := participant0; ib_client_nonce := filled 16 x00 |} trader0.
Definition keys0 : EpochPublicKeys := {| ek_keys := tt |}.
Definition encrypted0 : EncryptedIntentV1 :=
  {| ei_encoded := SignedIntentV1_encode intent0 ++ zeros 152; ei_ciphertext := SignedIntentV1_encode intent0 |}.
Definition reserved0 : UnsignedFundedAuthorizationV1 :=
  {| ua_nonce := nonce0; ua_epoch_id := epoch0; ua_participant_id := participant0; ua_base_atoms := 1; ua_quote_atoms := 2 |}.
Definition authorization0 : FundedAuthorizationV1 := FundedAuthorizationV1_sign reserved0 trader0 operator0 100.
Definition submission0 : EncryptedSubmissionV1 :=
  {| es_authorization := authorization0; es_ciphertext := ei_encoded encrypted0; es_receipt := key x36;
     es_outer_signature := twice trader0 |}.
Definition policy0 : AdmissionPolicyV1 :=
  {| ap_epoch_id := epoch0; ap_operator_key := operator0; ap_minimum := 1; ap_base_atoms := 1; ap_quote_atoms := 2;
     ap_current_slot := 50 |}.
Definition share0 (index : Z) : ReleasedShareV1 :=
  {| rel_epoch_account := key x37; rel_lock_digest := key x38; rel_ciphertext_hash := zero32; rel_index := index;
     rel_share := tt |}.

Example encrypt_runs : EpochPublicKeys_encrypt keys0 tt intent0 = Ok encrypted0.
Proof. vm_compute. reflexivity. Qed.

Example sign_runs : EncryptedSubmissionV1_sign authorization0 encrypted0 (key x36) trader0 = Ok submission0.
Proof. vm_compute. reflexivity. Qed.

Example admission_runs : EncryptedSubmissionV1_verify_admission submission0 policy0 = Ok tt.
Proof. vm_compute. reflexivity. Qed.

Example late_admission_refused :
  EncryptedSubmissionV1_verify_admission submission0
    {| ap_epoch_id := epoch0; ap_operator_key := operator0; ap_minimum := 1; ap_base_atoms := 1; ap_quote_atoms := 2;
       ap_current_slot := 101 |} = Err CryptoError.InvalidAuthorization.
Proof. vm_compute. reflexivity. Qed.

Lemma admit_runs : admit_batch [submission0; submission0] policy0 = Ok {| ab_members := [submission0] |}.
Proof.
  unfold admit_batch. cbn [fold_left].
  assert (admit_step policy0 (∅, ∅, ∅) submission0
          = ({[participant0 := submission0]}, {[nonce0]} ∪ ∅, {[key x36]} ∪ ∅)) as ->.
  { unfold admit_step. rewrite admission_runs. cbn [is_ok negb]. rewrite lookup_empty.
    rewrite !bool_decide_eq_false_2; [done | set_solver | set_solver | by intros [? ?]]. }
  assert (forall n r, admit_step policy0 ({[participant0 := submission0]}, n, r) submission0
          = ({[participant0 := submission0]}, n, r)) as ->.
  { intros n r. unfold admit_step. rewrite admission_runs. cbn [is_ok negb].
    rewrite bool_decide_eq_true_2; [done|]. exists submission0. apply lookup_singleton_eq. }
  rewrite map_size_singleton. cbn [Nat.ltb Nat.leb ap_minimum policy0].
  unfold btree_values, btree_list. by rewrite map_to_list_singleton.
Qed.
End submission.
