(* ===== verification/LockRuntime.v ===== *)
(** * A concrete locked batch

    Four traders, a package, one keyper and the on-chain records around it, on stand-ins for the
    hash, the threshold scheme and the clock encoding.  The theorems about locking are
    instantiated on it. *)

From S2P Require Import Runtime.
From S2P Require Import Prelude Bytes Extern ProgramWire ProgramState ProgramInstruction Processor ProcessorProps.
From S2P Require Import BTree Domain Ledger Storage Reservation HostExtern HostCrypto HostCryptoProps HostRuntime.
From S2P Require Import Account LockJournal LockJournalProps Lock LockProps LockWire ConfirmedReads LockSafety LockChain.

(** A stand-in hash: the last 32 bytes of the message, zero padded. *)
Definition tail_hash (l : list byte) : bytes32 := to_arr (drop (length l) (zeros 32 ++ l)).
Definition tail_sha : Sha256 := tail_hash.

(** Ciphertexts are plaintexts behind a pad, so that they end in the trader's signature. *)
Definition pad_threshold : Threshold :=
  {| Ciphertext := list byte; DecryptionShare := unit; PublicKeySet := unit; SecretKeyShare := unit; Randomness := unit;
     ciphertext_verify := fun _ => true;
     ciphertext_serialize := fun c => if length c =? 192 then Some (zeros 152 ++ c) else None;
     ciphertext_deserialize := fun b => Some (drop 152 b);
     keys_serialize := fun _ => Some []; keys_deserialize := fun _ => Some tt; keys_threshold := fun _ => 1;
     share_serialize := fun _ => Some []; share_deserialize := fun _ => Some tt;
     keys_encrypt := fun _ _ m => m; verify_decryption_share := fun _ _ _ _ => true;
     keys_decrypt := fun _ _ c => Some c; decrypt_share := fun _ _ => Some tt;
     keys_public_share := fun _ _ => filled 48 x00; secret_public_share := fun _ => filled 48 x00 |}.

Lemma pad_threshold_laws : @ThresholdLaws pad_threshold.
Proof.
  split; cbn; try done.
  - intros c bytes. destruct (Nat.eqb_spec (length c) 192) as [E|]; [|done]. intros [= <-]. reflexivity.
  - by intros [].
  - by intros [].
Qed.

(** The clock account: five little-endian 64-bit fields, the slot first, the time last. *)
Definition toy_sysvars : Sysvars :=
  {| sysvar_owner_id := key xff;
     clock_deserialize := fun b => if length b =? 40
       then Some {| clk_slot := le_val (slice 0 8 b); clk_unix_timestamp := i64_val (slice 32 40 b) |} else None |}.

Lemma toy_sysvars_laws : @SysvarsLaws toy_sysvars.
Proof.
  split. intros bytes clock. cbn [clock_deserialize toy_sysvars]. destruct (Nat.eqb_spec (length bytes) 40) as [E|]; [|done]. intros [= <-].
  cbn [clk_unix_timestamp]. apply i64_val_range. rewrite length_slice; lia.
Qed.

Section batch.
Local Existing Instances tail_sha toy_solana toy_dalek pad_threshold toy_sysvars.

Definition pool_state0 : PoolStateV1 := new_pool init_accounts init_args.
Definition epoch_state0 : EpochStateV1 := new_epoch pool_key epoch_key pool_state0 create_args.
Definition epoch_rpc0 : RpcAccount := {| ra_owner := ID; ra_data := EpochStateV1_encode epoch_state0 |}.
Definition pool_rpc0 : RpcAccount := {| ra_owner := ID; ra_data := pool_bytes |}.
Definition clock_rpc (slot now : Z) : RpcAccount :=
  {| ra_owner := key xff; ra_data := le_bytes 8 slot ++ zeros 24 ++ le_bytes 8 now |}.

Definition public_keys0 : EpochPublicKeys := {| ek_keys := tt |}.
Definition signed_intent (participant trader : bytes32) : SignedIntentV1 :=
  SignedIntentV1_sign {| ib_side := Buy; ib_lots := 1; ib_limit_price := 100; ib_epoch_id := epoch_id0;
                         ib_participant_id := participant; ib_client_nonce := filled 16 x00 |} trader.
Definition member (participant trader nonce receipt : byte) : EncryptedSubmissionV1 :=
  let authorization := FundedAuthorizationV1_sign
    {| ua_nonce := key nonce; ua_epoch_id := epoch_id0; ua_participant_id := key participant;
       ua_base_atoms := 10; ua_quote_atoms := 100 |} (key trader) operator_key 900 in
  {| es_authorization := authorization;
     es_ciphertext := zeros 152 ++ SignedIntentV1_encode (signed_intent (key participant) (key trader));
     es_receipt := key receipt; es_outer_signature := twice (key trader) |}.
Definition members0 : list EncryptedSubmissionV1 :=
  [member xa1 xb1 xc1 xd1; member xa2 xb2 xc2 xd2; member xa3 xb3 xc3 xd3; member xa4 xb4 xc4 xd4].

Definition balance (participant : byte) (base : Z) : BalanceRecordV1 :=
  {| br_participant_id := key participant; br_base_atoms := base; br_quote_atoms := 100;
     br_reserved_base_atoms := 10; br_reserved_quote_atoms := 100 |}.
Definition balances0 : list BalanceRecordV1 := [balance xa1 11; balance xa2 12; balance xa3 13; balance xa4 14].

Definition snapshot0 : SignedBalanceSnapshotV1 :=
  {| bs_epoch_id := epoch_id0; bs_record_count := 4;
     bs_balance_root := default zero32 (ok (balance_root balances0));
     bs_operator_key := operator_key; bs_signature := twice operator_key |}.
Definition package_of (submissions : list EncryptedSubmissionV1) : LockPackageV1 :=
  {| pk_epoch_account := epoch_key; pk_configuration := epoch_config_of pool_key pool_state0 epoch_state0;
     pk_epoch_public_keys := public_keys0; pk_submissions := submissions; pk_balances := balances0;
     pk_balance_snapshot := snapshot0; pk_pre_balance_root := default zero32 (ok (balance_root balances0));
     pk_member_root := default zero32 (ok (member_root public_keys0 submissions));
     pk_member_count := 4; pk_lock_nonce := key xe1 |}.
Definition package0 : LockPackageV1 := package_of members0.

Definition open0 : ConfirmedOpenEpoch :=
  {| co_epoch_account := epoch_key; co_configuration := epoch_config_of pool_key pool_state0 epoch_state0;
     co_policy := {| ap_epoch_id := epoch_id0; ap_operator_key := operator_key; ap_minimum := 4; ap_base_atoms := 10;
                     ap_quote_atoms := 100; ap_current_slot := 50 |};
     co_current_timestamp := 1500; co_confirmation_slot := 60 |}.

Example snapshot_runs : SignedBalanceSnapshotV1_sign epoch_id0 balances0 operator_key = Ok snapshot0.
Proof. vm_compute. reflexivity. Qed.
Example package_runs :
  LockPackageV1_new epoch_key (epoch_config_of pool_key pool_state0 epoch_state0) public_keys0 members0 balances0
    snapshot0 (key xe1) = Ok package0.
Proof. vm_compute. reflexivity. Qed.
Example open_runs :
  confirmed_open_epoch_from_accounts epoch_key epoch_rpc0 pool_key pool_rpc0 (clock_rpc 50 1500) 60 = Ok open0.
Proof. vm_compute. reflexivity. Qed.
Example validate_runs :
  LockPackageV1_validate package0 open0 = Ok (LockPayloadV1_digest (LockPackageV1_lock_payload package0)).
Proof. vm_compute. reflexivity. Qed.

(** A node that serves these accounts. *)
Definition rpc0 : RpcReplies :=
  {| get_account := fun _ => Some (55%Z, Some epoch_rpc0);
     get_multiple_accounts := fun _ => Some (60%Z, [Some epoch_rpc0; Some pool_rpc0; Some (clock_rpc 50 1500)]) |}.
Example fetch_open_runs : fetch_confirmed_open_epoch rpc0 epoch_key = Ok open0.
Proof. vm_compute. reflexivity. Qed.

(** The keyper with index 0, on a freshly initialised journal. *)
Definition disk0 : LockDisk :=
  {| ld_journal := Some (encode_lock_journal ∅); ld_marker := Some initialization_marker |}.
Definition keyper0 : ReferenceKeyper := {| rk_index := 0; rk_signing_key := key x21; rk_journal := {| lj_records := ∅ |} |}.
Definition secret0 : KeyperSecretShare := {| ks_epoch_account := epoch_key; ks_index := 0; ks_secret := tt |}.
Definition digest0 : bytes32 := LockPayloadV1_digest (LockPackageV1_lock_payload package0).
Definition records0 : LockRecords := {[ epoch_key := digest0 ]}.
Definition disk1 : LockDisk :=
  {| ld_journal := Some (encode_lock_journal records0); ld_marker := Some initialization_marker |}.
Definition keyper1 : ReferenceKeyper := {| rk_index := 0; rk_signing_key := key x21; rk_journal := {| lj_records := records0 |} |}.
Definition approval0 : LockApprovalV1 :=
  {| la_keyper_key := key x21; la_digest := digest0; la_signature := twice (key x21) |}.

Lemma keeps0 : keeps disk0 ∅.
Proof. split; [by eexists|]. eexists. split; [done|]. apply decode_encode_lock_journal. by vm_compute. Qed.

Lemma load0 : load_journal lock_io_fine disk0 = Ok ∅.
Proof. apply load_journal_Ok. split; [done | apply keeps0]. Qed.

Lemma journal_open0 : LockJournal_open lock_io_fine {| ld_journal := None; ld_marker := None |} = (disk0, Ok {| lj_records := ∅ |}).
Proof.
  unfold LockJournal_open. change (JournalFileLock_acquire lock_io_fine) with (@Ok LockValidationError unit tt).
  replace (open_files lock_io_fine {| ld_journal := None; ld_marker := None |})
    with (disk0, @Ok LockValidationError unit tt) by (by vm_compute). by rewrite load0.
Qed.

Lemma record0_runs : LockJournal_record lock_io_fine disk0 {| lj_records := ∅ |} epoch_key digest0 = (disk1, {| lj_records := records0 |}, Ok tt).
Proof.
  unfold LockJournal_record. change (JournalFileLock_acquire lock_io_fine) with (@Ok LockValidationError unit tt).
  change (path_exists (li_journal lock_io_fine) (ld_journal disk0)) with true. cbn [negb]. rewrite load0, lookup_empty.
  unfold persist_journal. rewrite insert_empty.
  change (size ({[epoch_key := digest0]} : LockRecords)) with (size records0).
  rewrite (proj2 (checked_u32_Some _ (Z.of_nat (size records0)))) by (unfold records0; rewrite map_size_singleton; by split).
  reflexivity.
Qed.

Lemma validate_digest0 : LockPackageV1_validate package0 open0 = Ok digest0.
Proof. exact validate_runs. Qed.

Lemma keyper_sign_runs : ReferenceKeyper_sign_lock lock_io_fine disk0 keyper0 package0 open0 secret0 = (disk1, keyper1, Ok approval0).
Proof.
  unfold ReferenceKeyper_sign_lock. cbn zeta.
  change (keyper_list (cfg_keypers (co_configuration open0)) !! Z.to_nat (rk_index keyper0)) with (Some (key x21)).
  cbn [ok_or]. change (verifying_key (rk_signing_key keyper0)) with (key x21).
  replace (EpochPublicKeys_matches_share (pk_epoch_public_keys package0) secret0) with true by (by vm_compute).
  rewrite !bool_decide_eq_true_2 by done. cbn [negb orb]. rewrite validate_digest0.
  change (pk_epoch_account package0) with epoch_key. change (rk_journal keyper0) with {| lj_records := ∅ |}.
  rewrite record0_runs. reflexivity.
Qed.

(** The lock transaction, with two approvals. *)
Definition batch_accounts : list AccountInfo :=
  [signer0 payer_key false; pool_account; epoch_account (EpochStateV1_encode epoch_state0);
   sigs0 [(key x21, digest0); (key x23, digest0)]; clock0 1600].
Definition batch_locked : list AccountInfo := accounts_of (lock ID batch_accounts (LockPackageV1_lock_payload package0)).

Example batch_lock_runs : lock ID batch_accounts (LockPackageV1_lock_payload package0) = Ok batch_locked.
Proof. vm_compute. reflexivity. Qed.

Lemma epoch_state0_wf : EpochStateV1_wf epoch_state0.
Proof. vm_compute. repeat split; discriminate. Qed.

Lemma batch_carries : carries batch_accounts epoch_key epoch_rpc0 pool_key pool_rpc0.
Proof.
  split_and!; try done. apply (bool_decide_unpack _). vm_compute. exact I.
Qed.

Lemma roots_set0 : roots_set package0.
Proof. split_and!; apply (bool_decide_unpack (_ <> _)); vm_compute; exact I. Qed.

Lemma ciphertexts0 : NoDup (map (fun s => sha256 (es_ciphertext s)) (pk_submissions package0)).
Proof. apply (bool_decide_unpack _). vm_compute. exact I. Qed.

(** The share of the third member, released against the locked record. *)
Definition lock0 : ConfirmedLock :=
  {| cl_epoch_account := epoch_key; cl_state := locked_record epoch_state0 package0; cl_pool := Some pool_state0;
     cl_confirmation_slot := 80 |}.
Definition released0 : ReleasedShareV1 :=
  {| rel_epoch_account := epoch_key; rel_lock_digest := digest0; rel_ciphertext_hash := key xb3; rel_index := 0; rel_share := tt |}.

Example release_runs : ReferenceKeyper_release_share keyper1 package0 lock0 secret0 2 = Ok released0.
Proof. vm_compute. reflexivity. Qed.

(** The second trader resubmits the first one's ciphertext under its own authorization. *)
Definition copied_member : EncryptedSubmissionV1 :=
  {| es_authorization := es_authorization (member xa2 xb2 xc2 xd2); es_ciphertext := es_ciphertext (member xa1 xb1 xc1 xd1);
     es_receipt := key xd2; es_outer_signature := twice (key xb2) |}.
Definition copied_package : LockPackageV1 :=
  package_of [member xa1 xb1 xc1 xd1; copied_member; member xa3 xb3 xc3 xd3; member xa4 xb4 xc4 xd4].

Example copied_validates :
  LockPackageV1_validate copied_package open0 = Ok (LockPayloadV1_digest (LockPackageV1_lock_payload copied_package)).
Proof. vm_compute. reflexivity. Qed.

Lemma copied_repeats : ~ NoDup (map (fun s => sha256 (es_ciphertext s)) (pk_submissions copied_package)).
Proof. apply (bool_decide_unpack (~ _)). vm_compute. exact I. Qed.
End batch.
