(* ===== verification/HostClaims.v ===== *)
(** * Properties of the host crate

    Netting, commitments, codecs, admission, the durable journals and their coupling, each with
    an instance on the concrete host. *)

From S2P Require Import Runtime.
From S2P Require Import Prelude Bytes Extern ProgramState BTree Domain Ledger Commitment Storage.
From S2P Require Import Reservation ReservationProps HostExtern Account AccountProps HostCrypto HostCryptoProps.
From S2P Require Import Suspension Dealer HostRuntime.

(** ** Netting, commitments and codecs *)

(** C6 (refinement). Netting implements its specification: [net_batch] returns a result exactly
    when the batch is nonempty, has one order per participant and every order is funded on both
    sides, within its limit and free of overflow, and the result is then the declarative one. *)
Theorem net_batch_refines config before orders r :
  batch_wf config before orders ->
  net_batch config before orders = Ok r <->
  orders <> [] /\ NoDup (map fo_participant_id orders) /\ Forall (fillable config before) orders /\
  r = batch_of config before orders.
Proof. apply net_batch_Ok. Qed.

(** Netting conserves value: the participants' totals change by exactly the vault
    delta, both legs of which are the signed residual at the epoch price, every balance stays in
    range, and the internal conservation error is never returned. *)
Theorem net_batch_conserves config before orders :
  batch_wf config before orders ->
  net_batch config before orders <> Err LedgerError.ConservationFailed /\
  forall r, net_batch config before orders = Ok r ->
    (total base_atoms (balances r) = total base_atoms before + vd_base_atoms (vault_delta r) /\
     total quote_atoms (balances r) = total quote_atoms before + vd_quote_atoms (vault_delta r) /\
     vd_base_atoms (vault_delta r) = net_lots orders * bc_base_lot_atoms config /\
     vd_quote_atoms (vault_delta r) = - (net_lots orders * bc_quote_atoms_per_lot config))%Z /\
    residual r = residual_of (net_lots orders) /\ map_Forall (fun _ b => balance_ok b) (balances r).
Proof.
  intros HW. split; [by apply net_batch_no_conservation_failure|]. intros r HN.
  apply (net_batch_Ok _ _ _ _ HW) in HN as (_ & Hnd & HF & ->). cbn [balances vault_delta residual batch_of vd_base_atoms vd_quote_atoms].
  assert (Forall (fun o => is_Some (before !! fo_participant_id o)) orders) as Hk
    by (revert HF; apply Forall_impl; intros o (b & -> & _); eauto).
  pose proof HW as (W1 & W2 & W3 & _). split_and!; try done; [| | by apply settle_balances_ok].
  - rewrite (total_settle base_atoms config orders before); [cbn; unfold net_lots; lia | intros []; cbn; lia | intros []; cbn; lia | done | done].
  - rewrite (total_settle quote_atoms config orders before); [cbn; unfold net_lots; lia | intros []; cbn; lia | intros []; cbn; lia | done | done].
Qed.

(** A content root commits to its leaves: it ignores their order, it exists exactly
    when no two leaves hash alike, and two equal roots have the same domain and the same leaves
    unless two different messages that were hashed collide. *)
Theorem content_root_commits `{Sha256} d1 d2 l1 l2 :
  (forall l, l1 ≡ₚ l -> content_root d1 l1 = content_root d1 l) /\
  (content_root d1 l1 = Err DuplicateLeaf <-> ~ NoDup (leaf_hashes d1 l1)) /\
  (forall r, content_root d1 l1 = Ok r -> content_root d2 l2 = Ok r ->
     (d1 = d2 /\ l1 ≡ₚ l2) \/
     exists m1 m2, m1 ∈ hashed d1 l1 /\ m2 ∈ hashed d2 l2 /\ m1 <> m2 /\ sha256 m1 = sha256 m2).
Proof.
  split_and!; [apply content_root_perm | apply content_root_Err | apply content_root_binding].
Qed.

(** The intent decoder is exact: it accepts only the encodings of valid intents, all
    of them, and every refusal names the first check that fails. *)
Theorem intent_decode_exact bytes :
  (forall b, IntentBodyV1_wf b -> IntentBodyV1_decode (IntentBodyV1_encode b) = Ok b) /\
  match IntentBodyV1_decode bytes with
  | Ok b => IntentBodyV1_wf b /\ IntentBodyV1_encode b = bytes
  | Err (InvalidIntentLength n) => n = length bytes /\ n <> 128
  | Err (InvalidVersion v) => length bytes = 128 /\ v = u8_at 0 bytes /\ v <> 1%Z
  | Err NonZeroPadding => length bytes = 128 /\ u8_at 0 bytes = 1%Z /\ slice 94 128 bytes <> zeros 34
  | Err (InvalidSide v) => length bytes = 128 /\ v = u8_at 1 bytes /\ v <> 0%Z /\ v <> 1%Z
  | Err (InvalidLots v) => length bytes = 128 /\ v = le_val (slice 2 6 bytes) /\ v <> 1%Z
  | Err InvalidLimitPrice => length bytes = 128 /\ le_val (slice 6 14 bytes) = 0%Z
  end.
Proof. split; [apply IntentBodyV1_decode_encode | apply IntentBodyV1_decode_total]. Qed.

(** Authorizations, signed intents and encrypted submissions and their wire bytes
    determine each other: decoding accepts exactly the encodings of well-formed values. *)
Theorem submission_codecs_exact `{Sha256} `{Dalek} `{Threshold} :
  (forall bytes a, FundedAuthorizationV1_decode bytes = Ok a <-> authorization_wf a /\ FundedAuthorizationV1_encode a = bytes) /\
  (forall bytes s, SignedIntentV1_decode bytes = Ok s <-> IntentBodyV1_wf (si_body s) /\ SignedIntentV1_encode s = bytes) /\
  (forall bytes s, EncryptedSubmissionV1_decode_wire bytes = Ok s <->
     submission_wf s /\ EncryptedSubmissionV1_encode_wire s = bytes).
Proof.
  split_and!; intros bytes x; split.
  - apply authorization_encode_decode.
  - intros [HW <-]. by apply authorization_decode_encode.
  - apply signed_intent_encode_decode.
  - intros [HW <-]. by apply signed_intent_decode_encode.
  - apply submission_encode_decode.
  - intros [HW <-]. by apply submission_decode_encode.
Qed.

(** ** Admission and recovery *)

(** C21 (safety). An admitted batch meets its policy: at least the minimum of members, every one
    taken from the submissions and signed by operator and trader over this epoch and these
    amounts, no participant, nonce or receipt twice, in participant order. *)
Theorem admitted_batch_meets_policy `{Sha256} `{Dalek} `{Threshold} policy submissions batch :
  admit_batch submissions policy = Ok batch ->
  ap_minimum policy <= AdmittedBatch_member_count batch /\
  Forall (fun s => s ∈ submissions /\ admissible policy s) (ab_members batch) /\
  NoDup (AdmittedBatch_participant_ids batch) /\
  NoDup (map (fun s => fa_nonce (es_authorization s)) (ab_members batch)) /\
  NoDup (map es_receipt (ab_members batch)) /\
  StronglySorted arr_le (AdmittedBatch_participant_ids batch).
Proof. apply admit_batch_sound. Qed.

(** Admission drops nobody it should keep: when the submissions that verify have
    distinct nonces and receipts, a batch is admitted exactly when they name at least the minimum
    of participants, and it then contains all of these participants. *)
Theorem admission_complete `{Sha256} `{Dalek} `{Threshold} policy submissions :
  NoDup (map (fun s => fa_nonce (es_authorization s)) (passing policy submissions)) ->
  NoDup (map es_receipt (passing policy submissions)) ->
  let participants : gset bytes32 := list_to_set (map EncryptedSubmissionV1_participant_id (passing policy submissions)) in
  (is_ok (admit_batch submissions policy) = true <-> ap_minimum policy <= size participants) /\
  forall batch, admit_batch submissions policy = Ok batch ->
    list_to_set (AdmittedBatch_participant_ids batch) = participants.
Proof.
  intros HN HR participants. destruct (fold_left (admit_step policy) submissions (∅, ∅, ∅)) as [[valid nonces] receipts] eqn:EF.
  pose proof (admit_valid_dom _ _ _ _ _ EF HN HR) as HD. fold participants in HD.
  unfold admit_batch. rewrite EF. rewrite <- HD, size_dom. split.
  - destruct (Nat.ltb_spec (size valid) (ap_minimum policy)); cbn; split; (done || lia).
  - intros batch E. apply guard_Ok in E as [_ E]. apply Ok_inj in E as <-. by apply admit_members_dom with policy submissions nonces receipts.
Qed.

(** C22 (functional). Two shares open an intent and fewer do not: any two or more verifying shares
    with distinct indices recover exactly the encrypted intent, and whatever is recovered came
    from at least two such shares and is a valid intent. *)
Theorem recovery_needs_two_shares `{Sha256} `{Dalek} `{Threshold} `{!ThresholdLaws} k encrypted shares :
  (forall rnd intent, keys_threshold (ek_keys k) = 1 -> IntentBodyV1_wf (si_body intent) ->
     EpochPublicKeys_encrypt k rnd intent = Ok encrypted -> 2 <= length shares -> NoDup (map rel_index shares) ->
     Forall (share_verifies k (ei_ciphertext encrypted)) shares ->
     EpochPublicKeys_recover k encrypted shares = Ok intent) /\
  (forall intent, EpochPublicKeys_recover k encrypted shares = Ok intent ->
     2 <= length shares /\ NoDup (map rel_index shares) /\
     Forall (share_verifies k (ei_ciphertext encrypted)) shares /\ IntentBodyV1_wf (si_body intent)).
Proof. split; [intros; by eapply recover_opens | apply recover_needs]. Qed.

(** C27 (liveness). Whatever an epoch's dealer dealt works: any two keypers with different indices, each
    holding only its own share, release shares for an intent encrypted to the dealer's public keys;
    each released share verifies for the submission that carries the ciphertext, and the two together
    recover exactly the intent that was encrypted. *)
Theorem dealt_shares_recover `{Sha256} `{Dalek} `{Threshold} `{!ThresholdLaws} `{!SecretSets} `{!SecretSetsLaws}
    entropy dealer rnd intent encrypted submission epoch digest i j :
  let keys := EpochDealer_public_keys dealer in
  let release index := KeyperSecretShare_release (EpochDealer_share dealer epoch index) epoch digest (es_ciphertext submission) in
  EpochDealer_random entropy = Ok dealer -> IntentBodyV1_wf (si_body intent) -> EpochPublicKeys_encrypt keys rnd intent = Ok encrypted ->
  es_ciphertext submission = ei_encoded encrypted -> i <> j ->
  EpochPublicKeys_matches_share keys (EpochDealer_share dealer epoch i) = true /\
  exists a b, release i = Ok a /\ release j = Ok b /\ ReleasedShareV1_verify a keys submission = true /\
    ReleasedShareV1_verify b keys submission = true /\ EpochPublicKeys_recover_submission keys submission [a; b] = Ok intent.
Proof.
  intros keys release HD HW HE Hs Hij. unfold release. pose proof (dealt_threshold _ _ HD) as [Hk Ht].
  pose proof (decode_encode_ciphertext _ _ HE) as Hd. rewrite <- Hs in Hd.
  destruct (dealt_share_releases _ _ epoch digest i _ _ HD Hd) as (a & Ha & Ia & Ea & Da & Ca & Va).
  destruct (dealt_share_releases _ _ epoch digest j _ _ HD Hd) as (b & Hb & Ib & Eb & Db & Cb & Vb). split.
  { unfold EpochPublicKeys_matches_share, keys, EpochDealer_public_keys. rewrite Hk. apply bool_decide_eq_true, secrets_share_public. }
  exists a, b. split_and!; try done.
  - unfold ReleasedShareV1_verify. rewrite Ca, bool_decide_eq_true_2, Hd by done. exact Va.
  - unfold ReleasedShareV1_verify. rewrite Cb, bool_decide_eq_true_2, Hd by done. exact Vb.
  - unfold EpochPublicKeys_recover_submission. cbn [existsb]. rewrite Ea, Eb, Da, Db, Ca, Cb, !bool_decide_eq_true_2 by done. cbn [negb orb].
    rewrite Hd. cbn [mbind result_bind]. eapply recover_opens; try done.
    + cbn [map]. rewrite Ia, Ib. apply list.NoDup_cons. split; [set_solver | apply NoDup_singleton].
    + by repeat constructor.
Qed.

(** ** Durable journals *)

(** C32 (bounds). A journal lock is asked for at most a hundred times, and what the caller gets is
    determined: the lock is granted exactly when the lock file opens and one of the first hundred
    attempts succeeds with every earlier one told to try again; the journal is reported busy exactly
    when opening the lock file says so or all hundred attempts do; and any other error is reported
    exactly when the lock file fails to open with it, or one of the hundred attempts fails with it
    after attempts that were told to try again. *)
Theorem lock_attempts_bounded io :
  let again_before k := forall j, j < k -> io_try_lock io j = Some WouldBlock in
  (acquire_journal_lock io = Ok tt <->
   io_open_lock io = None /\ exists k, k < 100 /\ io_try_lock io k = None /\ again_before k) /\
  (acquire_journal_lock io = Err JournalError.Busy <->
   io_open_lock io = Some WouldBlock \/ io_open_lock io = None /\ again_before 100) /\
  (forall e, acquire_journal_lock io = Err (JournalError.Io e) <->
   e <> WouldBlock /\ (io_open_lock io = Some e \/
     io_open_lock io = None /\ exists k, k < 100 /\ io_try_lock io k = Some e /\ again_before k)).
Proof.
  cbv zeta. unfold acquire_journal_lock, AdvisoryLock_acquire.
  pose proof (fun e => lock_loop_Err (io_try_lock io) 0 LOCK_ATTEMPTS e) as HE.
  pose proof (lock_loop_Ok (io_try_lock io) 0 LOCK_ATTEMPTS tt) as HO. unfold again in HE. cbn [Nat.add] in HE, HO.
  change LOCK_ATTEMPTS with 100 in HE, HO |- *.
  destruct (io_open_lock io) as [e0|].
  { cbn [map_err]. case_bool_decide; subst; split_and!; naive_solver. }
  destruct (lock_loop (io_try_lock io) 0 100) as [[]|e0]; cbn [map_err].
  - split_and!; [naive_solver | |].
    + split; [done|]. intros [?|[_ HA]]; [done|]. discriminate (proj2 (HE WouldBlock) (or_introl (conj eq_refl HA))).
    + intros e. split; [done|]. intros (Hne & [?|[_ HA]]); [done|]. discriminate (proj2 (HE e) (or_intror (conj Hne HA))).
  - split_and!; [naive_solver | |].
    + case_bool_decide as E0; [subst e0|].
      * split; [|done]. intros _. right. split; [done|]. by destruct (proj1 (HE WouldBlock) eq_refl) as [[_ HA]|[? _]].
      * split; [done|]. intros [?|[_ HA]]; [done|]. destruct E0. by injection (proj2 (HE WouldBlock) (or_introl (conj eq_refl HA))).
    + intros e. case_bool_decide as E0.
      * subst e0. split; [done|]. intros (Hne & [?|[_ HA]]); [done|].
        injection (proj2 (HE e) (or_intror (conj Hne HA))). congruence.
      * split.
        -- intros [= <-]. split; [done|]. right. split; [done|]. by destruct (proj1 (HE e0) eq_refl) as [[? _]|[_ HA]].
        -- intros (Hne & [?|[_ HA]]); [done|]. by injection (proj2 (HE e) (or_intror (conj Hne HA))) as ->.
Qed.

(** C33 (roundtrip). What a journal writes it reads back, and a write that fails leaves the old
    file or the complete new one: for every behaviour of the file system and each of the three
    journals, success implies the new contents are read back. *)
Theorem journals_durable `{Sha256} `{Dalek} io file :
  (forall m, table_ok m -> let '(file', r) := persist_records io file m in
     (r <> Ok tt /\ file' = file) \/ load_records io_fine file' = Ok m) /\
  (forall m a, ledger_ok m a -> let '(file', r) := persist io file m a in
     (r <> Ok tt /\ file' = file) \/ load io_fine file' = Ok (m, a)) /\
  (forall m, keys_ok m -> let '(file', r) := persist_suspensions io file m in
     (r <> Ok tt /\ file' = file) \/ load_suspensions io_fine file' = Ok m).
Proof.
  split_and!.
  - intros m Hm. destruct (persist_records io file m) as [file' r] eqn:E. apply persist_records_cases in E as [[-> ?]|[-> _]]; [by left|].
    right. apply load_records_Ok. split; [done | by apply represents_encode].
  - intros m a Hm. destruct (persist io file m a) as [file' r] eqn:E. apply persist_cases in E as [[-> ?]|[-> _]]; [by left|].
    right. apply load_Ok. split; [done | by apply holds_encode].
  - intros m Hm. destruct (persist_suspensions io file m) as [file' r] eqn:E. apply persist_suspensions_cases in E as [[-> ?]| ->]; [by left|].
    right. apply load_suspensions_Ok. split; [done | by apply lists_encode].
Qed.

(** C19 (invariant). A reservation is spent once: along any run of journal operations by any number of
    handles, with any failures of the system calls, the file stays readable, a recorded reservation
    keeps nonce, epoch, participant and amounts, and one that is used or released never changes
    again, unless one of the steps of the run is an opening that could not read the metadata of the
    existing file and wrote an empty journal over it.  Such an opening does erase a nonempty journal
    whenever its other calls succeed. *)
Theorem reservations_spent_once `{Sha256} j l m :
  run journal_step j l -> represents (rj_file j) m ->
  exists m', represents (rj_file (final j l)) m' /\
    ((forall n r, m !! n = Some r -> exists r', m' !! n = Some r' /\ r' = with_state r (rr_state r') /\
        (rr_state r <> ReservationState.Reserved -> r' = r)) \/
     occurs journal_erased j l) /\
    (forall io, io_metadata io <> None -> acquire_journal_lock io = Ok tt -> io_write io = Written -> m' <> ∅ ->
       journal_erased (final j l) {| rj_file := fst (ReservationJournal_open io (rj_file (final j l)));
                                     rj_records := rj_records (final j l) |}).
Proof.
  intros HS HR. destruct (journal_run_settled _ _ _ HS HR) as (m' & HR' & HC). exists m'. split_and!; [done | exact HC|].
  intros io HM HL HW Hne. exists io. cbn [rj_file]. rewrite open_blind by done. split_and!; try done.
  intros E. apply Hne, (represents_fun _ _ _ HR'). rewrite <- E. apply represents_empty.
Qed.

(** C34 (bounds). Reservations never exceed the balance: with the file system working, a
    reservation is granted exactly when its nonce is new and the participant's live reservations
    with it fit in the available balance, it is then durable, and the live total is within the
    balance. *)
Theorem reserve_within_balance `{Sha256} io j record available m :
  io_succeeds io -> represents (rj_file j) m -> (Z.of_nat (size m) + 1 < 2 ^ 32)%Z ->
  record_wf record -> rr_state record = ReservationState.Reserved -> balance_ok available ->
  let p := rr_participant_id record in
  let '(j', r) := ReservationJournal_reserve io j record available in
  (is_ok r = true <->
   m !! rr_nonce record = None /\
   (live_total rr_base_atoms p m + rr_base_atoms record <= base_atoms available)%Z /\
   (live_total rr_quote_atoms p m + rr_quote_atoms record <= quote_atoms available)%Z) /\
  (is_ok r = false -> j' = j) /\
  (is_ok r = true -> exists m', represents (rj_file j') m' /\ m' = <[rr_nonce record := record]> m /\
     (live_total rr_base_atoms p m' <= base_atoms available)%Z /\
     (live_total rr_quote_atoms p m' <= quote_atoms available)%Z).
Proof.
  intros HI HR Hsz HW Hs HA p. destruct (represents_ok _ _ HR) as [Hm _].
  pose proof (reserve_operation_Ok record available m (<[rr_nonce record := record]> m) Hm HW HA) as HO.
  destruct (reserve_operation record available m) as [m'|e] eqn:EO.
  - pose proof (proj1 (reserve_operation_Ok record available m m' Hm HW HA) EO) as (Hn & Hb & Hq & ->).
    rewrite (reserve_succeeds _ _ _ _ _ _ HI HR EO) by (rewrite map_size_insert_None by done; lia).
    assert (table_ok (<[rr_nonce record := record]> m)) as HT.
    { split; [by apply map_Forall_insert_2 | rewrite map_size_insert_None by done; lia]. }
    split_and!; [done | done |]. intros _. exists (<[rr_nonce record := record]> m).
    split_and!; [by apply represents_encode | done | |]; rewrite live_total_insert by done; unfold live_of;
      rewrite !bool_decide_eq_true_2 by done; cbn [andb]; fold p in Hb, Hq; lia.
  - rewrite (reserve_refuses _ _ _ _ _ _ HI HR EO). split_and!; [|done | done]. split; [done|]. intros HC.
    discriminate (proj2 HO). by destruct HC as (? & ? & ?).
Qed.

(** C13 (safety). Finalizing applies the settlement first and consumes the reservations last: for every
    behaviour of the file system one call has one of three outcomes.  Neither file changes and an error
    is reported; or the accounts hold the settlement, the reservations are untouched and an error is
    reported; or the accounts hold the settlement and the reservations are all consumed.  In the last
    two the reservations were exactly the members' live or used reservations of this epoch, and used
    ones are accepted only when this very settlement was applied before. *)
Theorem finalize_settlement_atomic `{Sha256} `{Dalek} io accounts reservations e r nonces m a t :
  result_ok r -> holds (aj_file accounts) m a -> represents (rj_file reservations) t ->
  let '(accounts', reservations', out) := finalize_settlement io accounts reservations e r nonces in
  (holds (aj_file accounts') m a /\ represents (rj_file reservations') t /\ out <> Ok tt) \/
  finalizable e (dom (balances r)) nonces t /\
  (any_used t nonces = true -> a !! e = Some (settlement_digest r) /\ at_settlement e (balances r) m) /\
  exists m' a', settlement_operation e r m a = Ok (m', a') /\ holds (aj_file accounts') m' a' /\
    ((represents (rj_file reservations') t /\ out <> Ok tt) \/
     represents (rj_file reservations') (advance_all ReservationState.Used nonces t)).
Proof.
  intros HR HH HT. destruct (finalize_settlement io accounts reservations e r nonces) as [[acc res] out] eqn:EF.
  by eapply finalize_settlement_cases.
Qed.

(** C12 (liveness). A finalization survives crashes: after any number of attempts cut short anywhere,
    one attempt in which the calls succeed completes, with the settlement applied exactly once and
    every reservation consumed. *)
Theorem finalize_settlement_recovers `{Sha256} `{Dalek} e r nonces m a t p p' io :
  ready e r nonces m a t -> at_stage e r nonces m a t Fresh p -> rtc (attempt e r nonces) p p' -> settle_io_succeeds io ->
  exists accounts' reservations',
    finalize_settlement io (fst p') (snd p') e r nonces = (accounts', reservations', Ok tt) /\
    holds (aj_file accounts') (settle_accounts e (balances r) m) (<[e := settlement_digest r]> a) /\
    represents (rj_file reservations') (advance_all ReservationState.Used nonces t).
Proof.
  intros HR HP HA HI. destruct (attempts_stage _ _ _ _ _ _ _ _ _ HR HA HP) as (s & _ & Hs).
  destruct (attempt_succeeds _ _ _ _ _ _ _ _ _ HR Hs HI) as (acc & res & EF & Hst). exists acc, res. by destruct Hst.
Qed.

(** C14 (safety). Settlement and release exclude each other: after any run of openings, registrations,
    finalizations, releases and reservation updates with any failures, an epoch whose settlement was
    applied before the run is not released, unless the run erased the accounts by an opening that could
    not read their metadata; and a batch that names a reservation released before the run is not
    finalized, unless the run so erased the reservations.  The refused call changes neither file. *)
Theorem settlement_excludes_release `{Sha256} `{Dalek} p l m a t :
  run pair_step p l -> holds (aj_file (fst p)) m a -> represents (rj_file (snd p)) t ->
  let accounts := fst (final p l) in let reservations := snd (final p l) in
  exists m' a' t', holds (aj_file accounts) m' a' /\ represents (rj_file reservations) t' /\
    ((forall io terminal nonces accounts' reservations' out,
        is_Some (a !! ct_epoch_id terminal) ->
        release_reservations io accounts reservations terminal nonces = (accounts', reservations', out) ->
        out <> Ok tt /\ holds (aj_file accounts') m' a' /\ represents (rj_file reservations') t') \/
     occurs accounts_erased p l) /\
    ((forall io e r nonces n rec accounts' reservations' out,
        result_ok r -> n ∈ nonces -> t !! n = Some rec -> rr_state rec = ReservationState.Released ->
        finalize_settlement io accounts reservations e r nonces = (accounts', reservations', out) ->
        out <> Ok tt /\ holds (aj_file accounts') m' a' /\ represents (rj_file reservations') t') \/
     occurs reservations_erased p l).
Proof.
  intros HS HH HT. cbv zeta. destruct (pair_run_keeps _ _ _ _ _ HS HH HT) as (m' & a' & t' & HH' & HT' & Ha & Ht).
  exists m', a', t'. split_and!; try done.
  - destruct Ha as [Ha|?]; [left | by right]. intros io terminal nonces acc res out [d Hd] EF.
    destruct (release_reservations_cases _ _ _ _ _ _ _ _ _ _ _ HH' HT' EF) as [Hacc [[? ?]|(Hn & _)]]; [done|].
    pose proof (lookup_weaken _ _ _ _ Hd Ha). congruence.
  - destruct Ht as [Ht|?]; [left | by right]. intros io e r nonces n rec acc res out HR Hin Hrec Hst EF.
    destruct (Ht n rec Hrec) as (rec' & Hrec' & _ & Hsame).
    pose proof (finalize_settlement_cases _ _ _ _ _ _ _ _ _ _ _ _ HR HH' HT' EF) as [(? & ? & ?)|((HB & _) & _)]; [done|].
    exfalso. destruct HB as [_ HB]. rewrite list.Forall_forall in HB. destruct (HB n Hin) as (r0 & Hr0 & _ & Hne).
    rewrite Hrec' in Hr0. injection Hr0 as <-. apply Hne. rewrite Hsame; [done|]. by rewrite Hst.
Qed.

(** C40 (type). Both files of the coordinator stay typed: start from files that are missing or readable;
    after any run of openings, registrations, finalizations, releases and reservation updates, whatever
    system calls fail, a file that existed exists, and an undisturbed read of an existing file succeeds:
    every account is stored under its own nonzero identifier with a decodable key and a nonempty balance
    within 64 bits, every reservation under its own nonce with valid fields, and the tables fit their
    32-bit counts. *)
Theorem coordinator_files_typed `{Sha256} `{Dalek} p l :
  run pair_step p l ->
  (aj_file (fst p) = None \/ exists m a, holds (aj_file (fst p)) m a) ->
  (rj_file (snd p) = None \/ exists t, represents (rj_file (snd p)) t) ->
  forall io, io_read io = None ->
  let accounts := aj_file (fst (final p l)) in let reservations := rj_file (snd (final p l)) in
  ((aj_file (fst p) = None /\ accounts = None) \/
   exists m a, load io accounts = Ok (m, a) /\
     map_Forall (fun k r => ar_participant_id r = k /\ account_wf r) m /\ map_Forall (fun e d => e <> zero32 /\ d <> zero32) a /\
     u32_ok (Z.of_nat (size m)) /\ u32_ok (Z.of_nat (size a))) /\
  ((rj_file (snd p) = None /\ reservations = None) \/
   exists t, load_records io reservations = Ok t /\
     map_Forall (fun k r => rr_nonce r = k /\ record_wf r) t /\ u32_ok (Z.of_nat (size t))).
Proof.
  intros HS HA HT io HI accounts reservations.
  destruct (pair_run_stays p (final p l) (run_rtc _ _ _ HS)) as [HA' HT'].
  { split; [destruct HA as [?|?] | destruct HT as [?|?]]; [by right | by left | by right | by left]. }
  fold accounts in HA'. fold reservations in HT'. split.
  - destruct HA' as [(m & a & HH)|?]; [right | by left]. exists m, a. rewrite load_Ok.
    destruct (holds_ok _ _ _ HH) as (? & ? & ? & ?). unfold u32_ok. split_and!; done || lia.
  - destruct HT' as [(t & HR)|?]; [right | by left]. exists t. rewrite load_records_Ok.
    destruct (represents_ok _ _ HR) as [? ?]. unfold u32_ok. split_and!; done || lia.
Qed.

(** The stored digest of a settlement determines it: two settlements with the same
    digest have the same balances before and after, unless the hash collides on two different
    messages. *)
Theorem settlement_digest_binds `{Sha256} r1 r2 :
  balances_ok (before_balances r1) -> balances_ok (balances r1) ->
  balances_ok (before_balances r2) -> balances_ok (balances r2) ->
  settlement_digest r1 = settlement_digest r2 ->
  (before_balances r1 = before_balances r2 /\ balances r1 = balances r2) \/
  (settlement_preimage r1 <> settlement_preimage r2 /\ sha256 (settlement_preimage r1) = sha256 (settlement_preimage r2)).
Proof.
  intros B1 A1 B2 A2 E. destruct (decide (settlement_preimage r1 = settlement_preimage r2)) as [Ep|Ep]; [|by right].
  left. by apply settlement_preimage_inj.
Qed.

(** C35 (error). A retry overtaken by a later settlement of one of its members is refused: when the
    epoch is recorded as applied but some member's account has moved on, finalizing changes neither
    file and reports an error, and releasing the same reservations is refused as well. *)
Theorem overtaken_retry_refused `{Sha256} `{Dalek} io accounts reservations e r nonces terminal m a t d :
  ct_epoch_id terminal = e -> result_ok r -> holds (aj_file accounts) m a -> represents (rj_file reservations) t ->
  a !! e = Some d -> ~ at_settlement e (balances r) m ->
  (let '(accounts', reservations', out) := finalize_settlement io accounts reservations e r nonces in
   out <> Ok tt /\ holds (aj_file accounts') m a /\ represents (rj_file reservations') t) /\
  (let '(accounts', reservations', out) := release_reservations io accounts reservations terminal nonces in
   out <> Ok tt /\ holds (aj_file accounts') m a /\ represents (rj_file reservations') t).
Proof.
  intros <- HR HH HT Ha Hat. set (e := ct_epoch_id terminal) in *. split.
  - destruct (finalize_settlement io accounts reservations e r nonces) as [[acc res] out] eqn:EF. by eapply finalize_overtaken.
  - destruct (release_reservations io accounts reservations terminal nonces) as [[acc res] out] eqn:EF.
    destruct (release_reservations_cases _ _ _ _ _ _ _ _ _ _ _ HH HT EF) as [Hacc [[? ?]|(Hn & _)]]; [done|].
    subst e. congruence.
Qed.

(** A suspension is permanent: once a key is listed, no later run of the registry, by
    any handle and with any failures, lets the issuer sign an authorization for it, unless the run
    erased the registry by an opening that could not read its metadata. *)
Theorem suspension_permanent `{Sha256} `{Dalek} io j l m trading_key reserved operator expiry_slot :
  run registry_step j l -> lists (sr_file j) m -> is_Some (m !! trading_key) ->
  is_ok (SuspensionRegistry_issue_authorization io (final j l) reserved trading_key operator expiry_slot) = false \/
  occurs registry_erased j l.
Proof.
  intros HS HL [u Hu]. destruct (registry_run_keeps _ _ _ HS HL) as (m' & HL' & [Hsub|?]); [left | by right].
  unfold SuspensionRegistry_issue_authorization. destruct (acquire_suspension_lock io) as [?|?]; [|done]. cbn [mbind result_bind].
  destruct (load_suspensions io (sr_file (final j l))) as [m0|?] eqn:EL; [|done]. cbn [mbind result_bind].
  apply load_suspensions_Ok in EL as [_ EL]. rewrite (lists_fun _ _ _ EL HL').
  by rewrite bool_decide_eq_true_2 by (exists u; by eapply lookup_weaken).
Qed.

(** ** Instances *)

Section witnesses.
Local Existing Instances toy_sha toy_dalek toy_threshold toy_dalek_laws toy_threshold_laws.

Lemma net_batch_refines_witness : Forall (fillable config0 before0) [order0].
Proof. exact (proj1 (proj2 (proj2 (proj1 (net_batch_refines config0 before0 [order0] result0 batch0_wf) net_batch0)))). Defined.

Lemma net_batch_conserves_witness :
  (total base_atoms (balances result0) = total base_atoms before0 + vd_base_atoms (vault_delta result0))%Z.
Proof. exact (proj1 (proj1 (proj2 (net_batch_conserves config0 before0 [order0] batch0_wf) result0 net_batch0))). Defined.

Lemma admitted_batch_meets_policy_witness : NoDup (AdmittedBatch_participant_ids {| ab_members := [submission0] |}).
Proof. exact (proj1 (proj2 (proj2 (admitted_batch_meets_policy policy0 _ _ admit_runs)))). Defined.

Lemma admission_complete_witness : is_ok (admit_batch [submission0] policy0) = true.
Proof.
  assert (passing policy0 [submission0] = [submission0]) as HP by (rewrite passing_cons, admission_runs; done).
  destruct (admission_complete policy0 [submission0]) as [HI _].
  - rewrite HP. apply NoDup_singleton.
  - rewrite HP. apply NoDup_singleton.
  - apply HI. rewrite HP. cbn. rewrite (right_id_L ∅ (∪)), size_singleton. reflexivity.
Defined.

Lemma recovery_needs_two_shares_witness : EpochPublicKeys_recover keys0 encrypted0 [share0 1; share0 2] = Ok intent0.
Proof.
  apply (proj1 (recovery_needs_two_shares keys0 encrypted0 [share0 1; share0 2]) tt intent0).
  - reflexivity.
  - split; [reflexivity | split; [unfold u64_ok; cbn; lia | discriminate]].
  - exact encrypt_runs.
  - reflexivity.
  - apply list.NoDup_cons. split; [set_solver | apply NoDup_singleton].
  - repeat constructor.
Defined.

Definition toy_secrets : SecretSets :=
  {| SecretKeySet := unit; secrets_try_random := fun t _ => if t =? 1 then Some tt else None; secrets_public_keys := fun _ => tt; secrets_share := fun _ _ => tt |}.

Lemma dealt_shares_recover_witness :
  exists a b, EpochPublicKeys_recover_submission keys0 submission0 [a; b] = Ok intent0.
Proof.
  assert (@SecretSetsLaws toy_threshold toy_secrets) as HL.
  { constructor; [|reflexivity]. intros t seed s E. cbn in *. by destruct (Nat.eqb_spec t 1). }
  destruct (@dealt_shares_recover _ _ _ _ toy_secrets HL (Some zero32) {| ed_secrets := (tt : @SecretKeySet _ toy_secrets); ed_public := keys0 |} tt intent0 encrypted0
    submission0 (key x37) (key x38) 0%Z 1%Z) as (_ & a & b & _ & _ & _ & _ & HR).
  - reflexivity.
  - split; [reflexivity | split; [unfold u64_ok; cbn; lia | discriminate]].
  - exact encrypt_runs.
  - reflexivity.
  - discriminate.
  - exists a, b. exact HR.
Defined.

(** A crashed release, then an opening that cannot see the journal: readable, and recognised as erased. *)
Definition io_blind : Io :=
  {| io_open_lock := None; io_try_lock := fun _ => None; io_metadata := Some (OtherKind 5); io_read := None; io_write := Written |}.

Lemma reservations_spent_once_witness :
  let j1 := fst (ReservationJournal_release io_fine reservation_journal0 nonce0) in
  exists m', represents (rj_file (final reservation_journal0 [j1])) m' /\
    (m' <> ∅ -> journal_erased j1 {| rj_file := fst (ReservationJournal_open io_blind (rj_file j1)); rj_records := rj_records j1 |}).
Proof.
  cbv zeta.
  destruct (reservations_spent_once reservation_journal0 [fst (ReservationJournal_release io_fine reservation_journal0 nonce0)]
    reservations0) as (m' & HR & _ & HE).
  - split; [apply step_release | exact I].
  - exact represents0.
  - exists m'. split; [exact HR|]. intros Hne. apply (HE io_blind); [discriminate | reflexivity | reflexivity | exact Hne].
Defined.

Lemma reserve_within_balance_witness :
  is_ok (snd (ReservationJournal_reserve io_fine {| rj_file := Some (encode_records ∅); rj_records := ∅ |} record0
               {| base_atoms := 10; quote_atoms := 10 |})) = true.
Proof.
  pose proof (reserve_within_balance io_fine {| rj_file := Some (encode_records ∅); rj_records := ∅ |} record0
    {| base_atoms := 10; quote_atoms := 10 |} ∅ io_fine_succeeds) as HW.
  destruct (ReservationJournal_reserve _ _ _ _) as [j' r]. apply HW.
  - apply represents_encode. split; [apply map_Forall_empty | reflexivity].
  - reflexivity.
  - exact record0_wf.
  - reflexivity.
  - split; unfold u64_ok; cbn; lia.
  - split; [apply lookup_empty|]. split; vm_compute; intros HC; discriminate HC.
Defined.

Lemma finalize_settlement_atomic_witness :
  finalizable epoch0 (dom (balances result0)) [nonce0] reservations0 \/
  snd (finalize_settlement settle_io_fine account_journal0 reservation_journal0 epoch0 result0 [nonce0]) <> Ok tt.
Proof.
  pose proof (finalize_settlement_atomic settle_io_fine account_journal0 reservation_journal0 epoch0 result0 [nonce0]
    accounts0 ∅ reservations0 result0_ok holds0 represents0) as HF.
  destruct (finalize_settlement _ _ _ _ _ _) as [[acc res] out]. destruct HF as [(_ & _ & Ho)|(HF & _)]; [right; exact Ho | left; exact HF].
Defined.

Lemma finalize_settlement_recovers_witness :
  exists p, attempt epoch0 result0 [nonce0] (account_journal0, reservation_journal0) p /\
  exists accounts' reservations',
    finalize_settlement settle_io_fine (fst p) (snd p) epoch0 result0 [nonce0] = (accounts', reservations', Ok tt).
Proof.
  exists (fst (finalize_settlement settle_io_crash account_journal0 reservation_journal0 epoch0 result0 [nonce0])).
  assert (attempt epoch0 result0 [nonce0] (account_journal0, reservation_journal0)
    (fst (finalize_settlement settle_io_crash account_journal0 reservation_journal0 epoch0 result0 [nonce0]))) as HA.
  { exists settle_io_crash. cbn [fst snd]. destruct (finalize_settlement _ _ _ _ _ _) as [[acc res] out].
    exists acc, res, out. done. }
  split; [exact HA|].
  destruct (finalize_settlement_recovers epoch0 result0 [nonce0] accounts0 ∅ reservations0 (account_journal0, reservation_journal0)
    _ settle_io_fine ready0 fresh0 (rtc_once _ _ HA)) as (acc & res & EF & _); [done|]. exists acc, res. exact EF.
Defined.

(** From missing files: both are created, then a registration. *)
Lemma coordinator_files_typed_witness :
  let p0 := ({| aj_file := None; aj_records := ∅; aj_applied_epochs := ∅ |}, {| rj_file := None; rj_records := ∅ |}) in
  let p1 := ({| aj_file := fst (AccountJournal_open io_fine None); aj_records := ∅; aj_applied_epochs := ∅ |}, snd p0) in
  let p2 := (fst p1, {| rj_file := fst (ReservationJournal_open io_fine None); rj_records := ∅ |}) in
  exists m a t, load io_fine (aj_file (fst p2)) = Ok (m, a) /\ load_records io_fine (rj_file (snd p2)) = Ok t /\ accounts_ok m.
Proof.
  intros p0 p1 p2.
  destruct (coordinator_files_typed p0 [p1; p2]) with (io := io_fine) as [HA HT].
  - split; [exact (pair_open io_fine p0)|]. split; [|exact I].
    exact (pair_journal p1 _ (step_open io_fine (snd p1))).
  - left. reflexivity.
  - left. reflexivity.
  - reflexivity.
  - destruct HA as [[_ HA]|(m & a & Hm & HW & _)]; [discriminate HA|].
    destruct HT as [[_ HT]|(t & Ht & _)]; [discriminate HT|].
    exists m, a, t. split; [exact Hm|]. split; [exact Ht | exact HW].
Defined.

(** After the settlement of epoch 0 its release is refused. *)
Lemma settlement_excludes_release_witness :
  exists accounts reservations, (forall io terminal nonces accounts' reservations' out,
    ct_epoch_id terminal = epoch0 ->
    release_reservations io accounts reservations terminal nonces = (accounts', reservations', out) ->
    out <> Ok tt) \/ occurs accounts_erased (accounts, reservations) [].
Proof.
  destruct (attempt_succeeds epoch0 result0 [nonce0] accounts0 ∅ reservations0 Fresh (account_journal0, reservation_journal0)
    settle_io_fine ready0 fresh0) as (acc & res & _ & [HH HT]); [done|]. exists acc, res.
  destruct (settlement_excludes_release (acc, res) [] _ _ _ I HH HT) as (m' & a' & t' & _ & _ & [HX|HX] & _); [left | right; exact HX].
  intros io terminal nonces acc' res' out Ht EF. refine (proj1 (HX io terminal nonces acc' res' out _ EF)).
  rewrite Ht, lookup_insert_eq. eexists. reflexivity.
Defined.

Lemma settlement_digest_binds_witness :
  before_balances result0 = before_balances result0 \/ settlement_preimage result0 <> settlement_preimage result0.
Proof.
  assert (balances_ok (before_balances result0)) as HB.
  { split; [exact (proj1 (proj2 (proj2 batch0_wf)))|]. cbn [before_balances result0 batch_of]. unfold before0.
    rewrite map_size_singleton. reflexivity. }
  assert (balances_ok (balances result0)) as HA.
  { rewrite result0_balances. split; [|rewrite map_size_singleton; reflexivity].
    apply map_Forall_singleton. split; unfold u64_ok; cbn; lia. }
  destruct (settlement_digest_binds result0 result0 HB HA HB HA eq_refl) as [[E _]|[E _]]; [left; exact E | right; exact E].
Defined.

Lemma overtaken_retry_refused_witness :
  snd (finalize_settlement settle_io_fine
         {| aj_file := Some (encode_accounts accounts1 epochs1); aj_records := ∅; aj_applied_epochs := ∅ |}
         reservation_journal0 epoch0 result0 [nonce0]) <> Ok tt.
Proof.
  pose proof (overtaken_retry_refused settle_io_fine
    {| aj_file := Some (encode_accounts accounts1 epochs1); aj_records := ∅; aj_applied_epochs := ∅ |}
    reservation_journal0 epoch0 result0 [nonce0]
    {| ct_epoch_account := key x01; ct_epoch_id := epoch0; ct_terminal_state := Expired; ct_confirmation_slot := 7 |}
    accounts1 epochs1 reservations0 (key x3a) eq_refl result0_ok
    (holds_encode _ _ ledger1_ok) represents0 (lookup_singleton_eq _ _) overtaken1) as [HF _].
  destruct (finalize_settlement _ _ _ _ _ _) as [[acc res] out]. exact (proj1 HF).
Defined.

Lemma suspension_permanent_witness :
  is_ok (SuspensionRegistry_issue_authorization io_fine
    {| sr_file := Some (encode_suspensions {[trader0 := tt]}); sr_trading_keys := ∅ |} reserved0 trader0 operator0 100) = false \/
  occurs registry_erased {| sr_file := Some (encode_suspensions {[trader0 := tt]}); sr_trading_keys := ∅ |} [].
Proof.
  apply (@suspension_permanent toy_sha toy_dalek io_fine {| sr_file := Some (encode_suspensions {[trader0 := tt]}); sr_trading_keys := ∅ |}
    [] {[trader0 := tt]} trader0 reserved0 operator0 100).
  - exact I.
  - apply lists_encode. unfold keys_ok. rewrite map_size_singleton. reflexivity.
  - rewrite lookup_singleton_eq. eexists. reflexivity.
Defined.
End witnesses.
