(* ===== verification/LockClaims.v ===== *)
(** * Properties of the lock gate

    Keypers, their journal, the confirmed reads and the on-chain program together, each property
    with an instance on the concrete batch of [LockRuntime]. *)

From S2P Require Import Runtime.
From S2P Require Import Prelude Bytes Extern ProgramWire ProgramState ProgramInstruction Ed25519 Processor ProcessorProps.
From S2P Require Import BTree Ledger Storage HostExtern HostCrypto HostCryptoProps HostRuntime.
From S2P Require Import Account LockJournal LockJournalProps Lock LockProps LockWire ConfirmedReads LockSafety LockChain LockRuntime.

(** C4 (safety). A keyper never equivocates: whatever sequence of opening, signing, releasing and
    crashing any number of processes on one journal go through, and whatever each system call does,
    all approvals and released shares for one epoch account name one and the same lock digest. *)
Theorem keyper_never_equivocates `{Sha256} `{Dalek} `{Threshold} w w' e1 e2 :
  rtc keyper_step w w' -> w_keypers w = ∅ -> w_events w = [] ->
  e1 ∈ w_events w' -> e2 ∈ w_events w' -> event_epoch e1 = event_epoch e2 -> event_digest e1 = event_digest e2.
Proof. apply events_agree. Qed.

(** The exact conditions under which a keyper accepts a package for an open epoch,
    and the digest it then signs. *)
Theorem lock_package_valid_iff `{Sha256} `{Dalek} `{Threshold} p confirmed d :
  LockPackageV1_validate p confirmed = Ok d <->
  package_valid p confirmed /\ d = LockPayloadV1_digest (LockPackageV1_lock_payload p).
Proof. apply validate_Ok. Qed.

(** C18 (functional). An approved lock is accepted on chain: if the keypers validated a package
    against a confirmed read of the epoch, and the transaction carries the same two records, two
    committee signatures over the digest and a clock before the deadline, then the program's [lock]
    succeeds and writes exactly the locked record of the package. *)
Theorem approved_lock_lands `{Sha256} `{Solana} `{Dalek} `{Threshold} `{Sysvars}
    epoch E pool P C slot open p d accounts now n :
  confirmed_open_epoch_from_accounts epoch E pool P C slot = Ok open ->
  LockPackageV1_validate p open = Ok d -> roots_set p ->
  lock_flags accounts -> carries accounts epoch E pool P ->
  clock_unix_timestamp (acct 4 accounts) = Ok now -> (now < cfg_lock_deadline (pk_configuration p))%Z ->
  count_preceding_keypers (acct 3 accounts) (cfg_keypers (pk_configuration p)) d = Ok n -> (2 <= n)%Z ->
  exists es, EpochStateV1_decode (ra_data E) = Ok es /\
    lock ID accounts (LockPackageV1_lock_payload p) =
    Ok (<[2 := with_data (acct 2 accounts) (EpochStateV1_encode (locked_record es p))]> accounts).
Proof.
  intros HO [HV ->]%validate_Ok HR HF HC Hnow Hin Hn Htwo.
  destruct (confirmed_open_Ok _ _ _ _ _ _ _ HO) as (es & ps & clock & ? & ? & _ & HE & HP & _ & HRec & _ & ->).
  exists es. split; [done|]. pose proof (pv_same_configuration _ _ HV) as Hcfg. cbn [co_configuration] in Hcfg.
  rewrite Hcfg in Hin, Hn. destruct HC as (HND & Hk1 & Ho1 & Hd1 & Hk2 & Ho2 & Hd2).
  apply lock_Ok. exists ps, es, now, n. rewrite Hk2.
  split_and!; try done; [| by apply (or_phase _ _ _ _ _ HRec) | by eapply validated_payload_matches].
  unfold epoch_ctx. rewrite Hk1, Hk2, Ho1, Ho2, Hd1, Hd2. destruct HRec as [? ? _ _ _].
  split_and!; try done. apply HF.
Qed.

(** C10 (liveness). A locked batch can be opened: after a keyper that kept its journal approved a package
    and the program locked it, a confirmed read of the locked records before the abort deadline succeeds,
    and that keyper releases for every member a share that verifies and names the approved digest,
    provided the configuration's digest is not zero, the ciphertexts are pairwise distinct and no
    authorization has expired by the slot of the read. *)
Theorem locked_batch_releases `{Sha256} `{Solana} `{Dalek} `{Threshold} `{Sysvars} `{!ThresholdLaws} `{!SysvarsLaws}
    epoch E pool P C slot open io disk keyper p secret disk' keyper' approval accounts accounts' C2 clock2 slot2 :
  confirmed_open_epoch_from_accounts epoch E pool P C slot = Ok open ->
  (exists m, keeps disk m) -> ReferenceKeyper_sign_lock io disk keyper p open secret = (disk', keyper', Ok approval) ->
  carries accounts epoch E pool P -> lock ID accounts (LockPackageV1_lock_payload p) = Ok accounts' ->
  EpochConfigurationV1_digest (pk_configuration p) <> zero32 ->
  NoDup (map (fun s => sha256 (es_ciphertext s)) (pk_submissions p)) ->
  ra_owner C2 = sysvar_owner_id -> clock_deserialize (ra_data C2) = Some clock2 -> (clk_slot clock2 <= slot2)%Z ->
  (clk_unix_timestamp clock2 <= cfg_abort_deadline (pk_configuration p))%Z ->
  Forall (fun s => (slot2 <= fa_expiry_slot (es_authorization s))%Z) (pk_submissions p) ->
  exists confirmed,
    confirmed_lock_from_accounts epoch {| ra_owner := ID; ra_data := ai_data (acct 2 accounts') |} P C2 slot2 = Ok confirmed /\
    forall i s, pk_submissions p !! i = Some s ->
      exists share, ReferenceKeyper_release_share keyper' p confirmed secret i = Ok share /\
        rel_lock_digest share = la_digest approval /\
        ReleasedShareV1_verify share (pk_epoch_public_keys p) s = true.
Proof.
  intros HO HK HS HC HL Hcz HND HC2 HCd Hs2 Ht2 HX.
  destruct (confirmed_open_Ok _ _ _ _ _ _ _ HO) as (es & ps & clock & ? & HPo & _ & HE & HP & _ & HRec & _ & Hopen).
  destruct (sign_lock_Ok _ _ _ _ _ _ _ _ _ HS HK) as (_ & _ & _ & _ & HV & Hd & _).
  destruct (locked_account _ _ _ _ _ _ _ _ HC HE HL) as (Hdata & Hr1 & Hr2).
  pose proof (pv_same_configuration _ _ HV) as Hcfg. subst open. cbn [co_configuration] in Hcfg.
  eexists. split.
  - rewrite Hdata. apply (confirmed_lock_of_locked epoch pool es ps clock p _ P C2 clock2 slot2 HRec HV); try done.
    + by apply (locked_record_wf _ _ _ _ HE HV).
    + by rewrite Hcfg in Ht2.
  - intros i s Hi. pose proof (validate_locked_of_locked _ _ _ _ _ _ _ _ _ _ slot2 HO HV HE HP HX) as HVL.
    rewrite <- Hd in HVL.
    destruct (release_after_sign _ _ _ _ _ _ _ _ _ _ ps i s HS HK HVL eq_refl eq_refl Hi HND) as (share & HR & _ & HD & _ & HVf).
    exists share. split_and!; [done | | done]. by rewrite HD, Hd.
Qed.

(** C36 (error). A repeated ciphertext strands a batch: validation does not compare ciphertexts, so a
    package in which two members carry the same one is approved like any other, but no keyper ever
    releases a share of it, whatever was locked. *)
Theorem repeated_ciphertext_strands `{Sha256} `{Dalek} `{Threshold} p open :
  package_valid p open -> ~ NoDup (map (fun s => sha256 (es_ciphertext s)) (pk_submissions p)) ->
  LockPackageV1_validate p open = Ok (LockPayloadV1_digest (LockPackageV1_lock_payload p)) /\
  forall keyper confirmed secret i, is_ok (ReferenceKeyper_release_share keyper p confirmed secret i) = false.
Proof.
  intros HV HN. split; [by apply validate_Ok|]. intros. by apply release_refuses_repeats.
Qed.

(** Lock packages and their wire bytes determine each other: encoding succeeds exactly
    within the limits and writes the listed fields in order, and decoding accepts exactly the byte
    strings of that form, up to how the threshold library serializes the key set. *)
Theorem lock_package_codec `{Sha256} `{Dalek} `{Threshold} p bytes :
  (LockPackageV1_encode_wire p = Ok bytes <->
   exists keys, length (pk_submissions p) <= 64 /\ length (pk_balances p) <= 64 /\
     keys_serialize (ek_keys (pk_epoch_public_keys p)) = Some keys /\ length keys <= 1024 /\
     bytes = concat (package_fields p keys)) /\
  (LockPackageV1_decode_wire bytes = Ok p <->
   package_wf p /\ length (pk_submissions p) <= 64 /\ length (pk_balances p) <= 64 /\
   exists keys, length keys <= 1024 /\ keys_deserialize keys = Some (ek_keys (pk_epoch_public_keys p)) /\
     bytes = concat (package_fields p keys)).
Proof.
  split; [apply package_encode_Ok|]. split; [apply package_fields_decode|].
  intros (HW & Hn & Hm & keys & Hk & HK & ->). by apply package_decode_fields.
Qed.

(** C20 (safety). The capabilities of confirmed reads are sound: an open capability, a lock capability
    and a terminal capability are handed out only for a program-owned record at the derived address
    that was in the reply, in the phase it claims; for the first two the pool record is valid too, and
    the lock digest is the digest of the recorded payload. *)
Theorem confirmed_reads_sound `{Sha256} `{Solana} `{Dalek} `{Sysvars} rpc epoch :
  (forall c, fetch_confirmed_open_epoch rpc epoch = Ok c ->
     exists es ps clock, served rpc [epoch; ep_pool es; clock_sysvar_id] es ps /\
       open_record epoch (ep_pool es) es ps clock /\ co_epoch_account c = epoch /\
       co_configuration c = epoch_config_of (ep_pool es) ps es) /\
  (forall c, fetch_confirmed_lock rpc epoch = Ok c ->
     exists pool ps, served rpc [epoch; pool; clock_sysvar_id] (cl_state c) ps /\ cl_pool c = Some ps /\
       cl_epoch_account c = epoch /\ terminal_state (cl_state c) = Locked /\
       epoch_address (ep_pool (cl_state c)) (ep_epoch_id (cl_state c)) = (epoch, epoch_bump (cl_state c)) /\
       pool_address (pl_operator ps) (pl_base_mint ps) (pl_quote_mint ps) = (ep_pool (cl_state c), pool_bump ps) /\
       ep_configuration_hash (cl_state c) = EpochConfigurationV1_digest (epoch_config_of (ep_pool (cl_state c)) ps (cl_state c)) /\
       ConfirmedLock_lock_digest c = LockPayloadV1_digest (locked_payload epoch (cl_state c)) /\
       (4 <= ep_minimum_count (cl_state c) <= ep_member_count (cl_state c))%Z) /\
  (forall t, fetch_confirmed_terminal_epoch rpc epoch = Ok t ->
     exists slot data es, get_account rpc epoch = Some (slot, Some {| ra_owner := ID; ra_data := data |}) /\
       EpochStateV1_decode data = Ok es /\ (terminal_state es = Expired \/ terminal_state es = Aborted) /\
       epoch_address (ep_pool es) (ct_epoch_id t) = (epoch, epoch_bump es) /\ ct_epoch_id t = ep_epoch_id es /\
       ct_epoch_account t = epoch /\ ct_terminal_state t = terminal_state es /\ ct_confirmation_slot t = slot).
Proof. split_and!; [apply fetch_open_sound | apply fetch_lock_sound | apply fetch_terminal_sound]. Qed.

(** ** Instances on the concrete batch *)

Section instances.
Local Existing Instances tail_sha toy_solana toy_dalek pad_threshold toy_sysvars pad_threshold_laws toy_sysvars_laws.

Definition world_empty : KeyperWorld := {| w_disk := {| ld_journal := None; ld_marker := None |}; w_keypers := ∅; w_events := [] |}.
Definition world_opened : KeyperWorld := {| w_disk := disk0; w_keypers := {[ 0%nat := keyper0 ]}; w_events := [] |}.
Definition world_signed : KeyperWorld :=
  {| w_disk := disk1; w_keypers := {[ 0%nat := keyper1 ]}; w_events := [Approved epoch_key approval0] |}.

Definition world_released : KeyperWorld :=
  {| w_disk := disk1; w_keypers := {[ 0%nat := keyper1 ]}; w_events := [Released released0; Approved epoch_key approval0] |}.

Lemma world_released_reached : rtc keyper_step world_empty world_released.
Proof.
  apply (rtc_l _ _ world_opened); [|apply (rtc_l _ _ world_signed); [|apply rtc_once]].
  - pose proof (step_open world_empty lock_io_fine 0 0 (key x21 : @SigningKey toy_dalek) _ _ journal_open0) as HS.
    cbn [w_keypers w_events world_empty] in HS. rewrite insert_empty in HS. exact HS.
  - pose proof (step_sign world_opened lock_io_fine 0 keyper0 package0 open0 secret0 _ _ _ (lookup_singleton_eq _ _) keyper_sign_runs) as HS.
    cbn [w_keypers w_events world_opened] in HS. rewrite insert_singleton_eq in HS. exact HS.
  - exact (step_release world_signed 0 keyper1 package0 lock0 secret0 2 _ (lookup_singleton_eq _ _) release_runs).
Qed.

Lemma keyper_never_equivocates_witness :
  event_digest (Released released0) = event_digest (Approved epoch_key approval0).
Proof.
  exact (keyper_never_equivocates world_empty world_released (Released released0) (Approved epoch_key approval0)
    world_released_reached eq_refl eq_refl (list_elem_of_here _ _) (list_elem_of_further _ _ _ (list_elem_of_here _ _)) eq_refl).
Defined.

Lemma approved_lock_lands_witness : is_ok (lock ID batch_accounts (LockPackageV1_lock_payload package0)) = true.
Proof.
  destruct (approved_lock_lands epoch_key epoch_rpc0 pool_key pool_rpc0 (clock_rpc 50 1500) 60 open0 package0 digest0
    batch_accounts 1600 2 open_runs validate_digest0 roots_set0) as (es & _ & HL).
  - unfold lock_flags, flags_are. split_and!; reflexivity.
  - exact batch_carries.
  - vm_compute. reflexivity.
  - vm_compute. reflexivity.
  - vm_compute. reflexivity.
  - discriminate.
  - rewrite HL. reflexivity.
Defined.

Lemma locked_batch_releases_witness :
  exists confirmed share, ReferenceKeyper_release_share keyper1 package0 confirmed secret0 3 = Ok share /\ rel_lock_digest share = la_digest approval0.
Proof.
  destruct (locked_batch_releases epoch_key epoch_rpc0 pool_key pool_rpc0 (clock_rpc 50 1500) 60 open0 lock_io_fine disk0 keyper0
    package0 secret0 disk1 keyper1 approval0 batch_accounts batch_locked (clock_rpc 70 2500)
    {| clk_slot := 70; clk_unix_timestamp := 2500 |} 80 open_runs (ex_intro _ ∅ keeps0) keyper_sign_runs batch_carries batch_lock_runs)
    as (confirmed & _ & HS).
  - exact (proj2 (proj2 roots_set0)).
  - exact ciphertexts0.
  - reflexivity.
  - vm_compute. reflexivity.
  - discriminate.
  - vm_compute. discriminate.
  - repeat constructor; discriminate.
  - destruct (HS 3 _ eq_refl) as (share & HR & HD & _). exists confirmed, share. split; [exact HR | exact HD].
Defined.

Lemma confirmed_reads_sound_witness :
  exists es ps clock, served rpc0 [epoch_key; ep_pool es; clock_sysvar_id] es ps /\
    open_record epoch_key (ep_pool es) es ps clock.
Proof.
  destruct (proj1 (confirmed_reads_sound rpc0 epoch_key) open0 fetch_open_runs) as (es & ps & clock & HS & HO & _).
  exists es, ps, clock. split; [exact HS | exact HO].
Defined.

Lemma repeated_ciphertext_strands_witness :
  is_ok (LockPackageV1_validate copied_package open0) = true /\
  forall keyper confirmed secret i, is_ok (ReferenceKeyper_release_share keyper copied_package confirmed secret i) = false.
Proof.
  destruct (repeated_ciphertext_strands copied_package open0 (proj1 (proj1 (validate_Ok _ _ _) copied_validates)) copied_repeats) as [HV HR].
  split; [rewrite HV; reflexivity | exact HR].
Defined.
End instances.
