(* ===== verification/SettlementRuntime.v ===== *)
(** * The concrete batch, settled

    The batch of [LockRuntime] opened with shares of keypers 0 and 1, netted, approved and settled. *)

From S2P Require Import Runtime.
From S2P Require Import Prelude Bytes Extern ProgramWire ProgramState ProgramInstruction Ed25519 Processor ProcessorProps Chain.
From S2P Require Import BTree Domain Ledger Commitment Storage HostExtern HostCrypto HostCryptoProps HostRuntime.
From S2P Require Import Account LockJournal LockJournalProps Lock LockProps LockWire ConfirmedReads LockSafety LockChain LockRuntime.
From S2P Require Import Settlement SettlementWire SettlementProps SettlementChain SettlementLive.

Section settled_batch.
Local Existing Instances tail_sha toy_solana toy_dalek pad_threshold toy_sysvars pad_threshold_laws.

Definition share_of (index : Z) (trader : byte) : ReleasedShareV1 :=
  {| rel_epoch_account := epoch_key; rel_lock_digest := digest0; rel_ciphertext_hash := key trader; rel_index := index; rel_share := tt |}.
Definition evidence_of (trader : byte) : DecryptionEvidenceV1 :=
  {| de_first := share_of 0 trader; de_second := share_of 1 trader |}.
Definition evidence0 : list DecryptionEvidenceV1 := map evidence_of [xb1; xb2; xb3; xb4].
(** The same members opened by keypers 2 and 1. *)
Definition evidence1 : list DecryptionEvidenceV1 :=
  map (fun trader => {| de_first := share_of 2 trader; de_second := share_of 1 trader |}) [xb1; xb2; xb3; xb4].
Definition intents0 : list SignedIntentV1 :=
  [signed_intent (key xa1) (key xb1); signed_intent (key xa2) (key xb2); signed_intent (key xa3) (key xb3); signed_intent (key xa4) (key xb4)].

Definition built {E A} (d : A) (r : result E A) : A := match r with Ok x => x | Err _ => d end.
Definition empty_request : SettlementRequestV1 :=
  {| sq_package := package0; sq_decryption_evidence := []; sq_post_balances := []; sq_pre_balance_root := zero32;
     sq_post_balance_root := zero32; sq_residual := Residual.None; sq_result_root := zero32; sq_result_commitment := zero32;
     sq_settlement_nonce := zero32; sq_settlement_digest := zero32 |}.
Definition settle_nonce0 : bytes32 := key xe2.
Definition request0 : SettlementRequestV1 := built empty_request (SettlementRequestV1_build package0 evidence0 settle_nonce0 lock0).

Example build_runs : SettlementRequestV1_build package0 evidence0 settle_nonce0 lock0 = Ok request0.
Proof. vm_compute. reflexivity. Qed.
Example build_residual : sq_residual request0 = Residual.Buy 4.
Proof. vm_compute. reflexivity. Qed.

Lemma balances0_wf : Forall balance_wf (pk_balances package0).
Proof. unfold package0, package_of, balances0. cbn [pk_balances]. repeat constructor; apply (bool_decide_unpack (_ <> _)); by vm_compute. Qed.
Lemma member_wf participant trader nonce receipt : submission_wf (member participant trader nonce receipt).
Proof.
  split; [by repeat split|]. unfold member. cbn [es_ciphertext]. by rewrite length_app, signed_intent_encode_length.
Qed.
Lemma package0_wf : package_wf package0.
Proof.
  assert (Forall submission_wf (pk_submissions package0)) by (repeat (apply Forall_cons; [apply member_wf|]); constructor).
  split_and!; try done. apply balances0_wf.
Qed.

(** ** The assumptions of an honest batch hold *)

Lemma member_honest participant trader nonce receipt :
  honest_member package0 (member participant trader nonce receipt) (signed_intent (key participant) (key trader)).
Proof.
  split_and!; try done.
  - unfold SignedIntentV1_verify, signed_intent, SignedIntentV1_sign. cbn [si_body ib_epoch_id ib_participant_id si_signature].
    rewrite !bool_decide_eq_true_2 by done. cbn [negb]. cbn [dalek_verify dalek_sign toy_dalek].
    by rewrite bool_decide_eq_true_2.
  - exists tt, {| ei_encoded := es_ciphertext (member participant trader nonce receipt);
                  ei_ciphertext := (SignedIntentV1_encode (signed_intent (key participant) (key trader)) : @Ciphertext pad_threshold) |}.
    split; [|done]. unfold EpochPublicKeys_encrypt, encode_ciphertext. cbn [keys_encrypt ciphertext_verify ciphertext_serialize pad_threshold negb].
    rewrite signed_intent_encode_length. change (192 =? 192) with true. cbn [ok_or mbind result_bind].
    rewrite length_app, signed_intent_encode_length, length_zeros, bool_decide_eq_true_2 by done. done.
Qed.

Lemma evidence0_for : Forall2 (evidence_for package0 lock0) members0 evidence0.
Proof.
  repeat (apply Forall2_cons; [split; [done|]; repeat (apply Forall_cons; [split_and!; vm_compute; reflexivity|]); constructor|]).
  constructor.
Qed.

Lemma pool_state0_wf : PoolStateV1_wf pool_state0.
Proof. by repeat split. Qed.
Lemma lock0_validates : LockPackageV1_validate_locked package0 lock0 = Ok digest0.
Proof. vm_compute. reflexivity. Qed.
Lemma lock0_state_wf : EpochStateV1_wf (cl_state lock0).
Proof. vm_compute. repeat split; discriminate. Qed.

Lemma roots0_distinct : roots_distinct (before_of (pk_balances package0))
  (post_balances_of (settle_balances (batch_config_of package0) (map order_from intents0) (before_of (pk_balances package0)))).
Proof. split; apply (bool_decide_unpack _); vm_compute; exact I. Qed.

Lemma honest0 : honest_batch package0 evidence0 settle_nonce0 lock0 pool_state0 intents0.
Proof.
  split.
  - rewrite lock0_validates. reflexivity.
  - reflexivity.
  - split_and!; [apply lock0_state_wf | apply pool_state0_wf | apply balances0_wf].
  - reflexivity.
  - split; apply (bool_decide_unpack (_ <> _)); vm_compute; exact I.
  - repeat (apply Forall2_cons; [apply member_honest|]). constructor.
  - apply evidence0_for.
  - repeat (apply Forall_cons; [vm_compute; discriminate|]). constructor.
  - repeat (apply Forall_cons; [vm_compute; done|]). constructor.
  - apply roots0_distinct.
Qed.

(** ** The settlement transaction *)

Definition approval1 : SettlementApprovalV1 :=
  {| sa_keyper_key := key x21;
     sa_payload := full_payload epoch_key pool_state0 (cl_state lock0)
       {| cs_result_commitment := sq_result_commitment request0; cs_residual_side := 1; cs_residual_lots := 4; cs_settlement_nonce := settle_nonce0 |};
     sa_digest := sq_settlement_digest request0; sa_signature := twice (key x21) |}.

Example sign_settlement_runs : ReferenceKeyper_sign_settlement keyper1 request0 lock0 secret0 = Ok approval1.
Proof. vm_compute. reflexivity. Qed.

Definition batch_settle_accounts : list AccountInfo :=
  [signer0 payer_key false; pool_account; epoch_account (EpochStateV1_encode (cl_state lock0));
   info vault_key false false false zero32 0 [];
   token0 pool_base_key base_mint_key vault_key true 50;
   token0 pool_quote_key quote_mint_key vault_key true 400;
   info venue_key true false false zero32 0 [];
   token0 venue_base_key base_mint_key venue_key true 1000;
   token0 venue_quote_key quote_mint_key venue_key true 90000;
   mint0 base_mint_key; mint0 quote_mint_key; program0 TOKEN_PROGRAM_ID;
   sigs0 [(key x21, sq_settlement_digest request0); (key x23, sq_settlement_digest request0)];
   clock0 2500].
Definition batch_settled : list AccountInfo :=
  accounts_of (settle_compact ID batch_settle_accounts (CompactSettlementPayload_from (sa_payload approval1))).

Example batch_settle_runs :
  settle_compact ID batch_settle_accounts (CompactSettlementPayload_from (sa_payload approval1)) = Ok batch_settled.
Proof. vm_compute. reflexivity. Qed.
Example batch_settle_holdings :
  holdings batch_settled = {| pool_base := 90; pool_quote := 0; venue_base := 960; venue_quote := 90400 |}.
Proof. vm_compute. reflexivity. Qed.

Lemma batch_carries_lock : carries_lock batch_settle_accounts lock0 pool_state0.
Proof.
  split_and!; [reflexivity | apply EpochStateV1_decode_encode, lock0_state_wf | reflexivity | vm_compute; reflexivity].
Qed.

Lemma keyper1_ready : keyper_ready package0 lock0 pool_state0 keyper1 secret0.
Proof. split_and!; by vm_compute. Qed.


(** The keyper with index 1, on a request opened with other shares. *)
Definition keyper2 : ReferenceKeyper := {| rk_index := 1; rk_signing_key := key x22; rk_journal := {| lj_records := records0 |} |}.
Definition secret2 : KeyperSecretShare := {| ks_epoch_account := epoch_key; ks_index := 1; ks_secret := tt |}.
Definition request1 : SettlementRequestV1 := built empty_request (SettlementRequestV1_build package0 evidence1 settle_nonce0 lock0).
Definition approval2 : SettlementApprovalV1 :=
  {| sa_keyper_key := key x22; sa_payload := sa_payload approval1; sa_digest := sq_settlement_digest request1; sa_signature := twice (key x22) |}.
Example sign_settlement_runs2 : ReferenceKeyper_sign_settlement keyper2 request1 lock0 secret2 = Ok approval2.
Proof. vm_compute. reflexivity. Qed.

Lemma requests_same : sq_package request0 = sq_package request1 /\ sq_settlement_nonce request0 = sq_settlement_nonce request1.
Proof. split; vm_compute; reflexivity. Qed.
Lemma request0_threshold : keys_threshold (ek_keys (pk_epoch_public_keys (sq_package request0))) = 1.
Proof. vm_compute. reflexivity. Qed.

(** The request on the wire. *)
Definition request0_bytes : list byte := built [] (SettlementRequestV1_encode_wire request0).
Example request0_encodes : SettlementRequestV1_encode_wire request0 = Ok request0_bytes.
Proof. vm_compute. reflexivity. Qed.

Definition post0 (participant : byte) (base : Z) : SettlementBalanceV1 :=
  {| sb_participant_id := key participant; sb_base_atoms := base; sb_quote_atoms := 0 |}.
Lemma request0_post : sq_post_balances request0 = [post0 xa1 21; post0 xa2 22; post0 xa3 23; post0 xa4 24].
Proof. vm_compute. reflexivity. Qed.
Lemma request0_parts : sq_package request0 = package0 /\ sq_decryption_evidence request0 = evidence0 /\ sq_residual request0 = Residual.Buy 4.
Proof. split_and!; vm_compute; reflexivity. Qed.

Lemma evidence_of_wf trader : evidence_wf (evidence_of trader).
Proof. unfold evidence_wf, evidence_of, share_of, u64_ok. cbn [de_first de_second rel_index]. lia. Qed.

Lemma request0_wf : request_wf request0.
Proof.
  destruct request0_parts as (EP & EE & ER). split; rewrite ?EP, ?EE, ?ER, ?request0_post; try reflexivity.
  - apply package0_wf.
  - unfold evidence0. apply Forall_map, list.Forall_forall. intros. apply evidence_of_wf.
  - unfold settlement_balance_wf, post0, u64_ok. repeat (apply Forall_cons; [cbn [sb_base_atoms sb_quote_atoms]; lia|]). constructor.
  - cbn [residual_wf]. lia.
Qed.
End settled_batch.
