(* ===== verification/SettlementClaims.v ===== *)
(** * Properties of settlement

    The keypers' recomputation and the on-chain program together, each property with an instance on
    the settled batch of [SettlementRuntime]. *)

From S2P Require Import Runtime.
From S2P Require Import Prelude Bytes Extern ProgramWire ProgramState ProgramInstruction Ed25519 Processor ProcessorProps Chain.
From S2P Require Import BTree Domain Ledger Commitment Storage HostExtern HostCrypto HostCryptoProps HostRuntime.
From S2P Require Import Account LockJournal LockJournalProps Lock LockProps LockWire ConfirmedReads LockSafety LockChain LockRuntime.
From S2P Require Import Settlement SettlementWire SettlementProps SettlementChain SettlementLive SettlementRuntime.

(** C1 (invariant). Settlement keeps the pool solvent: when the program executes a settlement a keyper
    approved, on the records the keyper read, the pool's two vaults change by exactly the change of
    the members' total balances in each token, and the epoch records the approved payload and digest. *)
Theorem settlement_preserves_solvency `{Sha256} `{Solana} `{Dalek} `{Threshold} `{!TokenLaws}
    keyper request c secret approval pool accounts accounts' :
  ReferenceKeyper_sign_settlement keyper request c secret = Ok approval ->
  Forall balance_wf (pk_balances (sq_package request)) -> carries_lock accounts c pool ->
  settle_compact ID accounts (CompactSettlementPayload_from (sa_payload approval)) = Ok accounts' ->
  (pool_base (holdings accounts') - pool_base (holdings accounts)
     = sumZ sb_base_atoms (sq_post_balances request) - sumZ br_base_atoms (pk_balances (sq_package request)))%Z /\
  (pool_quote (holdings accounts') - pool_quote (holdings accounts)
     = sumZ sb_quote_atoms (sq_post_balances request) - sumZ br_quote_atoms (pk_balances (sq_package request)))%Z /\
  ai_data (acct 2 accounts') = EpochStateV1_encode (set_settled (cl_state c) (sa_payload approval) (sa_digest approval)).
Proof.
  intros (r & Hr & Hp & Hd & Hpost & _)%sign_settlement_inv HB HC HS. rewrite Hp in HS. rewrite Hp, Hd, Hpost.
  destruct (settled_holdings _ _ _ _ _ _ _ _ Hr HB HC HS) as [HX HY]. split_and!; [exact HX | exact HY |].
  by apply (settled_record _ _ _ _ _ _ _ _ Hr HC).
Qed.

(** C5 (functional). A keyper approves only the netting of signed intents: an approved settlement has,
    for every member of the locked package, one intent recovered from two of its shares and signed
    by the member's trading key, no participant twice, every order fundable within its limit, and
    the approved balances and residual are those of the netting specification. *)
Theorem approval_nets_signed_intents `{Sha256} `{Dalek} `{Threshold} keyper request c secret approval pool :
  ReferenceKeyper_sign_settlement keyper request c secret = Ok approval ->
  cl_pool c = Some pool -> EpochStateV1_wf (cl_state c) -> PoolStateV1_wf pool ->
  Forall balance_wf (pk_balances (sq_package request)) ->
  let p := sq_package request in
  let before := before_of (pk_balances p) in
  exists intents,
    try_map (recover_member p c) (zip (pk_submissions p) (sq_decryption_evidence request)) = Ok intents /\
    length intents = length (pk_submissions p) /\ NoDup (map fo_participant_id (map order_from intents)) /\
    Forall2 (intent_order (cfg_epoch_id (pk_configuration p)) (pk_submissions p)) intents (map order_from intents) /\
    Forall (fillable (batch_config_of p) before) (map order_from intents) /\
    sq_post_balances request = post_balances_of (settle_balances (batch_config_of p) (map order_from intents) before) /\
    (sp_residual_side (sa_payload approval), sp_residual_lots (sa_payload approval))
      = residual_wire (residual_of (net_lots (map order_from intents))).
Proof.
  intros (r & Hr & Hp & Hd & Hpost & _)%sign_settlement_inv Hpl HE HP HB p before.
  destruct (recompute_inv _ _ _ _ _ Hr) as (pool' & intents & orders & result & HI).
  pose proof (rp_pool _ _ _ _ _ _ _ _ _ HI) as Hp'. rewrite Hpl in Hp'. injection Hp' as <-.
  destruct (recomputed_batch _ _ _ _ _ _ _ _ _ HI HE HP HB) as (-> & _ & HN & HF & _).
  pose proof (rp_orders _ _ _ _ _ _ _ _ _ HI) as HO. pose proof (orders_from _ _ _ _ HO) as Ho. rewrite Ho in *.
  exists intents. split_and!; try done.
  - apply (rp_recovered _ _ _ _ _ _ _ _ _ HI).
  - pose proof (rp_recovered _ _ _ _ _ _ _ _ _ HI) as HL. apply try_map_Ok, Forall2_length in HL.
    rewrite length_zip_with, (rp_members _ _ _ _ _ _ _ _ _ HI), Nat.min_id in HL. done.
  - rewrite Hpost. apply (rp_post _ _ _ _ _ _ _ _ _ HI).
  - rewrite Hp, (rp_payload _ _ _ _ _ _ _ _ _ HI), (rp_residual _ _ _ _ _ _ _ _ _ HI). unfold settlement_payload. by destruct (residual_wire _).
Qed.

(** C11 (safety). Keypers that read the same lock cannot approve different results: whichever shares
    open the members of a package and whichever nonces are proposed, two approvals carry the same
    result commitment and residual, and with the same nonce the same payload and digest. *)
Theorem approved_settlements_agree `{Sha256} `{Dalek} `{Threshold} `{!ThresholdLaws} k1 k2 q1 q2 c s1 s2 a1 a2 :
  ReferenceKeyper_sign_settlement k1 q1 c s1 = Ok a1 -> ReferenceKeyper_sign_settlement k2 q2 c s2 = Ok a2 ->
  sq_package q1 = sq_package q2 -> keys_threshold (ek_keys (pk_epoch_public_keys (sq_package q1))) = 1 ->
  sq_post_balances q1 = sq_post_balances q2 /\
  CompactSettlementPayload_from (sa_payload a1) =
    {| cs_result_commitment := sp_result_commitment (sa_payload a2); cs_residual_side := sp_residual_side (sa_payload a2);
       cs_residual_lots := sp_residual_lots (sa_payload a2); cs_settlement_nonce := sq_settlement_nonce q1 |} /\
  (sq_settlement_nonce q1 = sq_settlement_nonce q2 -> sa_payload a1 = sa_payload a2 /\ sa_digest a1 = sa_digest a2).
Proof.
  intros (r1 & H1' & Hp1 & Hd1 & Hb1 & _)%sign_settlement_inv (r2 & H2' & Hp2 & Hd2 & Hb2 & _)%sign_settlement_inv Hpk Ht.
  rewrite Hpk in H1', Ht. destruct (recompute_agree _ _ _ _ _ _ _ _ Ht H1' H2') as (E1 & _ & _ & E2 & E3).
  rewrite Hb1, Hb2, Hp1, Hp2, Hd1, Hd2. split_and!; [done | done |]. intros Hn. by rewrite (E3 Hn).
Qed.

(** C7 (liveness). An honest locked batch settles: when every member encrypted a well-signed intent
    that accepts the price, two verifying shares per member are bound to the lock, balances have
    room and no two leaves of the roots collide, the coordinator's request is built with the netted
    balances, and every committee keyper that recorded the lock approves it with a valid signature. *)
Theorem honest_batch_settles `{Sha256} `{Dalek} `{Threshold} `{!ThresholdLaws} `{!DalekLaws} p evidence nonce c pool intents :
  honest_batch p evidence nonce c pool intents ->
  exists request, SettlementRequestV1_build p evidence nonce c = Ok request /\
    sq_post_balances request
      = post_balances_of (settle_balances (batch_config_of p) (map order_from intents) (before_of (pk_balances p))) /\
    sq_residual request = residual_of (net_lots (map order_from intents)) /\
    forall keyper secret, keyper_ready p c pool keyper secret ->
      exists approval, ReferenceKeyper_sign_settlement keyper request c secret = Ok approval /\
        SettlementApprovalV1_verify approval = true /\ sa_digest approval = sq_settlement_digest request /\
        sa_keyper_key approval = verifying_key (rk_signing_key keyper).
Proof.
  intros HB. destruct (honest_recompute _ _ _ _ _ _ HB) as (r & Hr & Hpost & Hres).
  eexists. assert (SettlementRequestV1_build p evidence nonce c = Ok _) as HQ
    by (unfold SettlementRequestV1_build; rewrite Hr; reflexivity).
  split_and!; [exact HQ | exact Hpost | exact Hres |]. intros keyper secret HK.
  by apply (built_request_approved p evidence nonce c pool); [| apply (hb_pool _ _ _ _ _ _ HB) |].
Qed.

(** Settlement requests and approvals survive the wire: what a request encodes to
    decodes back to it, and approvals and their 503 bytes determine each other. *)
Theorem settlement_wire_round_trip `{Sha256} `{Dalek} `{Threshold} `{!ThresholdLaws} :
  (forall r bytes, request_wf r -> SettlementRequestV1_encode_wire r = Ok bytes -> SettlementRequestV1_decode_wire bytes = Ok r) /\
  (forall a bytes, SettlementApprovalV1_decode_wire bytes = Ok a <->
     SettlementPayloadV1_wf (sa_payload a) /\ SettlementApprovalV1_encode_wire a = bytes).
Proof.
  split; [apply request_decode_encode|]. intros a bytes. split; [apply approval_encode_decode|].
  intros [HW <-]. by apply approval_decode_encode.
Qed.

(** ** Instances on the concrete batch *)

Section settlement_instances.
Local Existing Instances tail_sha toy_solana toy_token_laws toy_dalek toy_dalek_laws pad_threshold pad_threshold_laws.

Lemma settlement_preserves_solvency_witness :
  (pool_base (holdings batch_settled) - pool_base (holdings batch_settle_accounts) = 40)%Z /\
  (pool_quote (holdings batch_settled) - pool_quote (holdings batch_settle_accounts) = -400)%Z.
Proof.
  destruct (settlement_preserves_solvency keyper1 request0 lock0 secret0 approval1 pool_state0 batch_settle_accounts batch_settled
    sign_settlement_runs balances0_wf batch_carries_lock batch_settle_runs) as (HB & HQ & _).
  split; [rewrite HB; vm_compute; reflexivity | rewrite HQ; vm_compute; reflexivity].
Defined.

Lemma approval_nets_signed_intents_witness :
  exists intents, length intents = length (pk_submissions (sq_package request0)) /\
    NoDup (map fo_participant_id (map order_from intents)).
Proof.
  destruct (approval_nets_signed_intents keyper1 request0 lock0 secret0 approval1 pool_state0 sign_settlement_runs eq_refl
    lock0_state_wf pool_state0_wf balances0_wf) as (intents & _ & HL & HN & _).
  exists intents. split; [exact HL | exact HN].
Defined.

Lemma approved_settlements_agree_witness : sa_digest approval1 = sa_digest approval2.
Proof.
  exact (proj2 (proj2 (proj2 (approved_settlements_agree keyper1 keyper2 request0 request1 lock0 secret0 secret2 approval1 approval2
    sign_settlement_runs sign_settlement_runs2 (proj1 requests_same) request0_threshold)) (proj2 requests_same))).
Defined.

Lemma honest_batch_settles_witness :
  exists request approval, SettlementRequestV1_build package0 evidence0 settle_nonce0 lock0 = Ok request /\
    ReferenceKeyper_sign_settlement keyper1 request lock0 secret0 = Ok approval /\ SettlementApprovalV1_verify approval = true.
Proof.
  destruct (honest_batch_settles package0 evidence0 settle_nonce0 lock0 pool_state0 intents0 honest0) as (request & HQ & _ & _ & HS).
  destruct (HS keyper1 secret0 keyper1_ready) as (approval & HA & HV & _). exists request, approval. split_and!; [exact HQ | exact HA | exact HV].
Defined.

Lemma settlement_wire_round_trip_witness : SettlementRequestV1_decode_wire request0_bytes = Ok request0.
Proof. exact (proj1 settlement_wire_round_trip request0 request0_bytes request0_wf request0_encodes). Defined.
End settlement_instances.
