(* ===== verification/KeyperRuntime.v ===== *)
(** * A concrete keyper process

    The lock approval of [LockRuntime], asked for through a child process. *)

From S2P Require Import Runtime.
From S2P Require Import Prelude Bytes Extern ProgramWire ProgramState ProgramInstruction Processor ProcessorProps.
From S2P Require Import BTree Domain Ledger Storage HostExtern HostCrypto HostCryptoProps HostRuntime.
From S2P Require Import Account LockJournal LockJournalProps Lock LockProps LockWire ConfirmedReads LockSafety LockChain LockRuntime.
From S2P Require Import Settlement SettlementWire SettlementRuntime Keyper KeyperProps.

(** Shares serialize to one fixed scalar; a self-test request is its fields in order. *)
Definition secret_scalar : bytes32 := key x99.
Definition pad_codec : @KeyperCodec toy_dalek pad_threshold :=
  {| secret_serialize := fun _ => Some (secret_scalar : list byte);
     secret_deserialize := fun b => Some (tt : @SecretKeyShare pad_threshold);
     self_test_serialize := fun r => if (0 <=? str_version r)%Z && (str_version r <? 256)%Z && (0 <=? str_index r)%Z && (str_index r <? 2 ^ 64)%Z
       then Some (le_bytes 1 (str_version r) ++ le_bytes 8 (str_index r) ++ (str_challenge r : list byte) ++ (secret_scalar : list byte)) else None;
     self_test_deserialize := fun b => challenge ← try_into 32 (slice 9 41 b);
       Some {| str_version := le_val (slice 0 1 b); str_index := le_val (slice 1 9 b); str_challenge := challenge;
               str_share := (tt : @SecretKeyShare pad_threshold) |};
     signing_key_from_bytes := fun seed => (seed : @SigningKey toy_dalek);
     share_sign := fun _ _ => filled 96 x00;
     public_key_share_ok := fun _ => true; signature_share_ok := fun _ => true;
     public_key_share_verify := fun _ _ _ => true |}.

Lemma pad_codec_laws : @KeyperCodecLaws _ _ pad_codec.
Proof.
  split; try done; [by intros [] bytes|]. intros [v i c []] bytes.
  cbn [self_test_serialize self_test_deserialize pad_codec str_version str_index str_challenge].
  destruct (_ && _) eqn:G; [|done]. intros E%(inj Some). subst bytes. bguard.
  rewrite (slice_hit 1) by apply length_le_bytes. rewrite (slice_skip 1 9), (slice_skip 9 41), !length_le_bytes by (rewrite length_le_bytes; lia).
  cbn [Nat.sub]. rewrite slice_hit by apply length_le_bytes. rewrite slice_skip, length_le_bytes by (rewrite length_le_bytes; lia).
  cbn [Nat.sub]. rewrite slice_hit by apply length_arr. rewrite try_into_arr. cbn [mbind option_bind].
  rewrite le_val_u64 by (unfold u64_ok; lia). rewrite le_val_bytes, Z.mod_small by lia. done.
Qed.

Section process.
Local Existing Instances tail_sha toy_solana toy_dalek pad_threshold toy_sysvars pad_codec.

(** A private file of 32 bytes with the attestation key, one with the URL "r". *)
Definition private_file (len : Z) : Metadata :=
  {| md_is_dir := false; md_is_file := true; md_is_symlink := false; md_len := len; md_mode := 33152 |}.
Definition files0 : KeyperFiles :=
  {| kf_rpc_metadata := Some (private_file 3); kf_rpc_text := Some [32; 114; 10]%Z;
     kf_key_metadata := Some (private_file 32); kf_key_bytes := Some (key x21 : list byte); kf_current_dir := true |}.

Example url_trimmed : read_keyper_rpc_url files0 = Ok [114]%Z.
Proof. reflexivity. Qed.
Definition fresh_disk : LockDisk := {| ld_journal := None; ld_marker := None |}.
Lemma session0 : session files0 lock_io_fine fresh_disk (key x21) [114]%Z disk0 {| lj_records := ∅ |}.
Proof.
  split_and!; [|reflexivity | reflexivity | apply journal_open0].
  unfold read_keyper_attestation_key. cbn [files0 kf_key_metadata kf_key_bytes ok_or mbind result_bind].
  change (negb _ || _ || _) with false. change (Z.land _ _ != _) with false. by rewrite try_into_arr.
Qed.

Definition package0_bytes : list byte := built [] (LockPackageV1_encode_wire package0).
Example package0_encodes : LockPackageV1_encode_wire package0 = Ok package0_bytes.
Proof. vm_compute. reflexivity. Qed.
Definition head0 : list byte := [byte_of 1] ++ (epoch_key : list byte) ++ le_bytes 8 0 ++ (secret_scalar : list byte).
Example share0_encodes : append_bound_share secret0 = Ok (head0, secret_scalar : list byte).
Proof. vm_compute. reflexivity. Qed.

(** A directory with the configuration files and the journal, and a child that runs the handler. *)
Definition world0 : ChildWorld :=
  {| cw_executable := bstr "kageb"; cw_directory := bstr "/k0";
     cw_metadata := Some {| md_is_dir := true; md_is_file := false; md_is_symlink := false; md_len := 0; md_mode := 16832 |};
     cw_contents := Some [FileEntry (ld_journal disk1); FileEntry (Some (key x21 : list byte)); DirectoryEntry (Some []); OtherEntry];
     cw_run := fun _ stdin => Exited (exit_of (snd (handle_keyper_sign_lock files0 (fun _ => rpc0) lock_io_fine lock_io_fine (Some stdin) true fresh_disk))) |}.

Lemma clean0 : clean world0 (bstr "sign-lock") (sign_lock_response approval0) secret_scalar.
Proof. split_and!; vm_compute; reflexivity. Qed.
Example run0 : run_keyper_sign_lock world0 secret0 (key x21) package0 = Ok approval0.
Proof. vm_compute. reflexivity. Qed.
Lemma frame0_fits : (len_Z (head0 ++ le_bytes 4 (len_Z package0_bytes) ++ package0_bytes) <= MAX_SIGN_LOCK_REQUEST_LEN)%Z.
Proof. vm_compute. discriminate. Qed.
End process.
