(* ===== verification/KeyperClaims.v ===== *)
(** * Properties of keyper processes

    Each property with an instance on the concrete batch, whose children run the handlers. *)

From S2P Require Import Runtime.
From S2P Require Import Prelude Bytes Extern ProgramWire ProgramState ProgramInstruction Ed25519 Processor ProcessorProps Chain.
From S2P Require Import BTree Domain Ledger Commitment Storage HostExtern HostCrypto HostCryptoProps HostRuntime.
From S2P Require Import Account LockJournal LockJournalProps Lock LockProps LockWire ConfirmedReads LockSafety LockChain LockRuntime.
From S2P Require Import Settlement SettlementWire SettlementProps SettlementChain SettlementLive SettlementRuntime Keyper KeyperProps KeyperRuntime.

(** C9 (safety). The coordinator trusts no child: whatever a keyper process does, a lock approval, a
    share or a settlement approval is accepted only if it is signed by the expected key over the
    expected digest, or is a verifying share of the named member bound to the package's digest, and
    only if the secret share occurs neither in the child's output nor in any file below its
    directory. *)
Theorem keyper_responses_checked `{Sha256} `{Solana} `{Dalek} `{Threshold} `{Sysvars} `{!KeyperCodec} world share :
  (forall expected package approval, run_keyper_sign_lock world share expected package = Ok approval ->
     la_keyper_key approval = expected /\ la_digest approval = LockPayloadV1_digest (LockPackageV1_lock_payload package) /\
     LockApprovalV1_verify approval = true /\ ran_clean world share (bstr "sign-lock")) /\
  (forall package member released, run_keyper_release_share world share package member = Ok released ->
     exists s, pk_submissions package !! member = Some s /\ rel_index released = ks_index share /\
       rel_epoch_account released = pk_epoch_account package /\
       rel_lock_digest released = LockPayloadV1_digest (LockPackageV1_lock_payload package) /\
       ReleasedShareV1_verify released (pk_epoch_public_keys package) s = true /\ ran_clean world share (bstr "release-share")) /\
  (forall expected request approval, run_keyper_sign_settlement world share expected request = Ok approval ->
     sa_keyper_key approval = expected /\ sa_digest approval = sq_settlement_digest request /\
     SettlementApprovalV1_verify approval = true /\ ran_clean world share (bstr "sign-settlement")).
Proof. split_and!; [apply sign_lock_checked | apply release_checked | apply sign_settlement_checked]. Qed.

(** C8 (refinement). Running a keyper as a child process changes nothing: in a private directory where
    nothing carries the secret, with a child that runs the handler, the coordinator's call returns
    exactly what the reference keyper returns in the child for the same share and package, for
    lock approvals, released shares and settlement approvals; and the self test returns the share's
    own key and signature. *)
Theorem keyper_processes_transparent
    `{Sha256} `{Solana} `{Dalek} `{Threshold} `{Sysvars} `{!KeyperCodec} `{!DalekLaws} `{!ThresholdLaws} `{!KeyperCodecLaws}
    world files rpc io_open io_sign disk seed url disk1 journal share head secret_bytes :
  verify_private_directory (cw_metadata world) = Ok tt -> session files io_open disk seed url disk1 journal ->
  append_bound_share share = Ok (head, secret_bytes) -> u64_ok (ks_index share) ->
  let key := signing_key_from_bytes seed in
  let keyper := {| rk_index := ks_index share; rk_signing_key := key; rk_journal := journal |} in
  (forall package bytes confirmed disk2 keyper2 approval,
     let frame := head ++ le_bytes 4 (len_Z bytes) ++ bytes in
     package_wf package -> LockPackageV1_encode_wire package = Ok bytes -> (len_Z frame <= MAX_SIGN_LOCK_REQUEST_LEN)%Z ->
     fetch_confirmed_open_epoch (rpc url) (pk_epoch_account package) = Ok confirmed ->
     ReferenceKeyper_sign_lock io_sign disk1 keyper package confirmed share = (disk2, keyper2, Ok approval) ->
     cw_run world (bstr "sign-lock") frame
       = Exited (exit_of (snd (handle_keyper_sign_lock files rpc io_open io_sign (Some frame) true disk))) ->
     clean world (bstr "sign-lock") (sign_lock_response approval) secret_bytes ->
     fst (handle_keyper_sign_lock files rpc io_open io_sign (Some frame) true disk) = disk2 /\
     run_keyper_sign_lock world share (verifying_key key) package = Ok approval) /\
  (forall package bytes member confirmed released response,
     let frame := head ++ le_bytes 4 (Z.of_nat member) ++ le_bytes 4 (len_Z bytes) ++ bytes in
     package_wf package -> LockPackageV1_encode_wire package = Ok bytes -> (len_Z frame <= MAX_RELEASE_REQUEST_LEN)%Z ->
     (Z.of_nat member < 2 ^ 32)%Z ->
     fetch_confirmed_lock (rpc url) (pk_epoch_account package) = Ok confirmed ->
     ReferenceKeyper_release_share keyper package confirmed share member = Ok released ->
     ReleasedShareV1_encode_wire released = Ok response ->
     cw_run world (bstr "release-share") frame
       = Exited (exit_of (snd (handle_keyper_release_share files rpc io_open (Some frame) true disk))) ->
     clean world (bstr "release-share") response secret_bytes ->
     run_keyper_release_share world share package member = Ok released) /\
  (forall request bytes confirmed pool index approval,
     request_wf request -> SettlementRequestV1_encode_wire request = Ok bytes -> (len_Z bytes <= MAX_SETTLEMENT_REQUEST_LEN)%Z ->
     fetch_confirmed_lock (rpc url) (pk_epoch_account (sq_package request)) = Ok confirmed -> cl_pool confirmed = Some pool ->
     EpochStateV1_wf (cl_state confirmed) -> PoolStateV1_wf pool ->
     iter_position (fun k => k == verifying_key key) (keyper_list (pl_keypers pool)) = Some index ->
     ReferenceKeyper_sign_settlement {| rk_index := Z.of_nat index; rk_signing_key := key; rk_journal := journal |}
       request confirmed share = Ok approval ->
     cw_run world (bstr "sign-settlement") (head ++ bytes)
       = Exited (exit_of (snd (handle_keyper_sign_settlement files rpc io_open (Some (head ++ bytes)) true disk))) ->
     clean world (bstr "sign-settlement") (SettlementApprovalV1_encode_wire approval) secret_bytes ->
     run_keyper_sign_settlement world share (verifying_key key) request = Ok approval) /\
  (forall challenge encoded,
     self_test_serialize {| str_version := REQUEST_VERSION; str_index := ks_index share; str_challenge := challenge;
                            str_share := ks_secret share |} = Some encoded -> length encoded = REQUEST_LEN ->
     cw_run world (bstr "self-test") encoded = Exited (exit_of (handle_keyper_self_test (Some encoded) true)) ->
     contains_bytes (encode_response (self_test_of share challenge)) secret_bytes = false ->
     run_keyper_self_test world share challenge = Ok (self_test_of share challenge)).
Proof.
  intros HP HS HA Hi key keyper. split_and!.
  - intros package bytes confirmed disk2 keyper2 approval frame HW HB Hl HF HK HR HC.
    pose proof (sign_lock_frame_decodes _ _ _ _ _ Hi HW HA HB Hl) as HD.
    pose proof (handle_sign_lock_runs _ rpc _ io_sign _ _ _ _ _ _ _ _ _ _ _ _ HS Hl HD HF HK) as HH. rewrite HH in HR |- *. split; [done|].
    apply sign_lock_approval in HK as (E1 & E2 & E3). by apply (sign_lock_accepted world share package head secret_bytes bytes).
  - intros package bytes member confirmed released response frame HW HB Hl Hm HF HK HE HR HC.
    destruct (released_share_facts _ _ _ _ _ _ HK) as (sub & Hs & Hx & He & Hd & Hv & Hse).
    pose proof (release_frame_decodes _ _ _ _ _ _ Hi HW HA HB Hm Hse Hl) as HD.
    rewrite (handle_release_runs _ rpc _ _ _ _ _ _ _ _ _ _ _ _ _ HS Hl HD HF HK HE) in HR.
    apply (release_accepted world share package member head secret_bytes bytes released response sub); try done. by rewrite Hx.
  - intros request bytes confirmed pool index approval HW HB Hl HF HPo HE HPw HI HK HR HC.
    pose proof (settlement_frame_decodes _ _ _ _ _ Hi HW HA HB Hl (request_nonempty _ _ HB)) as HD.
    pose proof (bound_share_length _ _ _ HA) as Hlen.
    rewrite (handle_sign_settlement_runs _ rpc _ _ _ _ _ _ _ _ _ _ _ _ _ HS (settlement_frame_fits _ _ _ _ HA Hl) HD HF HPo HI HK) in HR.
    pose proof (settlement_share_index _ _ _ _ _ HK) as Hsi. apply iter_position_Some in HI. cbn [rk_index] in Hsi.
    destruct (sign_settlement_inv _ _ _ _ _ HK) as (r & Hr & Ep & Ed & _ & Eq & Ek & Es & _).
    apply (sign_settlement_accepted world share request head secret_bytes bytes key); try done.
    + rewrite Ep. apply (recomputed_payload_wf _ _ _ _ _ pool Hr); try done. by destruct (rw_package _ HW) as (_ & _ & _ & ? & _).
    + by rewrite Ep.
    + rewrite Hsi. unfold keyper_list in HI. destruct (pl_keypers pool) as [[k0 k1] k2]. cbn in HI. lia.
  - intros challenge encoded HE Hl HR HC. apply append_bound_share_Ok in HA as (HA & _). by apply (self_test_accepted world share challenge encoded secret_bytes).
Qed.

(** ** Instances *)

Section keyper_instances.
Local Existing Instances tail_sha toy_solana toy_dalek toy_dalek_laws pad_threshold pad_threshold_laws toy_sysvars pad_codec pad_codec_laws.

Lemma keyper_processes_transparent_witness : run_keyper_sign_lock world0 secret0 (key x21) package0 = Ok approval0.
Proof.
  destruct (keyper_processes_transparent world0 files0 (fun _ => rpc0) lock_io_fine lock_io_fine fresh_disk (key x21) [114]%Z disk0
    {| lj_records := ∅ |} secret0 head0 secret_scalar eq_refl session0 share0_encodes) as (HL & _).
  - split; [discriminate | reflexivity].
  - exact (proj2 (HL package0 package0_bytes open0 disk1 keyper1 approval0 package0_wf package0_encodes frame0_fits fetch_open_runs
      keyper_sign_runs eq_refl clean0)).
Defined.

Lemma keyper_responses_checked_witness :
  la_keyper_key approval0 = key x21 /\ LockApprovalV1_verify approval0 = true.
Proof.
  destruct (proj1 (keyper_responses_checked world0 secret0) (key x21) package0 approval0 run0) as (HK & _ & HV & _).
  split; [exact HK | exact HV].
Defined.
End keyper_instances.
