(* ===== verification/ClientClaims.v ===== *)
(** * Properties of the client

    From the command a trader runs to the member of an honest batch, with an instance on concrete
    texts. *)

From S2P Require Import Runtime.
From S2P Require Import Prelude Bytes Extern ProgramWire ProgramState ProgramInstruction Ed25519 Processor ProcessorProps Chain.
From S2P Require Import BTree Domain Ledger Commitment Storage HostExtern HostCrypto HostCryptoProps HostRuntime.
From S2P Require Import Account LockJournal LockJournalProps Lock LockProps LockWire ConfirmedReads LockSafety LockChain LockRuntime.
From S2P Require Import Settlement SettlementWire SettlementProps SettlementChain SettlementLive SettlementRuntime Keyper KeyperProps KeyperRuntime.
From S2P Require Import Client ClientProps.

(** C30 (functional). The prepare command submits the order it was given: its response is the canonical
    text of a submission that carries the very authorization of the request and the encryption, under
    the very epoch keys of the request, of an intent for one lot at the requested side and limit,
    signed with the key file's key; the response repeats the request's epoch and participant, that
    key and the two hashes.  The operator admits the submission wherever it accepts the
    authorization, and in any package under the same keys and epoch it is an honest member whose
    recovered intent is that order. *)
Theorem prepare_command_submits `{Sha256} `{Dalek} `{Threshold} `{!KeyperCodec} `{!ClientCodec} `{!DalekLaws} `{!ThresholdLaws} `{!ClientCodecLaws}
    rnd entropy_receipt entropy_nonce request_bytes keypair response :
  prepare_submission rnd entropy_receipt entropy_nonce request_bytes keypair = Ok response ->
  exists request epoch participant authorization keys_wire keys trader prepared wire encrypted,
    json_prepare_request request_bytes = Some request /\ read_trading_key keypair = Ok trader /\
    cp_epoch_id request = bs58_encode (arr_list epoch) /\ cp_participant_id request = bs58_encode (arr_list participant) /\
    decode_canonical_base64 (cp_funded_authorization_base64 request) = Ok (FundedAuthorizationV1_encode authorization) /\
    decode_canonical_base64 (cp_epoch_public_keys_base64 request) = Ok keys_wire /\ EpochPublicKeys_decode_wire keys_wire = Ok keys /\
    decode_canonical_base64 (pr_encrypted_submission_base64 response) = Ok wire /\
    EncryptedSubmissionV1_decode_wire wire = Ok (pd_submission prepared) /\
    es_authorization (pd_submission prepared) = authorization /\ fa_trading_key authorization = verifying_key trader /\
    EpochPublicKeys_encrypt keys rnd (pd_signed_intent prepared) = Ok encrypted /\
    es_ciphertext (pd_submission prepared) = ei_encoded encrypted /\
    (pr_epoch_id response = cp_epoch_id request /\ pr_participant_id response = cp_participant_id request /\
     pr_trading_key response = bs58_encode (arr_list (verifying_key trader)) /\
     pr_ciphertext_sha256_base64 response = base64_encode (arr_list (sha256 (ei_encoded encrypted))) /\
     pr_submission_sha256_base64 response = base64_encode (arr_list (sha256 wire))) /\
    (let body := si_body (pd_signed_intent prepared) in
     ib_side body = cp_side request /\ ib_lots body = 1%Z /\ ib_limit_price body = cp_limit_price request /\
     ib_epoch_id body = epoch /\ ib_participant_id body = participant) /\
    (forall policy, FundedAuthorizationV1_verify authorization policy = Ok tt ->
       EncryptedSubmissionV1_verify_admission (pd_submission prepared) policy = Ok tt) /\
    (forall p, pk_epoch_public_keys p = keys -> cfg_epoch_id (pk_configuration p) = epoch ->
       honest_member p (pd_submission prepared) (pd_signed_intent prepared)).
Proof.
  unfold prepare_submission. intros E. apply bind_Ok in E as (request & HJ & E). apply ok_or_Ok in HJ. apply guard_Ok in E as [_ E].
  apply bind_Ok in E as (epoch & He & E). apply bind_Ok in E as (participant & Hp & E).
  apply decode_base58_32_Ok in He. apply decode_base58_32_Ok in Hp. apply bind_Ok in E as (aw & Haw & E).
  apply bind_Ok in E as (authorization & Ha & E). apply map_err_Ok in Ha. apply authorization_encode_decode in Ha as [HW <-].
  apply bind_Ok in E as (kw & Hkw & E). apply bind_Ok in E as (keys & Hkeys & E). apply map_err_Ok in Hkeys. apply bind_Ok in E as (trader & Ht & E).
  apply bind_Ok in E as (receipt & _ & E). cbn zeta in E. apply bind_Ok in E as (order & Ho & E). apply bind_Ok in E as (nonce & _ & E).
  apply bind_Ok in E as (prepared & HP & E). apply Ok_inj in E. subst response. apply prepare_order_new in Ho as (_ & Hae & Hap & ->).
  pose proof (prepared_submission_wf _ _ _ _ _ _ HP HW) as HS.
  pose proof (prepare_request_ranges _ _ HJ) as Hu. pose proof HP as (_ & Hk & _ & enc & Henc & HE)%prepare_order_Ok.
  exists request, epoch, participant, authorization, kw, keys, trader, prepared, (EncryptedSubmissionV1_encode_wire (pd_submission prepared)), enc.
  assert (es_ciphertext (pd_submission prepared) = ei_encoded enc) as Hc by (by rewrite HE). cbn [po_public_keys] in Henc.
  do 7 (split; [done|]). split; [by apply decode_canonical_base64_Ok|]. split; [by apply submission_decode_encode|].
  split; [by rewrite HE|]. split; [done|]. split; [by rewrite HE|]. split; [done|].
  split; [cbn [pr_epoch_id pr_participant_id pr_trading_key pr_ciphertext_sha256_base64 pr_submission_sha256_base64]; by rewrite He, Hp, Hc|].
  split; [by rewrite HE|]. split.
  - intros policy HV. apply verify_admission_Ok. by apply (prepared_admissible _ _ _ _ _ _ _ HP).
  - intros p HK HEp. by apply (prepared_honest _ _ _ _ _ _ _ HP).
Qed.

(** ** An instance *)

(** Texts are the byte values; the one JSON request is the byte 1. *)
Definition text_of (b : list byte) : list Z := map byte_val b.
Definition byte_text (s : list Z) : option (list byte) :=
  if forallb (fun c => (0 <=? c) && (c <? 256))%Z s then Some (map byte_of s) else None.

Lemma text_round_trip b : byte_text (text_of b) = Some b.
Proof.
  unfold byte_text, text_of. rewrite (proj2 (forallb_forall _ _)).
  - f_equal. rewrite map_map. rewrite <- (map_id b) at 2. apply map_ext. apply byte_of_val.
  - intros c (x & <- & _)%in_map_iff. pose proof (byte_val_range x). apply andb_true_iff. lia.
Qed.

Section client_instance.
Local Existing Instances tail_sha toy_solana toy_dalek toy_dalek_laws pad_threshold pad_threshold_laws toy_sysvars pad_codec.

Definition authorization1 : FundedAuthorizationV1 := es_authorization (member xa1 xb1 xc1 xd1).
Definition prepare_request1 : ClientPrepareRequest :=
  {| cp_schema_version := 1; cp_side := Buy; cp_limit_price := 100; cp_epoch_id := text_of (epoch_id0 : list byte);
     cp_participant_id := text_of (key xa1 : list byte);
     cp_funded_authorization_base64 := text_of (FundedAuthorizationV1_encode authorization1); cp_epoch_public_keys_base64 := [] |}.

Definition text_codec : ClientCodec :=
  {| json_prepare_request := fun b => if b == [x01] then Some prepare_request1 else None;
     json_account_request := fun _ => None; json_result_request := fun _ => None; json_epoch_view := fun _ => None;
     json_byte_list := fun b => Some b; json_prepare_response := fun _ => None; json_account_response := fun _ => None;
     json_result_response := fun _ => None; json_epoch_response := fun _ => None;
     bs58_decode := byte_text; bs58_encode := text_of; base64_decode := byte_text; base64_encode := text_of |}.

Lemma text_codec_laws : @ClientCodecLaws text_codec.
Proof.
  split; [apply text_round_trip | apply text_round_trip|]. intros b r. cbn [json_prepare_request text_codec]. case_bool_decide; [|done].
  intros [= <-]. split; [discriminate | reflexivity].
Qed.
Local Existing Instances text_codec text_codec_laws.

Definition keypair1 : KeypairFile :=
  {| kp_metadata := Some {| md_is_dir := false; md_is_file := true; md_is_symlink := false; md_len := 64; md_mode := 33152 |};
     kp_bytes := Some ((key xb1 : list byte) ++ (key xb1 : list byte)) |}.
Definition prepare_response1 : ClientPrepareResponse :=
  built {| pr_schema_version := 0; pr_epoch_id := []; pr_participant_id := []; pr_trading_key := []; pr_ciphertext_sha256_base64 := [];
           pr_submission_sha256_base64 := []; pr_encrypted_submission_base64 := [] |}
    (prepare_submission (tt : @Randomness pad_threshold) (Some zero32) (Some (filled 16 x05)) [x01] keypair1).
Example prepare_runs :
  prepare_submission (tt : @Randomness pad_threshold) (Some zero32) (Some (filled 16 x05)) [x01] keypair1 = Ok prepare_response1.
Proof. vm_compute. reflexivity. Qed.

Lemma prepare_command_submits_witness :
  exists wire submission authorization, decode_canonical_base64 (pr_encrypted_submission_base64 prepare_response1) = Ok wire /\
    EncryptedSubmissionV1_decode_wire wire = Ok submission /\ es_authorization submission = authorization.
Proof.
  destruct (prepare_command_submits (tt : @Randomness pad_threshold) (Some zero32) (Some (filled 16 x05)) [x01] keypair1 prepare_response1
    prepare_runs) as (request & epoch & participant & authorization & keys_wire & keys & trader & prepared & wire & encrypted & _ & _ & _ & _ & _ & _ & _ & HW & HS & HA & _).
  exists wire, (pd_submission prepared), authorization. split; [exact HW|]. split; [exact HS | exact HA].
Defined.
End client_instance.
