(* ===== verification/ObserverClaims.v ===== *)
(** * Properties of the public observer

    Which transactions it accepts and what the accepted trace shows, with concrete transactions. *)

From S2P Require Import Runtime.
From S2P Require Import Prelude Bytes Extern ProgramWire ProgramState ProgramInstruction Ed25519 Processor ProcessorProps Chain.
From S2P Require Import Domain Ledger Settlement Observer ObserverProps.

(** ** Concrete transactions *)

(** Tag 12, the amount and the decimals; instruction texts are numbers. *)
Definition toy_observer : ObserverCodec := {|
  token_unpack data :=
    if (u8_at 0 data == 12%Z) && (length data == 10) then Some (TransferChecked (le_val (slice 1 9 data)) (u8_at 9 data)) else None;
  data_decode text := Some (map byte_of text);
|}.

Local Existing Instances toy_sha toy_solana toy_observer.

Definition observed_accounts : KagebObserverAccounts :=
  {| ko_fee_payer := key x0f; ko_payer := payer_key; ko_pool := pool_key; ko_epoch := epoch_key; ko_vault_authority := vault_key;
     ko_pool_base_vault := pool_base_key; ko_pool_quote_vault := pool_quote_key; ko_venue_authority := venue_key;
     ko_venue_base_account := venue_base_key; ko_venue_quote_account := venue_quote_key; ko_base_mint := base_mint_key;
     ko_quote_mint := quote_mint_key; ko_base_lot_atoms := 10; ko_quote_atoms_per_lot := 25 |}.

Definition verifier_at (program : Z) (signer : Pubkey) : CompiledInstruction :=
  {| ci_program_id_index := program; ci_accounts := [];
     ci_data := ix_data (strict_ed25519_instruction signer (filled 64 x00) zero32) |}.

Definition confirmed_with (keys : list Pubkey) (instructions : list CompiledInstruction) (inner : list UiInnerInstructions) : ConfirmedTransaction :=
  {| ct_meta := Some {| tm_err := false; tm_status_err := false; tm_inner := Some inner |}; ct_message := Some (keys, instructions) |}.

Definition lock_tx : ConfirmedTransaction :=
  confirmed_with (lock_keys observed_accounts)
    [verifier_at 6 (key x21); verifier_at 6 (key x23);
     {| ci_program_id_index := 7; ci_accounts := [1; 2; 3; 4; 5]%Z; ci_data := KagebInstruction_encode (Lock lock_payload0) |}] [].

Definition leg_text (amount : Z) : list Z := map byte_val (byte_of 12 :: le_bytes 8 amount ++ [byte_of 0]).
Definition settlement_tx : ConfirmedTransaction :=
  confirmed_with (settlement_keys observed_accounts)
    [verifier_at 15 (key x21); verifier_at 15 (key x22);
     {| ci_program_id_index := 16; ci_accounts := [1; 2; 3; 4; 5; 6; 7; 8; 9; 10; 11; 12; 13; 14]%Z;
        ci_data := KagebInstruction_encode (Settle compact0) |}]
    [{| ui_index := 2; ui_instructions := [Compiled 12 [6; 11; 9; 4]%Z (leg_text 50); Compiled 12 [8; 10; 5; 7]%Z (leg_text 20)] |}].

Definition pooled_trace : PublicTrace :=
  {| pt_actions := [Aggregate pool_key venue_key (Residual.Buy 2) (key x42) (key x51) 2] |}.

Lemma pooled_runs : PublicTrace_from_confirmed_kageb lock_tx settlement_tx observed_accounts = Ok pooled_trace.
Proof. vm_compute. reflexivity. Qed.

Definition observed_market : DirectMarketAccounts :=
  {| dm_fee_payer := key x0f; dm_base_mint := base_mint_key; dm_quote_mint := quote_mint_key; dm_venue_base_account := venue_base_key;
     dm_venue_quote_account := venue_quote_key; dm_base_lot_atoms := 10; dm_quote_atoms_per_lot := 25 |}.

Definition direct_tx (source mint venue wallet : Pubkey) (amount : Z) : ConfirmedTransaction :=
  confirmed_with [key x0f; source; mint; venue; wallet; TOKEN_PROGRAM_ID]
    [{| ci_program_id_index := 5; ci_accounts := [1; 2; 3; 4]%Z; ci_data := map byte_of (leg_text amount) |}] [].
Definition direct_txs : list ConfirmedTransaction :=
  [direct_tx (key x61) base_mint_key venue_base_key (key x62) 10; direct_tx (key x63) quote_mint_key venue_quote_key (key x64) 25].
Definition direct_orders : list DirectOrder :=
  [{| do_wallet := key x62; do_side := Sell |}; {| do_wallet := key x64; do_side := Buy |}].

Lemma direct_runs : PublicTrace_from_confirmed_direct direct_txs observed_market = Ok (PublicTrace_direct direct_orders).
Proof. vm_compute. reflexivity. Qed.

Lemma keys_differ : ed25519_program_id <> ID.
Proof. intros E. apply (f_equal (fun k : Pubkey => byte_at 0 k)) in E. vm_compute in E. discriminate. Qed.

(** ** What a trace shows *)

(** C29 (equivalence). The observer accepts a pooled epoch exactly when the lock and the settlement are
    confirmed messages of two strict verifiers and the builder's instruction, over exactly the
    expected accounts, for at least four members, and the inner token instructions are exactly the
    two legs of the residual; the trace is then one aggregate of public values, so two epochs with
    the same public values cannot be told apart, and it shows no wallet and no single order. *)
Theorem pooled_trace_exact `{Sha256} `{Solana} `{ObserverCodec} lock settlement accounts t :
  ed25519_program_id <> ID ->
  (PublicTrace_from_confirmed_kageb lock settlement accounts = Ok t <->
   exists L S payload settled residual, decode_confirmed lock = Ok L /\ decode_confirmed settlement = Ok S /\
     pooled_epoch L S accounts payload settled residual /\
     t = {| pt_actions := [aggregate_of accounts payload settled residual] |}) /\
  (PublicTrace_from_confirmed_kageb lock settlement accounts = Ok t ->
   PublicTrace_visible_participant_wallets t = [] /\ PublicTrace_individual_order_count t = 0 /\ PublicTrace_aggregate_count t = 1).
Proof.
  intros Hne. split.
  - split; [by apply pooled_trace_sound|]. intros (L & S & p & s & r & HL & HS & HP & ->). by eapply pooled_trace_complete.
  - intros E. apply pooled_trace_sound in E as (L & S & p & s & r & _ & _ & _ & ->); done.
Qed.

Lemma pooled_trace_exact_witness :
  (exists L S payload settled, decode_confirmed lock_tx = Ok L /\ decode_confirmed settlement_tx = Ok S /\
     pooled_epoch L S observed_accounts payload settled (Residual.Buy 2)) /\
  PublicTrace_visible_participant_wallets pooled_trace = [] /\ PublicTrace_aggregate_count pooled_trace = 1.
Proof.
  destruct (pooled_trace_exact lock_tx settlement_tx observed_accounts pooled_trace keys_differ) as [[HS _] HW].
  destruct (HS pooled_runs) as (L & S & p & s & r & HL & HSt & HP & HT). destruct (HW pooled_runs) as (W & _ & A).
  split; [|by split]. exists L, S, p, s. split; [done|]. split; [done|].
  assert (r = Residual.Buy 2) as <- by (unfold pooled_trace, aggregate_of in HT; congruence). done.
Defined.

(** Direct trading is visible: the observer accepts a list of transactions exactly when
    each is one checked transfer of a lot between a wallet's account and the venue, and the trace
    names the wallet and the side of every one of them. *)
Theorem direct_trace_exact `{Sha256} `{Solana} `{ObserverCodec} transactions market t :
  dm_base_mint market <> dm_quote_mint market ->
  PublicTrace_from_confirmed_direct transactions market = Ok t <->
  exists orders, t = PublicTrace_direct orders /\
    Forall2 (fun tx order => exists m, decode_confirmed tx = Ok m /\ direct_transfer market m order) transactions orders /\
    PublicTrace_visible_participant_wallets t = map do_wallet orders /\
    PublicTrace_individual_order_count t = length transactions /\ PublicTrace_aggregate_count t = 0.
Proof.
  intros Hne. rewrite direct_trace_forall by done. split.
  - intros (orders & -> & HF). exists orders. destruct (direct_shows orders) as (Hw & Hi & Ha).
    pose proof HF as HL. apply Forall2_length in HL. rewrite HL. by split_and!.
  - intros (orders & -> & HF & _). by exists orders.
Qed.

Lemma direct_trace_exact_witness :
  exists orders, PublicTrace_direct direct_orders = PublicTrace_direct orders /\
    PublicTrace_visible_participant_wallets (PublicTrace_direct direct_orders) = map do_wallet orders /\
    PublicTrace_individual_order_count (PublicTrace_direct direct_orders) = 2.
Proof.
  assert (base_mint_key <> quote_mint_key) as Hne
    by (intros E; apply (f_equal (fun k : Pubkey => byte_at 0 k)) in E; vm_compute in E; discriminate).
  destruct (proj1 (direct_trace_exact direct_txs observed_market (PublicTrace_direct direct_orders) Hne) direct_runs)
    as (orders & E & _ & Hw & Hi & _).
  exists orders. split; [exact E|]. split; [exact Hw | exact Hi].
Defined.
