(* ===== verification/EvidenceRuntime.v ===== *)
(** * Evidence on concrete data

    Layouts of the loader, the mint and the token account, texts for keys and signatures, and the
    replies of a node for one funded, locked and settled epoch. *)

From S2P Require Import Runtime.
From S2P Require Import Prelude Bytes Extern ProgramWire ProgramState ProgramInstruction Ed25519 Processor ProcessorProps Chain.
From S2P Require Import Domain Ledger HostExtern HostRuntime Settlement Observer ObserverProps Keyper Evidence EvidenceRpc EvidenceFile EvidenceProps EvidenceQuorum.

(** ** Codecs *)

Definition opt_key (tag : Z) (l : list byte) : option Pubkey := if (tag =? 0)%Z then None else try_into 32 l.

Definition toy_loader (data : list byte) : option UpgradeableLoaderState :=
  match le_val (slice 0 4 data) with
  | 2%Z => LoaderProgram <$> try_into 32 (slice 4 36 data)
  | 3%Z => Some (LoaderProgramData (le_val (slice 4 12 data)) (opt_key (u8_at 12 data) (slice 13 45 data)))
  | _ => Some LoaderOther
  end.

Definition toy_mint (data : list byte) : option TokenMint :=
  if length data == 82 then
    Some {| mi_decimals := u8_at 44 data; mi_mint_authority := opt_key (le_val (slice 0 4 data)) (slice 4 36 data);
            mi_freeze_authority := opt_key (le_val (slice 46 50 data)) (slice 50 82 data) |}
  else None.

Definition toy_account (data : list byte) : option TokenAccount :=
  mint ← try_into 32 (slice 0 32 data);
  owner ← try_into 32 (slice 32 64 data);
  if length data == 165 then Some {| ta_mint := mint; ta_owner := owner; ta_initialized := u8_at 108 data == 1%Z |} else None.

Definition key_text (k : Pubkey) : text := hex_digest k.

Definition fee_key : Pubkey := key x0f.
Definition artifact0 : list byte := elf_magic ++ bstr " program".
Definition signature_text (c : byte) : text := replicate 64 c.

Local Existing Instances toy_sha toy_solana toy_dalek.

(** ** The settled epoch: four members, the pool buys two lots *)

Definition lock4 : LockPayloadV1 :=
  {| lp_epoch_account := epoch_key; lp_configuration_hash := ep_configuration_hash open_state; lp_pre_balance_root := key x41;
     lp_member_root := key x42; lp_member_count := 4; lp_lock_deadline := 2000; lp_lock_nonce := key x43 |}.

Definition pool4 : PoolStateV1 := new_pool init_accounts init_args.
Definition locked4 : EpochStateV1 := set_locked open_state lock4 (LockPayloadV1_digest lock4).
Definition settlement4 : SettlementPayloadV1 := full_payload epoch_key pool4 locked4 compact0.
Definition epoch4 : EpochStateV1 := set_settled locked4 settlement4 (SettlementPayloadV1_digest settlement4).

Definition public (owner : Pubkey) (executable : bool) (data : list byte) : PublicAccountSnapshotV1 :=
  {| pa_owner := owner; pa_executable := executable; pa_data := data |}.

Definition programdata_key : Pubkey := fst (find_program_address [ID : list byte] UPGRADEABLE_LOADER_ID).

(** ** The bundle *)

Definition transaction_of (c : byte) (slot : Z) : EvidenceTransactionV1 := {| et_signature := signature_text c; et_slot := slot |}.
Definition funding_of (authority base quote sig : byte) : FundingTransactionEvidenceV1 :=
  {| fu_authority := key_text (key authority); fu_base_source := key_text (key base); fu_quote_source := key_text (key quote);
     fu_transaction := transaction_of sig 10 |}.

Definition transactions4 : EvidenceTransactionsV1 :=
  {| tr_funding := (funding_of x61 x71 x81 x41, funding_of x62 x72 x82 x42, funding_of x63 x73 x83 x43, funding_of x64 x74 x84 x44);
     tr_lock := transaction_of x45 20; tr_settlement := transaction_of x46 30 |}.

Definition accounts4 : EvidenceAccountsV1 :=
  {| ea_fee_payer := key_text fee_key; ea_operator := key_text operator_key; ea_pool := key_text pool_key; ea_epoch := key_text epoch_key;
     ea_vault_authority := key_text vault_key; ea_base_mint := key_text base_mint_key; ea_quote_mint := key_text quote_mint_key;
     ea_pool_base_vault := key_text pool_base_key; ea_pool_quote_vault := key_text pool_quote_key; ea_venue_authority := key_text venue_key;
     ea_venue_base_account := key_text venue_base_key; ea_venue_quote_account := key_text venue_quote_key;
     ea_token_program := key_text TOKEN_PROGRAM_ID |}.

Definition balances4 : EvidenceTokenBalancesV1 :=
  {| tb_pool_base_before := 1000; tb_pool_base_after := 1020; tb_pool_quote_before := 90000; tb_pool_quote_after := 89800;
     tb_venue_base_before := 1000; tb_venue_base_after := 980; tb_venue_quote_before := 90000; tb_venue_quote_after := 90200 |}.

Definition instruction_of (transaction : text) (position : Z) (program : Pubkey) (kind : text) (digest : option bytes32)
  : DecodedInstructionEvidenceV1 :=
  {| di_transaction := transaction; di_position := position; di_program := key_text program; di_kind := kind;
     di_digest := (fun d : bytes32 => hex_digest d) <$> digest |}.
Definition funding_instructions (name : text) : list DecodedInstructionEvidenceV1 :=
  [instruction_of name 0 TOKEN_PROGRAM_ID (bstr "pool-funding-base") None;
   instruction_of name 1 TOKEN_PROGRAM_ID (bstr "pool-funding-quote") None].
Definition allowlist4 : list DecodedInstructionEvidenceV1 :=
  let l := Some (ep_lock_digest epoch4) in
  let s := Some (ep_settlement_digest epoch4) in
  concat (map funding_instructions [bstr "funding-0"; bstr "funding-1"; bstr "funding-2"; bstr "funding-3"])
  ++ [instruction_of (bstr "lock") 0 ed25519_program_id (bstr "keyper-lock-approval") l;
      instruction_of (bstr "lock") 1 ed25519_program_id (bstr "keyper-lock-approval") l;
      instruction_of (bstr "lock") 2 ID (bstr "epoch-lock") l;
      instruction_of (bstr "settlement") 0 ed25519_program_id (bstr "keyper-settlement-approval") s;
      instruction_of (bstr "settlement") 1 ed25519_program_id (bstr "keyper-settlement-approval") s;
      instruction_of (bstr "settlement") 2 ID (bstr "aggregate-settlement") s;
      instruction_of (bstr "settlement") 3 TOKEN_PROGRAM_ID (bstr "aggregate-quote-leg") None;
      instruction_of (bstr "settlement") 4 TOKEN_PROGRAM_ID (bstr "aggregate-base-leg") None].

Definition content4 : DevnetEvidenceContentV1 :=
  {| dv_cluster := bstr "devnet"; dv_public_commit := replicate 40 x61;
     dv_build_toolchain := {| bt_solana_verify := bstr "solana-verify 0.5.1"; bt_build_image := build_image_prefix ++ replicate 64 x30 |};
     dv_checkpoint_artifact_len := Z.of_nat (length artifact0); dv_checkpoint_artifact_sha256 := hex_digest (sha256 artifact0);
     dv_deployment := {| de_program := key_text ID; de_loader := key_text UPGRADEABLE_LOADER_ID; de_programdata := key_text programdata_key;
                         de_deployment_slot := 5; de_upgrade_authority := None; de_deployed_executable_sha256 := hex_digest (sha256 artifact0) |};
     dv_transactions := transactions4; dv_accounts := accounts4;
     dv_configuration := {| ec_epoch_id := key_text epoch_id0; ec_minimum_count := 4; ec_member_count := 4; ec_lock_threshold := 2;
                            ec_settlement_threshold := 2; ec_keypers := (key_text (key x21), key_text (key x22), key_text (key x23));
                            ec_base_lot_atoms := 10; ec_quote_atoms_per_lot := 100 |};
     dv_commitments := {| co_configuration_hash := hex_digest (ep_configuration_hash epoch4); co_pre_balance_root := hex_digest (ep_pre_balance_root epoch4);
                          co_member_set := hex_digest (ep_member_root epoch4); co_lock_digest := hex_digest (ep_lock_digest epoch4);
                          co_result := hex_digest (ep_result_commitment epoch4); co_settlement_digest := hex_digest (ep_settlement_digest epoch4);
                          co_unverified_local_transcript_sha256 := key_text (key x99) |};
     dv_token_balances := balances4; dv_decoded_allowlist := allowlist4;
     dv_explorer_links := map explorer_link (map signature_text [x41; x42; x43; x44; x45; x46]) |}.

Definition json_of (content : DevnetEvidenceContentV1) : list byte := dv_public_commit content ++ dv_checkpoint_artifact_sha256 content.
Definition bundle4 : DevnetEvidenceBundleV1 :=
  {| db_schema_version := 1; db_content := content4; db_evidence_sha256 := hex_digest (sha256 (EVIDENCE_BUNDLE_DOMAIN ++ json_of content4)) |}.

Definition toy_evidence : EvidenceCodec :=
  {| content_json := fun c => Some (json_of c);
     bundle_parse := fun t => if (t == db_evidence_sha256 bundle4) || (t == db_evidence_sha256 bundle4 ++ [x0a]) then Some bundle4 else None;
     bundle_print := fun b => Some (db_evidence_sha256 b);
     pubkey_from_str := fun t => ok (parse_digest t); pubkey_to_string := key_text;
     signature_from_str := fun t => try_into 64 t;
     loader_deserialize := toy_loader; programdata_metadata_len := 45; mint_unpack := toy_mint; account_unpack := toy_account;
     dalek_verify_strict := fun k _ s => s == twice k |}.

(** Tag 12, the amount and the decimals; instruction texts are numbers. *)
Definition plain_observer : ObserverCodec := {|
  token_unpack data :=
    if (u8_at 0 data == 12%Z) && (length data == 10) then Some (TransferChecked (le_val (slice 1 9 data)) (u8_at 9 data)) else None;
  data_decode l := Some (map byte_of l);
|}.

Definition toy_build : BuildCodec := fun _ =>
  Some {| vb_schema_version := 1; vb_solana_verify := bstr "solana-verify 0.5.1"; vb_build_image := build_image_prefix ++ replicate 64 x30 |}.

(** ** The node *)

Definition transfer_data (amount : Z) : list byte := byte_of 12 :: le_bytes 8 amount ++ [byte_of 0].

Definition balance_of (index : Z) (mint owner : Pubkey) (amount : text) : TokenBalance :=
  {| ub_account_index := index; ub_mint := key_text mint; ub_decimals := 0; ub_amount := amount; ub_owner := Some (key_text owner);
     ub_program_id := Some (key_text TOKEN_PROGRAM_ID) |}.

Definition fetched_of (c : byte) (slot : Z) (keys : list Pubkey) (instructions : list CompiledInstruction) (inner : list UiInnerInstructions)
    (pre post : list TokenBalance) : FetchedTransaction :=
  {| fx_slot := slot;
     fx_confirmed := {| ct_meta := Some {| tm_err := false; tm_status_err := false; tm_inner := Some inner |}; ct_message := Some (keys, instructions) |};
     fx_signatures := [filled 64 c]; fx_verified := true; fx_required := 2; fx_pre := Some pre; fx_post := Some post |}.

Definition compiled (program : Z) (accounts : list Z) (data : list byte) : CompiledInstruction :=
  {| ci_program_id_index := program; ci_accounts := accounts; ci_data := data |}.

Definition funding_tx (authority base quote sig : byte) : FetchedTransaction :=
  fetched_of sig 10 [fee_key; key authority; key base; key quote; base_mint_key; quote_mint_key; pool_base_key; pool_quote_key; TOKEN_PROGRAM_ID]
    [compiled 8 [2; 4; 6; 1]%Z (transfer_data 10); compiled 8 [3; 5; 7; 1]%Z (transfer_data 100)] []
    [balance_of 2 base_mint_key (key authority) (bstr "10"); balance_of 3 quote_mint_key (key authority) (bstr "100");
     balance_of 6 base_mint_key vault_key (bstr "960"); balance_of 7 quote_mint_key vault_key (bstr "89600")]
    [balance_of 2 base_mint_key (key authority) (bstr "0"); balance_of 3 quote_mint_key (key authority) (bstr "0");
     balance_of 6 base_mint_key vault_key (bstr "970"); balance_of 7 quote_mint_key vault_key (bstr "89700")].

Definition signed_verifier (program : Z) (signer : Pubkey) (digest : bytes32) : CompiledInstruction :=
  compiled program [] (ix_data (strict_ed25519_instruction signer (twice signer) digest)).

Definition accounts_shown : KagebObserverAccounts :=
  {| ko_fee_payer := fee_key; ko_payer := operator_key; ko_pool := pool_key; ko_epoch := epoch_key; ko_vault_authority := vault_key;
     ko_pool_base_vault := pool_base_key; ko_pool_quote_vault := pool_quote_key; ko_venue_authority := venue_key;
     ko_venue_base_account := venue_base_key; ko_venue_quote_account := venue_quote_key; ko_base_mint := base_mint_key;
     ko_quote_mint := quote_mint_key; ko_base_lot_atoms := 10; ko_quote_atoms_per_lot := 100 |}.

Definition lock_tx4 : FetchedTransaction :=
  fetched_of x45 20 (lock_keys accounts_shown)
    [signed_verifier 6 (key x21) (ep_lock_digest epoch4); signed_verifier 6 (key x23) (ep_lock_digest epoch4);
     compiled 7 [1; 2; 3; 4; 5]%Z (KagebInstruction_encode (Lock lock4))] [] [] [].

Definition settlement_tx4 : FetchedTransaction :=
  fetched_of x46 30 (settlement_keys accounts_shown)
    [signed_verifier 15 (key x21) (ep_settlement_digest epoch4); signed_verifier 15 (key x22) (ep_settlement_digest epoch4);
     compiled 16 [1; 2; 3; 4; 5; 6; 7; 8; 9; 10; 11; 12; 13; 14]%Z (KagebInstruction_encode (Settle compact0))]
    [{| ui_index := 2; ui_instructions := [Compiled 12 [6; 11; 9; 4]%Z (map byte_val (transfer_data 200));
                                           Compiled 12 [8; 10; 5; 7]%Z (map byte_val (transfer_data 20))] |}]
    [balance_of 5 base_mint_key vault_key (bstr "1000"); balance_of 6 quote_mint_key vault_key (bstr "90000");
     balance_of 8 base_mint_key venue_key (bstr "1000"); balance_of 9 quote_mint_key venue_key (bstr "90000")]
    [balance_of 5 base_mint_key vault_key (bstr "1020"); balance_of 6 quote_mint_key vault_key (bstr "89800");
     balance_of 8 base_mint_key venue_key (bstr "980"); balance_of 9 quote_mint_key venue_key (bstr "90200")].

Definition metadata4 : list byte := le_bytes 4 3 ++ le_bytes 8 5 ++ zeros 33.

Definition node_account (call : nat) (k : Pubkey) : option (option PublicAccountSnapshotV1) :=
  let token mint owner := public TOKEN_PROGRAM_ID false (token_data mint owner 0) in
  if (call == 0) && (k == ID) then Some (Some (public UPGRADEABLE_LOADER_ID true (le_bytes 4 2 ++ (programdata_key : list byte)))) else
  if k == programdata_key then Some (Some (public UPGRADEABLE_LOADER_ID false (metadata4 ++ artifact0 ++ zeros 3))) else
  if k == pool_key then Some (Some (public ID false (PoolStateV1_encode pool4))) else
  if k == epoch_key then Some (Some (public ID false (EpochStateV1_encode epoch4))) else
  if (k == base_mint_key) || (k == quote_mint_key) then Some (Some (public TOKEN_PROGRAM_ID false mint_data)) else
  if k == pool_base_key then Some (Some (token base_mint_key vault_key)) else
  if k == pool_quote_key then Some (Some (token quote_mint_key vault_key)) else
  if k == venue_base_key then Some (Some (token base_mint_key venue_key)) else
  if k == venue_quote_key then Some (Some (token quote_mint_key venue_key)) else None.

Definition node_transactions : list FetchedTransaction :=
  [funding_tx x61 x71 x81 x41; funding_tx x62 x72 x82 x42; funding_tx x63 x73 x83 x43; funding_tx x64 x74 x84 x44; lock_tx4; settlement_tx4].

Definition node4 : EvidenceReplies :=
  {| er_genesis_hash := Some DEVNET_GENESIS_HASH; er_account := node_account;
     er_statuses := fun _ => Some (map (fun t => Some {| st_slot := fx_slot t; st_finalized := true; st_err := false; st_status_err := false |}) node_transactions);
     er_transaction := fun _ s => List.find (fun t => bool_decide (head (fx_signatures t) = Some s)) node_transactions |}.

(** ** The commands of the checkpoint *)

Definition quiet : CommandRun := Finished true (Some []).
Definition build4 : CheckpointBuild :=
  {| cb_tempdir := true; cb_clone := quiet; cb_resolve := quiet; cb_reachable := Finished true (Some (map byte_val (bstr "refs/remotes/origin/main")));
     cb_checkout := quiet; cb_status := quiet; cb_config := Some []; cb_solana_verify := true;
     cb_version := Finished true (Some (map byte_val (bstr "solana-verify 0.5.1" ++ [byte_of 10]))); cb_build := quiet; cb_artifact := Some artifact0 |}.

Definition input4 : EvidenceInput := FromStdin (Some (db_evidence_sha256 bundle4)).

Local Existing Instances toy_evidence plain_observer toy_build.

Lemma evidence_runs : is_ok (verify_devnet_evidence_at_rpc node4 bundle4 artifact0) = true.
Proof. vm_compute. reflexivity. Qed.
