(* ===== verification/EvidenceClaims.v ===== *)
(** * Properties of the public evidence

    What a reader may conclude from an evidence file that verifies, with an instance on concrete
    transactions. *)

From S2P Require Import Runtime.
From S2P Require Import Prelude Bytes Extern ProgramWire ProgramState ProgramInstruction Ed25519 Processor ProcessorProps Chain.
From S2P Require Import Domain Ledger HostExtern HostRuntime Settlement Observer ObserverProps Keyper Evidence EvidenceRpc EvidenceFile EvidenceProps EvidenceQuorum EvidenceRuntime.

Local Existing Instances toy_sha toy_solana toy_dalek toy_evidence plain_observer toy_build.

Lemma file_runs : is_ok (verify_evidence_file node4 build4 input4) = true.
Proof. vm_compute. reflexivity. Qed.

Lemma programs_differ : ed25519_program_id <> ID.
Proof. intros E. apply (f_equal (fun k : Pubkey => byte_at 0 k)) in E. vm_compute in E. discriminate. Qed.

(** C23 (safety). When the command reports an evidence file as verified, the file is a bundle with its own
    content address; the program account on the node is exactly the artifact built from the published
    commit, between the loader's metadata and zeros; the node holds the pool and a settled epoch under
    the program; two different keypers of that pool signed the lock digest recorded in the epoch, two
    signed the recorded settlement digest, which is the digest of the payload the program rebuilds from
    these records; and the published token balances moved by exactly the recorded residual. *)
Theorem verified_file_shows_quorum `{Sha256} `{Solana} `{Dalek} `{!EvidenceCodec} `{ObserverCodec} `{BuildCodec} rpc build input report :
  ed25519_program_id <> ID -> verify_evidence_file rpc build input = Ok report ->
  exists json bundle artifact pool epoch programdata metadata tail,
    read_evidence_input input = Ok json /\ DevnetEvidenceBundleV1_from_json json = Ok bundle /\
    db_schema_version bundle = 1%Z /\ evidence_content_hash (db_content bundle) = Ok (db_evidence_sha256 bundle) /\
    cb_artifact build = Some artifact /\
    (exists k, parse_pubkey (de_programdata (dv_deployment (db_content bundle))) = Ok k /\ er_account rpc 1 k = Some (Some programdata)) /\
    pa_data programdata = metadata ++ artifact ++ zeros tail /\ length metadata = programdata_metadata_len /\
    quorum_shown rpc pool epoch /\ residual_moved (dv_token_balances (db_content bundle)) epoch.
Proof.
  intros Hne E. unfold verify_evidence_file in E. apply bind_Ok in E as (json & Hj & E). apply bind_Ok in E as (bundle & Hb%map_err_Ok & E).
  apply bind_Ok in E as ([] & Hc%map_err_Ok%content_hash_exact & E). apply bind_Ok in E as (checkpoint & Hk & E).
  apply verify_bundle_sound in E as (_ & pool & epoch & programdata & metadata & tail & HP & Hd & Hl & HQ & HR); [|done].
  exists json, bundle, (cc_artifact checkpoint), pool, epoch, programdata, metadata, tail.
  split_and!; try done; try apply Hc. unfold build_canonical_checkpoint in Hk. by inv_ok; subst.
Qed.

Lemma verified_file_shows_quorum_witness : exists pool epoch, quorum_shown node4 pool epoch /\ residual_moved balances4 epoch.
Proof.
  destruct (verify_evidence_file node4 build4 input4) as [report|e] eqn:E; [|pose proof file_runs as HR; rewrite E in HR; discriminate HR].
  destruct (verified_file_shows_quorum node4 build4 input4 report programs_differ E)
    as (json & bundle & artifact & pool & epoch & pd & md & tail & Hj & Hb & _ & _ & _ & _ & _ & _ & HQ & HR).
  assert (json = db_evidence_sha256 bundle4) as -> by (vm_compute in Hj; vm_compute; congruence).
  assert (bundle = bundle4) as ->.
  { unfold DevnetEvidenceBundleV1_from_json in Hb. cbn [bundle_parse toy_evidence] in Hb. rewrite bool_decide_eq_true_2 in Hb by reflexivity.
    apply Ok_inj in Hb. by symmetry. }
  exists pool, epoch. split; [exact HQ | exact HR].
Defined.

(** C37 (functional). A bundle verifies against a snapshot only if its records say one story: six different
    transactions, all finalized and successful in their published slots, in the order deployment,
    funding, lock, settlement; four different nonzero funders with eight different source accounts; a
    settled epoch of exactly four members with three different keypers and thresholds of two; and
    among the decoded instructions one settlement and two approvals of each kind, each carrying the
    published digest of its kind. *)
Theorem verified_evidence_consistent `{Sha256} `{Solana} `{Dalek} `{!EvidenceCodec} bundle snapshot artifact :
  verify_devnet_evidence bundle snapshot artifact = Ok tt ->
  exists pool epoch, let evidence := db_content bundle in let allowlist := sn_decoded_allowlist snapshot in
    NoDup (map et_signature (evidence_transactions evidence)) /\ length (sn_transactions snapshot) = 6 /\
    Forall (finalized_in (sn_transactions snapshot)) (evidence_transactions evidence) /\ in_order evidence /\
    funded_apart (four_list (tr_funding (dv_transactions evidence))) /\
    published_state evidence snapshot pool epoch /\
    allowlist = dv_decoded_allowlist evidence /\ count_kind (bstr "aggregate-settlement") allowlist = 1 /\
    count_kind (bstr "keyper-lock-approval") allowlist = 2 /\ count_kind (bstr "keyper-settlement-approval") allowlist = 2 /\
    carries_digests (dv_commitments evidence) allowlist.
Proof.
  intros E. apply verify_evidence_sound in E as (pool & epoch & _ & PS & _ & HT & HF & _ & _ & HA). exists pool, epoch. cbv zeta.
  apply validate_transactions_sound in HT as (? & ? & ? & ?). apply allowlist_sound in HA as (? & ? & Hl & Hs & ?).
  destruct (ps_thresholds _ _ _ _ PS) as (_ & _ & Ht). split_and!; try done; lia.
Qed.

Lemma evidence_snapshot_runs : match fetch_devnet_public_snapshot node4 bundle4 with Ok s => is_ok (verify_devnet_evidence bundle4 s artifact0) | Err _ => false end = true.
Proof. vm_compute. reflexivity. Qed.

Lemma verified_evidence_consistent_witness :
  exists snapshot, in_order content4 /\ count_kind (bstr "keyper-lock-approval") (sn_decoded_allowlist snapshot) = 2.
Proof.
  pose proof evidence_snapshot_runs as HR. destruct (fetch_devnet_public_snapshot node4 bundle4) as [s|e]; [|discriminate HR].
  destruct (verify_devnet_evidence bundle4 s artifact0) as [[]|e] eqn:E; [|discriminate HR].
  destruct (verified_evidence_consistent bundle4 s artifact0 E) as (pool & epoch & _ & _ & _ & HO & _ & _ & _ & _ & HL & _).
  exists s. split; [exact HO | exact HL].
Defined.
