(* ===== verification/DevnetClaims.v ===== *)
(** * Properties of deployment and publication

    How an attempt to deploy ends, what the deployment phase of a run has established, and what it
    means that evidence was published, with instances on concrete runs. *)

From S2P Require Import Runtime.
From S2P Require Import Prelude Bytes Extern ProgramWire ProgramState ProgramInstruction Ed25519 Processor ProcessorProps Chain.
From S2P Require Import BTree Domain Ledger Commitment Storage HostExtern HostCrypto HostRuntime Account LockJournal Lock LockRuntime.
From S2P Require Import Settlement Keyper KeyperProps KeyperRuntime Client Observer ObserverProps.
From S2P Require Import Evidence EvidenceRpc EvidenceFile EvidenceProps EvidenceQuorum EvidenceRuntime Deploy Devnet CommandLine DevnetProps.

(** C39 (safety). However an attempt to deploy goes, the call that removes the signers' directory comes last,
    if the directory was created; the attempt writes the artifact and otherwise only files in that
    directory; it runs the command at most once, and asks for the buffer back right after a command that
    ran and did not succeed, for this very buffer and in no other case; it succeeds exactly when the
    command did and the directory is gone; a directory that stays behind after the command is an error;
    and a refund that fails is reported with the buffer's address. *)
Theorem deploy_attempt_cleans_up `{Sha256} `{Solana} `{!EvidenceCodec} `{BuildCodec} `{!DeployCodec}
    io solana rpc_url payer buffer key action directory artifact runner refunder events outcome :
  deploy_checkpoint_with_runner_and_refunder io solana rpc_url payer buffer key action directory artifact runner refunder = (events, outcome) ->
  (forall d, CreateDirectory d ∈ events -> list.last events = Some (RemoveDirectory d)) /\
  (forall path bytes, WriteFile path bytes ∈ events ->
     (path = path_join directory (bstr "checkpoint.so") /\ bytes = artifact) \/
     exists d name, CreateDirectory d ∈ events /\ path = path_join d name) /\
  (forall arguments, RunCommand arguments ∈ events -> exists before d,
     events = before ++ RunCommand arguments
       :: (if runner arguments != Ok true then [RefundBuffer (ky_pubkey buffer)] else []) ++ [RemoveDirectory d] /\
     Forall quiet_event before) /\
  (forall b, RefundBuffer b ∈ events ->
     b = ky_pubkey buffer /\ exists arguments, RunCommand arguments ∈ events /\ runner arguments <> Ok true) /\
  (outcome = Ok tt <-> deployed_clean io runner events) /\
  (forall arguments, RunCommand arguments ∈ events -> dp_close io = false ->
     outcome = Err SignerCleanupFailed \/ outcome = Err (BufferAndSignerCleanupFailed (ky_pubkey buffer))) /\
  (forall b, RefundBuffer b ∈ events -> refunder b = false ->
     outcome = Err (BufferCleanupFailed b) \/ outcome = Err (BufferAndSignerCleanupFailed b)).
Proof.
  intros E. apply deploy_attempts in E. split_and!.
  - intros d. by eapply attempt_removes.
  - intros path bytes. by eapply attempt_writes.
  - intros arguments. by eapply attempt_runs_once.
  - intros b. by eapply attempt_refunds.
  - split; [intros ->; by eapply attempt_Ok | by eapply attempt_clean_Ok].
  - intros arguments. by eapply attempt_leaves_signers.
  - intros b. by eapply attempt_reports.
Qed.

(** C38 (safety). A run goes on after its deployment phase only on devnet, for the fixed program, with
    an output that did not exist, when the node shows exactly the artifact of the public checkpoint under
    the fixed address.  What the node showed before decides what was done: nothing when it was that
    artifact already, a first deployment when neither account was there, an upgrade when another
    executable was there under the payer's authority.  Unless nothing was to do, the command succeeded, the
    signers' directory is gone and the recorded authority is the payer.  And the payer held at least the
    rents of two mints, twelve token accounts and two records, twenty million lamports of fees, and for a
    first deployment the rents of the program, its data and the buffer, for an upgrade the buffer's. *)
Theorem devnet_deployment_exact `{Sha256} `{Solana} `{!EvidenceCodec} `{BuildCodec} `{!DeployCodec}
    world program rpc_url events d :
  devnet_deployment world program rpc_url = (events, Ok d) ->
  let rpc := dw_rpc world in
  let artifact := cc_artifact (dn_checkpoint d) in
  let payer := ky_pubkey (dn_payer d) in
  pubkey_from_str program = Some ID /\ dw_out_exists world = false /\ dr_genesis_hash rpc = Some DEVNET_GENESIS_HASH /\
  dw_payer world = Some (dn_payer d) /\
  deployed_at rpc 2 (ex_upgrade_authority (dn_deployed d)) artifact /\
  exists action rent available,
    calls_for rpc payer artifact action /\
    (if decide (action = Noop) then events = []
     else ex_upgrade_authority (dn_deployed d) = Some payer /\ deployed_clean (dw_io world) (deploy_runner (dw_calls world)) events) /\
    rents_shown rpc rent (length artifact) /\ dr_balance rpc payer = Some available /\
    (2 * rent mint_len + 12 * rent token_account_len + 2 * rent STATE_LEN + 20000000 +
     match action with
     | Noop => 0
     | Upgrade => rent (loader_buffer_len (length artifact))
     | Initial => rent loader_program_len + rent (loader_programdata_len (length artifact)) + rent (loader_buffer_len (length artifact))
     end <= available)%Z.
Proof.
  unfold devnet_deployment. intros E. apply st_bind_Ok in E as (k & Hk%ok_or_Ok & E). apply st_guard_Ok in E as [Hid E].
  apply st_guard_Ok in E as [Hout E]. apply st_bind_Ok in E as ([commit' cp] & _ & E). cbv zeta in E.
  apply st_bind_Ok in E as (genesis & Hg%ok_or_Ok & E). apply st_guard_Ok in E as [Hdev E].
  apply st_bind_Ok in E as (found & Hf & E). apply st_bind_Ok in E as (py & Hp%ok_or_Ok & E).
  apply st_bind_Ok in E as (key & _ & E). apply st_bind_Ok in E as (action & Hs & E).
  apply st_bind_Ok in E as (u & (rent & available & Hr & Hb & Hle)%peak_balance_held & E).
  apply st_bind_Ok in E as (exe & _ & E). apply st_bind_Ok in E as (root & _ & E).
  apply st_bind_Ok in E as (rd & _ & E). destruct (if action != Noop then _ else _) as [ev at_] eqn:Hat.
  apply st_bind_Ok in E as ([] & -> & E). apply st_bind_Ok in E as (o & Ho & E). apply st_bind_Ok in E as (x & Hx%ok_or_Ok & E). subst o.
  apply st_guard_Ok in E as [Hexe%neqb_false E]. apply st_guard_Ok in E as [Hau E]. injection E as -> <-. cbn [dn_checkpoint dn_payer dn_deployed]. apply neqb_false in Hid, Hdev. subst k genesis.
  split_and!; try done; [by apply extraction_exact|]. exists action, rent, available. split_and!; [by eapply selected_called_for| |done|done|exact Hle].
  destruct (decide (action = Noop)) as [->|Hn].
  - rewrite bool_decide_eq_true_2 in Hat by done. by injection Hat as <-.
  - rewrite bool_decide_eq_false_2 in Hat, Hau by done. cbn [negb andb] in Hat, Hau. split; [by apply neqb_false in Hau|].
    unfold deploy_checkpoint in Hat. apply st_bind_Ok in Hat as (solana & _ & Hat). apply deploy_attempts in Hat. by eapply attempt_Ok.
Qed.

(** C24 (safety). When evidence has been published, with a process of this very program as its fresh
    verifier: the path did not exist and only it changed, under directories nobody else can write; the
    bytes hold none of the forbidden words and no private material, as it is or in hexadecimal of either
    case, base58, base64 with or without padding, or JSON; and the bundle anyone parses from these bytes
    has its own content address, the program account on the node is exactly the artifact, and two
    keypers each signed the lock and the settlement that the node records. *)
Theorem published_evidence_verified `{Sha256} `{Solana} `{Dalek} `{Threshold} `{Sysvars} `{!KeyperCodec} `{ClientCodec} `{!EvidenceCodec}
    `{ObserverCodec} `{BuildCodec} `{!DevnetCodec} `{!DeployCodec}
    help s machine io executable files out rpc_url bundle material artifact_path files' :
  ed25519_program_id <> ID ->
  persist_verified_evidence io {| fv_executable := executable; fv_run := own_process help s machine |} files out rpc_url bundle material
    artifact_path = (files', Ok tt) ->
  exists bytes published artifact file pool epoch programdata metadata tail,
    files !! out = None /\ files' = <[out := bytes]> files /\ Forall safe_ancestor (pb_ancestors io) /\
    (forall word, word ∈ FORBIDDEN -> ~ occurs_in word bytes) /\
    (forall secret form, secret ∈ material -> secret <> [] -> form ∈ encodings_of secret -> ~ occurs_in form bytes) /\
    bundle_parse bytes = Some published /\ db_schema_version published = 1%Z /\
    evidence_content_hash (db_content published) = Ok (db_evidence_sha256 published) /\ verified_report published = verified_report bundle /\
    su_open s artifact_path = Some file /\ of_bytes file = Some artifact /\
    (exists k, parse_pubkey (de_programdata (dv_deployment (db_content published))) = Ok k /\
       er_account (su_rpc s rpc_url) 1 k = Some (Some programdata)) /\
    pa_data programdata = metadata ++ artifact ++ zeros tail /\ length metadata = programdata_metadata_len /\
    quorum_shown (su_rpc s rpc_url) pool epoch /\ residual_moved (dv_token_balances (db_content published)) epoch.
Proof.
  intros Hne E. apply persist_Ok in E as (json & output & _ & Hrun & Hsuccess & Hreport & Hnew & -> & Hanc & Hscan).
  cbn [fv_run] in Hrun. apply own_verifier_Ok in Hrun; [|done].
  apply checkpoint_verified in Hrun
    as (read & published & artifact & file & pool & epoch & pd & md & tail & Hread%stdin_read & Hp & Hs & Hc & Hrep & Hf & Hb & HP & Hd & Hl & HQ & HR); [|done].
  subst read. exists (json ++ [x0a]), published, artifact, file, pool, epoch, pd, md, tail. rewrite Hreport in Hrep.
  split_and!; try done.
  - intros word Hw. apply Hscan, elem_of_app. by left.
  - intros secret form Hin Hn Hform. apply Hscan, elem_of_app. right. by eapply encodings_listed.
Qed.

(** ** Instances *)

Local Existing Instances toy_sha toy_solana toy_dalek pad_threshold toy_sysvars pad_codec toy_evidence plain_observer toy_build.

Definition plain_text (b : list byte) : list Z := map byte_val b.

Definition no_requests : ClientCodec :=
  {| json_prepare_request := fun _ => None; json_account_request := fun _ => None; json_result_request := fun _ => None;
     json_epoch_view := fun _ => None; json_byte_list := fun b => Some b; json_prepare_response := fun _ => None;
     json_account_response := fun _ => None; json_result_response := fun _ => None; json_epoch_response := fun _ => None;
     bs58_decode := fun _ => None; bs58_encode := plain_text; base64_decode := fun _ => None; base64_encode := plain_text |}.
Definition toy_devnet : DevnetCodec := {| base64_no_pad := plain_text; json_secret := Some; signature_to_string := fun s => s |}.
Definition toy_deploy : DeployCodec :=
  {| loader_program_len := 36; loader_programdata_len := fun n => 45 + n; loader_buffer_len := fun n => 37 + n; mint_len := 82;
     token_account_len := 165; json_key_bytes := Some; loader_close_data := le_bytes 4 5 |}.
Local Existing Instances no_requests toy_devnet toy_deploy.

Definition directory0 : Metadata := {| md_is_dir := true; md_is_file := false; md_is_symlink := false; md_len := 0; md_mode := 16877 |}.
Definition artifact_file : OpenedFile :=
  {| of_metadata := Some {| md_is_dir := false; md_is_file := true; md_is_symlink := false; md_len := 12; md_mode := 33152 |};
     of_bytes := Some artifact0 |}.
Definition around4 : Surroundings :=
  {| su_stdin := None; su_stdout_ok := true; su_keypair := fun _ => {| kp_metadata := None; kp_bytes := None |};
     su_randomness := (tt : @Randomness pad_threshold); su_receipt := None; su_nonce := None; su_now := None;
     su_account_open := io_fine; su_account_io := io_fine; su_keyper_files := files0;
     su_keyper_rpc := fun _ => {| get_account := fun _ => None; get_multiple_accounts := fun _ => None |};
     su_lock_open := lock_io_fine; su_lock_sign := lock_io_fine;
     su_open := fun path => if path == bstr "verification-checkpoint.so" then Some artifact_file else None;
     su_build := build4; su_build_config := Some []; su_rpc := fun _ => node4; su_local_proof := Err []; su_devnet_proof := fun _ _ _ _ _ => Err [] |}.
Definition machine4 : Machine := {| mc_accounts := ∅; mc_lock := {| ld_journal := None; ld_marker := None |} |}.
Definition publish_io : PublishIo :=
  {| pb_create_dir_all := true; pb_parent_absolute := true; pb_current_dir := true; pb_ancestors := [Some directory0; Some directory0];
     pb_tempfile := true; pb_write := true; pb_persist := true; pb_sync := true; pb_sync_directory := true |}.
Definition own_verifier : FreshVerifier := {| fv_executable := Some (bstr "kageb"); fv_run := own_process (fun _ => []) around4 machine4 |}.
Definition evidence_path : text := bstr "evidence.json".
Definition secret4 : list byte := arr_list (key xee).

Lemma publication_runs :
  snd (persist_verified_evidence publish_io own_verifier ∅ evidence_path (bstr "rpc") bundle4 [secret4] (bstr "verification-checkpoint.so")) = Ok tt.
Proof. vm_compute. reflexivity. Qed.

Lemma published_evidence_verified_witness :
  exists (files' : gmap text (list byte)) bytes pool epoch, files' !! evidence_path = Some bytes /\ ~ occurs_in secret4 bytes /\ quorum_shown node4 pool epoch.
Proof.
  destruct (persist_verified_evidence publish_io own_verifier ∅ evidence_path (bstr "rpc") bundle4 [secret4] (bstr "verification-checkpoint.so"))
    as [files' r] eqn:E.
  assert (r = Ok tt) as -> by (pose proof publication_runs as R; rewrite E in R; exact R).
  assert (ed25519_program_id <> ID) as Hne.
  { intros F. apply (f_equal (fun k : Pubkey => byte_at 0 k)) in F. vm_compute in F. discriminate. }
  destruct (published_evidence_verified (fun _ => []) around4 machine4 publish_io (Some (bstr "kageb")) ∅ evidence_path (bstr "rpc") bundle4
    [secret4] (bstr "verification-checkpoint.so") files' Hne E)
    as (bytes & published & artifact & file & pool & epoch & pd & md & tail & _ & Hf & _ & _ & Hsecret & _ & _ & _ & _ & _ & _ & _ & _ & _ & HQ & _).
  exists files', bytes, pool, epoch. split_and!; [by rewrite Hf, lookup_insert_eq | | exact HQ].
  apply (Hsecret secret4 secret4); [by apply list_elem_of_singleton | discriminate | apply elem_of_cons; by left].
Defined.

(** The first deployment: nothing is there, then the artifact is. *)
Definition payer4 : Keypair := {| ky_pubkey := key x0f; ky_bytes := [x01] |}.
Definition deployed_data : list byte := le_bytes 4 3 ++ le_bytes 8 5 ++ x01 :: (key x0f : list byte) ++ artifact0 ++ zeros 3.
Definition deploy_rpc : DeployReplies :=
  {| dr_genesis_hash := Some DEVNET_GENESIS_HASH;
     dr_account := fun call k => if call <? 2 then Some None else
       if call =? 2 then Some (Some (public UPGRADEABLE_LOADER_ID true (le_bytes 4 2 ++ (programdata_address : list byte))))
       else Some (Some (public UPGRADEABLE_LOADER_ID false deployed_data));
     dr_minimum_balance := fun n => Some (Z.of_nat n); dr_balance := fun _ => Some 30000000%Z |}.
Definition deploy_io : DeployIo :=
  {| dp_write := fun _ => PrivateWritten; dp_tempdir := Some (bstr "/run/signers"); dp_permissions := true; dp_close := true |}.
Definition deploy_calls : DeployCalls :=
  {| dl_command := fun _ => Some {| out_success := true; out_stdout := []; out_stderr := [] |}; dl_blockhash := true; dl_send := fun _ => true |}.
Definition buffer4 : Keypair := {| ky_pubkey := key xbf; ky_bytes := [x02] |}.
Definition program4 : Keypair := {| ky_pubkey := ID; ky_bytes := [x03] |}.
Definition environment4 : Environment :=
  {| en_cargo := None; en_path := Some [bstr "/bin"]; en_cargo_home := None; en_home := None;
     en_metadata := fun _ => Some {| md_is_dir := false; md_is_file := true; md_is_symlink := false; md_len := 1; md_mode := 33261 |} |}.
Definition deploy_world : DeployWorld :=
  {| dw_out_exists := false;
     dw_repository := {| rp_root := true; rp_status := quiet; rp_head := Finished true (Some (repeat 97%Z 40)); rp_given := None;
                         rp_config := Some []; rp_build := fun _ => build4 |};
     dw_rpc := deploy_rpc; dw_payer := Some payer4;
     dw_key_files := {| kf_root := Some (bstr "/repo"); kf_configured := Some (bstr "key.json"); kf_is_symlink := fun _ => false;
                        kf_canonicalize := fun _ => Some (bstr "/keys/key.json"); kf_read_keypair := fun _ => Some program4 |};
     dw_executable := Some (bstr "/bin/kageb"); dw_private_root := {| ri_create := true; ri_permissions := true; ri_canonical := Some (bstr "/private") |};
     dw_run_directory := Some (bstr "/run"); dw_io := deploy_io; dw_calls := deploy_calls;
     dw_environment := environment4; dw_buffer := buffer4 |}.

Lemma deployment_runs : is_ok (snd (devnet_deployment deploy_world (key_text ID) (bstr "rpc"))) = true.
Proof. vm_compute. reflexivity. Qed.

Lemma devnet_deployment_exact_witness : exists authority artifact, deployed_at deploy_rpc 2 authority artifact.
Proof.
  destruct (devnet_deployment deploy_world (key_text ID) (bstr "rpc")) as [events r] eqn:E.
  pose proof deployment_runs as R. rewrite E in R. destruct r as [d|e]; [|discriminate R].
  destruct (devnet_deployment_exact deploy_world (key_text ID) (bstr "rpc") events d E) as (_ & _ & _ & _ & HD & _).
  by eexists _, _.
Defined.

(** A command that fails and a refund that fails too. *)
Definition failed_attempt : list DeployEvent * result DemoError unit :=
  deploy_checkpoint_with_runner_and_refunder deploy_io (bstr "solana") (bstr "rpc") payer4 buffer4 None Upgrade (bstr "/run") artifact0
    (fun _ => Ok false) (fun _ => false).

Lemma failed_attempt_events :
  RefundBuffer (key xbf) ∈ fst failed_attempt /\ CreateDirectory (bstr "/run/signers") ∈ fst failed_attempt.
Proof. split; apply (bool_decide_unpack _); vm_compute; exact I. Qed.

Lemma deploy_attempt_cleans_up_witness :
  list.last (fst failed_attempt) = Some (RemoveDirectory (bstr "/run/signers")) /\
  (snd failed_attempt = Err (BufferCleanupFailed (key xbf)) \/ snd failed_attempt = Err (BufferAndSignerCleanupFailed (key xbf))).
Proof.
  destruct (deploy_attempt_cleans_up deploy_io (bstr "solana") (bstr "rpc") payer4 buffer4 None Upgrade (bstr "/run") artifact0
    (fun _ => Ok false) (fun _ => false) (fst failed_attempt) (snd failed_attempt) (surjective_pairing failed_attempt)) as (HD & _ & _ & _ & _ & _ & HR).
  destruct failed_attempt_events as [F1 F2]. split; [exact (HD _ F2) | exact (HR _ F1 eq_refl)].
Defined.
