(* ===== verification/LocalClaims.v ===== *)
(** * Properties of the local demonstration and its rehearsals

    The alarms that no run of them raises, with complete concrete runs. *)

From S2P Require Import Runtime.
From S2P Require Import Prelude Bytes Extern ProgramWire ProgramState ProgramInstruction Transactions Processor ProcessorProps Chain.
From S2P Require Import BTree Domain Ledger Commitment Storage Reservation ReservationProps Account HostExtern HostCrypto HostCryptoProps HostRuntime Suspension Dealer LockJournal Lock LockRuntime ConfirmedReads.
From S2P Require Import Settlement SettlementRuntime Keyper KeyperProps KeyperRuntime Client Evidence Deploy Devnet Observer CommandLine LocalDemo Validator LocalRun Alarms LocalProps LocalRunProps ObserverClaims.

(** However the node, the disk, the draws and the keypers' processes behave, what the alarms of a rehearsal
    come from.  An expired or aborted epoch leaves no reservation active; the
    intent whose lots were overwritten is found in the package and is not decoded from two accepted
    shares; and, as long as the registry's file can be read, its trader stays suspended after reopening
    and gets no later authorization.  The balanced batch yields a venue leg only if the first keyper's
    process answers with another payload of the digest it was asked to sign.  Only the node can have moved
    tokens, kept an epoch in another phase or shown a residual.  The wait for a deadline ends once the clock the node shows is past it. *)
Theorem rehearsals_raise_no_alarm `{Sha256} `{Solana} `{Dalek} `{Threshold} `{Sysvars} `{!KeyperCodec} `{!SecretSets} `{!LocalCodec}
    `{!LocalCodecLaws} `{!ThresholdLaws} `{!SecretSetsLaws} w m polls (error : LocalError) :
  alarm error = true ->
  (underfilled_epoch_expires_and_releases w m polls = Err error -> error = ExpiryMoved /\ node_moved w m Expired) /\
  (registry_readable w -> invalid_reveal_aborts_and_suspends w m polls = Err error -> error = AbortMoved /\ node_moved w m Aborted) /\
  (balanced_zero_residual_settlement w m = Err error -> balanced_cause w m error) /\
  (forall clock deadline turns now, (forall t, t < turns -> exists v, read_clock (clock t) = Ok v) ->
     read_clock (clock turns) = Ok now -> (deadline < now)%Z -> turns < polls -> wait_past clock deadline 0 polls = Ok tt).
Proof.
  intros HA. split_and!.
  - intros E. by apply (calm_underfilled w m polls _ E).
  - intros HW E. by apply (calm_invalid w m polls HW _ E).
  - intros E. by apply (calm_balanced w m _ E).
  - intros clock deadline turns now Hr Hn Hd Hp. by apply (wait_past_ends clock deadline turns now).
Qed.


(** ** Concrete runs *)

(** A hash that tells the members' balances apart: the bytes as digits, cut to 48 bits. *)
Definition digit_hash (l : list byte) : bytes32 :=
  to_arr (le_bytes 32 (fold_left (fun h b => Z.land (h * 257 + byte_val b) 281474976710655) l 1)%Z).
Definition digit_sha : Sha256 := digit_hash.

Section runs.
Local Existing Instances digit_sha toy_solana toy_dalek pad_threshold pad_threshold_laws toy_sysvars pad_codec.

Definition dealt_sets : @SecretSets pad_threshold :=
  {| SecretKeySet := unit; secrets_try_random := fun t _ => if t =? 1 then Some tt else None; secrets_public_keys := fun _ => tt; secrets_share := fun _ _ => tt |}.
Lemma dealt_sets_laws : @SecretSetsLaws pad_threshold dealt_sets.
Proof. constructor; [|reflexivity]. intros t seed s E. cbn in *. by destruct (Nat.eqb_spec t 1). Qed.
Definition verifier_only : LocalCodec := fun message _ _ => {| ix_program_id := zero32; ix_accounts := []; ix_data := message |}.
Lemma verifier_only_laws : @LocalCodecLaws verifier_only.
Proof. intros ???. done. Qed.
Local Existing Instances dealt_sets dealt_sets_laws verifier_only verifier_only_laws.

(** A keyper's process: it signs what it is sent, answers with its share of the member asked for, and
    approves the settlement it recomputes over the lock its node shows. *)
Definition answer_lock (attester : bytes32) (stdin : list byte) : option (list byte) :=
  package ← ok (LockPackageV1_decode_wire (drop 77 stdin));
  let digest := LockPayloadV1_digest (LockPackageV1_lock_payload package) in
  Some (sign_lock_response {| la_keyper_key := attester; la_digest := digest; la_signature := dalek_sign attester digest |}).

Definition answer_share (stdin : list byte) : option (list byte) :=
  package ← ok (LockPackageV1_decode_wire (drop 81 stdin));
  submission ← pk_submissions package !! Z.to_nat (le_val (slice 73 77 stdin));
  ok (ReleasedShareV1_encode_wire {| rel_epoch_account := pk_epoch_account package;
    rel_lock_digest := LockPayloadV1_digest (LockPackageV1_lock_payload package); rel_ciphertext_hash := sha256 (es_ciphertext submission);
    rel_index := le_val (slice 33 41 stdin); rel_share := tt |}).

Definition answer_settlement (node : RpcReplies) (attester : bytes32) (stdin : list byte) : option (list byte) :=
  request ← ok (SettlementRequestV1_decode_wire (drop 73 stdin));
  confirmed ← ok (fetch_confirmed_lock node epoch_key);
  r ← ok (recompute (sq_package request) (sq_decryption_evidence request) (sq_settlement_nonce request) confirmed);
  let digest := SettlementPayloadV1_digest (rc_payload r) in
  Some (SettlementApprovalV1_encode_wire {| sa_keyper_key := attester; sa_payload := rc_payload r; sa_digest := digest;
    sa_signature := dalek_sign attester digest |}).

Definition child (node : RpcReplies) (index : nat) : ChildWorld :=
  let attester := nth index [key x21; key x22; key x23] zero32 in
  {| cw_executable := bstr "kageb"; cw_directory := bstr "/k";
     cw_metadata := Some {| md_is_dir := true; md_is_file := false; md_is_symlink := false; md_len := 0; md_mode := 16832 |};
     cw_contents := Some [];
     cw_run := fun operation stdin =>
       let answer := if operation == bstr "sign-lock" then answer_lock attester stdin
         else if operation == bstr "release-share" then answer_share stdin else answer_settlement node attester stdin in
       Exited {| out_success := true; out_stdout := default [] answer; out_stderr := [] |} |}.

Definition draws_of (index : nat) : MemberDraws :=
  let draw b := Some (filled 32 (byte_of (b + Z.of_nat index))) in
  {| mw_trading := draw 64%Z; mw_participant := draw 80%Z; mw_reservation := draw 96%Z; mw_intent_nonce := Some (filled 16 x01);
     mw_encryption := tt; mw_receipt := draw 112%Z; mw_reserve := io_fine; mw_issue := io_fine |}.

Definition market1 : LocalMarket :=
  {| lm_payer := payer_key; lm_operator := operator_key; lm_attestation := operator_key; lm_pool := pool_key; lm_vault_authority := vault_key;
     lm_base_mint := base_mint_key; lm_quote_mint := quote_mint_key; lm_venue_authority := venue_key;
     lm_attesters := (key x21, key x22, key x23); lm_backed := (pool_base_key, pool_quote_key, venue_base_key, venue_quote_key) |}.

(** A node whose clock passes the deadlines on its third reading, and that shows [epoch] at the end. *)
Definition world_of (node : RpcReplies) (epoch : RpcAccount) : LocalWorld :=
  let token := {| ra_owner := key xfe; ra_data := zeros 165 |} in
  {| lw_clock := Some (clock_rpc 50 1500); lw_epoch_id := Some epoch_id0; lw_blockhash := fun _ => true; lw_sends := fun _ _ => true; lw_tempdir := true;
     lw_accounts_open := io_fine; lw_reservations_open := io_fine; lw_suspensions_open := io_fine; lw_dealer := Some (key x05);
     lw_slot := Some 50%Z; lw_members := draws_of; lw_package_nonce := Some (key x06); lw_directories := true;
     lw_sign_lock := child node; lw_release_share := fun index _ => child node index; lw_sign_settlement := child node;
     lw_confirmed := node; lw_settlement_nonce := Some (key x07); lw_tokens_before := fun _ => Some token; lw_tokens_after := fun _ => Some token;
     lw_epoch_after := Some epoch; lw_clock_polls := fun turn => Some (clock_rpc 60 (if turn <? 2 then 1500 else 1600));
     lw_release := {| sio_reservations := io_fine; sio_query := io_fine; sio_apply := io_fine |};
     lw_suspend := io_fine; lw_suspensions_reopen := io_fine; lw_later := draws_of 7; lw_later_epoch := Some (key x08) |}.

Definition stored (state : EpochStateV1) : RpcAccount := {| ra_owner := ID; ra_data := EpochStateV1_encode state |}.
Definition ended_world (final : EpochTerminalState) : LocalWorld :=
  let epoch := stored (set_terminal epoch_state0 final) in
  world_of {| get_account := fun _ => Some (55%Z, Some epoch); get_multiple_accounts := fun _ => None |} epoch.

Example underfilled_runs : underfilled_epoch_expires_and_releases (ended_world Expired) market1 3 = Ok tt.
Proof. vm_compute. reflexivity. Qed.
Example invalid_reveal_runs : invalid_reveal_aborts_and_suspends (ended_world Aborted) market1 3 = Ok tt.
Proof. vm_compute. reflexivity. Qed.

(** The balanced run: the package its members form, and the epoch locked on it. *)
Definition pool1 : PoolStateV1 :=
  new_pool init_accounts {| ia_lock_threshold := 2; ia_settlement_threshold := 2; ia_base_lot_atoms := 1; ia_keypers := keypers3 |}.
Definition package1 : LockPackageV1 := built package0 (
  let w := ended_world Locked in
  reservations ← open_reservations w;
  suspensions ← open_suspensions w;
  '(_, members) ← prepare_members (fun index => prepare_member (draws_of index) market1 suspensions epoch_id0 50 (nth index balanced_sides Buy)
    (EpochPublicKeys_encrypt public_keys0 tt)) [0; 1; 2; 3] reservations;
  local_package w market1 epoch_key (local_configuration market1 epoch_id0 1800 2100) public_keys0 members).
Definition locked_on (package : LockPackageV1) : EpochStateV1 :=
  let payload := LockPackageV1_lock_payload package in
  set_locked (new_epoch pool_key epoch_key pool1 {| ca_epoch_id := epoch_id0; ca_minimum_count := 4; ca_quote_atoms_per_lot := 100;
    ca_lock_deadline := 1800; ca_abort_deadline := 2100 |}) payload (LockPayloadV1_digest payload).
Definition locked1 : EpochStateV1 := locked_on package1.
Definition node1 : RpcReplies :=
  {| get_account := fun _ => Some (55%Z, Some (stored locked1));
     get_multiple_accounts := fun _ => Some (60%Z, [Some (stored locked1); Some {| ra_owner := ID; ra_data := PoolStateV1_encode pool1 |}; Some (clock_rpc 60 1600)]) |}.
Example balanced_runs : balanced_zero_residual_settlement (world_of node1 (stored (set_terminal locked1 Settled))) market1 = Ok tt.
Proof. vm_compute. reflexivity. Qed.

Lemma rehearsals_raise_no_alarm_witness :
  (underfilled_epoch_expires_and_releases (ended_world Aborted) market1 3 = Err LaterAuthorization -> LaterAuthorization = ExpiryMoved) /\
  (invalid_reveal_aborts_and_suspends (ended_world Aborted) market1 3 = Err LaterAuthorization -> LaterAuthorization = AbortMoved) /\
  wait_past (lw_clock_polls (ended_world Aborted)) 1532 0 3 = Ok tt.
Proof.
  destruct (rehearsals_raise_no_alarm (ended_world Aborted) market1 3 LaterAuthorization) as (HU & HI & _ & HW); [reflexivity|].
  split; [intros E; exact (proj1 (HU E)) | split].
  - intros E. refine (proj1 (HI _ E)). split; [reflexivity | split; reflexivity].
  - apply (HW _ _ 2 1600%Z); [|reflexivity | lia | lia]. intros t Ht. destruct t as [|[|t]]; [eexists; reflexivity | eexists; reflexivity | lia].
Defined.

(** Builders of the setup that always succeed and name their signers. *)
Definition setup_ix (program : Pubkey) (signers : list Pubkey) (data : list byte) : Instruction :=
  {| ix_program_id := program; ix_accounts := map (fun k => AccountMeta_new k true) signers; ix_data := data |}.
Definition toy_setup : SetupCodec :=
  {| system_create_account := fun payer account _ _ owner => setup_ix zero32 [payer; account] owner;
     spl_initialize_mint2 := fun program mint _ _ => Some (setup_ix program [] mint);
     spl_initialize_account3 := fun program account _ _ => Some (setup_ix program [] account);
     spl_mint_to_checked := fun program _ destination owner _ _ => Some (setup_ix program [owner] destination);
     spl_set_authority := fun program owned _ _ owner => Some (setup_ix program [owner] owned) |}.
Lemma toy_setup_laws : @SetupCodecLaws toy_solana toy_setup.
Proof.
  split; try done.
  1-4: intros until ix; cbn; by intros [= <-].
  intros program source mint destination authority amount decimals ix E. cbn -[le_bytes] in E.
  destruct (_ && _) in E; [|done]. by apply Ok_inj in E as <-.
Qed.
Local Existing Instances toy_setup toy_setup_laws toy_observer toy_dalek_laws.

(** The demonstration's own batch, from its epoch to the persisted results. *)
Definition failing : ChildWorld :=
  {| cw_executable := bstr "kageb"; cw_directory := bstr "/k"; cw_metadata := cw_metadata (child node1 0); cw_contents := Some [];
     cw_run := fun _ _ => Exited {| out_success := false; out_stdout := []; out_stderr := [] |} |}.
Definition built_earlier : ArtifactWorld :=
  {| aw_sources := DirectoryNode (Some [Some (bstr "lib.rs", FileNode)]); aw_modified := fun _ => Some 1%Z; aw_artifact := ModifiedAt 2; aw_build := None; aw_created := true |}.
Definition tools : Environment :=
  {| en_cargo := None; en_path := Some [bstr "/bin"]; en_cargo_home := None; en_home := None;
     en_metadata := fun _ => Some {| md_is_dir := false; md_is_file := true; md_is_symlink := false; md_len := 1; md_mode := 33261 |} |}.
(** The setup draws the market's keys first; a signature is the number of its call. *)
Definition drawn (n : nat) : Pubkey :=
  nth n [base_mint_key; quote_mint_key; pool_base_key; pool_quote_key; venue_base_key; venue_quote_key; key x1b; key x1c] (filled 32 (byte_of (128 + Z.of_nat n))).
Definition setup1 : SetupWorld :=
  {| su_keys := drawn; su_rent := fun _ size => Some (size * 10)%Z; su_blockhash := fun _ => true; su_sends := fun n _ => Some (filled 64 (byte_of (Z.of_nat n))) |}.
Definition amounts (k : Pubkey) : option RpcAccount :=
  let amount := if k == pool_base_key then 6%Z else if k == venue_base_key then 8%Z else 200%Z in
  Some {| ra_owner := key xfe; ra_data := token_data base_mint_key venue_key amount |}.
Definition with_amounts (w : LocalWorld) : LocalWorld :=
  {| lw_clock := lw_clock w; lw_epoch_id := lw_epoch_id w; lw_blockhash := lw_blockhash w; lw_sends := lw_sends w; lw_tempdir := lw_tempdir w; lw_accounts_open := lw_accounts_open w;
     lw_reservations_open := lw_reservations_open w; lw_suspensions_open := lw_suspensions_open w; lw_dealer := lw_dealer w; lw_slot := lw_slot w;
     lw_members := lw_members w; lw_package_nonce := lw_package_nonce w; lw_directories := lw_directories w; lw_sign_lock := lw_sign_lock w;
     lw_release_share := lw_release_share w; lw_sign_settlement := lw_sign_settlement w; lw_confirmed := lw_confirmed w;
     lw_settlement_nonce := lw_settlement_nonce w; lw_tokens_before := amounts; lw_tokens_after := amounts; lw_epoch_after := lw_epoch_after w;
     lw_clock_polls := lw_clock_polls w; lw_release := lw_release w; lw_suspend := lw_suspend w; lw_suspensions_reopen := lw_suspensions_reopen w;
     lw_later := lw_later w; lw_later_epoch := lw_later_epoch w |}.
Definition validator1 : ValidatorWorld :=
  {| vw_ports := {| pw_draws := fun n => Some (8000 + 100 * Z.of_nat n)%Z; pw_bindable := fun _ _ => true |};
     vw_ledger := Some (bstr "/ledger"); vw_log := true; vw_log_clone := true; vw_spawn := fun _ _ => true |}.
Definition run_world (main balanced : LocalWorld) (transactions : bytes64 -> option ConfirmedTransaction) : RunWorld :=
  {| rw_executable := true; rw_environment := tools; rw_program := built_earlier; rw_token := built_earlier; rw_manifest := bstr "/h";
     rw_start := validator1; rw_health := fun turn => (true, Some (Z.of_nat turn)); rw_token_program := Some true; rw_payer := Some payer_key;
     rw_operator := Some operator_key; rw_venue_authority := venue_key; rw_attesters := (Some (key x21), Some (key x22), Some (key x23));
     rw_wallets := (key x41, key x42, key x43, key x44); rw_setup := setup1;
     rw_main := with_amounts main; rw_register := fun _ => io_fine; rw_partial_nonce := Some (key x09); rw_partial_sign := failing; rw_partial_release := failing;
     rw_lock_signature := filled 64 xf1; rw_settlement_signature := filled 64 xf2; rw_pool_after := Some {| ra_owner := ID; ra_data := PoolStateV1_encode pool1 |};
     rw_finalize := {| sio_reservations := io_fine; sio_query := io_fine; sio_apply := io_fine |}; rw_query := fun _ => io_fine;
     rw_balanced := balanced; rw_underfilled := ended_world Expired; rw_invalid := ended_world Aborted;
     rw_transactions := fun signature turn => if turn <? 1 then None else transactions signature |}.

Definition dealer1 : EpochDealer := {| ed_secrets := tt : @SecretKeySet _ dealt_sets; ed_public := public_keys0 |}.
Definition package2 : LockPackageV1 := built package0 (
  let w := run_world (ended_world Locked) (ended_world Locked) (fun _ => None) in
  accounts ← map_err Step (open_accounts (rw_main w));
  reservations ← map_err Step (open_reservations (rw_main w));
  suspensions ← map_err Step (open_suspensions (rw_main w));
  '(_, _, members) ← enrol_members w market1 public_keys0 suspensions epoch_id0 50 (zip (seq 0 4) direct_sides) accounts reservations;
  balances ← map_err (fun _ => Step MakeBalance) (try_map (fun member => BalanceRecordV1_new (rm_participant member) 1 100 1 100) members);
  run_package market1 epoch_key (local_configuration market1 epoch_id0 1800 2100) public_keys0 (map rm_submission members) balances
    (lw_package_nonce (rw_main w))).
Definition node2 : RpcReplies :=
  {| get_account := fun _ => Some (55%Z, Some (stored (locked_on package2)));
     get_multiple_accounts := fun _ =>
       Some (60%Z, [Some (stored (locked_on package2)); Some {| ra_owner := ID; ra_data := PoolStateV1_encode pool1 |}; Some (clock_rpc 60 1600)]) |}.

(** The transactions the node confirms: four direct trades, the lock and the settlement of the recomputed payload. *)
Definition settled2 : CompactSettlementPayload :=
  let share index submission := {| rel_epoch_account := epoch_key; rel_lock_digest := LockPayloadV1_digest (LockPackageV1_lock_payload package2);
    rel_ciphertext_hash := sha256 (es_ciphertext submission); rel_index := index; rel_share := tt |} in
  built compact0 (
    evidence ← try_map (fun s => map_err (fun _ => tt) (DecryptionEvidenceV1_new (share 0%Z s) (share 1%Z s))) (pk_submissions package2);
    confirmed ← map_err (fun _ => tt) (fetch_confirmed_lock node2 epoch_key);
    r ← map_err (fun _ => tt) (recompute package2 evidence (key x07) confirmed);
    Ok (CompactSettlementPayload_from (rc_payload r))).
Definition shown2 : KagebObserverAccounts :=
  {| ko_fee_payer := payer_key; ko_payer := operator_key; ko_pool := pool_key; ko_epoch := epoch_key; ko_vault_authority := vault_key;
     ko_pool_base_vault := pool_base_key; ko_pool_quote_vault := pool_quote_key; ko_venue_authority := venue_key;
     ko_venue_base_account := venue_base_key; ko_venue_quote_account := venue_quote_key; ko_base_mint := base_mint_key;
     ko_quote_mint := quote_mint_key; ko_base_lot_atoms := 1; ko_quote_atoms_per_lot := 100 |}.
Definition bought (wallet : Pubkey) : ConfirmedTransaction :=
  confirmed_with [payer_key; key x71; quote_mint_key; key x1c; wallet; TOKEN_PROGRAM_ID]
    [{| ci_program_id_index := 5; ci_accounts := [1; 2; 3; 4]%Z; ci_data := map byte_of (leg_text 100) |}] [].
Definition sold (wallet : Pubkey) : ConfirmedTransaction :=
  confirmed_with [payer_key; key x72; base_mint_key; key x1b; wallet; TOKEN_PROGRAM_ID]
    [{| ci_program_id_index := 5; ci_accounts := [1; 2; 3; 4]%Z; ci_data := map byte_of (leg_text 1) |}] [].
Definition lock2 : ConfirmedTransaction :=
  confirmed_with (lock_keys shown2)
    [verifier_at 6 (key x21); verifier_at 6 (key x22);
     {| ci_program_id_index := 7; ci_accounts := [1; 2; 3; 4; 5]%Z; ci_data := KagebInstruction_encode (ProgramInstruction.Lock (LockPackageV1_lock_payload package2)) |}] [].
Definition settlement2 : ConfirmedTransaction :=
  confirmed_with (settlement_keys shown2)
    [verifier_at 15 (key x21); verifier_at 15 (key x22);
     {| ci_program_id_index := 16; ci_accounts := [1; 2; 3; 4; 5; 6; 7; 8; 9; 10; 11; 12; 13; 14]%Z;
        ci_data := KagebInstruction_encode (Settle settled2) |}]
    [{| ui_index := 2; ui_instructions := [Compiled 12 [6; 11; 9; 4]%Z (leg_text 200); Compiled 12 [8; 10; 5; 7]%Z (leg_text 2)] |}].
Definition confirmed2 (signature : bytes64) : option ConfirmedTransaction :=
  list_to_map (M := gmap (list byte) ConfirmedTransaction) [(filled 64 (byte_of 13) : list byte, bought (key x41)); (filled 64 (byte_of 20) : list byte, sold (key x42));
    (filled 64 (byte_of 27) : list byte, bought (key x43)); (filled 64 (byte_of 34) : list byte, bought (key x44));
    (filled 64 xf1 : list byte, lock2); (filled 64 xf2 : list byte, settlement2)] !! (signature : list byte).

Definition world2 : RunWorld :=
  run_world (world_of node2 (stored (set_terminal (locked_on package2) Settled))) (world_of node1 (stored (set_terminal locked1 Settled))) confirmed2.
Example run_batch_runs : run_batch world2 market1 dealer1 = Ok (epoch_key, (1%Z, 100%Z)).
Proof. vm_compute. reflexivity. Qed.

End runs.
