(* ===== verification/DevnetRunClaims.v ===== *)
(** * Properties of the demonstration on devnet

    What a run may leave in the published files however it ends, and that the sentences it prints are true
    when it succeeds, with a complete concrete run. *)

From S2P Require Import Runtime.
From S2P Require Import Prelude Bytes Extern ProgramWire ProgramState ProgramInstruction Ed25519 Processor ProcessorProps Chain.
From S2P Require Import BTree Domain Ledger Commitment Storage Reservation Account HostExtern HostCrypto HostCryptoProps HostRuntime Suspension Dealer.
From S2P Require Import LockJournal Lock LockRuntime ConfirmedReads Settlement SettlementRuntime Keyper KeyperProps KeyperRuntime Client Observer ObserverProps.
From S2P Require Import Evidence EvidenceRpc EvidenceFile EvidenceProps EvidenceQuorum EvidenceRuntime Deploy Devnet CommandLine.
From S2P Require Import LocalDemo LocalRun DevnetRun Alarms LocalProps LocalRunProps DevnetProps DevnetRunProps DevnetClaims LocalClaims.

(** C25 (safety). However a run on devnet ends, whatever the node, the disk, the draws and the processes do:
    of the published files only its output can have changed, and only if it did not exist; the bytes written
    there hold no forbidden word and, as it is or in any of the six encodings the run scans for, none of this: the
    signing keys of the payer, the program, the operator, the venue, the attesters and the wallets; the trading key,
    identifier, reservation, intent nonce and receipt each member drew; the nonces of the package and the
    settlement; the three dealt shares; the private paths.  And the run never ends because a transaction lacks a
    signer or has one too many, or because a member's stored result differs from the netted one. *)
Theorem devnet_run_keeps_secrets `{Sha256} `{Solana} `{Dalek} `{Threshold} `{Sysvars} `{!KeyperCodec} `{!SecretSets} `{!LocalCodec} `{!SetupCodec}
    `{!EvidenceCodec} `{ObserverCodec} `{ClientCodec} `{BuildCodec} `{!DevnetCodec} `{!DeployCodec}
    w files payer_path program out rpc_url events files' outcome :
  devnet_proof w files payer_path program out rpc_url = (events, files', outcome) ->
  (files' = files \/ exists d bytes, snd (devnet_deployment (nw_deploy w) program rpc_url) = Ok d /\
     files !! out = None /\ files' = <[out := bytes]> files /\
     (forall word, word ∈ FORBIDDEN -> ~ occurs_in word bytes) /\
     (forall secret form, run_secret w d payer_path secret -> secret <> [] -> form ∈ encodings_of secret -> ~ occurs_in form bytes)) /\
  (LocalCodecLaws -> SetupCodecLaws -> outcome <> Err (Running (Step Unsigned)) /\ outcome <> Err (Running ResultDiffers)).
Proof.
  intros E. pose proof (devnet_proof_cases w files payer_path program out rpc_url) as HF.
  rewrite E in HF. split; [exact HF|]. intros HL HU. pose proof (calm_devnet_proof w files payer_path program out rpc_url) as HC. rewrite E in HC.
  split; intros ->; by specialize (HC _ eq_refl).
Qed.

(** C26 (functional). What a successful run prints is true: the settlement it requested over the confirmed
    lock nets to exactly two lots bought; two keypers, each under its own key, signed the one digest it carries;
    the pool paid 200 quote atoms and received two base atoms from the venue; the node shows the epoch settled
    with four members and the request's commitment; the published file is the printed form of a bundle of
    exactly this run, which the run verified against the node; and the report names its address. *)
Theorem devnet_report_holds `{Sha256} `{Solana} `{Dalek} `{Threshold} `{Sysvars} `{!KeyperCodec} `{!SecretSets} `{!LocalCodec} `{!SetupCodec}
    `{!EvidenceCodec} `{ObserverCodec} `{ClientCodec} `{BuildCodec} `{!DevnetCodec} `{!DeployCodec} `{!ThresholdLaws} `{!SecretSetsLaws}
    w files payer_path program out rpc_url events files' report :
  devnet_proof w files payer_path program out rpc_url = (events, files', Ok report) ->
  exists p run bundle json funding_slots lock_slot settlement_slot,
    settles w p run /\ sq_residual (sr_settlement run) = Residual.Buy 2 /\
    db_content bundle = devnet_content run funding_slots lock_slot settlement_slot /\
    verify_devnet_evidence_at_rpc (nw_evidence w) bundle (cc_artifact (sr_checkpoint run)) = Ok tt /\
    bundle_print bundle = Some json /\ files' !! out = Some (json ++ [x0a]) /\
    report = devnet_report (db_evidence_sha256 bundle) (sr_settlement_signature run).
Proof.
  intros (d & p & run & bundle & json & x & y & z & _ & HR & HS & HC & HV & HJ & HO & HT)%devnet_proof_Ok.
  exists p, run, bundle, json, x, y, z. split_and!; try done. by eapply settles_residual.
Qed.

(** ** A complete run *)

Section runs.
Local Existing Instances digit_sha toy_solana toy_dalek pad_threshold pad_threshold_laws toy_sysvars pad_codec dealt_sets dealt_sets_laws verifier_only verifier_only_laws toy_setup toy_setup_laws.

(** A bundle prints as its address. *)
Definition address_evidence : EvidenceCodec :=
  {| content_json := fun c => Some (json_of c); bundle_parse := fun _ => None; bundle_print := fun b => Some (db_evidence_sha256 b);
     pubkey_from_str := fun t => ok (parse_digest t); pubkey_to_string := key_text; signature_from_str := fun t => try_into 64 t;
     loader_deserialize := toy_loader; programdata_metadata_len := 45; mint_unpack := toy_mint; account_unpack := toy_account;
     dalek_verify_strict := fun k _ s => s == twice k |}.
Local Existing Instances address_evidence plain_observer toy_build no_requests toy_devnet toy_deploy.

Definition keypair_of (k : Pubkey) (c : byte) : Keypair := {| ky_pubkey := k; ky_bytes := replicate 64 c |}.
Definition wallets5 : four Keypair := (keypair_of (key x61) xa1, keypair_of (key x62) xa2, keypair_of (key x63) xa3, keypair_of (key x64) xa4).
Definition deploy5 : DeployWorld :=
  {| dw_out_exists := false; dw_repository := dw_repository deploy_world; dw_rpc := deploy_rpc; dw_payer := Some (keypair_of fee_key xa5);
     dw_key_files := {| kf_root := Some (bstr "/repo"); kf_configured := Some (bstr "key.json"); kf_is_symlink := fun _ => false;
                        kf_canonicalize := fun _ => Some (bstr "/keys/key.json"); kf_read_keypair := fun _ => Some (keypair_of ID xa6) |};
     dw_executable := Some (bstr "/bin/kageb"); dw_private_root := {| ri_create := true; ri_permissions := true; ri_canonical := Some (bstr "/private") |};
     dw_run_directory := Some (bstr "/private/run"); dw_io := deploy_io; dw_calls := deploy_calls; dw_environment := environment4;
     dw_buffer := keypair_of (key xbf) xa7 |}.

Definition tokens5 (pool_base pool_quote venue_base venue_quote : Z) (k : Pubkey) : option RpcAccount :=
  let amount := if k == pool_base_key then pool_base else if k == pool_quote_key then pool_quote else if k == venue_base_key then venue_base else venue_quote in
  Some {| ra_owner := TOKEN_PROGRAM_ID; ra_data := token_data base_mint_key venue_key amount |}.

Definition devnet_world (node : RpcReplies) (epoch : option RpcAccount) (evidence : EvidenceReplies) (polls : bytes64 -> nat -> PollReplies) : DevnetWorld :=
  {| nw_deploy := deploy5; nw_operator := Some operator_key; nw_venue_authority := keypair_of venue_key xa8;
     nw_attesters := (Some (key x21), Some (key x22), Some (key x23)); nw_wallets := wallets5; nw_calls := setup1; nw_dealer := Some (key x05);
     nw_clock := Some (clock_rpc 50 1500); nw_epoch_id := Some epoch_id0; nw_slot := Some 50%Z; nw_accounts_open := io_fine;
     nw_reservations_open := io_fine; nw_suspensions_open := io_fine; nw_register := fun _ => io_fine; nw_members := draws_of;
     nw_package_nonce := Some (key x06); nw_keyper_directory := fun index => nth_error [bstr "/private/k0"; bstr "/private/k1"; bstr "/private/k2"] index;
     nw_keyper_permissions := fun _ => true; nw_sign_lock := child node; nw_release_share := fun index _ => child node index;
     nw_sign_settlement := child node; nw_confirmed := node; nw_settlement_nonce := Some (key x07); nw_tokens_before := tokens5 4 400 10 0;
     nw_tokens_after := tokens5 6 200 8 200; nw_epoch_after := epoch;
     nw_finalize := {| sio_reservations := io_fine; sio_query := io_fine; sio_apply := io_fine |}; nw_query := fun _ => io_fine;
     nw_publish := publish_io;
     nw_verifier := {| fv_executable := Some (bstr "/bin/kageb");
       fv_run := fun _ stdin => Exited {| out_success := true; out_stderr := [];
         out_stdout := (bstr "VERIFIED: evidence " ++ take 64 stdin ++ bstr " settlement " ++ replicate 64 (byte_of 31) ++ [x0a])%list |} |};
     nw_polls := polls; nw_evidence := evidence |}.

(** The package the run prepares, and the epoch locked on it. *)
Definition silent : RpcReplies := {| get_account := fun _ => None; get_multiple_accounts := fun _ => None |}.
Definition package5 : LockPackageV1 := built package0 (
  d ← map_err Demo (snd (devnet_deployment deploy5 (key_text ID) (bstr "rpc")));
  p ← devnet_prepare (devnet_world silent None node4 (fun _ _ => {| pl_statuses := None; pl_transaction := None |})) d (bstr "/payer.json");
  Ok (pr_package p)).
Definition locked5 : EpochStateV1 :=
  let payload := LockPackageV1_lock_payload package5 in
  set_locked (new_epoch pool_key epoch_key pool1 {| ca_epoch_id := epoch_id0; ca_minimum_count := 4; ca_quote_atoms_per_lot := 100;
    ca_lock_deadline := 1800; ca_abort_deadline := 2400 |}) payload (LockPayloadV1_digest payload).
Definition node5 : RpcReplies :=
  {| get_account := fun _ => Some (55%Z, Some (stored locked5));
     get_multiple_accounts := fun _ => Some (60%Z, [Some (stored locked5); Some {| ra_owner := ID; ra_data := PoolStateV1_encode pool1 |}; Some (clock_rpc 60 1600)]) |}.
Definition settlement5 : SettlementPayloadV1 :=
  let share index submission := {| rel_epoch_account := epoch_key; rel_lock_digest := LockPayloadV1_digest (LockPackageV1_lock_payload package5);
    rel_ciphertext_hash := sha256 (es_ciphertext submission); rel_index := index; rel_share := tt |} in
  built (full_payload epoch_key pool1 locked5 compact0) (
    evidence ← try_map (fun s => map_err (fun _ => tt) (DecryptionEvidenceV1_new (share 0%Z s) (share 1%Z s))) (pk_submissions package5);
    confirmed ← map_err (fun _ => tt) (fetch_confirmed_lock node5 epoch_key);
    r ← map_err (fun _ => tt) (recompute package5 evidence (key x07) confirmed);
    Ok (rc_payload r)).
Definition epoch5 : EpochStateV1 := set_settled locked5 settlement5 (SettlementPayloadV1_digest settlement5).

(** The transactions the node confirms: the four fundings, the lock and the settlement. *)
Definition funding5 (wallet : byte) (first : nat) : FetchedTransaction :=
  fetched_of (byte_of (Z.of_nat (first + 4))) 10
    [fee_key; key wallet; drawn first; drawn (S first); base_mint_key; quote_mint_key; pool_base_key; pool_quote_key; TOKEN_PROGRAM_ID]
    [compiled 8 [2; 4; 6; 1]%Z (transfer_data 1); compiled 8 [3; 5; 7; 1]%Z (transfer_data 100)] []
    [balance_of 2 base_mint_key (key wallet) (bstr "1"); balance_of 3 quote_mint_key (key wallet) (bstr "100");
     balance_of 6 base_mint_key vault_key (bstr "0"); balance_of 7 quote_mint_key vault_key (bstr "0")]
    [balance_of 2 base_mint_key (key wallet) (bstr "0"); balance_of 3 quote_mint_key (key wallet) (bstr "0");
     balance_of 6 base_mint_key vault_key (bstr "1"); balance_of 7 quote_mint_key vault_key (bstr "100")].
Definition shown5 : KagebObserverAccounts :=
  {| ko_fee_payer := fee_key; ko_payer := operator_key; ko_pool := pool_key; ko_epoch := epoch_key; ko_vault_authority := vault_key;
     ko_pool_base_vault := pool_base_key; ko_pool_quote_vault := pool_quote_key; ko_venue_authority := venue_key;
     ko_venue_base_account := venue_base_key; ko_venue_quote_account := venue_quote_key; ko_base_mint := base_mint_key;
     ko_quote_mint := quote_mint_key; ko_base_lot_atoms := 1; ko_quote_atoms_per_lot := 100 |}.
Definition lock_tx5 : FetchedTransaction :=
  let digest := ep_lock_digest epoch5 in
  fetched_of (byte_of 30) 20 (lock_keys shown5)
    [signed_verifier 6 (key x21) digest; signed_verifier 6 (key x22) digest;
     compiled 7 [1; 2; 3; 4; 5]%Z (KagebInstruction_encode (ProgramInstruction.Lock (LockPackageV1_lock_payload package5)))] [] [] [].
Definition settlement_tx5 : FetchedTransaction :=
  let digest := ep_settlement_digest epoch5 in
  fetched_of (byte_of 31) 30 (settlement_keys shown5)
    [signed_verifier 15 (key x21) digest; signed_verifier 15 (key x22) digest;
     compiled 16 [1; 2; 3; 4; 5; 6; 7; 8; 9; 10; 11; 12; 13; 14]%Z (KagebInstruction_encode (Settle (CompactSettlementPayload_from settlement5)))]
    [{| ui_index := 2; ui_instructions := [Compiled 12 [6; 11; 9; 4]%Z (map byte_val (transfer_data 200)); Compiled 12 [8; 10; 5; 7]%Z (map byte_val (transfer_data 2))] |}]
    [balance_of 5 base_mint_key vault_key (bstr "4"); balance_of 6 quote_mint_key vault_key (bstr "400");
     balance_of 8 base_mint_key venue_key (bstr "10"); balance_of 9 quote_mint_key venue_key (bstr "0")]
    [balance_of 5 base_mint_key vault_key (bstr "6"); balance_of 6 quote_mint_key vault_key (bstr "200");
     balance_of 8 base_mint_key venue_key (bstr "8"); balance_of 9 quote_mint_key venue_key (bstr "200")].
Definition transactions5 : list FetchedTransaction := [funding5 x61 7; funding5 x62 12; funding5 x63 17; funding5 x64 22; lock_tx5; settlement_tx5].
Definition status5 (t : FetchedTransaction) : SignatureStatus := {| st_slot := fx_slot t; st_finalized := true; st_err := false; st_status_err := false |}.
Definition find5 (s : bytes64) : option FetchedTransaction := List.find (fun t => bool_decide (head (fx_signatures t) = Some s)) transactions5.
Definition evidence5 : EvidenceReplies :=
  {| er_genesis_hash := Some DEVNET_GENESIS_HASH;
     er_account := fun call k =>
       if (call == 0) && (k == ID) then node_account call k else
       if k == programdata_address then Some (Some (public UPGRADEABLE_LOADER_ID false deployed_data)) else
       if k == pool_key then Some (Some (public ID false (PoolStateV1_encode pool1))) else
       if k == epoch_key then Some (Some (public ID false (EpochStateV1_encode epoch5))) else node_account call k;
     er_statuses := fun _ => Some (map (fun t => Some (status5 t)) transactions5); er_transaction := fun _ s => find5 s |}.
Definition polls5 (s : bytes64) (turn : nat) : PollReplies :=
  {| pl_statuses := Some [if turn =? 0 then None else status5 <$> find5 s]; pl_transaction := find5 s |}.
Definition world5 : DevnetWorld := devnet_world node5 (Some (stored epoch5)) evidence5 polls5.
Definition run5 : list DeployEvent * gmap text (list byte) * result DevnetError text :=
  devnet_proof world5 ∅ (bstr "/payer.json") (key_text ID) evidence_path (bstr "rpc").

Lemma devnet_runs : is_ok (snd run5) = true /\ bool_decide (is_Some (snd (fst run5) !! evidence_path)) = true.
Proof. vm_compute. split; reflexivity. Qed.

Lemma devnet_run_keeps_secrets_witness : exists bytes, snd (fst run5) !! evidence_path = Some bytes /\
  ~ occurs_in (arr_list operator_key) bytes /\ ~ occurs_in (hex_bytes (arr_list (filled 32 (byte_of 64)))) bytes.
Proof.
  destruct devnet_runs as [_ HP]. apply bool_decide_eq_true in HP as [bytes HP].
  destruct run5 as [[events files'] outcome] eqn:E. unfold run5 in E. cbn [fst snd] in HP |- *.
  pose proof (devnet_run_keeps_secrets world5 ∅ (bstr "/payer.json") (key_text ID) evidence_path (bstr "rpc") events files' outcome E) as [HF _].
  clear E. destruct HF as [->|(d & b & _ & _ & -> & _ & HS)]; [rewrite lookup_empty in HP; discriminate HP|].
  rewrite lookup_insert_eq in HP. injection HP as ->. exists bytes. rewrite lookup_insert_eq. split; [reflexivity|]. split.
  - apply (HS (arr_list operator_key)); [by apply secret_operator | discriminate | apply elem_of_cons; by left].
  - apply (HS (arr_list (filled 32 (byte_of 64)))); [|discriminate | apply elem_of_cons; right; apply elem_of_cons; by left].
    apply (secret_member _ _ _ 0); [lia|]. by apply secret_trading.
Defined.

Lemma devnet_report_holds_witness : exists p run, settles world5 p run /\ sq_residual (sr_settlement run) = Residual.Buy 2.
Proof.
  destruct devnet_runs as [HR _]. destruct run5 as [[events files'] outcome] eqn:E. unfold run5 in E. destruct outcome as [report|error]; [|discriminate HR].
  destruct (devnet_report_holds world5 ∅ (bstr "/payer.json") (key_text ID) evidence_path (bstr "rpc") events files' report E)
    as (p & run & _ & _ & _ & _ & _ & HS & HB & _).
  exists p, run. split; [exact HS | exact HB].
Defined.
End runs.
